(* ===== verification/_CoqProject ===== *)
-Q . S2P
Prelude.v
KList.v
Sched.v
Mutex.v
KString.v
KMath.v
KMathProps.v
KPrintf.v
KPrintfProps.v
PageAlloc.v
Slab.v
KMem.v
PageTable.v
PageTableInv.v
PageTableProps.v
PageTableBoot.v
Vfs.v
Ramfs.v
Namev.v
VfsSyscall.v
VfsBoot.v
VnodeInv.v
RamfsInv.v
FsTree.v
NamevInv.v
PathInv.v
LinkInv.v
FileInv.v
OpenInv.v
BootInv.v
RefBound.v
VfsSafe.v
VfsProps.v
Proc.v
ProcInv.v
ProcExit.v
ProcMachine.v
ProcProps.v
ProcKMem.v
ProcBoot.v
Term.v
TermProps.v
