(* ===== verification/Prelude.v ===== *)
(** * A verification development for the Weenix kernel

    Weenix is a small Unix-like kernel for the i386 written in C.  This library
    models its parts as executable definitions over explicit states and proves
    what makes each part correct.  Names of definitions are those of the source;
    file names below are relative to src/.

    ** The parts and how they interact

    Everything in the kernel hangs on circular lists (kernel/include/util/list.h).
    The page allocator (kernel/mm/page.c) hands out blocks of pages; the slab
    allocator (kernel/mm/slab.c) cuts blocks into objects, gives kmalloc its
    memory, and is asked for unused slabs back when pages run out.  The page tables
    (kernel/mm/pagetable.c) are pages of the page allocator and map the memory they
    are in.  Threads sleep on queues and are switched by the scheduler
    (kernel/proc/sched.c); mutexes (kernel/proc/kmutex.c) are built on these
    queues.  A process (kernel/proc/proc.c, kthread.c, context.c) has a struct and a
    thread from the slab allocators, a page directory and a stack; parents wait for
    their children on a queue.  kmain (kernel/main/kmain.c) sets all this up and
    starts the first two processes.  The file system takes vnodes and open files
    from slab allocators, inodes from kmalloc and their contents from page_alloc: a
    system call (kernel/fs/vfs_syscall.c, open.c) resolves a path
    (kernel/fs/namev.c) through the cache of vnodes (kernel/fs/vnode.c) to an inode
    of the mounted file system (kernel/fs/ramfs/ramfs.c) and works on the open
    files (kernel/fs/file.c) of the process.  The keyboard, the virtual terminals
    and the screen (kernel/drivers/tty) stand by themselves, and so do the string
    functions, 64-bit division, and formatted output and input (kernel/util).

    ** The files

    - Prelude: kernel computations.  C code is a function from a state to an
      outcome [kres]: a value with a new state, a failed assertion or panic, a
      misuse of memory, a call of sched_switch together with the rest of the
      computation, or the end of the fuel of a loop.  [wp] says how a computation
      may end.  Also 32-bit integers, counts of type int, whose overflow is a
      fault, the error numbers and shared lemmas.
    - KList: list.h on a heap of links.  A list is a cycle of links; the macros
      are the pointer updates of the source.
    - Sched: sched.c.  The state has the thread structs, the queues, the current
      thread and the interrupt level; a queue is the sequence of the threads on
      it, which the theorems of KList justify.
    - Mutex: kmutex.c, and the machine that interleaves threads: a step starts a
      kernel call on the current thread, finishes it, or dispatches the next
      thread of the run queue and resumes its saved continuation.
    - KString: kernel/util/string.c on a memory of bytes, the string instructions
      of its inline assembly included.
    - KMath, KMathProps: kernel/util/math.c, the division of 64-bit numbers in
      digits of 16 bits, and its proof.
    - KPrintf, KPrintfProps: kernel/util/printf.c with ctype.h, and strtol of the
      user library; the text that a format stands for, and the proofs.
    - PageAlloc: page.c, page.h and util/bits.h.  A group has its free lists and
      pair bitmaps; the functions are polymorphic in the rest of the state, and
      slab_allocators_reclaim is an argument.
    - Slab: slab.c over the page allocator, with the argument above filled in.
      Structures inside slabs are maps from addresses.
    - KMem: the interface between the allocators and the file system, a class of
      operations and a class of their laws, with Slab and PageAlloc as instance.
    - PageTable: pagetable.c and phys.c.  Physical memory is kept by frames, and
      every load and store goes through the tables in it.
    - PageTableInv, PageTableProps: the invariant [ptinv] of a set of address
      spaces over any page allocator with the laws of [PageMem], what the operations
      do, and the kernel's own allocator as instance.
    - PageTableBoot: the tables of the boot loader (kernel/boot/paging.h) and the
      state that pt_init and pt_template_init leave.
    - Vfs: vnode.c, file.c and the ramfs operations vnode.c calls.  The state has
      the vnodes, files, inodes and pages as maps from addresses, the list of
      vnodes in use, the devices, and the descriptors and working directory of the
      current process; what is freed leaves its map, so a later use is a fault.
    - Ramfs: the rest of ramfs.c, the special files of vnode.c, and the calls
      through the tables of vnode operations.
    - Namev: namev.c.  A pointer into a path is the rest of the string.
    - VfsSyscall: vfs_syscall.c and open.c, every call that is not a stub.
    - VfsBoot: vfs.c, vnode_init and file_init, and what idleproc_run of
      kernel/main/kmain.c does with the file system.
    - VnodeInv: the invariant [vninv] of the vnode cache, given the link counts,
      the references that are held and the other memory in use.
    - RamfsInv: what each ramfs operation does to the contents of the inodes.
    - FsTree, NamevInv, PathInv, LinkInv: the tree of directories, the resolution of
      paths as a function on it, the calls that take a path, and stat and link.
      [leaves] says exactly which references a call leaves behind.
    - FileInv, OpenInv: the invariant [finv] of open files and the calls on
      descriptors; do_open.
    - BootInv: mounting and shutting down.
    - RefBound: by how much a call can raise a reference count.
    - VfsSafe: the machine whose steps are file system calls.
    - VfsProps: the theorems about the file system, with their instances.
    - Proc: proc.c, kthread.c, context.c and the start of processes in kmain.c, over
      the memory operations of the class [ProcMem].
    - ProcInv, ProcExit: the invariant [psinv] of the process tree, given the
      address-space maps that have been lost, and what creating, exiting and waiting
      do to it.
    - ProcMachine, ProcProps: the machine that interleaves threads which start
      processes, exit, wait and yield, and its theorems.
    - ProcKMem, ProcBoot: the kernel's allocators and page tables keep the laws that
      Proc relies on; kmain from the boot loader's memory to the first processes.
    - Term, TermProps: virtterm.c, screen.c and keyboard.c, on the circular buffers
      and the video memory, and their theorems.

    ** The theorems

    - KList: every macro implements its operation on sequences on any heap that
      represents lists; iteration may remove the current element.
    - Sched: broadcast wakes every sleeper in order; cancelling wakes exactly the
      cancellable sleepers.
    - Mutex: with calls that follow the locking discipline, which excludes
      kmutex_lock_cancellable, from any reachable state, at most one thread is
      between lock and unlock, no kernel call panics or touches bad memory, waiters
      only wait for a holder, and unlock hands the mutex to the longest waiter.  A
      run shows that a cancelled kmutex_lock_cancellable breaks exclusion.
    - KString: functional correctness of comparison, search, concatenation and
      tokenising, with the bytes they may change.
    - KMathProps: the division is the division, for all 64-bit numbers and divisors
      other than 0.
    - KPrintfProps: vsnprintf writes the text that the format stands for, as far as
      it fits; vsscanf reads integers back; strtol.
    - PageAlloc: allocation returns a disjoint aligned block of the right order
      or fails exactly when there is none; freeing is safe and keeps the buddy
      invariant; coalescing is complete; ranges become well-formed groups, and a
      counterexample shows why the size must be a multiple of 128 pages.
    - Slab: allocated objects never overlap each other or foreign blocks; kmalloc
      and kfree; reclaiming loses no object; start-up establishes the invariant.
    - PageTableProps, PageTableBoot: pt_map and pt_unmap_range as updates of one
      address space, with the tables that are given back; the life of a directory;
      pt_init maps what it hands to the allocator, and establishes the invariant when
      that is a multiple of 128 pages.
    - VfsProps: booting establishes the invariant of the file system, on any memory
      with the laws of KMem and in particular after slab_init, vnode_init and
      file_init; no sequence of admissible calls panics, uses freed memory or loops,
      as long as the counts, which some calls raise for ever, fit an int; a vnode and
      its inode live exactly as long as they are used; a path leads to the directory
      its components name; mkdir, unlink, rmdir and open on every branch, with the
      references and structures that error paths leave behind; writes stay in the
      page and are read back; shutting down gives all vnodes, inodes and pages back.
      Evaluations show cases that are not admissible and crash.
    - ProcProps, ProcBoot: pids are fresh; in every interleaving in which idle and
      init do not exit, no call goes wrong, the processes are a tree, the objects and
      pages handed out are those of the processes and threads and the lost maps of
      processes that are gone, and a waiting parent other than init does not miss an
      exit; kmain leads to such a state or stops for lack of memory.
    - TermProps: no access outside the buffers; the screen that is updated character
      by character is what a redraw would show; the text of a terminal; what is
      typed arrives.

    ** Fuel and bounds

    Loops over lists of the state are structural.  sched_broadcast_on takes the
    queue length as fuel, the string loops the size of the memory, __page_join
    the number of orders and the search for a slab two rounds; the walk along a
    path and the loops of vsnprintf and vsscanf take the length of the string; the
    division takes four rounds to skip zero digits, 16 shifts to normalise and two
    corrections of a digit, the logarithm 32 rounds, the digits of a number 64;
    pt_init takes one round for each entry of a directory and the memory map one for
    each range; _proc_getid one round more than there are processes, and do_waitpid
    two.  The theorems state that these suffice, since they conclude with a returned
    value.  vget starts again after it gave up the processor, at most 16 times in the
    model; the theorems about file system calls follow a call up to that point,
    which it reaches only when no vnode can be allocated.
    Integers wrap at their width where the source can overflow.  The reference
    counts of vnodes and files are ints, and to raise one above the largest int is a
    fault.

    ** The configuration

    The file system is that of a kernel without __S5FS__ and __MOUNTING__, with a
    ramfs as root, and one process makes the calls.  Config.mk turns S5FS on, but
    the functions of kernel/fs/s5fs that would serve the calls are stubs in the
    sources.  Vnodes have no resident pages at first, as there is no file mapping;
    vput and vfs_is_in_use keep their counts all the same.  The process machine and
    the file system share the state but not yet their steps: no process of the
    machine opens a file.

    ** Not modelled

    The memory areas of a process, page frames and memory objects beyond their
    set-up, and page faults; the system call layer, program loading, the
    kernel shell and the tests; the System V file system, fork, brk, the line
    discipline of terminals and the memory devices, of which the operations are
    stubs in the sources; the translation cache and the protection bits of page
    tables; the registers of a context and the switch of stacks in assembly; the
    set-up of interrupts, segments and timers, the disk, the boot loader but for its
    page tables, debug output; the user programs, the dynamic linker and the user
    library but for strtol (it repeats the formatter and the division of the
    kernel); the debugger scripts and build tools. *)

From stdpp Require Import base numbers list gmap strings.

(** * Kernel computations

    Kernel code runs to completion on its own thread except at the points
    where it gives up the processor.  A computation over a state [S] is a
    function from the state to one of five outcomes:
    - it returns a value and a new state;
    - a [KASSERT] fails or [panic] is called;
    - it uses memory it must not use (a NULL, freed or unlinked pointer);
    - it calls [sched_switch]: the state at the call, and what the thread does
      with whatever state it finds when it is switched back in;
    - the fuel given to a loop of the model is used up. *)
Inductive kres (S A : Type) : Type :=
| RRet (a : A) (s : S)
| RPanic (why : string)
| RFault (why : string)
| RSwitch (s : S) (k : S → kres S A)
| RFuel.

Arguments RRet {S A} a s.
Arguments RPanic {S A} why.
Arguments RFault {S A} why.
Arguments RSwitch {S A} s k.
Arguments RFuel {S A}.

Definition kM (S A : Type) : Type := S → kres S A.

Section Monad.
Context {S : Type}.

Definition kret {A} (a : A) : kM S A := λ s, RRet a s.

Fixpoint rbind {A B} (r : kres S A) (f : A → kM S B) : kres S B :=
  match r with
  | RRet a s => f a s
  | RPanic w => RPanic w
  | RFault w => RFault w
  | RSwitch s k => RSwitch s (λ s', rbind (k s') f)
  | RFuel => RFuel
  end.

Definition kbind {A B} (c : kM S A) (f : A → kM S B) : kM S B :=
  λ s, rbind (c s) f.

Definition kget : kM S S := λ s, RRet s s.
Definition kgets {A} (f : S → A) : kM S A := λ s, RRet (f s) s.
Definition kput (s : S) : kM S unit := λ _, RRet tt s.
Definition kmodify (f : S → S) : kM S unit := λ s, RRet tt (f s).
Definition kpanic {A} (why : string) : kM S A := λ _, RPanic why.
Definition kfault {A} (why : string) : kM S A := λ _, RFault why.

(** [KASSERT(x)] of util/debug.h. *)
Definition KASSERT (b : bool) (why : string) : kM S unit :=
  λ s, if b then RRet tt s else RPanic why.

(** A pointer that is dereferenced: [None] is NULL or dangling. *)
Definition kderef {A} (o : option A) (why : string) : kM S A :=
  λ s, match o with Some a => RRet a s | None => RFault why end.

(** The point where [context_switch] leaves the calling thread. *)
Definition kswitch : kM S unit := λ s, RSwitch s (λ s', RRet tt s').

End Monad.

Declare Scope kernel_scope.
Delimit Scope kernel_scope with kernel.
Notation "'let*' x ':=' c 'in' k" := (kbind c (λ x, k))
  (at level 10, x name, c at level 100, k at level 200,
   format "'[v' 'let*'  x  ':='  c  'in' '/' k ']'") : kernel_scope.
Notation "'let*' ( x , y ) ':=' c 'in' k" := (kbind c (λ p, let '(x, y) := p in k))
  (at level 10, x name, y name, c at level 100, k at level 200,
   format "'[v' 'let*'  ( x ,  y )  ':='  c  'in' '/' k ']'") : kernel_scope.
Notation "c ;;; k" := (kbind c (λ _, k))
  (at level 199, right associativity, format "'[v' c ;;; '/' k ']'") : kernel_scope.
Open Scope kernel_scope.

(** A computation on a part of a larger state. *)
Section Lift.
Context {S T : Type} (get : S → T) (set : T → S → S).

Fixpoint rlift {A} (s : S) (r : kres T A) : kres S A :=
  match r with
  | RRet a t => RRet a (set t s)
  | RPanic w => RPanic w
  | RFault w => RFault w
  | RSwitch t k => RSwitch (set t s) (λ s', rlift s' (k (get s')))
  | RFuel => RFuel
  end.

Definition klift {A} (c : kM T A) : kM S A := λ s, rlift s (c (get s)).
End Lift.

(** The faults of a component, under its name. *)
Fixpoint rlabel {S A} (name : string) (r : kres S A) : kres S A :=
  match r with
  | RFault w => RFault (name +:+ w)
  | RSwitch s k => RSwitch s (λ s', rlabel name (k s'))
  | r => r
  end.
Definition klabel {S A} (name : string) (c : kM S A) : kM S A := λ s, rlabel name (c s).

Section MonadLaws.
Context {S : Type}.

Lemma kbind_ret_l {A B} (a : A) (f : A → kM S B) s : kbind (kret a) f s = f a s.
Proof. done. Qed.

Lemma kbind_of_ret {A B} (c : kM S A) (f : A → kM S B) s a s' :
  c s = RRet a s' → kbind c f s = f a s'.
Proof. unfold kbind. by intros ->. Qed.

Lemma kgets_next {A B} (f : S → A) (k : A → kM S B) s : kbind (kgets f) k s = k (f s) s.
Proof. done. Qed.

Lemma kassert_next {A} b why (k : kM S A) s : b = true → (KASSERT b why ;;; k) s = k s.
Proof. by intros ->. Qed.

Lemma kget_next {A} (k : S → kM S A) s : (let* x := kget in k x) s = k s s.
Proof. done. Qed.

Lemma kmodify_next {A} (f : S → S) (k : kM S A) s : (kmodify f ;;; k) s = k (f s).
Proof. done. Qed.

Lemma kderef_next {A B} (o : option B) b w (k : B → kM S A) s : o = Some b → (let* x := kderef o w in k x) s = k b s.
Proof. by intros ->. Qed.

Lemma kbind_of_panic {A B} (c : kM S A) (f : A → kM S B) s w : c s = RPanic w → kbind c f s = RPanic w.
Proof. unfold kbind. by intros ->. Qed.

Lemma kbind_of_fault {A B} (c : kM S A) (f : A → kM S B) s w : c s = RFault w → kbind c f s = RFault w.
Proof. unfold kbind. by intros ->. Qed.

Lemma rbind_RRet_inv {A B} (r : kres S A) (f : A → kM S B) b s :
  rbind r f = RRet b s → ∃ a s', r = RRet a s' ∧ f a s' = RRet b s.
Proof. destruct r; simpl; try discriminate; eauto. Qed.

End MonadLaws.

(** * Weakest preconditions

    [wp E c Q s]: started in [s], [c] does not panic or run out of fuel; it returns
    with [Q], or it ends in one of the other ways [E] allows: it gives up the
    processor in a state, or it faults. *)
Inductive stop (S : Type) := Switched (s : S) | Faulted (why : string).
Arguments Switched {S}.
Arguments Faulted {S}.

Definition wp {S A} (E : stop S → Prop) (c : kM S A) (Q : A → S → Prop) (s : S) : Prop :=
  match c s with
  | RRet a s' => Q a s'
  | RSwitch s' _ => E (Switched s')
  | RFault why => E (Faulted why)
  | _ => False
  end.

Section Wp.
Context {S : Type} (E : stop S → Prop).

Lemma wp_bind {A B} (c : kM S A) (k : A → kM S B) Q s :
  wp E c (λ a s', wp E (k a) Q s') s → wp E (kbind c k) Q s.
Proof. unfold wp, kbind. by destruct (c s). Qed.

Lemma wp_mono {A} (c : kM S A) (P Q : A → S → Prop) s :
  wp E c P s → (∀ a s', P a s' → Q a s') → wp E c Q s.
Proof. unfold wp. destruct (c s); auto. Qed.

Lemma wp_ret {A} (a : A) (Q : A → S → Prop) s : Q a s → wp E (kret a) Q s.
Proof. done. Qed.

Lemma wp_run {A} (c : kM S A) (Q : A → S → Prop) s a s' : c s = RRet a s' → Q a s' → wp E c Q s.
Proof. unfold wp. by intros ->. Qed.

Lemma wp_eq {A} (c c' : kM S A) (Q : A → S → Prop) s : c s = c' s → wp E c' Q s → wp E c Q s.
Proof. unfold wp. by intros ->. Qed.

Lemma wp_assert b why (Q : unit → S → Prop) s : b = true → Q tt s → wp E (KASSERT b why) Q s.
Proof. by intros ->. Qed.

Lemma wp_and {A} (c : kM S A) (P Q : A → S → Prop) s :
  wp E c P s → wp E c Q s → wp E c (λ a s', P a s' ∧ Q a s') s.
Proof. unfold wp. by destruct (c s). Qed.

Lemma wp_returns {A} (c : kM S A) (Q : A → S → Prop) s :
  (∀ x, ¬ E x) → wp E c Q s → ∃ a s', c s = RRet a s' ∧ Q a s'.
Proof. unfold wp. intros Hn. destruct (c s) eqn:Ec; try done; [eauto|..]; intros ?%Hn; done. Qed.
End Wp.

(** Fewer ways to end. *)
Lemma wp_strict {S A} (E E' : stop S → Prop) (c : kM S A) (Q : A → S → Prop) s :
  wp E c Q s → (∀ s' k, c s = RSwitch s' k → E (Switched s') → E' (Switched s')) →
  (∀ why, c s = RFault why → E (Faulted why) → E' (Faulted why)) → wp E' c Q s.
Proof. unfold wp. destruct (c s); naive_solver. Qed.

(** * Lists *)

Lemma filter_ne_absent `{EqDecision A} (x : A) (l : list A) : x ∉ l → filter (.≠ x) l = l.
Proof.
  induction l as [|y l IH]; intros Hn; [done|].
  rewrite filter_cons_True by set_solver. by rewrite IH by set_solver.
Qed.

(** Removing the one occurrence of an element. *)
Lemma filter_ne_split `{EqDecision A} (x : A) (ys zs : list A) :
  x ∉ ys → x ∉ zs → filter (.≠ x) (ys ++ x :: zs) = ys ++ zs.
Proof.
  intros Hy Hz. rewrite filter_app, filter_cons_False by (intros Hn; by apply Hn).
  by rewrite !filter_ne_absent.
Qed.

(** * Maps *)

Lemma insert_alter `{Countable K} {A} (f : A → A) (m : gmap K A) k x :
  m !! k = Some x → <[k := f x]> m = alter f k m.
Proof.
  intros Hx. apply map_eq. intros j. destruct (decide (k = j)) as [->|?].
  - by rewrite lookup_insert_eq, lookup_alter_eq, Hx.
  - by rewrite lookup_insert_ne, lookup_alter_ne.
Qed.

(** * Machine integers *)

(** 32-bit unsigned wrap-around ([uint32_t], [uintptr_t], [size_t]). *)
Definition u32 (x : Z) : Z := (x `mod` 2 ^ 32)%Z.
(** 32-bit two's complement ([int], [off_t]); the value a conversion to a
    signed type gives on this target. *)
Definition i32 (x : Z) : Z := ((x + 2 ^ 31) `mod` 2 ^ 32 - 2 ^ 31)%Z.

Lemma u32_range x : (0 ≤ u32 x < 2 ^ 32)%Z.
Proof. apply Z.mod_pos_bound. lia. Qed.

Lemma u32_small x : (0 ≤ x < 2 ^ 32)%Z → u32 x = x.
Proof. apply Z.mod_small. Qed.

Lemma i32_range x : (- 2 ^ 31 ≤ i32 x < 2 ^ 31)%Z.
Proof.
  unfold i32. pose proof (Z.mod_pos_bound (x + 2 ^ 31) (2 ^ 32)). lia.
Qed.

Lemma i32_small x : (- 2 ^ 31 ≤ x < 2 ^ 31)%Z → i32 x = x.
Proof. intros. unfold i32. rewrite Z.mod_small; lia. Qed.

(** [n++] on an [int]: an overflow is undefined behaviour, a fault here. *)
Definition INT_MAX : Z := (2 ^ 31 - 1)%Z.
Definition OVERFLOW : string := "signed overflow".
Definition int_inc {S} (n : Z) : kM S Z := if (n <? INT_MAX)%Z then kret (n + 1)%Z else kfault OVERFLOW.

Lemma int_inc_run {S} n (s : S) : (n < INT_MAX)%Z → int_inc n s = RRet (n + 1)%Z s.
Proof. intros Hn. unfold int_inc. by rewrite (proj2 (Z.ltb_lt _ _) Hn). Qed.

Create HintDb kernel discriminated.
#[export] Hint Resolve u32_range i32_range : kernel.

(** * Closed terms *)

(** The contents of a concrete map. *)
Ltac map_cases := repeat match goal with
  | H : <[_ := _]> _ !! _ = Some _ |- _ => apply lookup_insert_Some in H as [[<- <-]|[_ H]]
  | H : {[_ := _]} !! _ = Some _ |- _ => apply lookup_singleton_Some in H as [<- <-]
  end; simplify_eq.
(** A decidable fact about closed terms. *)
Ltac closed := apply (bool_decide_unpack _); vm_compute; exact I.

(** * Error numbers (kernel/include/errno.h) *)
Definition EPERM : Z := 1.
Definition ENOENT : Z := 2.
Definition EINTR : Z := 4.
Definition EBADF : Z := 9.
Definition ECHILD : Z := 10.
Definition ENOMEM : Z := 12.
Definition EFAULT : Z := 14.
Definition EBUSY : Z := 16.
Definition EEXIST : Z := 17.
Definition ENOTDIR : Z := 20.
Definition EISDIR : Z := 21.
Definition EINVAL : Z := 22.
Definition EMFILE : Z := 24.
Definition ENXIO : Z := 6.
Definition ENOSPC : Z := 28.
Definition ENAMETOOLONG : Z := 36.
Definition ENOTEMPTY : Z := 39.
Definition ENOTSUP : Z := 95.

Lemma and_mid (A B C : Prop) : B → A ∧ C → A ∧ B ∧ C.
Proof. tauto. Qed.
