(* ===== verification/KList.v ===== *)
(** Circular doubly linked lists: kernel/include/util/list.h.

    Every queue and table of the kernel is threaded through [list_link_t]
    fields with these macros.  The model keeps the pointers: a heap maps the
    address of a link (or of a list head, the same struct) to its two fields,
    and each macro is the sequence of loads and stores it expands to.  The
    theorems show that on a well-formed list the macros are the operations on
    the sequence of its elements, and leave every other link alone. *)

From stdpp Require Import base list gmap strings.
From S2P Require Import Prelude.

(** struct list: [NULL] is [None]. *)
Record link (L : Type) := Link { l_next : option L; l_prev : option L }.
Arguments Link {L} _ _.
Arguments l_next {L} _.
Arguments l_prev {L} _.

Module KList.
Section Ops.
Context {L : Type} `{Countable L}.

Abbreviation heap := (gmap L (link L)).
Abbreviation lM := (kM (gmap L (link L))).

(** Loads and stores through a pointer: dereferencing NULL or an address that
    holds no link is a fault. *)
Definition load (p : option L) : lM (L * link L) :=
  let* a := kderef p "NULL dereference" in
  let* h := kget in
  let* k := kderef (h !! a) "invalid address" in
  kret (a, k).

Definition load_next (p : option L) : lM (option L) :=
  let* (_, k) := load p in kret (l_next k).
Definition load_prev (p : option L) : lM (option L) :=
  let* (_, k) := load p in kret (l_prev k).
Definition store_next (p v : option L) : lM unit :=
  let* (a, k) := load p in kmodify (λ h, <[a := Link v (l_prev k)]> h).
Definition store_prev (p v : option L) : lM unit :=
  let* (a, k) := load p in kmodify (λ h, <[a := Link (l_next k) v]> h).

Definition list_link_init (p : option L) : lM unit :=
  store_prev p None ;;; store_next p None.

Definition list_link_is_linked (p : option L) : lM bool :=
  let* n := load_next p in
  if n is None then kret false else
  let* v := load_prev p in
  kret (if v is None then false else true).

Definition list_init (l : option L) : lM unit :=
  store_prev l l ;;; store_next l l.

Definition list_empty (l : option L) : lM bool :=
  let* n := load_next l in kret (bool_decide (n = l)).

Definition list_insert_before (old new : option L) : lM unit :=
  let prev := new in
  let next := old in
  store_next prev next ;;;
  let* np := load_prev next in
  store_prev prev np ;;;
  let* np' := load_prev next in
  store_next np' prev ;;;
  store_prev next prev.

Definition list_insert_head (l x : option L) : lM unit :=
  let* n := load_next l in list_insert_before n x.

Definition list_insert_tail (l x : option L) : lM unit :=
  list_insert_before l x.

Definition list_remove (ll : option L) : lM unit :=
  let* prev := load_prev ll in
  let* next := load_next ll in
  store_next prev next ;;;
  store_prev next prev ;;;
  store_prev ll None ;;;
  store_next ll None.

Definition list_remove_head (l : option L) : lM unit :=
  let* n := load_next l in list_remove n.

Definition list_remove_tail (l : option L) : lM unit :=
  let* p := load_prev l in list_remove p.

(** list_iterate_begin ... list_iterate_end: the successor is read before the
    body runs.  The accumulator holds the local variables of the loop body, and
    [fuel] bounds the number of elements visited. *)
Fixpoint list_iterate_from {A} (fuel : nat) (l cur : option L)
    (body : A → L → lM A) (acc : A) : lM A :=
  if bool_decide (cur = l) then kret acc else
  match fuel with
  | O => λ _, RFuel
  | S fuel =>
      let* c := kderef cur "NULL dereference" in
      let* next := load_next cur in
      let* acc' := body acc c in
      list_iterate_from fuel l next body acc'
  end.

Definition list_iterate {A} (fuel : nat) (l : option L)
    (body : A → L → lM A) (acc : A) : lM A :=
  let* first := load_next l in list_iterate_from fuel l first body acc.

(** list_iterate_reverse: the same along [l_prev]. *)
Fixpoint list_iterate_reverse_from {A} (fuel : nat) (l cur : option L)
    (body : A → L → lM A) (acc : A) : lM A :=
  if bool_decide (cur = l) then kret acc else
  match fuel with
  | O => λ _, RFuel
  | S fuel =>
      let* c := kderef cur "NULL dereference" in
      let* prev := load_prev cur in
      let* acc' := body acc c in
      list_iterate_reverse_from fuel l prev body acc'
  end.

Definition list_iterate_reverse {A} (fuel : nat) (l : option L)
    (body : A → L → lM A) (acc : A) : lM A :=
  let* last := load_prev l in list_iterate_reverse_from fuel l last body acc.

(** * What a list is *)

Definition nxt (h : heap) (a : L) : option L := h !! a ≫= l_next.
Definition prv (h : heap) (a : L) : option L := h !! a ≫= l_prev.

(** Consecutive elements point at each other. *)
Fixpoint linked (h : heap) (p : list L) : Prop :=
  match p with
  | a :: (b :: _) as r => nxt h a = Some b ∧ prv h b = Some a ∧ linked h r
  | _ => True
  end.

(** [l] heads a list with elements [xs]: going round from [l] through [xs] and
    back to [l], every link points at its neighbours. *)
Definition is_list (h : heap) (l : L) (xs : list L) : Prop :=
  NoDup (l :: xs) ∧ linked h (l :: xs ++ [l]).

(** * Sequences of list operations

    One operation of the macro interface, what it is on the pointers, and what
    it promises on the sequence of elements ([None] where the header says it
    must not be called). *)
Inductive lop :=
| LInsertHead (x : L)
| LInsertTail (x : L)
| LInsertBefore (old x : L)
| LRemove (x : L)
| LRemoveHead
| LRemoveTail.

Definition run_lop (l : L) (op : lop) : lM unit :=
  match op with
  | LInsertHead x => list_insert_head (Some l) (Some x)
  | LInsertTail x => list_insert_tail (Some l) (Some x)
  | LInsertBefore old x => list_insert_before (Some old) (Some x)
  | LRemove x => list_remove (Some x)
  | LRemoveHead => list_remove_head (Some l)
  | LRemoveTail => list_remove_tail (Some l)
  end.

Fixpoint run_lops (l : L) (ops : list lop) : lM unit :=
  match ops with
  | [] => kret tt
  | op :: ops => run_lop l op ;;; run_lops l ops
  end.

(** [x] placed in front of the first occurrence of [old]. *)
Fixpoint place_before (old x : L) (xs : list L) : list L :=
  match xs with
  | [] => [x]
  | y :: xs => if decide (y = old) then x :: y :: xs else y :: place_before old x xs
  end.

Definition lop_spec (l : L) (xs : list L) (op : lop) : option (list L) :=
  match op with
  | LInsertHead x => if decide (x ∈ l :: xs) then None else Some (x :: xs)
  | LInsertTail x => if decide (x ∈ l :: xs) then None else Some (xs ++ [x])
  | LInsertBefore old x =>
      if decide (x ∉ l :: xs ∧ old ∈ l :: xs) then Some (place_before old x xs) else None
  | LRemove x => if decide (x ∈ xs) then Some (filter (.≠ x) xs) else None
  | LRemoveHead => match xs with [] => None | _ :: ys => Some ys end
  | LRemoveTail => match xs with [] => None | _ => Some (removelast xs) end
  end.

Fixpoint lops_spec (l : L) (xs : list L) (ops : list lop) : option (list L) :=
  match ops with
  | [] => Some xs
  | op :: ops => xs' ← lop_spec l xs op; lops_spec l xs' ops
  end.

(** The links an operation brings into the list. *)
Definition lop_new (op : lop) : list L :=
  match op with
  | LInsertHead x | LInsertTail x | LInsertBefore _ x => [x]
  | _ => []
  end.

(** Links outside [ys] are the same in both heaps. *)
Definition frame (ys : list L) (h h' : heap) : Prop :=
  ∀ a, a ∉ ys → h' !! a = h !! a.

(** * Single operations *)

Lemma load_next_eq h a k : h !! a = Some k → load_next (Some a) h = RRet (l_next k) h.
Proof. intros Ha. cbv [load_next load kbind kderef kget kret]. simpl. by rewrite Ha. Qed.

Lemma load_prev_eq h a k : h !! a = Some k → load_prev (Some a) h = RRet (l_prev k) h.
Proof. intros Ha. cbv [load_prev load kbind kderef kget kret]. simpl. by rewrite Ha. Qed.

Lemma store_next_eq h a k v :
  h !! a = Some k → store_next (Some a) v h = RRet tt (<[a := Link v (l_prev k)]> h).
Proof. intros Ha. cbv [store_next load kbind kderef kget kret kmodify]. simpl. by rewrite Ha. Qed.

Lemma store_prev_eq h a k v :
  h !! a = Some k → store_prev (Some a) v h = RRet tt (<[a := Link (l_next k) v]> h).
Proof. intros Ha. cbv [store_prev load kbind kderef kget kret kmodify]. simpl. by rewrite Ha. Qed.

Lemma nxt_Some h a b : nxt h a = Some b → ∃ k, h !! a = Some k ∧ l_next k = Some b.
Proof. unfold nxt. intros (k & ? & ?)%bind_Some. eauto. Qed.

Lemma prv_Some h a b : prv h a = Some b → ∃ k, h !! a = Some k ∧ l_prev k = Some b.
Proof. unfold prv. intros (k & ? & ?)%bind_Some. eauto. Qed.

(** The pointers after [list_insert_before(old, new)]. *)
Lemma list_insert_before_ptrs h old new p :
  prv h old = Some p → is_Some (h !! p) → is_Some (h !! new) → new ≠ old → new ≠ p →
  ∃ h', list_insert_before (Some old) (Some new) h = RRet tt h' ∧
    (∀ a, nxt h' a = if decide (a = new) then Some old
                     else if decide (a = p) then Some new else nxt h a) ∧
    (∀ a, prv h' a = if decide (a = new) then Some p
                     else if decide (a = old) then Some new else prv h a) ∧
    frame [new; p; old] h h'.
Proof.
  intros (ko & Hold & Hp)%prv_Some [kp Hkp] [kn Hkn] Hne Hnp. unfold list_insert_before.
  erewrite kbind_of_ret by (by apply store_next_eq).
  erewrite kbind_of_ret by (eapply load_prev_eq; by simplify_map_eq).
  erewrite kbind_of_ret by (eapply store_prev_eq; by simplify_map_eq). simpl.
  rewrite insert_insert_eq.
  erewrite kbind_of_ret by (eapply load_prev_eq; by simplify_map_eq).
  rewrite Hp. destruct (decide (p = old)) as [->|Hpo].
  - erewrite kbind_of_ret by (eapply store_next_eq; by simplify_map_eq).
    erewrite store_prev_eq by (by simplify_map_eq). simpl. rewrite insert_insert_eq.
    eexists; split; [done|]. unfold nxt, prv, frame. split_and!; intros a;
      rewrite ?lookup_insert; repeat case_decide; simplify_eq/=; try done; set_solver.
  - erewrite kbind_of_ret by (eapply store_next_eq; by simplify_map_eq).
    erewrite store_prev_eq by (by simplify_map_eq). simpl.
    eexists; split; [done|]. unfold nxt, prv, frame. split_and!; intros a;
      rewrite ?lookup_insert; repeat case_decide; simplify_map_eq; try done; set_solver.
Qed.

(** The pointers after [list_remove(x)]. *)
Lemma list_remove_ptrs h x p n :
  prv h x = Some p → nxt h x = Some n → is_Some (h !! p) → is_Some (h !! n) →
  x ≠ p → x ≠ n →
  ∃ h', list_remove (Some x) h = RRet tt h' ∧
    (∀ a, nxt h' a = if decide (a = x) then None
                     else if decide (a = p) then Some n else nxt h a) ∧
    (∀ a, prv h' a = if decide (a = x) then None
                     else if decide (a = n) then Some p else prv h a) ∧
    h' !! x = Some (Link None None) ∧ frame [x; p; n] h h'.
Proof.
  intros (k & Hx & Hp)%prv_Some (k' & Hx' & Hn)%nxt_Some [kp Hkp] [kn Hkn] Hxp Hxn.
  simplify_eq. unfold list_remove.
  erewrite kbind_of_ret by (by apply load_prev_eq).
  erewrite kbind_of_ret by (by apply load_next_eq). rewrite Hp, Hn.
  erewrite kbind_of_ret by (by apply store_next_eq).
  destruct (decide (p = n)) as [->|Hpn].
  - erewrite kbind_of_ret by (eapply store_prev_eq; by simplify_map_eq). simpl.
    erewrite kbind_of_ret by (eapply store_prev_eq; by simplify_map_eq). simpl.
    erewrite store_next_eq by (by simplify_map_eq). simpl.
    eexists; split; [done|]. unfold nxt, prv, frame. split_and!; [intros a..| |intros a];
      rewrite ?lookup_insert; repeat case_decide; simplify_map_eq; try done; set_solver.
  - erewrite kbind_of_ret by (eapply store_prev_eq; by simplify_map_eq). simpl.
    erewrite kbind_of_ret by (eapply store_prev_eq; by simplify_map_eq). simpl.
    erewrite store_next_eq by (by simplify_map_eq). simpl.
    eexists; split; [done|]. unfold nxt, prv, frame. split_and!; [intros a..| |intros a];
      rewrite ?lookup_insert; repeat case_decide; simplify_map_eq; try done; set_solver.
Qed.

(** * Chains of links *)

Lemma linked_cons2 h a b p :
  linked h (a :: b :: p) ↔ nxt h a = Some b ∧ prv h b = Some a ∧ linked h (b :: p).
Proof. done. Qed.

Lemma linked_app h xs y ys :
  linked h (xs ++ y :: ys) ↔ linked h (xs ++ [y]) ∧ linked h (y :: ys).
Proof.
  induction xs as [|a [|b xs] IH].
  - simpl. tauto.
  - simpl. tauto.
  - change ((a :: b :: xs) ++ y :: ys) with (a :: b :: (xs ++ y :: ys)).
    change ((a :: b :: xs) ++ [y]) with (a :: b :: (xs ++ [y])).
    rewrite !linked_cons2. simpl in IH |- *. tauto.
Qed.

(** A chain survives when the forward pointers of all but its last element and
    the backward pointers of all but its first are unchanged. *)
Lemma linked_ext h h' p :
  linked h p →
  (∀ a, a ∈ removelast p → nxt h' a = nxt h a) →
  (∀ b, b ∈ tail p → prv h' b = prv h b) →
  linked h' p.
Proof.
  induction p as [|a [|b p] IH]; [done..|]. intros (Hn & Hp & Hl) Hs Ht.
  change (removelast (a :: b :: p)) with (a :: removelast (b :: p)) in Hs. simpl in Ht.
  apply linked_cons2. rewrite Hs, Ht by set_solver. split_and!; [done..|].
  apply IH; [done|set_solver|]. intros c Hc. apply Ht. simpl in Hc. set_solver.
Qed.

Lemma linked_insert h h' c1 a b c2 new :
  linked h (c1 ++ a :: b :: c2) →
  a ∉ c1 ++ removelast (b :: c2) → new ∉ c1 ++ removelast (b :: c2) →
  b ∉ tail (c1 ++ [a]) ++ c2 → new ∉ tail (c1 ++ [a]) ++ c2 → new ≠ a → new ≠ b →
  (∀ z, nxt h' z = if decide (z = new) then Some b
                   else if decide (z = a) then Some new else nxt h z) →
  (∀ z, prv h' z = if decide (z = new) then Some a
                   else if decide (z = b) then Some new else prv h z) →
  linked h' (c1 ++ a :: new :: b :: c2).
Proof.
  intros Hl Ha Hna Hb Hnb Hne Hne' Hn Hp.
  apply linked_app in Hl as [Hl1 (Hnab & Hpab & Hl2)].
  apply linked_app. split.
  - apply (linked_ext h); [done| |].
    + rewrite removelast_last. intros z Hz. rewrite Hn. repeat case_decide; set_solver.
    + intros z Hz. rewrite Hp. repeat case_decide; set_solver.
  - rewrite !linked_cons2. split_and!.
    + rewrite Hn. repeat case_decide; congruence.
    + rewrite Hp. repeat case_decide; congruence.
    + rewrite Hn. by rewrite decide_True.
    + rewrite Hp. rewrite decide_False by done. by rewrite decide_True.
    + apply (linked_ext h); [done| |]; intros z Hz; rewrite ?Hn, ?Hp;
        repeat case_decide; set_solver.
Qed.

Lemma linked_remove h h' c1 a x b c2 :
  linked h (c1 ++ a :: x :: b :: c2) →
  a ∉ c1 ++ removelast (b :: c2) → x ∉ c1 ++ removelast (b :: c2) →
  b ∉ tail (c1 ++ [a]) ++ c2 → x ∉ tail (c1 ++ [a]) ++ c2 → x ≠ a → x ≠ b →
  (∀ z, nxt h' z = if decide (z = x) then None
                   else if decide (z = a) then Some b else nxt h z) →
  (∀ z, prv h' z = if decide (z = x) then None
                   else if decide (z = b) then Some a else prv h z) →
  linked h' (c1 ++ a :: b :: c2).
Proof.
  intros Hl Ha Hna Hb Hnb Hne Hne' Hn Hp.
  apply linked_app in Hl as [Hl1 (Hnab & Hpab & Hnx & Hpx & Hl2)].
  apply linked_app. split.
  - apply (linked_ext h); [done| |].
    + rewrite removelast_last. intros z Hz. rewrite Hn. repeat case_decide; set_solver.
    + intros z Hz. rewrite Hp. repeat case_decide; set_solver.
  - rewrite !linked_cons2. split_and!.
    + rewrite Hn. repeat case_decide; congruence.
    + rewrite Hp. repeat case_decide; congruence.
    + apply (linked_ext h); [done| |]; intros z Hz; rewrite ?Hn, ?Hp;
        repeat case_decide; set_solver.
Qed.

(** Every element of a well-formed list, and its head, is allocated. *)
Lemma is_list_alloc h l xs a : is_list h l xs → a ∈ l :: xs → is_Some (h !! a).
Proof.
  intros [_ Hl] (p1 & p2 & Heq)%list_elem_of_split.
  rewrite app_comm_cons, Heq, <- app_assoc in Hl. simpl in Hl.
  apply linked_app in Hl as [_ Hl]. destruct (p2 ++ [l]) as [|b r] eqn:E.
  { by destruct p2. }
  destruct Hl as [(k & ? & _)%nxt_Some _]. eauto.
Qed.

(** Where a list is cut in two, the neighbours of the cut. *)
Lemma cycle_cut (l : L) ys zs :
  ∃ c1 a b c2, l :: ys = c1 ++ [a] ∧ zs ++ [l] = b :: c2 ∧ b = hd l zs.
Proof.
  destruct (exists_last (l := l :: ys)) as (c1 & a & E1); [done|].
  destruct zs as [|b zs]; [exists c1, a, l, []|exists c1, a, b, (zs ++ [l])]; done.
Qed.

Lemma cycle_cut_facts (l : L) ys zs c1 a b c2 :
  NoDup (l :: ys ++ zs) → l :: ys = c1 ++ [a] → zs ++ [l] = b :: c2 →
  (∀ new, l :: (ys ++ new ++ zs) ++ [l] = c1 ++ a :: new ++ b :: c2) ∧
  a ∉ c1 ++ removelast (b :: c2) ∧ b ∉ tail (c1 ++ [a]) ++ c2 ∧
  c1 ++ removelast (b :: c2) ⊆ l :: ys ++ zs ∧ tail (c1 ++ [a]) ++ c2 ⊆ l :: ys ++ zs ∧
  a ∈ l :: ys ++ zs ∧ b ∈ l :: ys ++ zs.
Proof.
  intros Hnd E1 E2.
  assert (Hc1 : tail (c1 ++ [a]) = ys) by (by rewrite <- E1).
  assert (Hc2 : removelast (b :: c2) = zs) by (by rewrite <- E2, removelast_last).
  assert (Hnd2 : NoDup (ys ++ b :: c2)).
  { rewrite <- E2, app_assoc, (Permutation_app_comm (ys ++ zs)). done. }
  assert (b ∈ zs ++ [l]) by (rewrite E2; set_solver).
  assert (c2 ⊆ zs ++ [l]) by (rewrite E2; set_solver).
  assert (a ∈ l :: ys) by (rewrite E1; set_solver).
  assert (c1 ⊆ l :: ys) by (rewrite E1; set_solver).
  rewrite Hc1, Hc2. split_and!; [| | |set_solver..].
  - intros new. rewrite <- !app_assoc, E2, app_comm_cons, E1, <- app_assoc. done.
  - rewrite app_comm_cons, E1, <- app_assoc in Hnd. simpl in Hnd.
    rewrite <- Permutation_middle in Hnd. by inversion Hnd.
  - rewrite <- Permutation_middle in Hnd2. by inversion Hnd2.
Qed.

Lemma is_list_insert_before h l ys zs new :
  is_list h l (ys ++ zs) → new ∉ l :: ys ++ zs → is_Some (h !! new) →
  ∃ h', list_insert_before (Some (hd l zs)) (Some new) h = RRet tt h' ∧
    is_list h' l (ys ++ new :: zs) ∧ frame (new :: l :: ys ++ zs) h h'.
Proof.
  intros Hil Hnew Halloc. pose proof Hil as [Hnd Hl].
  destruct (cycle_cut l ys zs) as (c1 & a & b & c2 & E1 & E2 & Eb). rewrite <- Eb.
  destruct (cycle_cut_facts l ys zs c1 a b c2) as (Hcut & Ha & Hb & Hs & Ht & Hai & Hbi);
    [done..|].
  rewrite ((Hcut []) : l :: (ys ++ zs) ++ [l] = _) in Hl. simpl in Hl.
  pose proof (proj1 (linked_app _ _ _ _) Hl) as [_ (_ & Hpb & _)].
  destruct (list_insert_before_ptrs h b new a) as (h' & Hrun & Hn & Hp & Hf);
    [done|by eapply is_list_alloc|done|set_solver|set_solver|].
  exists h'. split_and!; [done| |].
  - split.
    + rewrite app_comm_cons, <- Permutation_middle. by apply NoDup_cons.
    + rewrite ((Hcut [new]) : l :: (ys ++ new :: zs) ++ [l] = _). eapply linked_insert; [done|done|set_solver..|done|done].
  - intros z Hz. apply Hf. set_solver.
Qed.

Lemma is_list_remove h l ys x zs :
  is_list h l (ys ++ x :: zs) →
  ∃ h', list_remove (Some x) h = RRet tt h' ∧ is_list h' l (ys ++ zs) ∧
    h' !! x = Some (Link None None) ∧ frame (l :: ys ++ x :: zs) h h'.
Proof.
  intros Hil. pose proof Hil as [Hnd Hl].
  assert (Hnd' := Hnd). rewrite app_comm_cons, <- Permutation_middle in Hnd'.
  apply NoDup_cons in Hnd' as [Hx Hnd']. rewrite <- app_comm_cons in Hx, Hnd'.
  destruct (cycle_cut l ys zs) as (c1 & a & b & c2 & E1 & E2 & Eb).
  destruct (cycle_cut_facts l ys zs c1 a b c2) as (Hcut & Ha & Hb & Hs & Ht & Hai & Hbi);
    [done..|].
  rewrite ((Hcut [x]) : l :: (ys ++ x :: zs) ++ [l] = _) in Hl. simpl in Hl.
  pose proof (proj1 (linked_app _ _ _ _) Hl) as [_ (_ & Hpb & Hnb & _)].
  destruct (list_remove_ptrs h x a b) as (h' & Hrun & Hn & Hp & Hx' & Hf);
    [done|done|eapply is_list_alloc; [done|set_solver]..|set_solver|set_solver|].
  exists h'. split_and!; [done| |done|].
  - split; [done|]. rewrite ((Hcut []) : l :: (ys ++ zs) ++ [l] = _). simpl.
    eapply linked_remove; [done|done|set_solver..|done|done].
  - intros z Hz. apply Hf. set_solver.
Qed.

Lemma is_list_next_hd h l xs : is_list h l xs → nxt h l = Some (hd l xs).
Proof. intros [_ Hl]. destruct xs; simpl in Hl; naive_solver. Qed.

Lemma is_list_prev_last h l xs :
  is_list h l xs → prv h l = Some (List.last xs l).
Proof.
  intros [_ Hl]. destruct (decide (xs = [])) as [->|Hne]; [simpl in Hl; naive_solver|].
  destruct (exists_last Hne) as (ys & y & ->).
  rewrite <- app_assoc, app_comm_cons in Hl.
  apply (linked_app h (l :: ys) y [l]) in Hl as [_ (_ & Hp & _)]. by rewrite last_last.
Qed.

(** Reading a field of an allocated link. *)
Lemma load_next_nxt h a v : nxt h a = Some v → load_next (Some a) h = RRet (Some v) h.
Proof. intros (k & Ha & <-)%nxt_Some. by apply load_next_eq. Qed.

Lemma load_prev_prv h a v : prv h a = Some v → load_prev (Some a) h = RRet (Some v) h.
Proof. intros (k & Ha & <-)%prv_Some. by apply load_prev_eq. Qed.

(** * The macros are the sequence operations *)

(** list_init turns an allocated head into the empty list. *)
Theorem list_init_spec h l :
  is_Some (h !! l) →
  ∃ h', list_init (Some l) h = RRet tt h' ∧ is_list h' l [] ∧ frame [l] h h'.
Proof.
  intros [k Hk]. unfold list_init. erewrite kbind_of_ret by (by apply store_prev_eq).
  erewrite store_next_eq by (by simplify_map_eq). simpl. rewrite insert_insert_eq.
  eexists; split; [done|]. split.
  - split; [apply NoDup_singleton|]. simpl. unfold nxt, prv. by simplify_map_eq.
  - intros a Ha. rewrite lookup_insert_ne; set_solver.
Qed.

(** list_empty tells whether the sequence is empty. *)
Theorem list_empty_spec h l xs :
  is_list h l xs → list_empty (Some l) h = RRet (bool_decide (xs = [])) h.
Proof.
  intros Hl. unfold list_empty.
  erewrite kbind_of_ret by (by apply load_next_nxt, (is_list_next_hd _ _ xs)).
  unfold kret. f_equal. apply bool_decide_ext. destruct xs as [|x xs]; [done|].
  split; [|done]. simpl. intros [= ->]. destruct Hl as [Hnd _]. inversion Hnd. set_solver.
Qed.

(** list_insert_head prepends. *)
Theorem list_insert_head_spec h l xs new :
  is_list h l xs → new ∉ l :: xs → is_Some (h !! new) →
  ∃ h', list_insert_head (Some l) (Some new) h = RRet tt h' ∧
    is_list h' l (new :: xs) ∧ frame (new :: l :: xs) h h'.
Proof.
  intros Hl Hnew Ha. unfold list_insert_head.
  erewrite kbind_of_ret by (by apply load_next_nxt, is_list_next_hd).
  by apply (is_list_insert_before h l []).
Qed.

(** list_insert_tail appends. *)
Theorem list_insert_tail_spec h l xs new :
  is_list h l xs → new ∉ l :: xs → is_Some (h !! new) →
  ∃ h', list_insert_tail (Some l) (Some new) h = RRet tt h' ∧
    is_list h' l (xs ++ [new]) ∧ frame (new :: l :: xs) h h'.
Proof.
  intros Hl Hnew Ha. pose proof (is_list_insert_before h l xs [] new) as Hi.
  rewrite app_nil_r in Hi. by apply Hi.
Qed.

(** list_remove_tail drops the last element. *)
Theorem list_remove_tail_spec h l xs x :
  is_list h l (xs ++ [x]) →
  ∃ h', list_remove_tail (Some l) h = RRet tt h' ∧ is_list h' l xs ∧
    h' !! x = Some (Link None None) ∧ frame (l :: xs ++ [x]) h h'.
Proof.
  intros Hl. unfold list_remove_tail.
  erewrite kbind_of_ret by (by apply load_prev_prv, is_list_prev_last).
  rewrite last_last. pose proof (is_list_remove h l xs x []) as Hr.
  rewrite app_nil_r in Hr. by apply Hr.
Qed.

(** list_remove_head drops the first element. *)
Theorem list_remove_head_spec h l xs x :
  is_list h l (x :: xs) →
  ∃ h', list_remove_head (Some l) h = RRet tt h' ∧ is_list h' l xs ∧
    h' !! x = Some (Link None None) ∧ frame (l :: x :: xs) h h'.
Proof.
  intros Hl. unfold list_remove_head.
  erewrite kbind_of_ret by (by apply load_next_nxt, (is_list_next_hd _ _ (x :: xs))).
  by apply (is_list_remove h l []).
Qed.

(** * Iteration *)

(** An iteration whose body leaves the links of the list alone visits the
    elements in order: it is a fold, and it ends after as many steps as the
    list has elements. *)
Lemma list_iterate_from_fold {A} (body : A → L → lM A) (f : A → L → A) h l ys zs fuel acc :
  (∀ acc x, x ∈ zs → body acc x h = RRet (f acc x) h) →
  is_list h l (ys ++ zs) → length zs ≤ fuel →
  list_iterate_from fuel (Some l) (Some (hd l zs)) body acc h = RRet (foldl f acc zs) h.
Proof.
  revert ys fuel acc. induction zs as [|z zs IH]; intros ys fuel acc Hb Hl Hf.
  { by destruct fuel; simpl; rewrite bool_decide_eq_true_2. }
  destruct fuel as [|fuel]; simpl in Hf; [lia|]. simpl.
  rewrite bool_decide_eq_false_2.
  2:{ intros [= ->]. destruct Hl as [Hnd _]. inversion Hnd. set_solver. }
  assert (Hn : nxt h z = Some (hd l zs)).
  { destruct Hl as [_ Hl]. rewrite <- app_assoc, app_comm_cons in Hl.
    apply (linked_app h (l :: ys) z (zs ++ [l])) in Hl as [_ Hl].
    destruct zs; simpl in Hl |- *; naive_solver. }
  rewrite kbind_of_ret with (a := z) (s' := h) by done.
  erewrite kbind_of_ret by (by apply load_next_nxt).
  erewrite kbind_of_ret by (apply Hb; set_solver).
  apply (IH (ys ++ [z])); [set_solver| |lia]. by rewrite <- app_assoc.
Qed.

(** The loop runs through the whole list, first element first. *)
Theorem list_iterate_visits {A} (body : A → L → lM A) (f : A → L → A) h l xs acc :
  (∀ acc x, x ∈ xs → body acc x h = RRet (f acc x) h) → is_list h l xs →
  list_iterate (length xs) (Some l) body acc h = RRet (foldl f acc xs) h.
Proof.
  intros Hb Hl. unfold list_iterate.
  erewrite kbind_of_ret by (by apply load_next_nxt, is_list_next_hd).
  by apply (list_iterate_from_fold body f h l [] xs).
Qed.

Lemma list_iterate_reverse_from_fold {A} (body : A → L → lM A) (f : A → L → A) h l ys zs fuel acc :
  (∀ acc x, x ∈ ys → body acc x h = RRet (f acc x) h) →
  is_list h l (ys ++ zs) → length ys ≤ fuel →
  list_iterate_reverse_from fuel (Some l) (Some (List.last ys l)) body acc h
    = RRet (foldl f acc (rev ys)) h.
Proof.
  revert zs fuel acc. induction ys as [|y ys IH] using rev_ind; intros zs fuel acc Hb Hl Hf.
  { by destruct fuel; simpl; rewrite bool_decide_eq_true_2. }
  rewrite length_app in Hf. simpl in Hf.
  destruct fuel as [|fuel]; [lia|]. simpl. rewrite last_last.
  rewrite bool_decide_eq_false_2.
  2:{ intros [= ->]. destruct Hl as [Hnd _]. inversion Hnd. set_solver. }
  assert (Hp : prv h y = Some (List.last ys l)).
  { destruct (decide (ys = [])) as [->|Hne].
    - destruct Hl as [_ Hl]. simpl in Hl. naive_solver.
    - destruct (exists_last Hne) as (ws & w & ->). destruct Hl as [_ Hl].
      rewrite last_last. rewrite <- !app_assoc, app_comm_cons in Hl.
      by apply (linked_app h (l :: ws) w (y :: zs ++ [l])) in Hl as [_ (_ & ? & _)]. }
  rewrite kbind_of_ret with (a := y) (s' := h) by done.
  erewrite kbind_of_ret by (by apply load_prev_prv).
  erewrite kbind_of_ret by (apply Hb; set_solver).
  rewrite rev_app_distr. simpl.
  apply (IH (y :: zs)); [set_solver| |lia]. by rewrite <- app_assoc in Hl.
Qed.

(** list_iterate_reverse runs through the whole list, last element first. *)
Theorem list_iterate_reverse_visits {A} (body : A → L → lM A) (f : A → L → A) h l xs acc :
  (∀ acc x, x ∈ xs → body acc x h = RRet (f acc x) h) → is_list h l xs →
  list_iterate_reverse (length xs) (Some l) body acc h = RRet (foldl f acc (rev xs)) h.
Proof.
  intros Hb Hl. unfold list_iterate_reverse.
  erewrite kbind_of_ret by (by apply load_prev_prv, is_list_prev_last).
  apply (list_iterate_reverse_from_fold body f h l xs []); [done| |done].
  by rewrite app_nil_r.
Qed.

Lemma list_iterate_from_remove h l xs fuel :
  is_list h l xs → length xs ≤ fuel →
  ∃ h', list_iterate_from fuel (Some l) (Some (hd l xs))
          (λ (_ : unit) c, list_remove (Some c)) tt h = RRet tt h' ∧
    is_list h' l [] ∧ (∀ x, x ∈ xs → h' !! x = Some (Link None None)) ∧ frame (l :: xs) h h'.
Proof.
  revert h fuel. induction xs as [|x xs IH]; intros h fuel Hl Hf.
  { exists h. split_and!; [|done|set_solver|done].
    by destruct fuel; simpl; rewrite bool_decide_eq_true_2. }
  destruct fuel as [|fuel]; simpl in Hf; [lia|]. simpl.
  pose proof Hl as [Hnd _]. apply NoDup_cons in Hnd as [Hlx [Hx _]%NoDup_cons].
  rewrite bool_decide_eq_false_2 by set_solver.
  destruct (is_list_remove h l [] x xs Hl) as (h1 & Hr & Hl1 & Hx1 & Hf1).
  assert (Hn : nxt h x = Some (hd l xs)).
  { destruct Hl as [_ Hl]. destruct xs; simpl in Hl |- *; naive_solver. }
  rewrite kbind_of_ret with (a := x) (s' := h) by done.
  erewrite kbind_of_ret by (by apply load_next_nxt).
  erewrite kbind_of_ret by done.
  destruct (IH h1 fuel) as (h' & Hrun & Hl' & Hun & Hf'); [done|lia|].
  exists h'. split_and!; [done..| |].
  - intros y [->|Hy]%elem_of_cons; [|by apply Hun]. rewrite Hf'; [done|set_solver].
  - intros a Ha. rewrite Hf', Hf1; [done|set_solver..].
Qed.

(** * Refinement of the sequence interface *)

Lemma place_before_split old x ys zs :
  old ∉ ys → place_before old x (ys ++ old :: zs) = ys ++ x :: old :: zs.
Proof.
  induction ys as [|y ys IH]; intros Hn; simpl.
  - by rewrite decide_True.
  - rewrite decide_False by set_solver. by rewrite IH by set_solver.
Qed.

Lemma place_before_absent old x xs : old ∉ xs → place_before old x xs = xs ++ [x].
Proof.
  induction xs as [|y xs IH]; intros Hn; simpl; [done|].
  rewrite decide_False by set_solver. by rewrite IH by set_solver.
Qed.

Lemma run_lop_refines h l xs op xs' :
  is_list h l xs → Forall (λ x, is_Some (h !! x)) (lop_new op) →
  lop_spec l xs op = Some xs' →
  ∃ h', run_lop l op h = RRet tt h' ∧ is_list h' l xs' ∧
    ∀ a, is_Some (h !! a) → is_Some (h' !! a).
Proof.
  intros Hl Hnew Hs.
  cut (∃ h' ys, run_lop l op h = RRet tt h' ∧ is_list h' l xs' ∧ frame ys h h' ∧
         ∀ a, a ∈ ys → a ∈ l :: xs' ∨ h' !! a = Some (Link None None)).
  { intros (h' & ys & Hr & Hl' & Hf & Hys). exists h'. split_and!; [done..|].
    intros a Ha. destruct (decide (a ∈ ys)) as [Hin|Hout].
    - destruct (Hys a Hin) as [Hin'| ->]; [by apply (is_list_alloc h' l xs')|eauto].
    - by rewrite Hf. }
  assert (Hx : ∀ x, lop_new op = [x] → is_Some (h !! x)).
  { intros x E. rewrite E in Hnew. exact (proj1 (Forall_singleton _ _) Hnew). }
  destruct op as [x|x|old x|x| |]; simpl in Hs, Hx.
  - case_decide; simplify_eq. specialize (Hx x eq_refl).
    destruct (list_insert_head_spec h l xs x) as (h' & ? & ? & ?); [done..|].
    exists h', (x :: l :: xs). split_and!; [done..|set_solver].
  - case_decide; simplify_eq. specialize (Hx x eq_refl).
    destruct (list_insert_tail_spec h l xs x) as (h' & ? & ? & ?); [done..|].
    exists h', (x :: l :: xs). split_and!; [done..|set_solver].
  - case_decide as Hc; simplify_eq. destruct Hc as [Hxn Hold]. specialize (Hx x eq_refl).
    assert (∃ ys zs, xs = ys ++ zs ∧ old = hd l zs ∧ place_before old x xs = ys ++ x :: zs)
      as (ys & zs & -> & -> & ->).
    { destruct (decide (old ∈ xs)) as [(ys & zs & -> & Hn)%list_elem_of_split_l|Hn].
      - exists ys, (old :: zs). by rewrite place_before_split.
      - exists xs, []. rewrite app_nil_r, place_before_absent by done. set_solver. }
    destruct (is_list_insert_before h l ys zs x) as (h' & ? & ? & ?); [done..|].
    exists h', (x :: l :: ys ++ zs). split_and!; [done..|set_solver].
  - case_decide as Hin; simplify_eq.
    apply list_elem_of_split in Hin as (ys & zs & ->). pose proof Hl as [Hnd _].
    rewrite app_comm_cons, <- Permutation_middle in Hnd.
    apply NoDup_cons in Hnd as [Hxn _]. rewrite filter_ne_split by set_solver.
    destruct (is_list_remove h l ys x zs) as (h' & ? & ? & ? & ?); [done|].
    exists h', (l :: ys ++ x :: zs). split_and!; [done..|].
    intros a Ha. destruct (decide (a = x)); set_solver.
  - destruct xs as [|x xs]; simplify_eq.
    destruct (list_remove_head_spec h l xs' x) as (h' & ? & ? & ? & ?); [done|].
    exists h', (l :: x :: xs'). split_and!; [done..|].
    intros a Ha. destruct (decide (a = x)); set_solver.
  - destruct (decide (xs = [])) as [->|Hne]; [done|].
    destruct (exists_last Hne) as (ys & y & ->). rewrite removelast_last in Hs.
    assert (ys = xs') as -> by (destruct (ys ++ [y]) eqn:E; [by destruct ys|congruence]).
    destruct (list_remove_tail_spec h l xs' y) as (h' & ? & ? & ? & ?); [done|].
    exists h', (l :: xs' ++ [y]). split_and!; [done..|].
    intros a Ha. destruct (decide (a = y)); set_solver.
Qed.

(** C1. Any sequence of list macros that respects the interface of list.h runs
    without dereferencing a bad pointer and leaves a well-formed circular list
    whose elements are what the same operations give on the sequence. *)
Theorem lists_refine_sequences h l xs ops xs' :
  is_list h l xs →
  Forall (λ x, is_Some (h !! x)) (ops ≫= lop_new) →
  lops_spec l xs ops = Some xs' →
  ∃ h', run_lops l ops h = RRet tt h' ∧ is_list h' l xs'.
Proof.
  revert h xs. induction ops as [|op ops IH]; intros h xs Hl Hnew Hs; simpl in *.
  { simplify_eq. eauto. }
  apply bind_Some in Hs as (ys & Hop & Hs). apply Forall_app in Hnew as [Hn1 Hn2].
  destruct (run_lop_refines h l xs op ys) as (h1 & Hr & Hl1 & Hdom); [done..|].
  erewrite kbind_of_ret by done. apply (IH h1 ys); [done| |done].
  eapply Forall_impl; [done|]. naive_solver.
Qed.

(** A list_iterate loop whose body removes the element it is given (the use
    list.h documents) ends, empties the list, unlinks every element and touches
    no other link. *)
Theorem iterate_remove_safe h l xs :
  is_list h l xs →
  ∃ h', list_iterate (length xs) (Some l) (λ (_ : unit) c, list_remove (Some c)) tt h
          = RRet tt h' ∧
    is_list h' l [] ∧ (∀ x, x ∈ xs → h' !! x = Some (Link None None)) ∧ frame (l :: xs) h h'.
Proof.
  intros Hl. unfold list_iterate.
  erewrite kbind_of_ret by (by apply load_next_nxt, is_list_next_hd).
  by apply list_iterate_from_remove.
Qed.
End Ops.

(** The list headed by 1 with the element 2, and the unlinked link 3. *)
Definition small_heap : gmap positive (link positive) :=
  {[ 1%positive := Link (Some 2%positive) (Some 2%positive);
     2%positive := Link (Some 1%positive) (Some 1%positive);
     3%positive := Link None None ]}.

Lemma small_heap_list : is_list small_heap 1%positive [2%positive].
Proof. split; [closed|]. by vm_compute. Qed.

Lemma lists_refine_sequences_witness :
  ∃ h', run_lops 1%positive [LInsertTail 3%positive; LRemoveHead; LInsertHead 2%positive] small_heap
          = RRet tt h' ∧ is_list h' 1%positive [2%positive; 3%positive].
Proof.
  apply (lists_refine_sequences small_heap 1%positive [2%positive]).
  - apply small_heap_list.
  - closed.
  - reflexivity.
Defined.

Lemma iterate_remove_safe_witness :
  ∃ h', list_iterate 1 (Some 1%positive) (λ (_ : unit) c, list_remove (Some c)) tt small_heap
          = RRet tt h' ∧ is_list h' 1%positive [].
Proof.
  destruct (iterate_remove_safe small_heap 1%positive [2%positive] small_heap_list)
    as (h' & Hr & Hl & _).
  exists h'. exact (conj Hr Hl).
Defined.
End KList.
