(* ===== verification/Sched.v ===== *)
(** Threads, queues and the scheduler: kernel/proc/sched.c with the data of
    kernel/include/proc/{sched,kthread}.h.

    The state holds the thread structs, the [ktqueue_t]s and the globals
    [curthr], [curproc] and the interrupt priority level.  A queue's [tq_list]
    is the sequence of the threads whose [kt_qlink] is on it, head first; the
    refinement theorems of KList are what allows reading the list macros this
    way.  [kt_qlink] records which list the link is on, so that inserting a link
    that is already on a list and removing one that is on none are faults. *)

From stdpp Require Import base numbers list gmap strings.
From S2P Require Import Prelude.

Open Scope Z_scope.

(** Thread states, kthread.h. *)
Inductive ktstate :=
| KT_NO_STATE
| KT_RUN
| KT_SLEEP
| KT_SLEEP_CANCELLABLE
| KT_EXITED.

#[export] Instance ktstate_eq_dec : EqDecision ktstate.
Proof. solve_decision. Defined.

(** The queues of the kernel: the run queue, the wait queue of a mutex, the
    [p_wait] queue of a process, and any other wait queue. *)
Inductive qid :=
| RunQ
| MutexQ (m : positive)
| ProcQ (p : positive)
| WaitQ (n : positive).

#[export] Instance qid_eq_dec : EqDecision qid.
Proof. solve_decision. Defined.

#[export] Instance qid_countable : Countable qid.
Proof.
  refine (inj_countable'
    (λ q, match q with RunQ => inl (inl tt) | MutexQ m => inl (inr m)
          | ProcQ p => inr (inl p) | WaitQ n => inr (inr n) end)
    (λ x, match x with inl (inl _) => RunQ | inl (inr m) => MutexQ m
          | inr (inl p) => ProcQ p | inr (inr n) => WaitQ n end) _).
  by intros [].
Defined.

(** struct kthread: the fields the scheduler uses.  A thread is named by the
    address of its struct. *)
Record kthread := KThread {
  kt_retval : Z;
  kt_proc : positive;
  kt_cancelled : bool;
  kt_wchan : option qid;
  kt_state : ktstate;
  kt_qlink : option qid
}.

(** struct ktqueue *)
Record ktqueue := KTQueue {
  tq_list : list positive;
  tq_size : Z
}.

Record kstate := KState {
  ks_threads : gmap positive kthread;
  ks_queues : gmap qid ktqueue;
  ks_holder : gmap positive (option positive);  (* km_holder of each mutex *)
  ks_ipl : Z;
  ks_curthr : option positive;
  ks_curproc : option positive
}.

Definition IPL_LOW : Z := 0.
Definition IPL_HIGH : Z := 255.

(** * State access *)

Definition set_threads (f : gmap positive kthread → gmap positive kthread) (s : kstate) : kstate :=
  KState (f (ks_threads s)) (ks_queues s) (ks_holder s) (ks_ipl s) (ks_curthr s) (ks_curproc s).
Definition set_queues (f : gmap qid ktqueue → gmap qid ktqueue) (s : kstate) : kstate :=
  KState (ks_threads s) (f (ks_queues s)) (ks_holder s) (ks_ipl s) (ks_curthr s) (ks_curproc s).
Definition set_holder (m : positive) (h : option positive) (s : kstate) : kstate :=
  KState (ks_threads s) (ks_queues s) (<[m := h]> (ks_holder s)) (ks_ipl s)
    (ks_curthr s) (ks_curproc s).
Definition set_ipl (i : Z) (s : kstate) : kstate :=
  KState (ks_threads s) (ks_queues s) (ks_holder s) i (ks_curthr s) (ks_curproc s).
Definition set_cur (t p : option positive) (s : kstate) : kstate :=
  KState (ks_threads s) (ks_queues s) (ks_holder s) (ks_ipl s) t p.

Definition with_state (st : ktstate) (k : kthread) : kthread :=
  KThread (kt_retval k) (kt_proc k) (kt_cancelled k) (kt_wchan k) st (kt_qlink k).
Definition with_wchan (q : option qid) (k : kthread) : kthread :=
  KThread (kt_retval k) (kt_proc k) (kt_cancelled k) q (kt_state k) (kt_qlink k).
Definition with_qlink (q : option qid) (k : kthread) : kthread :=
  KThread (kt_retval k) (kt_proc k) (kt_cancelled k) (kt_wchan k) (kt_state k) q.
Definition with_cancelled (c : bool) (k : kthread) : kthread :=
  KThread (kt_retval k) (kt_proc k) c (kt_wchan k) (kt_state k) (kt_qlink k).

Definition get_thread (t : positive) : kM kstate kthread :=
  let* s := kget in kderef (ks_threads s !! t) "thread".
Definition get_queue (q : qid) : kM kstate ktqueue :=
  let* s := kget in kderef (ks_queues s !! q) "queue".
Definition upd_thread (t : positive) (f : kthread → kthread) : kM kstate unit :=
  let* k := get_thread t in kmodify (set_threads <[t := f k]>).
Definition upd_queue (q : qid) (f : ktqueue → ktqueue) : kM kstate unit :=
  let* Q := get_queue q in kmodify (set_queues <[q := f Q]>).
Definition get_curthr : kM kstate positive :=
  let* s := kget in kderef (ks_curthr s) "curthr".

(** interrupt.h *)
Definition intr_getipl : kM kstate Z := kgets ks_ipl.
Definition intr_setipl (i : Z) : kM kstate unit := kmodify (set_ipl i).

(** [list_insert_head(&q->tq_list, &thr->kt_qlink)] and
    [list_remove(&thr->kt_qlink)] on the sequence of the queue. *)
Definition qlist_insert_head (q : qid) (t : positive) : kM kstate unit :=
  let* k := get_thread t in
  if kt_qlink k is Some _ then kfault "link already on a list" else
  upd_queue q (λ Q, KTQueue (t :: tq_list Q) (tq_size Q)) ;;;
  upd_thread t (with_qlink (Some q)).

Definition qlist_remove (t : positive) : kM kstate unit :=
  let* k := get_thread t in
  let* q := kderef (kt_qlink k) "link not on a list" in
  upd_queue q (λ Q, KTQueue (filter (.≠ t) (tq_list Q)) (tq_size Q)) ;;;
  upd_thread t (with_qlink None).

(** * sched.c *)

Definition ktqueue_enqueue (q : qid) (thr : positive) : kM kstate unit :=
  let* k := get_thread thr in
  KASSERT (if kt_wchan k is None then true else false) "!thr->kt_wchan" ;;;
  qlist_insert_head q thr ;;;
  upd_thread thr (with_wchan (Some q)) ;;;
  upd_queue q (λ Q, KTQueue (tq_list Q) (tq_size Q + 1)).

Definition ktqueue_dequeue (q : qid) : kM kstate (option positive) :=
  let* Q := get_queue q in
  match last (tq_list Q) with
  | None => kret None                                    (* list_empty *)
  | Some thr =>                                          (* q->tq_list.l_prev *)
      qlist_remove thr ;;;
      upd_thread thr (with_wchan None) ;;;
      upd_queue q (λ Q, KTQueue (tq_list Q) (tq_size Q - 1)) ;;;
      kret (Some thr)
  end.

Definition ktqueue_remove (q : option qid) (thr : positive) : kM kstate unit :=
  let* k := get_thread thr in
  KASSERT (if kt_qlink k is Some _ then true else false) "kt_qlink" ;;;
  qlist_remove thr ;;;
  upd_thread thr (with_wchan None) ;;;
  let* q := kderef q "NULL queue" in
  upd_queue q (λ Q, KTQueue (tq_list Q) (tq_size Q - 1)).

Definition sched_queue_init (q : qid) : kM kstate unit :=
  kmodify (set_queues <[q := KTQueue [] 0]>).

Definition sched_queue_empty (q : qid) : kM kstate bool :=
  let* Q := get_queue q in kret (bool_decide (tq_list Q = [])).

(** The whole of [sched_switch] is split at the machine level below: this is
    the point where the calling thread stops until it is switched back in. *)
Definition sched_switch : kM kstate unit := kswitch.

Definition sched_make_runnable (thr : positive) : kM kstate unit :=
  let* k := get_thread thr in
  KASSERT (bool_decide (kt_wchan k ≠ Some RunQ)) "&kt_runq != thr->kt_wchan" ;;;
  let* original_ipl := intr_getipl in
  intr_setipl IPL_HIGH ;;;
  upd_thread thr (with_state KT_RUN) ;;;
  ktqueue_enqueue RunQ thr ;;;
  intr_setipl original_ipl.

Definition sched_sleep_on (q : qid) : kM kstate unit :=
  let* curthr := get_curthr in
  upd_thread curthr (with_state KT_SLEEP) ;;;
  ktqueue_enqueue q curthr ;;;
  sched_switch.

Definition sched_cancellable_sleep_on (q : qid) : kM kstate Z :=
  let* curthr := get_curthr in
  upd_thread curthr (with_state KT_SLEEP_CANCELLABLE) ;;;
  let* k := get_thread curthr in
  if kt_cancelled k then kret (- EINTR) else
  ktqueue_enqueue q curthr ;;;
  sched_switch ;;;
  kret 0.

Definition sched_wakeup_on (q : qid) : kM kstate (option positive) :=
  let* thr := ktqueue_dequeue q in
  match thr with
  | None => kret None
  | Some t =>
      let* k := get_thread t in
      KASSERT (bool_decide (kt_state k = KT_SLEEP ∨ kt_state k = KT_SLEEP_CANCELLABLE))
        "thread sleeps" ;;;
      upd_thread t (with_state KT_RUN) ;;;
      sched_make_runnable t ;;;
      kret (Some t)
  end.

(** The while loop of sched_broadcast_on; [fuel] bounds its iterations. *)
Fixpoint sched_broadcast_on (fuel : nat) (q : qid) : kM kstate unit :=
  let* Q := get_queue q in
  if bool_decide (tq_size Q = 0) then kret tt else
  match fuel with
  | O => λ _, RFuel
  | S fuel => sched_wakeup_on q ;;; sched_broadcast_on fuel q
  end.

Definition sched_cancel (kthr : positive) : kM kstate unit :=
  upd_thread kthr (with_cancelled true) ;;;
  let* k := get_thread kthr in
  if bool_decide (kt_state k = KT_SLEEP_CANCELLABLE) then
    upd_thread kthr (with_state KT_RUN) ;;;
    let* k := get_thread kthr in
    ktqueue_remove (kt_wchan k) kthr ;;;
    sched_make_runnable kthr
  else kret tt.

(** The loop of [sched_switch], run by the processor between two threads: the
    entry, one attempt to pick a thread, the wait for an interrupt when there is
    none, and the commit that makes the picked thread current. *)
Definition switch_enter : kM kstate Z :=
  let* original_ipl := intr_getipl in
  intr_setipl IPL_HIGH ;;;
  kret original_ipl.

Definition switch_pick : kM kstate (option positive) := ktqueue_dequeue RunQ.

Definition switch_wait (interrupt : kM kstate unit) : kM kstate unit :=
  intr_setipl IPL_LOW ;;;
  interrupt ;;;
  intr_setipl IPL_HIGH.

Definition switch_commit (original_ipl : Z) (curthread : positive) : kM kstate unit :=
  intr_setipl original_ipl ;;;
  let* k := get_thread curthread in
  kmodify (set_cur (Some curthread) (Some (kt_proc k))).

(** * Well-formed scheduler states *)

(** The state of a thread fits the queue it is on. *)
Definition qstate_ok (q : qid) (st : ktstate) : Prop :=
  match q with
  | RunQ => st = KT_RUN
  | _ => st = KT_SLEEP ∨ st = KT_SLEEP_CANCELLABLE
  end.

(** [tq_size] counts the queue, no thread is queued twice, [kt_wchan] is the
    queue the thread is on, and runnable and sleeping threads are where their
    state says. *)
Record wf (s : kstate) : Prop := {
  wf_queue q Q : ks_queues s !! q = Some Q →
    tq_size Q = Z.of_nat (length (tq_list Q)) ∧ NoDup (tq_list Q);
  wf_on q Q t : ks_queues s !! q = Some Q → t ∈ tq_list Q →
    ∃ k, ks_threads s !! t = Some k ∧ kt_wchan k = Some q ∧ qstate_ok q (kt_state k);
  wf_qlink t k : ks_threads s !! t = Some k → kt_qlink k = kt_wchan k;
  wf_where t k q : ks_threads s !! t = Some k → kt_wchan k = Some q →
    ∃ Q, ks_queues s !! q = Some Q ∧ t ∈ tq_list Q;
  wf_runq : is_Some (ks_queues s !! RunQ)
}.

(** What enqueueing and dequeueing do to the state. *)
Definition q_push (q : qid) (t : positive) (k : kthread) (s : kstate) : kstate :=
  set_queues (alter (λ Q, KTQueue (t :: tq_list Q) (tq_size Q + 1)) q)
    (set_threads <[t := with_qlink (Some q) (with_wchan (Some q) k)]> s).

Definition q_drop (q : qid) (t : positive) (k : kthread) (s : kstate) : kstate :=
  set_queues (alter (λ Q, KTQueue (filter (.≠ t) (tq_list Q)) (tq_size Q - 1)) q)
    (set_threads <[t := with_qlink None (with_wchan None k)]> s).

Ltac kstep := cbv [kbind kret kget kgets kmodify kderef KASSERT get_thread get_queue get_curthr
  upd_thread upd_queue intr_getipl intr_setipl kfault kswitch].

(** Run kernel code in the goal: reduce, and resolve the lookups the hypotheses
    know. *)
Ltac krun := repeat (kstep; simpl; try
  match goal with
  | H : ?m !! ?i = Some _ |- context [?m !! ?i] => rewrite H
  | |- context [<[?i := _]> _ !! ?i] => rewrite lookup_insert_eq
  | H : kt_wchan ?k = _ |- context [kt_wchan ?k] => rewrite H
  | H : kt_qlink ?k = _ |- context [kt_qlink ?k] => rewrite H
  | H : kt_state ?k = _ |- context [kt_state ?k] => rewrite H
  | H : kt_cancelled ?k = _ |- context [kt_cancelled ?k] => rewrite H
  | H : ks_curthr ?s = _ |- context [ks_curthr ?s] => rewrite H
  | H : tq_list ?Q = _ |- context [tq_list ?Q] => rewrite H
  end).

Lemma alter_insert_lookup `{Countable K} {A} (f : A → A) (m : gmap K A) i x :
  m !! i = Some x → alter f i m = <[i := f x]> m.
Proof.
  intros Hi. apply map_eq. intros j. rewrite lookup_alter, lookup_insert.
  case_decide; [subst; by rewrite Hi|done].
Qed.

Lemma ktqueue_enqueue_run s q t k :
  ks_threads s !! t = Some k → is_Some (ks_queues s !! q) →
  kt_wchan k = None → kt_qlink k = None →
  ktqueue_enqueue q t s = RRet tt (q_push q t k s).
Proof.
  intros Ht [Q HQ] Hw Hl. unfold ktqueue_enqueue, qlist_insert_head. krun.
  unfold q_push, set_queues, set_threads. simpl.
  by rewrite !insert_insert_eq, (alter_insert_lookup _ _ _ Q) by done.
Qed.

Lemma ktqueue_dequeue_empty s q Q :
  ks_queues s !! q = Some Q → tq_list Q = [] → ktqueue_dequeue q s = RRet None s.
Proof. intros HQ HL. unfold ktqueue_dequeue. by krun. Qed.

Lemma ktqueue_dequeue_run s q Q ts t k :
  ks_queues s !! q = Some Q → tq_list Q = ts ++ [t] → ks_threads s !! t = Some k →
  kt_qlink k = Some q →
  ktqueue_dequeue q s = RRet (Some t) (q_drop q t k s).
Proof.
  intros HQ HL Ht Hl. unfold ktqueue_dequeue, qlist_remove. krun.
  rewrite last_snoc. krun.
  unfold q_drop, set_queues, set_threads. simpl.
  by rewrite !insert_insert_eq, (alter_insert_lookup _ _ _ Q), ?HL by done.
Qed.

(** * Preservation *)

Lemma wf_ext s s' :
  ks_threads s' = ks_threads s → ks_queues s' = ks_queues s → wf s → wf s'.
Proof. intros Et Eq [H1 H2 H3 H4 H5]. split; rewrite ?Et, ?Eq; eauto. Qed.

Lemma wf_set_thread s t k :
  wf s → (∀ k0, ks_threads s !! t = Some k0 → kt_wchan k0 = None) →
  kt_wchan k = None → kt_qlink k = None → wf (set_threads <[t := k]> s).
Proof.
  intros [H1 H2 H3 H4 H5] Ht Hw Hl. split; simpl; [done| | | |done].
  - intros q Q u HQ Hu. destruct (H2 q Q u HQ Hu) as (k0 & Hk0 & ? & ?).
    rewrite lookup_insert_ne; [eauto|]. intros <-. specialize (Ht _ Hk0). congruence.
  - intros u k'. rewrite lookup_insert. case_decide; intros; simplify_eq; [congruence|eauto].
  - intros u k' q. rewrite lookup_insert. case_decide; intros; simplify_eq; eauto.
Qed.

Lemma wf_push s q t k :
  wf s → (∀ k0, ks_threads s !! t = Some k0 → kt_wchan k0 = None) →
  is_Some (ks_queues s !! q) → qstate_ok q (kt_state k) → wf (q_push q t k s).
Proof.
  intros [H1 H2 H3 H4 H5] Ht [Q HQ] Hst. unfold q_push.
  assert (Hnot : ∀ q' Q', ks_queues s !! q' = Some Q' → t ∉ tq_list Q').
  { intros q' Q' HQ' Hin. destruct (H2 _ _ _ HQ' Hin) as (k0 & Hk0 & Hw & _).
    specialize (Ht _ Hk0). congruence. }
  split; simpl.
  - intros q' Q'. rewrite lookup_alter. case_decide; [|eauto]. subst q'. rewrite HQ. simpl.
    intros [= <-]. simpl. destruct (H1 _ _ HQ). split; [lia|]. constructor; eauto.
  - intros q' Q' u. rewrite lookup_alter, lookup_insert. case_decide as Hq.
    + subst q'. rewrite HQ. simpl. intros [= <-] Hu. simpl in Hu.
      case_decide as Htu; [subst; eauto|]. apply (H2 q Q); set_solver.
    + intros HQ' Hu. rewrite decide_False; [by apply (H2 q' Q')|].
      intros <-. by apply (Hnot q' Q').
  - intros u k'. rewrite lookup_insert. case_decide; intros; simplify_eq; [done|eauto].
  - intros u k' q'. rewrite lookup_insert, lookup_alter. case_decide as Htu.
    + intros [= <-] [= <-]. rewrite decide_True, HQ by done. simpl. eexists; split; [done|].
      simpl. set_solver.
    + intros Hu Hw. destruct (H4 _ _ _ Hu Hw) as (Q' & HQ' & Hin).
      case_decide; subst; rewrite HQ'; simpl; eexists; (split; [reflexivity|]); simpl; [set_solver|done].
  - rewrite lookup_alter. case_decide; [by apply fmap_is_Some|done].
Qed.

Lemma wf_drop s q t k k0 :
  wf s → ks_threads s !! t = Some k0 → kt_wchan k0 = Some q → wf (q_drop q t k s).
Proof.
  intros [H1 H2 H3 H4 H5] Ht Hw. unfold q_drop.
  destruct (H4 _ _ _ Ht Hw) as (Q & HQ & Hin). destruct (H1 _ _ HQ) as [Hsz Hnd].
  assert (Hother : ∀ q' Q', ks_queues s !! q' = Some Q' → t ∈ tq_list Q' → q' = q).
  { intros q' Q' HQ' Hin'. destruct (H2 _ _ _ HQ' Hin') as (k1 & Hk1 & Hw1 & _). congruence. }
  split; simpl.
  - intros q' Q'. rewrite lookup_alter. case_decide; [|eauto]. subst q'. rewrite HQ. simpl.
    intros [= <-]. simpl. split; [|by apply NoDup_filter].
    apply list_elem_of_split in Hin as (l1 & l2 & E). rewrite E in Hnd, Hsz |- *.
    rewrite <- Permutation_middle in Hnd. apply NoDup_cons in Hnd as [Hn _].
    rewrite filter_ne_split by set_solver. rewrite length_app in *. simpl in Hsz. lia.
  - intros q' Q' u. rewrite lookup_alter, lookup_insert. case_decide as Hq.
    + subst q'. rewrite HQ. simpl. intros [= <-] Hu. simpl in Hu.
      apply list_elem_of_filter in Hu as [Hne Hu]. rewrite decide_False by done. eauto.
    + intros HQ' Hu. rewrite decide_False; [by apply (H2 q' Q')|].
      intros <-. by apply Hq, eq_sym, (Hother q' Q').
  - intros u k'. rewrite lookup_insert. case_decide; intros; simplify_eq; [done|eauto].
  - intros u k' q'. rewrite lookup_insert, lookup_alter. case_decide as Htu.
    + intros [= <-] [=].
    + intros Hu Hw'. destruct (H4 _ _ _ Hu Hw') as (Q' & HQ' & Hin').
      case_decide; subst; rewrite HQ'; simpl; eexists; (split; [reflexivity|]); simpl; [|done].
      apply list_elem_of_filter. split; [congruence|done].
  - rewrite lookup_alter. case_decide; [by apply fmap_is_Some|done].
Qed.

(** * The scheduler operations *)

Lemma sched_make_runnable_run s t k :
  ks_threads s !! t = Some k → is_Some (ks_queues s !! RunQ) →
  kt_wchan k = None → kt_qlink k = None →
  sched_make_runnable t s = RRet tt (q_push RunQ t (with_state KT_RUN k) s).
Proof.
  intros Ht HQ Hw Hl. unfold sched_make_runnable. krun.
  erewrite ktqueue_enqueue_run; [|simpl; apply lookup_insert_eq|done..]. simpl.
  unfold q_push, set_queues, set_threads. simpl. by rewrite insert_insert_eq.
Qed.

(** A sleeping thread moved from its queue to the run queue. *)
Definition wake (q : qid) (t : positive) (k : kthread) (s : kstate) : kstate :=
  q_push RunQ t (with_state KT_RUN k) (q_drop q t k s).

Lemma sched_wakeup_on_empty s q Q :
  ks_queues s !! q = Some Q → tq_list Q = [] → sched_wakeup_on q s = RRet None s.
Proof.
  intros HQ HL. unfold sched_wakeup_on.
  by erewrite kbind_of_ret by (by eapply ktqueue_dequeue_empty).
Qed.

Lemma sched_wakeup_on_run s q Q ts t :
  wf s → q ≠ RunQ → ks_queues s !! q = Some Q → tq_list Q = ts ++ [t] →
  ∃ k, ks_threads s !! t = Some k ∧ kt_wchan k = Some q ∧
    sched_wakeup_on q s = RRet (Some t) (wake q t k s) ∧ wf (wake q t k s).
Proof.
  intros Hwf Hq HQ HL. pose proof Hwf as [H1 H2 H3 H4 [R HR]].
  destruct (H2 q Q t) as (k & Ht & Hw & Hst); [done|rewrite HL; set_solver|].
  assert (Hl : kt_qlink k = Some q) by (by rewrite (H3 _ _ Ht)).
  exists k. split_and!; [done..| |].
  - unfold sched_wakeup_on. erewrite kbind_of_ret by (by eapply ktqueue_dequeue_run).
    assert (kt_state k = KT_SLEEP ∨ kt_state k = KT_SLEEP_CANCELLABLE) by (by destruct q).
    krun. rewrite bool_decide_eq_true_2 by done. krun.
    erewrite sched_make_runnable_run; [|simpl; apply lookup_insert_eq| |done..].
    + simpl. unfold wake, q_push, q_drop, set_queues, set_threads. simpl.
      by rewrite !insert_insert_eq.
    + simpl. rewrite lookup_alter_ne by done. eauto.
  - apply wf_push; [by eapply wf_drop| | |done].
    + simpl. intros k0. rewrite lookup_insert_eq. by intros [= <-].
    + simpl. rewrite lookup_alter_ne by done. eauto.
Qed.

(** The queues after a wake-up. *)
Lemma wake_queues s q t k Q R :
  q ≠ RunQ → ks_queues s !! q = Some Q → ks_queues s !! RunQ = Some R →
  ks_queues (wake q t k s) =
    <[RunQ := KTQueue (t :: tq_list R) (tq_size R + 1)]>
      (<[q := KTQueue (filter (.≠ t) (tq_list Q)) (tq_size Q - 1)]> (ks_queues s)).
Proof.
  intros Hq HQ HR. unfold wake, q_push, q_drop. simpl.
  rewrite (alter_insert_lookup _ (ks_queues s) q Q) by done.
  by rewrite (alter_insert_lookup _ _ RunQ R) by (by rewrite lookup_insert_ne).
Qed.

Lemma sched_sleep_on_run s q t k :
  ks_curthr s = Some t → ks_threads s !! t = Some k → is_Some (ks_queues s !! q) →
  kt_wchan k = None → kt_qlink k = None →
  sched_sleep_on q s = RSwitch (q_push q t (with_state KT_SLEEP k) s) (λ s', RRet tt s').
Proof.
  intros Hc Ht HQ Hw Hl. unfold sched_sleep_on. krun.
  erewrite ktqueue_enqueue_run; [|simpl; apply lookup_insert_eq|done..]. simpl.
  unfold sched_switch, kswitch, q_push, set_queues, set_threads. simpl.
  by rewrite insert_insert_eq.
Qed.

Lemma sched_broadcast_on_run n s q Q R :
  wf s → q ≠ RunQ → ks_queues s !! q = Some Q → ks_queues s !! RunQ = Some R →
  length (tq_list Q) = n →
  ∃ s', sched_broadcast_on n q s = RRet tt s' ∧ wf s' ∧
    ks_queues s' = <[RunQ := KTQueue (tq_list Q ++ tq_list R) (tq_size R + tq_size Q)]>
                     (<[q := KTQueue [] 0]> (ks_queues s)) ∧
    (∀ t, t ∉ tq_list Q → ks_threads s' !! t = ks_threads s !! t) ∧
    ks_holder s' = ks_holder s ∧ ks_curthr s' = ks_curthr s ∧ ks_ipl s' = ks_ipl s.
Proof.
  revert s Q R. induction n as [|n IH]; intros s Q R Hwf Hq HQ HR Hn.
  - apply nil_length_inv in Hn. destruct (wf_queue _ Hwf _ _ HQ) as [Hsz _].
    rewrite Hn in Hsz. simpl in Hsz. exists s.
    split_and!; [|done| |done..].
    + simpl. kstep. simpl. rewrite HQ. simpl. by rewrite bool_decide_eq_true_2.
    + destruct Q as [QL QS], R as [RL RS]; simpl in *; subst. rewrite Z.add_0_r.
      by rewrite (insert_id (ks_queues s) q), insert_id.
  - destruct (exists_last (l := tq_list Q)) as (ts & t & HL); [by destruct (tq_list Q)|].
    destruct (sched_wakeup_on_run s q Q ts t) as (k & Ht & Hw & Hrun & Hwf'); [done..|].
    destruct (wf_queue _ Hwf _ _ HQ) as [Hsz Hnd]. rewrite HL in Hn, Hsz, Hnd.
    rewrite length_app in Hn, Hsz. simpl in Hn, Hsz.
    assert (Hts : filter (.≠ t) (tq_list Q) = ts).
    { rewrite HL. rewrite filter_ne_split; [by rewrite app_nil_r| |set_solver].
      apply NoDup_app in Hnd. set_solver. }
    pose proof (wake_queues s q t k Q R Hq HQ HR) as HWQ. rewrite Hts in HWQ.
    destruct (IH (wake q t k s) (KTQueue ts (tq_size Q - 1))
                (KTQueue (t :: tq_list R) (tq_size R + 1)))
      as (s' & Hb & Hwf'' & HQ' & Hthr & Hh & Hcur & Hipl); [done|done| | |simpl; lia|].
    { by rewrite HWQ, lookup_insert_ne, lookup_insert_eq. }
    { by rewrite HWQ, lookup_insert_eq. }
    exists s'. simpl. kstep. simpl. rewrite HQ. simpl. rewrite bool_decide_eq_false_2 by lia.
    split_and!; [|done| | |done|done|done].
    + unfold kbind. rewrite Hrun. done.
    + rewrite HQ', HWQ, HL. simpl. rewrite <- app_assoc. simpl.
      rewrite (insert_insert_ne _ q RunQ), insert_insert_eq by done.
      rewrite insert_insert_eq. f_equal. f_equal. lia.
    + intros u Hu. rewrite HL in Hu. rewrite Hthr by set_solver. simpl.
      rewrite !lookup_insert_ne by set_solver. done.
Qed.

Lemma sched_cancel_other s t k :
  ks_threads s !! t = Some k → kt_state k ≠ KT_SLEEP_CANCELLABLE →
  sched_cancel t s = RRet tt (set_threads <[t := with_cancelled true k]> s).
Proof.
  intros Ht Hst. unfold sched_cancel. krun. rewrite bool_decide_eq_false_2 by done. done.
Qed.

Lemma sched_cancel_sleeper s t k q :
  wf s → ks_threads s !! t = Some k → kt_state k = KT_SLEEP_CANCELLABLE →
  kt_wchan k = Some q →
  sched_cancel t s = RRet tt (wake q t (with_cancelled true k) s) ∧
  wf (wake q t (with_cancelled true k) s).
Proof.
  intros Hwf Ht Hst Hw. pose proof Hwf as [H1 H2 H3 H4 HR].
  assert (Hl : kt_qlink k = Some q) by (by rewrite (H3 _ _ Ht)).
  destruct (H4 _ _ _ Ht Hw) as (Q & HQ & Hin).
  destruct (H2 _ _ _ HQ Hin) as (k' & Ht' & _ & Hok). simplify_eq.
  assert (Hq : q ≠ RunQ) by (intros ->; rewrite Hst in Hok; done).
  split.
  - unfold sched_cancel, ktqueue_remove, qlist_remove. krun.
    erewrite sched_make_runnable_run; [|simpl; apply lookup_insert_eq| |done..].
    + unfold wake, q_push, q_drop, set_queues, set_threads. simpl.
      rewrite !insert_insert_eq. by rewrite (alter_insert_lookup _ (ks_queues s) q Q).
    + simpl. rewrite lookup_insert_ne by done.
      rewrite lookup_insert_ne by done. done.
  - apply wf_push; [by eapply wf_drop| | |done].
    + simpl. intros k0. rewrite lookup_insert_eq. by intros [= <-].
    + simpl. rewrite lookup_alter_ne by done. done.
Qed.

(** Changing a thread without moving it. *)
Lemma wf_same_place s t k k' :
  wf s → ks_threads s !! t = Some k → kt_wchan k' = kt_wchan k → kt_qlink k' = kt_qlink k →
  kt_state k' = kt_state k → wf (set_threads <[t := k']> s).
Proof.
  intros [H1 H2 H3 H4 H5] Ht Ew El Es. split; simpl; [done| | | |done].
  - intros q Q u HQ Hu. destruct (H2 q Q u HQ Hu) as (k0 & Hk0 & ? & ?).
    rewrite lookup_insert. case_decide; [|eauto]. subst. simplify_eq.
    exists k'. by rewrite Ew, Es.
  - intros u k0. rewrite lookup_insert. case_decide; intros; simplify_eq; [|eauto].
    rewrite Ew, El. eauto.
  - intros u k0 q. rewrite lookup_insert. case_decide; intros; simplify_eq; [|eauto].
    rewrite Ew in *. eauto.
Qed.

(** * Properties *)

(** sched_broadcast_on empties a wait queue in as many iterations as it has
    sleepers, and puts them on the run queue in the order they would have been
    woken one at a time (the longest sleeper is the first to run); every other
    thread and queue is untouched. *)
Theorem sched_broadcast_on_wakes_all s q Q R :
  wf s → q ≠ RunQ → ks_queues s !! q = Some Q → ks_queues s !! RunQ = Some R →
  ∃ s', sched_broadcast_on (Z.to_nat (tq_size Q)) q s = RRet tt s' ∧ wf s' ∧
    ks_queues s' = <[RunQ := KTQueue (tq_list Q ++ tq_list R) (tq_size R + tq_size Q)]>
                     (<[q := KTQueue [] 0]> (ks_queues s)) ∧
    (∀ t, t ∉ tq_list Q → ks_threads s' !! t = ks_threads s !! t) ∧
    (∀ t, t ∈ tq_list Q → ∃ k, ks_threads s' !! t = Some k ∧ kt_state k = KT_RUN ∧
       kt_wchan k = Some RunQ).
Proof.
  intros Hwf Hq HQ HR. destruct (wf_queue _ Hwf _ _ HQ) as [Hsz _].
  rewrite Hsz, Nat2Z.id.
  destruct (sched_broadcast_on_run _ s q Q R Hwf Hq HQ HR eq_refl)
    as (s' & Hb & Hwf' & HQ' & Hthr & _).
  exists s'. split_and!; [done..| |done|].
  { by rewrite HQ', Hsz. }
  intros t Ht.
  destruct (wf_on _ Hwf' RunQ (KTQueue (tq_list Q ++ tq_list R) (tq_size R + tq_size Q)) t)
    as (k & ? & ? & ?); [by rewrite HQ', lookup_insert_eq|simpl; set_solver|eauto].
Qed.

(** sched_cancel keeps the scheduler state well-formed, sets the cancelled
    flag whatever the thread is doing, takes a cancellable sleeper off its queue
    and makes it runnable, and leaves a thread in any other state where it is. *)
Theorem sched_cancel_behaviour s t k :
  wf s → ks_threads s !! t = Some k →
  (kt_state k = KT_SLEEP_CANCELLABLE → is_Some (kt_wchan k)) →
  ∃ s' k', sched_cancel t s = RRet tt s' ∧ wf s' ∧ ks_threads s' !! t = Some k' ∧
    kt_cancelled k' = true ∧
    (kt_state k = KT_SLEEP_CANCELLABLE → kt_state k' = KT_RUN ∧ kt_wchan k' = Some RunQ) ∧
    (kt_state k ≠ KT_SLEEP_CANCELLABLE → kt_state k' = kt_state k ∧ kt_wchan k' = kt_wchan k).
Proof.
  intros Hwf Ht Hon. destruct (decide (kt_state k = KT_SLEEP_CANCELLABLE)) as [Hst|Hst].
  - destruct (Hon Hst) as [q Hw]. destruct (sched_cancel_sleeper s t k q) as [Hr Hwf']; [done..|].
    eexists _, _. split_and!; [done|done|apply lookup_insert_eq|done..].
  - eexists _, _. split_and!; [by apply sched_cancel_other| |apply lookup_insert_eq|done..].
    by eapply wf_same_place.
Qed.

(** * A concrete state *)

(** [wf] of a state given by explicit maps. *)
Ltac concrete_wf := split; simpl;
  [ intros ?q ?Q ?HQ; map_cases; (split; [done|closed])
  | intros ?q ?Q ?t ?HQ ?Ht; map_cases; simpl in *; set_unfold; try done;
    repeat match goal with H : _ ∨ _ |- _ => destruct H end;
    repeat match goal with H : False |- _ => destruct H end;
    subst; eexists; (split_and!; [reflexivity|reflexivity|simpl; auto])
  | intros ?t ?k ?Hk; by map_cases
  | intros ?t ?k ?q ?Hk ?Hw; map_cases; simplify_eq/=; eexists; (split; [done|closed])
  | closed ].

Module Example.

(** Thread 1 runs, thread 2 sleeps on wait queue 1 and thread 3, which went to
    sleep after it, can be cancelled. *)
Definition sleepers : kstate :=
  KState {[ 1%positive := KThread 0 1 false None KT_RUN None;
            2%positive := KThread 0 1 false (Some (WaitQ 1)) KT_SLEEP (Some (WaitQ 1));
            3%positive := KThread 0 1 false (Some (WaitQ 1)) KT_SLEEP_CANCELLABLE (Some (WaitQ 1)) ]}
         {[ RunQ := KTQueue [] 0; WaitQ 1 := KTQueue [3%positive; 2%positive] 2 ]}
         ∅ IPL_LOW (Some 1%positive) (Some 1%positive).

Lemma sleepers_wf : wf sleepers.
Proof. concrete_wf. Qed.

Lemma sched_broadcast_on_wakes_all_witness :
  ∃ s', sched_broadcast_on 2 (WaitQ 1) sleepers = RRet tt s' ∧
    ks_queues s' !! RunQ = Some (KTQueue [3%positive; 2%positive] 2).
Proof.
  destruct (sched_broadcast_on_wakes_all sleepers (WaitQ 1)
    (KTQueue [3%positive; 2%positive] 2) (KTQueue [] 0)) as (s' & Hr & _ & HQ & _); try done.
  { apply sleepers_wf. }
  exists s'. by rewrite HQ, lookup_insert_eq.
Defined.

Lemma sched_cancel_behaviour_witness :
  ∃ s' k', sched_cancel 3 sleepers = RRet tt s' ∧ ks_threads s' !! 3%positive = Some k' ∧
    kt_state k' = KT_RUN.
Proof.
  destruct (sched_cancel_behaviour sleepers 3
    (KThread 0 1 false (Some (WaitQ 1)) KT_SLEEP_CANCELLABLE (Some (WaitQ 1))))
    as (s' & k' & Hr & _ & Hk & _ & Hst & _); [apply sleepers_wf|done|by eexists|].
  exists s', k'. split_and!; [done|done|]. by apply Hst.
Defined.
End Example.
