(* ===== verification/Mutex.v ===== *)
(** Mutexes: kernel/proc/kmutex.c, and the machine that interleaves threads.

    The operations are in the first part.  The second part is a step relation
    on the whole machine: the current thread calls any operation it is allowed
    to call, stops inside it when the operation switches away, the processor
    picks the next thread as [sched_switch] does, and a stopped thread continues
    from the point where it stopped.  A ghost set records which thread has
    returned from locking which mutex and has not called unlock since. *)

From stdpp Require Import base numbers list gmap strings.
From S2P Require Import Prelude Sched.

Open Scope Z_scope.

(** * kmutex.c *)

Definition get_holder (m : positive) : kM kstate (option positive) :=
  let* s := kget in kderef (ks_holder s !! m) "mutex".

Definition kmutex_init (m : positive) : kM kstate unit :=
  sched_queue_init (MutexQ m) ;;;
  kmodify (set_holder m None).

Definition kmutex_lock (m : positive) : kM kstate unit :=
  let* curthr := kgets ks_curthr in
  let* holder := get_holder m in
  KASSERT (bool_decide (is_Some curthr ∧ curthr ≠ holder)) "curthr && (curthr != mtx->km_holder)" ;;;
  if holder is None then
    kmodify (set_holder m curthr)
  else
    sched_sleep_on (MutexQ m) ;;;
    let* curthr := kgets ks_curthr in
    kmodify (set_holder m curthr).

Definition kmutex_lock_cancellable (m : positive) : kM kstate Z :=
  let* curthr := kgets ks_curthr in
  let* holder := get_holder m in
  KASSERT (bool_decide (is_Some curthr ∧ curthr ≠ holder)) "curthr && (curthr != mtx->km_holder)" ;;;
  if holder is Some _ then
    let* r := sched_cancellable_sleep_on (MutexQ m) in
    if bool_decide (r ≠ - EINTR) then
      let* curthr := kgets ks_curthr in
      kmodify (set_holder m curthr) ;;;
      kret 0
    else kret (- EINTR)
  else
    kmodify (set_holder m curthr) ;;;
    kret 0.

Definition kmutex_unlock (m : positive) : kM kstate unit :=
  let* curthr := kgets ks_curthr in
  let* holder := get_holder m in
  KASSERT (bool_decide (is_Some curthr ∧ curthr = holder)) "curthr && (curthr == mtx->km_holder)" ;;;
  let* empty := sched_queue_empty (MutexQ m) in
  (if negb empty then
     let* New := sched_wakeup_on (MutexQ m) in
     kmodify (set_holder m New)
   else
     kmodify (set_holder m None)) ;;;
  let* holder := get_holder m in
  KASSERT (bool_decide (curthr ≠ holder)) "curthr != mtx->km_holder".

(** * The machine *)

(** What a kernel thread can do to the scheduler and to mutexes.  [OpYield] is
    the pair of calls [sched_make_runnable(curthr); sched_switch()]. *)
Inductive kop :=
| OpLock (m : positive)
| OpLockCancellable (m : positive)
| OpUnlock (m : positive)
| OpYield
| OpSleep (n : positive)
| OpWake (n : positive)
| OpBroadcast (n : positive)
| OpCancel (t : positive).

Definition run_op (op : kop) : kM kstate Z :=
  match op with
  | OpLock m => kmutex_lock m ;;; kret 0
  | OpLockCancellable m => kmutex_lock_cancellable m
  | OpUnlock m => kmutex_unlock m ;;; kret 0
  | OpYield => let* t := get_curthr in sched_make_runnable t ;;; sched_switch ;;; kret 0
  | OpSleep n => sched_sleep_on (WaitQ n) ;;; kret 0
  | OpWake n => sched_wakeup_on (WaitQ n) ;;; kret 0
  | OpBroadcast n =>
      let* Q := get_queue (WaitQ n) in
      sched_broadcast_on (Z.to_nat (tq_size Q)) (WaitQ n) ;;; kret 0
  | OpCancel t => sched_cancel t ;;; kret 0
  end.

Inductive mode :=
| MRun                       (* the current thread executes *)
| MSwitch (original_ipl : Z) (* inside the loop of sched_switch *).

Record machine := Machine {
  m_ks : kstate;
  m_mode : mode;
  m_pend : gmap positive (kop * kM kstate Z);  (* stopped calls *)
  m_owns : gset (positive * positive)          (* ghost: thread has locked mutex *)
}.

(** The ghost set when a call returns. *)
Definition finish (t : positive) (op : kop) (r : Z) (owns : gset (positive * positive)) :=
  match op with
  | OpLock m => {[(t, m)]} ∪ owns
  | OpLockCancellable m => if bool_decide (r = 0) then {[(t, m)]} ∪ owns else owns
  | OpUnlock m => owns ∖ {[(t, m)]}
  | _ => owns
  end.

(** An interrupt taken while the processor waits wakes a thread of a wait queue. *)
Definition interrupt (n : positive) : kM kstate unit :=
  sched_wakeup_on (WaitQ n) ;;; kret tt.

Inductive mstep (allowed : machine → positive → kop → Prop) : machine → machine → Prop :=
| step_call M t op r s :
    m_mode M = MRun → ks_curthr (m_ks M) = Some t → m_pend M !! t = None → allowed M t op →
    run_op op (m_ks M) = RRet r s →
    mstep allowed M (Machine s MRun (m_pend M) (finish t op r (m_owns M)))
| step_call_switch M t op s k ipl s' :
    m_mode M = MRun → ks_curthr (m_ks M) = Some t → m_pend M !! t = None → allowed M t op →
    run_op op (m_ks M) = RSwitch s k → switch_enter s = RRet ipl s' →
    mstep allowed M (Machine s' (MSwitch ipl) (<[t := (op, k)]> (m_pend M)) (m_owns M))
| step_resume M t op k r s :
    m_mode M = MRun → ks_curthr (m_ks M) = Some t → m_pend M !! t = Some (op, k) →
    k (m_ks M) = RRet r s →
    mstep allowed M (Machine s MRun (delete t (m_pend M)) (finish t op r (m_owns M)))
| step_resume_switch M t op k s k' ipl s' :
    m_mode M = MRun → ks_curthr (m_ks M) = Some t → m_pend M !! t = Some (op, k) →
    k (m_ks M) = RSwitch s k' → switch_enter s = RRet ipl s' →
    mstep allowed M (Machine s' (MSwitch ipl) (<[t := (op, k')]> (m_pend M)) (m_owns M))
| step_dispatch M ipl t s s' :
    m_mode M = MSwitch ipl → switch_pick (m_ks M) = RRet (Some t) s →
    switch_commit ipl t s = RRet tt s' →
    mstep allowed M (Machine s' MRun (m_pend M) (m_owns M))
| step_idle M ipl n s s' :
    m_mode M = MSwitch ipl → switch_pick (m_ks M) = RRet None s →
    switch_wait (interrupt n) s = RRet tt s' →
    mstep allowed M (Machine s' (MSwitch ipl) (m_pend M) (m_owns M)).

(** Calls that respect the interface, in a system whose threads do not use
    cancellable sleeps: a thread locks only a mutex it does not hold, unlocks
    only one it holds, and names objects that exist. *)
Definition disciplined (M : machine) (t : positive) (op : kop) : Prop :=
  match op with
  | OpLock m => is_Some (ks_holder (m_ks M) !! m) ∧ (t, m) ∉ m_owns M
  | OpLockCancellable m => False
  | OpUnlock m => (t, m) ∈ m_owns M
  | OpYield => True
  | OpSleep n | OpWake n | OpBroadcast n => is_Some (ks_queues (m_ks M) !! WaitQ n)
  | OpCancel u => is_Some (ks_threads (m_ks M) !! u)
  end.

(** The same discipline with cancellable locking allowed. *)
Definition disciplined_cancellable (M : machine) (t : positive) (op : kop) : Prop :=
  match op with
  | OpLockCancellable m => is_Some (ks_holder (m_ks M) !! m) ∧ (t, m) ∉ m_owns M
  | _ => disciplined M t op
  end.

(** * The invariant *)

Definition wchan (s : kstate) (t : positive) : option qid := ks_threads s !! t ≫= kt_wchan.

(** What a stopped call still has to do. *)
Definition pend_ok (w : positive → option qid) (h : gmap positive (option positive))
    (t : positive) (op : kop) (k : kM kstate Z) : Prop :=
  match op with
  | OpLock m =>
      (∀ s, k s = RRet 0 (set_holder m (ks_curthr s) s)) ∧
      (w t = Some (MutexQ m) ∨ h !! m = Some (Some t))
  | OpYield | OpSleep _ => ∀ s, k s = RRet 0 s
  | _ => False
  end.

(** [w] is where each thread waits, [h] the holder fields, [p] the stopped calls
    and [o] the ghost ownership. *)
Record lock_inv (w : positive → option qid) (h : gmap positive (option positive))
    (p : gmap positive (kop * kM kstate Z)) (o : gset (positive * positive)) : Prop := {
  li_wait t m : w t = Some (MutexQ m) → ∃ k, p !! t = Some (OpLock m, k);
  li_pend t op k : p !! t = Some (op, k) → pend_ok w h t op k;
  li_own t m : (t, m) ∈ o → h !! m = Some (Some t) ∧ ∀ k, p !! t ≠ Some (OpLock m, k);
  li_holder t m : h !! m = Some (Some t) →
    (t, m) ∈ o ∨ (w t ≠ Some (MutexQ m) ∧ ∃ k, p !! t = Some (OpLock m, k));
  li_free m t : h !! m = Some None → w t ≠ Some (MutexQ m)
}.

Record core (s : kstate) (p : gmap positive (kop * kM kstate Z))
    (o : gset (positive * positive)) : Prop := {
  core_wf : wf s;
  core_lock : lock_inv (wchan s) (ks_holder s) p o;
  core_mutex m : is_Some (ks_holder s !! m) → is_Some (ks_queues s !! MutexQ m);
  core_canc t k : ks_threads s !! t = Some k → kt_state k ≠ KT_SLEEP_CANCELLABLE
}.

(** The thread that runs is on no queue. *)
Definition running (s : kstate) (t : positive) : Prop :=
  ks_curthr s = Some t ∧ ∃ k, ks_threads s !! t = Some k ∧ kt_wchan k = None.

Definition inv (M : machine) : Prop :=
  core (m_ks M) (m_pend M) (m_owns M) ∧
  match m_mode M with MRun => ∃ t, running (m_ks M) t | MSwitch _ => True end.

(** ** Moves of the lock invariant *)

Section LockInv.
Context (w : positive → option qid) (h : gmap positive (option positive)).
Context (p : gmap positive (kop * kM kstate Z)) (o : gset (positive * positive)).
Hypothesis Hinv : lock_inv w h p o.

(** Threads move between places that are not the wait queue of a mutex. *)
Lemma li_moves w' :
  (∀ u, w' u = w u ∨ ((∀ m, w u ≠ Some (MutexQ m)) ∧ (∀ m, w' u ≠ Some (MutexQ m)))) →
  lock_inv w' h p o.
Proof.
  intros Hw'. destruct Hinv as [H1 H2 H3 H4 H5].
  assert (Hsame : ∀ u m, w' u = Some (MutexQ m) ↔ w u = Some (MutexQ m)).
  { intros u m. destruct (Hw' u) as [->|[? ?]]; naive_solver. }
  split.
  - intros u m Hu%Hsame. eauto.
  - intros u op k Hu%H2. destruct op; simpl in *; rewrite ?Hsame; done.
  - done.
  - intros u m Hu%H4. by rewrite Hsame.
  - intros m u Hm%(H5 _ u). by rewrite Hsame.
Qed.

Lemma li_move w' t q :
  (∀ m, w t ≠ Some (MutexQ m)) → (∀ m, q ≠ Some (MutexQ m)) →
  (∀ u, w' u = if decide (u = t) then q else w u) → lock_inv w' h p o.
Proof.
  intros Hw Hq Hw'. apply li_moves. intros u. rewrite Hw'.
  case_decide; [subst; by right|by left].
Qed.

Lemma li_stop t op k :
  p !! t = None → (op = OpYield ∨ ∃ n, op = OpSleep n) → (∀ s, k s = RRet 0 s) →
  lock_inv w h (<[t := (op, k)]> p) o.
Proof.
  intros Hp Hop Hk. destruct Hinv as [H1 H2 H3 H4 H5]. split.
  - intros u m [k' Hu]%H1. exists k'. rewrite lookup_insert_ne; [done|congruence].
  - intros u op' k'. rewrite lookup_insert. case_decide; [|eauto].
    intros [= <- <-]. by destruct Hop as [->|[n ->]].
  - intros u m [? Hn]%H3. split; [done|]. intros k'. rewrite lookup_insert.
    case_decide; [|done]. by destruct Hop as [->|[n ->]].
  - intros u m [?|(? & k' & Hu)]%H4; [by left|right]. split; [done|]. exists k'.
    rewrite lookup_insert_ne; [done|congruence].
  - done.
Qed.

Lemma li_continue t op k :
  p !! t = Some (op, k) → (op = OpYield ∨ ∃ n, op = OpSleep n) →
  lock_inv w h (delete t p) o.
Proof.
  intros Hp Hop. destruct Hinv as [H1 H2 H3 H4 H5].
  assert (Hne : ∀ u m k', p !! u = Some (OpLock m, k') → u ≠ t).
  { intros u m k' Hu ->. rewrite Hp in Hu. by destruct Hop as [->|[n ->]]. }
  split.
  - intros u m [k' Hu]%H1. exists k'. rewrite lookup_delete_ne; [done|]. by apply not_eq_sym, (Hne _ m k').
  - intros u op' k' [_ ?]%lookup_delete_Some. eauto.
  - intros u m [? Hn]%H3. split; [done|]. intros k' [_ ?]%lookup_delete_Some. by apply (Hn k').
  - intros u m [?|(? & k' & Hu)]%H4; [by left|right]. split; [done|]. exists k'.
    rewrite lookup_delete_ne; [done|]. by apply not_eq_sym, (Hne _ m k').
  - done.
Qed.

(** A free mutex is taken. *)
Lemma li_acquire t m :
  p !! t = None → h !! m = Some None →
  lock_inv w (<[m := Some t]> h) p ({[(t, m)]} ∪ o).
Proof.
  intros Hp Hm. destruct Hinv as [H1 H2 H3 H4 H5]. split.
  - done.
  - intros u op k Hu. pose proof (H2 _ _ _ Hu) as Hok. destruct op as [m'| | | | | | |]; try done.
    destruct Hok as [? Hor]. split; [done|]. destruct Hor as [?|Hh]; [by left|right].
    rewrite lookup_insert_ne; [done|congruence].
  - intros u m' [[= -> ->]%elem_of_singleton|Hin]%elem_of_union.
    + rewrite lookup_insert_eq. split; [done|congruence].
    + destruct (H3 _ _ Hin) as [Hh Hn]. rewrite lookup_insert_ne; [done|congruence].
  - intros u m'. rewrite lookup_insert. case_decide; [|set_solver].
    subst. intros [= ->]. left. set_solver.
  - intros m' u. rewrite lookup_insert. case_decide; [done|eauto].
Qed.

(** A thread waits for a held mutex. *)
Lemma li_block w' t t' m k :
  p !! t = None → h !! m = Some (Some t') → (t, m) ∉ o → w t = None →
  (∀ s, k s = RRet 0 (set_holder m (ks_curthr s) s)) →
  (∀ u, w' u = if decide (u = t) then Some (MutexQ m) else w u) →
  lock_inv w' h (<[t := (OpLock m, k)]> p) o.
Proof.
  intros Hp Hm Ho Hw Hk Hw'. destruct Hinv as [H1 H2 H3 H4 H5]. split.
  - intros u m'. rewrite Hw', lookup_insert. case_decide; [subst|].
    + rewrite decide_True by done. intros [= ->]. eauto.
    + rewrite decide_False by done. eauto.
  - intros u op k'. rewrite lookup_insert. case_decide as Htu; [subst|].
    + intros [= <- <-]. split; [done|]. left. by rewrite Hw', decide_True.
    + intros Hu%H2. destruct op; simpl in *; [|done..]. by rewrite Hw', decide_False.
  - intros u m' [? Hn]%H3. split; [done|]. intros k'. rewrite lookup_insert.
    case_decide; [|done]. intros [= <- <-]. subst. apply Ho. naive_solver.
  - intros u m' Hh. destruct (H4 _ _ Hh) as [?|(? & k' & Hu)]; [by left|right].
    assert (u ≠ t) by congruence.
    rewrite Hw', decide_False, lookup_insert_ne by done. eauto.
  - intros m' u Hh. rewrite Hw'. case_decide; [|eauto]. intros [= <-]. congruence.
Qed.

(** The holder of a mutex with no waiter releases it. *)
Lemma li_release t m :
  p !! t = None → (t, m) ∈ o → (∀ u, w u ≠ Some (MutexQ m)) →
  lock_inv w (<[m := None]> h) p (o ∖ {[(t, m)]}).
Proof.
  intros Hp Ho Hno. destruct Hinv as [H1 H2 H3 H4 H5]. destruct (H3 _ _ Ho) as [Hh _]. split.
  - done.
  - intros u op k Hu. pose proof (H2 _ _ _ Hu) as Hok. destruct op as [m'| | | | | | |]; try done.
    destruct Hok as [? Hor]. split; [done|]. destruct Hor as [?|Hh']; [by left|right].
    rewrite lookup_insert_ne; [done|]. intros <-. naive_solver.
  - intros u m' [Hin Hne]%elem_of_difference. destruct (H3 _ _ Hin) as [Hh' Hn].
    rewrite lookup_insert_ne; [done|]. intros <-. apply Hne. rewrite Hh in Hh'. set_solver.
  - intros u m'. rewrite lookup_insert. case_decide; [done|]. intros Hu%H4.
    destruct Hu as [?|?]; [left|by right]. set_solver.
  - intros m' u. rewrite lookup_insert. case_decide; [subst; done|eauto].
Qed.

(** The holder hands the mutex over to the waiter it wakes. *)
Lemma li_handoff w' t t' m :
  p !! t = None → (t, m) ∈ o → w t' = Some (MutexQ m) →
  (∀ u, w' u = if decide (u = t') then Some RunQ else w u) →
  lock_inv w' (<[m := Some t']> h) p (o ∖ {[(t, m)]}).
Proof.
  intros Hp Ho Hw Hw'. destruct Hinv as [H1 H2 H3 H4 H5]. destruct (H3 _ _ Ho) as [Hh _].
  destruct (H1 _ _ Hw) as [k' Hp']. assert (t ≠ t') by congruence. split.
  - intros u m'. rewrite Hw'. case_decide; [done|eauto].
  - intros u op k Hu. pose proof (H2 _ _ _ Hu) as Hok. destruct op as [m'| | | | | | |]; try done.
    destruct Hok as [? Hor]. split; [done|]. rewrite Hw'. case_decide as Hut.
    + subst. rewrite Hp' in Hu. simplify_eq. right. by rewrite lookup_insert_eq.
    + destruct Hor as [?|Hh']; [by left|right]. rewrite lookup_insert_ne; [done|].
      intros <-. naive_solver.
  - intros u m' [Hin Hne]%elem_of_difference. destruct (H3 _ _ Hin) as [Hh' Hn].
    rewrite lookup_insert_ne; [done|]. intros <-. apply Hne. rewrite Hh in Hh'. set_solver.
  - intros u m'. rewrite lookup_insert, Hw'. case_decide as Hm.
    + subst. intros [= ->]. right. rewrite decide_True by done. eauto.
    + intros Hu%H4. destruct Hu as [?|[Hu ?]]; [left; set_solver|right].
      split; [|done]. by case_decide.
  - intros m' u. rewrite lookup_insert, Hw'. case_decide; [done|].
    intros Hm. case_decide; [done|eauto].
Qed.

(** A woken thread returns from its lock call. *)
Lemma li_granted t m k :
  p !! t = Some (OpLock m, k) → w t = None →
  lock_inv w (<[m := Some t]> h) (delete t p) ({[(t, m)]} ∪ o).
Proof.
  intros Hp Hw. destruct Hinv as [H1 H2 H3 H4 H5].
  assert (Hh : h !! m = Some (Some t)).
  { destruct (H2 _ _ _ Hp) as [_ [?|?]]; congruence. }
  rewrite insert_id by done. split.
  - intros u m' Hu. destruct (H1 _ _ Hu) as [k' Hk']. exists k'.
    rewrite lookup_delete_ne; [done|congruence].
  - intros u op' k' [_ ?]%lookup_delete_Some. eauto.
  - intros u m' [[= -> ->]%elem_of_singleton|Hin]%elem_of_union.
    + split; [done|]. intros k'. by rewrite lookup_delete_eq.
    + destruct (H3 _ _ Hin) as [? Hn]. split; [done|].
      intros k' [_ ?]%lookup_delete_Some. by apply (Hn k').
  - intros u m' Hu. destruct (H4 _ _ Hu) as [?|(? & k' & Hk')]; [set_solver|].
    destruct (decide (u = t)) as [->|Hne]; [left; set_solver|right].
    rewrite lookup_delete_ne by done. eauto.
  - done.
Qed.
End LockInv.

(** ** Where the scheduler operations leave the threads *)

Lemma wchan_push q t k s u : wchan (q_push q t k s) u = if decide (u = t) then Some q else wchan s u.
Proof. unfold wchan. simpl. rewrite lookup_insert. repeat case_decide; by subst. Qed.

Lemma wchan_drop q t k s u : wchan (q_drop q t k s) u = if decide (u = t) then None else wchan s u.
Proof. unfold wchan. simpl. rewrite lookup_insert. repeat case_decide; by subst. Qed.

Lemma wchan_wake q t k s u : wchan (wake q t k s) u = if decide (u = t) then Some RunQ else wchan s u.
Proof. unfold wake. rewrite wchan_push, wchan_drop. by case_decide. Qed.

Lemma is_Some_alter `{Countable K} {A} (f : A → A) (m : gmap K A) i j :
  is_Some (alter f i m !! j) ↔ is_Some (m !! j).
Proof. rewrite lookup_alter. case_decide; [subst; by rewrite fmap_is_Some|done]. Qed.

(** The parts of [core] that are about single objects carry over to a state with
    at least the same queues and the same mutexes, whose changed threads are not
    in a cancellable sleep. *)
Lemma core_step s s' p o p' o' :
  core s p o → wf s' → lock_inv (wchan s') (ks_holder s') p' o' →
  (∀ q, is_Some (ks_queues s !! q) → is_Some (ks_queues s' !! q)) →
  (∀ m, is_Some (ks_holder s' !! m) → is_Some (ks_holder s !! m)) →
  (∀ t k, ks_threads s' !! t = Some k →
     ks_threads s !! t = Some k ∨ kt_state k ≠ KT_SLEEP_CANCELLABLE) →
  core s' p' o'.
Proof.
  intros [_ _ H3 H4] Hwf Hl Hq Hh Ht. split; [done|done|eauto|].
  intros t k [?|?]%Ht; eauto.
Qed.

Lemma core_push s p o p' o' q t k :
  core s p o → wchan s t = None → is_Some (ks_queues s !! q) → qstate_ok q (kt_state k) →
  kt_state k ≠ KT_SLEEP_CANCELLABLE →
  lock_inv (wchan (q_push q t k s)) (ks_holder s) p' o' → core (q_push q t k s) p' o'.
Proof.
  intros Hc Hw Hq Hst Hnc Hl. eapply core_step; [done| |done| |done|].
  - apply wf_push; [by destruct Hc| |done..]. intros k0 Hk0.
    unfold wchan in Hw. by rewrite Hk0 in Hw.
  - intros q'. simpl. by rewrite is_Some_alter.
  - intros u k'. simpl. rewrite lookup_insert. case_decide; [|by left].
    intros [= <-]. by right.
Qed.

Lemma core_drop s p o p' o' q t k :
  core s p o → wchan s t = Some q → kt_state k ≠ KT_SLEEP_CANCELLABLE →
  lock_inv (wchan (q_drop q t k s)) (ks_holder s) p' o' → core (q_drop q t k s) p' o'.
Proof.
  intros Hc Hw Hnc Hl. eapply core_step; [done| |done| |done|].
  - unfold wchan in Hw. destruct (ks_threads s !! t) as [k0|] eqn:Hk0; [|done].
    by eapply wf_drop; [destruct Hc|..].
  - intros q'. simpl. by rewrite is_Some_alter.
  - intros u k'. simpl. rewrite lookup_insert. case_decide; [|by left].
    intros [= <-]. by right.
Qed.

(** Nothing but the given fields matters. *)
Lemma core_ext s s' p o :
  ks_threads s' = ks_threads s → ks_queues s' = ks_queues s → ks_holder s' = ks_holder s →
  core s p o → core s' p o.
Proof.
  intros Et Eq Eh [H1 H2 H3 H4]. split.
  - by eapply wf_ext.
  - unfold wchan in *. by rewrite Et, Eh.
  - by rewrite Eq, Eh.
  - by rewrite Et.
Qed.

Lemma running_wchan s t : running s t → wchan s t = None.
Proof. intros (_ & k & Hk & Hw). unfold wchan. by rewrite Hk. Qed.

Lemma core_queue_waiters s p o m Q u :
  core s p o → ks_queues s !! MutexQ m = Some Q → u ∈ tq_list Q ↔ wchan s u = Some (MutexQ m).
Proof.
  intros [Hwf _ _ _] HQ. unfold wchan. split.
  - intros (k & Hk & Hw & _)%(wf_on _ Hwf _ _ u HQ). by rewrite Hk.
  - destruct (ks_threads s !! u) as [k|] eqn:Hk; [|done]. simpl. intros Hw.
    destruct (wf_where _ Hwf _ _ _ Hk Hw) as (Q' & HQ' & Hin). by simplify_eq.
Qed.

Lemma core_wakeup s p o n :
  core s p o → is_Some (ks_queues s !! WaitQ n) →
  ∃ r s', sched_wakeup_on (WaitQ n) s = RRet r s' ∧ core s' p o ∧ ∀ t, running s t → running s' t.
Proof.
  intros Hcore [Q HQ]. pose proof Hcore as [Hwf Hlock _ _].
  destruct (destruct_list (tq_list Q)) as [(a & l & HL)|HL].
  2:{ exists None, s. split; [by eapply sched_wakeup_on_empty|done]. }
  destruct (exists_last (l := tq_list Q)) as (ts & t' & HL'); [by rewrite HL|].
  destruct (sched_wakeup_on_run s (WaitQ n) Q ts t') as (k' & Hk' & Hw' & Hr & Hwf'); [done..|].
  exists (Some t'), (wake (WaitQ n) t' k' s). split; [done|].
  assert (Hwt' : wchan s t' = Some (WaitQ n)) by (unfold wchan; by rewrite Hk').
  split.
  - eapply core_step; [done|done| | |done|].
    + eapply (li_move _ _ _ _ Hlock _ t'); [by rewrite Hwt'| |intros u; apply wchan_wake]. done.
    + intros q. simpl. by rewrite !is_Some_alter.
    + intros u k0. simpl. rewrite !lookup_insert. case_decide; [|by left].
      intros [= <-]. by right.
  - intros t (Hc & k & Hk & Hw). split; [done|]. exists k. simpl.
    rewrite !lookup_insert_ne by congruence. done.
Qed.

(** ** One call of the current thread *)

(** What a call from a good state leads to. *)
Definition call_result (t : positive) (op : kop) (p : gmap positive (kop * kM kstate Z))
    (o : gset (positive * positive)) (r : kres kstate Z) : Prop :=
  match r with
  | RRet r s => core s p (finish t op r o) ∧ running s t
  | RSwitch s k => core s (<[t := (op, k)]> p) o
  | _ => False
  end.

Section Calls.
Context (s : kstate) (p : gmap positive (kop * kM kstate Z)) (o : gset (positive * positive)).
Context (t : positive).
Hypothesis Hcore : core s p o.
Hypothesis Hrun : running s t.
Hypothesis Hpend : p !! t = None.

Let Hlock : lock_inv (wchan s) (ks_holder s) p o := core_lock _ _ _ Hcore.
Let Hwf : wf s := core_wf _ _ _ Hcore.
Let Hwt : wchan s t = None := running_wchan _ _ Hrun.

Lemma call_lock m :
  is_Some (ks_holder s !! m) → (t, m) ∉ o → call_result t (OpLock m) p o (run_op (OpLock m) s).
Proof.
  intros [h Hh] Ho. destruct Hrun as (Hc & k & Hk & Hw).
  assert (Hl : kt_qlink k = None) by (by rewrite (wf_qlink _ Hwf _ _ Hk)).
  assert (Hne : Some t ≠ h).
  { intros <-. destruct (li_holder _ _ _ _ Hlock _ _ Hh) as [?|(_ & k' & ?)]; [done|congruence]. }
  unfold run_op, kmutex_lock, get_holder. krun.
  rewrite bool_decide_eq_true_2 by eauto. kstep. simpl. destruct h as [t'|].
  - unfold kbind. rewrite (sched_sleep_on_run _ _ t k) by eauto using core_mutex. simpl.
    apply (core_push _ p o); [done|done|by eapply core_mutex|by left|done|].
    eapply li_block; [done|done|done|done|done|done|]. intros u. apply wchan_push.
  - simpl. split; [|by split; eauto].
    eapply core_step; [done|by eapply wf_ext; [| |apply Hwf]|by apply li_acquire|done| |by left].
    intros m'. simpl. rewrite lookup_insert. case_decide; [by subst; rewrite Hh|done].
Qed.

Lemma call_unlock m : (t, m) ∈ o → call_result t (OpUnlock m) p o (run_op (OpUnlock m) s).
Proof.
  intros Ho. destruct (li_own _ _ _ _ Hlock _ _ Ho) as [Hh _].
  pose proof Hrun as (Hc & k & Hk & Hw).
  destruct (core_mutex _ _ _ Hcore m) as [Q HQ]; [eauto|].
  assert (Hhold : ∀ h m', is_Some (<[m := h]> (ks_holder s) !! m') → is_Some (ks_holder s !! m')).
  { intros h m'. rewrite lookup_insert. case_decide; [by subst; rewrite Hh|done]. }
  unfold run_op, kmutex_unlock, get_holder, sched_queue_empty. krun.
  rewrite bool_decide_eq_true_2 by eauto. kstep. simpl.
  rewrite HQ. simpl.
  destruct (destruct_list (tq_list Q)) as [(a & l & HL)|HL].
  - destruct (exists_last (l := tq_list Q)) as (ts & t' & HL'); [by rewrite HL|].
    destruct (sched_wakeup_on_run s (MutexQ m) Q ts t') as (k' & Hk' & Hw' & Hr & Hwf'); [done..|].
    assert (t ≠ t') by congruence.
    assert (wchan s t' = Some (MutexQ m)) by (unfold wchan; by rewrite Hk').
    rewrite (bool_decide_eq_false_2 (tq_list Q = [])) by (by rewrite HL). simpl.
    unfold kbind. rewrite Hr. kstep. simpl. rewrite lookup_insert_eq. simpl.
    rewrite bool_decide_eq_true_2 by congruence. simpl. split.
    + eapply core_step; [done|by eapply wf_ext; [| |apply Hwf']| | |apply Hhold|].
      * simpl. eapply li_handoff; [done..|]. intros u. apply wchan_wake.
      * intros q. simpl. by rewrite !is_Some_alter.
      * intros u k0. simpl. rewrite !lookup_insert. case_decide; [|by left].
        intros [= <-]. by right.
    + split; [done|]. exists k. simpl. by rewrite !lookup_insert_ne.
  - rewrite (bool_decide_eq_true_2 (tq_list Q = [])) by done. simpl. kstep. simpl. rewrite lookup_insert_eq. simpl.
    split; [|done].
    eapply core_step; [done|by eapply wf_ext; [| |apply Hwf]| |done|apply Hhold|by left].
    simpl. apply li_release; [done..|]. intros u Hu.
    apply (core_queue_waiters _ _ _ _ _ u Hcore HQ) in Hu. rewrite HL in Hu. set_solver.
Qed.

Lemma call_yield : call_result t OpYield p o (run_op OpYield s).
Proof.
  destruct Hrun as (Hc & k & Hk & Hw). pose proof (wf_runq _ Hwf).
  assert (Hl : kt_qlink k = None) by (by rewrite (wf_qlink _ Hwf _ _ Hk)).
  unfold run_op. krun. unfold kbind. rewrite (sched_make_runnable_run s t k) by done. simpl.
  eapply (core_push _ p o); [done..|].
  eapply (li_stop _ _ p); [|done|by left|done].
  eapply (li_move _ _ _ _ Hlock _ t); [by rewrite Hwt| |intros u; apply wchan_push]. done.
Qed.

Lemma call_sleep n :
  is_Some (ks_queues s !! WaitQ n) → call_result t (OpSleep n) p o (run_op (OpSleep n) s).
Proof.
  intros Hq. destruct Hrun as (Hc & k & Hk & Hw).
  assert (Hl : kt_qlink k = None) by (by rewrite (wf_qlink _ Hwf _ _ Hk)).
  unfold run_op, kbind. rewrite (sched_sleep_on_run s _ t k) by done. simpl.
  eapply (core_push _ p o); [done..|by left|done|].
  eapply (li_stop _ _ p); [|done|by right; eexists|done].
  eapply (li_move _ _ _ _ Hlock _ t); [by rewrite Hwt| |intros u; apply wchan_push]. done.
Qed.

Lemma call_broadcast n :
  is_Some (ks_queues s !! WaitQ n) → call_result t (OpBroadcast n) p o (run_op (OpBroadcast n) s).
Proof.
  intros [Q HQ]. destruct (wf_runq _ Hwf) as [R HR].
  destruct (wf_queue _ Hwf _ _ HQ) as [Hsz _].
  destruct (sched_broadcast_on_run _ s (WaitQ n) Q R Hwf ltac:(done) HQ HR eq_refl)
    as (s' & Hb & Hwf' & HQ' & Hthr & Hh & Hcur & _).
  assert (Hin : ∀ u, u ∈ tq_list Q → ∃ k, ks_threads s' !! u = Some k ∧
            kt_wchan k = Some RunQ ∧ kt_state k = KT_RUN).
  { intros u Hu. destruct (wf_on _ Hwf' RunQ (KTQueue (tq_list Q ++ tq_list R) (tq_size R + tq_size Q)) u)
      as (k & ? & ? & ?); [by rewrite HQ', lookup_insert_eq|simpl; set_solver|eauto]. }
  unfold run_op. krun. rewrite Hsz, Nat2Z.id, Hb. simpl. split.
  - eapply core_step; [done|done| | |by rewrite Hh|].
    + rewrite Hh. eapply li_moves; [done|]. intros u. destruct (decide (u ∈ tq_list Q)) as [Hu|Hu].
      * right. unfold wchan. destruct (Hin u Hu) as (k & -> & Hk & _).
        destruct (wf_on _ Hwf _ _ u HQ Hu) as (k0 & -> & Hk0 & _). simpl. by rewrite Hk, Hk0.
      * left. unfold wchan. by rewrite Hthr.
    + intros q Hq. rewrite HQ', !lookup_insert. by repeat case_decide.
    + intros u k Hk. destruct (decide (u ∈ tq_list Q)) as [Hu|Hu].
      * right. destruct (Hin u Hu) as (k' & Hk' & _ & Hst). simplify_eq. by rewrite Hst.
      * left. by rewrite <- Hthr.
  - destruct Hrun as (Hc & k & Hk & Hw). split; [by rewrite Hcur|]. exists k.
    rewrite Hthr; [done|]. intros Hu. destruct (wf_on _ Hwf _ _ t HQ Hu) as (k0 & ? & ? & _). congruence.
Qed.

Lemma call_cancel u :
  is_Some (ks_threads s !! u) → call_result t (OpCancel u) p o (run_op (OpCancel u) s).
Proof.
  intros [k Hk]. pose proof (core_canc _ _ _ Hcore _ _ Hk) as Hst.
  unfold run_op, kbind. rewrite (sched_cancel_other s u k) by done. simpl. split.
  - eapply core_step; [done|by eapply wf_same_place| |done|done|].
    + eapply li_moves; [done|]. intros v. left. unfold wchan. simpl. rewrite lookup_insert.
      case_decide; [subst; by rewrite Hk|done].
    + intros v k'. simpl. rewrite lookup_insert. case_decide; [|by left].
      intros [= <-]. by right.
  - destruct Hrun as (Hc & k0 & Hk0 & Hw). split; [done|]. simpl. rewrite lookup_insert.
    case_decide; [|eauto]. subst. simplify_eq. eauto.
Qed.

Lemma call_ok op :
  disciplined (Machine s MRun p o) t op → call_result t op p o (run_op op s).
Proof.
  destruct op; simpl; intros Hd.
  - destruct Hd. by apply call_lock.
  - done.
  - by apply call_unlock.
  - apply call_yield.
  - by apply call_sleep.
  - destruct (core_wakeup _ _ _ _ Hcore Hd) as (r & s' & Hr & ? & Hr'). unfold kbind. rewrite Hr.
    split; [done|by apply Hr'].
  - by apply call_broadcast.
  - by apply call_cancel.
Qed.

(** A stopped call continues. *)
Lemma resume_ok op k q :
  q !! t = Some (op, k) → core s q o →
  ∃ r s', k s = RRet r s' ∧ core s' (delete t q) (finish t op r o) ∧ running s' t.
Proof.
  intros Hq Hc. pose proof (core_lock _ _ _ Hc) as Hl. clear Hlock.
  pose proof (li_pend _ _ _ _ Hl _ _ _ Hq) as Hok.
  destruct op as [m| | | | | | |]; simpl in Hok; try done.
  - destruct Hok as [Hk Hor]. destruct Hor as [?|Hh]; [congruence|].
    pose proof Hrun as [Hcur ?]. exists 0, (set_holder m (Some t) s). split_and!; [by rewrite Hk, Hcur| |done].
    eapply core_step; [done|by eapply wf_ext; [| |apply Hwf]| |done| |by left].
    + simpl. eapply li_granted; [done|done|]. done.
    + intros m'. simpl. rewrite lookup_insert. case_decide; [by subst; rewrite Hh|done].
  - exists 0, s. split_and!; [done| |done].
    eapply core_step; [done|done| |done|done|by left]. eapply li_continue; [done..|by left].
  - exists 0, s. split_and!; [done| |done].
    eapply core_step; [done|done| |done|done|by left]. eapply li_continue; [done..|by right; eexists].
Qed.
End Calls.

(** ** Steps of the machine *)

Lemma switch_ok s p o ipl :
  core s p o →
  (∃ t s1 s2, switch_pick s = RRet (Some t) s1 ∧ switch_commit ipl t s1 = RRet tt s2 ∧
     core s2 p o ∧ running s2 t) ∨
  switch_pick s = RRet None s.
Proof.
  intros Hc. pose proof (core_wf _ _ _ Hc) as Hwf. destruct (wf_runq _ Hwf) as [R HR].
  destruct (destruct_list (tq_list R)) as [(a & l & HL)|HL].
  2:{ right. by eapply ktqueue_dequeue_empty. }
  left. destruct (exists_last (l := tq_list R)) as (ts & t & HL'); [by rewrite HL|].
  destruct (wf_on _ Hwf _ _ t HR) as (k & Hk & Hw & Hst); [rewrite HL'; set_solver|].
  simpl in Hst. exists t, (q_drop RunQ t k s). eexists. split_and!.
  - eapply ktqueue_dequeue_run; [done..|]. by rewrite (wf_qlink _ Hwf _ _ Hk).
  - unfold switch_commit. krun. done.
  - apply (core_ext (q_drop RunQ t k s)); [done..|]. apply (core_drop s p o); [done| | |].
    + unfold wchan. by rewrite Hk.
    + by rewrite Hst.
    + eapply (li_move _ _ _ _ (core_lock _ _ _ Hc) _ t); [unfold wchan; rewrite Hk; simpl; by rewrite Hw| |].
      2:{ intros u. apply wchan_drop. } done.
  - split; [done|]. simpl. rewrite lookup_insert_eq. eauto.
Qed.

Lemma inv_step M M' : inv M → mstep disciplined M M' → inv M'.
Proof.
  intros [Hc Hm] Hstep. destruct Hstep as [M t op r s Hmode Hcur Hp Hd Hr|
    M t op s k ipl s' Hmode Hcur Hp Hd Hr Hsw|M t op k r s Hmode Hcur Hp Hr|
    M t op k s k' ipl s' Hmode Hcur Hp Hr Hsw|M ipl t s s' Hmode Hpick Hcom|
    M ipl n s s' Hmode Hpick Hw]; destruct M as [ks md p o]; simpl in *; subst md.
  - destruct Hm as [t' Hrun]. assert (t' = t) as -> by (destruct Hrun; congruence).
    pose proof (call_ok ks p o t Hc Hrun Hp op Hd) as Hok. rewrite Hr in Hok.
    destruct Hok. split; simpl; eauto.
  - destruct Hm as [t' Hrun]. assert (t' = t) as -> by (destruct Hrun; congruence).
    pose proof (call_ok ks p o t Hc Hrun Hp op Hd) as Hok. rewrite Hr in Hok.
    injection Hsw as <- <-. split; [|done]. by eapply core_ext, Hok.
  - destruct Hm as [t' Hrun]. assert (t' = t) as -> by (destruct Hrun; congruence).
    destruct (resume_ok ks p o t Hc Hrun op k p Hp Hc) as (r' & s' & Hr' & ? & ?).
    rewrite Hr' in Hr. injection Hr as <- <-. split; simpl; eauto.
  - destruct Hm as [t' Hrun]. assert (t' = t) as -> by (destruct Hrun; congruence).
    destruct (resume_ok ks p o t Hc Hrun op k p Hp Hc) as (r' & s'' & Hr' & ? & ?). congruence.
  - destruct (switch_ok ks p o ipl Hc) as [(t' & s1 & s2 & Hp' & Hc' & ? & ?)|Hp']; [|congruence].
    rewrite Hp' in Hpick. injection Hpick as <- <-. rewrite Hc' in Hcom. injection Hcom as <-.
    split; simpl; eauto.
  - destruct (switch_ok ks p o ipl Hc) as [(t' & s1 & s2 & Hp' & Hc' & ? & ?)|Hp']; [congruence|].
    rewrite Hpick in Hp'. injection Hp' as ->. split; [|done]. simpl in *.
    unfold switch_wait, interrupt in Hw. revert Hw. kstep. simpl.
    destruct (ks_queues ks !! WaitQ n) as [Q|] eqn:HQ.
    + destruct (core_wakeup (set_ipl IPL_LOW ks) p o n) as (r & s1 & Hr & Hc1 & _);
        [by eapply core_ext, Hc|by eexists|].
      rewrite Hr. simpl. intros [= <-]. by eapply core_ext, Hc1.
    + unfold sched_wakeup_on, ktqueue_dequeue. kstep. simpl. by rewrite HQ.
Qed.

(** ** Reachable machines *)

(** A machine at boot: mutexes are initialised and free, nobody has called
    anything yet; threads may sleep on wait queues or be runnable. *)
Record initial (M : machine) : Prop := {
  init_wf : wf (m_ks M);
  init_mode : m_mode M = MRun;
  init_run : ∃ t, running (m_ks M) t;
  init_pend : m_pend M = ∅;
  init_owns : m_owns M = ∅;
  init_mutex m h : ks_holder (m_ks M) !! m = Some h →
    h = None ∧ is_Some (ks_queues (m_ks M) !! MutexQ m);
  init_where t k : ks_threads (m_ks M) !! t = Some k →
    (∀ m, kt_wchan k ≠ Some (MutexQ m)) ∧ kt_state k ≠ KT_SLEEP_CANCELLABLE
}.

Lemma inv_initial M : initial M → inv M.
Proof.
  intros [Hwf Hmode Hrun Hp Ho Hm Hw]. destruct M as [ks md p o]. simpl in *. subst.
  split; [|done]. simpl. split; [done| |intros m [h ?]; naive_solver|naive_solver].
  assert (Hnw : ∀ t m, wchan ks t ≠ Some (MutexQ m)).
  { intros t m. unfold wchan. destruct (ks_threads ks !! t) eqn:Hk; [|done]. by apply Hw in Hk as [? _]. }
  split; [naive_solver|done|set_solver| |done].
  intros t m Hh. by apply Hm in Hh as [? _].
Qed.

Lemma inv_reachable M0 M : initial M0 → rtc (mstep disciplined) M0 M → inv M.
Proof.
  intros Hi%inv_initial Hr. induction Hr as [|M1 M2 M3 Hs _ IH]; [done|].
  apply IH. by eapply inv_step.
Qed.

(** ** Running the machine

    The relation has an executable counterpart, which runs a given schedule. *)

Inductive event := ECall (op : kop) | EResume | EDispatch | EIdle (n : positive).

Section Exec.
Context (allowed : machine → positive → kop → Prop).
Context `{Hdec : ∀ M t op, Decision (allowed M t op)}.

(** What becomes of a call of [t], started or continued. *)
Definition after_call (M : machine) (t : positive) (op : kop) (started : bool)
    (r : kres kstate Z) : option machine :=
  match r with
  | RRet r s => Some (Machine s MRun (if started then m_pend M else delete t (m_pend M))
                        (finish t op r (m_owns M)))
  | RSwitch s k =>
      match switch_enter s with
      | RRet ipl s' => Some (Machine s' (MSwitch ipl) (<[t := (op, k)]> (m_pend M)) (m_owns M))
      | _ => None
      end
  | _ => None
  end.

Definition run_event (e : event) (M : machine) : option machine :=
  match m_mode M, e with
  | MRun, ECall op =>
      t ← ks_curthr (m_ks M);
      guard (m_pend M !! t = None);; guard (allowed M t op);;
      after_call M t op true (run_op op (m_ks M))
  | MRun, EResume =>
      t ← ks_curthr (m_ks M);
      '(op, k) ← m_pend M !! t;
      after_call M t op false (k (m_ks M))
  | MSwitch ipl, EDispatch =>
      match switch_pick (m_ks M) with
      | RRet (Some t) s =>
          match switch_commit ipl t s with
          | RRet _ s' => Some (Machine s' MRun (m_pend M) (m_owns M))
          | _ => None
          end
      | _ => None
      end
  | MSwitch ipl, EIdle n =>
      match switch_pick (m_ks M) with
      | RRet None s =>
          match switch_wait (interrupt n) s with
          | RRet _ s' => Some (Machine s' (MSwitch ipl) (m_pend M) (m_owns M))
          | _ => None
          end
      | _ => None
      end
  | _, _ => None
  end.

Lemma run_event_step e M M' : run_event e M = Some M' → mstep allowed M M'.
Proof.
  unfold run_event. destruct (m_mode M) as [|ipl] eqn:Hm, e as [op| | |n]; try done.
  - destruct (ks_curthr (m_ks M)) as [t|] eqn:Hc; simpl; [|done].
    repeat case_guard; simpl; [|done..].
    destruct (run_op op (m_ks M)) eqn:Hr; simpl; intros; simplify_eq.
    + by eapply step_call.
    + by eapply step_call_switch.
  - destruct (ks_curthr (m_ks M)) as [t|] eqn:Hc; simpl; [|done].
    destruct (m_pend M !! t) as [[op k]|] eqn:Hp; simpl; [|done].
    destruct (k (m_ks M)) eqn:Hr; simpl; intros; simplify_eq.
    + by eapply step_resume.
    + by eapply step_resume_switch.
  - destruct (switch_pick (m_ks M)) as [[t|] s| | | |] eqn:Hp; try done.
    destruct (switch_commit ipl t s) as [[] s'| | | |] eqn:Hc; intros; simplify_eq.
    by eapply step_dispatch.
  - destruct (switch_pick (m_ks M)) as [[t|] s| | | |] eqn:Hp; try done.
    destruct (switch_wait (interrupt n) s) as [[] s'| | | |] eqn:Hc; intros; simplify_eq.
    by eapply step_idle.
Qed.

Definition run_events (es : list event) (M : machine) : option machine :=
  foldl (λ o e, o ≫= run_event e) (Some M) es.

(** A schedule that leads to a machine with a decidable property shows that such
    a machine is reachable. *)
Lemma run_events_reach es M (P : machine → Prop) `{∀ M, Decision (P M)} :
  match run_events es M with Some M' => bool_decide (P M') | None => false end = true →
  ∃ M', rtc (mstep allowed) M M' ∧ P M'.
Proof.
  unfold run_events. revert M. induction es as [|e es IH]; intros M; simpl.
  - intros HP%bool_decide_eq_true. exists M. split; [constructor|done].
  - destruct (run_event e M) as [M1|] eqn:He; simpl.
    + intros (M' & ? & ?)%IH. exists M'. split; [|done].
      eapply rtc_l; [by eapply run_event_step|done].
    + assert (foldl (λ o e', o ≫= run_event e') None es = None) as -> by (clear IH; by induction es). done.
Qed.
End Exec.

#[global] Instance disciplined_dec M t op : Decision (disciplined M t op).
Proof. destruct op; simpl; apply _. Defined.
#[global] Instance disciplined_cancellable_dec M t op : Decision (disciplined_cancellable M t op).
Proof. destruct op; simpl; apply _. Defined.

(** * Properties *)

(** C10. Mutual exclusion: in every machine reachable from boot by threads that
    lock only what they do not hold and unlock only what they hold, with any
    interleaving of locks, unlocks, yields, sleeps, wake-ups, broadcasts,
    interrupts and cancellations, at most one thread is between a lock and an
    unlock of a mutex, and the holder field names that thread. *)
Theorem kmutex_mutual_exclusion M0 M m t1 t2 :
  initial M0 → rtc (mstep disciplined) M0 M →
  (t1, m) ∈ m_owns M → (t2, m) ∈ m_owns M →
  t1 = t2 ∧ ks_holder (m_ks M) !! m = Some (Some t1).
Proof.
  intros Hi Hr H1 H2. destruct (inv_reachable _ _ Hi Hr) as [[_ Hl _ _] _].
  destruct (li_own _ _ _ _ Hl _ _ H1) as [Hh1 _], (li_own _ _ _ _ Hl _ _ H2) as [Hh2 _].
  naive_solver.
Qed.

(** C11. No assertion fails and no pointer is misused in a machine reached by threads
    that lock only what they do not hold, unlock only what they hold, name objects
    that exist and do not call kmutex_lock_cancellable: some thread is running, any
    such call it makes returns or stops at a switch, a call it had stopped in returns; and while the processor looks for a thread,
    either one is found and made current or the run queue is empty. *)
Theorem kernel_calls_never_panic M0 M :
  initial M0 → rtc (mstep disciplined) M0 M →
  match m_mode M with
  | MRun => ∃ t, ks_curthr (m_ks M) = Some t ∧
      match m_pend M !! t with
      | None => ∀ op, disciplined M t op →
          (∃ r s, run_op op (m_ks M) = RRet r s) ∨ (∃ s k, run_op op (m_ks M) = RSwitch s k)
      | Some (_, k) => ∃ r s, k (m_ks M) = RRet r s
      end
  | MSwitch ipl =>
      (∃ t s s', switch_pick (m_ks M) = RRet (Some t) s ∧ switch_commit ipl t s = RRet tt s') ∨
      switch_pick (m_ks M) = RRet None (m_ks M)
  end.
Proof.
  intros Hi Hr. destruct (inv_reachable _ _ Hi Hr) as [Hc Hm].
  destruct M as [ks md p o]. simpl in *. destruct md as [|ipl].
  - destruct Hm as [t Hrun]. exists t. split; [apply Hrun|].
    destruct (p !! t) as [[op k]|] eqn:Hp.
    + destruct (resume_ok ks p o t Hc Hrun op k p Hp Hc) as (r & s & ? & _). eauto.
    + intros op Hd. pose proof (call_ok ks p o t Hc Hrun Hp op Hd) as Hok.
      destruct (run_op op ks); simpl in Hok; naive_solver.
  - destruct (switch_ok ks p o ipl Hc) as [(t & s & s' & ? & ? & _)|?]; eauto 10.
Qed.

(** C12. No wake-up is lost: in a machine reached by threads with the discipline of
    [disciplined] nobody sleeps on a free mutex,
    and whoever sleeps on a mutex is inside the lock call, while another thread
    has the mutex or has been handed it. *)
Theorem kmutex_waiters_have_holder M0 M m Q :
  initial M0 → rtc (mstep disciplined) M0 M →
  ks_queues (m_ks M) !! MutexQ m = Some Q →
  (ks_holder (m_ks M) !! m = Some None → tq_list Q = []) ∧
  ∀ t, t ∈ tq_list Q → ∃ k, m_pend M !! t = Some (OpLock m, k) ∧
    ∀ t', ks_holder (m_ks M) !! m = Some (Some t') →
      t' ∉ tq_list Q ∧ ((t', m) ∈ m_owns M ∨ ∃ k', m_pend M !! t' = Some (OpLock m, k')).
Proof.
  intros Hi Hr HQ. destruct (inv_reachable _ _ Hi Hr) as [Hc _].
  pose proof (core_lock _ _ _ Hc) as Hl.
  assert (Hw : ∀ u, u ∈ tq_list Q ↔ wchan (m_ks M) u = Some (MutexQ m))
    by (intros u; by eapply core_queue_waiters).
  split.
  - intros Hh. apply elem_of_nil_inv. intros u Hu%Hw. by eapply li_free in Hu.
  - intros t Ht%Hw. destruct (li_wait _ _ _ _ Hl _ _ Ht) as [k Hk]. exists k. split; [done|].
    intros t' Hh. split.
    + rewrite Hw. intros Hw'. destruct (li_wait _ _ _ _ Hl _ _ Hw') as [k' Hk'].
      destruct (li_holder _ _ _ _ Hl _ _ Hh) as [Ho|[? _]]; [|done].
      destruct (li_own _ _ _ _ Hl _ _ Ho) as [_ Hn]. by apply (Hn k').
    + destruct (li_holder _ _ _ _ Hl _ _ Hh) as [?|[_ ?]]; eauto.
Qed.

(** C13. kmutex_unlock hands the mutex to the thread that has waited longest: that
    thread becomes the holder and joins the tail of the run order, and the other
    waiters keep their places. *)
Theorem kmutex_unlock_hands_over s m t Q R ts t' :
  wf s → ks_curthr s = Some t → ks_holder s !! m = Some (Some t) →
  ks_queues s !! MutexQ m = Some Q → ks_queues s !! RunQ = Some R →
  tq_list Q = ts ++ [t'] → t ≠ t' →
  ∃ s', kmutex_unlock m s = RRet tt s' ∧ wf s' ∧ ks_holder s' = <[m := Some t']> (ks_holder s) ∧
    ks_queues s' = <[RunQ := KTQueue (t' :: tq_list R) (tq_size R + 1)]>
                     (<[MutexQ m := KTQueue ts (tq_size Q - 1)]> (ks_queues s)).
Proof.
  intros Hwf Hc Hh HQ HR HL Hne.
  destruct (sched_wakeup_on_run s (MutexQ m) Q ts t') as (k' & Hk' & Hw' & Hr & Hwf'); [done..|].
  eexists. split_and!.
  - unfold kmutex_unlock, get_holder, sched_queue_empty. krun.
    rewrite bool_decide_eq_true_2 by eauto. kstep. simpl. rewrite HQ. simpl.
    rewrite (bool_decide_eq_false_2 (tq_list Q = [])) by (rewrite HL; by destruct ts). simpl.
    unfold kbind. rewrite Hr. kstep. simpl. rewrite lookup_insert_eq. simpl.
    rewrite bool_decide_eq_true_2 by congruence. done.
  - by eapply wf_ext; [| |apply Hwf'].
  - done.
  - trans (ks_queues (wake (MutexQ m) t' k' s)); [done|].
    rewrite (wake_queues s (MutexQ m) t' k' Q R) by done. do 3 f_equal. rewrite HL.
    destruct (wf_queue _ Hwf _ _ HQ) as [_ Hnd]. rewrite HL in Hnd. apply NoDup_app in Hnd as (_ & Hd & _).
    rewrite filter_ne_split; [by rewrite app_nil_r|set_solver..].
Qed.

(** * A small machine

    Thread 1 runs, threads 2 and 3 are runnable, mutex 1 is free and wait queue 1
    is empty. *)
Module Example.

Definition runnable : kthread := KThread 0 1 false (Some RunQ) KT_RUN (Some RunQ).
Definition boot : kstate :=
  KState {[ 1%positive := KThread 0 1 false None KT_RUN None;
            2%positive := runnable; 3%positive := runnable ]}
         {[ RunQ := KTQueue [3%positive; 2%positive] 2;
            MutexQ 1 := KTQueue [] 0; WaitQ 1 := KTQueue [] 0 ]}
         {[ 1%positive := None ]} IPL_LOW (Some 1%positive) (Some 1%positive).
Definition boot_machine : machine := Machine boot MRun ∅ ∅.

Lemma boot_initial : initial boot_machine.
Proof.
  split; simpl; try done.
  - concrete_wf.
  - exists 1%positive. split; [done|]. by eexists.
  - intros m h Hm. map_cases. split; [done|closed].
  - intros t k Hk. by map_cases.
Qed.

(** The discipline does not extend to cancellable locking: a thread that is
    cancelled while it waits in kmutex_lock_cancellable leaves the wait queue,
    returns 0 and makes itself the holder although the mutex is still held, so
    two threads own the mutex at once. *)
Lemma lock_cancellable_breaks_exclusion :
  ∃ M, initial boot_machine ∧ rtc (mstep disciplined_cancellable) boot_machine M ∧
    (1%positive, 1%positive) ∈ m_owns M ∧ (2%positive, 1%positive) ∈ m_owns M.
Proof.
  destruct (run_events_reach disciplined_cancellable
    [ECall (OpLock 1); ECall OpYield; EDispatch; ECall (OpLockCancellable 1); EDispatch;
     ECall OpYield; EDispatch; EResume; ECall (OpCancel 2); ECall OpYield; EDispatch;
     EResume; ECall OpYield; EDispatch; EResume] boot_machine
    (λ M, (1, 1)%positive ∈ m_owns M ∧ (2, 1)%positive ∈ m_owns M)) as (M & Hr & ? & ?).
  { vm_compute. reflexivity. }
  exists M. split_and!; [apply boot_initial|done..].
Qed.

(** The holder yields while it holds the mutex, and another thread waits for it. *)
Definition contention : list event :=
  [ECall (OpLock 1); ECall OpYield; EDispatch; ECall (OpLock 1); EDispatch].

Lemma kmutex_mutual_exclusion_witness :
  ∃ M, rtc (mstep disciplined) boot_machine M ∧ (1, 1)%positive ∈ m_owns M ∧
    ks_holder (m_ks M) !! 1%positive = Some (Some 1%positive).
Proof.
  destruct (run_events_reach disciplined contention boot_machine
    (λ M, (1, 1)%positive ∈ m_owns M)) as (M & Hr & Ho); [vm_compute; reflexivity|].
  exists M. split_and!; [done|done|].
  exact (proj2 (kmutex_mutual_exclusion _ _ _ _ _ boot_initial Hr Ho Ho)).
Defined.

Lemma kernel_calls_never_panic_witness :
  (∃ r s, run_op (OpLock 1) boot = RRet r s) ∨ (∃ s k, run_op (OpLock 1) boot = RSwitch s k).
Proof.
  destruct (kernel_calls_never_panic _ _ boot_initial (rtc_refl _ _)) as (t & Ht & Hok).
  injection Ht as <-. apply (Hok (OpLock 1)). closed.
Defined.

Lemma kmutex_waiters_have_holder_witness :
  ∃ M Q k, rtc (mstep disciplined) boot_machine M ∧
    ks_queues (m_ks M) !! MutexQ 1 = Some Q ∧ 2%positive ∈ tq_list Q ∧
    m_pend M !! 2%positive = Some (OpLock 1, k) ∧ 1%positive ∉ tq_list Q.
Proof.
  destruct (run_events_reach disciplined contention boot_machine
    (λ M, 2%positive ∈ default [] (tq_list <$> ks_queues (m_ks M) !! MutexQ 1) ∧
          ks_holder (m_ks M) !! 1%positive = Some (Some 1%positive)))
    as (M & Hr & Hin & Hh); [vm_compute; reflexivity|].
  destruct (ks_queues (m_ks M) !! MutexQ 1) as [Q|] eqn:HQ; [|by apply elem_of_nil in Hin].
  destruct (kmutex_waiters_have_holder _ _ _ Q boot_initial Hr HQ) as [_ Hw].
  destruct (Hw _ Hin) as (k & Hk & Ht'). destruct (Ht' _ Hh) as [Hn _].
  by exists M, Q, k.
Defined.

(** Thread 1 holds the mutex, 2 and then 3 wait for it. *)
Definition contended : kstate :=
  let waiter := KThread 0 1 false (Some (MutexQ 1)) KT_SLEEP (Some (MutexQ 1)) in
  KState {[ 1%positive := KThread 0 1 false None KT_RUN None;
            2%positive := waiter; 3%positive := waiter ]}
         {[ RunQ := KTQueue [] 0; MutexQ 1 := KTQueue [3%positive; 2%positive] 2 ]}
         {[ 1%positive := Some 1%positive ]} IPL_LOW (Some 1%positive) (Some 1%positive).

Lemma kmutex_unlock_hands_over_witness :
  ∃ s', kmutex_unlock 1 contended = RRet tt s' ∧
    ks_holder s' !! 1%positive = Some (Some 2%positive).
Proof.
  destruct (kmutex_unlock_hands_over contended 1 1 (KTQueue [3%positive; 2%positive] 2)
    (KTQueue [] 0) [3%positive] 2) as (s' & Hr & _ & Hh & _); try done; [concrete_wf|].
  exists s'. by rewrite Hh, lookup_insert_eq.
Defined.
End Example.
