(* ===== verification/KString.v ===== *)
(** C strings: kernel/util/string.c.

    Memory is a finite map from addresses to bytes; an access outside it is a
    fault.  A loop that walks a string reads a new address in every iteration,
    so it stops, at a terminator or with a fault, before it has used one more
    step than there are mapped addresses: the loops take that number as fuel. *)

From stdpp Require Import base numbers list gmap strings.
From S2P Require Import Prelude.

Open Scope Z_scope.

(** The memory, and the static variable of strtok. *)
Record cmem := CMem { cm_bytes : gmap Z Z; cm_savept : Z }.
Abbreviation cM := (kM cmem).

Definition NULL : Z := 0.

Definition set_bytes (f : gmap Z Z → gmap Z Z) (s : cmem) : cmem :=
  CMem (f (cm_bytes s)) (cm_savept s).
Definition set_savept (p : Z) (s : cmem) : cmem := CMem (cm_bytes s) p.

(** Loads and stores of one byte. *)
Definition ldb (p : Z) : cM Z := let* s := kget in kderef (cm_bytes s !! p) "load".
Definition stb (p b : Z) : cM unit := ldb p ;;; kmodify (set_bytes <[p := b]>).

(** A byte read as [char], and the conversions to [signed char] and [char]. *)
Definition schar (b : Z) : Z := if b <? 128 then b else b - 256.
Definition i8 (x : Z) : Z := schar (x `mod` 256).
Definition u8 (x : Z) : Z := x `mod` 256.

Definition mem_fuel : cM nat := kgets (λ s, S (size (cm_bytes s))).

(** * string.c *)

(** [repe cmpsb]: the flags after the last comparison, as the zero flag and the
    sign flag of the 8-bit difference. *)
Fixpoint cmpsb (n : nat) (cs ct : Z) (zf sf : bool) : cM (bool * bool) :=
  match n with
  | O => kret (zf, sf)
  | S n =>
      let* a := ldb cs in
      let* b := ldb ct in
      let d := (a - b) `mod` 256 in
      if d =? 0 then cmpsb n (cs + 1) (ct + 1) true false
      else kret (false, 128 <=? d)
  end.

Definition memcmp (cs ct count : Z) : cM Z :=
  let* (zf, sf) := cmpsb (Z.to_nat count) cs ct true false in
  kret (if negb zf then (if sf then -1 else 1) else 0).

Fixpoint movsb (n : nat) (dest src : Z) : cM unit :=
  match n with
  | O => kret tt
  | S n => let* b := ldb src in stb dest b ;;; movsb n (dest + 1) (src + 1)
  end.

Definition memcpy (dest src count : Z) : cM Z :=
  movsb (Z.to_nat count) dest src ;;; kret dest.

Fixpoint stosb (n : nat) (s c : Z) : cM unit :=
  match n with
  | O => kret tt
  | S n => stb s c ;;; stosb n (s + 1) c
  end.

Definition memset (s c count : Z) : cM Z :=
  stosb (Z.to_nat count) s (u8 c) ;;; kret s.

Fixpoint strncmp_loop (count : nat) (cs ct res : Z) : cM Z :=
  match count with
  | O => kret res
  | S count =>
      let* a := ldb cs in
      let* b := ldb ct in
      let res := i8 (schar a - schar b) in
      if negb (res =? 0) then kret res
      else if a =? 0 then kret res
      else strncmp_loop count (cs + 1) (ct + 1) res
  end.

Definition strncmp (cs ct count : Z) : cM Z := strncmp_loop (Z.to_nat count) cs ct 0.

Fixpoint strcmp_loop (fuel : nat) (cs ct : Z) : cM Z :=
  match fuel with
  | O => λ _, RFuel
  | S fuel =>
      let* a := ldb cs in
      let* b := ldb ct in
      let res := i8 (schar a - schar b) in
      if negb (res =? 0) then kret res
      else if a =? 0 then kret res
      else strcmp_loop fuel (cs + 1) (ct + 1)
  end.

Definition strcmp (cs ct : Z) : cM Z := let* n := mem_fuel in strcmp_loop n cs ct.

Fixpoint strcpy_loop (fuel : nat) (dest src : Z) : cM unit :=
  match fuel with
  | O => λ _, RFuel
  | S fuel =>
      let* b := ldb src in
      stb dest b ;;;
      if b =? 0 then kret tt else strcpy_loop fuel (dest + 1) (src + 1)
  end.

Definition strcpy (dest src : Z) : cM Z :=
  let* n := mem_fuel in strcpy_loop n dest src ;;; kret dest.

Fixpoint strncpy_loop (count : nat) (dest src : Z) : cM unit :=
  match count with
  | O => kret tt
  | S count =>
      let* b := ldb src in
      stb dest b ;;;
      if b =? 0 then kret tt else strncpy_loop count (dest + 1) (src + 1)
  end.

Definition strncpy (dest src count : Z) : cM Z :=
  strncpy_loop (Z.to_nat count) dest src ;;; kret dest.

(** [count] may be as large as a size_t can be, the string is not. *)
Fixpoint strnlen_loop (fuel : nat) (count sc : Z) : cM Z :=
  if count =? 0 then kret sc
  else match fuel with
  | O => λ _, RFuel
  | S fuel => let* b := ldb sc in if b =? 0 then kret sc else strnlen_loop fuel (count - 1) (sc + 1)
  end.

Definition strnlen (s count : Z) : cM Z :=
  let* n := mem_fuel in let* sc := strnlen_loop n count s in kret (sc - s).

(** [for (sc = s; *sc != '\0'; ++sc)], the loop of strlen and the first loop of
    strcat. *)
Fixpoint seek_nul (fuel : nat) (sc : Z) : cM Z :=
  match fuel with
  | O => λ _, RFuel
  | S fuel => let* b := ldb sc in if b =? 0 then kret sc else seek_nul fuel (sc + 1)
  end.

Definition strlen (s : Z) : cM Z :=
  let* n := mem_fuel in let* sc := seek_nul n s in kret (sc - s).

Definition strcat (dest src : Z) : cM Z :=
  let* n := mem_fuel in
  let* d := seek_nul n dest in
  strcpy_loop n d src ;;;
  kret dest.

Fixpoint strchr_loop (fuel : nat) (s c : Z) : cM Z :=
  match fuel with
  | O => λ _, RFuel
  | S fuel =>
      let* b := ldb s in
      if b =? c then kret s
      else if b =? 0 then kret NULL
      else strchr_loop fuel (s + 1) c
  end.

Definition strchr (s c : Z) : cM Z := let* n := mem_fuel in strchr_loop n s (u8 c).

Fixpoint strrchr_loop (fuel : nat) (s c r : Z) : cM Z :=
  match fuel with
  | O => λ _, RFuel
  | S fuel =>
      let* b := ldb s in
      if b =? 0 then kret r
      else strrchr_loop fuel (s + 1) c (if b =? c then s else r)
  end.

Definition strrchr (s c : Z) : cM Z := let* n := mem_fuel in strrchr_loop n s (u8 c) NULL.

(** [fuel] bounds the iterations of the while loop, which counts [l1] down. *)
Fixpoint strstr_loop (fuel : nat) (s1 s2 l1 l2 : Z) : cM Z :=
  match fuel with
  | O => λ _, RFuel
  | S fuel =>
      if l2 <=? l1 then
        let* r := memcmp s1 s2 l2 in
        if r =? 0 then kret s1 else strstr_loop fuel (s1 + 1) s2 (l1 - 1) l2
      else kret NULL
  end.

Definition strstr (s1 s2 : Z) : cM Z :=
  let* l2 := strlen s2 in
  if i32 l2 =? 0 then kret s1
  else
    let* l1 := strlen s1 in
    strstr_loop (S (Z.to_nat (i32 l1))) s1 s2 (i32 l1) (i32 l2).

(** [for (p = set; *p != '\0' && *p != c; ++p)], the inner loop of strpbrk and
    strspn: the address where it stops. *)
Fixpoint seek_char (fuel : nat) (p c : Z) : cM Z :=
  match fuel with
  | O => λ _, RFuel
  | S fuel =>
      let* b := ldb p in
      if b =? 0 then kret p else if b =? c then kret p else seek_char fuel (p + 1) c
  end.

Fixpoint strpbrk_loop (fuel n : nat) (string brkset : Z) : cM Z :=
  match fuel with
  | O => λ _, RFuel
  | S fuel =>
      let* c := ldb string in
      let* p := seek_char n brkset c in
      let* b := ldb p in
      if negb (b =? 0) then kret string
      else if c =? 0 then kret NULL
      else strpbrk_loop fuel n (string + 1) brkset
  end.

Definition strpbrk (string brkset : Z) : cM Z :=
  let* n := mem_fuel in strpbrk_loop n n string brkset.

Fixpoint strspn_loop (fuel n : nat) (q charset : Z) : cM Z :=
  match fuel with
  | O => λ _, RFuel
  | S fuel =>
      let* c := ldb q in
      if c =? 0 then kret q
      else
        let* p := seek_char n charset c in
        let* b := ldb p in
        if b =? 0 then kret q else strspn_loop fuel n (q + 1) charset
  end.

Definition strspn (string charset : Z) : cM Z :=
  let* n := mem_fuel in let* q := strspn_loop n n string charset in kret (q - string).

Definition strtok (string sepset : Z) : cM Z :=
  let* savept := kgets cm_savept in
  let p := if string =? NULL then savept else string in
  if p =? NULL then kret NULL
  else
    let* n := strspn p sepset in
    let q := p + n in
    let* c := ldb q in
    if c =? 0 then kret NULL
    else
      let* r := strpbrk q sepset in
      (if r =? NULL then kmodify (set_savept NULL)
       else stb r 0 ;;; kmodify (set_savept (r + 1))) ;;;
      kret q.

(** The switch of strerror, label by label with the values of errno.h. *)
Definition strerror_cases : list (Z * string) :=
  [ (1, "Not super-user"); (* EPERM *)
    (2, "No such file or directory"); (* ENOENT *)
    (3, "No such process"); (* ESRCH *)
    (4, "interrupted system call"); (* EINTR *)
    (5, "I/O error"); (* EIO *)
    (6, "No such device or address"); (* ENXIO *)
    (7, "Arg list too long"); (* E2BIG *)
    (8, "Exec format error"); (* ENOEXEC *)
    (9, "Bad file number"); (* EBADF *)
    (10, "No children"); (* ECHILD *)
    (11, "Resource temporarily unavailable"); (* EAGAIN *)
    (12, "Not enough core"); (* ENOMEM *)
    (13, "Permission denied"); (* EACCES *)
    (14, "Bad address"); (* EFAULT *)
    (15, "Block device required"); (* ENOTBLK *)
    (16, "Mount device busy"); (* EBUSY *)
    (17, "File exists"); (* EEXIST *)
    (18, "Cross-device link"); (* EXDEV *)
    (19, "No such device"); (* ENODEV *)
    (20, "Not a directory"); (* ENOTDIR *)
    (21, "Is a directory"); (* EISDIR *)
    (22, "Invalid argument"); (* EINVAL *)
    (23, "File table overflow"); (* ENFILE *)
    (24, "Too many open files"); (* EMFILE *)
    (25, "Inappropriate ioctl for device"); (* ENOTTY *)
    (26, "Text file busy"); (* ETXTBSY *)
    (27, "File too large"); (* EFBIG *)
    (28, "No space left on device"); (* ENOSPC *)
    (29, "Illegal seek"); (* ESPIPE *)
    (30, "Read only file system"); (* EROFS *)
    (31, "Too many links"); (* EMLINK *)
    (32, "Broken pipe"); (* EPIPE *)
    (33, "Math arg out of domain of func"); (* EDOM *)
    (34, "Math result not representable"); (* ERANGE *)
    (42, "No message of desired type"); (* ENOMSG *)
    (43, "Identifier removed"); (* EIDRM *)
    (44, "Channel number out of range"); (* ECHRNG *)
    (45, "Level 2 not synchronized"); (* EL2NSYNC *)
    (46, "Level 3 halted"); (* EL3HLT *)
    (47, "Level 3 reset"); (* EL3RST *)
    (48, "Link number out of range"); (* ELNRNG *)
    (49, "Protocol driver not attached"); (* EUNATCH *)
    (50, "No CSI structure available"); (* ENOCSI *)
    (51, "Level 2 halted"); (* EL2HLT *)
    (35, "Deadlock condition."); (* EDEADLK *)
    (37, "No record locks available."); (* ENOLCK *)
    (125, "Operation canceled"); (* ECANCELED *)
    (95, "Operation not supported"); (* ENOTSUP *)
    (122, "Disc quota exceeded"); (* EDQUOT *)
    (52, "invalid exchange"); (* EBADE *)
    (53, "invalid request descriptor"); (* EBADR *)
    (54, "exchange full"); (* EXFULL *)
    (55, "no anode"); (* ENOANO *)
    (56, "invalid request code"); (* EBADRQC *)
    (57, "invalid slot"); (* EBADSLT *)
    (59, "bad font file fmt"); (* EBFONT *)
    (60, "Device not a stream"); (* ENOSTR *)
    (61, "no data (for no delay io)"); (* ENODATA *)
    (62, "timer expired"); (* ETIME *)
    (63, "out of streams resources"); (* ENOSR *)
    (64, "Machine is not on the network"); (* ENONET *)
    (65, "Package not installed"); (* ENOPKG *)
    (66, "The object is remote"); (* EREMOTE *)
    (67, "the link has been severed"); (* ENOLINK *)
    (68, "advertise error"); (* EADV *)
    (69, "srmount error"); (* ESRMNT *)
    (70, "Communication error on send"); (* ECOMM *)
    (71, "Protocol error"); (* EPROTO *)
    (72, "multihop attempted"); (* EMULTIHOP *)
    (74, "trying to read unreadable message"); (* EBADMSG *)
    (36, "path name is too long"); (* ENAMETOOLONG *)
    (75, "value too large to be stored in data type"); (* EOVERFLOW *)
    (76, "given log. name not unique"); (* ENOTUNIQ *)
    (77, "f.d. invalid for this operation"); (* EBADFD *)
    (78, "Remote address changed"); (* EREMCHG *)
    (79, "Can't access a needed shared lib."); (* ELIBACC *)
    (80, "Accessing a corrupted shared lib."); (* ELIBBAD *)
    (81, ".lib section in a.out corrupted."); (* ELIBSCN *)
    (82, "Attempting to link in too many libs."); (* ELIBMAX *)
    (83, "Attempting to exec a shared library."); (* ELIBEXEC *)
    (84, "Illegal byte sequence."); (* EILSEQ *)
    (38, "Unsupported file system operation"); (* ENOSYS *)
    (40, "Symbolic link loop"); (* ELOOP *)
    (85, "Restartable system call"); (* ERESTART *)
    (86, "if pipe/FIFO, don't sleep in stream head"); (* ESTRPIPE *)
    (39, "directory not empty"); (* ENOTEMPTY *)
    (87, "Too many users (for UFS)"); (* EUSERS *)
    (88, "Socket operation on non-socket"); (* ENOTSOCK *)
    (89, "Destination address required"); (* EDESTADDRREQ *)
    (90, "Message too long"); (* EMSGSIZE *)
    (91, "Protocol wrong type for socket"); (* EPROTOTYPE *)
    (92, "Protocol not available"); (* ENOPROTOOPT *)
    (93, "Protocol not supported"); (* EPROTONOSUPPORT *)
    (94, "Socket type not supported"); (* ESOCKTNOSUPPORT *)
    (96, "Protocol family not supported"); (* EPFNOSUPPORT *)
    (97, "Address family not supported by protocol family"); (* EAFNOSUPPORT *)
    (98, "Address already in use"); (* EADDRINUSE *)
    (99, "Can't assign requested address"); (* EADDRNOTAVAIL *)
    (100, "Network is down"); (* ENETDOWN *)
    (101, "Network is unreachable"); (* ENETUNREACH *)
    (102, "Network dropped connection because of reset"); (* ENETRESET *)
    (103, "Software caused connection abort"); (* ECONNABORTED *)
    (104, "Connection reset by peer"); (* ECONNRESET *)
    (105, "No buffer space available"); (* ENOBUFS *)
    (106, "Socket is already connected"); (* EISCONN *)
    (107, "Socket is not connected"); (* ENOTCONN *)
    (108, "Can't send after socket shutdown"); (* ESHUTDOWN *)
    (109, "Too many references: can't splice"); (* ETOOMANYREFS *)
    (110, "Connection timed out"); (* ETIMEDOUT *)
    (111, "Connection refused"); (* ECONNREFUSED *)
    (112, "Host is down"); (* EHOSTDOWN *)
    (113, "No route to host"); (* EHOSTUNREACH *)
    (114, "operation already in progress"); (* EALREADY *)
    (115, "operation now in progress"); (* EINPROGRESS *)
    (116, "Stale NFS file handle") (* ESTALE *) ].

Definition strerror (errnum : Z) : option string :=
  match list_find (λ c, c.1 = errnum) strerror_cases with
  | Some (_, (_, msg)) => Some msg
  | None => None (* default: return 0 *)
  end.

(** * Strings in memory *)

(** [s] is stored at [p], followed by its terminator. *)
Fixpoint cstr (m : gmap Z Z) (p : Z) (s : list Z) : Prop :=
  match s with
  | [] => m !! p = Some 0
  | b :: s => m !! p = Some b ∧ 0 < b < 256 ∧ cstr m (p + 1) s
  end.

Definition len (s : list Z) : Z := Z.of_nat (length s).

Lemma len_cons b s : len (b :: s) = len s + 1.
Proof. unfold len. rewrite length_cons. lia. Qed.

Lemma len_app s t : len (s ++ t) = len s + len t.
Proof. unfold len. rewrite length_app. lia. Qed.

Lemma len_nonneg s : 0 ≤ len s.
Proof. unfold len. lia. Qed.

#[local] Hint Resolve len_nonneg : kernel.

Lemma cstr_mapped m p s a : cstr m p s → p ≤ a ≤ p + len s → is_Some (m !! a).
Proof.
  revert p. induction s as [|b s IH]; simpl; intros p Hs Ha.
  - assert (a = p) as -> by (change (len []) with 0 in Ha; lia). eauto.
  - destruct Hs as (Hb & _ & Hs). rewrite len_cons in Ha.
    destruct (decide (a = p)) as [->|?]; [eauto|]. apply (IH (p + 1)); [done|lia].
Qed.

Lemma cstr_size m p s : cstr m p s → (length s < size m)%nat.
Proof.
  intros Hs. assert (Hsub : list_to_set (C := gset Z) (seqZ p (len s + 1)) ⊆ dom m).
  { intros a. rewrite elem_of_list_to_set, elem_of_seqZ, elem_of_dom. intros Ha.
    apply (cstr_mapped m p s); [done|lia]. }
  apply subseteq_size in Hsub. rewrite size_dom, size_list_to_set, length_seqZ in Hsub
    by apply NoDup_seqZ. unfold len in Hsub. lia.
Qed.

Lemma cstr_frame m m' p s :
  (∀ a, p ≤ a ≤ p + len s → m' !! a = m !! a) → cstr m p s → cstr m' p s.
Proof.
  revert p. induction s as [|b s IH]; simpl; intros p Hm Hs.
  - rewrite Hm; [done|]. change (len []) with 0. lia.
  - destruct Hs as (Hb & ? & Hs). rewrite len_cons in Hm. pose proof (len_nonneg s).
    split_and!; [by rewrite Hm by lia|lia|lia|]. apply IH; [|done]. intros. apply Hm. lia.
Qed.

(** The end of a string is a string. *)
Lemma cstr_app m p s t : cstr m p (s ++ t) → cstr m (p + len s) t.
Proof.
  revert p. induction s as [|b s IH]; simpl; intros p Hs.
  - by rewrite Z.add_0_r.
  - destruct Hs as (_ & _ & Hs). rewrite len_cons. apply IH in Hs.
    by replace (p + (len s + 1)) with (p + 1 + len s) by lia.
Qed.

(** Cutting a string with a terminator. *)
Lemma cstr_cut m p s t : cstr m p (s ++ t) → cstr (<[p + len s := 0]> m) p s.
Proof.
  revert p. induction s as [|b s IH]; simpl; intros p Hs.
  - change (len []) with 0. by rewrite Z.add_0_r, lookup_insert_eq.
  - destruct Hs as (Hb & ? & Hs). rewrite len_cons. pose proof (len_nonneg s).
    rewrite lookup_insert_ne by lia. split_and!; [done|lia|lia|].
    replace (p + (len s + 1)) with (p + 1 + len s) by lia. eauto.
Qed.

Lemma cstr_bytes m p s : cstr m p s → Forall (λ b, 0 < b < 256) s.
Proof. revert p. induction s; simpl; intros p; [constructor|]. intros (_ & ? & ?). constructor; eauto. Qed.

(** * Loads, stores and loops *)

Section Runs.
Context (st : cmem).
Let m := cm_bytes st.

Lemma ldb_bind {A} p b (k : Z → cM A) : m !! p = Some b → kbind (ldb p) k st = k b st.
Proof. subst m. intros Hp. unfold ldb, kderef, kbind, kget. simpl. by rewrite Hp. Qed.

Lemma stb_bind {A} p b (k : unit → cM A) :
  is_Some (m !! p) → kbind (stb p b) k st = k tt (set_bytes <[p := b]> st).
Proof. subst m. intros [v Hp]. unfold stb, ldb, kderef, kbind, kget. simpl. by rewrite Hp. Qed.

Lemma mem_fuel_bind {A} (k : nat → cM A) : kbind mem_fuel k st = k (S (size m)) st.
Proof. done. Qed.

Lemma seek_nul_run s fuel p :
  cstr m p s → (length s < fuel)%nat → seek_nul fuel p st = RRet (p + len s) st.
Proof.
  revert fuel p. induction s as [|b s IH]; intros [|fuel] p Hs Hf; simpl in *; try lia.
  - rewrite (ldb_bind p 0) by done. simpl. by rewrite Z.add_0_r.
  - destruct Hs as (Hb & ? & Hs). rewrite (ldb_bind p b) by done.
    destruct (Z.eqb_spec b 0); [lia|]. rewrite (IH fuel) by (done || lia). rewrite len_cons.
    f_equal. lia.
Qed.

Lemma strlen_run s p : cstr m p s → strlen p st = RRet (len s) st.
Proof.
  intros Hs. unfold strlen. rewrite mem_fuel_bind. pose proof (cstr_size _ _ _ Hs).
  erewrite kbind_of_ret by (apply (seek_nul_run s); [done|lia]). unfold kret. f_equal. lia.
Qed.

Lemma seek_char_run s fuel p c :
  cstr m p s → (length s < fuel)%nat → 0 < c →
  ∃ a, seek_char fuel p c st = RRet a st ∧
    m !! a = Some (if decide (c ∈ s) then c else 0).
Proof.
  revert fuel p. induction s as [|b s IH]; intros [|fuel] p Hs Hf Hc; simpl in *; try lia.
  - rewrite (ldb_bind p 0) by done. by exists p.
  - destruct Hs as (Hb & ? & Hs). rewrite (ldb_bind p b) by done.
    destruct (Z.eqb_spec b 0); [lia|]. destruct (Z.eqb_spec b c) as [->|Hne].
    + exists p. rewrite decide_True by set_solver. done.
    + destruct (IH fuel (p + 1)) as (a & Hr & Ha); [done|lia|done|]. exists a. split; [done|].
      rewrite Ha. by destruct (decide (c ∈ s)), (decide (c ∈ b :: s)); set_solver.
Qed.
End Runs.

(** * Comparison *)

(** The value strcmp computes. *)
Fixpoint cmp_res (s t : list Z) : Z :=
  match s, t with
  | [], [] => 0
  | [], b :: _ => i8 (schar 0 - schar b)
  | a :: _, [] => i8 (schar a - schar 0)
  | a :: s, b :: t => if decide (a = b) then cmp_res s t else i8 (schar a - schar b)
  end.

(** The dictionary order. *)
Fixpoint lex_lt (s t : list Z) : Prop :=
  match s, t with
  | _, [] => False
  | [], _ :: _ => True
  | a :: s, b :: t => a < b ∨ (a = b ∧ lex_lt s t)
  end.

Lemma i8_diff a b :
  0 ≤ a < 256 → 0 ≤ b < 256 → (i8 (schar a - schar b) =? 0) = bool_decide (a = b).
Proof.
  intros Ha Hb. unfold i8, schar. case_bool_decide as Hab.
  - subst. by rewrite Z.sub_diag.
  - apply Z.eqb_neq. intros Heq. apply Hab.
    destruct (Z.ltb_spec a 128), (Z.ltb_spec b 128);
      case_match; Z.to_euclidean_division_equations; lia.
Qed.

Lemma i8_ascii a b : 0 ≤ a < 128 → 0 ≤ b < 128 → i8 (schar a - schar b) = a - b.
Proof.
  intros Ha Hb. unfold i8, schar.
  destruct (Z.ltb_spec a 128), (Z.ltb_spec b 128); try lia.
  case_match; Z.to_euclidean_division_equations; lia.
Qed.

Lemma cmp_res_zero s t :
  Forall (λ b, 0 < b < 256) s → Forall (λ b, 0 < b < 256) t → cmp_res s t = 0 ↔ s = t.
Proof.
  intros Hs. revert t. induction Hs as [|a s Ha Hs IH]; intros t Ht; destruct Ht as [|b t Hb Ht]; simpl.
  - done.
  - split; [|done]. intros E%Z.eqb_eq. rewrite i8_diff, bool_decide_eq_true in E by lia. lia.
  - split; [|done]. intros E%Z.eqb_eq. rewrite i8_diff, bool_decide_eq_true in E by lia. lia.
  - destruct (decide (a = b)) as [->|Hne].
    + rewrite IH by done. split; congruence.
    + split; [|congruence]. intros E%Z.eqb_eq. rewrite i8_diff, bool_decide_eq_true in E by lia. done.
Qed.

Lemma cmp_res_ascii s t :
  Forall (λ b, 0 < b < 128) s → Forall (λ b, 0 < b < 128) t → cmp_res s t < 0 ↔ lex_lt s t.
Proof.
  intros Hs. revert t. induction Hs as [|a s Ha Hs IH]; intros t Ht; destruct Ht as [|b t Hb Ht]; simpl.
  - lia.
  - rewrite i8_ascii by lia. lia.
  - rewrite i8_ascii by lia. lia.
  - destruct (decide (a = b)) as [->|Hne].
    + rewrite IH by done. split; [by right|]. intros [?|[_ ?]]; [lia|done].
    + rewrite i8_ascii by lia. naive_solver lia.
Qed.

Section Compare.
Context (st : cmem).
Let m := cm_bytes st.

Lemma strcmp_loop_run s t fuel p q :
  cstr m p s → cstr m q t → (length s < fuel)%nat →
  strcmp_loop fuel p q st = RRet (cmp_res s t) st.
Proof.
  revert t fuel p q. induction s as [|a s IH]; intros t [|fuel] p q Hs Ht Hf; simpl in *; try lia;
    destruct t as [|b t]; simpl in *;
    repeat match goal with H : _ ∧ _ |- _ => destruct H end;
    (erewrite ldb_bind by done); (erewrite ldb_bind by done); cbv zeta.
  - done.
  - rewrite i8_diff, bool_decide_eq_false_2 by lia. done.
  - rewrite i8_diff, bool_decide_eq_false_2 by lia. done.
  - rewrite i8_diff by lia. case_bool_decide; [subst|].
    + rewrite decide_True by done. destruct (Z.eqb_spec b 0); [lia|].
      apply IH; [done..|lia].
    + by rewrite decide_False.
Qed.

Lemma strncmp_loop_run s t n p q :
  cstr m p s → cstr m q t →
  strncmp_loop n p q 0 st = RRet (cmp_res (take n s) (take n t)) st.
Proof.
  revert s t p q. induction n as [|n IH]; intros s t p q Hs Ht; [done|].
  destruct s as [|a s], t as [|b t]; simpl in *;
    repeat match goal with H : _ ∧ _ |- _ => destruct H end;
    (erewrite ldb_bind by done); (erewrite ldb_bind by done); cbv zeta.
  - done.
  - rewrite i8_diff, bool_decide_eq_false_2 by lia. done.
  - rewrite i8_diff, bool_decide_eq_false_2 by lia. done.
  - pose proof (i8_diff a b) as Hi. rewrite i8_diff by lia. case_bool_decide; [subst|].
    + rewrite decide_True by done. destruct (Z.eqb_spec b 0); [lia|].
      apply Z.eqb_eq in Hi as ->; [|lia..]. by apply IH.
    + by rewrite decide_False.
Qed.
End Compare.

(** strcmp and strncmp, on terminated strings, read nothing else, change
    nothing, and return 0 exactly when the strings (their first [count]
    characters) are equal; on 7-bit characters a negative result means that the
    first string comes first in the dictionary. *)
Theorem strcmp_correct st p q s t count :
  cstr (cm_bytes st) p s → cstr (cm_bytes st) q t → 0 ≤ count →
  ∃ r rn, strcmp p q st = RRet r st ∧ strncmp p q count st = RRet rn st ∧
    (r = 0 ↔ s = t) ∧ (rn = 0 ↔ take (Z.to_nat count) s = take (Z.to_nat count) t) ∧
    (Forall (λ b, b < 128) s → Forall (λ b, b < 128) t → (r < 0 ↔ lex_lt s t)).
Proof.
  intros Hs Ht Hc. pose proof (cstr_bytes _ _ _ Hs) as Bs. pose proof (cstr_bytes _ _ _ Ht) as Bt.
  exists (cmp_res s t), (cmp_res (take (Z.to_nat count) s) (take (Z.to_nat count) t)). split_and!.
  - unfold strcmp. rewrite mem_fuel_bind. apply strcmp_loop_run; [done..|].
    pose proof (cstr_size _ _ _ Hs). lia.
  - by apply strncmp_loop_run.
  - by apply cmp_res_zero.
  - apply cmp_res_zero; by apply Forall_take.
  - intros As At. apply cmp_res_ascii; rewrite Forall_forall in *; naive_solver lia.
Qed.

(** * Tokens *)

Section Tokens.
Context (sep : list Z).

(** [s] without its leading separators; its part before the first separator. *)
Fixpoint skip (s : list Z) : list Z :=
  match s with [] => [] | b :: s' => if decide (b ∈ sep) then skip s' else s end.
Fixpoint word (s : list Z) : list Z :=
  match s with [] => [] | b :: s' => if decide (b ∈ sep) then [] else b :: word s' end.

(** The pieces of a string between separators, and the non-empty ones. *)
Fixpoint pieces (s : list Z) : list (list Z) :=
  match s with
  | [] => [[]]
  | b :: s =>
      if decide (b ∈ sep) then [] :: pieces s
      else match pieces s with [] => [[b]] | w :: ws => (b :: w) :: ws end
  end.
Definition tokens (s : list Z) : list (list Z) := filter (λ w, w ≠ []) (pieces s).

Lemma skip_suffix s : ∃ l, s = l ++ skip s.
Proof.
  induction s as [|b s [l IH]]; simpl; [by exists []|].
  case_decide; [|by exists []]. exists (b :: l). by rewrite IH at 1.
Qed.

Lemma tokens_skip s : tokens (skip s) = tokens s.
Proof.
  induction s as [|b s IH]; [done|]. simpl. case_decide as Hb; [|done].
  rewrite IH. unfold tokens. simpl. rewrite decide_True by done. by rewrite filter_cons_False by naive_solver.
Qed.

(** A word and what follows it. *)
Lemma word_split s :
  ∃ r, s = word s ++ r ∧ (r = [] ∨ ∃ c r', r = c :: r' ∧ c ∈ sep).
Proof.
  induction s as [|b s (r & E & Hr)]; simpl; [by exists []; eauto|].
  case_decide; [by eauto 10|]. exists r. simpl. split; [by rewrite E at 1|done].
Qed.

Lemma word_not_sep s : Forall (λ b, b ∉ sep) (word s).
Proof. induction s as [|b s IH]; simpl; [constructor|]. case_decide; by constructor. Qed.

Lemma skip_head s b t : skip s = b :: t → b ∉ sep.
Proof. induction s as [|a s IH]; simpl; [done|]. case_decide; [done|]. by intros [= -> ->]. Qed.

Lemma pieces_word w r :
  Forall (λ b, b ∉ sep) w → (r = [] ∨ ∃ c r', r = c :: r' ∧ c ∈ sep) →
  pieces (w ++ r) = w :: match r with [] => [] | _ :: r' => pieces r' end.
Proof.
  intros Hw Hr. induction Hw as [|b w Hb _ IH]; simpl.
  - destruct Hr as [->|(c & r' & -> & Hc)]; [done|]. simpl. by rewrite decide_True.
  - by rewrite decide_False, IH.
Qed.

Lemma tokens_word b t r :
  b ∉ sep → b :: t = word (b :: t) ++ r → (r = [] ∨ ∃ c r', r = c :: r' ∧ c ∈ sep) →
  tokens (b :: t) = word (b :: t) :: match r with [] => [] | _ :: r' => tokens r' end.
Proof.
  intros Hb E Hr. unfold tokens. rewrite E at 1.
  rewrite pieces_word by (done || apply word_not_sep).
  rewrite filter_cons_True; [by destruct r|]. simpl. by rewrite decide_False.
Qed.
End Tokens.

Section Strtok.
Context (st : cmem).
Let m := cm_bytes st.
Context (sepset : Z) (sep : list Z).
Hypothesis Hsep : cstr m sepset sep.

Lemma strspn_loop_run s fuel n p :
  cstr m p s → (length s < fuel)%nat → (length sep < n)%nat →
  strspn_loop fuel n p sepset st = RRet (p + len s - len (skip sep s)) st.
Proof.
  revert fuel p. induction s as [|b s IH]; intros [|fuel] p Hs Hf Hn; simpl in *; try lia.
  - rewrite (ldb_bind _ p 0) by done. unfold kret. simpl. f_equal. change (len []) with 0. lia.
  - destruct Hs as (Hb & ? & Hs). rewrite (ldb_bind _ p b) by done.
    destruct (Z.eqb_spec b 0); [lia|].
    destruct (seek_char_run st sep n sepset b) as (a & Hr & Ha); [done|done|lia|].
    erewrite kbind_of_ret by done. erewrite ldb_bind by done. destruct (decide (b ∈ sep)).
    + destruct (Z.eqb_spec b 0); [lia|]. rewrite IH by (done || lia). rewrite len_cons. f_equal. lia.
    + simpl. unfold kret. f_equal. lia.
Qed.

Lemma strpbrk_loop_run s fuel n p :
  cstr m p s → (length s < fuel)%nat → (length sep < n)%nat →
  strpbrk_loop fuel n p sepset st =
    RRet (if decide (word sep s = s) then NULL else p + len (word sep s)) st.
Proof.
  revert fuel p. induction s as [|b s IH]; intros [|fuel] p Hs Hf Hn; simpl in *; try lia.
  - rewrite (ldb_bind _ p 0) by done.
    assert (Hnul : ∀ t k q, cstr m q t → (length t < k)%nat →
              ∃ a, seek_char k q 0 st = RRet a st ∧ m !! a = Some 0).
    { induction t as [|c t IHt]; intros [|k] q Ht Hk; simpl in *; try lia.
      - rewrite (ldb_bind _ q 0) by done. by exists q.
      - destruct Ht as (? & ? & ?). rewrite (ldb_bind _ q c) by done.
        destruct (Z.eqb_spec c 0); [lia|]. apply IHt; [done|lia]. }
    destruct (Hnul sep n sepset) as (a & Hr & Ha); [done|done|].
    erewrite kbind_of_ret by done. by erewrite ldb_bind by done.
  - destruct Hs as (Hb & ? & Hs). rewrite (ldb_bind _ p b) by done.
    destruct (seek_char_run st sep n sepset b) as (a & Hr & Ha); [done|done|lia|].
    erewrite kbind_of_ret by done. erewrite ldb_bind by done.
    destruct (decide (b ∈ sep)) as [Hin|Hin].
    + destruct (Z.eqb_spec b 0); [lia|]. simpl. unfold kret. f_equal.
      change (len []) with 0. lia.
    + simpl. destruct (Z.eqb_spec b 0); [lia|]. rewrite IH by (done || lia). f_equal.
      destruct (decide (word sep s = s)), (decide (b :: word sep s = b :: s)); try congruence.
      rewrite len_cons. lia.
Qed.

Lemma strspn_run s p :
  cstr m p s → strspn p sepset st = RRet (len s - len (skip sep s)) st.
Proof.
  intros Hs. pose proof (cstr_size _ _ _ Hs). pose proof (cstr_size _ _ _ Hsep).
  unfold strspn. rewrite mem_fuel_bind.
  erewrite kbind_of_ret by (apply (strspn_loop_run s); [done|subst m; lia..]).
  unfold kret. f_equal. lia.
Qed.

Lemma strpbrk_run s p :
  cstr m p s → strpbrk p sepset st =
    RRet (if decide (word sep s = s) then NULL else p + len (word sep s)) st.
Proof.
  intros Hs. pose proof (cstr_size _ _ _ Hs). pose proof (cstr_size _ _ _ Hsep).
  unfold strpbrk. rewrite mem_fuel_bind. apply strpbrk_loop_run; [done|subst m; lia..].
Qed.

(** One call of strtok, with its string or with NULL to go on. *)
Lemma strtok_step arg p s :
  cstr m p s → 0 < p → arg = p ∨ (arg = NULL ∧ cm_savept st = p) →
  strtok arg sepset st =
    match skip sep s with
    | [] => RRet NULL st
    | s1 =>
        let q := p + len s - len s1 in
        let r := q + len (word sep s1) in
        RRet q (if decide (word sep s1 = s1) then set_savept NULL st
                else set_savept (r + 1) (set_bytes <[r := 0]> st))
    end.
Proof.
  intros Hs Hp Harg. unfold strtok. unfold kgets at 1. unfold kbind at 1. simpl rbind.
  assert ((if arg =? NULL then cm_savept st else arg) = p) as ->.
  { destruct Harg as [->|[-> <-]]; [|done]. by destruct (Z.eqb_spec p NULL); [unfold NULL in *; lia|]. }
  destruct (Z.eqb_spec p NULL); [unfold NULL in *; lia|].
  erewrite kbind_of_ret by (by apply (strspn_run s)). cbv zeta.
  destruct (skip_suffix sep s) as [l El]. rewrite El in Hs. apply cstr_app in Hs.
  assert (len s = len l + len (skip sep s)) by (rewrite El at 1; apply len_app).
  replace (p + (len s - len (skip sep s))) with (p + len l) by lia.
  pose proof Hs as Hq.
  destruct (skip sep s) as [|b s1] eqn:Es; simpl in Hs.
  { by erewrite ldb_bind by done. }
  cbv zeta. replace (p + len s - len (b :: s1)) with (p + len l) by lia.
  destruct Hs as (Hb & ? & Hs). erewrite ldb_bind by done. destruct (Z.eqb_spec b 0); [lia|].
  erewrite kbind_of_ret by (by apply (strpbrk_run (b :: s1))). case_decide as Hw; [done|].
  pose proof (len_nonneg l). pose proof (len_nonneg (word sep (b :: s1))).
  destruct (Z.eqb_spec (p + len l + len (word sep (b :: s1))) NULL); [unfold NULL in *; lia|].
  unfold kbind at 1. rewrite stb_bind; [done|].
  destruct (word_split sep (b :: s1)) as (r & Er & _).
  assert (len (b :: s1) = len (word sep (b :: s1)) + len r) by (rewrite Er at 1; apply len_app).
  apply (cstr_mapped m _ (b :: s1) _ Hq). pose proof (len_nonneg r). lia.
Qed.
End Strtok.

(** The way strtok is used: once with the string, then with NULL until it
    returns NULL. *)
Fixpoint strtok_all (fuel : nat) (arg sepset : Z) : cM (list Z) :=
  match fuel with
  | O => λ _, RFuel
  | S fuel =>
      let* q := strtok arg sepset in
      if q =? NULL then kret []
      else let* qs := strtok_all fuel NULL sepset in kret (q :: qs)
  end.

Lemma strtok_null_done st sepset :
  cm_savept st = NULL → strtok NULL sepset st = RRet NULL st.
Proof. intros E. unfold strtok, kgets, kbind. simpl. by rewrite E. Qed.

Lemma strtok_all_run fuel st sepset sep arg p s :
  cstr (cm_bytes st) p s → cstr (cm_bytes st) sepset sep → 0 < p →
  sepset + len sep < p ∨ p + len s < sepset →
  arg = p ∨ (arg = NULL ∧ cm_savept st = p) → (S (length s) < fuel)%nat →
  ∃ qs st', strtok_all fuel arg sepset st = RRet qs st' ∧
    Forall2 (cstr (cm_bytes st')) qs (tokens sep s) ∧
    ∀ a, a < p ∨ p + len s < a → cm_bytes st' !! a = cm_bytes st !! a.
Proof.
  revert st arg p s. induction fuel as [|fuel IH]; intros st arg p s Hs Hsep Hp Hdis Harg Hf; [lia|].
  simpl. pose proof (strtok_step st sepset sep Hsep arg p s Hs Hp Harg) as Hstep.
  rewrite <- (tokens_skip sep s). destruct (skip_suffix sep s) as [l El].
  assert (Hlen : len s = len l + len (skip sep s)) by (rewrite El at 1; apply len_app).
  assert (Hq : cstr (cm_bytes st) (p + len l) (skip sep s)) by (apply cstr_app; by rewrite <- El).
  destruct (skip sep s) as [|b s1] eqn:Es.
  { erewrite kbind_of_ret by done. exists [], st. split_and!; [done|constructor|done]. }
  cbv zeta in Hstep. replace (p + len s - len (b :: s1)) with (p + len l) in Hstep by lia.
  pose proof (len_nonneg l). erewrite kbind_of_ret by done.
  destruct (Z.eqb_spec (p + len l) NULL); [unfold NULL in *; lia|].
  destruct (word_split sep (b :: s1)) as (r & Er & Hr).
  rewrite (tokens_word sep b s1 r) by eauto using skip_head.
  remember (word sep (b :: s1)) as w eqn:Ew.
  assert (Hlr : len (b :: s1) = len w + len r) by (rewrite Er; apply len_app).
  pose proof (len_nonneg w). case_decide as Hw.
  - assert (r = []) as -> by (apply (app_inv_head w); rewrite app_nil_r; congruence).
    assert (Hend : strtok_all fuel NULL sepset (set_savept NULL st) = RRet [] (set_savept NULL st)).
    { destruct fuel; [lia|]. simpl. by erewrite kbind_of_ret by (by apply strtok_null_done). }
    erewrite kbind_of_ret by done. eexists _, _. split_and!; [done| |done].
    constructor; [by rewrite Hw|constructor].
  - destruct r as [|c r]; [rewrite app_nil_r in Er; congruence|].
    rewrite (len_cons c) in Hlr. pose proof (len_nonneg r).
    remember (p + len l + len w) as a0 eqn:Ha0. set (st1 := set_savept (a0 + 1) (set_bytes <[a0 := 0]> st)) in *.
    destruct (IH st1 NULL (a0 + 1) r) as (qs & st' & Hrun & Htok & Hfr).
    + apply (cstr_frame (cm_bytes st)).
      { intros a Ha. simpl. rewrite lookup_insert_ne by lia. done. }
      rewrite Er in Hq. apply cstr_app in Hq as (_ & _ & Hq). by rewrite Ha0.
    + apply (cstr_frame (cm_bytes st)); [|done]. intros a Ha. simpl. rewrite lookup_insert_ne by lia. done.
    + lia.
    + lia.
    + by right.
    + apply (f_equal length) in El, Er. rewrite length_app in El, Er. simpl in El, Er. lia.
    + erewrite kbind_of_ret by done. eexists _, _. split_and!; [done| |].
      * constructor; [|done]. apply (cstr_frame (<[a0 := 0]> (cm_bytes st))).
        { intros a Ha. rewrite Hfr by lia. done. }
        rewrite Er in Hq. apply cstr_cut in Hq. by rewrite Ha0.
      * intros a Ha. rewrite Hfr by lia. simpl. by rewrite lookup_insert_ne by lia.
Qed.

(** C14. Called once with a string and then with NULL until it returns NULL, strtok
    returns pointers to the non-empty pieces of the string between separators,
    in order and each terminated in place, in at most one call more than the
    string has characters plus one; no byte outside the string is changed. *)
Theorem strtok_splits st string sepset s sep :
  cstr (cm_bytes st) string s → cstr (cm_bytes st) sepset sep → 0 < string →
  sepset + len sep < string ∨ string + len s < sepset →
  ∃ qs st', strtok_all (S (S (length s))) string sepset st = RRet qs st' ∧
    Forall2 (cstr (cm_bytes st')) qs (tokens sep s) ∧
    ∀ a, a < string ∨ string + len s < a → cm_bytes st' !! a = cm_bytes st !! a.
Proof. intros. apply strtok_all_run; eauto. Qed.

(** * Searching *)

Section Search.
Context (st : cmem).
Let m := cm_bytes st.

Lemma cmpsb_run t s p q :
  cstr m p s → cstr m q t → (length t ≤ length s)%nat →
  ∃ sf, cmpsb (length t) p q true false st = RRet (bool_decide (t `prefix_of` s), sf) st.
Proof.
  revert s p q. induction t as [|b t IH]; intros s p q Hs Ht Hl.
  - exists false. by rewrite bool_decide_eq_true_2 by apply prefix_nil.
  - destruct s as [|a s]; simpl in *; [lia|]. destruct Hs as (? & ? & ?), Ht as (? & ? & ?).
    erewrite ldb_bind by done. erewrite ldb_bind by done. cbv zeta.
    destruct (Z.eqb_spec ((a - b) `mod` 256) 0) as [E|E].
    + assert (a = b) as -> by (Z.to_euclidean_division_equations; lia).
      destruct (IH s (p + 1) (q + 1)) as [sf ->]; [done|done|lia|]. exists sf. do 3 f_equal.
      apply bool_decide_ext. split; [by apply prefix_cons|by intros ?%prefix_cons_inv_2].
    + exists (128 <=? (a - b) `mod` 256). rewrite bool_decide_eq_false_2; [done|].
      intros ->%prefix_cons_inv_1. by rewrite Z.sub_diag in E.
Qed.

Lemma memcmp_run t s p q :
  cstr m p s → cstr m q t → (length t ≤ length s)%nat →
  ∃ r, memcmp p q (len t) st = RRet r st ∧ (r = 0 ↔ t `prefix_of` s).
Proof.
  intros Hs Ht Hl. destruct (cmpsb_run t s p q Hs Ht Hl) as [sf Hc].
  unfold memcmp, len. rewrite Nat2Z.id. erewrite kbind_of_ret by done. simpl.
  eexists. split; [done|]. case_bool_decide; simpl; [done|]. by destruct sf.
Qed.

Lemma strstr_loop_run t s fuel p q :
  cstr m p s → cstr m q t → t ≠ [] → (length s < fuel)%nat →
  ∃ r, strstr_loop fuel p q (len s) (len t) st = RRet r st ∧
    ((r = NULL ∧ ∀ j, ¬ t `prefix_of` drop j s) ∨
     ∃ i, r = p + Z.of_nat i ∧ t `prefix_of` drop i s ∧
       ∀ j, (j < i)%nat → ¬ t `prefix_of` drop j s).
Proof.
  intros Hs Ht Hne. revert fuel p Hs. induction s as [|a s IH]; intros [|fuel] p Hs Hf;
    cbn [strstr_loop length] in Hf |- *; try lia;
    match goal with |- context [len t <=? ?l] => destruct (Z.leb_spec (len t) l) as [Hle|Hlt] end.
  - unfold len in Hle. simpl in Hle. destruct t; [done|simpl in Hle; lia].
  - exists NULL. split; [done|]. left. split; [done|]. intros j. rewrite drop_nil.
    by intros ?%prefix_nil_inv.
  - destruct (memcmp_run t (a :: s) p q) as (r & Hr & Hz); [done|done|unfold len in Hle; lia|].
    erewrite kbind_of_ret by done. destruct (Z.eqb_spec r 0) as [E|E].
    + exists p. split; [done|]. right. exists 0%nat.
      split_and!; [lia|by apply Hz|intros; lia].
    + rewrite len_cons. replace (len s + 1 - 1) with (len s) by lia.
      destruct Hs as (_ & _ & Hs). destruct (IH fuel (p + 1) Hs ltac:(lia)) as (r' & Hr' & Hor).
      exists r'. split; [done|]. destruct Hor as [[-> Hno]|(i & -> & Hi & Hmin)].
      * left. split; [done|]. intros [|j]; [by rewrite <- Hz|apply Hno].
      * right. exists (S i). split_and!; [lia|done|]. intros [|j] Hj; [by rewrite <- Hz|].
        apply Hmin. lia.
  - exists NULL. split; [done|]. left. split; [done|]. intros j Hp%prefix_length.
    rewrite length_drop in Hp. unfold len in Hlt. lia.
Qed.
End Search.

(** strstr returns the first place where the second string occurs in the
    first, and NULL exactly when it occurs nowhere (strings shorter than 2^31,
    since the lengths are kept in an int). *)
Theorem strstr_first_occurrence st p q s t :
  cstr (cm_bytes st) p s → cstr (cm_bytes st) q t → len s < 2 ^ 31 → len t < 2 ^ 31 →
  ∃ r, strstr p q st = RRet r st ∧
    ((r = NULL ∧ ∀ j, ¬ t `prefix_of` drop j s) ∨
     ∃ i, r = p + Z.of_nat i ∧ t `prefix_of` drop i s ∧
       ∀ j, (j < i)%nat → ¬ t `prefix_of` drop j s).
Proof.
  intros Hs Ht Bs Bt. unfold strstr. erewrite kbind_of_ret by (by apply strlen_run).
  pose proof (len_nonneg s). pose proof (len_nonneg t). rewrite !i32_small by lia.
  destruct (Z.eqb_spec (len t) 0) as [E|E].
  - assert (t = []) as -> by (apply nil_length_inv; unfold len in E; lia).
    exists p. split; [done|]. right. exists 0%nat. split_and!; [lia|apply prefix_nil|intros; lia].
  - erewrite kbind_of_ret by (by apply strlen_run). rewrite !i32_small by lia.
    apply strstr_loop_run; [done|done|by intros ->|unfold len; lia].
Qed.

(** * Copying *)

Lemma strcpy_loop_run t fuel dest src st :
  cstr (cm_bytes st) src t → (∀ a, dest ≤ a ≤ dest + len t → is_Some (cm_bytes st !! a)) →
  src + len t < dest ∨ dest + len t < src → (length t < fuel)%nat →
  ∃ st', strcpy_loop fuel dest src st = RRet tt st' ∧ cstr (cm_bytes st') dest t ∧
    cm_savept st' = cm_savept st ∧
    ∀ a, a < dest ∨ dest + len t < a → cm_bytes st' !! a = cm_bytes st !! a.
Proof.
  revert fuel dest src st.
  induction t as [|b t IH]; intros [|fuel] dest src st Ht Hmap Hdis Hf; simpl in Hf |- *; try lia.
  - erewrite ldb_bind by done. rewrite stb_bind by (apply Hmap; change (len []) with 0; lia).
    eexists. split_and!; [done|apply lookup_insert_eq|done|].
    intros a Ha. simpl. change (len []) with 0 in Ha. by rewrite lookup_insert_ne by lia.
  - destruct Ht as (Hb & ? & Ht). pose proof (len_nonneg t). rewrite len_cons in Hmap, Hdis.
    erewrite ldb_bind by done. rewrite stb_bind by (apply Hmap; lia).
    destruct (Z.eqb_spec b 0); [lia|].
    destruct (IH fuel (dest + 1) (src + 1) (set_bytes <[dest := b]> st))
      as (st' & Hr & Hc & Hsv & Hfr); [| |lia|lia|].
    + apply (cstr_frame (cm_bytes st)); [|done]. intros a Ha. simpl. by rewrite lookup_insert_ne by lia.
    + intros a Ha. simpl. rewrite lookup_insert_ne by lia. apply Hmap. lia.
    + exists st'. split_and!; [done| |lia|lia|done|done|].
      * rewrite Hfr by lia. simpl. apply lookup_insert_eq.
      * intros a. rewrite len_cons. intros Ha. rewrite Hfr by lia. simpl. by rewrite lookup_insert_ne by lia.
Qed.

Lemma cstr_join m p s t : cstr m (p + len s) t → (∀ i b, s !! i = Some b → m !! (p + Z.of_nat i) = Some b) →
  Forall (λ b, 0 < b < 256) s → cstr m p (s ++ t).
Proof.
  intros Ht Hs HF. revert p Ht Hs. induction HF as [|b s Hb HF IH]; intros p Ht Hs; simpl.
  - by rewrite Z.add_0_r in Ht.
  - split_and!; [|lia|lia|].
    + rewrite <- (Hs 0%nat b) by done. f_equal. lia.
    + apply IH.
      * rewrite len_cons in Ht. by replace (p + 1 + len s) with (p + (len s + 1)) by lia.
      * intros i c Hi. rewrite <- (Hs (S i) c) by done. f_equal. lia.
Qed.

Lemma cstr_lookup m p s i b : cstr m p s → s !! i = Some b → m !! (p + Z.of_nat i) = Some b.
Proof.
  revert p i. induction s as [|c s IH]; simpl; intros p [|i] Hs Hi; try done.
  - destruct Hs as (Hb & _). simplify_eq/=. rewrite <- Hb. f_equal. lia.
  - destruct Hs as (_ & _ & Hs). rewrite <- (IH (p + 1) i) by done. f_equal. lia.
Qed.

(** strcat appends: given room behind the destination and a source that does
    not overlap it, the destination holds the concatenation, and only the bytes
    from its old terminator to its new one change; with an empty destination
    this is strcpy. *)
Theorem strcat_appends st dest src s t :
  cstr (cm_bytes st) dest s → cstr (cm_bytes st) src t →
  (∀ a, dest ≤ a ≤ dest + len s + len t → is_Some (cm_bytes st !! a)) →
  src + len t < dest ∨ dest + len s + len t < src →
  ∃ st', strcat dest src st = RRet dest st' ∧ cstr (cm_bytes st') dest (s ++ t) ∧
    (∀ a, a < dest + len s ∨ dest + len s + len t < a → cm_bytes st' !! a = cm_bytes st !! a) ∧
    (s = [] → strcpy dest src st = RRet dest st').
Proof.
  intros Hs Ht Hmap Hdis. pose proof (len_nonneg s). pose proof (len_nonneg t).
  pose proof (cstr_size _ _ _ Hs). pose proof (cstr_size _ _ _ Ht).
  destruct (strcpy_loop_run t (S (size (cm_bytes st))) (dest + len s) src st)
    as (st' & Hr & Hc & _ & Hfr); [done|intros; apply Hmap; lia|lia|lia|].
  exists st'. split_and!.
  - unfold strcat. rewrite mem_fuel_bind.
    erewrite kbind_of_ret by (apply (seek_nul_run st s); [done|lia]).
    by erewrite kbind_of_ret by done.
  - apply cstr_join; [done| |by eapply cstr_bytes].
    intros i b Hi. rewrite Hfr; [by eapply cstr_lookup|].
    apply lookup_lt_Some in Hi. unfold len. lia.
  - done.
  - intros ->. change (len []) with 0 in Hr. rewrite Z.add_0_r in Hr.
    unfold strcpy. rewrite mem_fuel_bind. by erewrite kbind_of_ret by done.
Qed.

(** * Error messages *)

Lemma strerror_cases_distinct :
  NoDup (fst <$> strerror_cases) ∧ NoDup (snd <$> strerror_cases).
Proof. split; closed. Qed.

(** strerror answers with the message of the label: every label of the switch
    is found, anything else gives no message, and no two error numbers share a
    message. *)
Theorem strerror_faithful :
  (∀ n s, (n, s) ∈ strerror_cases ↔ strerror n = Some s) ∧
  (∀ n n' s, strerror n = Some s → strerror n' = Some s → n = n').
Proof.
  destruct strerror_cases_distinct as [Hk Hv].
  assert (Hfound : ∀ n s, (n, s) ∈ strerror_cases ↔ strerror n = Some s).
  { intros n s. unfold strerror. split.
    - intros Hin. destruct (list_find _ _) as [[i [n' s']]|] eqn:Hf.
      + apply list_find_Some in Hf as (Hi & Hn & _). simpl in Hn. subst.
        apply list_elem_of_lookup in Hin as [j Hj].
        assert (i = j) as ->.
        { eapply (NoDup_lookup (fst <$> strerror_cases)); [done|..];
            rewrite list_lookup_fmap; [by rewrite Hi|by rewrite Hj]. }
        congruence.
      + eapply list_find_None in Hf. eapply Forall_forall in Hf; [|done]. done.
    - destruct (list_find _ _) as [[i [n' s']]|] eqn:Hf; [|done]. intros [= <-].
      apply list_find_Some in Hf as (Hi & Hn & _). simpl in Hn. subst.
      by eapply list_elem_of_lookup_2. }
  split; [done|]. intros n n' s [i Hi]%Hfound%list_elem_of_lookup [j Hj]%Hfound%list_elem_of_lookup.
  assert (i = j) as ->.
  { eapply (NoDup_lookup (snd <$> strerror_cases)); [done|..];
      rewrite list_lookup_fmap; [by rewrite Hi|by rewrite Hj]. }
  congruence.
Qed.

(** * Examples *)

Module Example.

(** The strings "a b" at 16 and " " at 32, and room for six bytes at 48. *)
Definition mem : cmem :=
  CMem (list_to_map [(16, 97); (17, 32); (18, 98); (19, 0); (32, 32); (33, 0);
                     (48, 0); (49, 0); (50, 0); (51, 0); (52, 0); (53, 0)]) NULL.

Lemma mem_ab : cstr (cm_bytes mem) 16 [97; 32; 98].
Proof. vm_compute. split_and!; done. Qed.
Lemma mem_space : cstr (cm_bytes mem) 32 [32].
Proof. vm_compute. split_and!; done. Qed.
Lemma mem_room : cstr (cm_bytes mem) 48 [].
Proof. done. Qed.

(** memcmp takes the sign of the 8-bit difference of the first bytes that
    differ, so it orders the byte 128 before the byte 0. *)
Lemma memcmp_sign_flag :
  memcmp 16 17 1 (CMem {[ 16 := 128; 17 := 0 ]} NULL) = RRet (-1) (CMem {[ 16 := 128; 17 := 0 ]} NULL).
Proof. reflexivity. Qed.

Lemma strcmp_correct_witness :
  ∃ r rn, strcmp 16 32 mem = RRet r mem ∧ strncmp 16 32 1 mem = RRet rn mem ∧ r ≠ 0 ∧ rn ≠ 0.
Proof.
  destruct (strcmp_correct mem 16 32 _ _ 1 mem_ab mem_space) as (r & rn & Hr & Hrn & Hz & Hzn & _).
  { lia. }
  exists r, rn. split_and!; [exact Hr|exact Hrn|rewrite Hz; done|rewrite Hzn; done].
Defined.

Lemma strtok_splits_witness :
  ∃ qs st', strtok_all 5 16 32 mem = RRet qs st' ∧ Forall2 (cstr (cm_bytes st')) qs [[97]; [98]].
Proof.
  destruct (strtok_splits mem 16 32 _ _ mem_ab mem_space) as (qs & st' & Hr & Ht & _).
  { lia. }
  { right. vm_compute. reflexivity. }
  exists qs, st'. split; [exact Hr|exact Ht].
Defined.

Lemma strstr_first_occurrence_witness :
  ∃ r, strstr 16 32 mem = RRet r mem ∧ r = 17.
Proof.
  destruct (strstr_first_occurrence mem 16 32 _ _ mem_ab mem_space) as (r & Hr & _).
  { vm_compute. reflexivity. }
  { vm_compute. reflexivity. }
  exists r. split; [exact Hr|]. vm_compute in Hr. congruence.
Defined.

Lemma strcat_appends_witness :
  ∃ st', strcat 48 16 mem = RRet 48 st' ∧ cstr (cm_bytes st') 48 [97; 32; 98].
Proof.
  destruct (strcat_appends mem 48 16 [] _ mem_room mem_ab) as (st' & Hr & Hc & _).
  { intros a Ha. change (48 ≤ a ≤ 51) in Ha.
    assert (a = 48 ∨ a = 49 ∨ a = 50 ∨ a = 51) as [->|[->|[->| ->]]] by lia; closed. }
  { left. vm_compute. reflexivity. }
  exists st'. split; [exact Hr|exact Hc].
Defined.
End Example.
