(* ===== verification/KMath.v ===== *)
(** 64-bit arithmetic: kernel/util/math.c, whose division the user library has
    again in user/lib/libc/quad.c.

    The local arrays uspace, vspace and qspace are a memory of digits; pointers
    into them are addresses, a cell that was never written is not mapped, and a
    store outside the arrays is a fault.  An unsigned long has 32 bits. *)

From stdpp Require Import base numbers list gmap strings.
From S2P Require Import Prelude.

Open Scope Z_scope.

(** * Digits *)

Definition HALF_BITS : Z := 16.
Definition HHALF (x : Z) : Z := Z.shiftr x HALF_BITS.
Definition LHALF (x : Z) : Z := Z.land x (Z.shiftl 1 HALF_BITS - 1).
Definition B : Z := Z.shiftl 1 HALF_BITS.
Definition COMBINE (a b : Z) : Z := Z.lor (u32 (Z.shiftl a HALF_BITS)) b.

(** The words of union uu, and the quad they make. *)
Definition ul_H (q : Z) : Z := Z.shiftr q 32.
Definition ul_L (q : Z) : Z := Z.land q (2 ^ 32 - 1).
Definition uu_q (h l : Z) : Z := Z.lor (Z.shiftl h 32) l.

Notation digits := (gmap Z Z).
Definition uspace : Z := 0.
Definition vspace : Z := 8.
Definition qspace : Z := 16.
Definition mapped (p : Z) : bool := (0 <=? p) && (p <? 24) && (p `mod` 8 <? 5).

Definition ld (p : Z) : kM digits Z := let* m := kget in kderef (m !! p) "digit".
Definition st (p x : Z) : kM digits unit := if mapped p then kmodify <[p := x]> else kfault "digit".

(** [p] moves along the array, [len] digits are left behind it. *)
Fixpoint shl (p : Z) (len : nat) (sh : Z) : kM digits unit :=
  match len with
  | O => let* x := ld p in st p (LHALF (u32 (Z.shiftl x sh)))
  | S len =>
      let* x := ld p in
      let* y := ld (p + 1) in
      st p (Z.lor (LHALF (u32 (Z.shiftl x sh))) (Z.shiftr y (HALF_BITS - sh))) ;;;
      shl (p + 1) len sh
  end.

(** * The steps of __qdivrem *)

(** [u[1..4]] of a quad at [p + 1]. *)
Definition split_quad (p q : Z) : kM digits unit :=
  st (p + 1) (HHALF (ul_H q)) ;;;
  st (p + 2) (LHALF (ul_H q)) ;;;
  st (p + 3) (HHALF (ul_L q)) ;;;
  st (p + 4) (LHALF (ul_L q)).
Definition join_quad (p : Z) : kM digits Z :=
  let* a := ld (p + 1) in
  let* b := ld (p + 2) in
  let* c := ld (p + 3) in
  let* d := ld (p + 4) in
  kret (uu_q (COMBINE a b) (COMBINE c d)).

(** The loop that counts the digits of the divisor; with one digit it stops at the
    pointer to the digit in front of it. *)
Fixpoint skip_v (fuel : nat) (v n : Z) : kM digits (Z * Z) :=
  let* x := ld (v + 1) in
  if x =? 0 then
    if n - 1 =? 1 then kret (v, 1)
    else match fuel with O => λ _, RFuel | S fuel => skip_v fuel (v + 1) (n - 1) end
  else kret (v, n).

(** The division by one digit. *)
Definition short_div (u v : Z) (arq : bool) : kM digits (Z * option Z) :=
  let* t := ld (v + 2) in
  let* u1 := ld (u + 1) in
  let* u2 := ld (u + 2) in
  let* u3 := ld (u + 3) in
  let* u4 := ld (u + 4) in
  if t =? 0 then kfault "division by zero"
  else
    let q1 := u1 / t in
    let rbj := COMBINE (u1 `mod` t) u2 in
    let q2 := rbj / t in
    let rbj := COMBINE (rbj `mod` t) u3 in
    let q3 := rbj / t in
    let rbj := COMBINE (rbj `mod` t) u4 in
    let q4 := rbj / t in
    kret (uu_q (COMBINE q1 q2) (COMBINE q3 q4), if arq then Some (rbj `mod` t) else None).

Fixpoint skip_u (fuel : nat) (u m : Z) : kM digits (Z * Z) :=
  let* x := ld (u + 1) in
  if x =? 0 then match fuel with O => λ _, RFuel | S fuel => skip_u fuel (u + 1) (m - 1) end
  else kret (u, m).

(** [for (i = k; --i >= 0;) q[i] = 0;] *)
Fixpoint clear_q (k : nat) (q : Z) : kM digits unit :=
  match k with O => kret tt | S i => st (q + Z.of_nat i) 0 ;;; clear_q i q end.

(** D1: how far to shift. *)
Fixpoint norm_shift (fuel : nat) (t d : Z) : kM digits Z :=
  if t <? B / 2 then match fuel with O => λ _, RFuel | S fuel => norm_shift fuel (u32 (Z.shiftl t 1)) (d + 1) end
  else kret d.

(** D3: the while loop, and its body, which the goto enters. *)
Fixpoint while_too_big (fuel : nat) (v1 v2 uj2 qhat rhat : Z) : kM digits Z :=
  if COMBINE rhat uj2 <? u32 (v2 * qhat) then
    match fuel with
    | O => λ _, RFuel
    | S fuel =>
        let rhat := u32 (rhat + v1) in
        if B <=? rhat then kret (u32 (qhat - 1)) else while_too_big fuel v1 v2 uj2 (u32 (qhat - 1)) rhat
    end
  else kret qhat.
Definition find_qhat (v1 v2 uj0 uj1 uj2 : Z) : kM digits Z :=
  if uj0 =? v1 then
    let rhat := u32 (uj1 + v1) in
    if B <=? rhat then kret (u32 (B - 1)) else while_too_big 2 v1 v2 uj2 (u32 (B - 1)) rhat
  else if v1 =? 0 then kfault "division by zero"
  else
    let nn := COMBINE uj0 uj1 in
    while_too_big 2 v1 v2 uj2 (nn / v1) (nn `mod` v1).

(** D4: multiply and subtract, from digit [i] up; returns the borrow. *)
Fixpoint mul_sub (i : nat) (uj v qhat t : Z) : kM digits Z :=
  match i with
  | O => kret t
  | S i' =>
      let* x := ld (uj + Z.of_nat i) in
      let* y := ld (v + Z.of_nat i) in
      let t := u32 (x - y * qhat - t) in
      st (uj + Z.of_nat i) (LHALF t) ;;;
      mul_sub i' uj v qhat (Z.land (u32 (B - HHALF t)) (B - 1))
  end.

(** D6: add back; returns the carry. *)
Fixpoint add_back (i : nat) (uj v t : Z) : kM digits Z :=
  match i with
  | O => kret t
  | S i' =>
      let* x := ld (uj + Z.of_nat i) in
      let* y := ld (v + Z.of_nat i) in
      let t := u32 (t + x + y) in
      st (uj + Z.of_nat i) (LHALF t) ;;;
      add_back i' uj v (HHALF t)
  end.

(** The body of the loop on j: the digit at [qj] from the digits at [uj]. *)
Definition div_step (n : nat) (v1 v2 uj v qj : Z) : kM digits unit :=
  let* uj0 := ld uj in
  let* uj1 := ld (uj + 1) in
  let* uj2 := ld (uj + 2) in
  let* qhat := find_qhat v1 v2 uj0 uj1 uj2 in
  let* t := mul_sub n uj v qhat 0 in
  let* x := ld uj in
  let t := u32 (x - t) in
  st uj (LHALF t) ;;;
  let* qhat :=
    (if HHALF t =? 0 then kret qhat
     else
       let* t := add_back n uj v 0 in
       let* x := ld uj in
       st uj (LHALF (u32 (x + t))) ;;;
       kret (u32 (qhat - 1))) in
  st qj qhat.

(** [do ... while (++j <= m)]; [more] is m - j. *)
Fixpoint div_loop (more n : nat) (v1 v2 uj v qj : Z) : kM digits unit :=
  div_step n v1 v2 uj v qj ;;;
  match more with O => kret tt | S more => div_loop more n v1 v2 (uj + 1) v (qj + 1) end.

(** [u[p + i .. p + 1] >> d] *)
Fixpoint unshift (i : nat) (p d : Z) : kM digits unit :=
  match i with
  | O => kret tt
  | S i' =>
      let* x := ld (p + Z.of_nat i) in
      let* y := ld (p + Z.of_nat i') in
      st (p + Z.of_nat i) (Z.lor (Z.shiftr x d) (LHALF (u32 (Z.shiftl y (HALF_BITS - d))))) ;;;
      unshift i' p d
  end.

(** After the loop: the remainder, shifted back, if it is asked for. *)
Definition finish_div (n : nat) (um d : Z) (arq : bool) : kM digits (Z * option Z) :=
  let* rem :=
    (if arq then
       (if negb (d =? 0) then unshift n um d ;;; st um 0 else kret tt) ;;;
       let* r := join_quad uspace in
       kret (Some r)
     else kret None) in
  let* quot := join_quad qspace in
  kret (quot, rem).

(** The case of two and more digits: Program D. *)
Definition long_div (v n : Z) (arq : bool) : kM digits (Z * option Z) :=
  let* (u, m) := skip_u 4 uspace (4 - n) in
  clear_q (Z.to_nat (4 - m)) qspace ;;;
  let q := qspace + (4 - m) in
  let* t := ld (v + 1) in
  let* d := norm_shift 16 t 0 in
  (if 0 <? d then shl u (Z.to_nat (m + n)) d ;;; shl (v + 1) (Z.to_nat (n - 1)) d else kret tt) ;;;
  let* v1 := ld (v + 1) in
  let* v2 := ld (v + 2) in
  div_loop (Z.to_nat m) (Z.to_nat n) v1 v2 u v q ;;;
  finish_div (Z.to_nat n) (u + m) d arq.

Definition qdivrem (uq vq : Z) (arq : bool) : kM digits (Z * option Z) :=
  if vq =? 0 then kfault "division by zero"
  else if uq <? vq then kret (0, if arq then Some uq else None)
  else
    st uspace 0 ;;;
    split_quad uspace uq ;;;
    split_quad vspace vq ;;;
    let* (v, n) := skip_v 4 vspace 4 in
    if n =? 1 then short_div uspace v arq else long_div v n arq.

(** The arrays live during the call. *)
Definition __qdivrem (uq vq : Z) (arq : bool) : kres digits (Z * option Z) := qdivrem uq vq arq ∅.
Definition result {A} (r : kres digits A) : option A := match r with RRet a _ => Some a | _ => None end.

Definition u64 (x : Z) : Z := x `mod` 2 ^ 64.
Definition i64 (x : Z) : Z := (x + 2 ^ 63) `mod` 2 ^ 64 - 2 ^ 63.

Definition __divdi3 (a b : Z) : option Z :=
  let '(ua, neg) := if a <? 0 then (u64 (- u64 a), true) else (a, false) in
  let '(ub, neg) := if b <? 0 then (u64 (- u64 b), negb neg) else (b, neg) in
  '(uq, _) ← result (__qdivrem ua ub false);
  Some (i64 (if neg : bool then u64 (- uq) else uq)).
Definition __udivdi3 (a b : Z) : option Z := fst <$> result (__qdivrem a b false).
Definition __umoddi3 (a b : Z) : option Z := r ← result (__qdivrem a b true); r.2.

(** * log2 *)

(** The loop of log2, which ends when [current] is zero. *)
Fixpoint log2_loop (fuel : nat) (current y result : Z) : option (Z * Z) :=
  if current =? 0 then Some (y, result)
  else match fuel with
  | O => None
  | S fuel => log2_loop fuel (Z.shiftr current 1) (i32 (Z.shiftl y 1)) (result + 1)
  end.
Definition log2 (x : Z) : option Z :=
  '(y, result) ← log2_loop 32 x 1 0;
  Some (if Z.shiftr y 1 =? x then result - 1 else result).
