(* ===== verification/KMathProps.v ===== *)
(** The 64-bit division of KMath divides: numbers are read off the memory of digits,
    every loop of Program D is a step of the division of these numbers, and the
    estimate of a digit is at most one too large.  Also the logarithm. *)

From stdpp Require Import base numbers list gmap strings.
From S2P Require Import Prelude KMath.

Open Scope Z_scope.

(** * Words and halves *)

Lemma B_eq : B = 2 ^ 16.
Proof. done. Qed.
Lemma HHALF_eq x : HHALF x = x / B.
Proof. unfold HHALF. by rewrite Z.shiftr_div_pow2. Qed.
Lemma LHALF_eq x : LHALF x = x `mod` B.
Proof. unfold LHALF. change (Z.shiftl 1 HALF_BITS - 1) with (Z.ones 16). by rewrite Z.land_ones. Qed.
Lemma LHALF_range x : 0 ≤ LHALF x < B.
Proof. rewrite LHALF_eq. by apply Z.mod_pos_bound. Qed.

(** A number and one that fits below its lowest bit. *)
Lemma lor_add a b k : 0 ≤ k → 0 ≤ b < 2 ^ k → Z.lor (a * 2 ^ k) b = a * 2 ^ k + b.
Proof.
  intros Hk Hb. assert (Hand : Z.land (a * 2 ^ k) b = 0).
  { apply Z.bits_inj'. intros i Hi. rewrite Z.land_spec, Z.bits_0. destruct (Z.lt_ge_cases i k) as [Hlt|Hge].
    - by rewrite Z.mul_pow2_bits_low.
    - rewrite <- (Z.mod_small b (2 ^ k)), Z.mod_pow2_bits_high by lia. apply andb_false_r. }
  by rewrite <- Z.lxor_lor, <- Z.add_nocarry_lxor.
Qed.

Lemma COMBINE_eq a b : 0 ≤ a < B → 0 ≤ b < B → COMBINE a b = a * B + b.
Proof.
  intros Ha Hb. unfold COMBINE. rewrite Z.shiftl_mul_pow2 by done. rewrite B_eq in *.
  rewrite u32_small by (unfold HALF_BITS; lia). by apply lor_add.
Qed.

Lemma uu_q_eq h l : 0 ≤ l < 2 ^ 32 → uu_q h l = h * 2 ^ 32 + l.
Proof. intros Hl. unfold uu_q. rewrite Z.shiftl_mul_pow2 by done. by apply lor_add. Qed.

Lemma ul_eq q : ul_H q = q / 2 ^ 32 ∧ ul_L q = q `mod` 2 ^ 32.
Proof. unfold ul_H, ul_L. split; [by rewrite Z.shiftr_div_pow2|]. change (2 ^ 32 - 1) with (Z.ones 32). by rewrite Z.land_ones. Qed.

(** * Numbers in memory *)

Definition dg (m : digits) (k : Z) : Z := default 0 (m !! k).

(** The number of the [n] digits behind [p], the most significant one first. *)
Fixpoint num (m : digits) (p : Z) (n : nat) : Z :=
  match n with O => 0 | S i => num m p i * B + dg m (p + Z.of_nat n) end.

Definition digit (m : digits) (k : Z) : Prop := ∃ x, m !! k = Some x ∧ 0 ≤ x < B.
Definition digs (m : digits) (p : Z) (n : nat) : Prop := ∀ k, p < k ≤ p + Z.of_nat n → digit m k.
Definition room (p : Z) (n : nat) : Prop := ∀ k, p < k ≤ p + Z.of_nat n → mapped k = true.
(** Only the [n] cells behind [p] may differ. *)
Definition frame (p : Z) (n : nat) (m m' : digits) : Prop := ∀ k, ¬ (p < k ≤ p + Z.of_nat n) → m' !! k = m !! k.

Lemma dg_range m k : digit m k → 0 ≤ dg m k < B.
Proof. intros (x & Hx & ?). unfold dg. by rewrite Hx. Qed.

Lemma dg_Some m k x : m !! k = Some x → dg m k = x.
Proof. unfold dg. by intros ->. Qed.

Lemma ld_run m p : digit m p → ld p m = RRet (dg m p) m.
Proof. intros (x & Hx & _). unfold ld, dg, kbind, kget. simpl. by rewrite Hx. Qed.
Lemma st_run m p x : mapped p = true → st p x m = RRet tt (<[p := x]> m).
Proof. unfold st. by intros ->. Qed.

Lemma dg_insert m p x : dg (<[p := x]> m) p = x.
Proof. unfold dg. by rewrite lookup_insert_eq. Qed.
Lemma dg_ext m m' k : m' !! k = m !! k → dg m' k = dg m k.
Proof. unfold dg. by intros ->. Qed.
Lemma digit_ext m m' k : m' !! k = m !! k → digit m k → digit m' k.
Proof. unfold digit. by intros ->. Qed.
Lemma digit_insert m p x : 0 ≤ x < B → digit (<[p := x]> m) p.
Proof. intros Hx. exists x. by rewrite lookup_insert_eq. Qed.
Lemma digit_insert_any m p x k : 0 ≤ x < B → digit m k → digit (<[p := x]> m) k.
Proof.
  intros Hx Hk. destruct (decide (p = k)) as [->|?]; [by apply digit_insert|].
  eapply digit_ext; [|done]. by rewrite lookup_insert_ne.
Qed.

Lemma num_ext m m' p n : (∀ k, p < k ≤ p + Z.of_nat n → m' !! k = m !! k) → num m' p n = num m p n.
Proof.
  induction n as [|n IH]; intros He; [done|]. cbn [num]. rewrite IH by (intros; apply He; lia).
  f_equal. apply dg_ext, He. lia.
Qed.

Lemma num_bound m p n : digs m p n → 0 ≤ num m p n < B ^ Z.of_nat n.
Proof.
  induction n as [|n IH]; intros Hd; [done|]. cbn [num].
  pose proof (dg_range m (p + Z.of_nat (S n)) ltac:(apply Hd; lia)) as Hx. revert Hx. generalize (dg m (p + Z.of_nat (S n))).
  intros x Hx. rewrite Nat2Z.inj_succ, Z.pow_succ_r by lia.
  assert (0 ≤ num m p n < B ^ Z.of_nat n) by (apply IH; intros k ?; apply Hd; lia). rewrite B_eq in *. nia.
Qed.

Lemma num_app m p a b : num m p (a + b) = num m p a * B ^ Z.of_nat b + num m (p + Z.of_nat a) b.
Proof.
  induction b as [|b IH]; [rewrite Nat.add_0_r; simpl; lia|]. rewrite Nat.add_succ_r. cbn [num].
  rewrite IH, (Nat2Z.inj_succ b), Z.pow_succ_r by lia. replace (p + Z.of_nat (S (a + b))) with (p + Z.of_nat a + Z.succ (Z.of_nat b)) by lia. ring.
Qed.

Lemma num_high m p n : num m p (S n) = dg m (p + 1) * B ^ Z.of_nat n + num m (p + 1) n.
Proof. change (S n) with (1 + n)%nat at 1. rewrite num_app. cbn [num]. by rewrite Z.mul_0_l. Qed.

Lemma digs_ext m m' p n : (∀ k, p < k ≤ p + Z.of_nat n → m' !! k = m !! k) → digs m p n → digs m' p n.
Proof. intros He Hd k Hk. eapply digit_ext; [by apply He|by apply Hd]. Qed.

(** * Multiply and subtract, add back *)

(** One digit: what is written and the borrow. *)
Lemma sub_digit x y qhat t : 0 ≤ x < B → 0 ≤ y < B → 0 ≤ qhat < B → 0 ≤ t < B →
  let w := u32 (x - y * qhat - t) in
  let t' := Z.land (u32 (B - HHALF w)) (B - 1) in
  0 ≤ t' < B ∧ LHALF w - t' * B = x - y * qhat - t.
Proof.
  intros Hx Hy Hq Ht w t'. assert (Hp : 0 ≤ y * qhat ≤ (B - 1) * (B - 1)) by nia.
  assert (Et : t' = (B - w / B) `mod` B).
  { unfold t'. change (B - 1) with (Z.ones 16). rewrite Z.land_ones, HHALF_eq by done.
    rewrite u32_small; [done|]. pose proof (u32_range (x - y * qhat - t)) as Hw. fold w in Hw. rewrite B_eq in *.
    pose proof (Z.div_mod w (2 ^ 16)). pose proof (Z.mod_pos_bound w (2 ^ 16)). lia. }
  rewrite Et, LHALF_eq. clear Et t'. rewrite B_eq in *.
  assert (Ew : (w = x - y * qhat - t ∧ 0 ≤ w) ∨ w = x - y * qhat - t + 2 ^ 32 ∧ x - y * qhat - t < 0).
  { unfold w, u32. destruct (Z.lt_ge_cases (x - y * qhat - t) 0); [right; split; [|done]|left; rewrite Z.mod_small; lia].
    rewrite <- (Z.mod_add _ 1), Z.mul_1_l by done. apply Z.mod_small. lia. }
  clearbody w. generalize dependent (y * qhat). intros r Hr Ew. clear Hy Hq.
  pose proof (Z.div_mod w (2 ^ 16)). pose proof (Z.mod_pos_bound w (2 ^ 16)).
  split; [apply Z.mod_pos_bound; lia|].
  destruct Ew as [[Ew Hpos]|[Ew Hneg]].
  - assert (w / 2 ^ 16 = 0) as -> by (apply Z.div_small; lia). change ((2 ^ 16 - 0) `mod` 2 ^ 16) with 0. lia.
  - rewrite (Z.mod_small (2 ^ 16 - w / 2 ^ 16)); lia.
Qed.

Lemma add_digit x y t : 0 ≤ x < B → 0 ≤ y < B → 0 ≤ t ≤ 1 →
  let w := u32 (t + x + y) in 0 ≤ HHALF w ≤ 1 ∧ LHALF w + HHALF w * B = t + x + y.
Proof.
  intros Hx Hy Ht w. unfold w. rewrite B_eq in *. rewrite u32_small by lia. rewrite LHALF_eq, HHALF_eq, B_eq.
  pose proof (Z.div_mod (t + x + y) (2 ^ 16)). pose proof (Z.mod_pos_bound (t + x + y) (2 ^ 16)). lia.
Qed.

(** Two numbers in memory that do not overlap. *)
Definition apart (p : Z) (a : nat) (q : Z) (b : nat) : Prop := p + Z.of_nat a ≤ q ∨ q + Z.of_nat b ≤ p.

Lemma num_insert_ne m k x p n : ¬ (p < k ≤ p + Z.of_nat n) → num (<[k := x]> m) p n = num m p n.
Proof. intros Hk. apply num_ext. intros j Hj. apply lookup_insert_ne. lia. Qed.

Lemma insert_outside m k x p n : ¬ (p < k ≤ p + Z.of_nat n) →
  num (<[k := x]> m) p n = num m p n ∧ (digs m p n → digs (<[k := x]> m) p n).
Proof.
  intros Hk. split; [by apply num_insert_ne|]. apply digs_ext. intros j Hj. apply lookup_insert_ne. lia.
Qed.

(** The lowest digit was written first, then the others. *)
Lemma written_low i p x m m' : 0 ≤ x < B → digs m' p i → frame p i (<[p + Z.of_nat (S i) := x]> m) m' →
  digs m' p (S i) ∧ frame p (S i) m m' ∧ num m' p (S i) = num m' p i * B + x.
Proof.
  intros Hx Hd Hf. assert (Ex : m' !! (p + Z.of_nat (S i)) = Some x) by (rewrite Hf by lia; apply lookup_insert_eq).
  split_and!.
  - intros k Hk. destruct (decide (k = p + Z.of_nat (S i))) as [->|?]; [by exists x|apply Hd; lia].
  - intros k Hk. rewrite Hf by lia. apply lookup_insert_ne. lia.
  - cbn [num]. unfold dg. by rewrite Ex.
Qed.

Lemma digs_less m p n n' : (n' ≤ n)%nat → digs m p n → digs m p n'.
Proof. intros Hn Hd k Hk. apply Hd. lia. Qed.
Lemma room_less p n n' : (n' ≤ n)%nat → room p n → room p n'.
Proof. intros Hn Hd k Hk. apply Hd. lia. Qed.

Lemma mul_sub_run i uj v qhat : ∀ t m,
  digs m uj i → digs m v i → room uj i → apart uj i v i → 0 ≤ qhat < B → 0 ≤ t < B →
  ∃ t' m', mul_sub i uj v qhat t m = RRet t' m' ∧ 0 ≤ t' < B ∧ digs m' uj i ∧ frame uj i m m' ∧
    num m' uj i - t' * B ^ Z.of_nat i = num m uj i - num m v i * qhat - t.
Proof.
  induction i as [|i IH]; intros t m Hu Hv Hr Ha Hq Ht; [exists t, m; split_and!; try done; simpl; lia|]. unfold apart in Ha.
  assert (Du : digit m (uj + Z.of_nat (S i))) by (apply Hu; lia). assert (Dv : digit m (v + Z.of_nat (S i))) by (apply Hv; lia).
  cbn [mul_sub]. erewrite kbind_of_ret by (by apply ld_run). erewrite kbind_of_ret by (by apply ld_run). cbv zeta.
  pose proof (sub_digit _ _ _ _ (dg_range _ _ Du) (dg_range _ _ Dv) Hq Ht) as [Ht1 E1].
  erewrite kbind_of_ret by (apply st_run, Hr; lia).
  set (w := u32 (_ - t)) in *. set (t1 := Z.land _ _) in *. set (m1 := <[_ := LHALF w]> m).
  destruct (insert_outside m (uj + Z.of_nat (S i)) (LHALF w) uj i) as [Eu Iu]; [lia|].
  destruct (insert_outside m (uj + Z.of_nat (S i)) (LHALF w) v i) as [Ev Iv]; [lia|]. fold m1 in Eu, Iu, Ev, Iv.
  destruct (IH t1 m1) as (t' & m' & Hrun & Ht' & Hd & Hf & E); try done; [eapply Iu, digs_less, Hu; lia|
    eapply Iv, digs_less, Hv; lia|eapply room_less, Hr; lia|unfold apart; lia|].
  destruct (written_low i uj (LHALF w) m m') as (Hd' & Hf' & En); [apply LHALF_range|done..|].
  exists t', m'. split_and!; [done|lia|lia|done..|]. rewrite En, Nat2Z.inj_succ, Z.pow_succ_r by lia. cbn [num].
  rewrite Eu, Ev in E. transitivity ((num m' uj i - t' * B ^ Z.of_nat i) * B + LHALF w); [ring|]. rewrite E.
  transitivity ((num m uj i - num m v i * qhat) * B + (LHALF w - t1 * B)); [ring|]. rewrite E1. ring.
Qed.

Lemma add_back_run i uj v : ∀ t m,
  digs m uj i → digs m v i → room uj i → apart uj i v i → 0 ≤ t ≤ 1 →
  ∃ t' m', add_back i uj v t m = RRet t' m' ∧ 0 ≤ t' ≤ 1 ∧ digs m' uj i ∧ frame uj i m m' ∧
    num m' uj i + t' * B ^ Z.of_nat i = num m uj i + num m v i + t.
Proof.
  induction i as [|i IH]; intros t m Hu Hv Hr Ha Ht; [exists t, m; split_and!; try done; simpl; lia|]. unfold apart in Ha.
  assert (Du : digit m (uj + Z.of_nat (S i))) by (apply Hu; lia). assert (Dv : digit m (v + Z.of_nat (S i))) by (apply Hv; lia).
  cbn [add_back]. erewrite kbind_of_ret by (by apply ld_run). erewrite kbind_of_ret by (by apply ld_run). cbv zeta.
  pose proof (add_digit _ _ _ (dg_range _ _ Du) (dg_range _ _ Dv) Ht) as [Ht1 E1].
  erewrite kbind_of_ret by (apply st_run, Hr; lia). set (w := u32 _) in *. set (m1 := <[_ := LHALF w]> m).
  destruct (insert_outside m (uj + Z.of_nat (S i)) (LHALF w) uj i) as [Eu Iu]; [lia|].
  destruct (insert_outside m (uj + Z.of_nat (S i)) (LHALF w) v i) as [Ev Iv]; [lia|]. fold m1 in Eu, Iu, Ev, Iv.
  destruct (IH (HHALF w) m1) as (t' & m' & Hrun & Ht' & Hd & Hf & E); try done; [eapply Iu, digs_less, Hu; lia|
    eapply Iv, digs_less, Hv; lia|eapply room_less, Hr; lia|unfold apart; lia|].
  destruct (written_low i uj (LHALF w) m m') as (Hd' & Hf' & En); [apply LHALF_range|done..|].
  exists t', m'. split_and!; [done|lia|lia|done..|]. rewrite En, Nat2Z.inj_succ, Z.pow_succ_r by lia. cbn [num].
  rewrite Eu, Ev in E. transitivity ((num m' uj i + t' * B ^ Z.of_nat i) * B + LHALF w); [ring|]. rewrite E.
  transitivity ((num m uj i + num m v i) * B + (LHALF w + HHALF w * B)); [ring|]. rewrite E1. ring.
Qed.

(** * The estimate of a digit of the quotient *)

(** The largest digit whose product with the first two digits of the divisor does
    not exceed the first three digits of the dividend. *)
Definition best_digit (v1 v2 uj0 uj1 uj2 qmax q : Z) : Prop :=
  0 ≤ q ≤ qmax ∧ q * (v1 * B + v2) ≤ (uj0 * B + uj1) * B + uj2 ∧
  ∀ q', q' ≤ qmax → q' * (v1 * B + v2) ≤ (uj0 * B + uj1) * B + uj2 → q' ≤ q.

Lemma while_too_big_run v1 v2 uj0 uj1 uj2 m : B / 2 ≤ v1 < B → 0 ≤ v2 < B → 0 ≤ uj2 < B →
  ∀ fuel qhat rhat, 0 ≤ qhat < B → 0 ≤ rhat < B → qhat * v1 + rhat = uj0 * B + uj1 → B ≤ rhat + Z.of_nat fuel * v1 →
  ∃ q, while_too_big fuel v1 v2 uj2 qhat rhat m = RRet q m ∧ best_digit v1 v2 uj0 uj1 uj2 qhat q.
Proof.
  intros Hv1 Hv2 Hu2 fuel. assert (HB : B = 65536) by done. assert (Hh : B / 2 = 32768) by done. induction fuel as [|fuel IH]; intros qhat rhat Hq Hr Hn Hfuel; [lia|].
  cbn [while_too_big]. assert (0 ≤ v2 * qhat < 2 ^ 32) by nia.
  rewrite COMBINE_eq, u32_small by done. destruct (Z.ltb_spec (rhat * B + uj2) (v2 * qhat)) as [Hlt|Hge].
  - assert (0 < qhat) by nia. rewrite (u32_small (rhat + v1)), (u32_small (qhat - 1)) by lia. cbv zeta.
    assert (Hmax : ∀ q', q' ≤ qhat → q' * (v1 * B + v2) ≤ (uj0 * B + uj1) * B + uj2 → q' ≤ qhat - 1).
    { intros q' Hq' Hle. rewrite <- Hn in Hle. destruct (decide (q' = qhat)) as [->|]; [nia|lia]. }
    destruct (Z.leb_spec B (rhat + v1)).
    + eexists. split; [done|]. split_and!; [lia..| |]; [rewrite <- Hn; nia|].
      intros q' Hq' Hle. apply Hmax; [lia|done].
    + destruct (IH (qhat - 1) (rhat + v1)) as (q & Hrun & Hb & Hle & Hb2); [lia..|].
      exists q. split; [done|]. split_and!; [lia..|done|]. intros q' Hq' Hle'. apply Hb2; [by apply Hmax|done].
  - exists qhat. split; [done|]. split_and!; [lia..| |]; [rewrite <- Hn; nia|by intros].
Qed.

Lemma find_qhat_run v1 v2 uj0 uj1 uj2 m : B / 2 ≤ v1 < B → 0 ≤ v2 < B → 0 ≤ uj0 ≤ v1 → 0 ≤ uj1 < B → 0 ≤ uj2 < B →
  ∃ q, find_qhat v1 v2 uj0 uj1 uj2 m = RRet q m ∧ best_digit v1 v2 uj0 uj1 uj2 (B - 1) q.
Proof.
  intros Hv1 Hv2 Hu0 Hu1 Hu2. assert (HB : B = 65536) by done. assert (Hh : B / 2 = 32768) by done. unfold find_qhat. destruct (Z.eqb_spec uj0 v1) as [->|Hne].
  - rewrite (u32_small (uj1 + v1)), (u32_small (B - 1)) by lia. cbv zeta. destruct (Z.leb_spec B (uj1 + v1)).
    + eexists. split; [done|]. split_and!; [lia..| |by intros]. nia.
    + apply while_too_big_run; try done; lia.
  - destruct (Z.eqb_spec v1 0); [lia|]. cbv zeta. rewrite COMBINE_eq by lia.
    pose proof (Z.div_mod (uj0 * B + uj1) v1 ltac:(lia)) as Hdm. pose proof (Z.mod_pos_bound (uj0 * B + uj1) v1 ltac:(lia)) as Hmb.
    assert (0 ≤ (uj0 * B + uj1) / v1 < B) by (split; [apply Z.div_pos; lia|apply Z.div_lt_upper_bound; nia]).
    destruct (while_too_big_run v1 v2 uj0 uj1 uj2 m Hv1 Hv2 Hu2 2 ((uj0 * B + uj1) / v1) ((uj0 * B + uj1) `mod` v1)) as (q & Hrun & Hb & Hle & Hm);
      [lia..|]. exists q. split; [done|]. split_and!; [lia..|done|].
    intros q' Hq' Hle'. apply Hm; [|done]. apply Z.div_le_lower_bound; [lia|]. nia.
Qed.

(** With all the digits the estimate is right or one too large. *)
Lemma best_digit_close v1 v2 uj0 uj1 uj2 q D vr ur : B / 2 ≤ v1 < B → 0 ≤ v2 < B →
  best_digit v1 v2 uj0 uj1 uj2 (B - 1) q → 0 ≤ vr < D → 0 ≤ ur < D →
  let V := (v1 * B + v2) * D + vr in
  let U := ((uj0 * B + uj1) * B + uj2) * D + ur in
  0 ≤ U < V * B → U / V ≤ q ≤ U / V + 1.
Proof.
  intros Hv1 Hv2 (Hq & Hle & Hmax) Hvr Hur V U HU. assert (HB : B = 65536) by done. assert (Hh : B / 2 = 32768) by done. assert (HV : 0 < V) by (unfold V; nia).
  pose proof (Z.div_mod U V ltac:(lia)) as Hdm. pose proof (Z.mod_pos_bound U V HV) as Hmb. split.
  - apply Hmax; [assert (U / V < B) by (apply Z.div_lt_upper_bound; lia); lia|].
    assert (HqV : U / V * V ≤ U) by lia. assert (0 ≤ U / V) by (apply Z.div_pos; lia).
    generalize dependent (U / V). intros k _ HkV Hk. subst V U. nia.
  - apply Z.le_sub_le_add_r, Z.div_le_lower_bound; [done|]. subst V U. clear Hdm Hmb Hmax HU. 
    assert (V1 : (q - 1) * (v1 * B + v2) + (q - 1) ≤ (uj0 * B + uj1) * B + uj2 - 1) by nia.
    destruct (decide (q = 0)) as [->|]; [nia|]. nia.
Qed.

(** * One digit of the quotient *)

(** The top digit shows whether the subtraction went below zero. *)
Lemma top_digit x t N P R : 0 < P → 0 ≤ N < P → - P < R < P → R = (x - t) * P + N →
  if 0 <=? R then x - t = 0 ∧ N = R else x - t = -1 ∧ N = R + P.
Proof.
  intros HP HN HR E. destruct (Z.leb_spec 0 R).
  - assert (x - t = 0) as Ex by nia. rewrite Ex in E. split; lia.
  - assert (x - t = -1) as Ex by nia. rewrite Ex in E. split; lia.
Qed.

Section Step.
Variables (n' : nat) (uj v qj : Z) (m : digits).
Let n : nat := S (S n').
Let V : Z := num m v n.
Let U : Z := num m (uj - 1) (S n).
Hypotheses (Hu : digs m (uj - 1) (S n)) (Hr : room (uj - 1) (S n)) (Hv : digs m v n) (Ha : apart (uj - 1) (S n) v n)
  (Hq : mapped qj = true) (Hqu : ¬ (uj - 1 < qj ≤ uj + Z.of_nat n)) (Hqv : ¬ (v < qj ≤ v + Z.of_nat n))
  (Hn : B / 2 ≤ dg m (v + 1)) (HU : U < V * B).

Lemma step_split : ∃ vr ur, 0 ≤ vr < B ^ Z.of_nat n' ∧ 0 ≤ ur < B ^ Z.of_nat n' ∧
  V = (dg m (v + 1) * B + dg m (v + 2)) * B ^ Z.of_nat n' + vr ∧
  U = ((dg m uj * B + dg m (uj + 1)) * B + dg m (uj + 2)) * B ^ Z.of_nat n' + ur.
Proof.
  exists (num m (v + 2) n'), (num m (uj + 2) n'). split; [|split; [|split]];
    try (apply num_bound; intros k Hk; first [apply Hv; lia|apply Hu; lia]).
  - apply (num_app m v 2 n').
  - unfold U. change (S n) with (3 + n')%nat. rewrite num_app. cbn [num]. rewrite Z.mul_0_l, Z.add_0_l.
    replace (uj - 1 + Z.of_nat 1) with uj by lia. replace (uj - 1 + Z.of_nat 2) with (uj + 1) by lia.
    replace (uj - 1 + Z.of_nat 3) with (uj + 2) by lia. done.
Qed.

Lemma step_bounds : 0 < V < B ^ Z.of_nat n ∧ 0 ≤ U ∧ U = dg m uj * B ^ Z.of_nat n + num m uj n ∧ dg m uj ≤ dg m (v + 1).
Proof.
  assert (HB : B = 65536) by done. assert (Hh : B / 2 = 32768) by done.
  destruct (num_bound _ _ _ Hv) as [_ HVB]. destruct (num_bound _ _ _ Hu) as [HU0 _]. fold V in HVB. fold U in HU0.
  assert (HP : 0 < B ^ Z.of_nat n') by (apply Z.pow_pos_nonneg; lia).
  pose proof (dg_range m (v + 2) ltac:(apply Hv; lia)). pose proof (dg_range m (uj + 1) ltac:(apply Hu; lia)).
  pose proof (dg_range m (uj + 2) ltac:(apply Hu; lia)). pose proof (dg_range m uj ltac:(apply Hu; lia)).
  destruct step_split as (vr & ur & Hvr & Hur & EV & EU). split_and!; [nia|done|done| |].
  - unfold U. rewrite num_high. by replace (uj - 1 + 1) with uj by lia.
  - rewrite EV, EU in HU. apply Z.lt_succ_r. nia.
Qed.

(** What a step leaves: the digit of the quotient and the remainder. *)
Definition stepped (m' : digits) : Prop :=
  m' !! qj = Some (U / V) ∧ m' !! uj = Some 0 ∧ digs m' uj n ∧ num m' uj n = U `mod` V ∧
  ∀ k, k ≠ qj → ¬ (uj - 1 < k ≤ uj + Z.of_nat n) → m' !! k = m !! k.

(** The last store, with the digits of [uj] in place. *)
Lemma step_finish q m' : q = U / V → num m' uj n = U - q * V → digs m' uj n → frame (uj - 1) (S n) m m' →
  stepped (<[qj := q]> (<[uj := 0]> m')).
Proof.
  intros -> Hnum Hd Hf. destruct step_bounds as ([HV _] & _ & _). split_and!.
  - apply lookup_insert_eq.
  - rewrite lookup_insert_ne by lia. apply lookup_insert_eq.
  - apply insert_outside; [lia|]. apply insert_outside; [lia|done].
  - rewrite !num_insert_ne by lia. rewrite Hnum, Z.mod_eq by lia. ring.
  - intros k Hk1 Hk2. rewrite !lookup_insert_ne by lia. apply Hf. lia.
Qed.

(** The rare case: the estimate was one too large. *)
Lemma add_back_step m1 q : digs m1 uj n → frame uj n m m1 → num m1 uj n = U - q * V + B ^ Z.of_nat n →
  0 ≤ U - (q - 1) * V < V → 0 < q < B →
  ∃ m3, (let* t := add_back n uj v 0 in let* x := ld uj in st uj (LHALF (u32 (x + t))) ;;; kret (u32 (q - 1))) (<[uj := 65535]> m1) =
      RRet (q - 1) (<[uj := 0]> m3) ∧ num m3 uj n = U - (q - 1) * V ∧ digs m3 uj n ∧ frame (uj - 1) (S n) m m3.
Proof.
  intros Hd1 Hf1 EN Hrem Hqb. assert (HB : B = 65536) by done. destruct step_bounds as (HV & _). unfold apart in Ha.
  set (m2 := <[uj := 65535]> m1). assert (Hm2 : ∀ k, k ≠ uj → m2 !! k = m1 !! k) by (intros k Hk; unfold m2; by rewrite lookup_insert_ne).
  assert (Ev : ∀ k, v < k ≤ v + Z.of_nat n → m2 !! k = m !! k) by (intros k Hk; rewrite Hm2 by lia; apply Hf1; lia).
  destruct (add_back_run n uj v 0 m2) as (t & m3 & Hrun & Ht & Hd3 & Hf3 & E).
  - eapply digs_ext; [|exact Hd1]. intros k Hk. apply Hm2. lia.
  - by eapply digs_ext.
  - intros k Hk. apply Hr. lia.
  - unfold apart. lia.
  - lia.
  - rewrite (num_ext m m2 v n Ev), (num_ext m1 m2 uj n) in E by (intros k Hk; apply Hm2; lia). fold V in E. rewrite EN in E.
    assert (Euj : m3 !! uj = Some 65535) by (rewrite Hf3 by lia; apply lookup_insert_eq).
    pose proof (num_bound _ _ _ Hd3). assert (t = 1) as -> by nia.
    erewrite kbind_of_ret by exact Hrun. erewrite kbind_of_ret by (apply ld_run; by exists 65535). unfold dg. rewrite Euj. cbn [default].
    erewrite kbind_of_ret by (apply st_run, Hr; lia). exists m3. change (LHALF (u32 (65535 + 1))) with 0.
    split_and!; [unfold kret; by rewrite u32_small by lia|lia|done|].
    intros k Hk. rewrite Hf3, Hm2 by lia. apply Hf1. lia.
Qed.

Lemma div_step_run : ∃ m', div_step n (dg m (v + 1)) (dg m (v + 2)) uj v qj m = RRet tt m' ∧ stepped m'.
Proof.
  assert (HB : B = 65536) by done. destruct step_bounds as (HV & HU0 & EU & Htop).
  assert (D0 : digit m uj) by (apply Hu; lia). assert (D1 : digit m (uj + 1)) by (apply Hu; lia). assert (D2 : digit m (uj + 2)) by (apply Hu; lia).
  assert (Dv1 : digit m (v + 1)) by (apply Hv; lia). assert (Dv2 : digit m (v + 2)) by (apply Hv; lia).
  pose proof (dg_range _ _ D0) as R0. pose proof (dg_range _ _ Dv1) as R1.
  destruct (find_qhat_run (dg m (v + 1)) (dg m (v + 2)) (dg m uj) (dg m (uj + 1)) (dg m (uj + 2)) m) as (q & Hrun & Hbest);
    [lia|by apply dg_range|lia|by apply dg_range|by apply dg_range|].
  assert (Hclose : U / V ≤ q ≤ U / V + 1).
  { destruct step_split as (vr & ur & Hvr & Hur & EV & EU'). 
    pose proof (best_digit_close _ _ _ _ _ _ _ _ _ (conj Hn (proj2 R1)) (dg_range _ _ Dv2) Hbest Hvr Hur) as Hc.
    cbv zeta in Hc. rewrite <- EV, <- EU' in Hc. apply Hc. lia. }
  unfold div_step. do 3 (erewrite kbind_of_ret by (by apply ld_run)). erewrite kbind_of_ret by exact Hrun.
  destruct (mul_sub_run n uj v q 0 m) as (t & m1 & Hrun1 & Ht & Hd1 & Hf1 & E1);
    [intros k Hk; apply Hu; lia|done|intros k Hk; apply Hr; lia|unfold apart in *; lia|destruct Hbest; lia|lia|].
  erewrite kbind_of_ret by exact Hrun1. assert (Euj : m1 !! uj = m !! uj) by (apply Hf1; lia).
  erewrite kbind_of_ret by (apply ld_run; by eapply digit_ext). rewrite (dg_ext _ _ _ Euj). cbv zeta.
  erewrite kbind_of_ret by (apply st_run, Hr; lia).
  pose proof (Z.div_mod U V ltac:(lia)) as Hdm. pose proof (Z.mod_pos_bound U V ltac:(lia)) as Hmb.
  pose proof (top_digit (dg m uj) t (num m1 uj n) (B ^ Z.of_nat n) (U - q * V)) as Htd.
  specialize (Htd ltac:(lia) (num_bound _ _ _ Hd1) ltac:(nia) ltac:(fold V in E1; lia)).
  destruct (Z.leb_spec 0 (U - q * V)) as [HR|HR]; destruct Htd as [Ext EN]; rewrite Ext.
  - change (LHALF (u32 0)) with 0. change (HHALF (u32 0) =? 0) with true. cbn iota.
    erewrite kbind_of_ret by done. eexists. split; [by apply st_run|].
    apply step_finish; [nia|done|done|]. intros k Hk. apply Hf1. lia.
  - change (LHALF (u32 (-1))) with 65535. change (HHALF (u32 (-1)) =? 0) with false. cbn iota.
    destruct (add_back_step m1 q) as (m3 & Hrun3 & Hnum3 & Hd3 & Hf3); [done..|nia|destruct Hbest; nia|].
    erewrite kbind_of_ret by exact Hrun3. eexists. split; [by apply st_run|].
    apply step_finish; [nia|by rewrite Hnum3; nia|done|done].
Qed.
End Step.

(** * The loop *)

(** Dividing digit by digit. *)
Lemma div_digits U V P T : 0 < V → 0 < P → T / V = U / V * P + ((T - U * P) + U `mod` V * P) / V ∧
  T `mod` V = ((T - U * P) + U `mod` V * P) `mod` V.
Proof.
  intros HV HP. assert (E : T = (T - U * P) + U `mod` V * P + (U / V * P) * V) by (rewrite Z.mod_eq by lia; ring).
  split; rewrite E at 1; [rewrite Z.div_add by lia; lia|by rewrite Z.mod_add by lia].
Qed.

Section Loop.
Variables (n' : nat) (v V : Z).
Let n : nat := S (S n').

(** The divisor is in place, and the other two numbers do not meet it or each other. *)
Record ready (more : nat) (uj qj : Z) (m : digits) : Prop := {
  rd_u : digs m (uj - 1) (S n + more);
  rd_v : digs m v n;
  rd_ru : room (uj - 1) (S n + more);
  rd_rq : room (qj - 1) (S more);
  rd_uv : apart (uj - 1) (S n + more) v n;
  rd_uq : apart (uj - 1) (S n + more) (qj - 1) (S more);
  rd_qv : apart (qj - 1) (S more) v n;
  rd_V : num m v n = V;
  rd_norm : B / 2 ≤ dg m (v + 1);
  rd_small : num m (uj - 1) n < V
}.

Definition divided (more : nat) (uj qj : Z) (m m' : digits) : Prop :=
  let T := num m (uj - 1) (S n + more) in
  digs m' (qj - 1) (S more) ∧ num m' (qj - 1) (S more) = T / V ∧
  digs m' (uj + Z.of_nat more) n ∧ num m' (uj + Z.of_nat more) n = T `mod` V ∧
  (∀ k, uj ≤ k ≤ uj + Z.of_nat more → m' !! k = Some 0) ∧
  ∀ k, ¬ (uj ≤ k ≤ uj + Z.of_nat (n + more)) → ¬ (qj ≤ k ≤ qj + Z.of_nat more) → m' !! k = m !! k.

Lemma ready_step more uj qj m : ready more uj qj m →
  0 < V ∧ 0 ≤ num m (uj - 1) (S n) < V * B ∧
  ∃ m1, div_step n (dg m (v + 1)) (dg m (v + 2)) uj v qj m = RRet tt m1 ∧ stepped n' uj v qj m m1.
Proof.
  intros [Hu Hv Hru Hrq Huv Huq Hqv HV Hn Hs]. unfold apart in *.
  assert (Hu' : digs m (uj - 1) (S n)) by (intros k Hk; apply Hu; lia).
  pose proof (num_bound m (uj - 1) n ltac:(intros k Hk; apply Hu; lia)).
  assert (HU : 0 ≤ num m (uj - 1) (S n) < V * B).
  { cbn [num]. pose proof (dg_range m (uj - 1 + Z.of_nat (S n)) ltac:(apply Hu; lia)). nia. }
  split; [lia|]. split; [done|]. rewrite <- HV in HU.
  apply div_step_run; try done; try (unfold apart; lia); [intros k Hk; apply Hru; lia|apply Hrq; lia|apply HU].
Qed.

Lemma ready_next more uj qj m m1 : ready (S more) uj qj m → stepped n' uj v qj m m1 → ready more (uj + 1) (qj + 1) m1.
Proof.
  intros [Hu Hv Hru Hrq Huv Huq Hqv HV Hn Hs] (Eq & E0 & Hd & Hnum & Hf). unfold apart in *. fold n in Hd, Hnum, Hf.
  assert (Ev : ∀ k, v < k ≤ v + Z.of_nat n → m1 !! k = m !! k) by (intros k Hk; apply Hf; lia).
  replace (uj + 1 - 1) with uj in * by lia. split; replace (uj + 1 - 1) with uj by lia.
  - intros k Hk. destruct (decide (k ≤ uj + Z.of_nat n)); [apply Hd; lia|].
    eapply digit_ext; [apply Hf; lia|]. apply Hu. lia.
  - by eapply digs_ext.
  - intros k Hk. apply Hru. lia.
  - intros k Hk. apply Hrq. lia.
  - unfold apart. lia.
  - unfold apart. lia.
  - unfold apart. lia.
  - by rewrite (num_ext m m1).
  - rewrite (dg_ext m m1) by (apply Ev; lia). done.
  - rewrite Hnum, HV. apply Z.mod_pos_bound.
    pose proof (num_bound m (uj - 1) n ltac:(intros k Hk; apply Hu; lia)). lia.
Qed.

Lemma div_loop_run more : ∀ uj qj m, ready more uj qj m →
  ∃ m', div_loop more n (dg m (v + 1)) (dg m (v + 2)) uj v qj m = RRet tt m' ∧ divided more uj qj m m'.
Proof.
  induction more as [|more IH]; intros uj qj m HR; destruct (ready_step _ _ _ _ HR) as (HV & HU & m1 & Hrun & Hst);
    cbn [div_loop]; erewrite kbind_of_ret by exact Hrun; pose proof HR as [_ _ _ _ _ _ _ EV _ _].
  - exists m1. split; [done|]. destruct Hst as (Eq & E0 & Hd & Hnum & Hf). fold n in Eq, Hd, Hnum, Hf. rewrite EV in *.
    assert (0 ≤ num m (uj - 1) (S n) / V < B) by (split; [apply Z.div_pos; lia|apply Z.div_lt_upper_bound; lia]).
    unfold divided. rewrite Nat.add_0_r. replace (uj + Z.of_nat 0) with uj by lia. cbv zeta. split_and!; try done.
    + intros k Hk. replace k with qj by lia. by eexists.
    + cbn [num]. replace (qj - 1 + Z.of_nat 1) with qj by lia. unfold dg. by rewrite Eq.
    + intros k Hk. by replace k with uj by lia.
    + intros k Hk1 Hk2. apply Hf; lia.
  - pose proof (ready_next _ _ _ _ _ HR Hst) as HR1. destruct (IH _ _ _ HR1) as (m' & Hrun' & Hq & Enq & Hd & En & Hz & Hf).
    exists m'. destruct Hst as (Eq & E0 & Hd1 & Hnum1 & Hf1). fold n in Eq, Hd1, Hnum1, Hf1. rewrite EV in *.
    pose proof HR as [_ _ _ _ Huv Huq Hqv _ _ _]. unfold apart in *.
    assert (Ev : ∀ k, v < k ≤ v + Z.of_nat n → m1 !! k = m !! k) by (intros k Hk; apply Hf1; lia).
    split; [by rewrite <- (dg_ext m m1 (v + 1)), <- (dg_ext m m1 (v + 2)) by (apply Ev; lia)|].
    replace (uj + 1 - 1) with uj in * by lia. replace (qj + 1 - 1) with qj in * by lia.
    set (P := B ^ Z.of_nat (S more)). set (U := num m (uj - 1) (S n)) in *. set (T := num m (uj - 1) (S n + S more)).
    assert (HT1 : num m1 uj (S n + more) = (T - U * P) + U `mod` V * P).
    { replace (S n + more)%nat with (n + S more)%nat by lia. unfold T. rewrite !num_app, Hnum1. fold P U.
      replace (uj - 1 + Z.of_nat (S n)) with (uj + Z.of_nat n) by lia.
      rewrite (num_ext m m1 (uj + Z.of_nat n)) by (intros k Hk; apply Hf1; lia). ring. }
    rewrite HT1 in Enq, En. unfold divided. cbv zeta. fold T. destruct (div_digits U V P T) as [-> ->]; [lia|apply Z.pow_pos_nonneg; done || lia|].
    assert (Eq' : m' !! qj = Some (U / V)) by (rewrite Hf by lia; done).
    assert (0 ≤ U / V < B) by (split; [apply Z.div_pos; lia|apply Z.div_lt_upper_bound; lia]).
    replace (uj + Z.of_nat (S more)) with (uj + 1 + Z.of_nat more) by lia. split_and!; [| |done|done| |].
    + intros k Hk. destruct (decide (k = qj)) as [->|]; [by eexists|apply Hq; lia].
    + rewrite num_high. replace (qj - 1 + 1) with qj by lia. rewrite Enq. unfold dg. by rewrite Eq'.
    + intros k Hk. destruct (decide (k = uj)) as [->|]; [rewrite Hf by lia; done|apply Hz; lia].
    + intros k Hk1 Hk2. rewrite Hf by lia. apply Hf1; lia.
Qed.
End Loop.

(** * Shifts *)

Lemma pow_split sh : 0 ≤ sh ≤ 16 → B = 2 ^ (16 - sh) * 2 ^ sh ∧ 0 < 2 ^ sh ∧ 0 < 2 ^ (16 - sh).
Proof. intros Hs. rewrite <- Z.pow_add_r by lia. replace (16 - sh + sh) with 16 by lia. split; [done|]. split; apply Z.pow_pos_nonneg; lia. Qed.

(** The low part of a digit that is shifted left. *)
Lemma low_shifted x sh : 0 ≤ x < B → 0 ≤ sh ≤ 16 → LHALF (u32 (Z.shiftl x sh)) = x `mod` 2 ^ (16 - sh) * 2 ^ sh.
Proof.
  intros Hx Hs. destruct (pow_split sh Hs) as (EB & H1 & H2). rewrite Z.shiftl_mul_pow2 by lia.
  assert (2 ^ sh ≤ 2 ^ 16) by (apply Z.pow_le_mono_r; lia). rewrite LHALF_eq, u32_small by (rewrite B_eq in Hx; nia).
  rewrite EB at 1. rewrite Z.mul_mod_distr_r by lia. done.
Qed.

(** Two digits, of which the first is shifted left by [sh]. *)
Lemma shifted_digit x y sh : 0 ≤ x < B → 0 ≤ y < B → 0 ≤ sh ≤ 16 →
  let D := Z.lor (LHALF (u32 (Z.shiftl x sh))) (Z.shiftr y (16 - sh)) in
  0 ≤ D < B ∧ D = x `mod` 2 ^ (16 - sh) * 2 ^ sh + y / 2 ^ (16 - sh).
Proof.
  intros Hx Hy Hs D. destruct (pow_split sh Hs) as (EB & H1 & H2).
  assert (Hq : 0 ≤ y / 2 ^ (16 - sh) < 2 ^ sh) by (split; [apply Z.div_pos; lia|apply Z.div_lt_upper_bound; lia]).
  pose proof (Z.mod_pos_bound x (2 ^ (16 - sh)) H2). assert (ED : D = x `mod` 2 ^ (16 - sh) * 2 ^ sh + y / 2 ^ (16 - sh)).
  { unfold D. rewrite low_shifted, Z.shiftr_div_pow2 by lia. apply lor_add; lia. }
  split; [rewrite ED, EB; nia|done].
Qed.

Lemma shl_run len sh : 0 ≤ sh ≤ 16 → ∀ p m, digs m (p - 1) (S len) → room (p - 1) (S len) →
  ∃ m', shl p len sh m = RRet tt m' ∧ digs m' (p - 1) (S len) ∧ frame (p - 1) (S len) m m' ∧
    num m' (p - 1) (S len) + dg m p / 2 ^ (16 - sh) * B ^ Z.of_nat (S len) = num m (p - 1) (S len) * 2 ^ sh.
Proof.
  intros Hs. destruct (pow_split sh Hs) as (EB & H1 & H2). induction len as [|len IH]; intros p m Hd Hr.
  - assert (Dp : digit m p) by (apply Hd; lia). pose proof (dg_range _ _ Dp) as Hx. cbn [shl].
    erewrite kbind_of_ret by (by apply ld_run). rewrite low_shifted by done. eexists. split; [apply st_run, Hr; lia|].
    pose proof (Z.mod_pos_bound (dg m p) _ H2). pose proof (Z.div_mod (dg m p) (2 ^ (16 - sh)) ltac:(lia)) as E.
    split_and!.
    + intros k Hk. replace k with p by lia. apply digit_insert. rewrite EB. nia.
    + intros k Hk. apply lookup_insert_ne. lia.
    + cbn [num]. replace (p - 1 + Z.of_nat 1) with p by lia. rewrite dg_insert. change (B ^ Z.of_nat 1) with B. revert E.
      generalize (dg m p `mod` 2 ^ (16 - sh)) (dg m p / 2 ^ (16 - sh)). intros a b ->. rewrite EB. ring.
  - assert (Dp : digit m p) by (apply Hd; lia). assert (Dq : digit m (p + 1)) by (apply Hd; lia). cbn [shl].
    do 2 (erewrite kbind_of_ret by (by apply ld_run)). erewrite kbind_of_ret by (apply st_run, Hr; lia).
    destruct (shifted_digit _ _ sh (dg_range _ _ Dp) (dg_range _ _ Dq) Hs) as [HD ED]. change HALF_BITS with 16.
    set (D := Z.lor _ _) in *. set (m1 := <[p := D]> m).
    assert (Hm1 : ∀ k, k ≠ p → m1 !! k = m !! k) by (intros k Hk; unfold m1; by rewrite lookup_insert_ne).
    destruct (IH (p + 1) m1) as (m' & Hrun & Hd' & Hf & E).
    + intros k Hk. eapply digit_ext; [apply Hm1; lia|apply Hd; lia].
    + intros k Hk. apply Hr. lia.
    + replace (p + 1 - 1) with p in * by lia. rewrite (dg_ext m m1), (num_ext m m1) in E by (intros; apply Hm1; lia) || (apply Hm1; lia).
      assert (Ep : m' !! p = Some D) by (rewrite Hf by lia; apply lookup_insert_eq).
      exists m'. split_and!; [done| | |].
      * intros k Hk. destruct (decide (k = p)) as [->|]; [by exists D|apply Hd'; lia].
      * intros k Hk. rewrite Hf by lia. apply Hm1. lia.
      * rewrite !(num_high _ (p - 1)). replace (p - 1 + 1) with p by lia. rewrite (dg_Some m' p D) by done.
        rewrite (Nat2Z.inj_succ (S len)), Z.pow_succ_r by lia. pose proof (Z.div_mod (dg m p) (2 ^ (16 - sh)) ltac:(lia)) as Ex.
        rewrite Z.mul_add_distr_r, <- E, ED. revert Ex.
        generalize (dg m p `mod` 2 ^ (16 - sh)) (dg m p / 2 ^ (16 - sh)) (B ^ Z.of_nat (S len)). intros a b Q ->. rewrite EB. ring.
Qed.

Lemma unshift_run d : 0 ≤ d ≤ 16 → ∀ i p m, digs m (p - 1) (S i) → room p i →
  ∃ m', unshift i p d m = RRet tt m' ∧ digs m' p i ∧ frame p i m m' ∧
    num m' p i * 2 ^ d + dg m (p + Z.of_nat i) `mod` 2 ^ d = num m p i + dg m p `mod` 2 ^ d * B ^ Z.of_nat i.
Proof.
  intros Hs i p. destruct (pow_split d Hs) as (EB & H1 & H2). induction i as [|i IH]; intros m Hd Hr.
  { exists m. split_and!; try done; [intros k Hk; lia|]. rewrite Z.add_0_r. simpl. lia. }
  assert (Dx : digit m (p + Z.of_nat (S i))) by (apply Hd; lia). assert (Dy : digit m (p + Z.of_nat i)) by (apply Hd; lia).
  cbn [unshift]. do 2 (erewrite kbind_of_ret by (by apply ld_run)). erewrite kbind_of_ret by (apply st_run, Hr; lia).
  destruct (shifted_digit _ _ (16 - d) (dg_range _ _ Dy) (dg_range _ _ Dx) ltac:(lia)) as [HD ED].
  replace (16 - (16 - d)) with d in * by lia. rewrite (Z.lor_comm (Z.shiftr _ _)). change HALF_BITS with 16.
  set (D := Z.lor _ _) in *. set (m1 := <[_ := D]> m).
  assert (Hm1 : ∀ k, k ≠ p + Z.of_nat (S i) → m1 !! k = m !! k) by (intros k Hk; unfold m1; by rewrite lookup_insert_ne).
  destruct (IH m1) as (m' & Hrun & Hd' & Hf & E).
  - intros k Hk. eapply digit_ext; [apply Hm1; lia|apply Hd; lia].
  - eapply room_less, Hr. lia.
  - rewrite (num_ext m m1), !(dg_ext m m1) in E by first [intros; apply Hm1; lia|apply Hm1; lia].
    destruct (written_low i p D m m') as (Hd'' & Hf' & En); [done..|]. exists m'. split_and!; [done..|].
    rewrite En, ED. cbn [num]. rewrite Nat2Z.inj_succ, Z.pow_succ_r by lia.
    pose proof (Z.div_mod (dg m (p + Z.succ (Z.of_nat i))) (2 ^ d) ltac:(lia)) as Ex.
    revert Ex. generalize (dg m (p + Z.succ (Z.of_nat i)) / 2 ^ d) (dg m (p + Z.succ (Z.of_nat i)) `mod` 2 ^ d). intros a b ->.
    transitivity ((num m' p i * 2 ^ d + dg m (p + Z.of_nat i) `mod` 2 ^ d) * B + 2 ^ d * a + b); [|rewrite E; ring].
    rewrite EB. ring.
Qed.

(** * Quads and digits *)

Lemma four_digits m p a b c d : m !! (p + 1) = Some a → m !! (p + 2) = Some b → m !! (p + 3) = Some c → m !! (p + 4) = Some d →
  0 ≤ a < B → 0 ≤ b < B → 0 ≤ c < B → 0 ≤ d < B → digs m p 4 ∧ num m p 4 = ((a * B + b) * B + c) * B + d.
Proof.
  intros Ha Hb Hc Hd Ra Rb Rc Rd. split.
  - intros k Hk. assert (k = p + 1 ∨ k = p + 2 ∨ k = p + 3 ∨ k = p + 4) as [->|[->|[->| ->]]] by lia; eexists; eauto.
  - change (num m p 4) with ((((0 * B + dg m (p + 1)) * B + dg m (p + 2)) * B + dg m (p + 3)) * B + dg m (p + 4)).
    by rewrite (dg_Some _ _ _ Ha), (dg_Some _ _ _ Hb), (dg_Some _ _ _ Hc), (dg_Some _ _ _ Hd).
Qed.

Lemma halves x : 0 ≤ x < 2 ^ 32 → 0 ≤ x / B < B ∧ 0 ≤ x `mod` B < B ∧ x = x / B * B + x `mod` B.
Proof.
  intros Hx. pose proof (Z.div_mod x B ltac:(done)). pose proof (Z.mod_pos_bound x B ltac:(done)). rewrite B_eq in *. lia.
Qed.

Lemma split_quad_run p q m : 0 ≤ q < 2 ^ 64 → room p 4 →
  ∃ m', split_quad p q m = RRet tt m' ∧ digs m' p 4 ∧ num m' p 4 = q ∧ frame p 4 m m'.
Proof.
  intros Hq Hr. destruct (ul_eq q) as [EH EL]. unfold split_quad. rewrite EH, EL, !HHALF_eq, !LHALF_eq.
  pose proof (Z.div_mod q (2 ^ 32) ltac:(lia)) as Eq. pose proof (Z.mod_pos_bound q (2 ^ 32) ltac:(lia)) as Hl.
  destruct (halves (q / 2 ^ 32)) as (Ra & Rb & E1); [lia|]. destruct (halves (q `mod` 2 ^ 32)) as (Rc & Rd & E2); [lia|].
  do 3 (erewrite kbind_of_ret by (apply st_run, Hr; lia)). eexists. split; [apply st_run, Hr; lia|].
  set (m' := <[p + 4 := _]> _). destruct (four_digits m' p (q / 2 ^ 32 / B) ((q / 2 ^ 32) `mod` B) (q `mod` 2 ^ 32 / B) ((q `mod` 2 ^ 32) `mod` B))
    as [Hd Hnum]; try done; try (unfold m'; rewrite ?lookup_insert_ne by lia; apply lookup_insert_eq).
  split_and!; [done| |].
  - rewrite Hnum. rewrite Eq at 5. rewrite E1 at 3. rewrite E2 at 3. rewrite B_eq. lia.
  - intros k Hk. unfold m'. by rewrite !lookup_insert_ne by lia.
Qed.

Lemma join_quad_run p m : digs m p 4 → join_quad p m = RRet (num m p 4) m.
Proof.
  intros Hd. assert (R : ∀ i, 1 ≤ i ≤ 4 → digit m (p + i)) by (intros i Hi; apply Hd; lia). unfold join_quad.
  do 4 (erewrite kbind_of_ret by (apply ld_run, R; lia)). unfold kret. f_equal.
  pose proof (λ i Hi, dg_range _ _ (R i Hi)) as G. pose proof (G 1 ltac:(lia)). pose proof (G 2 ltac:(lia)).
  pose proof (G 3 ltac:(lia)). pose proof (G 4 ltac:(lia)). rewrite !COMBINE_eq by done.
  change (num m p 4) with ((((0 * B + dg m (p + 1)) * B + dg m (p + 2)) * B + dg m (p + 3)) * B + dg m (p + 4)).
  rewrite B_eq in *. rewrite uu_q_eq by lia. lia.
Qed.

(** Leading zeros. *)
Lemma num_zeros m p a b : (∀ k, p < k ≤ p + Z.of_nat a → m !! k = Some 0) →
  num m p (a + b) = num m (p + Z.of_nat a) b ∧ (digs m (p + Z.of_nat a) b → digs m p (a + b)).
Proof.
  intros Hz. split.
  - rewrite num_app. assert (num m p a = 0) as ->; [|lia]. induction a as [|a IH]; [done|]. cbn [num].
    rewrite IH by (intros k Hk; apply Hz; lia). rewrite (dg_Some m _ 0) by (apply Hz; lia). done.
  - intros Hd k Hk. destruct (decide (k ≤ p + Z.of_nat a)); [exists 0; split; [apply Hz; lia|done]|apply Hd; lia].
Qed.

(** * Counting digits *)

Lemma zero_head m p n : dg m (p + 1) = 0 → num m p (S n) = num m (p + 1) n.
Proof. intros E. rewrite num_high, E. lia. Qed.

(** The divisor has one digit, or [n] digits of which the first is not zero. *)
Lemma skip_v_run m k : ∀ fuel v, (k ≤ fuel)%nat → digs m v (S (S k)) →
  ∃ v' n', skip_v fuel v (Z.of_nat (S (S k))) m = RRet (v', n') m ∧
    if n' =? 1 then v' = v + Z.of_nat k ∧ dg m (v' + 2) = num m v (S (S k))
    else ∃ n, (2 ≤ n ≤ S (S k))%nat ∧ n' = Z.of_nat n ∧ v' + n' = v + Z.of_nat (S (S k)) ∧ dg m (v' + 1) ≠ 0 ∧
      num m v' n = num m v (S (S k)).
Proof.
  induction k as [|k IH]; intros fuel v Hf Hd; (assert (D1 : digit m (v + 1)) by (apply Hd; lia)).
  - assert (Hrun : skip_v fuel v 2 m = if dg m (v + 1) =? 0 then RRet (v, 1) m else RRet (v, 2) m).
    { destruct fuel; cbn [skip_v]; erewrite kbind_of_ret by (by apply ld_run); by destruct (dg m (v + 1) =? 0). }
    change (Z.of_nat 2) with 2. rewrite Hrun. destruct (Z.eqb_spec (dg m (v + 1)) 0) as [E|E]; (eexists _, _; split; [done|]).
    + change (1 =? 1) with true. cbn iota. split; [lia|]. rewrite (zero_head m v 1) by done. cbn [num].
      replace (v + 1 + Z.of_nat 1) with (v + 2) by lia. lia.
    + change (2 =? 1) with false. cbn iota. exists 2%nat. split_and!; try done; lia.
  - destruct fuel as [|fuel]; [lia|]. cbn [skip_v]. erewrite kbind_of_ret by (by apply ld_run).
    destruct (Z.eqb_spec (dg m (v + 1)) 0) as [E|E].
    + replace (_ - 1 =? 1) with false by (symmetry; apply Z.eqb_neq; lia).
      replace (Z.of_nat (S (S (S k))) - 1) with (Z.of_nat (S (S k))) by lia.
      destruct (IH fuel (v + 1)) as (v' & n' & Hrun & Hres); [lia|intros j Hj; apply Hd; lia|].
      exists v', n'. split; [done|]. rewrite (zero_head m v (S (S k))) by done. destruct (n' =? 1).
      * destruct Hres as [-> ?]. split; [lia|done].
      * destruct Hres as (n & ? & ? & ? & ? & ?). exists n. split_and!; try done; lia.
    + eexists _, _. split; [done|]. destruct (Z.eqb_spec (Z.of_nat (S (S (S k)))) 1); [lia|]. exists (S (S (S k))). split_and!; try done; lia.
Qed.

Lemma skip_u_run m k : ∀ fuel u c, (k ≤ fuel)%nat → digs m u (S k) → 0 < num m u (S k) →
  ∃ N, (1 ≤ N ≤ S k)%nat ∧ let u' := u + Z.of_nat (S k - N) in
    skip_u fuel u c m = RRet (u', c - Z.of_nat (S k - N)) m ∧ num m u' N = num m u (S k) ∧ dg m (u' + 1) ≠ 0 ∧
    ∀ j, u < j ≤ u' → m !! j = Some 0.
Proof.
  induction k as [|k IH]; intros fuel u c Hf Hd Hpos; (assert (D1 : digit m (u + 1)) by (apply Hd; lia)).
  - cbn [num] in Hpos. change (Z.of_nat 1) with 1 in Hpos. exists 1%nat. split; [lia|]. cbv zeta. change (Z.of_nat (1 - 1)) with 0. rewrite !Z.add_0_r, Z.sub_0_r.
    split_and!; [|done|lia|intros; lia]. destruct fuel; cbn [skip_u]; erewrite kbind_of_ret by (by apply ld_run);
      (destruct (Z.eqb_spec (dg m (u + 1)) 0); [lia|done]).
  - destruct fuel as [|fuel]; [lia|]. cbn [skip_u]. erewrite kbind_of_ret by (by apply ld_run).
    destruct (Z.eqb_spec (dg m (u + 1)) 0) as [E|E].
    + rewrite (zero_head m u (S k)) in * by done.
      destruct (IH fuel (u + 1) (c - 1)) as (N & HN & Hrun & Hnum & Hne & Hz); [lia|intros j Hj; apply Hd; lia|done|].
      exists N. split; [lia|]. cbv zeta in *. replace (u + Z.of_nat (S (S k) - N)) with (u + 1 + Z.of_nat (S k - N)) by lia.
      replace (c - Z.of_nat (S (S k) - N)) with (c - 1 - Z.of_nat (S k - N)) by lia. split_and!; try done.
      intros j Hj. destruct (decide (j = u + 1)) as [->|]; [|apply Hz; lia].
      destruct D1 as (x & Hx & _). rewrite Hx. f_equal. by rewrite (dg_Some _ _ _ Hx) in E.
    + exists (S (S k)). split; [lia|]. rewrite Nat.sub_diag. cbv zeta. rewrite !Z.add_0_r, Z.sub_0_r.
      split_and!; try done. intros; lia.
Qed.

Lemma clear_q_run k : ∀ q m, room (q - 1) k →
  ∃ m', clear_q k q m = RRet tt m' ∧ frame (q - 1) k m m' ∧ ∀ j, q ≤ j < q + Z.of_nat k → m' !! j = Some 0.
Proof.
  induction k as [|k IH]; intros q m Hr; [exists m; split_and!; [done..|lia]|]. cbn [clear_q].
  erewrite kbind_of_ret by (apply st_run, Hr; lia). destruct (IH q (<[q + Z.of_nat k := 0]> m)) as (m' & Hrun & Hf & Hz).
  { intros j Hj. apply Hr. lia. }
  exists m'. split_and!; [done| |].
  - intros j Hj. rewrite Hf by lia. apply lookup_insert_ne. lia.
  - intros j Hj. destruct (decide (j = q + Z.of_nat k)) as [->|]; [|apply Hz; lia]. rewrite Hf by lia. apply lookup_insert_eq.
Qed.

Lemma norm_shift_run m fuel : ∀ t d, 1 ≤ t < B → B / 2 ≤ t * 2 ^ Z.of_nat fuel →
  ∃ e, norm_shift fuel t d m = RRet (d + e) m ∧ 0 ≤ e ≤ Z.of_nat fuel ∧ B / 2 ≤ t * 2 ^ e < B.
Proof.
  assert (HB : B = 65536) by done. assert (Hh : B / 2 = 32768) by done.
  induction fuel as [|fuel IH]; intros t d Ht Hf; cbn [norm_shift]; destruct (Z.ltb_spec t (B / 2)).
  - simpl in Hf. lia.
  - exists 0. rewrite Z.add_0_r. split_and!; try done; lia.
  - rewrite Z.shiftl_mul_pow2, u32_small by lia. destruct (IH (t * 2 ^ 1) (d + 1)) as (e & Hrun & He & Hb).
    + lia.
    + rewrite Nat2Z.inj_succ, Z.pow_succ_r in Hf by lia. lia.
    + exists (e + 1). rewrite Z.pow_add_r by lia. split_and!; [|lia..]. rewrite Hrun. f_equal. lia.
  - exists 0. rewrite Z.add_0_r. split_and!; try done; lia.
Qed.

(** * The two divisions *)

Definition answer (arq : bool) (U V : Z) : Z * option Z := (U / V, if arq then Some (U `mod` V) else None).

(** A remainder and the next digit. *)
Lemma next_digit r x t : 0 < t < B → 0 ≤ r < t → 0 ≤ x < B →
  ∃ q r', COMBINE r x / t = q ∧ COMBINE r x `mod` t = r' ∧ r * B + x = t * q + r' ∧ 0 ≤ q < B ∧ 0 ≤ r' < t.
Proof.
  intros Ht Hr Hx. rewrite COMBINE_eq by lia. eexists _, _. split; [done|]. split; [done|].
  split; [apply Z.div_mod; lia|]. split; [|apply Z.mod_pos_bound; lia].
  split; [apply Z.div_pos; nia|apply Z.div_lt_upper_bound; nia].
Qed.

Lemma short_div_run u v arq m : digs m u 4 → digit m (v + 2) → 0 < dg m (v + 2) →
  short_div u v arq m = RRet (answer arq (num m u 4) (dg m (v + 2))) m.
Proof.
  intros Hd Dv Hpos. assert (R : ∀ i, 1 ≤ i ≤ 4 → digit m (u + i)) by (intros i Hi; apply Hd; lia). unfold short_div.
  pose proof (dg_range _ _ Dv) as Ht. erewrite kbind_of_ret by (by apply ld_run).
  do 4 (erewrite kbind_of_ret by (apply ld_run, R; lia)).
  change (num m u 4) with ((((0 * B + dg m (u + 1)) * B + dg m (u + 2)) * B + dg m (u + 3)) * B + dg m (u + 4)).
  pose proof (λ i Hi, dg_range _ _ (R i Hi)) as G. pose proof (G 1 ltac:(lia)). pose proof (G 2 ltac:(lia)) as G2.
  pose proof (G 3 ltac:(lia)) as G3. pose proof (G 4 ltac:(lia)) as G4. set (t := dg m (v + 2)) in *.
  destruct (Z.eqb_spec t 0); [lia|]. cbv zeta.
  pose proof (Z.div_mod (dg m (u + 1)) t ltac:(lia)) as E1. pose proof (Z.mod_pos_bound (dg m (u + 1)) t ltac:(lia)) as B1.
  assert (Q1 : 0 ≤ dg m (u + 1) / t < B) by (split; [apply Z.div_pos; lia|apply Z.div_lt_upper_bound; nia]).
  revert E1 B1 Q1. generalize (dg m (u + 1) / t) (dg m (u + 1) `mod` t). intros q1 r1 E1 B1 Q1.
  destruct (next_digit r1 _ t ltac:(lia) B1 G2) as (q2 & r2 & -> & -> & E2 & Q2 & B2).
  destruct (next_digit r2 _ t ltac:(lia) B2 G3) as (q3 & r3 & -> & -> & E3 & Q3 & B3).
  destruct (next_digit r3 _ t ltac:(lia) B3 G4) as (q4 & r4 & -> & -> & E4 & Q4 & B4).
  rewrite !COMBINE_eq by done. assert (HB : B = 65536) by done. rewrite uu_q_eq by lia. unfold kret, answer. f_equal.
  set (U := (_ + dg m (u + 4))). assert (EU : U = t * ((q1 * B + q2) * 2 ^ 32 + (q3 * B + q4)) + r4) by (unfold U; rewrite HB in *; lia).
  rewrite <- (Z.div_unique U t _ r4 (or_introl B4) EU). by rewrite <- (Z.mod_unique U t _ r4 (or_introl B4) EU).
Qed.

Lemma normalise_run u v (N n : nat) d m :
  digs m (u - 1) (S N) → room (u - 1) (S N) → digs m v (S n) → room v (S n) → apart (u - 1) (S N) v (S n) →
  dg m u = 0 → 0 ≤ d ≤ 16 → dg m (v + 1) * 2 ^ d < B →
  ∃ m', (if 0 <? d then shl u N d ;;; shl (v + 1) n d else kret tt) m = RRet tt m' ∧
    digs m' (u - 1) (S N) ∧ digs m' v (S n) ∧ num m' (u - 1) (S N) = num m (u - 1) (S N) * 2 ^ d ∧
    num m' v (S n) = num m v (S n) * 2 ^ d ∧
    ∀ k, ¬ (u - 1 < k ≤ u + Z.of_nat N) → ¬ (v < k ≤ v + Z.of_nat (S n)) → m' !! k = m !! k.
Proof.
  intros Hu Hru Hv Hrv Ha Hu0 Hd Hv1. unfold apart in Ha. destruct (Z.ltb_spec 0 d) as [Hlt|Hge].
  2:{ assert (d = 0) as -> by lia. exists m. rewrite !Z.mul_1_r. by split_and!. }
  destruct (shl_run N d Hd u m Hu Hru) as (m1 & Hrun1 & Hd1 & Hf1 & E1).
  assert (Ev : ∀ k, v < k ≤ v + Z.of_nat (S n) → m1 !! k = m !! k) by (intros k Hk; apply Hf1; lia).
  destruct (shl_run n d Hd (v + 1) m1) as (m2 & Hrun2 & Hd2 & Hf2 & E2);
    replace (v + 1 - 1) with v in * by lia; [by eapply digs_ext|done|].
  erewrite kbind_of_ret by exact Hrun1. exists m2. destruct (pow_split d Hd) as (EB & H1 & H2).
  assert (Eu : ∀ k, u - 1 < k ≤ u - 1 + Z.of_nat (S N) → m2 !! k = m1 !! k) by (intros k Hk; apply Hf2; lia).
  pose proof (dg_range m (v + 1) ltac:(apply Hv; lia)).
  rewrite (dg_ext m m1 (v + 1)), (num_ext m m1 v) in E2 by first [done|apply Ev; lia].
  rewrite Hu0, Z.div_0_l in E1 by lia. rewrite (Z.div_small (dg m (v + 1))) in E2 by nia.
  split_and!; [done|by eapply digs_ext|done| | |].
  - rewrite (num_ext m1 m2) by done. lia.
  - lia.
  - intros k Hk1 Hk2. rewrite Hf2 by lia. apply Hf1. lia.
Qed.

Lemma denormalise_run p n d R m :
  digs m (p - 1) (S n) → room (p - 1) (S n) → m !! p = Some 0 → 0 ≤ d ≤ 16 → num m p n = R * 2 ^ d →
  ∃ m', (if negb (d =? 0) then unshift n p d ;;; st p 0 else kret tt) m = RRet tt m' ∧
    m' !! p = Some 0 ∧ digs m' p n ∧ num m' p n = R ∧ frame (p - 1) (S n) m m'.
Proof.
  intros Hd Hr Hp Hdd HR. destruct (Z.eqb_spec d 0) as [->|Hne]; cbn [negb].
  - exists m. rewrite Z.mul_1_r in HR. split_and!; try done. intros k Hk. apply Hd. lia.
  - destruct (unshift_run d Hdd n p m) as (m1 & Hrun & Hd1 & Hf1 & E); [done|intros k Hk; apply Hr; lia|].
    erewrite kbind_of_ret by exact Hrun. eexists. split; [apply st_run, Hr; lia|]. destruct (pow_split d Hdd) as (_ & H1 & _).
    rewrite (dg_Some m p 0), Z.mod_0_l, HR in E by first [done|lia].
    pose proof (Z.mod_pos_bound (dg m (p + Z.of_nat n)) (2 ^ d) H1). split_and!.
    + apply lookup_insert_eq.
    + apply insert_outside; [lia|done].
    + rewrite num_insert_ne by lia. nia.
    + intros k Hk. rewrite lookup_insert_ne by lia. apply Hf1. lia.
Qed.

(** Division is not changed by the shift. *)
Lemma div_shifted U V d : 0 < V → 0 ≤ d → U * 2 ^ d / (V * 2 ^ d) = U / V ∧ (U * 2 ^ d) `mod` (V * 2 ^ d) = U `mod` V * 2 ^ d.
Proof.
  intros HV Hd. assert (0 < 2 ^ d) by (apply Z.pow_pos_nonneg; lia).
  split; [by rewrite Z.div_mul_cancel_r by lia|by rewrite Z.mul_mod_distr_r by lia].
Qed.

Lemma in_space b k : b = uspace ∨ b = vspace ∨ b = qspace → b ≤ k ≤ b + 4 → mapped k = true.
Proof.
  intros Hb Hk. assert (∃ i, 0 ≤ i ≤ 4 ∧ k = b + i) as (i & Hi & ->) by (exists (k - b); lia).
  assert (i = 0 ∨ i = 1 ∨ i = 2 ∨ i = 3 ∨ i = 4) as Ei by lia.
  destruct Hb as [->|[->| ->]]; destruct Ei as [->|[->|[->|[->| ->]]]]; done.
Qed.

Lemma pow_nat (a b : nat) : B ^ Z.of_nat (a + b) = B ^ Z.of_nat a * B ^ Z.of_nat b.
Proof. rewrite Nat2Z.inj_add, Z.pow_add_r by lia. done. Qed.

(** The numbers are in place for the loop. *)
Lemma ready_intro n' more U V d m : let n := S (S n') in let u := 4 - Z.of_nat (n + more) in let v := vspace + 4 - Z.of_nat n in
  (n + more ≤ 4)%nat → digs m (u - 1) (S n + more) → digs m v n → 0 ≤ d →
  num m (u - 1) (S n + more) = U * 2 ^ d → num m v n = V * 2 ^ d →
  U < B ^ Z.of_nat (n + more) → B ^ Z.of_nat (S n') ≤ V → B / 2 * B ^ Z.of_nat (S n') ≤ V * 2 ^ d →
  ready n' v (V * 2 ^ d) more u (qspace + 4 - Z.of_nat more) m.
Proof.
  intros n u v HN Hu Hv Hd EU EV HU HV Htop. unfold vspace, qspace in *. assert (0 < 2 ^ d) by (apply Z.pow_pos_nonneg; lia).
  assert (HP : ∀ k, 0 < B ^ Z.of_nat k) by (intros k; apply Z.pow_pos_nonneg; [done|lia]).
  split; try done; try (unfold apart; fold n; lia).
  - intros k Hk. apply (in_space uspace); [by left|]. fold n in Hk. unfold uspace. lia.
  - intros k Hk. apply (in_space qspace); [by right; right|]. unfold qspace. lia.
  - fold n in Hv. unfold n in EV. rewrite num_high in EV.
    pose proof (num_bound m (v + 1) (S n') ltac:(intros k Hk; apply Hv; lia)).
    apply Z.lt_succ_r, (Z.mul_lt_mono_pos_r (B ^ Z.of_nat (S n'))); [apply HP|]. rewrite Z.mul_succ_l. lia.
  - fold n. replace (S n + more)%nat with (n + S more)%nat in * by lia. rewrite num_app in EU.
    pose proof (num_bound m (u - 1 + Z.of_nat n) (S more) ltac:(intros k Hk; apply Hu; lia)).
    replace (n + more)%nat with (S n' + S more)%nat in HU by lia. rewrite pow_nat in HU.
    apply (Z.mul_lt_mono_pos_r (B ^ Z.of_nat (S more))); [apply HP|]. pose proof (HP (S more)).
    apply Z.le_lt_trans with (U * 2 ^ d); [lia|]. apply Z.lt_le_trans with (B ^ Z.of_nat (S n') * B ^ Z.of_nat (S more) * 2 ^ d); [nia|].
    replace (V * 2 ^ d * B ^ Z.of_nat (S more)) with (V * B ^ Z.of_nat (S more) * 2 ^ d) by ring. repeat apply Z.mul_le_mono_nonneg_r; lia.
Qed.

(** The quotient and the remainder, with the zeros in front of them. *)
Lemma quotient_digits more m Q : (more ≤ 3)%nat → (∀ j, qspace ≤ j < qspace + 4 - Z.of_nat more → m !! j = Some 0) →
  digs m (qspace + 4 - Z.of_nat more - 1) (S more) → num m (qspace + 4 - Z.of_nat more - 1) (S more) = Q →
  digs m qspace 4 ∧ num m qspace 4 = Q.
Proof.
  intros Hm Hz Hd <-. destruct (num_zeros m qspace (3 - more) (S more)) as [E D]; [intros k Hk; apply Hz; lia|].
  replace (3 - more + S more)%nat with 4%nat in * by lia.
  replace (qspace + Z.of_nat (3 - more)) with (qspace + 4 - Z.of_nat more - 1) in * by lia. auto.
Qed.

Lemma remainder_digits (n : nat) m R : (n ≤ 4)%nat → (∀ j, 0 ≤ j ≤ 4 - Z.of_nat n → m !! j = Some 0) →
  digs m (4 - Z.of_nat n) n → num m (4 - Z.of_nat n) n = R → digs m uspace 4 ∧ num m uspace 4 = R.
Proof.
  intros Hm Hz Hd <-. destruct (num_zeros m uspace (4 - n) n) as [E D]; [intros k Hk; apply Hz; unfold uspace in *; lia|].
  replace (4 - n + n)%nat with 4%nat in * by lia.
  replace (uspace + Z.of_nat (4 - n)) with (4 - Z.of_nat n) in * by (unfold uspace; lia). auto.
Qed.

(** What is left to do after the loop. *)
Lemma finish_run n' more U V d arq m0 m : let n := S (S n') in let u := 4 - Z.of_nat (n + more) in
  (n + more ≤ 4)%nat → 0 < V → 0 ≤ d ≤ 16 → (∀ j, 0 ≤ j < u → m0 !! j = Some 0) →
  (∀ j, qspace ≤ j < qspace + 4 - Z.of_nat more → m0 !! j = Some 0) → num m0 (u - 1) (S n + more) = U * 2 ^ d →
  divided n' (V * 2 ^ d) more u (qspace + 4 - Z.of_nat more) m0 m →
  ∃ m', finish_div n (u + Z.of_nat more) d arq m = RRet (answer arq U V) m'.
Proof.
  intros n u HN HV Hd Hz Hzq EU (Hq & Enq & Hr & Enr & Hu0 & Hf). fold n in Enq, Enr, Hf. rewrite EU in Enq, Enr.
  destruct (div_shifted U V d HV (proj1 Hd)) as [Ed Em]. rewrite Ed in Enq. rewrite Em in Enr. fold n in Hr. unfold qspace in *.
  assert (Hz' : ∀ j, 0 ≤ j ≤ u + Z.of_nat more → m !! j = Some 0).
  { intros j Hj. destruct (decide (u ≤ j)); [apply Hu0; lia|]. rewrite Hf by lia. apply Hz. lia. }
  assert (Eu : u + Z.of_nat more = 4 - Z.of_nat n) by lia.
  destruct (quotient_digits more m (U / V)) as [Dq Eq]; [lia|intros j Hj; rewrite Hf by (unfold qspace in *; lia); by apply Hzq|done..|].
  unfold finish_div. destruct arq.
  - destruct (denormalise_run (u + Z.of_nat more) n d (U `mod` V) m) as (m1 & Hrun & H0 & Hd1 & E1 & Hf1); try done.
    + intros k Hk. destruct (decide (k = u + Z.of_nat more)) as [->|]; [exists 0; split; [apply Hz'; lia|done]|apply Hr; lia].
    + intros k Hk. apply (in_space uspace); [by left|unfold uspace; lia].
    + apply Hz'. lia.
    + rewrite Eu in *. destruct (remainder_digits n m1 (U `mod` V)) as [Dr Er]; [lia| |done..|].
      { intros j Hj. destruct (decide (j = 4 - Z.of_nat n)) as [->|]; [done|]. rewrite Hf1 by lia. apply Hz'. lia. }
      assert (Eqm : ∀ k, qspace < k ≤ qspace + Z.of_nat 4 → m1 !! k = m !! k) by (intros k Hk; apply Hf1; unfold qspace in Hk; lia).
      exists m1. erewrite (kbind_of_ret _ _ _ (Some (U `mod` V)) m1).
      2:{ erewrite kbind_of_ret by exact Hrun. erewrite kbind_of_ret by (by apply join_quad_run). by rewrite Er. }
      erewrite kbind_of_ret by (apply join_quad_run; by eapply digs_ext). rewrite (num_ext m m1) by done. by rewrite Eq.
  - exists m. erewrite kbind_of_ret by done. erewrite kbind_of_ret by (by apply join_quad_run). by rewrite Eq.
Qed.

(** The divisor has at most as many digits as the dividend. *)
Lemma fewer_digits m p (N n' : nat) V : digs m p N → B ^ Z.of_nat (S n') ≤ V → V ≤ num m p N → (S (S n') ≤ N)%nat.
Proof.
  intros Hd HV HU. destruct (num_bound _ _ _ Hd) as [_ Hlt]. assert (Hl : B ^ Z.of_nat (S n') < B ^ Z.of_nat N) by lia.
  apply Z.pow_lt_mono_r_iff in Hl; [lia|done|lia].
Qed.

(** The shifts of step D1 bring the numbers in place for the loop. *)
Lemma prepare_run n' more U V d m : let n := S (S n') in let u := 4 - Z.of_nat (n + more) in let v := vspace + 4 - Z.of_nat n in
  (n + more ≤ 4)%nat → digs m u (n + more) → m !! u = Some 0 → num m u (n + more) = U → digs m v n → num m v n = V →
  B ^ Z.of_nat (S n') ≤ V → 0 ≤ d ≤ 16 → B / 2 ≤ dg m (v + 1) * 2 ^ d < B →
  ∃ m', (if 0 <? d then shl u (n + more) d ;;; shl (v + 1) (S n') d else kret tt) m = RRet tt m' ∧
    ready n' v (V * 2 ^ d) more u (qspace + 4 - Z.of_nat more) m' ∧ num m' (u - 1) (S n + more) = U * 2 ^ d ∧
    ∀ k, ¬ (u - 1 < k ≤ 4) → ¬ (v < k ≤ v + Z.of_nat n) → m' !! k = m !! k.
Proof.
  intros n u v HN Hu Hz EU Hv EV HV Hd Hnorm.
  destruct (normalise_run u v (n + more) (S n') d m) as (m' & Hrun & Du & Dv & Eu & Ev & Hf); try (change (S (S n')) with n); try lia.
  - intros k Hk. destruct (decide (k = u)) as [->|]; [by exists 0|apply Hu; lia].
  - intros k Hk. apply (in_space uspace); [by left|unfold uspace; lia].
  - done.
  - intros k Hk. apply (in_space vspace); [by right; left|unfold vspace in *; lia].
  - unfold apart, vspace in *. lia.
  - by apply dg_Some.
  - change (S (S n')) with n in Dv, Ev, Hf. rewrite EV in Ev.
    rewrite (num_high m), (Z.sub_add 1 u), (dg_Some m u 0), EU, Z.mul_0_l, Z.add_0_l in Eu by done.
    exists m'. split_and!; [done| |done|intros k Hk1 Hk2; apply Hf; lia]. apply (ready_intro n' more U V d m'); try done; try lia.
    + rewrite <- EU. by apply num_bound.
    + pose proof EV as EV'. unfold n in EV'. rewrite num_high in EV'.
      pose proof (num_bound m (v + 1) (S n') ltac:(intros k Hk; apply Hv; lia)).
      assert (0 < 2 ^ d) by (apply Z.pow_pos_nonneg; lia). nia.
Qed.

Lemma long_div_run n' m arq U V : let n := S (S n') in let v := vspace + 4 - Z.of_nat n in (n' ≤ 2)%nat →
  m !! uspace = Some 0 → digs m uspace 4 → num m uspace 4 = U → digs m v n → num m v n = V → dg m (v + 1) ≠ 0 → V ≤ U →
  ∃ m', long_div v (Z.of_nat n) arq m = RRet (answer arq U V) m'.
Proof.
  intros n v Hn H0 Hu EU Hv EV Hv1 HVU. pose proof (dg_range m (v + 1) ltac:(apply Hv; lia)) as Rv1.
  assert (HP : 0 < B ^ Z.of_nat (S n')) by (apply Z.pow_pos_nonneg; [done|lia]).
  pose proof EV as EV'. unfold n in EV'. rewrite num_high in EV'.
  pose proof (num_bound m (v + 1) (S n') ltac:(intros k Hk; apply Hv; lia)) as Hlow.
  assert (HV : B ^ Z.of_nat (S n') ≤ V) by nia.
  destruct (skip_u_run m 3 4 uspace (4 - Z.of_nat n)) as (N & HN & Hrun & EN & _ & Hz); [lia|done|lia|].
  assert (HnN : (n ≤ N)%nat). { eapply (fewer_digits m); [|exact HV|rewrite EN; lia]. intros k Hk. apply Hu. lia. }
  assert (∃ more, N = n + more)%nat as (more & ->) by (exists (N - n)%nat; lia). rewrite EU in EN.
  set (u := 4 - Z.of_nat (n + more)). replace (uspace + Z.of_nat (4 - (n + more))) with u in * by (unfold uspace; lia).
  replace (4 - Z.of_nat n - Z.of_nat (4 - (n + more))) with (Z.of_nat more) in Hrun by lia.
  assert (Hzu : ∀ j, 0 ≤ j ≤ u → m !! j = Some 0).
  { intros j Hj. destruct (decide (j = 0)) as [->|]; [done|apply Hz; unfold uspace; lia]. }
  unfold long_div. erewrite kbind_of_ret by exact Hrun. cbn iota beta.
  destruct (clear_q_run (Z.to_nat (4 - Z.of_nat more)) qspace m) as (m1 & Hrun1 & Hf1 & Hz1).
  { intros k Hk. apply (in_space qspace); [by right; right|lia]. }
  erewrite kbind_of_ret by exact Hrun1. cbv zeta. unfold uspace, vspace in *.
  assert (Hm1 : ∀ k, k < 16 → m1 !! k = m !! k) by (intros k Hk; apply Hf1; unfold qspace; lia).
  erewrite kbind_of_ret by (apply ld_run; eapply digit_ext; [apply Hm1; lia|apply Hv; lia]). rewrite (dg_ext m m1) by (apply Hm1; lia).
  destruct (norm_shift_run m1 16 (dg m (v + 1)) 0) as (d & Hrun2 & Hd & Hnorm); [lia|change (B / 2) with 32768; lia|].
  erewrite kbind_of_ret by exact Hrun2. rewrite Z.add_0_l.
  destruct (prepare_run n' more U V d m1) as (m2 & Hrun3 & HR & EU2 & Hf2); try done; unfold vspace in *;
    try (rewrite ?(num_ext m m1), ?(dg_ext m m1), ?Hm1 by first [lia|apply Hm1; lia|intros; apply Hm1; lia]; done || apply Hzu; lia).
  { lia. }
  { intros k Hk. eapply digit_ext; [apply Hm1; lia|apply Hu; lia]. }
  { intros k Hk. eapply digit_ext; [apply Hm1; lia|apply Hv; lia]. }
  fold n u v in Hrun3, HR, EU2, Hf2. replace (Z.to_nat (Z.of_nat more + Z.of_nat n)) with (n + more)%nat by lia.
  replace (Z.to_nat (Z.of_nat n - 1)) with (S n') by lia. erewrite kbind_of_ret by exact Hrun3.
  do 2 (erewrite kbind_of_ret by (apply ld_run, (rd_v _ _ _ _ _ _ _ HR); lia)). rewrite !Nat2Z.id.
  destruct (div_loop_run _ _ _ _ _ _ _ HR) as (m3 & Hrun4 & Hdiv).
  replace (qspace + (4 - Z.of_nat more)) with (qspace + 4 - Z.of_nat more) by lia. erewrite kbind_of_ret by exact Hrun4.
  eapply (finish_run n' more U V d arq m2 m3); try done; try lia; intros j Hj; unfold qspace in *; rewrite Hf2 by lia.
  - rewrite Hm1 by lia. apply Hzu. lia.
  - apply Hz1. lia.
Qed.

Lemma qdivrem_run uq vq arq : 0 ≤ uq < 2 ^ 64 → 0 < vq < 2 ^ 64 →
  result (__qdivrem uq vq arq) = Some (answer arq uq vq).
Proof.
  intros Hu Hv. unfold __qdivrem, qdivrem. destruct (Z.eqb_spec vq 0); [lia|]. destruct (Z.ltb_spec uq vq) as [Hlt|Hge].
  { unfold answer. by rewrite Z.div_small, Z.mod_small by lia. }
  erewrite kbind_of_ret by (by apply st_run). set (m0 := <[uspace := 0]> (∅ : digits)).
  destruct (split_quad_run uspace uq m0) as (m1 & Hrun1 & Du & Eu & Hf1); [lia|intros k Hk; apply (in_space uspace); [by left|lia]|].
  erewrite kbind_of_ret by exact Hrun1.
  destruct (split_quad_run vspace vq m1) as (m & Hrun2 & Dv & Ev & Hf2); [lia|intros k Hk; apply (in_space vspace); [by right; left|lia]|].
  erewrite kbind_of_ret by exact Hrun2. unfold uspace, vspace in *.
  assert (Hm : ∀ k, k ≤ 4 → m !! k = m1 !! k) by (intros k Hk; apply Hf2; lia).
  assert (Du' : digs m 0 4) by (eapply digs_ext; [|done]; intros k Hk; apply Hm; lia).
  assert (Eu' : num m 0 4 = uq) by (rewrite (num_ext m1 m) by (intros k Hk; apply Hm; lia); done).
  assert (Hz : m !! 0 = Some 0) by (rewrite Hm, Hf1 by lia; apply lookup_insert_eq).
  destruct (skip_v_run m 2 4 8 ltac:(lia) Dv) as (v & c & Hrun3 & Hres). change (Z.of_nat 4) with 4 in *.
  erewrite kbind_of_ret by exact Hrun3. cbn iota beta. destruct (c =? 1).
  - destruct Hres as [-> Et]. rewrite Ev in Et. rewrite short_div_run, Et; [by rewrite Eu'|done|apply Dv; lia|lia].
  - destruct Hres as (k & Hk & -> & Ek & Hne & Enum). assert (∃ n', k = S (S n')) as (n' & ->) by (exists (k - 2)%nat; lia).
    assert (v = 8 + 4 - Z.of_nat (S (S n'))) as -> by lia.
    destruct (long_div_run n' m arq uq vq) as (m' & Hrun4); try done; try lia; unfold vspace, uspace in *.
    + intros j Hj. apply Dv. lia.
    + congruence.
    + by rewrite Hrun4.
Qed.

Lemma u64_neg x : - 2 ^ 63 ≤ x < 0 → u64 (- u64 x) = - x.
Proof.
  intros Hx. unfold u64. rewrite <- (Z.mod_add x 1), (Z.mod_small (x + _)) by lia.
  replace (- (x + 1 * 2 ^ 64)) with (- x + -1 * 2 ^ 64) by lia. rewrite Z.mod_add, Z.mod_small by lia. done.
Qed.

Lemma i64_u64 x : i64 (u64 x) = i64 x.
Proof.
  unfold i64, u64. f_equal. apply Z.add_mod_idemp_l. lia.
Qed.

(** The signed division: of the absolute values, with the sign of the quotient. *)
Lemma divdi3_run a b : - 2 ^ 63 ≤ a < 2 ^ 63 → - 2 ^ 63 ≤ b < 2 ^ 63 → b ≠ 0 → __divdi3 a b = Some (i64 (a `quot` b)).
Proof.
  intros Ha Hb Hne. unfold __divdi3.
  assert (Hd : ∀ x y, 0 ≤ x ≤ 2 ^ 63 → 0 < y ≤ 2 ^ 63 → result (__qdivrem x y false) = Some (x `quot` y, None)).
  { intros x y Hx Hy. rewrite qdivrem_run by lia. unfold answer. by rewrite Z.quot_div_nonneg by lia. }
  destruct (Z.ltb_spec a 0), (Z.ltb_spec b 0); rewrite ?u64_neg by lia; rewrite Hd by lia; cbn [mbind option_bind negb];
    rewrite ?i64_u64, ?Z.quot_opp_l, ?Z.quot_opp_r, ?Z.opp_involutive by lia; done.
Qed.

Lemma i64_range x : - 2 ^ 63 ≤ i64 x < 2 ^ 63.
Proof. unfold i64. pose proof (Z.mod_pos_bound (x + 2 ^ 63) (2 ^ 64)). lia. Qed.
Lemma i64_nonzero x : 0 < x < 2 ^ 64 → i64 x ≠ 0.
Proof. intros Hx E. unfold i64 in E. pose proof (Z.div_mod (x + 2 ^ 63) (2 ^ 64)). lia. Qed.

(** * Theorems *)

(** C15. The 64-bit division of the C support library, done in digits of 16 bits, is
    the division of the integers for a divisor other than 0: __udivdi3 and __umoddi3
    give the quotient and the remainder, __divdi3 the quotient of the words read as signed numbers, rounded
    towards zero and wrapped.  No digit outside the arrays and none that was not
    written is used. *)
Theorem quad_division_correct a b : 0 ≤ a < 2 ^ 64 → 0 < b < 2 ^ 64 →
  __udivdi3 a b = Some (a / b) ∧ __umoddi3 a b = Some (a `mod` b) ∧
  __divdi3 (i64 a) (i64 b) = Some (i64 (i64 a `quot` i64 b)).
Proof.
  intros Ha Hb. unfold __udivdi3, __umoddi3. rewrite !qdivrem_run by done. split_and!; [done..|].
  apply divdi3_run; [apply i64_range..|by apply i64_nonzero].
Qed.

Lemma quad_division_correct_witness : (0 ≤ 2 ^ 64 - 1 < 2 ^ 64 ∧ 0 < 2 ^ 48 - 1 < 2 ^ 64) ∧
  __udivdi3 (2 ^ 64 - 1) (2 ^ 48 - 1) = Some 65536.
Proof. split; [lia|]. rewrite (proj1 (quad_division_correct (2 ^ 64 - 1) (2 ^ 48 - 1) ltac:(lia) ltac:(lia))). reflexivity. Defined.

(** ** log2 *)

Lemma i32_double y : i32 (Z.shiftl (i32 y) 1) = i32 (y * 2).
Proof.
  rewrite Z.shiftl_mul_pow2 by done. unfold i32. f_equal. rewrite (Z.mod_eq (y + _)) by done.
  replace ((y + 2 ^ 31 - 2 ^ 32 * ((y + 2 ^ 31) / 2 ^ 32) - 2 ^ 31) * 2 ^ 1 + 2 ^ 31) with
    (y * 2 + 2 ^ 31 + (- 2 * ((y + 2 ^ 31) / 2 ^ 32)) * 2 ^ 32) by ring.
  by apply Z.mod_add.
Qed.

(** The loop after [k] rounds. *)
Lemma log2_loop_run fuel : ∀ x k, 0 ≤ x < 2 ^ Z.of_nat fuel → 0 ≤ k →
  let n := if x =? 0 then 0 else Z.log2 x + 1 in
  log2_loop fuel x (i32 (2 ^ k)) k = Some (i32 (2 ^ (k + n)), k + n).
Proof.
  induction fuel as [|fuel IH]; intros x k Hx Hk; cbn [log2_loop]; destruct (Z.eqb_spec x 0) as [->|Hne]; cbv zeta;
    try (by rewrite Z.add_0_r); [simpl in Hx; lia|].
  rewrite Z.shiftr_div_pow2 by done. assert (Ey : i32 (Z.shiftl (i32 (2 ^ k)) 1) = i32 (2 ^ (k + 1))).
  { rewrite i32_double. by rewrite Z.pow_add_r by lia. }
  rewrite Ey, (IH (x / 2 ^ 1) (k + 1)); [|rewrite Nat2Z.inj_succ, Z.pow_succ_r in Hx by lia; split; [apply Z.div_pos; lia|apply Z.div_lt_upper_bound; lia]|lia].
  cbv zeta. destruct (Z.eqb_spec (x / 2 ^ 1) 0) as [Ez|Ez].
  - assert (x = 1) as ->; [apply Z.div_small_iff in Ez; lia|]. change (Z.log2 1) with 0. by rewrite Z.add_0_r.
  - change (2 ^ 1) with 2 in *. assert (E2 : Z.log2 x = Z.log2 (x / 2) + 1).
    { pose proof (Z.log2_shiftr x 1 ltac:(lia)) as E. rewrite Z.shiftr_div_pow2 in E by done. change (2 ^ 1) with 2 in E.
      
      assert (x ≠ 1) by (by intros ->). assert (1 ≤ Z.log2 x) by (apply Z.log2_le_pow2; lia). lia. }
    rewrite E2. f_equal. f_equal; [do 2 f_equal|]; lia.
Qed.

Lemma log2_negative fuel : ∀ x y r, x < 0 → log2_loop fuel x y r = None.
Proof.
  induction fuel as [|fuel IH]; intros x y r Hx; cbn [log2_loop]; (destruct (Z.eqb_spec x 0); [lia|]); [done|].
  apply IH. by apply Z.shiftr_neg.
Qed.

Lemma log2_up_cases x : 0 < x → Z.log2_up x = if decide (x = 2 ^ Z.log2 x) then Z.log2 x else Z.log2 x + 1.
Proof.
  intros Hx. pose proof (Z.log2_spec x Hx) as [H1 H2]. pose proof (Z.log2_nonneg x). case_decide as E.
  - rewrite E at 1. by rewrite Z.log2_up_pow2.
  - apply Z.log2_up_unique; [lia|]. replace (Z.pred (Z.log2 x + 1)) with (Z.log2 x) by lia. lia.
Qed.

(** log2 returns the logarithm rounded up for every positive int but 2^30, for
    which the shift of y overflows and the result is one too large; it returns -1
    for 0 and does not return for a negative number, however long it runs. *)
Theorem log2_correct x : - 2 ^ 31 ≤ x < 2 ^ 31 →
  if decide (x < 0) then ∀ fuel, log2_loop fuel x 1 0 = None
  else log2 x = Some (if decide (x = 0) then -1 else if decide (x = 2 ^ 30) then Z.log2_up x + 1 else Z.log2_up x).
Proof.
  intros Hx. case_decide as Hneg; [intros fuel; by apply log2_negative|]. unfold log2.
  change (log2_loop 32 x 1 0) with (log2_loop 32 x (i32 (2 ^ 0)) 0). rewrite log2_loop_run by (simpl; lia). cbv zeta. cbn [mbind option_bind]. rewrite !Z.add_0_l.
  destruct (Z.eqb_spec x 0) as [->|Hne]; [done|]. rewrite (decide_False (P := x = 0)) by done.
  pose proof (Z.log2_nonneg x) as Hl. pose proof (Z.log2_spec x ltac:(lia)) as Hs.
  assert (Hl31 : Z.log2 x ≤ 30) by (apply Z.lt_succ_r, Z.log2_lt_pow2; lia). rewrite log2_up_cases by lia.
  destruct (decide (Z.log2 x = 30)) as [E|E].
  - rewrite E. change (Z.shiftr (i32 (2 ^ (30 + 1))) 1) with (- 2 ^ 30). destruct (Z.eqb_spec (- 2 ^ 30) x); [lia|]. by case_decide.
  - assert (0 < 2 ^ Z.log2 x ≤ 2 ^ 29) by (split; [apply Z.pow_pos_nonneg|apply Z.pow_le_mono_r]; lia).
    rewrite Z.pow_add_r, i32_small, Z.shiftr_div_pow2, Z.div_mul by lia. rewrite (decide_False (P := x = 2 ^ 30)).
    2:{ intros ->. by rewrite Z.log2_pow2 in E. }
    destruct (Z.eqb_spec (2 ^ Z.log2 x) x), (decide (x = 2 ^ Z.log2 x)); try done; f_equal; lia.
Qed.

Lemma log2_correct_witness : - 2 ^ 31 ≤ 2 ^ 30 < 2 ^ 31 ∧ log2 (2 ^ 30) = Some 31.
Proof. split; [lia|]. pose proof (log2_correct (2 ^ 30) ltac:(lia)) as E. cbn in E. exact E. Defined.
