(* ===== verification/KPrintf.v ===== *)
(** Formatted output and number parsing: kernel/util/printf.c with the character
    classes of kernel/include/ctype.h, and strtol of user/lib/libc/strtol.c.

    The format and the strings that are parsed are read only: a pointer into them
    is the list of the bytes up to the terminator.  The output buffer and the
    strings that %s prints are in the memory of KString.  The variable arguments
    are the words on the stack; a long long takes two of them, the low one first. *)

From Stdlib Require Import Ascii.
From stdpp Require Import base numbers list gmap strings.
From S2P Require Import Prelude KString KMath.

Open Scope Z_scope.

Definition ch (a : ascii) : Z := Z.of_N (N_of_ascii a).
Arguments ch a%_char : simpl never.
(** The byte a pointer points to, 0 at the end of the string. *)
Definition cur (s : list Z) : Z := default 0 (head s).
Definition text (s : string) : list Z := ch <$> String.list_ascii_of_string s.

(** * ctype.h *)

Definition _U : Z := 0x01.
Definition _L : Z := 0x02.
Definition _D : Z := 0x04.
Definition _C : Z := 0x08.
Definition _P : Z := 0x10.
Definition _S : Z := 0x20.
Definition _X : Z := 0x40.
Definition _SP : Z := 0x80.

Definition _ctype : list Z :=
  replicate 8 _C ++ [_C] ++ replicate 5 (Z.lor _C _S) ++ replicate 2 _C ++
  replicate 16 _C ++
  [Z.lor _S _SP] ++ replicate 15 _P ++
  replicate 10 _D ++ replicate 6 _P ++
  [_P] ++ replicate 6 (Z.lor _U _X) ++ replicate 20 _U ++ replicate 5 _P ++
  [_P] ++ replicate 6 (Z.lor _L _X) ++ replicate 20 _L ++ replicate 4 _P ++ [_C] ++
  replicate 32 0 ++
  [Z.lor _S _SP] ++ replicate 31 _P ++
  replicate 23 _U ++ [_P] ++ replicate 7 _U ++ [_L] ++
  replicate 23 _L ++ [_P] ++ replicate 8 _L.

Definition __ismask (c : Z) : Z := default 0 (_ctype !! Z.to_nat (u8 c)).
Definition isdigit (c : Z) : bool := negb (Z.land (__ismask c) _D =? 0).
Definition islower (c : Z) : bool := negb (Z.land (__ismask c) _L =? 0).
Definition isspace (c : Z) : bool := negb (Z.land (__ismask c) _S =? 0).
Definition isxdigit (c : Z) : bool := negb (Z.land (__ismask c) (Z.lor _D _X) =? 0).
Definition toupper (c : Z) : Z := if islower c then u8 (c - (ch "a" - ch "A")) else u8 c.

(** * Numbers from strings *)

(** The prefix that chooses the base. *)
Definition strto_base (cp : list Z) (base : Z) : list Z * Z :=
  if base =? 0 then
    if cur cp =? ch "0" then
      let cp := tail cp in
      if (cur cp =? ch "x") && isxdigit (cur (tail cp)) then (tail cp, 16) else (cp, 8)
    else (cp, 10)
  else (cp, base).

Definition digit_value (c : Z) : Z := if isdigit c then c - ch "0" else toupper c - ch "A" + 10.

(** The loop over the digits; [wrap] is the width of the result. *)
Fixpoint strto_loop (wrap : Z → Z) (cp : list Z) (base result : Z) : Z * list Z :=
  match cp with
  | [] => (result, [])
  | c :: cp' =>
      if isxdigit c && (digit_value c <? base) then strto_loop wrap cp' base (wrap (result * base + digit_value c))
      else (result, cp)
  end.

Definition simple_strtoul (cp : list Z) (base : Z) : Z * list Z :=
  let '(cp, base) := strto_base cp base in strto_loop u32 cp base 0.
Definition simple_strtol (cp : list Z) (base : Z) : Z * list Z :=
  if cur cp =? ch "-" then let '(r, next) := simple_strtoul (tail cp) base in (i32 (- r), next)
  else let '(r, next) := simple_strtoul cp base in (i32 r, next).
Definition simple_strtoull (cp : list Z) (base : Z) : Z * list Z :=
  let '(cp, base) := strto_base cp base in strto_loop u64 cp base 0.
Definition simple_strtoll (cp : list Z) (base : Z) : Z * list Z :=
  if cur cp =? ch "-" then let '(r, next) := simple_strtoull (tail cp) base in (i64 (- r), next)
  else let '(r, next) := simple_strtoull cp base in (i64 r, next).

Fixpoint skip_atoi (s : list Z) (i : Z) : Z * list Z :=
  match s with
  | [] => (i, [])
  | c :: s' => if isdigit c then skip_atoi s' (i32 (i * 10 + c - ch "0")) else (i, s)
  end.

(** ** strtol.c *)

Definition LONG_MAX : Z := 2 ^ 31 - 1.
Definition LONG_MIN : Z := - LONG_MAX - 1.
Definition ERANGE : Z := 34.

Fixpoint skip_space (s : list Z) : list Z :=
  match s with [] => [] | c :: s' => if isspace c then skip_space s' else s end.

Definition strtol_digit (c : Z) : option Z :=
  if (ch "0" <=? c) && (c <=? ch "9") then Some (c - ch "0")
  else if (ch "A" <=? c) && (c <=? ch "Z") then Some (c - (ch "A" - 10))
  else if (ch "a" <=? c) && (c <=? ch "z") then Some (c - (ch "a" - 10))
  else None.

(** [any] is 0 before the first digit, 1 after it, and -1 after an overflow. *)
Fixpoint strtol_loop (s : list Z) (base cutoff cutlim acc any : Z) : Z * Z * list Z :=
  match s with
  | [] => (acc, any, [])
  | c :: s' =>
      match strtol_digit (schar c) with
      | Some d =>
          if base <=? d then (acc, any, s)
          else if (any <? 0) || (cutoff <? acc) || ((acc =? cutoff) && (cutlim <? d))
          then strtol_loop s' base cutoff cutlim acc (-1)
          else strtol_loop s' base cutoff cutlim (u32 (acc * base + d)) 1
      | None => (acc, any, s)
      end
  end.

Definition is_hex (c : Z) : bool :=
  ((ch "0" <=? c) && (c <=? ch "9")) || ((ch "A" <=? c) && (c <=? ch "F")) || ((ch "a" <=? c) && (c <=? ch "f")).

(** 0x and a hexadecimal digit. *)
Definition hex_prefix (s : list Z) : bool :=
  (cur s =? ch "0") && ((cur (tail s) =? ch "x") || (cur (tail s) =? ch "X")) && is_hex (schar (cur (tail (tail s)))).

(** The sign, if there is one. *)
Definition strtol_sign (s : list Z) : bool * list Z :=
  if cur s =? ch "-" then (true, tail s) else (false, if cur s =? ch "+" then tail s else s).

(** The numeral after the sign: the value, the error number if one is set, and
    the end pointer. *)
Definition strtol_number (nptr : list Z) (neg : bool) (s : list Z) (base : Z) : Z * option Z * list Z :=
  let '(s, base) := if ((base =? 0) || (base =? 16)) && hex_prefix s then (tail (tail s), 16) else (s, base) in
  let base := if base =? 0 then (if cur s =? ch "0" then 8 else 10) else base in
  if (base <? 2) || (36 <? base) then (0, Some EINVAL, nptr)
  else
    let limit := if neg then u32 (- (LONG_MIN + LONG_MAX) + LONG_MAX) else LONG_MAX in
    let '(acc, any, rest) := strtol_loop s base (limit / base) (limit `mod` base) 0 0 in
    if any <? 0 then (if neg then LONG_MIN else LONG_MAX, Some ERANGE, rest)
    else if any =? 0 then (i32 acc, Some EINVAL, nptr)
    else (i32 (if neg then u32 (- acc) else acc), None, rest).

Definition strtol (nptr : list Z) (base : Z) : Z * option Z * list Z :=
  let '(neg, s) := strtol_sign (skip_space nptr) in strtol_number nptr neg s base.

(** * Numbers to strings *)

Definition ZEROPAD : Z := 1.
Definition SIGN : Z := 2.
Definition PLUS : Z := 4.
Definition SPACE : Z := 8.
Definition LEFT : Z := 16.
Definition SPECIAL : Z := 32.
Definition LARGE : Z := 64.
Definition has (type flag : Z) : bool := negb (Z.land type flag =? 0).

Definition small_digits : list Z := text "0123456789abcdefghijklmnopqrstuvwxyz".
Definition large_digits : list Z := text "0123456789ABCDEFGHIJKLMNOPQRSTUVWXYZ".

(** [if (buf <= end) *buf = c; ++buf;] *)
Definition put (e c buf : Z) : cM Z :=
  (if buf <=? e then stb buf c else kret tt) ;;; kret (u32 (buf + 1)).

(** The body of a counting loop, as often as it runs. *)
Fixpoint put_times (n : nat) (e c buf : Z) : cM Z :=
  match n with O => kret buf | S n => let* buf := put e c buf in put_times n e c buf end.

(** [while (size-- > 0) ...]: how often it runs, and [size] after it. *)
Definition runs (size : Z) : nat := Z.to_nat size.
Definition spent (size : Z) : Z := if 0 <=? size then -1 else i32 (size - 1).

(** The digits, the last one first; [tmp] has room for 66. *)
Fixpoint to_digits (fuel : nat) (digits : list Z) (num2 base2 : Z) (tmp : list Z) : cM (list Z) :=
  if num2 =? 0 then kret tmp
  else match fuel with
  | O => λ _, RFuel
  | S fuel =>
      (if bool_decide (length tmp < 66)%nat then kret tt else kfault "tmp") ;;;
      let* d := kderef (digits !! Z.to_nat (num2 `mod` base2)) "digits" in
      to_digits fuel digits (num2 / base2) base2 (tmp ++ [d])
  end.

(** [while (i-- > 0) put tmp[i]] *)
Fixpoint put_list (l : list Z) (e buf : Z) : cM Z :=
  match l with [] => kret buf | c :: l => let* buf := put e c buf in put_list l e buf end.

(** The sign character (0 for none), and what it leaves of the number and the field. *)
Definition number_sign (num size type : Z) : Z * Z * Z :=
  if has type SIGN then
    if num <? 0 then (ch "-", i64 (- num), i32 (size - 1))
    else if has type PLUS then (ch "+", num, i32 (size - 1))
    else if has type SPACE then (ch " ", num, i32 (size - 1))
    else (0, num, size)
  else (0, num, size).

Definition number (buf e num base size precision type : Z) : cM Z :=
  let digits := if has type LARGE then large_digits else small_digits in
  let type := if has type LEFT then Z.land type (Z.lnot ZEROPAD) else type in
  if (base <? 2) || (36 <? base) then kret buf
  else
    let c := if has type ZEROPAD then ch "0" else ch " " in
    let '(sign, num, size) := number_sign num size type in
    let size := if has type SPECIAL then
        if base =? 16 then i32 (size - 2) else if base =? 8 then i32 (size - 1) else size
      else size in
    let* tmp := (if num =? 0 then kret [ch "0"] else to_digits 64 digits (u64 num) base []) in
    let i := Z.of_nat (length tmp) in
    let precision := if precision <? i then i else precision in
    let size := i32 (size - precision) in
    let* buf := (if has type (ZEROPAD + LEFT) then kret buf else put_times (runs size) e (ch " ") buf) in
    let size := if has type (ZEROPAD + LEFT) then size else spent size in
    let* buf := (if sign =? 0 then kret buf else put e sign buf) in
    let* buf :=
      (if has type SPECIAL then
         if base =? 8 then put e (ch "0") buf
         else if base =? 16 then let* buf := put e (ch "0") buf in put e (default 0 (digits !! 33%nat)) buf
         else kret buf
       else kret buf) in
    let* buf := (if has type LEFT then kret buf else put_times (runs size) e c buf) in
    let size := if has type LEFT then size else spent size in
    let* buf := put_times (runs (precision - i)) e (ch "0") buf in
    let* buf := put_list (rev tmp) e buf in
    put_times (runs size) e (ch " ") buf.

(** * vsnprintf *)

(** [va_arg]: one word, as a signed value, or two. *)
Definition va_word (args : list Z) : option (Z * list Z) :=
  match args with w :: args => Some (u32 w, args) | [] => None end.
Definition va_int (args : list Z) : option (Z * list Z) :=
  '(w, args) ← va_word args; Some (i32 w, args).
Definition va_long_long (args : list Z) : option (Z * list Z) :=
  '(lo, args) ← va_word args; '(hi, args) ← va_word args; Some (lo + hi * 2 ^ 32, args).

(** The label [repeat]: the flag characters. *)
Fixpoint parse_flags (fmt : list Z) (flags : Z) : Z * list Z :=
  match fmt with
  | [] => (flags, [])
  | c :: fmt' =>
      if c =? ch "-" then parse_flags fmt' (Z.lor flags LEFT)
      else if c =? ch "+" then parse_flags fmt' (Z.lor flags PLUS)
      else if c =? ch " " then parse_flags fmt' (Z.lor flags SPACE)
      else if c =? ch "#" then parse_flags fmt' (Z.lor flags SPECIAL)
      else if c =? ch "0" then parse_flags fmt' (Z.lor flags ZEROPAD)
      else (flags, fmt)
  end.

(** The field width: it may set LEFT. *)
Definition parse_width (fmt : list Z) (flags : Z) (args : list Z) : option (Z * Z * list Z * list Z) :=
  if isdigit (cur fmt) then let '(w, fmt) := skip_atoi fmt 0 in Some (w, flags, fmt, args)
  else if cur fmt =? ch "*" then
    '(w, args) ← va_int args;
    Some (if w <? 0 then (i32 (- w), Z.lor flags LEFT, tail fmt, args) else (w, flags, tail fmt, args))
  else Some (-1, flags, fmt, args).

Definition parse_precision (fmt args : list Z) : option (Z * list Z * list Z) :=
  if cur fmt =? ch "." then
    let fmt := tail fmt in
    '(p, fmt, args) ← (
      if isdigit (cur fmt) then let '(p, fmt) := skip_atoi fmt 0 in Some (p, fmt, args)
      else if cur fmt =? ch "*" then '(p, args) ← va_int args; Some (p, tail fmt, args)
      else Some (-1, fmt, args));
    Some (if p <? 0 then 0 else p, fmt, args)
  else Some (-1, fmt, args).

Definition parse_qualifier (fmt : list Z) : Z * list Z :=
  let '(q, fmt) :=
    if (cur fmt =? ch "h") || (cur fmt =? ch "l") || (cur fmt =? ch "L") || (cur fmt =? ch "Z") then
      let q := cur fmt in
      let fmt := tail fmt in
      if (q =? ch "l") && (cur fmt =? ch "l") then (ch "L", tail fmt) else (q, fmt)
    else (-1, fmt) in
  if cur fmt =? ch "q" then (ch "L", tail fmt) else (q, fmt).

Record spec := Spec { flags : Z; field_width : Z; precision : Z; qualifier : Z }.

(** From the character after the % to the conversion character. *)
Definition parse_spec (fmt args : list Z) : option (spec * list Z * list Z) :=
  let '(fl, fmt) := parse_flags fmt 0 in
  '(w, fl, fmt, args) ← parse_width fmt fl args;
  '(p, fmt, args) ← parse_precision fmt args;
  let '(q, fmt) := parse_qualifier fmt in
  Some (Spec fl w p q, fmt, args).

(** [num], converted to the [long long] that [number] takes. *)
Definition fetch_num (qual fl : Z) (args : list Z) : option (Z * list Z) :=
  if qual =? ch "L" then '(n, args) ← va_long_long args; Some (i64 n, args)
  else if qual =? ch "l" then '(n, args) ← va_word args; Some (if has fl SIGN then i32 n else n, args)
  else if qual =? ch "Z" then va_word args
  else if qual =? ch "h" then
    '(n, args) ← va_word args; let n := n `mod` 2 ^ 16 in
    Some (if has fl SIGN then (if n <? 2 ^ 15 then n else n - 2 ^ 16) else n, args)
  else '(n, args) ← va_word args; Some (if has fl SIGN then i32 n else n, args).

(** Stores of more than one byte, the low byte first. *)
Fixpoint st_bytes (n : nat) (p x : Z) : cM unit :=
  match n with O => kret tt | S n => stb p (u8 x) ;;; st_bytes n (p + 1) (x / 256) end.

(** [while (--field_width > 0)] and [while (len < field_width--)]: the number of
    rounds and the width after them. *)
Definition c_runs (w : Z) : nat := Z.to_nat (i32 (w - 1)).
Definition c_spent (w : Z) : Z := if 0 <=? i32 (w - 1) then 0 else i32 (w - 1).
Definition s_runs (len w : Z) : nat := Z.to_nat (w - len).
Definition s_spent (len w : Z) : Z := if len <? w then len - 1 else i32 (w - 1).

(** [if (str <= end) *str = *s; ++str;], and this [len] times with [++s]. *)
Definition put_from (s e str : Z) : cM Z :=
  (if str <=? e then let* b := ldb s in stb str b else kret tt) ;;; kret (u32 (str + 1)).
Fixpoint put_string (len : nat) (s e str : Z) : cM Z :=
  match len with
  | O => kret str
  | S len => let* str := put_from s e str in put_string len (s + 1) e str
  end.

Definition null_text : list Z := text "<NULL>".

Definition conv_c (sp : spec) (c e str : Z) : cM Z :=
  let w := field_width sp in
  let* str := (if has (flags sp) LEFT then kret str else put_times (c_runs w) e (ch " ") str) in
  let w := if has (flags sp) LEFT then w else c_spent w in
  let* str := put e c str in
  put_times (c_runs w) e (ch " ") str.

Definition conv_s (sp : spec) (s e str : Z) : cM Z :=
  let w := field_width sp in
  let count := u32 (precision sp) in
  let* len := (if s =? NULL then kret (Z.min (Z.of_nat (length null_text)) count) else strnlen s count) in
  let len := i32 len in
  let* str := (if has (flags sp) LEFT then kret str else put_times (s_runs len w) e (ch " ") str) in
  let w := if has (flags sp) LEFT then w else s_spent len w in
  let* str := (if s =? NULL then put_list (take (Z.to_nat len) null_text) e str
               else put_string (Z.to_nat len) s e str) in
  put_times (s_runs len w) e (ch " ") str.

Definition conv_p (sp : spec) (num e str : Z) : cM Z :=
  let '(w, fl) := if field_width sp =? -1 then (2 * 4, Z.lor (flags sp) ZEROPAD)
                  else (field_width sp, flags sp) in
  number str e num 16 w (precision sp) fl.

(** The integer conversions: the base and the flags each of them sets. *)
Definition int_conv (c : Z) : option (Z * Z) :=
  if c =? ch "o" then Some (8, 0)
  else if c =? ch "X" then Some (16, LARGE)
  else if c =? ch "x" then Some (16, 0)
  else if (c =? ch "d") || (c =? ch "i") then Some (10, SIGN)
  else if c =? ch "u" then Some (10, 0)
  else None.

Definition conversion (buf e : Z) (sp : spec) (c : Z) (args : list Z) (str : Z) : cM (Z * list Z) :=
  if c =? ch "c" then
    let* (x, args') := kderef (va_int args) "va_arg" in
    let* str := conv_c sp (u8 x) e str in kret (str, args')
  else if c =? ch "s" then
    let* (s, args') := kderef (va_word args) "va_arg" in
    let* str := conv_s sp s e str in kret (str, args')
  else if c =? ch "p" then
    let* (n, args') := kderef (va_word args) "va_arg" in
    let* str := conv_p sp n e str in kret (str, args')
  else if c =? ch "n" then
    let* (ip, args') := kderef (va_word args) "va_arg" in
    st_bytes 4 ip (u32 (str - buf)) ;;; kret (str, args')
  else if c =? ch "%" then let* str := put e (ch "%") str in kret (str, args)
  else match int_conv c with
  | Some (base, fl) =>
      let fl := Z.lor (flags sp) fl in
      let* (num, args') := kderef (fetch_num (qualifier sp) fl args) "va_arg" in
      let* str := number str e num base (field_width sp) (precision sp) fl in
      kret (str, args')
  | None =>
      let* str := put e (ch "%") str in
      let* str := (if c =? 0 then kret str else put e c str) in
      kret (str, args)
  end.

Fixpoint vsnprintf_loop (fuel : nat) (buf e : Z) (fmt args : list Z) (str : Z) : cM Z :=
  match fmt with
  | [] => kret str
  | c :: fmt =>
      match fuel with
      | O => λ _, RFuel
      | S fuel =>
          if negb (c =? ch "%") then let* str := put e c str in vsnprintf_loop fuel buf e fmt args str
          else
            let* r := kderef (parse_spec fmt args) "va_arg" in
            let '(sp, fmt, args) := r in
            let* (str, args) := conversion buf e sp (cur fmt) args str in
            vsnprintf_loop fuel buf e (tail fmt) args str
      end
  end.

Definition vsnprintf (buf size : Z) (fmt args : list Z) : cM Z :=
  let e := u32 (buf + size - 1) in
  let '(e, size) := if e <? u32 (buf - 1) then (2 ^ 32 - 1, u32 (2 ^ 32 - 1 - buf + 1)) else (e, size) in
  let* str := vsnprintf_loop (length fmt) buf e fmt args buf in
  (if str <=? e then stb str 0 else if 0 <? size then stb e 0 else kret tt) ;;;
  kret (i32 (str - buf)).

Definition snprintf : Z → Z → list Z → list Z → cM Z := vsnprintf.
Definition vsprintf (buf : Z) (fmt args : list Z) : cM Z := vsnprintf buf 0xFFFFFFFF fmt args.
Definition sprintf : Z → list Z → list Z → cM Z := vsprintf.

(** [*str] and [*size] are returned with the result. *)
Definition iprintf (str size : Z) (fmt args : list Z) : cM (Z * Z * Z) :=
  let* len := vsnprintf str size fmt args in
  KASSERT (0 <=? len) "len >= 0" ;;;
  let len := Z.min len (i32 (size - 1)) in
  let str := u32 (str + len) in
  let size := u32 (size - len) in
  kret (str, size, u32 (size - 1)).

(** * vsscanf *)

(** [while (!isspace( *p) && *p) p++;] *)
Fixpoint to_space (s : list Z) : list Z :=
  match s with [] => [] | c :: s' => if negb (isspace c) && negb (c =? 0) then to_space s' else s end.

Definition scan_width (fmt : list Z) : Z * list Z :=
  if isdigit (cur fmt) then skip_atoi fmt 0 else (-1, fmt).

Definition scan_qualifier (fmt : list Z) : Z * list Z :=
  if (cur fmt =? ch "h") || (cur fmt =? ch "l") || (cur fmt =? ch "L") || (cur fmt =? ch "Z") || (cur fmt =? ch "z") then
    let q := cur fmt in
    let fmt := tail fmt in
    if q =? cur fmt then
      if q =? ch "h" then (ch "H", tail fmt) else if q =? ch "l" then (ch "L", tail fmt) else (q, fmt)
    else (q, fmt)
  else (-1, fmt).

(** [do { *s++ = *str++; } while (--field_width > 0 && *str);] *)
Fixpoint scan_c (str : list Z) (s w : Z) : cM (list Z) :=
  match str with
  | [] => kret []
  | c :: str =>
      stb s c ;;;
      let w := i32 (w - 1) in
      if (0 <? w) && negb (cur str =? 0) then scan_c str (s + 1) w else kret str
  end.

Fixpoint scan_s (str : list Z) (s w : Z) : cM (list Z * Z) :=
  match str with
  | [] => kret ([], s)
  | c :: str' =>
      if negb (c =? 0) && negb (isspace c) && negb (w =? 0)
      then stb s c ;;; scan_s str' (s + 1) (i32 (w - 1))
      else kret (str, s)
  end.

(** The base and the sign of an integer conversion. *)
Definition scan_conv (c : Z) : option (Z * bool) :=
  if c =? ch "o" then Some (8, false)
  else if (c =? ch "x") || (c =? ch "X") then Some (16, false)
  else if c =? ch "i" then Some (0, true)
  else if c =? ch "d" then Some (10, true)
  else if c =? ch "u" then Some (10, false)
  else None.

Definition no_number (base : Z) (is_sign : bool) (str : list Z) : bool :=
  let digit := if is_sign && (cur str =? ch "-") then cur (tail str) else cur str in
  (digit =? 0)
  || ((base =? 16) && negb (isxdigit digit))
  || ((base =? 10) && negb (isdigit digit))
  || ((base =? 8) && (negb (isdigit digit) || (ch "7" <? schar digit)))
  || ((base =? 0) && negb (isdigit digit)).

(** The value that is stored, its size, and [next]. *)
Definition scan_number (qual base : Z) (is_sign : bool) (str : list Z) : Z * nat * list Z :=
  if qual =? ch "L" then
    let '(v, next) := if is_sign then simple_strtoll str base else simple_strtoull str base in (v, 8%nat, next)
  else if (qual =? ch "Z") || (qual =? ch "z") then let '(v, next) := simple_strtoul str base in (v, 4%nat, next)
  else
    let '(v, next) := if is_sign then simple_strtol str base else simple_strtoul str base in
    (v, if qual =? ch "H" then 1%nat else if qual =? ch "h" then 2%nat else 4%nat, next).

(** One conversion, at the conversion character [c]: the rest of the input and of
    the arguments and the number of conversions, or [inl] of the result when the
    function returns. *)
Definition scan_one (buf str args : list Z) (num w qual c : Z) : cM (Z + list Z * list Z * Z) :=
  if c =? ch "c" then
    let* (s, args') := kderef (va_word args) "va_arg" in
    let* str := scan_c str s (if w =? -1 then 1 else w) in
    kret (inr (str, args', num + 1))
  else if c =? ch "s" then
    let* (s, args') := kderef (va_word args) "va_arg" in
    let* (str, s) := scan_s (skip_space str) s (if w =? -1 then 2 ^ 31 - 1 else w) in
    stb s 0 ;;; kret (inr (str, args', num + 1))
  else if c =? ch "n" then
    let* (i, args') := kderef (va_word args) "va_arg" in
    st_bytes 4 i (Z.of_nat (length buf) - Z.of_nat (length str)) ;;; kret (inr (str, args', num))
  else if c =? ch "%" then
    kret (if cur str =? ch "%" then inr (tail str, args, num) else inl num)
  else match scan_conv c with
  | None => kret (inl num)
  | Some (base, is_sign) =>
      let str := skip_space str in
      if no_number base is_sign str then kret (inl num)
      else
        let '(v, n, next) := scan_number qual base is_sign str in
        let* (p, args') := kderef (va_word args) "va_arg" in
        st_bytes n p v ;;; kret (inr (next, args', num + 1))
  end.

Fixpoint vsscanf_loop (fuel : nat) (buf fmt str args : list Z) (num : Z) : cM Z :=
  if (cur fmt =? 0) || (cur str =? 0) then kret num
  else match fuel with
  | O => λ _, RFuel
  | S fuel =>
      let '(fmt, str) := if isspace (cur fmt) then (skip_space fmt, skip_space str) else (fmt, str) in
      if negb (cur fmt =? ch "%") && negb (cur fmt =? 0) then
        if negb (cur fmt =? cur str) then kret num
        else vsscanf_loop fuel buf (tail fmt) (tail str) args num
      else if cur fmt =? 0 then kret num
      else
        let fmt := tail fmt in
        if cur fmt =? ch "*" then vsscanf_loop fuel buf (to_space fmt) (to_space str) args num
        else
          let '(w, fmt) := scan_width fmt in
          let '(qual, fmt) := scan_qualifier fmt in
          if (cur fmt =? 0) || (cur str =? 0) then kret num
          else
            let* r := scan_one buf str args num w qual (cur fmt) in
            match r with
            | inl num => kret num
            | inr (str, args, num) => vsscanf_loop fuel buf (tail fmt) str args num
            end
  end.

Definition vsscanf (buf fmt args : list Z) : cM Z := vsscanf_loop (length fmt) buf fmt buf args 0.
Definition sscanf : list Z → list Z → list Z → cM Z := vsscanf.
