(* ===== verification/KPrintfProps.v ===== *)
(** Formatted output and number parsing: what KPrintf computes.

    [render] says what text a format and its arguments stand for, in terms of
    lists; vsnprintf puts as much of that text into the buffer as fits, iprintf
    appends, vsscanf reads back what was printed, and strtol gives the value of
    a numeral or the nearest representable one. *)

From Stdlib Require Import Ascii.
From stdpp Require Import base numbers list gmap strings.
From S2P Require Import Prelude KString KMath KMathProps KPrintf.

Open Scope Z_scope.

(** * The text of a format *)

Definition spaces (n : Z) : list Z := replicate (Z.to_nat n) (ch " ").
Definition zeros (n : Z) : list Z := replicate (Z.to_nat n) (ch "0").

(** The digits of a positive number, the most significant one first. *)
Fixpoint digit_list (fuel : nat) (base n : Z) : list Z :=
  match fuel with
  | O => []
  | S fuel => if n =? 0 then [] else digit_list fuel base (n / base) ++ [n `mod` base]
  end.
Definition digit_char (large : bool) (d : Z) : Z :=
  if d <? 10 then ch "0" + d else (if large then ch "A" else ch "a") + d - 10.
Definition numeral (large : bool) (base n : Z) : list Z :=
  if n =? 0 then [ch "0"] else digit_char large <$> digit_list 64 base n.

Definition sign_text (num type : Z) : list Z :=
  if negb (has type SIGN) then []
  else if num <? 0 then [ch "-"]
  else if has type PLUS then [ch "+"]
  else if has type SPACE then [ch " "] else [].
Definition prefix_text (base type : Z) : list Z :=
  if negb (has type SPECIAL) then []
  else if base =? 16 then [ch "0"; if has type LARGE then ch "X" else ch "x"]
  else if base =? 8 then [ch "0"] else [].
Definition magnitude (num type : Z) : Z := if has type SIGN then Z.abs num else u64 num.

(** A number in a field: sign and prefix, then at least [prec] digits; the field
    is filled with blanks on the left, with zeros after the prefix (flag 0), or
    with blanks on the right (flag -, which overrides 0). *)
Definition number_text (num base w prec type : Z) : list Z :=
  let digits := numeral (has type LARGE) base (magnitude num type) in
  let body := zeros (prec - len digits) ++ digits in
  let lead := sign_text num type ++ prefix_text base type in
  let fill := w - len lead - len body in
  if has type LEFT then lead ++ body ++ spaces fill
  else if has type ZEROPAD then lead ++ zeros fill ++ body
  else spaces fill ++ lead ++ body.

(** Other text in a field. *)
Definition justify (fl w : Z) (l : list Z) : list Z :=
  if has fl LEFT then l ++ spaces (w - len l) else spaces (w - len l) ++ l.

(** The string at [p]: up to its terminator, or [count] bytes. *)
Fixpoint read_str (fuel : nat) (m : gmap Z Z) (count p : Z) : option (list Z) :=
  if count =? 0 then Some []
  else match fuel with
  | O => None
  | S fuel => b ← m !! p; if b =? 0 then Some [] else cons b <$> read_str fuel m (count - 1) (p + 1)
  end.

Definition string_text (m : gmap Z Z) (s count : Z) : option (list Z) :=
  if s =? NULL then Some (take (Z.to_nat (Z.min count 6)) null_text) else read_str (S (size m)) m count s.

Definition int_text (sp : spec) (num base fl : Z) : list Z :=
  number_text num base (field_width sp) (precision sp) fl.
Definition pointer_text (sp : spec) (num : Z) : list Z :=
  if field_width sp =? -1 then number_text num 16 8 (precision sp) (Z.lor (flags sp) ZEROPAD)
  else int_text sp num 16 (flags sp).

Definition small_field (x : Z) : bool := (-1 <=? x) && (x <? 2 ^ 30).

(** The text of one conversion and the arguments it leaves.  There is none for %n,
    for missing arguments and for fields of 2^30 characters and more. *)
Definition render_conv (m : gmap Z Z) (sp : spec) (c : Z) (args : list Z) : option (list Z * list Z) :=
  guard (small_field (field_width sp) && small_field (precision sp) = true);;
  if c =? ch "c" then '(x, args) ← va_int args; Some (justify (flags sp) (field_width sp) [u8 x], args)
  else if c =? ch "s" then
    '(s, args) ← va_word args;
    l ← string_text m s (u32 (precision sp));
    Some (justify (flags sp) (field_width sp) l, args)
  else if c =? ch "p" then '(n, args) ← va_word args; Some (pointer_text sp n, args)
  else if c =? ch "n" then None
  else if c =? ch "%" then Some ([ch "%"], args)
  else match int_conv c with
  | Some (base, fl) =>
      let fl := Z.lor (flags sp) fl in
      '(num, args) ← fetch_num (qualifier sp) fl args;
      Some (int_text sp num base fl, args)
  | None => Some (ch "%" :: (if c =? 0 then [] else [c]), args)
  end.

(** [l] is the text of the format [fmt] with [args]. *)
Inductive renders (m : gmap Z Z) : list Z → list Z → list Z → Prop :=
| renders_nil args : renders m [] args []
| renders_char c fmt args l :
    c ≠ ch "%" → renders m fmt args l → renders m (c :: fmt) args (c :: l)
| renders_conv fmt args sp fmt' args' l args'' k :
    parse_spec fmt args = Some (sp, fmt', args') →
    render_conv m sp (cur fmt') args' = Some (l, args'') →
    renders m (tail fmt') args'' k → renders m (ch "%" :: fmt) args (l ++ k).

(** * Writing to the buffer *)

(** The memory after the characters of [l] are written from [p] on, up to [e]. *)
Fixpoint wr (m : gmap Z Z) (p e : Z) (l : list Z) : gmap Z Z :=
  match l with [] => m | c :: l => wr (if p <=? e then <[p := c]> m else m) (p + 1) e l end.

Lemma wr_app m p e l k : wr m p e (l ++ k) = wr (wr m p e l) (p + len l) e k.
Proof.
  revert m p. induction l as [|c l IH]; intros m p; simpl.
  - by rewrite Z.add_0_r.
  - rewrite IH. f_equal. rewrite len_cons. lia.
Qed.

Lemma wr_out m p e l a : ¬ (p ≤ a ≤ e) → wr m p e l !! a = m !! a.
Proof.
  revert m p. induction l as [|c l IH]; intros m p Ha; simpl; [done|].
  rewrite IH by lia. destruct (p <=? e) eqn:E; [|done]. apply lookup_insert_ne. lia.
Qed.

Lemma wr_in m p e l i c : l !! i = Some c → p + Z.of_nat i ≤ e → wr m p e l !! (p + Z.of_nat i) = Some c.
Proof.
  revert m p i. induction l as [|d l IH]; intros m p [|i] Hl Hi; simplify_eq/=.
  - rewrite wr_out by lia. replace (p <=? e) with true by lia. rewrite Z.add_0_r. apply lookup_insert_eq.
  - replace (p + Z.of_nat (S i)) with (p + 1 + Z.of_nat i) by lia. apply IH; [done|lia].
Qed.

Lemma wr_past m p e l a : p + len l ≤ a → wr m p e l !! a = m !! a.
Proof.
  revert m p. induction l as [|c l IH]; intros m p Ha; simpl; [done|].
  rewrite len_cons in Ha. pose proof (len_nonneg l).
  rewrite IH by lia. destruct (p <=? e); [|done]. apply lookup_insert_ne. lia.
Qed.

Lemma wr_mapped m p e l a : is_Some (m !! a) → is_Some (wr m p e l !! a).
Proof.
  revert m p. induction l as [|c l IH]; intros m p Ha; simpl; [done|].
  apply IH. destruct (p <=? e); [|done]. destruct (decide (p = a)) as [->|].
  - rewrite lookup_insert_eq. eauto.
  - by rewrite lookup_insert_ne.
Qed.

(** ** Code that prints a text *)

Section Out.
(** The buffer is the cells from [buf] to [e]; of these only the ones below [lim]
    are used.  The strings to print are in [m0], outside the buffer. *)
Context (buf e lim : Z) (m0 : gmap Z Z).
Context (Hbuf : 0 ≤ buf) (Hlim : lim ≤ 2 ^ 32).
Context (Hm0 : ∀ a, buf ≤ a ≤ e → a < lim → m0 !! a = None).

Record ready (s : cmem) : Prop := {
  ready_mapped : ∀ a, buf ≤ a ≤ e → a < lim → is_Some (cm_bytes s !! a);
  ready_strings : m0 ⊆ cm_bytes s }.

Definition wr_state (p : Z) (l : list Z) (s : cmem) : cmem := set_bytes (λ m, wr m p e l) s.

(** [c] puts [l] at the pointer it is given and returns the pointer after it. *)
Definition prints (c : Z → cM Z) (l : list Z) : Prop :=
  ∀ p s, buf ≤ p → p + len l < lim → len l < 2 ^ 31 → ready s →
    c p s = RRet (p + len l) (wr_state p l s).

Lemma ready_wr p l s : buf ≤ p → p + len l < lim → ready s → ready (wr_state p l s).
Proof.
  intros Hp Hl [Hm Hs]. split; simpl.
  - intros a ??. by apply wr_mapped, Hm.
  - apply map_subseteq_spec. intros a v Ha. destruct (decide (p ≤ a ≤ e ∧ a < p + len l)) as [Hin|Hout].
    + rewrite Hm0 in Ha by lia. done.
    + destruct (decide (p ≤ a ≤ e)); [rewrite wr_past by lia|rewrite wr_out by lia];
        by eapply map_subseteq_spec.
Qed.

Lemma prints_bind c k l1 l2 : prints c l1 → prints k l2 → prints (λ p, kbind (c p) k) (l1 ++ l2).
Proof.
  intros Hc Hk p s Hp Hl Hn Hs. rewrite len_app in Hl, Hn. pose proof (len_nonneg l1). pose proof (len_nonneg l2).
  rewrite (kbind_of_ret _ _ _ _ _ (Hc p s Hp ltac:(lia) ltac:(lia) Hs)).
  rewrite Hk by (try apply ready_wr; auto; lia).
  f_equal; [rewrite len_app; lia|]. unfold wr_state, set_bytes; simpl. by rewrite wr_app.
Qed.

Lemma prints_skip : prints kret [].
Proof. intros p s _ _ _ _. unfold kret. f_equal; [unfold len; simpl; lia|]. by destruct s. Qed.

Lemma prints_if (b : bool) c1 c2 l1 l2 :
  (b = true → prints c1 l1) → (b = false → prints c2 l2) →
  prints (λ p, if b then c1 p else c2 p) (if b then l1 else l2).
Proof. destruct b; auto. Qed.

Lemma prints_put c : prints (put e c) [c].
Proof.
  intros p s Hp Hl _ Hs. unfold put, len in *. simpl in *. destruct (p <=? e) eqn:E.
  - destruct (ready_mapped s Hs p) as [b Hb]; [lia..|].
    rewrite (stb_bind s p c _ ltac:(eauto)). unfold kret. rewrite u32_small by lia.
    f_equal. unfold wr_state, set_bytes. simpl. by rewrite E.
  - rewrite kbind_ret_l. unfold kret. rewrite u32_small by lia.
    f_equal. unfold wr_state, set_bytes. simpl. rewrite E. by destruct s.
Qed.

Lemma prints_times n c : prints (put_times n e c) (replicate n c).
Proof.
  induction n as [|n IH]; [apply prints_skip|].
  apply (prints_bind _ _ [c]); [apply prints_put|apply IH].
Qed.

Lemma prints_list l : prints (put_list l e) l.
Proof.
  induction l as [|c l IH]; [apply prints_skip|].
  apply (prints_bind _ _ [c]); [apply prints_put|apply IH].
Qed.

(** Anything that is computed first without changing the state. *)
Lemma prints_after {A} (c : cM A) (a : A) (k : A → Z → cM Z) l :
  (∀ s, ready s → c s = RRet a s) → prints (k a) l → prints (λ p, kbind c (λ x, k x p)) l.
Proof. intros Hc Hk p s ????. rewrite (kbind_of_ret _ _ _ _ _ (Hc s ltac:(done))). by apply Hk. Qed.

Lemma prints_from s0 c : m0 !! s0 = Some c → prints (put_from s0 e) [c].
Proof.
  intros Hc p s Hp Hl Hn Hs. rewrite <- (prints_put c p s Hp Hl Hn Hs).
  unfold put_from, put. destruct (p <=? e); [|done].
  change (rbind ((let* b := ldb s0 in stb p b) s) (λ _, kret (u32 (p + 1))) =
          rbind (stb p c s) (λ _, kret (u32 (p + 1)))).
  rewrite (ldb_bind s s0 c); [done|]. by eapply map_subseteq_spec; [apply Hs|].
Qed.

Lemma prints_string l n s0 :
  length l = n → (∀ i c, l !! i = Some c → m0 !! (s0 + Z.of_nat i) = Some c) →
  prints (put_string n s0 e) l.
Proof.
  revert n s0. induction l as [|c l IH]; intros n s0 <- Hl; [apply prints_skip|].
  apply (prints_bind (put_from s0 e) _ [c]).
  - apply prints_from. rewrite <- (Hl 0%nat c) by done. f_equal. lia.
  - apply IH; [done|]. intros i d Hi. rewrite <- (Hl (S i) d) by done. f_equal. lia.
Qed.

(** *** Numbers *)

Lemma digits_lookup (large : bool) d :
  0 ≤ d < 36 → (if large then large_digits else small_digits) !! Z.to_nat d = Some (digit_char large d).
Proof.
  intros Hd. assert (∃ k : nat, d = Z.of_nat k ∧ (k < 36)%nat) as (k & -> & Hk) by (exists (Z.to_nat d); lia).
  rewrite Nat2Z.id. destruct large; do 36 (destruct k as [|k]; [done|]); lia.
Qed.

Lemma to_digits_run (large : bool) fuel n base tmp s :
  0 ≤ n < 2 ^ Z.of_nat fuel → 2 ≤ base ≤ 36 → (length tmp + fuel ≤ 66)%nat →
  to_digits fuel (if large then large_digits else small_digits) n base tmp s =
  RRet (tmp ++ rev (digit_char large <$> digit_list fuel base n)) s.
Proof.
  revert n tmp. induction fuel as [|fuel IH]; intros n tmp Hn Hb Ht.
  - replace n with 0 by (simpl in Hn; lia). simpl. by rewrite app_nil_r.
  - rewrite Nat2Z.inj_succ, Z.pow_succ_r in Hn by lia. simpl. destruct (n =? 0) eqn:E; simpl; [by rewrite app_nil_r|].
    rewrite bool_decide_true by lia. rewrite kbind_ret_l.
    pose proof (Z.mod_pos_bound n base ltac:(lia)) as Hm. rewrite digits_lookup by lia.
    unfold kbind, kderef. simpl.
    rewrite IH; [|split; [apply Z.div_pos; lia|apply Z.div_lt_upper_bound; nia]|done|rewrite length_app; simpl; lia].
    by rewrite fmap_app, rev_app_distr, <- app_assoc.
Qed.

Lemma magnitude_range num type : - 2 ^ 63 ≤ num < 2 ^ 63 → 0 ≤ magnitude num type < 2 ^ 64.
Proof. unfold magnitude. intros. destruct (has type SIGN); [lia|]. apply Z.mod_pos_bound. lia. Qed.

(** The digits that [number] leaves in [tmp]. *)
Lemma tmp_run large num base s :
  - 2 ^ 63 ≤ num < 2 ^ 63 → 2 ≤ base ≤ 36 →
  (if num =? 0 then kret [ch "0"] else to_digits 64 (if large : bool then large_digits else small_digits) (u64 num) base []) s =
  RRet (rev (numeral large base (u64 num))) s.
Proof.
  intros Hn Hb. unfold numeral, u64. destruct (num =? 0) eqn:E.
  - replace num with 0 by lia. done.
  - replace (num `mod` 2 ^ 64 =? 0) with false.
    + rewrite to_digits_run; [done|apply Z.mod_pos_bound; lia|done|simpl; lia].
    + symmetry. apply Z.eqb_neq. destruct (Z_lt_le_dec num 0).
      * rewrite <- (Z_mod_plus_full num 1), Z.mod_small; lia.
      * rewrite Z.mod_small; lia.
Qed.

Lemma prints_eq c l l' : l = l' → prints c l → prints c l'.
Proof. by intros ->. Qed.

Lemma i64_small x : - 2 ^ 63 ≤ x < 2 ^ 63 → i64 x = x.
Proof. intros. unfold i64. rewrite Z.mod_small; lia. Qed.

Lemma number_sign_spec num w type :
  - 2 ^ 63 ≤ num < 2 ^ 63 → -1 ≤ w < 2 ^ 30 →
  ∃ sign num', number_sign num w type = (sign, num', w - len (sign_text num type)) ∧
    u64 num' = magnitude num type ∧ - 2 ^ 63 ≤ num' < 2 ^ 63 ∧
    sign_text num type = (if sign =? 0 then [] else [sign]).
Proof.
  intros Hn Hw. unfold number_sign, sign_text, magnitude, len.
  destruct (has type SIGN); simpl; [|exists 0, num; split_and!; simpl; repeat f_equal; lia].
  destruct (num <? 0) eqn:E; simpl.
  - exists (ch "-"), (i64 (- num)). rewrite i32_small by lia. split_and!; try done.
    + destruct (decide (num = - 2 ^ 63)) as [->|]; [by vm_compute|]. rewrite i64_small by lia. unfold u64. rewrite Z.mod_small by lia. lia.
    + destruct (decide (num = - 2 ^ 63)) as [->|]; [by vm_compute|]. rewrite i64_small; lia.
    + destruct (decide (num = - 2 ^ 63)) as [->|]; [by vm_compute|]. rewrite i64_small; lia.
  - assert (u64 num = Z.abs num) by (unfold u64; rewrite Z.mod_small by lia; lia).
    destruct (has type PLUS); [|destruct (has type SPACE)];
      [exists (ch "+"), num|exists (ch " "), num|exists 0, num]; simpl; rewrite ?i32_small by lia;
      split_and!; auto; repeat f_equal; lia.
Qed.

Lemma has_lor type a b : has type (Z.lor a b) = has type a || has type b.
Proof.
  unfold has. rewrite Z.land_lor_distr_r.
  apply eq_true_iff_eq. rewrite orb_true_iff, !negb_true_iff, !Z.eqb_neq, Z.lor_eq_0_iff. lia.
Qed.

Lemma has_clear type a flag : has (Z.land type (Z.lnot a)) flag = has type (Z.land (Z.lnot a) flag).
Proof. unfold has. by rewrite Z.land_assoc. Qed.

Lemma spent_neg s : - 2 ^ 31 < s < 2 ^ 31 → Z.min (-1) (s - 1) ≤ spent s < 0.
Proof. unfold spent. intros. destruct (0 <=? s) eqn:E; [lia|]. rewrite i32_small; lia. Qed.

Lemma runs_neg s : s < 0 → runs s = 0%nat.
Proof. unfold runs. lia. Qed.

(** LEFT clears ZEROPAD and nothing else. *)
Definition norm_type (type : Z) : Z := if has type LEFT then Z.land type (Z.lnot ZEROPAD) else type.

Lemma has_norm type flag : Z.land (Z.lnot ZEROPAD) flag = flag → has (norm_type type) flag = has type flag.
Proof. intros Hf. unfold norm_type. destruct (has type LEFT); [|done]. by rewrite has_clear, Hf. Qed.

Lemma has_norm_zero type : has (norm_type type) ZEROPAD = has type ZEROPAD && negb (has type LEFT).
Proof.
  unfold norm_type. destruct (has type LEFT); [|by rewrite andb_true_r].
  rewrite has_clear. unfold has. simpl. by rewrite Z.land_0_r, andb_false_r.
Qed.

(** The prefix, and the part of the field it takes. *)
Lemma special_size base w type :
  - 2 ^ 30 ≤ w < 2 ^ 30 →
  (if has type SPECIAL then if base =? 16 then i32 (w - 2) else if base =? 8 then i32 (w - 1) else w else w) =
  w - len (prefix_text base type).
Proof.
  intros Hw. unfold prefix_text, len. destruct (has type SPECIAL); simpl; [|lia].
  destruct (base =? 16); simpl; [rewrite i32_small; lia|].
  destruct (base =? 8); simpl; [rewrite i32_small; lia|lia].
Qed.

Lemma prints_special base type :
  prints (λ p,
    if has type SPECIAL then
      if base =? 8 then put e (ch "0") p
      else if base =? 16 then
        let* p := put e (ch "0") p in
        put e (default 0 ((if has type LARGE then large_digits else small_digits) !! 33%nat)) p
      else kret p
    else kret p) (prefix_text base type).
Proof.
  unfold prefix_text. destruct (has type SPECIAL); simpl; [|apply prints_skip].
  destruct (base =? 16) eqn:E16.
  - replace (base =? 8) with false by lia. apply (prints_bind _ _ [ch "0"] [_]); [apply prints_put|].
    destruct (has type LARGE); apply prints_put.
  - destruct (base =? 8); [apply prints_put|apply prints_skip].
Qed.

Lemma prefix_len base type : 0 ≤ len (prefix_text base type) ≤ 2.
Proof. unfold prefix_text, len. repeat case_match; simpl; lia. Qed.
Lemma sign_len num type : 0 ≤ len (sign_text num type) ≤ 1.
Proof. unfold sign_text, len. repeat case_match; simpl; lia. Qed.

Lemma digit_list_len fuel base n : (length (digit_list fuel base n) ≤ fuel)%nat.
Proof.
  revert n. induction fuel as [|fuel IH]; intros n; simpl; [done|].
  destruct (n =? 0); simpl; [lia|]. rewrite length_app. simpl. specialize (IH (n / base)). lia.
Qed.
Lemma numeral_len large base n : 0 ≤ len (numeral large base n) ≤ 64.
Proof.
  unfold numeral, len. destruct (n =? 0); [simpl; lia|]. rewrite length_fmap.
  pose proof (digit_list_len 64 base n). lia.
Qed.

Lemma sign_text_norm num type : sign_text num (norm_type type) = sign_text num type.
Proof. unfold sign_text. by rewrite !has_norm. Qed.
Lemma prefix_text_norm base type : prefix_text base (norm_type type) = prefix_text base type.
Proof. unfold prefix_text. by rewrite !has_norm. Qed.
Lemma magnitude_norm num type : magnitude num (norm_type type) = magnitude num type.
Proof. unfold magnitude. by rewrite !has_norm. Qed.

(** What the loops of [number] print, with [size] the part of the field that is
    not taken. *)
Lemma number_loops size type sign pre zs ds :
  - 2 ^ 31 + 2 < size < 2 ^ 31 →
  ((if has (norm_type type) (ZEROPAD + LEFT) then [] else replicate (runs size) (ch " ")) ++ sign ++ pre ++
   (if has (norm_type type) LEFT then []
    else replicate (runs (if has (norm_type type) (ZEROPAD + LEFT) then size else spent size))
           (if has (norm_type type) ZEROPAD then ch "0" else ch " ")) ++ zs ++ ds ++
   replicate (runs (if has (norm_type type) LEFT then if has (norm_type type) (ZEROPAD + LEFT) then size else spent size
                    else spent (if has (norm_type type) (ZEROPAD + LEFT) then size else spent size))) (ch " ")) =
  (if has type LEFT then (sign ++ pre) ++ (zs ++ ds) ++ spaces size
   else if has type ZEROPAD then (sign ++ pre) ++ zeros size ++ zs ++ ds
   else spaces size ++ (sign ++ pre) ++ zs ++ ds).
Proof.
  intros Hs. change (ZEROPAD + LEFT) with (Z.lor ZEROPAD LEFT). rewrite has_lor, has_norm_zero, has_norm by done.
  pose proof (spent_neg size ltac:(lia)). pose proof (spent_neg (spent size) ltac:(lia)).
  unfold spaces, zeros. fold (runs size).
  destruct (has type LEFT); [by rewrite !orb_true_r, <- !app_assoc|].
  destruct (has type ZEROPAD); simpl; rewrite !(runs_neg (spent _)) by lia; by rewrite !app_nil_r, <- !app_assoc.
Qed.

Lemma number_prints num base w prec type :
  - 2 ^ 63 ≤ num < 2 ^ 63 → 2 ≤ base ≤ 36 → -1 ≤ w < 2 ^ 30 → -1 ≤ prec < 2 ^ 30 →
  prints (λ p, number p e num base w prec type) (number_text num base w prec type).
Proof.
  intros Hn Hb Hw Hp. unfold number. fold (norm_type type). cbv zeta.
  replace ((base <? 2) || (36 <? base)) with false by lia.
  destruct (number_sign_spec num w (norm_type type) Hn Hw) as (sign & num' & -> & Hu & Hn' & Hs).
  pose proof (sign_len num (norm_type type)). pose proof (prefix_len base (norm_type type)).
  rewrite special_size by lia.
  eapply (prints_after _ _ (λ tmp p, _)). { intros s _. by apply tmp_run. }
  cbv beta zeta. rewrite Hu, magnitude_norm, length_rev, rev_involutive.
  unfold number_text. set (digits := numeral (has type LARGE) base (magnitude num type)).
  pose proof (numeral_len (has type LARGE) base (magnitude num type)). fold digits in H1.
  assert (Hz : len (zeros (prec - len digits) ++ digits) =
    (if prec <? Z.of_nat (length digits) then Z.of_nat (length digits) else prec)).
  { rewrite len_app. unfold zeros, len in *. rewrite length_replicate. destruct (_ <? _) eqn:?; lia. }
  rewrite <- Hz, len_app. set (zs := zeros (prec - len digits)) in *. rewrite len_app in Hz.
  assert (len zs + len digits < 2 ^ 30 ∧ 0 ≤ len zs). { unfold len in *. destruct (_ <? _) eqn:?; lia. }
  replace (len zs + len digits - Z.of_nat (length digits)) with (len zs) by (unfold len; lia).
  rewrite i32_small by lia. rewrite len_app, sign_text_norm, prefix_text_norm in *.
  set (size := w - _ - _ - _) in *.
  replace (w - (len (sign_text num type) + len (prefix_text base type)) - (len zs + len digits)) with size by lia.
  eapply prints_eq; [apply number_loops; lia|].
  apply prints_bind; [apply prints_if; [intros _; apply prints_skip|intros _; apply prints_times]|].
  rewrite Hs. apply prints_bind; [apply prints_if; [intros _; apply prints_skip|intros _; apply prints_put]|].
  rewrite <- (has_norm type LARGE) by done. rewrite <- prefix_text_norm. apply prints_bind; [apply prints_special|].
  apply prints_bind; [apply prints_if; [intros _; apply prints_skip|intros _; apply prints_times]|].
  apply prints_bind.
  - eapply prints_eq; [|apply prints_times]. unfold zs, zeros, runs, len. rewrite length_replicate. f_equal. lia.
  - apply prints_bind; [apply prints_list|apply prints_times].
Qed.

(** *** Characters and strings *)

Lemma prints_bounded c l : (len l < 2 ^ 31 → prints c l) → prints c l.
Proof. intros Hc p s ????. by apply Hc. Qed.

Lemma justify_len fl w l : len l ≤ len (justify fl w l).
Proof. unfold justify. destruct (has fl LEFT); rewrite len_app; pose proof (len_nonneg (spaces (w - len l))); lia. Qed.

Lemma conv_c_prints sp c : -1 ≤ field_width sp < 2 ^ 30 → prints (conv_c sp c e) (justify (flags sp) (field_width sp) [c]).
Proof.
  intros Hw. unfold conv_c, justify, spaces. cbv zeta. set (w := field_width sp) in *.
  assert (Hr : c_runs w = Z.to_nat (w - len [c])) by (unfold c_runs; rewrite i32_small by lia; done).
  destruct (has (flags sp) LEFT).
  - apply (prints_bind _ _ [] ([c] ++ _)); [apply prints_skip|].
    apply prints_bind; [apply prints_put|]. rewrite Hr. apply prints_times.
  - apply prints_bind; [rewrite Hr; apply prints_times|]. apply (prints_bind _ _ [c] []); [apply prints_put|].
    replace (c_runs (c_spent w)) with 0%nat; [apply prints_times|].
    unfold c_runs, c_spent. rewrite (i32_small (w - 1)) by lia. destruct (0 <=? w - 1) eqn:E; rewrite i32_small; lia.
Qed.

Lemma read_str_lookup fuel m count p l i c :
  read_str fuel m count p = Some l → l !! i = Some c → m !! (p + Z.of_nat i) = Some c.
Proof.
  revert count p l i. induction fuel as [|fuel IH]; intros count p l i Hr Hi; simpl in Hr.
  { destruct (count =? 0); simplify_eq/=. }
  destruct (count =? 0); simplify_eq/=. destruct (m !! p) as [b|] eqn:Eb; simplify_eq/=.
  destruct (b =? 0); simplify_eq/=. destruct (read_str fuel _ _ _) as [k|] eqn:Ek; simplify_eq/=.
  destruct i as [|i]; simplify_eq/=; [by rewrite Z.add_0_r|].
  replace (p + Z.of_nat (S i)) with (p + 1 + Z.of_nat i) by lia. eauto.
Qed.

Lemma strnlen_loop_run fuel fuel' m s count p l :
  read_str fuel m count p = Some l → m ⊆ cm_bytes s → (fuel ≤ fuel')%nat →
  strnlen_loop fuel' count p s = RRet (p + len l) s.
Proof.
  revert fuel' count p l. induction fuel as [|fuel IH]; intros fuel' count p l Hr Hm Hf; simpl in Hr.
  { destruct fuel'; simpl; destruct (count =? 0); simplify_eq/=; unfold kret; f_equal; unfold len; simpl; lia. }
  destruct fuel' as [|fuel']; [lia|]. simpl.
  destruct (count =? 0); simplify_eq/=. { unfold kret. f_equal. unfold len. simpl. lia. }
  destruct (m !! p) as [b|] eqn:Eb; simplify_eq/=.
  rewrite (ldb_bind s p b) by (by eapply map_subseteq_spec).
  destruct (b =? 0); simplify_eq/=. { unfold kret. f_equal. unfold len. simpl. lia. }
  destruct (read_str fuel _ _ _) as [k|] eqn:Ek; simplify_eq/=.
  rewrite (IH fuel' _ _ _ Ek) by (done || lia). f_equal. rewrite len_cons. lia.
Qed.

Lemma strnlen_prints s0 count l :
  read_str (S (size m0)) m0 count s0 = Some l → ∀ s, ready s → strnlen s0 count s = RRet (len l) s.
Proof.
  intros Hr s Hs. unfold strnlen. rewrite (mem_fuel_bind s).
  pose proof (map_subseteq_size _ _ (ready_strings s Hs)).
  rewrite (kbind_of_ret _ _ _ _ _ (strnlen_loop_run _ (S (size (cm_bytes s))) _ s _ _ _ Hr (ready_strings s Hs) ltac:(lia))).
  unfold kret. f_equal. lia.
Qed.

Lemma null_len count : 0 ≤ count →
  len (take (Z.to_nat (Z.min count 6)) null_text) = Z.min (Z.of_nat (length null_text)) count.
Proof. intros. unfold len. rewrite length_take. change (length null_text) with 6%nat. lia. Qed.

Lemma conv_s_prints sp s0 l :
  -1 ≤ field_width sp < 2 ^ 30 → string_text m0 s0 (u32 (precision sp)) = Some l →
  prints (conv_s sp s0 e) (justify (flags sp) (field_width sp) l).
Proof.
  intros Hw Hl. apply prints_bounded. intros Hb. pose proof (justify_len (flags sp) (field_width sp) l).
  pose proof (len_nonneg l). unfold string_text in Hl.
  assert (Hlen : ∀ s, ready s → (if s0 =? NULL then kret (Z.min (Z.of_nat (length null_text)) (u32 (precision sp)))
                 else strnlen s0 (u32 (precision sp))) s = RRet (len l) s).
  { intros s Hs. destruct (s0 =? NULL); simplify_eq.
    - rewrite null_len; [done|]. apply u32_range.
    - by apply strnlen_prints. }
  unfold conv_s. cbv zeta.
  eapply (prints_after _ _ (λ len p, _)); [exact Hlen|]. cbv beta zeta. rewrite i32_small by lia.
  assert (Hput : prints (λ p, if s0 =? NULL then put_list (take (Z.to_nat (len l)) null_text) e p
                 else put_string (Z.to_nat (len l)) s0 e p) l).
  { destruct (s0 =? NULL); simplify_eq.
    - eapply prints_eq; [|apply prints_list]. unfold len. rewrite Nat2Z.id. rewrite length_take, <- take_take. by rewrite (take_ge null_text (length _)).
    - apply prints_string; [unfold len; lia|]. intros. by eapply read_str_lookup. }
  set (w := field_width sp) in *. unfold justify, spaces. fold (s_runs (len l) w).
  destruct (has (flags sp) LEFT).
  - apply (prints_bind _ _ []); [apply prints_skip|]. apply prints_bind; [done|apply prints_times].
  - apply prints_bind; [apply prints_times|]. eapply prints_eq; [apply app_nil_r|].
    apply prints_bind; [done|].
    replace (s_runs (len l) (s_spent (len l) w)) with 0%nat; [apply prints_times|].
    unfold s_runs, s_spent. destruct (len l <? w) eqn:E; [lia|]. rewrite i32_small; lia.
Qed.

(** *** Conversions and the loop over the format *)

Lemma va_word_range args x args' : va_word args = Some (x, args') → 0 ≤ x < 2 ^ 32.
Proof. destruct args; simpl; intros; simplify_eq. apply u32_range. Qed.

Lemma fetch_num_range qual fl args x args' :
  fetch_num qual fl args = Some (x, args') → - 2 ^ 63 ≤ x < 2 ^ 63.
Proof.
  unfold fetch_num. intros Hf. pose proof i32_range as Hi.
  destruct (qual =? ch "L").
  { destruct (va_long_long args) as [[n a]|]; simplify_eq/=. apply i64_range. }
  destruct (va_word args) as [[n a]|] eqn:E; [apply va_word_range in E|];
    repeat case_match; simplify_eq/=; try lia; try (specialize (Hi n); lia);
    pose proof (Z.mod_pos_bound n (2 ^ 16) ltac:(lia)); repeat case_match; lia.
Qed.

Lemma prints_pair {A} c l (a : A) p s :
  prints c l → buf ≤ p → p + len l < lim → len l < 2 ^ 31 → ready s →
  kbind (c p) (λ str, kret (str, a)) s = RRet (p + len l, a) (wr_state p l s).
Proof. intros Hc H1 H2 H3 H4. by rewrite (kbind_of_ret _ _ _ _ _ (Hc p s H1 H2 H3 H4)). Qed.

Lemma pointer_prints sp n :
  0 ≤ n < 2 ^ 32 → -1 ≤ field_width sp < 2 ^ 30 → -1 ≤ precision sp < 2 ^ 30 →
  prints (conv_p sp n e) (pointer_text sp n).
Proof.
  intros Hn Hw Hp. unfold conv_p, pointer_text, int_text.
  destruct (field_width sp =? -1); apply number_prints; lia.
Qed.

Lemma int_conv_base c base fl : int_conv c = Some (base, fl) → 2 ≤ base ≤ 36.
Proof. unfold int_conv. intros. repeat case_match; simplify_eq; lia. Qed.

Lemma parse_flags_len fmt fl fl' fmt' : parse_flags fmt fl = (fl', fmt') → (length fmt' ≤ length fmt)%nat.
Proof.
  revert fl. induction fmt as [|c fmt IH]; intros fl Hp; simpl in *; [by simplify_eq|].
  repeat (destruct (c =? _); [apply IH in Hp; lia|]). by simplify_eq/=.
Qed.

Lemma skip_atoi_len s i i' s' : skip_atoi s i = (i', s') → (length s' ≤ length s)%nat.
Proof.
  revert i. induction s as [|c s IH]; intros i Hp; simpl in *; [by simplify_eq|].
  destruct (isdigit c); [apply IH in Hp; lia|by simplify_eq/=].
Qed.

Lemma tail_len (s : list Z) : (length (tail s) ≤ length s)%nat.
Proof. destruct s; simpl; lia. Qed.

Lemma parse_spec_len fmt args sp fmt' args' :
  parse_spec fmt args = Some (sp, fmt', args') → (length fmt' ≤ length fmt)%nat.
Proof.
  unfold parse_spec. destruct (parse_flags fmt 0) as [fl f1] eqn:E1. apply parse_flags_len in E1. intros Hp.
  destruct (parse_width f1 fl args) as [[[[w fl'] f2] a]|] eqn:E2; simplify_eq/=.
  destruct (parse_precision f2 a) as [[[q f3] a']|] eqn:E3; simplify_eq/=.
  destruct (parse_qualifier f3) as [ql f4] eqn:E4; simplify_eq/=.
  assert (length f2 ≤ length f1)%nat.
  { unfold parse_width in E2. pose proof (tail_len f1).
    destruct (isdigit _); [destruct (skip_atoi f1 0) eqn:Es; apply skip_atoi_len in Es; by simplify_eq/=|].
    destruct (_ =? _); [destruct (va_int args) as [[]|]; simplify_eq/=; case_match; simplify_eq/=; lia|].
    by simplify_eq. }
  assert (length f3 ≤ length f2)%nat.
  { unfold parse_precision in E3. pose proof (tail_len f2). pose proof (tail_len (tail f2)).
    destruct (_ =? _); [|by simplify_eq]. simpl in E3.
    destruct (isdigit _); [destruct (skip_atoi _ 0) eqn:Es; apply skip_atoi_len in Es; simplify_eq/=; lia|].
    destruct (_ =? _); [destruct (va_int a) as [[]|]; simplify_eq/=; lia|]. by simplify_eq/=. }
  pose proof (tail_len f3). pose proof (tail_len (tail f3)). pose proof (tail_len (tail (tail f3))).
  unfold parse_qualifier in E4. repeat case_match; simplify_eq; lia.
Qed.

Lemma conversion_run sp c args l args' p s :
  render_conv m0 sp c args = Some (l, args') →
  buf ≤ p → p + len l < lim → len l < 2 ^ 31 → ready s →
  conversion buf e sp c args p s = RRet (p + len l, args') (wr_state p l s).
Proof.
  unfold render_conv, conversion. intros Hr Hp Hl Hn Hs. case_guard as Hf; [|done]. simpl in Hr.
  unfold small_field in Hf.
  destruct (c =? ch "c").
  { destruct (va_int args) as [[x a]|]; simplify_eq/=. apply (prints_pair (conv_c sp (u8 x) e)); auto.
    apply conv_c_prints. lia. }
  destruct (c =? ch "s").
  { destruct (va_word args) as [[x a]|]; simplify_eq/=.
    destruct (string_text _ _ _) eqn:E; simplify_eq/=. apply (prints_pair (conv_s sp x e)); auto.
    apply conv_s_prints; [lia|done]. }
  destruct (c =? ch "p").
  { destruct (va_word args) as [[x a]|] eqn:E; simplify_eq/=. apply (prints_pair (conv_p sp x e)); auto.
    apply pointer_prints; [by eapply va_word_range|lia..]. }
  destruct (c =? ch "n"); [done|].
  destruct (c =? ch "%"). { simplify_eq/=. apply (prints_pair (put e (ch "%"))); auto. apply prints_put. }
  destruct (int_conv c) as [[base fl]|] eqn:Ec.
  - destruct (fetch_num _ _ _) as [[x a]|] eqn:E; simplify_eq/=.
    apply (prints_pair (λ str, number str e x base (field_width sp) (precision sp) (Z.lor (flags sp) fl))); auto.
    apply number_prints; [by eapply fetch_num_range|by eapply int_conv_base|lia..].
  - simplify_eq/=. change (ch "%" :: _) with ([ch "%"] ++ if c =? 0 then [] else [c]) in *.
    set (r := if c =? 0 then [] else [c]) in *. rewrite len_app in Hl, Hn.
    pose proof (len_nonneg [ch "%"]). pose proof (len_nonneg r).
    rewrite (kbind_of_ret _ _ _ _ _ (prints_put (ch "%") p s Hp ltac:(lia) ltac:(lia) Hs)).
    rewrite (prints_pair (λ p, if c =? 0 then kret p else put e c p) r) by
      (try (apply prints_if; intros; [apply prints_skip|apply prints_put]); try apply ready_wr; auto; lia).
    rewrite len_app. f_equal. f_equal. lia.
Qed.

Lemma loop_prints fuel fmt args l :
  renders m0 fmt args l → (length fmt ≤ fuel)%nat → prints (vsnprintf_loop fuel buf e fmt args) l.
Proof.
  intros Hr. revert fuel. induction Hr as [args|c fmt args l Hc _ IH|fmt args sp fmt' args' l1 a k Hsp El _ IH];
    intros fuel Hf; [destruct fuel; apply prints_skip|destruct fuel as [|fuel]; simpl in Hf; [lia|]..]; simpl.
  - rewrite (proj2 (Z.eqb_neq _ _) Hc). apply (prints_bind (put e c) _ [c]); [apply prints_put|apply IH; lia].
  - rewrite Hsp. intros p s Hp Hl Hn Hs. rewrite len_app in *. pose proof (len_nonneg l1). pose proof (len_nonneg k).
    unfold kderef. rewrite (kbind_of_ret _ _ s _ s) by done. cbv beta iota.
    rewrite (kbind_of_ret _ _ _ _ _ (conversion_run _ _ _ _ _ p s El Hp ltac:(lia) ltac:(lia) Hs)).
    rewrite (IH fuel); [|apply parse_spec_len in Hsp; destruct fmt'; simpl in *; lia|try apply ready_wr; auto; lia..].
    f_equal; [lia|]. unfold wr_state, set_bytes; simpl. by rewrite wr_app.
Qed.
End Out.

(** * vsnprintf *)

(** The room for the text: the buffer ends with the address space. *)
Definition capacity (buf size : Z) : Z := Z.min size (2 ^ 32 - buf).
(** What the buffer holds: the text as far as it fits, and the terminator. *)
Definition printed (cap : Z) (l : list Z) : list Z :=
  if cap =? 0 then [] else take (Z.to_nat (cap - 1)) l ++ [0].
(** The bytes from [p] on. *)
Definition bytes_at (m : gmap Z Z) (p : Z) (l : list Z) : Prop :=
  ∀ i c, l !! i = Some c → m !! (p + Z.of_nat i) = Some c.

Lemma printed_len cap l : 0 ≤ cap → len (printed cap l) = Z.min cap (len l + 1).
Proof.
  intros. unfold printed, len. destruct (cap =? 0) eqn:E; simpl; [lia|].
  rewrite length_app, length_take. simpl. lia.
Qed.

(** The end of the buffer. *)
Lemma buffer_end buf size :
  0 < buf < 2 ^ 32 → 0 ≤ size < 2 ^ 32 →
  (if u32 (buf + size - 1) <? u32 (buf - 1) then (2 ^ 32 - 1, u32 (2 ^ 32 - 1 - buf + 1))
   else (u32 (buf + size - 1), size)) =
  (buf + capacity buf size - 1, capacity buf size).
Proof.
  intros Hb Hs. unfold capacity. rewrite (u32_small (buf - 1)) by lia. destruct (Z_le_gt_dec (buf + size) (2 ^ 32)).
  - rewrite u32_small by lia. replace (_ <? _) with false by lia. f_equal; lia.
  - replace (u32 (buf + size - 1)) with (buf + size - 1 - 2 ^ 32).
    + replace (_ <? _) with true by lia. rewrite u32_small by lia. f_equal; lia.
    + rewrite <- (u32_small (buf + size - 1 - 2 ^ 32)) by lia. unfold u32.
      rewrite <- (Z_mod_plus_full _ 1). f_equal. lia.
Qed.

Section Text.
Context (buf size : Z) (l : list Z) (Hbuf : 0 < buf < 2 ^ 32) (Hsize : 0 ≤ size < 2 ^ 32).

(** The terminator after the text, or on the last byte of the buffer. *)
Definition terminated (cap : Z) (m : gmap Z Z) : gmap Z Z :=
  if cap =? 0 then m else <[Z.min (buf + len l) (buf + cap - 1) := 0]> m.

Lemma terminated_bytes m :
  bytes_at (terminated (capacity buf size) (wr m buf (buf + capacity buf size - 1) l)) buf
    (printed (capacity buf size) l).
Proof.
  pose proof (len_nonneg l) as Hl0.
  assert (Hc : 0 ≤ capacity buf size) by (unfold capacity; lia).
  intros i c Hi. pose proof (lookup_lt_Some _ _ _ Hi) as Hlt.
  assert (Hl : Z.of_nat i < len (printed (capacity buf size) l)) by (unfold len; lia).
  rewrite printed_len in Hl by done. unfold printed, terminated in *.
  set (cap := capacity buf size) in *. destruct (cap =? 0) eqn:E; [done|].
  destruct (decide (Z.of_nat i = Z.min (len l) (cap - 1))) as [Heq|Hne].
  - replace (buf + Z.of_nat i) with (Z.min (buf + len l) (buf + cap - 1)) by lia. rewrite lookup_insert_eq.
    rewrite lookup_app_r in Hi by (rewrite length_take; unfold len in *; lia).
    rewrite length_take in Hi. replace (i - _)%nat with 0%nat in Hi by (unfold len in *; lia). done.
  - rewrite lookup_insert_ne by lia. apply wr_in; [|lia].
    rewrite lookup_app_l in Hi by (rewrite length_take; unfold len in *; lia).
    by rewrite lookup_take_lt in Hi by lia.
Qed.

Lemma terminated_frame m a :
  ¬ (buf ≤ a < buf + len (printed (capacity buf size) l)) →
  terminated (capacity buf size) (wr m buf (buf + capacity buf size - 1) l) !! a = m !! a.
Proof.
  pose proof (len_nonneg l) as Hl0.
  assert (Hc : 0 ≤ capacity buf size) by (unfold capacity; lia).
  rewrite printed_len by done. set (cap := capacity buf size) in *. intros Ha. unfold terminated.
  assert (Hw : wr m buf (buf + cap - 1) l !! a = m !! a).
  { destruct (decide (buf ≤ a ≤ buf + cap - 1)); [apply wr_past|apply wr_out]; lia. }
  destruct (cap =? 0) eqn:E; [done|]. rewrite lookup_insert_ne by lia. done.
Qed.
Lemma terminated_mapped cap m a : is_Some (m !! a) → is_Some (terminated cap (wr m buf (buf + cap - 1) l) !! a).
Proof.
  intros Ha. unfold terminated. destruct (cap =? 0); [by apply wr_mapped|].
  destruct (decide (Z.min (buf + len l) (buf + cap - 1) = a)) as [->|];
    [rewrite lookup_insert_eq; eauto|rewrite lookup_insert_ne by done; by apply wr_mapped].
Qed.
End Text.

Section Buffer.
Context (st : cmem) (m0 : gmap Z Z) (buf size : Z) (fmt args l : list Z).
Context (Hbuf : 0 < buf < 2 ^ 32) (Hsize : 0 ≤ size < 2 ^ 32).
Context (Hroom : ∀ a, buf ≤ a < buf + len (printed (capacity buf size) l) →
                      is_Some (cm_bytes st !! a) ∧ m0 !! a = None).
Context (Hm0 : m0 ⊆ cm_bytes st) (Hr : renders m0 fmt args l).
Context (Hlen : len l < 2 ^ 31) (Htop : buf + len l < 2 ^ 32).

Lemma vsnprintf_run :
  vsnprintf buf size fmt args st =
  RRet (len l) (set_bytes (λ m, terminated buf l (capacity buf size) (wr m buf (buf + capacity buf size - 1) l)) st).
Proof.
  pose proof (len_nonneg l) as Hl0.
  assert (Hc : 0 ≤ capacity buf size ≤ 2 ^ 32 - buf) by (unfold capacity; lia).
  rewrite printed_len in Hroom by lia. set (cap := capacity buf size) in *.
  unfold vsnprintf. cbv zeta. rewrite (buffer_end buf size Hbuf Hsize). fold cap.
  set (e := buf + cap - 1) in *. set (lim := buf + len l + 1).
  assert (Hrd : ready buf e lim m0 st). { split; [|done]. intros a ??. apply Hroom. lia. }
  assert (Hd : ∀ a, buf ≤ a ≤ e → a < lim → m0 !! a = None). { intros a ??. apply Hroom. lia. }
  rewrite (kbind_of_ret _ _ _ _ _ (loop_prints buf e lim m0 ltac:(lia) ltac:(lia) Hd _ _ _ _ Hr (le_n _) buf st
    ltac:(lia) ltac:(lia) Hlen Hrd)).
  unfold wr_state. set (s1 := set_bytes _ st).
  assert (Hs1 : ∀ a, buf ≤ a < buf + Z.min cap (len l + 1) → is_Some (cm_bytes s1 !! a)).
  { intros a Ha. by apply wr_mapped, Hroom. }
  unfold terminated. replace (i32 (buf + len l - buf)) with (len l) by (rewrite i32_small; lia).
  destruct (buf + len l <=? e) eqn:E; [|destruct (0 <? cap) eqn:E0].
  - rewrite (stb_bind s1) by (apply Hs1; lia). replace (cap =? 0) with false by lia.
    rewrite Z.min_l by lia. done.
  - rewrite (stb_bind s1) by (apply Hs1; lia). replace (cap =? 0) with false by lia.
    rewrite Z.min_r by lia. done.
  - replace (cap =? 0) with true by lia. done.
Qed.
End Buffer.

(** C16. vsnprintf implements the specification: with a buffer of [size] bytes at
    [buf], and the strings to print in [m0] outside the buffer, it returns the
    length of the text of the format, the buffer holds as much of the text as
    fits and a terminator (nothing if the size is 0), and no other byte of memory
    changes.  With the size 0xFFFFFFFF this is vsprintf. *)
Theorem vsnprintf_correct st m0 buf size fmt args l :
  0 < buf < 2 ^ 32 → 0 ≤ size < 2 ^ 32 →
  (∀ a, buf ≤ a < buf + len (printed (capacity buf size) l) → is_Some (cm_bytes st !! a) ∧ m0 !! a = None) →
  m0 ⊆ cm_bytes st → renders m0 fmt args l → len l < 2 ^ 31 → buf + len l < 2 ^ 32 →
  ∃ st', vsnprintf buf size fmt args st = RRet (len l) st' ∧
    bytes_at (cm_bytes st') buf (printed (capacity buf size) l) ∧
    (∀ a, ¬ (buf ≤ a < buf + len (printed (capacity buf size) l)) → cm_bytes st' !! a = cm_bytes st !! a) ∧
    cm_savept st' = cm_savept st.
Proof.
  intros Hb Hs Hroom Hm0 Hr Hl Ht. eexists. split; [by eapply vsnprintf_run|]. split_and!; simpl.
  - by apply terminated_bytes.
  - intros a Ha. by apply terminated_frame.
  - done.
Qed.

(** * iprintf *)

(** Several calls that pass on the pointer and the size. *)
Fixpoint iprintfs (str size : Z) (calls : list (list Z * list Z)) : cM (Z * Z) :=
  match calls with
  | [] => kret (str, size)
  | (fmt, args) :: calls =>
      let* r := iprintf str size fmt args in
      let '(str, size, _) := r in iprintfs str size calls
  end.

Lemma bytes_at_app m p l k : bytes_at m p (l ++ k) ↔ bytes_at m p l ∧ bytes_at m (p + len l) k.
Proof.
  unfold bytes_at, len. split; [intros H; split; intros i c Hi|intros [H1 H2] i c Hi].
  - apply H. by apply lookup_app_l_Some.
  - replace (p + Z.of_nat (length l) + Z.of_nat i) with (p + Z.of_nat (length l + i)) by lia.
    apply H. by rewrite lookup_app_r, Nat.add_sub_swap, Nat.sub_diag by lia.
  - apply lookup_app_Some in Hi as [Hi|[Hge Hi]]; [by apply H1|].
    rewrite <- (H2 _ _ Hi). f_equal. lia.
Qed.

Lemma printed_app size l k :
  1 ≤ size →
  printed size (l ++ k) =
  take (Z.to_nat (Z.min (len l) (size - 1))) l ++ printed (size - Z.min (len l) (size - 1)) k.
Proof.
  intros Hs. unfold printed, len. rewrite !(proj2 (Z.eqb_neq _ 0)) by lia.
  rewrite take_app, <- app_assoc. f_equal; [|f_equal; f_equal; lia].
  destruct (decide (Z.of_nat (length l) ≤ size - 1)); [|f_equal; lia].
  rewrite !take_ge; [done|lia..].
Qed.

Lemma printed_one size l :
  1 ≤ size → printed size l = take (Z.to_nat (Z.min (len l) (size - 1))) l ++ [0].
Proof.
  intros. rewrite <- (app_nil_r l) at 1. rewrite printed_app by done. f_equal.
  unfold printed. rewrite (proj2 (Z.eqb_neq _ 0)) by lia. by rewrite take_nil.
Qed.

Definition fits (m0 : gmap Z Z) (str size : Z) (call : list Z * list Z) (l : list Z) : Prop :=
  renders m0 call.1 call.2 l ∧ len l < 2 ^ 31 ∧ str + size + len l < 2 ^ 32.

Lemma iprintf_run st m0 str size fmt args l :
  0 < str → 1 ≤ size < 2 ^ 31 → fits m0 str size (fmt, args) l →
  (∀ a, str ≤ a < str + size → is_Some (cm_bytes st !! a) ∧ m0 !! a = None) → m0 ⊆ cm_bytes st →
  let k := Z.min (len l) (size - 1) in
  ∃ st', iprintf str size fmt args st = RRet (str + k, size - k, size - k - 1) st' ∧
    bytes_at (cm_bytes st') str (printed size l) ∧
    (∀ a, ¬ (str ≤ a < str + size) → cm_bytes st' !! a = cm_bytes st !! a) ∧
    (∀ a, is_Some (cm_bytes st !! a) → is_Some (cm_bytes st' !! a)) ∧
    cm_savept st' = cm_savept st.
Proof.
  intros Hstr Hsize (Hr & Hl & Ht) Hroom Hm0. cbv zeta. pose proof (len_nonneg l).
  assert (Hcap : capacity str size = size) by (unfold capacity; lia).
  eexists. split.
  - unfold iprintf. rewrite (kbind_of_ret _ _ _ _ _
      (vsnprintf_run st m0 str size fmt args l ltac:(lia) ltac:(lia)
        ltac:(intros a; rewrite Hcap, printed_len by lia; intros; apply Hroom; lia) Hm0 Hr Hl ltac:(lia))).
    rewrite kassert_next by lia. rewrite i32_small by lia. cbv zeta.
    rewrite !u32_small by lia. reflexivity.
  - rewrite Hcap. simpl. split_and!; [| | |done].
    + rewrite <- Hcap. apply terminated_bytes; lia.
    + intros a Ha. rewrite <- Hcap. apply terminated_frame; [lia..|]. rewrite Hcap, printed_len by lia. lia.
    + intros a Ha. by apply terminated_mapped.
Qed.

(** A sequence of iprintf calls writes one text: started on an empty string with
    [size] bytes, the buffer holds the texts of the calls one after the other, as
    far as they fit, and a terminator; the pointer that is passed on is at the
    terminator and the size is what is left, at least 1; nothing outside the
    buffer changes. *)
Theorem iprintf_appends st m0 str size calls ls :
  0 < str → 1 ≤ size < 2 ^ 31 → Forall2 (fits m0 str size) calls ls →
  (∀ a, str ≤ a < str + size → is_Some (cm_bytes st !! a) ∧ m0 !! a = None) → m0 ⊆ cm_bytes st →
  cm_bytes st !! str = Some 0 →
  let k := Z.min (len (concat ls)) (size - 1) in
  ∃ st', iprintfs str size calls st = RRet (str + k, size - k) st' ∧
    bytes_at (cm_bytes st') str (printed size (concat ls)) ∧
    (∀ a, ¬ (str ≤ a < str + size) → cm_bytes st' !! a = cm_bytes st !! a).
Proof.
  cbv zeta. intros Hstr Hsize Hf. revert st str size Hstr Hsize Hf.
  induction calls as [|[fmt args] calls IH] in ls |- *; intros st str size Hstr Hsize Hf Hroom Hm0 Hnul.
  - apply Forall2_nil_inv_l in Hf as ->. exists st. simpl. unfold len. simpl. split_and!; [| |done].
    + unfold kret. f_equal. f_equal; lia.
    + rewrite printed_one, take_nil by lia. intros [|i] c ?; simplify_eq/=. by rewrite Z.add_0_r.
  - apply Forall2_cons_inv_l in Hf as (l & ls' & Hl & Hls & ->). simpl concat. rewrite len_app.
    destruct (iprintf_run st m0 str size fmt args l Hstr Hsize Hl Hroom Hm0) as (st1 & E1 & B1 & F1 & M1 & S1).
    pose proof (len_nonneg l). set (k1 := Z.min (len l) (size - 1)) in *.
    rewrite printed_one in B1 by lia. fold k1 in B1. apply bytes_at_app in B1 as [B1 B0].
    assert (Hk : len (take (Z.to_nat k1) l) = k1) by (unfold k1, len; rewrite length_take; unfold len; lia).
    rewrite Hk in B0.
    destruct (IH ls' st1 (str + k1) (size - k1)) as (st2 & E2 & B2 & F2).
    + lia.
    + lia.
    + eapply Forall2_impl; [exact Hls|]. intros c k (?&?&?). split_and!; auto. lia.
    + intros a Ha. destruct (Hroom a ltac:(lia)). auto.
    + apply map_subseteq_spec. intros a v Ha. destruct (decide (str ≤ a < str + size)) as [Hi|Ho].
      * by rewrite (proj2 (Hroom a Hi)) in Ha.
      * rewrite F1 by done. by eapply map_subseteq_spec.
    + rewrite <- (B0 0%nat 0) by done. f_equal. lia.
    + exists st2. split_and!.
      * simpl. rewrite (kbind_of_ret _ _ _ _ _ E1). cbv beta iota. rewrite E2. pose proof (len_nonneg (concat ls')). f_equal. f_equal; lia.
      * rewrite printed_app by lia. fold k1. apply bytes_at_app. split; [|by rewrite Hk].
        intros i c Hi. rewrite F2; [by apply B1|]. apply lookup_lt_Some in Hi. unfold len in Hk. lia.
      * intros a Ha. rewrite F2 by lia. by apply F1.
Qed.

(** * Numerals *)

Definition value_from (base r : Z) (ds : list Z) : Z := foldl (λ a d, a * base + d) r ds.
Definition value (base : Z) (ds : list Z) : Z := value_from base 0 ds.
Definition is_digits (base : Z) (ds : list Z) : Prop := Forall (λ d, 0 ≤ d < base) ds.

Lemma value_from_ge base r ds : 1 ≤ base → 0 ≤ r → is_digits base ds → r ≤ value_from base r ds.
Proof.
  intros Hb Hr Hd. revert r Hr. induction Hd as [|d ds Hd _ IH]; intros r Hr; simpl; [done|].
  assert (r * base + d ≤ value_from base (r * base + d) ds) by (apply IH; nia). unfold value_from in *. nia.
Qed.

(** The digits of a number, at least one. *)
Definition digits_of (base n : Z) : list Z := if n =? 0 then [0] else digit_list 64 base n.

Lemma numeral_digits large base n : numeral large base n = digit_char large <$> digits_of base n.
Proof. unfold numeral, digits_of. destruct (n =? 0); [|done]. by destruct large. Qed.

Lemma digit_list_value fuel base n :
  2 ≤ base → 0 ≤ n < 2 ^ Z.of_nat fuel →
  is_digits base (digit_list fuel base n) ∧ value base (digit_list fuel base n) = n ∧
  (n ≠ 0 → digit_list fuel base n ≠ []).
Proof.
  intros Hb. revert n. induction fuel as [|fuel IH]; intros n Hn.
  - simpl in Hn. split_and!; [constructor|simpl; unfold value; simpl; lia|lia].
  - rewrite Nat2Z.inj_succ, Z.pow_succ_r in Hn by lia. simpl.
    destruct (n =? 0) eqn:E; [split_and!; [constructor|unfold value; simpl; lia|lia]|].
    destruct (IH (n / base)) as (Hd & Hv & _).
    { split; [apply Z.div_pos; lia|apply Z.div_lt_upper_bound; nia]. }
    pose proof (Z.mod_pos_bound n base ltac:(lia)). split_and!.
    + apply Forall_app. split; [done|]. constructor; [done|constructor].
    + unfold value, value_from in *. rewrite foldl_app, Hv. simpl. rewrite (Z.div_mod n base) at 3 by lia. lia.
    + intros _ Hc. by apply app_eq_nil in Hc as [_ ?].
Qed.

Lemma digits_of_spec base n :
  2 ≤ base → 0 ≤ n < 2 ^ 64 →
  is_digits base (digits_of base n) ∧ value base (digits_of base n) = n ∧ digits_of base n ≠ [].
Proof.
  intros Hb Hn. unfold digits_of. destruct (n =? 0) eqn:E.
  - split_and!; [repeat constructor; lia|unfold value; simpl; lia|done].
  - destruct (digit_list_value 64 base n Hb) as (? & ? & Hne); [done|]. split_and!; [done..|]. apply Hne. lia.
Qed.

Lemma cur_cons c s : cur (c :: s) = c.
Proof. done. Qed.

(** What the character classes say about digit characters. *)
Lemma digit_chars large d :
  0 ≤ d < 16 →
  let c := digit_char large d in
  isxdigit c = true ∧ digit_value c = d ∧ isspace c = false ∧ c ≠ ch "-" ∧ c ≠ 0 ∧ c ≠ ch "+" ∧
  (d < 10 → isdigit c = true ∧ schar c = ch "0" + d).
Proof.
  intros Hd. assert (∃ k : nat, d = Z.of_nat k ∧ (k < 16)%nat) as (k & -> & Hk) by (exists (Z.to_nat d); lia).
  destruct large; do 16 (destruct k as [|k]; [vm_compute; naive_solver|]); lia.
Qed.

Lemma strto_digits (wrap : Z → Z) M large base ds rest r :
  (∀ x, 0 ≤ x < M → wrap x = x) → 2 ≤ base ≤ 16 → is_digits base ds → 0 ≤ r → value_from base r ds < M →
  isxdigit (cur rest) && (digit_value (cur rest) <? base) = false →
  strto_loop wrap ((digit_char large <$> ds) ++ rest) base r = (value_from base r ds, rest).
Proof.
  intros Hw Hb Hd. revert r. induction Hd as [|d ds Hd Hds IH]; intros r Hr Hv Hrest; simpl.
  - destruct rest as [|c rest]; simpl in *; [done|]. rewrite cur_cons in Hrest. by rewrite Hrest.
  - destruct (digit_chars large d ltac:(lia)) as (-> & -> & _). replace (d <? base) with true by lia. simpl.
    simpl in Hv. pose proof (value_from_ge base (r * base + d) ds ltac:(lia) ltac:(nia) Hds).
    unfold value_from in *. rewrite Hw by nia. apply IH; [nia|done|done].
Qed.

(** ** strtol *)

Lemma i32_neg x : 0 ≤ x ≤ 2 ^ 31 → i32 (u32 (- x)) = - x.
Proof.
  intros Hx. destruct (decide (x = 0)) as [->|]; [done|]. unfold u32. rewrite <- (Z_mod_plus_full (- x) 1).
  rewrite Z.mod_small by lia. unfold i32. replace (- x + 1 * 2 ^ 32 + 2 ^ 31) with (- x + 2 ^ 31 + 1 * 2 ^ 32) by lia.
  rewrite Z_mod_plus_full, Z.mod_small; lia.
Qed.

Lemma strtol_chars large d :
  0 ≤ d < 36 →
  let c := digit_char large d in
  strtol_digit (schar c) = Some d ∧ isspace c = false ∧ c ≠ ch "-" ∧ c ≠ ch "+".
Proof.
  intros Hd. assert (∃ k : nat, d = Z.of_nat k ∧ (k < 36)%nat) as (k & -> & Hk) by (exists (Z.to_nat d); lia).
  destruct large; do 36 (destruct k as [|k]; [vm_compute; naive_solver|]); lia.
Qed.

(** [rest] does not go on with a digit. *)
Definition ends_numeral (base : Z) (rest : list Z) : Prop :=
  match strtol_digit (schar (cur rest)) with Some d => base ≤ d | None => True end.

Section Strtol.
Context (base limit : Z) (large : bool) (Hbase : 2 ≤ base ≤ 36) (Hlimit : 0 ≤ limit < 2 ^ 32).

Lemma strtol_over ds rest acc :
  is_digits base ds → ends_numeral base rest →
  strtol_loop ((digit_char large <$> ds) ++ rest) base (limit / base) (limit `mod` base) acc (-1) = (acc, -1, rest).
Proof.
  intros Hd Hr. induction Hd as [|d ds Hd _ IH]; simpl.
  - destruct rest as [|c rest]; simpl; [done|]. unfold ends_numeral in Hr. rewrite cur_cons in Hr.
    destruct (strtol_digit (schar c)); [|done]. by replace (base <=? z) with true by lia.
  - destruct (strtol_chars large d ltac:(lia)) as (-> & _). replace (base <=? d) with false by lia. simpl. done.
Qed.

Lemma cutoff_spec acc d :
  0 ≤ d < base → 0 ≤ acc →
  (limit / base <? acc) || ((acc =? limit / base) && (limit `mod` base <? d)) = (limit <? acc * base + d).
Proof.
  intros Hd Ha. pose proof (Z.div_mod limit base ltac:(lia)) as Hm. pose proof (Z.mod_pos_bound limit base ltac:(lia)).
  set (q := limit / base) in *. set (r := limit `mod` base) in *. clearbody q r.
  apply eq_true_iff_eq. rewrite orb_true_iff, andb_true_iff, !Z.ltb_lt, Z.eqb_eq. split; [nia|].
  intros. destruct (Z_lt_le_dec q acc); [by left|right]. assert (acc = q) as -> by nia. lia.
Qed.

Lemma strtol_loop_run ds rest acc any :
  is_digits base ds → ends_numeral base rest → 0 ≤ acc → 0 ≤ any →
  if value_from base acc ds <=? limit then
    strtol_loop ((digit_char large <$> ds) ++ rest) base (limit / base) (limit `mod` base) acc any =
      (value_from base acc ds, if bool_decide (ds = []) then any else 1, rest)
  else acc ≤ limit → ∃ acc',
    strtol_loop ((digit_char large <$> ds) ++ rest) base (limit / base) (limit `mod` base) acc any = (acc', -1, rest).
Proof.
  intros Hd Hr. revert acc any. induction Hd as [|d ds Hd Hds IH]; intros acc any Ha Hany; simpl.
  - destruct (acc <=? limit) eqn:E; [|lia].
    destruct rest as [|c rest]; simpl; [done|]. unfold ends_numeral in Hr. rewrite cur_cons in Hr.
    destruct (strtol_digit (schar c)); [|done]. by replace (base <=? z) with true by lia.
  - destruct (strtol_chars large d ltac:(lia)) as (-> & _). replace (base <=? d) with false by lia.
    replace (any <? 0) with false by lia. simpl orb. rewrite cutoff_spec by lia.
    change (foldl (λ a d, a * base + d) (acc * base + d) ds) with (value_from base (acc * base + d) ds).
    pose proof (value_from_ge base (acc * base + d) ds ltac:(lia) ltac:(nia) Hds) as Hge.
    specialize (IH (acc * base + d) 1 ltac:(nia) ltac:(lia)).
    destruct (limit <? acc * base + d) eqn:E.
    + destruct (_ <=? limit) eqn:E'; [lia|]. intros _. exists acc. by apply strtol_over.
    + rewrite u32_small by (split; [nia|lia]). destruct (_ <=? limit) eqn:E'.
      * etrans; [exact IH|]. by destruct ds.
      * intros _. apply IH. lia.
Qed.
End Strtol.

Lemma skip_spaces ws s : Forall (λ c, isspace c = true) ws → isspace (cur s) = false → skip_space (ws ++ s) = s.
Proof.
  intros Hw Hs. induction Hw as [|c ws Hc _ IH]; simpl; [|by rewrite Hc].
  destruct s as [|c s]; simpl; [done|]. rewrite cur_cons in Hs. by rewrite Hs.
Qed.

Lemma strtol_number_run base large nptr (neg : bool) ds rest :
  2 ≤ base ≤ 36 → ds ≠ [] → is_digits base ds → ends_numeral base rest →
  (base = 16 → hex_prefix ((digit_char large <$> ds) ++ rest) = false) →
  let v := if neg then - value base ds else value base ds in
  strtol_number nptr neg ((digit_char large <$> ds) ++ rest) base =
  (Z.max LONG_MIN (Z.min LONG_MAX v),
   if (LONG_MIN <=? v) && (v <=? LONG_MAX) then None else Some ERANGE, rest).
Proof.
  intros Hb Hne Hds Hrest Hhex. cbv zeta. unfold strtol_number.
  replace (((base =? 0) || (base =? 16)) && hex_prefix ((digit_char large <$> ds) ++ rest)) with false; last first.
  { destruct (base =? 16) eqn:E; [by rewrite Hhex, andb_false_r by lia|]. by replace (base =? 0) with false by lia. }
  replace (base =? 0) with false by lia. replace ((base <? 2) || (36 <? base)) with false by lia.
  set (limit := if neg then _ else _).
  assert (Hl : limit = if neg then 2 ^ 31 else 2 ^ 31 - 1) by (by destruct neg).
  pose proof (strtol_loop_run base limit large Hb ltac:(destruct neg; lia) ds rest 0 0 Hds Hrest ltac:(lia) ltac:(lia)) as Hrun.
  pose proof (value_from_ge base 0 ds ltac:(lia) ltac:(lia) Hds).
  change (value_from base 0 ds) with (value base ds) in *. unfold LONG_MIN, LONG_MAX.
  destruct (value base ds <=? limit) eqn:E.
  - rewrite Hrun, bool_decide_false by done. simpl. destruct neg.
    + assert (i32 (u32 (- value base ds)) = - value base ds) as -> by (apply i32_neg; lia).
      replace (_ && _) with true by lia. repeat f_equal; lia.
    + rewrite i32_small by lia. replace (_ && _) with true by lia. repeat f_equal; lia.
  - destruct Hrun as [acc ->]; [destruct neg; lia|]. simpl.
    destruct neg; replace (_ && _) with false by lia; repeat f_equal; lia.
Qed.

(** C18. strtol gives the value of a numeral: after white space and a sign, digits of
    the base, in either case, up to the first character that is no such digit.
    It returns the value and where the numeral ends; out of the range of a long
    it returns the nearest long and sets ERANGE. *)
Theorem strtol_correct base large ws sg ds rest :
  2 ≤ base ≤ 36 → Forall (λ c, isspace c = true) ws → sg ∈ [[]; text "+"; text "-"] →
  ds ≠ [] → is_digits base ds → ends_numeral base rest →
  (base = 16 → hex_prefix ((digit_char large <$> ds) ++ rest) = false) →
  let v := if bool_decide (sg = text "-") then - value base ds else value base ds in
  strtol (ws ++ sg ++ (digit_char large <$> ds) ++ rest) base =
  (Z.max LONG_MIN (Z.min LONG_MAX v),
   if (LONG_MIN <=? v) && (v <=? LONG_MAX) then None else Some ERANGE, rest).
Proof.
  intros Hb Hws Hsg Hne Hds Hrest Hhex. cbv zeta.
  destruct ds as [|d ds]; [done|]. assert (Hd : 0 ≤ d < base) by (by inversion Hds).
  destruct (strtol_chars large d ltac:(lia)) as (_ & Hsp & Hm & Hp).
  pose proof (strtol_number_run base large (ws ++ sg ++ (digit_char large <$> d :: ds) ++ rest)
    (bool_decide (sg = text "-")) (d :: ds) rest Hb Hne Hds Hrest Hhex) as Hrun. cbv zeta in Hrun.
  rewrite <- Hrun. clear Hrun. unfold strtol.
  repeat (apply elem_of_cons in Hsg as [->|Hsg]); [| | |by apply elem_of_nil in Hsg].
  - rewrite skip_spaces by done. unfold strtol_sign. simpl. rewrite !cur_cons.
    by rewrite !(proj2 (Z.eqb_neq _ _)).
  - by rewrite skip_spaces.
  - by rewrite skip_spaces.
Qed.

(** * Printing and scanning *)

Fixpoint le_bytes (n : nat) (x : Z) : list Z :=
  match n with O => [] | S n => u8 x :: le_bytes n (x / 256) end.

Lemma le_bytes_mod n x k : le_bytes n (x + k * 2 ^ (8 * Z.of_nat n)) = le_bytes n x.
Proof.
  revert x. induction n as [|n IH]; intros x; [done|]. simpl le_bytes.
  replace (8 * Z.of_nat (S n)) with (8 + 8 * Z.of_nat n) by lia. rewrite Z.pow_add_r by lia.
  replace (x + k * (2 ^ 8 * 2 ^ (8 * Z.of_nat n))) with (x + k * 2 ^ (8 * Z.of_nat n) * 256) by lia.
  unfold u8. by rewrite Z_mod_plus_full, Z.div_add, IH by lia.
Qed.

Lemma st_bytes_run n p x s :
  (∀ a, p ≤ a < p + Z.of_nat n → is_Some (cm_bytes s !! a)) →
  ∃ s', st_bytes n p x s = RRet tt s' ∧ bytes_at (cm_bytes s') p (le_bytes n x) ∧
    (∀ a, a < p → cm_bytes s' !! a = cm_bytes s !! a).
Proof.
  revert p x s. induction n as [|n IH]; intros p x s Hm; simpl; [by exists s|].
  rewrite (stb_bind s) by (apply Hm; lia). set (s1 := set_bytes _ s).
  destruct (IH (p + 1) (x / 256) s1) as (s' & E & B & F).
  { intros a Ha. simpl. rewrite lookup_insert_ne by lia. apply Hm. lia. }
  exists s'. split_and!; [done| |].
  - intros [|i] c Hi; simplify_eq/=.
    + rewrite Z.add_0_r, F by lia. apply lookup_insert_eq.
    + rewrite <- (B i c Hi). f_equal. lia.
  - intros a Ha. rewrite F by lia. simpl. rewrite lookup_insert_ne by lia. done.
Qed.

(** The directives: a length modifier and an integer conversion. *)
Definition modifiers : list (list Z) := [text ""; text "l"; text "ll"; text "h"].
Definition conversions : list Z := [ch "d"; ch "u"; ch "x"; ch "X"; ch "o"].
Definition mod_size (q : list Z) : nat :=
  if decide (q = text "ll") then 8%nat else if decide (q = text "h") then 2%nat else 4%nat.
(** An integer as the arguments of a call. *)
Definition arg_words (q : list Z) (x : Z) : list Z :=
  if decide (q = text "ll") then [u32 x; u32 (x / 2 ^ 32)] else [u32 x].

(** What the two functions make of a directive. *)
Record directive (q : list Z) (c : Z) (qual base fl : Z) (signed : bool) : Prop := {
  dir_spec args : parse_spec (q ++ [c]) args = Some (Spec 0 (-1) (-1) qual, [c], args);
  dir_int : int_conv c = Some (base, fl);
  dir_sign : has fl SIGN = signed;
  dir_plain : has fl PLUS = false ∧ has fl SPACE = false ∧ has fl SPECIAL = false;
  dir_not : c ≠ ch "c" ∧ c ≠ ch "s" ∧ c ≠ ch "p" ∧ c ≠ ch "n" ∧ c ≠ ch "%" ∧ c ≠ 0;
  dir_star : cur (q ++ [c]) ≠ ch "*";
  dir_width : scan_width (q ++ [c]) = (-1, q ++ [c]);
  dir_qual : scan_qualifier (q ++ [c]) = (qual, [c]);
  dir_scan : scan_conv c = Some (base, signed);
  dir_base : base = 8 ∨ base = 10 ∨ base = 16;
  dir_mod : (q = text "ll" ∧ qual = ch "L") ∨ (q = text "h" ∧ qual = ch "h") ∨
            (q ≠ text "ll" ∧ q ≠ text "h" ∧ (qual = -1 ∨ qual = ch "l")) }.

Lemma directive_exists q c :
  q ∈ modifiers → c ∈ conversions → ∃ qual base fl signed, directive q c qual base fl signed.
Proof.
  intros Hq Hc. unfold modifiers, conversions in *.
  repeat (apply elem_of_cons in Hq as [->|Hq]); [..|by apply elem_of_nil in Hq];
    (repeat (apply elem_of_cons in Hc as [->|Hc]); [..|by apply elem_of_nil in Hc]);
    eexists _, _, _, _; split; try done; try (vm_compute; naive_solver).
Qed.

Lemma u32_cong x : ∃ k, u32 x = x + k * 2 ^ 32.
Proof. exists (- (x / 2 ^ 32)). unfold u32. pose proof (Z.div_mod x (2 ^ 32) ltac:(lia)). lia. Qed.
Lemma i32_cong x : ∃ k, i32 x = x + k * 2 ^ 32.
Proof. exists (- ((x + 2 ^ 31) / 2 ^ 32)). unfold i32. pose proof (Z.div_mod (x + 2 ^ 31) (2 ^ 32) ltac:(lia)). lia. Qed.
Lemma u64_cong x : ∃ k, u64 x = x + k * 2 ^ 64.
Proof. exists (- (x / 2 ^ 64)). unfold u64. pose proof (Z.div_mod x (2 ^ 64) ltac:(lia)). lia. Qed.
Lemma i64_cong x : ∃ k, i64 x = x + k * 2 ^ 64.
Proof. exists (- ((x + 2 ^ 63) / 2 ^ 64)). unfold i64. pose proof (Z.div_mod (x + 2 ^ 63) (2 ^ 64) ltac:(lia)). lia. Qed.
Lemma words_cong x : ∃ k, u32 (u32 x) + u32 (u32 (x / 2 ^ 32)) * 2 ^ 32 = x + k * 2 ^ 64.
Proof.
  rewrite !(u32_small (u32 _)) by apply u32_range. destruct (u32_cong (x / 2 ^ 32)) as [k ->].
  exists k. unfold u32. pose proof (Z.div_mod x (2 ^ 32) ltac:(lia)). lia.
Qed.

Section Directive.
Context (q : list Z) (c qual base fl : Z) (signed : bool) (Hdir : directive q c qual base fl signed).

(** The value that sscanf stores for the argument [v] of [number]. *)
Definition scanned (v : Z) : Z := if signed then v else u64 v.

Lemma fetch_words x :
  ∃ v k, fetch_num qual fl (arg_words q x) = Some (v, []) ∧
    scanned v = x + k * 2 ^ (8 * Z.of_nat (mod_size q)) ∧
    (qual = ch "L" ∨ (if signed then - 2 ^ 31 ≤ v < 2 ^ 31 else 0 ≤ v < 2 ^ 32)).
Proof.
  unfold fetch_num, scanned. rewrite (dir_sign _ _ _ _ _ _ Hdir).
  assert (Hu : ∀ v, 0 ≤ v < 2 ^ 32 → u64 v = v) by (intros; unfold u64; rewrite Z.mod_small; lia).
  destruct (dir_mod _ _ _ _ _ _ Hdir) as [[-> ->]|[[-> ->]|(H1 & H2 & Hq)]].
  - change (arg_words (text "ll") x) with [u32 x; u32 (x / 2 ^ 32)]. 
    change (8 * Z.of_nat (mod_size (text "ll"))) with 64. simpl va_word. simpl mbind.
    destruct (words_cong x) as [k ->]. destruct (i64_cong (x + k * 2 ^ 64)) as [j Hj].
    destruct (u64_cong (i64 (x + k * 2 ^ 64))) as [i Hi].
    eexists _, (if signed then k + j else k + j + i). split_and!; [done| |by left]. destruct signed; lia.
  - change (arg_words (text "h") x) with [u32 x]. 
    change (8 * Z.of_nat (mod_size (text "h"))) with 16. simpl.
    pose proof (u32_range x). rewrite (u32_small (u32 x)) by done. destruct (u32_cong x) as [k Hk].
    pose proof (Z.mod_pos_bound (u32 x) (2 ^ 16) ltac:(lia)). pose proof (Z.div_mod (u32 x) (2 ^ 16) ltac:(lia)).
    destruct signed; 
      [|exists (u32 x `mod` 2 ^ 16), (- (u32 x / 2 ^ 16) + k * 2 ^ 16); rewrite Hu by lia; split_and!; [done|lia|right; lia]].
    destruct (u32 x `mod` 2 ^ 16 <? 2 ^ 15) eqn:E;
      [eexists _, (- (u32 x / 2 ^ 16) + k * 2 ^ 16)|eexists _, (- (u32 x / 2 ^ 16) + k * 2 ^ 16 - 1)];
      (split_and!; [done|lia|right; lia]).
  - assert (arg_words q x = [u32 x] ∧ 8 * Z.of_nat (mod_size q) = 32) as [-> ->].
    { unfold arg_words, mod_size. by rewrite !decide_False by done. }
    assert (Hs : (qual =? ch "L") = false ∧ (qual =? ch "Z") = false ∧ (qual =? ch "h") = false) by (destruct Hq as [->| ->]; done).
    destruct Hs as (-> & -> & ->). pose proof (u32_range x). destruct (u32_cong x) as [k Hk].
    destruct (i32_cong (u32 x)) as [j Hj]. pose proof (i32_range (u32 x)).
    exists (if signed then i32 (u32 x) else u32 x), (if signed then k + j else k). simpl. rewrite (u32_small (u32 x)) by done.
    split_and!; [by destruct (qual =? _)|destruct signed; [lia|rewrite Hu; lia]|right; destruct signed; lia].
Qed.

(** The text of a directive: a minus sign and the numeral. *)
Lemma directive_text v :
  number_text v base (-1) (-1) fl =
  (if signed && (v <? 0) then [ch "-"] else []) ++ (digit_char (has fl LARGE) <$> digits_of base (magnitude v fl)).
Proof.
  destruct (dir_plain _ _ _ _ _ _ Hdir) as (Hp & Hs & Hx). unfold number_text, sign_text, prefix_text.
  rewrite (dir_sign _ _ _ _ _ _ Hdir), Hp, Hs, Hx, numeral_digits. simpl. set (ds := digit_char _ <$> _).
  assert (∀ x, x < 0 → spaces x = [] ∧ zeros x = []) as Hn.
  { intros x ?. unfold spaces, zeros. by replace (Z.to_nat x) with 0%nat by lia. }
  pose proof (len_nonneg ds). rewrite (proj2 (Hn (-1 - len ds) ltac:(lia))). simpl.
  set (sg := (if negb signed then [] else _) ++ []). pose proof (len_nonneg sg).
  destruct (Hn (-1 - len sg - len ds) ltac:(lia)) as [-> ->].
  unfold sg. rewrite !app_nil_r. destruct (has fl LEFT), (has fl ZEROPAD), signed; simpl; try done; by destruct (v <? 0).
Qed.

Lemma simple_strtoul_run ds :
  is_digits base ds → value base ds < 2 ^ 32 →
  simple_strtoul (digit_char (has fl LARGE) <$> ds) base = (value base ds, []).
Proof.
  intros Hd Hv. unfold simple_strtoul, strto_base. pose proof (dir_base _ _ _ _ _ _ Hdir).
  replace (base =? 0) with false by lia. rewrite <- (app_nil_r (_ <$> ds)).
  apply (strto_digits u32 (2 ^ 32)); auto using u32_small; lia.
Qed.

Lemma simple_strtoull_run ds :
  is_digits base ds → value base ds < 2 ^ 64 →
  simple_strtoull (digit_char (has fl LARGE) <$> ds) base = (value base ds, []).
Proof.
  intros Hd Hv. unfold simple_strtoull, strto_base. pose proof (dir_base _ _ _ _ _ _ Hdir).
  replace (base =? 0) with false by lia. rewrite <- (app_nil_r (_ <$> ds)).
  apply (strto_digits u64 (2 ^ 64)); auto; [|lia..]. intros. by apply Z.mod_small.
Qed.

(** Scanning the text of [v] gives [v] back. *)
Lemma scan_text v :
  - 2 ^ 63 ≤ v < 2 ^ 63 → (qual = ch "L" ∨ (if signed then - 2 ^ 31 ≤ v < 2 ^ 31 else 0 ≤ v < 2 ^ 32)) →
  scan_number qual base signed (number_text v base (-1) (-1) fl) = (scanned v, mod_size q, []).
Proof.
  intros Hv Hq. rewrite directive_text. pose proof (dir_base _ _ _ _ _ _ Hdir).
  pose proof simple_strtoull_run as Hull. pose proof simple_strtoul_run as Hul.
  pose proof (magnitude_range v fl Hv) as Hm. destruct (digits_of_spec base (magnitude v fl) ltac:(lia) Hm) as (Hd & Hval & Hne).
  pose proof (dir_sign _ _ _ _ _ _ Hdir) as Hsg. unfold scanned, magnitude in *. rewrite Hsg in *.
  assert (Hcur : cur (digit_char (has fl LARGE) <$> digits_of base (if signed then Z.abs v else u64 v)) =? ch "-" = false).
  { destruct (digits_of _ _) as [|d ds]; [done|]. simpl. rewrite cur_cons. apply Z.eqb_neq.
    apply Forall_cons in Hd as [Hd _]. apply digit_chars. lia. }
  assert (qual = ch "L" ∧ mod_size q = 8%nat ∨
    (qual =? ch "L") = false ∧ (qual =? ch "Z") = false ∧ (qual =? ch "z") = false ∧ (qual =? ch "H") = false ∧
    mod_size q = (if qual =? ch "h" then 2%nat else 4%nat)) as [[-> ->]|(E1 & E2 & E3 & E4 & ->)].
  { destruct (dir_mod _ _ _ _ _ _ Hdir) as [[-> ->]|[[-> ->]|(H1 & H2 & [->| ->])]]; [by left|by right..| |];
      right; unfold mod_size; by rewrite !decide_False by done. }
  - unfold scan_number. simpl. destruct signed; simpl; [|rewrite Hull by (done || lia); by rewrite Hval].
    unfold simple_strtoll. destruct (v <? 0) eqn:E; simpl.
    + rewrite Hull by (done || lia). rewrite Hval, i64_small by lia. f_equal. f_equal. lia.
    + rewrite Hcur, Hull by (done || lia). rewrite Hval, i64_small by lia. f_equal. f_equal. lia.
  - destruct Hq as [->|Hq]; [done|]. unfold scan_number. rewrite E1, E2, E3, E4. simpl.
    destruct signed; simpl; [|rewrite Hul; [by rewrite Hval|done|]; rewrite Hval; unfold u64; rewrite Z.mod_small; lia].
    unfold simple_strtol. destruct (v <? 0) eqn:E; simpl.
    + rewrite Hul by (done || lia). rewrite Hval, i32_small by lia. f_equal. f_equal. lia.
    + rewrite Hcur, Hul by (done || lia). rewrite Hval, i32_small by lia. f_equal. f_equal. lia.
Qed.

Definition plain (a : Z) : Prop := a ≠ ch "%" ∧ isspace a = false ∧ a ≠ 0.

Lemma directive_renders pre args v :
  Forall plain pre → fetch_num qual fl args = Some (v, []) →
  renders ∅ (pre ++ ch "%" :: q ++ [c]) args (pre ++ number_text v base (-1) (-1) fl).
Proof.
  intros Hpre Hf. induction Hpre as [|a pre (Ha & _) _ IH]; simpl; [|by constructor].
  rewrite <- (app_nil_r (number_text _ _ _ _ _)).
  eapply renders_conv; [apply (dir_spec _ _ _ _ _ _ Hdir)| |apply renders_nil].
  destruct (dir_not _ _ _ _ _ _ Hdir) as (H1 & H2 & H3 & H4 & H5 & _).
  unfold render_conv. rewrite cur_cons. simpl.
  rewrite !(proj2 (Z.eqb_neq _ _)) by done. rewrite (dir_int _ _ _ _ _ _ Hdir). rewrite Z.lor_0_l. simpl. by rewrite Hf.
Qed.

(** The text starts with a minus sign or a digit of the base. *)
Lemma directive_scannable v :
  - 2 ^ 63 ≤ v < 2 ^ 63 →
  let l := number_text v base (-1) (-1) fl in
  cur l ≠ 0 ∧ skip_space l = l ∧ no_number base signed l = false ∧ 0 < len l ≤ 65.
Proof.
  intros Hv. cbv zeta. rewrite directive_text. pose proof (dir_base _ _ _ _ _ _ Hdir) as Hb.
  pose proof (magnitude_range v fl Hv) as Hm. destruct (digits_of_spec base (magnitude v fl) ltac:(lia) Hm) as (Hd & _ & Hne).
  pose proof (numeral_len (has fl LARGE) base (magnitude v fl)) as Hlen. rewrite numeral_digits in Hlen.
  destruct (digits_of base (magnitude v fl)) as [|d ds]; [done|]. apply Forall_cons in Hd as [Hd _].
  destruct (digit_chars (has fl LARGE) d ltac:(lia)) as (Hx & _ & Hsp & Hmi & H0 & _ & Hdec). rewrite fmap_cons in *.
  set (a := digit_char _ d) in *. rewrite len_cons in Hlen. pose proof (len_nonneg (digit_char (has fl LARGE) <$> ds)).
  assert (Hnum : (a =? 0) || ((base =? 16) && negb (isxdigit a)) || ((base =? 10) && negb (isdigit a))
    || ((base =? 8) && (negb (isdigit a) || (ch "7" <? schar a))) || ((base =? 0) && negb (isdigit a)) = false).
  { rewrite Hx, (proj2 (Z.eqb_neq _ _) H0). destruct Hb as [->|[->| ->]]; simpl; [|by destruct (Hdec ltac:(lia)) as [-> _]|done].
    destruct (Hdec ltac:(lia)) as [-> ->]. simpl. change (ch "7") with 55. change (ch "0") with 48. lia. }
  unfold no_number. destruct (signed && (v <? 0)) eqn:E; simpl app; simpl skip_space.
  - apply andb_true_iff in E as [Es _]. rewrite cur_cons, Es. simpl. rewrite !len_cons. rewrite cur_cons. split_and!; try done; lia.
  - rewrite cur_cons, Hsp, len_cons, (proj2 (Z.eqb_neq _ _) Hmi), andb_false_r. split_and!; try done; lia.
Qed.

Lemma directive_scan pre pre0 v p fuel s s' :
  st_bytes (mod_size q) (u32 p) (scanned v) s = RRet tt s' →
  Forall plain pre → - 2 ^ 63 ≤ v < 2 ^ 63 →
  (qual = ch "L" ∨ (if signed then - 2 ^ 31 ≤ v < 2 ^ 31 else 0 ≤ v < 2 ^ 32)) → (length pre < fuel)%nat →
  let l := number_text v base (-1) (-1) fl in
  vsscanf_loop fuel (pre0 ++ l) (pre ++ ch "%" :: q ++ [c]) (pre ++ l) [p] 0 s = RRet 1 s'.
Proof.
  cbv zeta. intros Hst Hpre Hv Hq. revert fuel. pose proof (scan_text v Hv Hq) as Hscan.
  destruct (directive_scannable v Hv) as (H0 & Hsk & Hnn & Hlen).
  set (l := number_text v base (-1) (-1) fl) in *.
  induction Hpre as [|a pre (Ha & Hsp & Hz) _ IH]; intros [|fuel] Hf; simpl in Hf; try lia.
  - destruct (dir_not _ _ _ _ _ _ Hdir) as (H1 & H2 & H3 & H4 & H5 & Hc0).
    rewrite !app_nil_l. cbn [vsscanf_loop]. rewrite cur_cons. change (isspace (ch "%")) with false.
    rewrite (proj2 (Z.eqb_neq _ _) H0). simpl.
    rewrite (proj2 (Z.eqb_neq _ _) (dir_star _ _ _ _ _ _ Hdir)), (dir_width _ _ _ _ _ _ Hdir), (dir_qual _ _ _ _ _ _ Hdir).
    cbv beta iota. rewrite cur_cons, (proj2 (Z.eqb_neq _ _) H0), (proj2 (Z.eqb_neq _ _) Hc0). simpl.
    unfold scan_one. rewrite !(proj2 (Z.eqb_neq c _)) by done.
    rewrite (dir_scan _ _ _ _ _ _ Hdir), Hsk, Hnn, Hscan. unfold kbind, kderef. simpl.
    rewrite Hst. simpl. by destruct fuel.
  - cbn [vsscanf_loop app]. rewrite !cur_cons, Hsp, (proj2 (Z.eqb_neq _ _) Hz). cbv beta iota.
    rewrite !cur_cons, Z.eqb_refl, (proj2 (Z.eqb_neq _ _) Hz), (proj2 (Z.eqb_neq _ _) Ha).
    simpl. apply IH. lia.
Qed.
End Directive.

(** C17. What snprintf prints sscanf reads back: for the directives d, u, x, X and o
    with no length modifier or with h, l or ll, after any literal text without
    blanks and %, the call vsnprintf(buf, size, fmt, x) puts a string into the
    buffer from which vsscanf(string, fmt, p) stores the 2, 4 or 8 bytes of x at p
    and returns 1. *)
Theorem printf_scanf_roundtrip st pre q c x buf size p :
  q ∈ modifiers → c ∈ conversions → Forall plain pre →
  0 < buf → len pre + 66 ≤ size < 2 ^ 31 → buf + size ≤ 2 ^ 32 → 0 ≤ p < 2 ^ 32 →
  (∀ a, buf ≤ a < buf + size → is_Some (cm_bytes st !! a)) →
  (∀ a, p ≤ a < p + Z.of_nat (mod_size q) → is_Some (cm_bytes st !! a)) →
  let fmt := pre ++ ch "%" :: q ++ [c] in
  ∃ l st1 st2, vsnprintf buf size fmt (arg_words q x) st = RRet (len l) st1 ∧
    bytes_at (cm_bytes st1) buf (l ++ [0]) ∧
    vsscanf l fmt [p] st1 = RRet 1 st2 ∧ bytes_at (cm_bytes st2) p (le_bytes (mod_size q) x).
Proof.
  intros Hq Hc Hpre Hbuf Hsize Htop Hp Hroom Hcell. cbv zeta.
  destruct (directive_exists q c Hq Hc) as (qual & base & fl & signed & Hdir).
  destruct (fetch_words _ _ _ _ _ _ Hdir x) as (v & k & Hf & Hk & Hr).
  pose proof (fetch_num_range _ _ _ _ _ Hf) as Hv.
  destruct (directive_scannable _ _ _ _ _ _ Hdir v Hv) as (_ & _ & _ & Hlen).
  set (l := pre ++ number_text v base (-1) (-1) fl).
  assert (Hl : 0 ≤ len l ≤ size - 1) by (unfold l; rewrite len_app; pose proof (len_nonneg pre); lia).
  assert (Hcap : capacity buf size = size) by (unfold capacity; lia).
  assert (Hpr : printed size l = l ++ [0]).
  { unfold printed. replace (size =? 0) with false by lia. rewrite take_ge; [done|]. unfold len in Hl. lia. }
  pose proof (vsnprintf_run st ∅ buf size (pre ++ ch "%" :: q ++ [c]) (arg_words q x) l ltac:(lia) ltac:(lia)) as Hrun.
  rewrite Hcap, Hpr, len_app in Hrun. specialize (Hrun ltac:(intros a Ha; split; [apply Hroom; change (len [0]) with 1 in Ha; lia|done])
    (map_empty_subseteq _) (directive_renders _ _ _ _ _ _ Hdir pre _ v Hpre Hf) ltac:(lia) ltac:(lia)).
  set (st1 := set_bytes _ st) in Hrun.
  destruct (st_bytes_run (mod_size q) (u32 p) (scanned signed v) st1) as (st2 & E & B & _).
  { intros a Ha. rewrite u32_small in Ha by done. by apply terminated_mapped, Hcell. }
  rewrite u32_small, Hk, le_bytes_mod in B by done.
  exists l, st1, st2. split_and!; [done| | |done].
  - pose proof (terminated_bytes buf size l ltac:(lia) ltac:(lia) (cm_bytes st)) as Hb. by rewrite Hcap, Hpr in Hb.
  - unfold vsscanf. eapply (directive_scan _ _ _ _ _ _ Hdir); auto. rewrite length_app. simpl. lia.
Qed.

(** * Witnesses *)
Module PrintfExample.
(** Zeros from 100 to 199 and the string hi at 16. *)
Definition hi : gmap Z Z := <[16 := ch "h"]> (<[17 := ch "i"]> {[18 := 0]}).
Definition room : gmap Z Z := list_to_map ((λ i, (100 + Z.of_nat i, 0)) <$> seq 0 100).
Definition mem : cmem := CMem (hi ∪ room) 0.

Lemma room_mapped a : 100 ≤ a < 200 → is_Some (cm_bytes mem !! a) ∧ hi !! a = None.
Proof.
  intros Ha. assert (∃ k : nat, a = 100 + Z.of_nat k ∧ (k < 100)%nat) as (k & -> & Hk) by (exists (Z.to_nat (a - 100)); lia).
  assert (hi !! (100 + Z.of_nat k) = None) as Hn.
  { unfold hi. rewrite !lookup_insert_ne by lia. apply lookup_singleton_ne. lia. }
  split; [|done]. simpl. rewrite lookup_union_r by done. exists 0. unfold room.
  apply elem_of_list_to_map_1.
  - rewrite <- list_fmap_compose. apply NoDup_fmap_2_strong; [intros; simpl in *; lia|apply NoDup_seq].
  - apply list_elem_of_fmap. exists k. split; [done|]. apply elem_of_seq. lia.
Qed.

Lemma hi_sub : hi ⊆ cm_bytes mem.
Proof. apply map_union_subseteq_l. Qed.

Definition fmt : list Z := text "%s=%5d".
Lemma fmt_renders : renders hi fmt [16; 42] (text "hi=   42").
Proof.
  apply (renders_conv hi _ _ (Spec 0 (-1) (-1) (-1)) (text "s=%5d") [16; 42] (text "hi") [42] (text "=   42")); [done|done|].
  apply renders_char; [done|].
  apply (renders_conv hi _ _ (Spec 0 5 (-1) (-1)) (text "d") [42] (text "   42") [] []); [done|done|]. apply renders_nil.
Qed.

(** snprintf(buf, 6, "%s=%5d", "hi", 42): the text is cut. *)
Lemma vsnprintf_correct_witness :
  ∃ st', vsnprintf 100 6 fmt [16; 42] mem = RRet 8 st' ∧ bytes_at (cm_bytes st') 100 (text "hi=  " ++ [0]).
Proof.
  destruct (vsnprintf_correct mem hi 100 6 fmt [16; 42] (text "hi=   42")) as (st' & E & B & _).
  - lia.
  - lia.
  - intros a Ha. apply room_mapped. change (len _) with 6 in Ha. lia.
  - apply hi_sub.
  - apply fmt_renders.
  - vm_compute. done.
  - vm_compute. done.
  - exists st'. split; [exact E|exact B].
Defined.

(** Two calls that share a buffer of 12 bytes. *)
Lemma iprintf_appends_witness :
  ∃ st', iprintfs 100 12 [(fmt, [16; 42]); (fmt, [16; 42])] mem = RRet (111, 1) st' ∧
    bytes_at (cm_bytes st') 100 (text "hi=   42hi=" ++ [0]).
Proof.
  destruct (iprintf_appends mem hi 100 12 [(fmt, [16; 42]); (fmt, [16; 42])] [text "hi=   42"; text "hi=   42"]) as (st' & E & B & _).
  - lia.
  - lia.
  - repeat constructor; try exact fmt_renders.
  - intros a Ha. apply room_mapped. lia.
  - apply hi_sub.
  - vm_compute. done.
  - exists st'. split; [exact E|exact B].
Defined.

Lemma strtol_correct_witness : strtol (text " -7fffffff g") 16 = (-2147483647, None, text " g").
Proof.
  apply (strtol_correct 16 false (text " ") (text "-") [7; 15; 15; 15; 15; 15; 15; 15] (text " g")).
  - lia.
  - repeat constructor.
  - vm_compute. right. right. left.
  - done.
  - repeat constructor; lia.
  - done.
  - done.
Defined.

(** "disk%d" *)
Lemma printf_scanf_roundtrip_witness :
  ∃ l st1 st2, vsnprintf 100 80 (text "disk%d") [u32 (-3)] mem = RRet (len l) st1 ∧
    vsscanf l (text "disk%d") [190] st1 = RRet 1 st2 ∧
    bytes_at (cm_bytes st2) 190 [253; 255; 255; 255].
Proof.
  destruct (printf_scanf_roundtrip mem (text "disk") (text "") (ch "d") (-3) 100 80 190) as (l & st1 & st2 & E1 & _ & E2 & B).
  - left.
  - left.
  - repeat constructor; vm_compute; done.
  - lia.
  - vm_compute. split; congruence.
  - lia.
  - lia.
  - intros a Ha. apply room_mapped. lia.
  - intros a Ha. apply room_mapped. change (Z.of_nat _) with 4 in Ha. lia.
  - exists l, st1, st2. split; [exact E1|split; [exact E2|exact B]].
Defined.
End PrintfExample.
