(* ===== verification/PageAlloc.v ===== *)
(** The page allocator: kernel/mm/page.c, with the bitmaps of
    kernel/include/util/bits.h.

    A page group is a range of pages managed by the buddy method: for each order
    a list of free blocks of [2^order] pages, and for each order a bitmap with one
    bit per pair of buddies of the order below.  Free lists are sequences (the
    links live in the free pages; KList relates such lists to sequences), bitmaps
    are read as one little-endian number, in which flipping bit [b] of the array
    of 32-bit words flips bit [b].

    The allocator asks the slab allocator to give pages back when it runs out:
    the code here is parametrised by that routine and by the state it works on. *)

From stdpp Require Import base numbers list gmap strings.
From S2P Require Import Prelude.

Open Scope Z_scope.

Definition PAGE_SHIFT : Z := 12.
Definition PAGE_SIZE : Z := 4096.
Definition PAGE_NSIZES : nat := 8.

Definition PAGE_ALIGN_DOWN (x : Z) : Z := Z.land (u32 x) (u32 (Z.shiftl 0xffffffff PAGE_SHIFT)).
Definition PAGE_ALIGNED (x : Z) : bool := x `mod` PAGE_SIZE =? 0.
Definition ADDR_TO_PN (x : Z) : Z := Z.shiftr (u32 x) PAGE_SHIFT.

(** bits.h *)
Definition bit_flip (map bit : Z) : Z := Z.lxor map (Z.shiftl 1 bit).
Definition bit_check (map bit : Z) : bool := Z.testbit map bit.

(** The arrays are indexed by the order. *)
Record pagegroup := PageGroup {
  pg_freelists : gmap nat (list Z);
  pg_maps : gmap nat Z;
  pg_baseaddr : Z;
  pg_endaddr : Z
}.

Definition pg_freelist (g : pagegroup) (o : nat) : list Z := default [] (pg_freelists g !! o).
Definition pg_map (g : pagegroup) (o : nat) : Z := default 0 (pg_maps g !! o).

Definition set_freelist (o : nat) (l : list Z) (g : pagegroup) : pagegroup :=
  PageGroup (<[o := l]> (pg_freelists g)) (pg_maps g) (pg_baseaddr g) (pg_endaddr g).
Definition set_map (o : nat) (m : Z) (g : pagegroup) : pagegroup :=
  PageGroup (pg_freelists g) (<[o := m]> (pg_maps g)) (pg_baseaddr g) (pg_endaddr g).

(** [pagegroup_list] and [page_freecount]. *)
Record pstate := PState { ps_groups : list pagegroup; ps_freecount : Z }.

(** Pages in a block of an order, and its size in bytes. *)
Definition pages_of (o : nat) : Z := Z.shiftl 1 (Z.of_nat o).
Definition bytes_of (o : nat) : Z := Z.shiftl (pages_of o) PAGE_SHIFT.

(** [sizeof(struct pagegroup)]: eight list heads, eight pointers, two addresses
    and a link. *)
Definition sizeof_pagegroup : Z := 112.

(** The address below which the bitmaps of the orders in the list end up. *)
Definition bitmap_bytes (npages : Z) (order : nat) : Z :=
  let count := Z.shiftr npages (Z.of_nat order) in
  let count := u32 (Z.land (u32 (count - 1)) (u32 (Z.lnot 7)) + 8) in
  Z.shiftr count 3.
Definition below_bitmaps (npages end_ : Z) (orders : list nat) : Z :=
  foldl (λ e order, u32 (e - bitmap_bytes npages order)) end_ orders.

(** The end of the pages left in a range once the group and its bitmaps are
    stored at its end. *)
Definition group_end (start end_ : Z) : Z :=
  let npages := Z.shiftr (u32 (end_ - start)) PAGE_SHIFT in
  let end_ := u32 (end_ - sizeof_pagegroup) in
  let end_ := below_bitmaps npages end_ (seq 1 (PAGE_NSIZES - 1)) in
  PAGE_ALIGN_DOWN end_.

(** The loop that puts the pages that do not fill a largest block into smaller
    free lists, from the end of the range downwards. *)
Definition add_tail (npages : Z) (acc : gmap nat (list Z) * Z) (order : nat) : gmap nat (list Z) * Z :=
  let '(fl, end_) := acc in
  if Z.land npages (pages_of order) =? 0 then (<[order := []]> fl, end_)
  else (<[order := [u32 (end_ - bytes_of order)]]> fl, u32 (end_ - bytes_of order)).

(** The loop that puts the rest into the largest free list. *)
Fixpoint add_blocks (fuel : nat) (current end_ : Z) (l : list Z) : list Z :=
  match fuel with
  | O => l
  | S fuel =>
      if current <? end_ then add_blocks fuel (current + bytes_of (PAGE_NSIZES - 1)) end_ (current :: l)
      else l
  end.

Definition _pagegroup_create {S} (start end_ : Z) : kM S pagegroup :=
  let end_ := group_end start end_ in
  let npages := Z.shiftr (u32 (end_ - start)) PAGE_SHIFT in
  let endaddr := end_ in
  let '(fl, end_) := foldl (add_tail npages) (∅, end_) (seq 0 (PAGE_NSIZES - 1)) in
  KASSERT (u32 (end_ - start) `mod` pages_of (PAGE_NSIZES - 1) =? 0) "0 == (end - start) % (1 << order)" ;;;
  let l := add_blocks (Z.to_nat npages) start end_ [] in
  let maps := list_to_map ((λ order, (order, 0)) <$> seq 1 (PAGE_NSIZES - 1)) in
  kret (PageGroup (<[(PAGE_NSIZES - 1)%nat := l]> fl) maps start endaddr).

(** * The allocator *)

Section Pages.
Context {X : Type}.
Abbreviation pM := (kM (pstate * X)).

Definition set_groups (f : list pagegroup → list pagegroup) (s : pstate * X) : pstate * X :=
  (PState (f (ps_groups s.1)) (ps_freecount s.1), s.2).
Definition add_freecount (n : Z) (s : pstate * X) : pstate * X :=
  (PState (ps_groups s.1) (u32 (ps_freecount s.1 + n)), s.2).

Definition get_group (gi : nat) : pM pagegroup :=
  let* s := kget in kderef (ps_groups s.1 !! gi) "page group".
Definition upd_group (gi : nat) (f : pagegroup → pagegroup) : pM unit :=
  let* g := get_group gi in kmodify (set_groups <[gi := f g]>).

(** The first group of [pagegroup_list] with a property. *)
Definition find_group (P : pagegroup → bool) : pM (option nat) :=
  kgets (λ s, fst <$> list_find (λ g, P g = true) (ps_groups s.1)).

Definition push_free (gi order : nat) (addr : Z) : pM unit :=
  upd_group gi (λ g, set_freelist order (addr :: pg_freelist g order) g).
Definition flip_bit (gi order : nat) (index : Z) : pM unit :=
  upd_group gi (λ g, set_map order (bit_flip (pg_map g order) index) g).

(** [list_remove] of the link in the free page at [addr]: off the free list it is on. *)
Definition remove_free (gi : nat) (addr : Z) : pM unit :=
  let* g := get_group gi in
  match list_find (λ o, addr ∈ pg_freelist g o) (seq 0 PAGE_NSIZES) with
  | Some (_, o) => upd_group gi (λ g, set_freelist o (filter (.≠ addr) (pg_freelist g o)) g)
  | None => kfault "list_remove of a page that is not free"
  end.

Definition page_init : pM unit := kmodify (λ s, (PState [] 0, s.2)).

Definition page_add_range (start end_ : Z) : pM unit :=
  let start := PAGE_ALIGN_DOWN start in
  let end_ := PAGE_ALIGN_DOWN end_ in
  let* group := _pagegroup_create start end_ in
  if pg_baseaddr group <? pg_endaddr group then
    kmodify (set_groups (λ gs, gs ++ [group])) ;;;
    kmodify (add_freecount (ADDR_TO_PN (pg_endaddr group - pg_baseaddr group)))
  else kret tt.

Definition _pagegroup_from_address (addr : Z) : pM (option nat) :=
  find_group (λ g, (pg_baseaddr g <=? addr) && (addr <? pg_endaddr g)).

Definition _pagegroup_calculate_index (group : pagegroup) (order : nat) (addr : Z) : pM Z :=
  KASSERT (PAGE_ALIGNED addr) "PAGE_ALIGNED(addr)" ;;;
  KASSERT (bool_decide (order < PAGE_NSIZES)%nat) "PAGE_NSIZES > order" ;;;
  KASSERT ((pg_baseaddr group <=? addr) && (addr <? pg_endaddr group)) "addr in group" ;;;
  let offset := addr - pg_baseaddr group in
  KASSERT (Z.land offset (pages_of order - 1) =? 0) "0 == (offset & ((1 << order) - 1))" ;;;
  kret (Z.shiftr (Z.shiftr offset (Z.of_nat order)) PAGE_SHIFT).

Definition __page_split (gi order : nat) : pM unit :=
  KASSERT (bool_decide (0 < order)%nat) "0 < order" ;;;
  KASSERT (bool_decide (order < PAGE_NSIZES)%nat) "PAGE_NSIZES > order" ;;;
  let* group := get_group gi in
  KASSERT (bool_decide (pg_freelist group order ≠ [])) "!list_empty(&group->pg_freelist[order])" ;;;
  let* target := kderef (head (pg_freelist group order)) "list_head" in
  upd_group gi (set_freelist order (tail (pg_freelist group order))) ;;;
  (if bool_decide (order < PAGE_NSIZES - 1)%nat then
     let* index := _pagegroup_calculate_index group (order + 1) target in
     flip_bit gi (order + 1) index
   else kret tt) ;;;
  let* index := _pagegroup_calculate_index group order target in
  let* group := get_group gi in
  KASSERT (negb (bit_check (pg_map group order) index)) "!bit_check(group->pg_map[order], ...)" ;;;
  let buddy := target + bytes_of (order - 1) in
  push_free gi (order - 1) target ;;;
  push_free gi (order - 1) buddy.

(** [while (norder > order) { __page_split(group, norder); --norder; }] with
    [norder = order + k]. *)
Fixpoint split_down (k gi order : nat) : pM unit :=
  match k with
  | O => kret tt
  | S k => __page_split gi (order + S k) ;;; split_down k gi order
  end.

Context (slab_allocators_reclaim : Z → pM Z).

(** The search of [_page_split] for a larger block, over the orders of the list. *)
Fixpoint split_search (order : nat) (norders : list nat) : pM (option nat) :=
  match norders with
  | [] => kret None
  | norder :: norders =>
      let* found := find_group (λ g, bool_decide (pg_freelist g norder ≠ [])) in
      match found with
      | Some gi =>
          split_down (norder - order) gi order ;;;
          let* group := get_group gi in
          KASSERT (bool_decide (pg_freelist group order ≠ [])) "!list_empty(&group->pg_freelist[order])" ;;;
          kret (Some gi)
      | None => split_search order norders
      end
  end.

Definition _page_split (order : nat) : pM (option nat) :=
  let* found := split_search order (seq (order + 1) (PAGE_NSIZES - (order + 1))) in
  match found with
  | Some gi => kret (Some gi)
  | None => slab_allocators_reclaim 0 ;;; kret None
  end.

(** The code after the label [found]. *)
Definition take_block (gi order : nat) : pM Z :=
  let* group := get_group gi in
  let* addr := kderef (head (pg_freelist group order)) "list_head" in
  upd_group gi (set_freelist order (tail (pg_freelist group order))) ;;;
  (if bool_decide (order < PAGE_NSIZES - 1)%nat then
     let* index := _pagegroup_calculate_index group (order + 1) addr in
     flip_bit gi (order + 1) index
   else kret tt) ;;;
  kmodify (add_freecount (- pages_of order)) ;;;
  kret addr.

(** [None] is NULL. *)
Definition _page_alloc_order (order : nat) : pM (option Z) :=
  let* found := find_group (λ g, bool_decide (pg_freelist g order ≠ [])) in
  match found with
  | Some gi => let* addr := take_block gi order in kret (Some addr)
  | None =>
      let* found := _page_split order in
      match found with
      | Some gi =>
          let* group := get_group gi in
          KASSERT (bool_decide (pg_freelist group order ≠ [])) "!list_empty(&group->pg_freelist[order])" ;;;
          let* addr := take_block gi order in kret (Some addr)
      | None => kret None
      end
  end.

Fixpoint __page_join (fuel : nat) (gi order : nat) (addr : Z) : pM unit :=
  match fuel with
  | O => λ _, RFuel
  | S fuel =>
      if bool_decide (order < PAGE_NSIZES - 1)%nat then
        let* group := get_group gi in
        let* index := _pagegroup_calculate_index group (order + 1) addr in
        if bit_check (pg_map group (order + 1)) index then kret tt
        else
          let offset := addr - pg_baseaddr group in
          let buddy := addr + bytes_of order *
            (if Z.testbit (Z.shiftr (Z.shiftr offset PAGE_SHIFT) (Z.of_nat order)) 0 then -1 else 1) in
          KASSERT (Z.land offset (pages_of order - 1) =? 0) "0 == (offset & ((1 << order) - 1))" ;;;
          remove_free gi addr ;;;
          remove_free gi buddy ;;;
          let addr := Z.min addr buddy in
          push_free gi (order + 1) addr ;;;
          (if bool_decide (order + 1 < PAGE_NSIZES - 1)%nat then
             let* group := get_group gi in
             let* index := _pagegroup_calculate_index group (order + 1 + 1) addr in
             flip_bit gi (order + 1 + 1) index
           else kret tt) ;;;
          __page_join fuel gi (order + 1) addr
      else kret tt
  end.

Definition _page_free_order (addr : Z) (order : nat) : pM unit :=
  let* group := _pagegroup_from_address addr in
  match group with
  | None => kret tt
  | Some gi =>
      push_free gi order addr ;;;
      kmodify (add_freecount (pages_of order)) ;;;
      if bool_decide (order < PAGE_NSIZES - 1)%nat then
        let* group := get_group gi in
        let* index := _pagegroup_calculate_index group (order + 1) addr in
        flip_bit gi (order + 1) index ;;;
        __page_join PAGE_NSIZES gi order addr
      else kret tt
  end.

Definition page_alloc : pM (option Z) := _page_alloc_order 0.
Definition page_free (addr : Z) : pM unit := _page_free_order addr 0.

(** The order found by the loops of page_alloc_n and page_free_n. *)
Definition order_for (npages : Z) : option nat :=
  snd <$> list_find (λ order, i32 npages ≤ pages_of order) (seq 0 PAGE_NSIZES).

Definition page_alloc_n (npages : Z) : pM (option Z) :=
  match order_for npages with
  | None => kpanic "Implementation does not permit allocating %u pages!"
  | Some order => _page_alloc_order order
  end.

Definition page_free_n (start npages : Z) : pM unit :=
  match order_for npages with
  | None => kpanic "Implementation does not permit allocating %u pages!"
  | Some order => _page_free_order start order
  end.

Definition page_free_count : pM Z := kgets (λ s, ps_freecount s.1).
End Pages.

(** * Blocks *)

Abbreviation block := (nat * Z)%type.

Lemma pages_of_eq o : pages_of o = 2 ^ Z.of_nat o.
Proof. unfold pages_of. rewrite Z.shiftl_mul_pow2; lia. Qed.

Lemma bytes_of_eq o : bytes_of o = 2 ^ (Z.of_nat o + 12).
Proof.
  unfold bytes_of, PAGE_SHIFT. rewrite Z.shiftl_mul_pow2, pages_of_eq, <- Z.pow_add_r; lia.
Qed.

Lemma bytes_of_S o : bytes_of (S o) = 2 * bytes_of o.
Proof.
  rewrite !bytes_of_eq. replace (Z.of_nat (S o) + 12) with (1 + (Z.of_nat o + 12)) by lia.
  rewrite Z.pow_add_r; lia.
Qed.

Lemma bytes_of_pos o : 0 < bytes_of o.
Proof. rewrite bytes_of_eq. apply Z.pow_pos_nonneg; lia. Qed.

Lemma pages_of_S o : pages_of (S o) = 2 * pages_of o.
Proof.
  rewrite !pages_of_eq. replace (Z.of_nat (S o)) with (1 + Z.of_nat o) by lia.
  rewrite Z.pow_add_r; lia.
Qed.

Lemma bytes_of_page o : (4096 | bytes_of o).
Proof.
  exists (2 ^ Z.of_nat o). rewrite bytes_of_eq, Z.pow_add_r by lia. reflexivity.
Qed.

(** The bytes of a block. *)
Definition covers (b : block) (p : Z) : Prop := b.2 ≤ p < b.2 + bytes_of b.1.
#[global] Instance covers_dec b p : Decision (covers b p).
Proof. unfold covers. apply _. Defined.

(** How many blocks of a list cover an address. *)
Definition cov (L : list block) (p : Z) : nat := length (filter (λ b, covers b p) L).

Lemma cov_cons b L p : cov (b :: L) p = ((if decide (covers b p) then 1 else 0) + cov L p)%nat.
Proof. unfold cov. rewrite filter_cons. by case_decide. Qed.

#[global] Instance cov_perm : Proper ((≡ₚ) ==> (=) ==> (=)) cov.
Proof. intros L L' HL p ? <-. unfold cov. by rewrite HL. Qed.

Lemma cov_overlap L b1 b2 p :
  (cov L p ≤ 1)%nat → b1 ∈ L → b2 ∈ L → covers b1 p → covers b2 p → b1 = b2.
Proof.
  intros Hc H1 H2 C1 C2. destruct (decide (b1 = b2)) as [|Hne]; [done|exfalso].
  apply elem_of_Permutation in H1 as [L1 HL]. rewrite HL in H2, Hc.
  apply elem_of_cons in H2 as [->|H2]; [done|].
  apply elem_of_Permutation in H2 as [L2 HL2]. rewrite HL2, !cov_cons in Hc.
  rewrite !decide_True in Hc by done. lia.
Qed.

(** A block covers what its halves cover. *)
Lemma covers_halves o a p :
  covers (S o, a) p ↔ covers (o, a) p ∨ covers (o, a + bytes_of o) p.
Proof. unfold covers. simpl. rewrite bytes_of_S. pose proof (bytes_of_pos o). lia. Qed.

Lemma cov_halves o a L p :
  cov ((o, a + bytes_of o) :: (o, a) :: L) p = cov ((S o, a) :: L) p.
Proof.
  rewrite !cov_cons. pose proof (covers_halves o a p) as H.
  assert (¬ (covers (o, a) p ∧ covers (o, a + bytes_of o) p)) by (unfold covers; simpl; lia).
  repeat case_decide; try lia; exfalso; tauto.
Qed.

(** Pages in a list of blocks. *)
Definition npages (L : list block) : Z := foldr (λ b n, pages_of b.1 + n) 0 L.

Lemma npages_perm L L' : L ≡ₚ L' → npages L = npages L'.
Proof. induction 1; simpl in *; lia. Qed.

Lemma npages_nonneg L : 0 ≤ npages L.
Proof.
  induction L as [|b L IH]; simpl; [lia|]. rewrite pages_of_eq.
  pose proof (Z.pow_nonneg 2 (Z.of_nat b.1)). lia.
Qed.

Lemma npages_app L L' : npages (L ++ L') = npages L + npages L'.
Proof. induction L; simpl; lia. Qed.

Lemma filter_ne_perm `{EqDecision A} (x : A) (l : list A) :
  NoDup l → x ∈ l → l ≡ₚ x :: filter (.≠ x) l.
Proof.
  intros Hnd Hin. apply elem_of_Permutation in Hin as [l' HP]. rewrite HP in Hnd.
  apply NoDup_cons in Hnd as [Hn _]. rewrite HP at 2.
  rewrite filter_cons_False, filter_ne_absent by (done || (intros Hx; by apply Hx)). done.
Qed.

(** ** Free blocks of a group *)

Definition frees (g : pagegroup) : list block :=
  seq 0 PAGE_NSIZES ≫= λ o, pair o <$> pg_freelist g o.

Lemma elem_of_frees g o a : (o, a) ∈ frees g ↔ (o < PAGE_NSIZES)%nat ∧ a ∈ pg_freelist g o.
Proof.
  unfold frees. rewrite list_elem_of_bind. split.
  - intros (o' & Hin & Ho'%elem_of_seq). apply list_elem_of_fmap in Hin as (a' & [= <- <-] & ?).
    split; [lia|done].
  - intros [Ho Ha]. exists o. split; [|apply elem_of_seq; lia]. apply list_elem_of_fmap. eauto.
Qed.

Lemma freelist_eq g o l : pg_freelist (set_freelist o l g) o = l.
Proof. unfold pg_freelist. simpl. by rewrite lookup_insert_eq. Qed.

Lemma freelist_ne g o o' l : o ≠ o' → pg_freelist (set_freelist o l g) o' = pg_freelist g o'.
Proof. intros. unfold pg_freelist. simpl. by rewrite lookup_insert_ne. Qed.

Lemma set_freelist_twice o l l' g : set_freelist o l (set_freelist o l' g) = set_freelist o l g.
Proof. unfold set_freelist. simpl. by rewrite insert_insert_eq. Qed.

Lemma map_eq g o m : pg_map (set_map o m g) o = m.
Proof. unfold pg_map. simpl. by rewrite lookup_insert_eq. Qed.

Lemma map_ne g o o' m : o ≠ o' → pg_map (set_map o m g) o' = pg_map g o'.
Proof. intros. unfold pg_map. simpl. by rewrite lookup_insert_ne. Qed.

Lemma frees_set g o l :
  (o < PAGE_NSIZES)%nat →
  frees (set_freelist o l g) ++ (pair o <$> pg_freelist g o) ≡ₚ (pair o <$> l) ++ frees g.
Proof.
  intros Ho. unfold frees. assert (Hin : o ∈ seq 0 PAGE_NSIZES) by (apply elem_of_seq; lia).
  pose proof (NoDup_seq 0 PAGE_NSIZES) as Hnd.
  apply list_elem_of_split in Hin as (l1 & l2 & E). rewrite E in Hnd |- *.
  apply NoDup_app in Hnd as (_ & H1 & Hnd%NoDup_cons).
  assert (Hne : ∀ os, o ∉ os →
    (os ≫= λ o', pair o' <$> pg_freelist (set_freelist o l g) o') = (os ≫= λ o', pair o' <$> pg_freelist g o')).
  { intros os Hos. induction os as [|o' os IH]; [done|].
    rewrite !bind_cons, freelist_ne by set_solver. by rewrite IH by set_solver. }
  rewrite !bind_app, !bind_cons, freelist_eq, !Hne by set_solver. solve_Permutation.
Qed.

(** A block leaves or joins a free list. *)
Lemma frees_take g o a rest :
  (o < PAGE_NSIZES)%nat → pg_freelist g o ≡ₚ a :: rest →
  frees g ≡ₚ (o, a) :: frees (set_freelist o rest g).
Proof.
  intros Ho HP. pose proof (frees_set g o rest Ho) as HF.
  assert (HP' : (pair o <$> pg_freelist g o) ≡ₚ (o, a) :: (pair o <$> rest)) by (by rewrite HP).
  rewrite HP' in HF. apply (Permutation_app_inv_l (pair o <$> rest)). rewrite <- HF. solve_Permutation.
Qed.

Lemma frees_push g o a :
  (o < PAGE_NSIZES)%nat → frees (set_freelist o (a :: pg_freelist g o) g) ≡ₚ (o, a) :: frees g.
Proof.
  intros Ho. pose proof (frees_set g o (a :: pg_freelist g o) Ho) as HF.
  apply (Permutation_app_inv_r (pair o <$> pg_freelist g o)). rewrite HF. simpl. solve_Permutation.
Qed.

(** ** The invariant of a group *)

Definition blk (g : pagegroup) (b : block) : Prop :=
  (b.1 < PAGE_NSIZES)%nat ∧ pg_baseaddr g ≤ b.2 ∧ b.2 + bytes_of b.1 ≤ pg_endaddr g ∧
  (bytes_of b.1 | b.2 - pg_baseaddr g).

(** Whether the [j]th block of an order is on its free list. *)
Definition isfree (g : pagegroup) (o : nat) (j : Z) : bool :=
  bool_decide (pg_baseaddr g + j * bytes_of o ∈ pg_freelist g o).

(** A bit tells whether exactly one of two buddies is free. *)
Definition bits_ok (g : pagegroup) : Prop :=
  ∀ o i, (o < PAGE_NSIZES - 1)%nat → 0 ≤ i →
    Z.testbit (pg_map g (S o)) i = xorb (isfree g o (2 * i)) (isfree g o (2 * i + 1)).

(** [A] are the allocated blocks: free and allocated blocks lie in the group at
    multiples of their size and cover every page once. *)
Record ginv (g : pagegroup) (A : list block) : Prop := {
  gi_pos : 0 < pg_baseaddr g;
  gi_base : (4096 | pg_baseaddr g);
  gi_blk : Forall (blk g) (frees g ++ A);
  gi_cov p : pg_baseaddr g ≤ p < pg_endaddr g → cov (frees g ++ A) p = 1%nat;
  gi_sum : npages (frees g ++ A) * 4096 = pg_endaddr g - pg_baseaddr g;
  gi_bits : bits_ok g
}.

(** Two buddies are both free only at the given place. *)
Definition coal_except (g : pagegroup) (x : option (nat * Z)) : Prop :=
  ∀ o i, (o < PAGE_NSIZES - 1)%nat → 0 ≤ i → isfree g o (2 * i) = true → isfree g o (2 * i + 1) = true →
    x = Some (o, i).

Lemma ginv_free_blk g A o a :
  ginv g A → (o < PAGE_NSIZES)%nat → a ∈ pg_freelist g o → blk g (o, a).
Proof.
  intros HG Ho Ha. pose proof (gi_blk _ _ HG) as Hb. rewrite Forall_app, !Forall_forall in Hb.
  by apply (proj1 Hb), elem_of_frees.
Qed.

(** Two free blocks that share an address are the same. *)
Lemma ginv_free_overlap g A b1 b2 p :
  ginv g A → b1 ∈ frees g → b2 ∈ frees g → covers b1 p → covers b2 p → b1 = b2.
Proof.
  intros HG H1 H2 C1 C2. pose proof (gi_blk _ _ HG) as Hb. rewrite Forall_app, !Forall_forall in Hb.
  destruct Hb as [Hb _]. destruct (Hb _ H1) as (_ & ? & ? & _).
  eapply (cov_overlap (frees g ++ A)); [|set_solver|set_solver|done|done].
  rewrite (gi_cov _ _ HG); [done|]. unfold covers in C1. lia.
Qed.

Lemma ginv_freelist_NoDup g A o : ginv g A → (o < PAGE_NSIZES)%nat → NoDup (pg_freelist g o).
Proof.
  intros HG Ho. apply NoDup_alt. intros i j a Hi Hj.
  destruct (decide (i = j)) as [|Hne]; [done|exfalso].
  assert (Ha : a ∈ pg_freelist g o) by (by eapply list_elem_of_lookup_2).
  destruct (ginv_free_blk g A o a HG Ho Ha) as (_ & Hb & He & _). simpl in Hb, He.
  pose proof (bytes_of_pos o). pose proof (gi_cov _ _ HG a ltac:(lia)) as Hc.
  pose proof (frees_take g o a _ Ho (delete_Permutation (pg_freelist g o) j a Hj)) as HP'.
  assert (a ∈ delete j (pg_freelist g o)) as Ha'.
  { apply list_elem_of_lookup. destruct (decide (i < j)%nat).
    - exists i. by rewrite list_lookup_delete_lt.
    - exists (i - 1)%nat. rewrite list_lookup_delete_ge by lia. by replace (S (i - 1)) with i by lia. }
  assert ((o, a) ∈ frees (set_freelist o (delete j (pg_freelist g o)) g)) as Hin.
  { apply elem_of_frees. by rewrite freelist_eq. }
  apply elem_of_Permutation in Hin as [L HL]. rewrite HL in HP'.
  rewrite HP' in Hc. simpl in Hc. rewrite !cov_cons, !decide_True in Hc by (unfold covers; simpl; lia). lia.
Qed.

(** ** Arithmetic of indices *)

Lemma blk_index g o a :
  blk g (o, a) → a = pg_baseaddr g + (a - pg_baseaddr g) / bytes_of o * bytes_of o ∧
    0 ≤ (a - pg_baseaddr g) / bytes_of o.
Proof.
  intros (_ & Hb & _ & Hd). simpl in *. pose proof (bytes_of_pos o).
  apply Z.mod_divide in Hd; [|lia]. pose proof (Z.div_mod (a - pg_baseaddr g) (bytes_of o)).
  split; [lia|]. apply Z.div_pos; lia.
Qed.

Lemma index_S g o a :
  (a - pg_baseaddr g) / bytes_of (S o) = (a - pg_baseaddr g) / bytes_of o / 2.
Proof. rewrite bytes_of_S, Z.mul_comm. pose proof (bytes_of_pos o). rewrite Z.div_div; lia. Qed.

Section Index.
Context {X : Type}.

Lemma calc_index_run g o k a (s : pstate * X) :
  blk g (o, a) → (k < PAGE_NSIZES)%nat → (4096 | pg_baseaddr g) →
  _pagegroup_calculate_index g k a s = RRet ((a - pg_baseaddr g) / bytes_of k) s.
Proof.
  intros (_ & Hb & He & Hd) Hk Hbase. simpl in *. pose proof (bytes_of_pos o).
  assert (Hoff : (4096 | a - pg_baseaddr g)) by (etrans; [apply bytes_of_page|done]).
  assert (Ha : (4096 | a)) by (replace a with (a - pg_baseaddr g + pg_baseaddr g) by lia; by apply Z.divide_add_r).
  unfold _pagegroup_calculate_index, PAGE_ALIGNED, PAGE_SIZE.
  apply Z.mod_divide in Ha; [|lia]. rewrite Ha. simpl.
  rewrite bool_decide_eq_true_2 by done.
  destruct (Z.leb_spec (pg_baseaddr g) a); [|lia]. destruct (Z.ltb_spec a (pg_endaddr g)); [|lia].
  cbv [KASSERT kbind kret]. simpl.
  assert (pages_of k - 1 = Z.ones (Z.of_nat k)) as -> by (rewrite pages_of_eq, Z.ones_equiv; lia).
  rewrite Z.land_ones by lia.
  assert ((a - pg_baseaddr g) `mod` 2 ^ Z.of_nat k = 0) as ->.
  { apply Z.mod_divide; [lia|]. etrans; [|done]. unfold PAGE_NSIZES in Hk.
    exists (2 ^ (12 - Z.of_nat k)). rewrite <- Z.pow_add_r by lia. by replace (12 - Z.of_nat k + Z.of_nat k) with 12 by lia. }
  simpl. f_equal. unfold PAGE_SHIFT. rewrite Z.shiftr_shiftr, Z.shiftr_div_pow2, bytes_of_eq by lia. done.
Qed.
End Index.

(** ** Transitions of a group

    The operations are made of four moves: a block is taken off its free list,
    put on it, broken into its halves, or merged from them. *)

Definition pair_index (g : pagegroup) (o : nat) (a : Z) : Z := (a - pg_baseaddr g) / bytes_of (S o).

(** The bit of the pair that [(o, a)] belongs to is flipped. *)
Definition g_flip (o : nat) (a : Z) (g : pagegroup) : pagegroup :=
  if bool_decide (o < PAGE_NSIZES - 1)%nat
  then set_map (S o) (bit_flip (pg_map g (S o)) (pair_index g o a)) g else g.

Definition g_put (o : nat) (a : Z) (g : pagegroup) : pagegroup :=
  g_flip o a (set_freelist o (a :: pg_freelist g o) g).
Definition g_take (o : nat) (a : Z) (rest : list Z) (g : pagegroup) : pagegroup :=
  g_flip o a (set_freelist o rest g).
Definition g_break (o : nat) (a : Z) (g : pagegroup) : pagegroup :=
  set_freelist o (a + bytes_of o :: a :: pg_freelist g o) g.

Lemma flip_same o a g :
  pg_freelist (g_flip o a g) = pg_freelist g ∧ pg_baseaddr (g_flip o a g) = pg_baseaddr g ∧
  pg_endaddr (g_flip o a g) = pg_endaddr g.
Proof. unfold g_flip. by case_bool_decide. Qed.

Lemma bit_flip_spec m b i :
  0 ≤ b → 0 ≤ i → Z.testbit (bit_flip m b) i = xorb (Z.testbit m i) (bool_decide (i = b)).
Proof.
  intros Hb Hi. unfold bit_flip. rewrite Z.lxor_spec, Z.shiftl_1_l, Z.pow2_bits_eqb by lia.
  f_equal. case_bool_decide; [subst; apply Z.eqb_refl|]. apply Z.eqb_neq. lia.
Qed.

Lemma isfree_set g o l o' j :
  isfree (set_freelist o l g) o' j =
    if decide (o = o') then bool_decide (pg_baseaddr g + j * bytes_of o ∈ l) else isfree g o' j.
Proof.
  unfold isfree. case_decide; [subst; by rewrite freelist_eq|by rewrite freelist_ne].
Qed.

Lemma isfree_flip g o a o' j : isfree (g_flip o a g) o' j = isfree g o' j.
Proof. unfold g_flip. by case_bool_decide. Qed.

(** The two blocks of the pair [i]. *)
Lemma pair_cases g o a i :
  blk g (o, a) →
  (pg_baseaddr g + (2 * i) * bytes_of o = a ∨ pg_baseaddr g + (2 * i + 1) * bytes_of o = a) ↔
  i = pair_index g o a.
Proof.
  intros Hb. destruct (blk_index _ _ _ Hb) as [E Hn]. unfold pair_index. rewrite index_S.
  set (j := (a - pg_baseaddr g) / bytes_of o) in *. pose proof (bytes_of_pos o).
  assert (∀ k, pg_baseaddr g + k * bytes_of o = a ↔ k = j) as Hk by (intros k; rewrite E; nia).
  rewrite !Hk. Z.to_euclidean_division_equations. lia.
Qed.

Lemma pair_index_nonneg g o a : blk g (o, a) → 0 ≤ pair_index g o a.
Proof.
  intros Hb. destruct (blk_index _ _ _ Hb) as [_ Hn]. unfold pair_index. rewrite index_S.
  apply Z.div_pos; lia.
Qed.

Lemma bits_toggle g l o a :
  bits_ok g → blk g (o, a) → (∀ x, x ≠ a → x ∈ l ↔ x ∈ pg_freelist g o) →
  (a ∈ l ↔ a ∉ pg_freelist g o) → bits_ok (g_flip o a (set_freelist o l g)).
Proof.
  intros Hok Hb Hl Ha o' i Ho' Hi. rewrite !isfree_flip, !isfree_set.
  destruct (decide (o = o')) as [<-|Hne].
  - unfold g_flip. rewrite bool_decide_eq_true_2, map_eq by done.
    change (pg_map (set_freelist o l g) (S o)) with (pg_map g (S o)).
    pose proof (pair_cases g o a i Hb) as Hp.
    rewrite bit_flip_spec by (done || by eapply pair_index_nonneg). change (pair_index (set_freelist o l g) o a) with (pair_index g o a).
    rewrite (Hok o i) by done. unfold isfree.
    assert (Hx : ∀ x, bool_decide (x ∈ l) = xorb (bool_decide (x ∈ pg_freelist g o)) (bool_decide (x = a))).
    { intros x. destruct (decide (x = a)) as [->|Hxa].
      - rewrite (bool_decide_eq_true_2 (a = a)) by done. repeat case_bool_decide; naive_solver.
      - rewrite (bool_decide_eq_false_2 (x = a)) by done. specialize (Hl x Hxa).
        repeat case_bool_decide; naive_solver. }
    rewrite !Hx. assert (Hpos := bytes_of_pos o).
    assert (bool_decide (i = pair_index g o a) =
      xorb (bool_decide (pg_baseaddr g + 2 * i * bytes_of o = a))
           (bool_decide (pg_baseaddr g + (2 * i + 1) * bytes_of o = a))) as ->.
    { repeat case_bool_decide; try done; exfalso; [lia|tauto..]. }
    by repeat case_bool_decide.
  - assert (pg_map (g_flip o a (set_freelist o l g)) (S o') = pg_map g (S o')) as ->.
    { unfold g_flip. case_bool_decide; [|done]. by rewrite map_ne by congruence. }
    by apply Hok.
Qed.

(** Both blocks of a pair change: its bit is right as it is. *)
Lemma bits_pair g l o a :
  bits_ok g → blk g (S o, a) →
  (∀ x, x ≠ a → x ≠ a + bytes_of o → x ∈ l ↔ x ∈ pg_freelist g o) →
  (a ∈ l ↔ a ∉ pg_freelist g o) → (a + bytes_of o ∈ l ↔ a + bytes_of o ∉ pg_freelist g o) →
  bits_ok (set_freelist o l g).
Proof.
  intros Hok Hb Hl Ha Ha' o' i Ho' Hi. change (pg_map (set_freelist o l g) (S o')) with (pg_map g (S o')).
  rewrite !isfree_set, (Hok o' i) by done.
  case_decide as E; [subst o'|done].
  destruct (blk_index _ _ _ Hb) as [Ej Hj]. set (j := (a - pg_baseaddr g) / bytes_of (S o)) in *.
  rewrite bytes_of_S in Ej. pose proof (bytes_of_pos o). unfold isfree.
  destruct (decide (i = j)) as [->|Hne].
  - replace (pg_baseaddr g + 2 * j * bytes_of o) with a by lia.
    replace (pg_baseaddr g + (2 * j + 1) * bytes_of o) with (a + bytes_of o) by lia.
    repeat case_bool_decide; naive_solver.
  - assert (∀ k, k ≠ 2 * j → k ≠ 2 * j + 1 → bool_decide (pg_baseaddr g + k * bytes_of o ∈ l) =
      bool_decide (pg_baseaddr g + k * bytes_of o ∈ pg_freelist g o)) as Hk.
    { intros k ? ?. apply bool_decide_ext, Hl; nia. }
    rewrite !Hk by lia. done.
Qed.

Lemma blk_ext g g' b :
  pg_baseaddr g' = pg_baseaddr g → pg_endaddr g' = pg_endaddr g → blk g b → blk g' b.
Proof. unfold blk. by intros -> ->. Qed.

(** Blocks are regrouped without changing what they cover. *)
Lemma ginv_regroup g g' A A' :
  ginv g A → pg_baseaddr g' = pg_baseaddr g → pg_endaddr g' = pg_endaddr g →
  Forall (blk g) (frees g' ++ A') → (∀ p, cov (frees g' ++ A') p = cov (frees g ++ A) p) →
  npages (frees g' ++ A') = npages (frees g ++ A) → bits_ok g' → ginv g' A'.
Proof.
  intros [H0 H1 H2 H3 H4 H5] Eb Ee Hblk Hcov Hsum Hbits. split; rewrite ?Eb, ?Ee; try done.
  - eapply Forall_impl; [done|]. intros b. by apply blk_ext.
  - intros p Hp. rewrite Hcov. auto.
  - by rewrite Hsum.
Qed.

Lemma ginv_perm g g' A A' :
  ginv g A → pg_baseaddr g' = pg_baseaddr g → pg_endaddr g' = pg_endaddr g →
  frees g' ++ A' ≡ₚ frees g ++ A → bits_ok g' → ginv g' A'.
Proof.
  intros HG Eb Ee HP Hbits. eapply ginv_regroup; try done.
  - rewrite HP. apply HG.
  - intros p. by rewrite HP.
  - by apply npages_perm.
Qed.

Lemma frees_flip o a g : frees (g_flip o a g) = frees g.
Proof. unfold frees. by destruct (flip_same o a g) as (-> & _ & _). Qed.

Lemma ginv_take g A o a rest :
  ginv g A → (o < PAGE_NSIZES)%nat → pg_freelist g o = a :: rest →
  ginv (g_take o a rest g) ((o, a) :: A).
Proof.
  intros HG Ho Hl. pose proof (ginv_freelist_NoDup _ _ _ HG Ho) as Hnd. rewrite Hl in Hnd.
  apply NoDup_cons in Hnd as [Hn _].
  assert (Hb : blk g (o, a)) by (eapply ginv_free_blk; [done..|rewrite Hl; set_solver]).
  destruct (flip_same o a (set_freelist o rest g)) as (_ & Eb & Ee). unfold g_take.
  eapply ginv_perm; [done|done|done| |].
  - rewrite frees_flip, (frees_take g o a rest) by (done || by rewrite Hl). solve_Permutation.
  - apply bits_toggle; [apply HG|done|rewrite Hl; set_solver..].
Qed.

Lemma ginv_put g A o a :
  ginv g ((o, a) :: A) → ginv (g_put o a g) A ∧ a ∉ pg_freelist g o.
Proof.
  intros HG. pose proof (gi_blk _ _ HG) as Hblk. rewrite Forall_app, Forall_cons in Hblk.
  destruct Hblk as (_ & Hb & _). pose proof Hb as (Ho & H1 & H2 & _). simpl in Ho, H1, H2.
  pose proof (bytes_of_pos o).
  assert (Hn : a ∉ pg_freelist g o).
  { intros Hin. pose proof (gi_cov _ _ HG a ltac:(lia)) as Hc.
    assert ((o, a) ∈ frees g) as Hf by (by apply elem_of_frees).
    apply elem_of_Permutation in Hf as [L HL]. rewrite HL in Hc. simpl in Hc.
    rewrite <- Permutation_middle, !cov_cons, !decide_True in Hc by (unfold covers; simpl; lia). lia. }
  split; [|done]. destruct (flip_same o a (set_freelist o (a :: pg_freelist g o) g)) as (_ & Eb & Ee).
  unfold g_put. eapply ginv_perm; [done|done|done| |].
  - rewrite frees_flip, frees_push by done. solve_Permutation.
  - apply bits_toggle; [apply HG|done|set_solver..].
Qed.

Lemma blk_halves g o a :
  (o < PAGE_NSIZES - 1)%nat → blk g (S o, a) ↔
  blk g (o, a) ∧ blk g (o, a + bytes_of o) ∧ (bytes_of (S o) | a - pg_baseaddr g).
Proof.
  intros Ho. unfold blk. simpl. rewrite bytes_of_S. pose proof (bytes_of_pos o). split.
  - intros (? & ? & ? & Hd). split_and!; try lia; try done.
    + etrans; [|done]. apply Z.divide_factor_r.
    + replace (a + bytes_of o - pg_baseaddr g) with (a - pg_baseaddr g + bytes_of o) by lia.
      apply Z.divide_add_r; [|done]. etrans; [|done]. apply Z.divide_factor_r.
  - intros ((? & ? & ? & ?) & (? & ? & ? & ?) & ?). split_and!; try lia; try done.
Qed.

(** A taken block is not covered by a free one. *)
Lemma ginv_taken_free g A b o x :
  ginv g (b :: A) → (o < PAGE_NSIZES)%nat → b.2 ≤ x < b.2 + bytes_of b.1 → x ∉ pg_freelist g o.
Proof.
  intros HG Ho Hx Hin. pose proof (gi_blk _ _ HG) as Hblk. rewrite Forall_app, Forall_cons in Hblk.
  destruct Hblk as (_ & (_ & H1 & H2 & _) & _).
  pose proof (gi_cov _ _ HG x ltac:(lia)) as Hc. pose proof (bytes_of_pos o).
  assert ((o, x) ∈ frees g) as Hf by (by apply elem_of_frees).
  apply elem_of_Permutation in Hf as [L HL]. rewrite HL in Hc. simpl in Hc.
  rewrite <- Permutation_middle, !cov_cons, !decide_True in Hc by (unfold covers; simpl; lia). lia.
Qed.

Lemma ginv_break g A o a :
  (o < PAGE_NSIZES - 1)%nat → ginv g ((S o, a) :: A) → ginv (g_break o a g) A.
Proof.
  intros Ho HG. pose proof (gi_blk _ _ HG) as Hblk. rewrite Forall_app, Forall_cons in Hblk.
  destruct Hblk as (Hf & Hb & HA). pose proof (bytes_of_pos o).
  assert (Hn : a ∉ pg_freelist g o ∧ a + bytes_of o ∉ pg_freelist g o).
  { split; eapply ginv_taken_free; try done; simpl; rewrite ?bytes_of_S; unfold PAGE_NSIZES in *; lia. }
  assert (HP : frees (g_break o a g) ++ A ≡ₚ (o, a + bytes_of o) :: (o, a) :: frees g ++ A).
  { unfold g_break. pose proof (frees_set g o (a + bytes_of o :: a :: pg_freelist g o)) as HF.
    assert (Ho' : (o < PAGE_NSIZES)%nat) by (unfold PAGE_NSIZES in *; lia). specialize (HF Ho').
    rewrite !fmap_cons in HF. apply (Permutation_app_inv_r (pair o <$> pg_freelist g o)).
    rewrite <- app_assoc, (Permutation_app_comm A), app_assoc, HF. simpl. solve_Permutation. }
  eapply ginv_regroup; [done|done|done|rewrite HP| | |].
  - apply (blk_halves g o a Ho) in Hb as (? & ? & _). rewrite !Forall_cons, Forall_app. done.
  - intros p. by rewrite HP, cov_halves, Permutation_middle.
  - rewrite (npages_perm _ _ HP). simpl. rewrite !npages_app. simpl. rewrite pages_of_S. lia.
  - apply (bits_pair g _ o a); [apply HG|done|set_solver..].
Qed.

Lemma ginv_merge g A o a l :
  (o < PAGE_NSIZES - 1)%nat → ginv g A → (bytes_of (S o) | a - pg_baseaddr g) →
  pg_freelist g o ≡ₚ a :: a + bytes_of o :: l →
  ginv (set_freelist o l g) ((S o, a) :: A).
Proof.
  intros Ho HG Hd HP. pose proof (bytes_of_pos o).
  assert (Ho' : (o < PAGE_NSIZES)%nat) by (unfold PAGE_NSIZES in *; lia).
  pose proof (ginv_freelist_NoDup _ _ _ HG Ho') as Hnd. rewrite HP in Hnd.
  apply NoDup_cons in Hnd as [Hn1 [Hn2 _]%NoDup_cons].
  assert (Hin : ∀ x, x ∈ pg_freelist g o ↔ x ∈ a :: a + bytes_of o :: l) by (intros x; by rewrite HP).
  assert (Hblk : blk g (S o, a)).
  { apply blk_halves; [done|]. split_and!; [..|done]; eapply ginv_free_blk; try done; apply Hin; set_solver. }
  assert (HF : frees g ≡ₚ (o, a + bytes_of o) :: (o, a) :: frees (set_freelist o l g)).
  { pose proof (frees_set g o l Ho') as HF.
    assert (HP' : (pair o <$> pg_freelist g o) ≡ₚ (o, a) :: (o, a + bytes_of o) :: (pair o <$> l)) by (by rewrite HP).
    rewrite HP' in HF. apply (Permutation_app_inv_l (pair o <$> l)). rewrite <- HF. solve_Permutation. }
  assert (Hf : Forall (blk g) (frees g ++ A)) by apply HG.
  rewrite HF in Hf. simpl in Hf. rewrite !Forall_cons, Forall_app in Hf.
  eapply ginv_regroup; [done|done|done| | | |].
  - rewrite Forall_app, Forall_cons. naive_solver.
  - intros p. rewrite HF. simpl. by rewrite cov_halves, Permutation_middle.
  - rewrite (npages_perm (frees g ++ A) ((o, a + bytes_of o) :: (o, a) :: frees (set_freelist o l g) ++ A))
      by (by rewrite HF). simpl. rewrite !npages_app. simpl. rewrite pages_of_S. lia.
  - apply (bits_pair g _ o a); [apply HG|done|..]; rewrite ?Hin; set_solver.
Qed.

(** ** Coalescing *)

(** Leaving a pair breaks it up; free lists that only shrink make no new pairs. *)
Lemma coal_shrink g g' o a x :
  coal_except g x → x = None ∨ x = Some (o, pair_index g o a) → blk g (o, a) →
  pg_baseaddr g' = pg_baseaddr g → (∀ o' y, y ∈ pg_freelist g' o' → y ∈ pg_freelist g o') →
  a ∉ pg_freelist g' o → coal_except g' None.
Proof.
  intros Hc Hx Hb Eb Hsub Ha o' i Ho' Hi F1 F2. unfold isfree in F1, F2. rewrite Eb in F1, F2.
  apply bool_decide_eq_true in F1, F2.
  assert (x = Some (o', i)) as ->.
  { apply Hc; [done|done|apply bool_decide_eq_true; auto..]. }
  destruct Hx as [|[= -> ->]]; [done|].
  destruct (proj2 (pair_cases g o a _ Hb) eq_refl) as [E|E]; rewrite E in *; done.
Qed.

(** Blocks of one pair make no other pair. *)
Lemma coal_grow g g' o a :
  coal_except g None → (o < PAGE_NSIZES - 1 → blk g (o, a))%nat →
  pg_baseaddr g' = pg_baseaddr g →
  (∀ o' y, o' ≠ o → y ∈ pg_freelist g' o' → y ∈ pg_freelist g o') →
  (∀ y, (o < PAGE_NSIZES - 1)%nat → y ∈ pg_freelist g' o → y ∈ pg_freelist g o ∨
     ∃ b, b = y ∧ blk g (o, b) ∧ pair_index g o b = pair_index g o a) →
  coal_except g' (Some (o, pair_index g o a)).
Proof.
  intros Hc Hb Eb Hsub Hgrow o' i Ho' Hi F1 F2. unfold isfree in F1, F2. rewrite Eb in F1, F2.
  apply bool_decide_eq_true in F1, F2. destruct (decide (o' = o)) as [->|Hne].
  - f_equal. f_equal. symmetry. specialize (Hb Ho').
    destruct (Hgrow _ Ho' F1) as [G1|(b & E & Hbb & Hpi)].
    + destruct (Hgrow _ Ho' F2) as [G2|(b & E & Hbb & Hpi)].
      * exfalso. assert (None = Some (o, i)); [|done].
        apply Hc; [done|done|by apply bool_decide_eq_true..].
      * rewrite <- Hpi. apply (pair_cases g o b i Hbb). by right.
    + rewrite <- Hpi. apply (pair_cases g o b i Hbb). by left.
  - exfalso. assert (None = Some (o', i)); [|done].
    apply Hc; [done|done|apply bool_decide_eq_true; eauto..].
Qed.

Lemma pair_index_buddy g o a :
  (bytes_of (S o) | a - pg_baseaddr g) → pair_index g o (a + bytes_of o) = pair_index g o a.
Proof.
  intros [k Hk]. unfold pair_index. rewrite bytes_of_S in *. pose proof (bytes_of_pos o).
  replace (a + bytes_of o - pg_baseaddr g) with (bytes_of o + k * (2 * bytes_of o)) by lia.
  rewrite Hk, Z.div_add, Z.div_mul, Z.div_small by lia. lia.
Qed.

Lemma coal_break g o a :
  (o < PAGE_NSIZES - 1)%nat → blk g (S o, a) → coal_except g None →
  coal_except (g_break o a g) (Some (o, pair_index g o a)).
Proof.
  intros Ho Hb Hc. apply (blk_halves g o a Ho) in Hb as (Hb1 & Hb2 & Hd).
  apply (coal_grow g); [done|done|done| |].
  - intros o' y Hne. unfold g_break. by rewrite freelist_ne by done.
  - intros y _. unfold g_break. rewrite freelist_eq, !elem_of_cons.
    intros [->|[->|?]]; [right|right|by left]; eexists; split_and!; eauto using pair_index_buddy.
Qed.

Lemma coal_put g o a :
  (o < PAGE_NSIZES)%nat → blk g (o, a) → coal_except g None →
  coal_except (g_put o a g) (Some (o, pair_index g o a)).
Proof.
  intros Ho Hb Hc. unfold g_put.
  destruct (flip_same o a (set_freelist o (a :: pg_freelist g o) g)) as (Ef & Eb & _).
  apply (coal_grow g); [done|done|done| |]; rewrite Ef.
  - intros o' y Hne. by rewrite freelist_ne by done.
  - intros y _. rewrite freelist_eq, elem_of_cons.
    intros [->|?]; [right|by left]. eauto.
Qed.

Lemma coal_top g a : coal_except g (Some ((PAGE_NSIZES - 1)%nat, a)) → coal_except g None.
Proof. intros Hc o i Ho Hi F1 F2. specialize (Hc o i Ho Hi F1 F2). simplify_eq. lia. Qed.

(** * Running the code *)

Section Runs.
Context {X : Type}.
Implicit Types s : pstate * X.

(** The state with another group at [gi]. *)
Definition put_group (gi : nat) (g : pagegroup) s : pstate * X := set_groups <[gi := g]> s.

Lemma put_group_lookup gi g g' s :
  ps_groups s.1 !! gi = Some g → ps_groups (put_group gi g' s).1 !! gi = Some g'.
Proof. intros H. simpl. apply list_lookup_insert_eq. by eapply lookup_lt_Some. Qed.

Lemma put_group_twice gi g g' s : put_group gi g (put_group gi g' s) = put_group gi g s.
Proof. unfold put_group, set_groups. simpl. by rewrite list_insert_insert_eq. Qed.

Lemma put_group_id gi g s : ps_groups s.1 !! gi = Some g → put_group gi g s = s.
Proof.
  intros H. unfold put_group, set_groups. rewrite list_insert_id by done. by destruct s as [[] ?].
Qed.

Lemma get_group_bind {A} gi g s (k : pagegroup → kM (pstate * X) A) :
  ps_groups s.1 !! gi = Some g → kbind (get_group gi) k s = k g s.
Proof. intros H. unfold get_group, kderef, kbind, kget. simpl. by rewrite H. Qed.

Lemma upd_group_bind {A} gi g s f (k : unit → kM (pstate * X) A) :
  ps_groups s.1 !! gi = Some g → kbind (upd_group gi f) k s = k tt (put_group gi (f g) s).
Proof. intros H. unfold upd_group, get_group, kderef, kbind, kget. simpl. by rewrite H. Qed.

Lemma upd_group_run gi g s f :
  ps_groups s.1 !! gi = Some g → upd_group gi f s = RRet tt (put_group gi (f g) s).
Proof. intros H. unfold upd_group, get_group, kderef, kbind, kget. simpl. by rewrite H. Qed.

(** The conditional flip of the pair's bit. *)
Lemma flip_bind {A} gi g g0 o a s (k : unit → kM (pstate * X) A) :
  ps_groups s.1 !! gi = Some g → blk g0 (o, a) → (4096 | pg_baseaddr g0) →
  pg_baseaddr g0 = pg_baseaddr g →
  kbind (if bool_decide (o < PAGE_NSIZES - 1)%nat then
           let* index := _pagegroup_calculate_index g0 (o + 1) a in
           flip_bit gi (o + 1) index
         else kret tt) k s = k tt (put_group gi (g_flip o a g) s).
Proof.
  intros Hg Hb Hd Eb. unfold g_flip. case_bool_decide as Ho.
  - unfold kbind at 1. erewrite kbind_of_ret by (eapply calc_index_run; [done|unfold PAGE_NSIZES in *; lia|done]).
    rewrite Nat.add_1_r. unfold flip_bit. erewrite upd_group_run by done. simpl.
    unfold pair_index. by rewrite Eb.
  - rewrite put_group_id by done. done.
Qed.

Lemma split_run gi g A o a rest s :
  ps_groups s.1 !! gi = Some g → ginv g A → (S o < PAGE_NSIZES)%nat →
  pg_freelist g (S o) = a :: rest →
  __page_split gi (S o) s = RRet tt (put_group gi (g_break o a (g_take (S o) a rest g)) s).
Proof.
  intros Hg HG Ho Hl. pose proof (gi_base _ _ HG) as Hbase.
  assert (Hb : blk g (S o, a)) by (eapply ginv_free_blk; [done..|rewrite Hl; set_solver]).
  pose proof (ginv_take g A (S o) a rest HG Ho Hl) as HT.
  unfold __page_split. rewrite !bool_decide_eq_true_2 by lia.
  cbv [KASSERT]. unfold kbind at 1 2. simpl rbind.
  erewrite get_group_bind by done. rewrite Hl. rewrite bool_decide_eq_true_2 by done.
  unfold kbind at 1. simpl rbind. unfold kderef. unfold kbind at 1. simpl rbind.
  erewrite upd_group_bind by done. erewrite flip_bind; [|by eapply put_group_lookup|done..].
  rewrite put_group_twice. change (g_flip (S o) a (set_freelist (S o) rest g)) with (g_take (S o) a rest g).
  erewrite kbind_of_ret by (by eapply calc_index_run).
  erewrite get_group_bind by (by eapply put_group_lookup).
  assert (bit_check (pg_map (g_take (S o) a rest g) (S o)) ((a - pg_baseaddr g) / bytes_of (S o)) = false) as ->.
  { unfold bit_check. destruct (flip_same (S o) a (set_freelist (S o) rest g)) as (_ & Eb & _).
    change (g_flip _ _ _) with (g_take (S o) a rest g) in Eb. simpl in Eb.
    rewrite (gi_bits _ _ HT) by (unfold PAGE_NSIZES in *; lia || by apply blk_index).
    destruct (blk_index _ _ _ Hb) as [Ej Hj]. set (j := (a - pg_baseaddr g) / bytes_of (S o)) in *.
    rewrite bytes_of_S in Ej. unfold isfree. rewrite Eb. pose proof (bytes_of_pos o).
    rewrite !bool_decide_eq_false_2; [done|..]; eapply ginv_taken_free; try done;
      simpl; rewrite ?bytes_of_S; unfold PAGE_NSIZES in *; lia. }
  simpl negb. unfold kbind at 1. simpl rbind. rewrite ?Nat.sub_0_r.
  unfold push_free. erewrite upd_group_bind by (by eapply put_group_lookup).
  erewrite upd_group_run by (eapply put_group_lookup, put_group_lookup; done).
  rewrite !put_group_twice, freelist_eq, set_freelist_twice. done.
Qed.

(** A free block whose pair is the only one that may be complete. *)
Definition ready (g : pagegroup) (o : nat) : Prop :=
  ∃ a rest x, pg_freelist g o = a :: rest ∧ coal_except g x ∧
    (x = None ∨ x = Some (o, pair_index g o a)).

Definition same_range (g g' : pagegroup) : Prop :=
  pg_baseaddr g' = pg_baseaddr g ∧ pg_endaddr g' = pg_endaddr g.

Lemma take_coal g A o a rest x :
  ginv g A → (o < PAGE_NSIZES)%nat → pg_freelist g o = a :: rest → coal_except g x →
  x = None ∨ x = Some (o, pair_index g o a) → coal_except (g_take o a rest g) None.
Proof.
  intros HG Ho Hl Hc Hx. pose proof (ginv_freelist_NoDup _ _ _ HG Ho) as Hnd. rewrite Hl in Hnd.
  apply NoDup_cons in Hnd as [Hn _]. unfold g_take.
  destruct (flip_same o a (set_freelist o rest g)) as (Ef & Eb & _).
  apply (coal_shrink g _ o a x); [done|done| |done| |]; rewrite ?Ef.
  - eapply ginv_free_blk; [done..|rewrite Hl; set_solver].
  - intros o' y. destruct (decide (o = o')) as [<-|?]; [rewrite freelist_eq, Hl; set_solver|].
    by rewrite freelist_ne.
  - by rewrite freelist_eq.
Qed.

Lemma split_step gi g A o s :
  ps_groups s.1 !! gi = Some g → ginv g A → (S o < PAGE_NSIZES)%nat → ready g (S o) →
  ∃ g', __page_split gi (S o) s = RRet tt (put_group gi g' s) ∧ ginv g' A ∧ same_range g g' ∧ ready g' o.
Proof.
  intros Hg HG Ho (a & rest & x & Hl & Hc & Hx).
  assert (Hb : blk g (S o, a)) by (eapply ginv_free_blk; [done..|rewrite Hl; set_solver]).
  destruct (flip_same (S o) a (set_freelist (S o) rest g)) as (_ & Eb & Ee).
  change (g_flip _ _ _) with (g_take (S o) a rest g) in Eb, Ee.
  assert (Hb' : blk (g_take (S o) a rest g) (S o, a)) by (by eapply blk_ext).
  eexists. split_and!; [by eapply split_run| | |].
  - apply ginv_break; [unfold PAGE_NSIZES in *; lia|]. by apply ginv_take.
  - done.
  - exists (a + bytes_of o), (a :: pg_freelist (g_take (S o) a rest g) o), (Some (o, pair_index g o a)).
    split_and!; [by unfold g_break; rewrite freelist_eq| |].
    + assert (pair_index g o a = pair_index (g_take (S o) a rest g) o a) as ->
        by (unfold pair_index; by rewrite Eb).
      apply coal_break; [unfold PAGE_NSIZES in *; lia|done|by eapply take_coal].
    + right. do 2 f_equal. rewrite <- (pair_index_buddy g o a) by (by destruct Hb as (_ & _ & _ & ?)).
      unfold pair_index, g_break. simpl in *. by rewrite Eb.
Qed.

Lemma split_down_run k gi g A o s :
  ps_groups s.1 !! gi = Some g → ginv g A → (o + k < PAGE_NSIZES)%nat → ready g (o + k) →
  ∃ g', split_down k gi o s = RRet tt (put_group gi g' s) ∧ ginv g' A ∧ same_range g g' ∧ ready g' o.
Proof.
  revert g s. induction k as [|k IH]; intros g s Hg HG Ho Hr; simpl.
  - exists g. rewrite put_group_id by done. rewrite Nat.add_0_r in Hr. done.
  - rewrite Nat.add_succ_r in *. destruct (split_step gi g A (o + k) s) as (g1 & Hs & HG1 & Hr1 & Hrd); [done..|].
    erewrite kbind_of_ret by done.
    destruct (IH g1 (put_group gi g1 s)) as (g' & Hd & HG' & Hr' & Hrd'); [by eapply put_group_lookup|done|lia|done|].
    exists g'. rewrite Hd, put_group_twice. split_and!; [done|done| |done].
    destruct Hr1, Hr'. split; congruence.
Qed.

Lemma take_block_run gi g A o s :
  ps_groups s.1 !! gi = Some g → ginv g A → (o < PAGE_NSIZES)%nat → ready g o →
  ∃ a g', take_block gi o s = RRet a (add_freecount (- pages_of o) (put_group gi g' s)) ∧
    ginv g' ((o, a) :: A) ∧ same_range g g' ∧ coal_except g' None.
Proof.
  intros Hg HG Ho (a & rest & x & Hl & Hc & Hx).
  assert (Hb : blk g (o, a)) by (eapply ginv_free_blk; [done..|rewrite Hl; set_solver]).
  exists a, (g_take o a rest g).
  split_and!; [|by apply ginv_take|apply (flip_same o a (set_freelist o rest g))|by eapply take_coal].
  unfold take_block. erewrite get_group_bind by done. rewrite Hl. unfold kderef. unfold kbind at 1. simpl rbind.
  erewrite upd_group_bind by done.
  erewrite flip_bind; [|by eapply put_group_lookup|done|apply HG|done].
  by rewrite put_group_twice.
Qed.

Lemma remove_free_bind {A} gi g o a s (k : unit → kM (pstate * X) A) :
  ps_groups s.1 !! gi = Some g → (o < PAGE_NSIZES)%nat → a ∈ pg_freelist g o →
  (∀ o', (o' < PAGE_NSIZES)%nat → a ∈ pg_freelist g o' → o' = o) →
  kbind (remove_free gi a) k s =
    k tt (put_group gi (set_freelist o (filter (.≠ a) (pg_freelist g o)) g) s).
Proof.
  intros Hg Ho Ha Hu. unfold remove_free. unfold kbind at 1. erewrite get_group_bind by done.
  destruct (list_find _ (seq 0 PAGE_NSIZES)) as [[i o']|] eqn:Hf.
  - apply list_find_Some in Hf as (Hi & Ha' & _). apply lookup_seq in Hi as [-> Hi].
    rewrite (Hu (0 + i)%nat) by (done || lia). by erewrite upd_group_run by done.
  - eapply list_find_None in Hf. rewrite Forall_forall in Hf. exfalso.
    apply (Hf o); [apply elem_of_seq; lia|done].
Qed.

(** The two blocks of a pair whose bit is clear, one of which is free. *)
Lemma clear_bit_buddies g A o a :
  ginv g A → (o < PAGE_NSIZES - 1)%nat → a ∈ pg_freelist g o →
  bit_check (pg_map g (S o)) (pair_index g o a) = false →
  let lo := pg_baseaddr g + 2 * pair_index g o a * bytes_of o in
  let buddy := a + bytes_of o *
    (if Z.testbit (Z.shiftr (Z.shiftr (a - pg_baseaddr g) PAGE_SHIFT) (Z.of_nat o)) 0 then -1 else 1) in
  (a = lo ∧ buddy = lo + bytes_of o ∨ a = lo + bytes_of o ∧ buddy = lo) ∧
  lo ∈ pg_freelist g o ∧ lo + bytes_of o ∈ pg_freelist g o ∧ (bytes_of (S o) | lo - pg_baseaddr g) ∧
  pair_index g o lo = pair_index g o a.
Proof.
  intros HG Ho Ha Hbit lo buddy.
  assert (Hb : blk g (o, a)) by (eapply ginv_free_blk; [done|unfold PAGE_NSIZES in *; lia|done]).
  pose proof (pair_index_nonneg _ _ _ Hb) as Hi. pose proof (bytes_of_pos o) as Hpos.
  destruct (blk_index _ _ _ Hb) as [Ea Hj].
  assert (Hd : (bytes_of (S o) | lo - pg_baseaddr g)).
  { exists (pair_index g o a). unfold lo. rewrite bytes_of_S. lia. }
  assert (Hlo : pair_index g o lo = pair_index g o a).
  { unfold lo. unfold pair_index at 1. rewrite bytes_of_S.
    replace (pg_baseaddr g + 2 * pair_index g o a * bytes_of o - pg_baseaddr g)
      with (pair_index g o a * (2 * bytes_of o)) by lia. apply Z.div_mul. lia. }
  assert (Hodd : Z.testbit (Z.shiftr (Z.shiftr (a - pg_baseaddr g) PAGE_SHIFT) (Z.of_nat o)) 0 =
                 Z.odd ((a - pg_baseaddr g) / bytes_of o)).
  { unfold PAGE_SHIFT. rewrite Z.shiftr_shiftr, Z.bit0_odd, Z.shiftr_div_pow2, bytes_of_eq by lia.
    by rewrite Z.add_comm. }
  unfold bit_check in Hbit. rewrite (gi_bits _ _ HG) in Hbit by done. unfold isfree in Hbit.
  change (pg_baseaddr g + 2 * pair_index g o a * bytes_of o) with lo in Hbit.
  replace (pg_baseaddr g + (2 * pair_index g o a + 1) * bytes_of o) with (lo + bytes_of o) in Hbit by (unfold lo; lia).
  assert (Hidx : (a - pg_baseaddr g) / bytes_of o / 2 = pair_index g o a) by (unfold pair_index; by rewrite index_S).
  pose proof (Zmod_odd ((a - pg_baseaddr g) / bytes_of o)) as Hm.
  unfold buddy. rewrite Hodd. set (j := (a - pg_baseaddr g) / bytes_of o) in *.
  pose proof (Z.div_mod j 2) as Hdm. destruct (Z.odd j).
  - assert (a = lo + bytes_of o) as Elo by (unfold lo; rewrite <- Hidx; nia).
    rewrite <- Elo in Hbit |- *. split_and!; [right; lia| |done|done|done].
    rewrite (bool_decide_eq_true_2 (a ∈ _)) in Hbit by done. by case_bool_decide.
  - assert (a = lo) as Elo by (unfold lo; rewrite <- Hidx; nia).
    rewrite <- Elo in Hbit |- *. split_and!; [left; lia|done| |rewrite Elo; done|done].
    rewrite (bool_decide_eq_true_2 (a ∈ _)) in Hbit by done. by case_bool_decide.
Qed.

(** Taking two buddies off their free list, in either order. *)
Lemma remove_buddies gi g A o lo a b s :
  ps_groups s.1 !! gi = Some g → ginv g A → (o < PAGE_NSIZES)%nat →
  (a = lo ∧ b = lo + bytes_of o ∨ a = lo + bytes_of o ∧ b = lo) →
  lo ∈ pg_freelist g o → lo + bytes_of o ∈ pg_freelist g o →
  ∃ l, pg_freelist g o ≡ₚ lo :: lo + bytes_of o :: l ∧
    ∀ B (k : unit → kM (pstate * X) B),
      kbind (remove_free gi a) (λ _, kbind (remove_free gi b) k) s =
        k tt (put_group gi (set_freelist o l g) s).
Proof.
  intros Hg HG Ho Hab Hlo Hhi. pose proof (bytes_of_pos o) as Hpos.
  pose proof (ginv_freelist_NoDup _ _ _ HG Ho) as Hnd.
  assert (Hu : ∀ x o', x ∈ pg_freelist g o → (o' < PAGE_NSIZES)%nat → x ∈ pg_freelist g o' → o' = o).
  { intros x o' Hx Ho' Hx'. pose proof (bytes_of_pos o').
    assert ((o', x) = (o, x)) as [= ->]; [|done].
    eapply (ginv_free_overlap g A _ _ x); [done|by apply elem_of_frees|by apply elem_of_frees|..];
      unfold covers; simpl; lia. }
  assert (Ha : a ∈ pg_freelist g o) by (destruct Hab as [[-> _]|[-> _]]; done).
  assert (Hb : b ∈ pg_freelist g o) by (destruct Hab as [[_ ->]|[_ ->]]; done).
  assert (Hne : a ≠ b) by lia.
  exists (filter (.≠ b) (filter (.≠ a) (pg_freelist g o))). split.
  - assert (Hp : pg_freelist g o ≡ₚ a :: b :: filter (.≠ b) (filter (.≠ a) (pg_freelist g o))).
    { rewrite (filter_ne_perm a (pg_freelist g o)) at 1 by done. constructor.
      apply filter_ne_perm; [by apply NoDup_filter|]. by apply list_elem_of_filter. }
    rewrite Hp at 1. destruct Hab as [[-> ->]|[-> ->]]; [done|constructor].
  - intros B k. erewrite remove_free_bind by eauto.
    erewrite remove_free_bind; [|by eapply put_group_lookup|exact Ho| |].
    + by rewrite put_group_twice, freelist_eq, set_freelist_twice.
    + rewrite freelist_eq. by apply list_elem_of_filter.
    + intros o' Ho' Hin. destruct (decide (o = o')) as [->|Hno]; [done|].
      rewrite freelist_ne in Hin by done. eauto.
Qed.

(** One round of joining: the merged block is free and heads the only pair that
    may be complete. *)
Lemma merge_put g A o lo l :
  (o < PAGE_NSIZES - 1)%nat → ginv g A → (bytes_of (S o) | lo - pg_baseaddr g) →
  pg_freelist g o ≡ₚ lo :: lo + bytes_of o :: l → coal_except g (Some (o, pair_index g o lo)) →
  let g' := g_put (S o) lo (set_freelist o l g) in
  ginv g' A ∧ same_range g g' ∧ lo ∈ pg_freelist g' (S o) ∧ blk g (S o, lo) ∧
  coal_except g' (Some (S o, pair_index g' (S o) lo)).
Proof.
  intros Ho7 HG Hd Hl Hc g'. assert (Ho : (o < PAGE_NSIZES)%nat) by lia.
  assert (HoS : (S o < PAGE_NSIZES)%nat) by (unfold PAGE_NSIZES in *; lia).
  pose proof (ginv_merge g A o lo l Ho7 HG Hd Hl) as HM.
  pose proof (ginv_freelist_NoDup _ _ _ HG Ho) as Hnd. rewrite Hl in Hnd.
  assert (HcM : coal_except (set_freelist o l g) None).
  { apply (coal_shrink g _ o lo _ Hc); [by right| |done| |].
    - eapply ginv_free_blk; [done..|]. rewrite Hl. set_solver.
    - intros o' y. destruct (decide (o = o')) as [<-|?]; [rewrite freelist_eq, Hl; set_solver|by rewrite freelist_ne].
    - rewrite freelist_eq. apply NoDup_cons in Hnd. set_solver. }
  assert (HbM : blk (set_freelist o l g) (S o, lo)).
  { pose proof (gi_blk _ _ HM) as Hblk. rewrite Forall_app, Forall_cons in Hblk. naive_solver. }
  unfold g', g_put.
  destruct (flip_same (S o) lo (set_freelist (S o) (lo :: pg_freelist (set_freelist o l g) (S o)) (set_freelist o l g)))
    as (Ef & Eb & Ee).
  split_and!; [apply (ginv_put _ _ _ _ HM)|done| |done|].
  - rewrite Ef, freelist_eq. set_solver.
  - unfold pair_index. rewrite Eb. by apply coal_put.
Qed.

Lemma offset_low_bits g o a :
  blk g (o, a) → Z.land (a - pg_baseaddr g) (pages_of o - 1) =? 0 = true.
Proof.
  intros (_ & _ & _ & Hd). apply Z.eqb_eq.
  assert (pages_of o - 1 = Z.ones (Z.of_nat o)) as -> by (rewrite pages_of_eq, Z.ones_equiv; lia).
  rewrite Z.land_ones by lia. apply Z.mod_divide; [lia|]. etrans; [|done].
  exists (2 ^ 12). simpl. rewrite bytes_of_eq, Z.pow_add_r by lia. lia.
Qed.

(** The flip when the group is read again before it. *)
Lemma flip_again_bind gi g o a s {B} (k : unit → kM (pstate * X) B) :
  ps_groups s.1 !! gi = Some g → blk g (o, a) → (4096 | pg_baseaddr g) →
  kbind (if bool_decide (o < PAGE_NSIZES - 1)%nat then
           let* group := get_group gi in
           let* index := _pagegroup_calculate_index group (o + 1) a in
           flip_bit gi (o + 1) index
         else kret tt) k s = k tt (put_group gi (g_flip o a g) s).
Proof.
  intros Hg Hb Hd. rewrite <- (flip_bind gi g g o a s k) by done.
  case_bool_decide; [|done]. unfold kbind at 1 3. by erewrite get_group_bind by done.
Qed.

Lemma join_run fuel gi g A o a s :
  ps_groups s.1 !! gi = Some g → ginv g A → (o < PAGE_NSIZES)%nat → a ∈ pg_freelist g o →
  coal_except g (Some (o, pair_index g o a)) → (PAGE_NSIZES ≤ fuel + o)%nat →
  ∃ g', __page_join fuel gi o a s = RRet tt (put_group gi g' s) ∧ ginv g' A ∧ same_range g g' ∧
    coal_except g' None.
Proof.
  revert g o a s. induction fuel as [|fuel IH]; intros g o a s Hg HG Ho Ha Hc Hf; [lia|].
  cbn [__page_join]. case_bool_decide as Ho7.
  2:{ exists g. rewrite put_group_id by done. split_and!; [done..|]. apply (coal_top g (pair_index g o a)).
      by replace (PAGE_NSIZES - 1)%nat with o by (unfold PAGE_NSIZES in *; lia). }
  assert (Hb : blk g (o, a)) by (by eapply ginv_free_blk).
  erewrite get_group_bind by done.
  erewrite kbind_of_ret by (eapply calc_index_run; [done|unfold PAGE_NSIZES in *; lia|apply HG]).
  replace (pg_map g (o + 1)) with (pg_map g (S o)) by (by rewrite Nat.add_1_r).
  replace ((a - pg_baseaddr g) / bytes_of (o + 1)) with (pair_index g o a) by (by rewrite Nat.add_1_r).
  destruct (bit_check (pg_map g (S o)) (pair_index g o a)) eqn:Hbit.
  { exists g. rewrite put_group_id by done. split_and!; [done..|]. intros o' i Ho' Hi F1 F2.
    exfalso. specialize (Hc o' i Ho' Hi F1 F2). simplify_eq. unfold bit_check in Hbit.
    rewrite (gi_bits _ _ HG), F1, F2 in Hbit by done. done. }
  destruct (clear_bit_buddies g A o a HG Ho7 Ha Hbit) as (Hab & Hlo & Hhi & Hd & Hpi).
  cbv zeta. set (lo := pg_baseaddr g + 2 * pair_index g o a * bytes_of o) in *.
  set (buddy := a + bytes_of o * _) in *. pose proof (bytes_of_pos o) as Hpos.
  rewrite offset_low_bits by done. unfold KASSERT at 1. unfold kbind at 1. cbn [rbind].
  replace (Z.min a buddy) with lo by lia.
  destruct (remove_buddies gi g A o lo a buddy s) as (l & Hl & Hrun); [done..|]. rewrite Hrun. clear Hrun.
  rewrite <- Hpi in Hc. destruct (merge_put g A o lo l Ho7 HG Hd Hl Hc) as (HG' & [Eb Ee] & Hin & HbS & Hc').
  unfold push_free. erewrite upd_group_bind by (by eapply put_group_lookup). rewrite put_group_twice.
  replace (o + 1)%nat with (S o) by lia.
  erewrite flip_again_bind; [|by eapply put_group_lookup|by apply (blk_ext g)|apply HG].
  rewrite put_group_twice. fold (g_put (S o) lo (set_freelist o l g)).
  destruct (IH (g_put (S o) lo (set_freelist o l g)) (S o) lo
    (put_group gi (g_put (S o) lo (set_freelist o l g)) s)) as (g' & Hrun & HG'' & [Eb' Ee'] & Hc'');
    [by eapply put_group_lookup|exact HG'|unfold PAGE_NSIZES in *; lia|exact Hin|exact Hc'|lia|].
  exists g'. rewrite Hrun, put_group_twice. split_and!; [done|done| |done].
  split; congruence.
Qed.
End Runs.

(** * The allocator as a whole *)

Definition in_group (g : pagegroup) (b : block) : Prop := pg_baseaddr g ≤ b.2 < pg_endaddr g.
#[global] Instance in_group_dec g b : Decision (in_group g b).
Proof. unfold in_group. apply _. Defined.

(** Pages on free lists, and pages managed. *)
Definition free_pages (gs : list pagegroup) : Z := foldr (λ g n, npages (frees g) + n) 0 gs.
Definition managed_pages (gs : list pagegroup) : Z :=
  foldr (λ g n, (pg_endaddr g - pg_baseaddr g) / 4096 + n) 0 gs.

(** The state of the allocator while the blocks of [A] are allocated. *)
Record pinv (s : pstate) (A : list block) : Prop := {
  pi_group g : g ∈ ps_groups s →
    ginv g (filter (in_group g) A) ∧ coal_except g None ∧
    (bytes_of (PAGE_NSIZES - 1) | pg_endaddr g - pg_baseaddr g);
  pi_disj i j g h : ps_groups s !! i = Some g → ps_groups s !! j = Some h → i ≠ j →
    pg_endaddr g ≤ pg_baseaddr h ∨ pg_endaddr h ≤ pg_baseaddr g;
  pi_live b : b ∈ A → ∃ g, g ∈ ps_groups s ∧ in_group g b;
  pi_count : ps_freecount s = free_pages (ps_groups s);
  pi_total : managed_pages (ps_groups s) < 2 ^ 32
}.

Lemma free_pages_insert gs gi g g' :
  gs !! gi = Some g → free_pages (<[gi := g']> gs) = free_pages gs - npages (frees g) + npages (frees g').
Proof.
  revert gi. induction gs as [|h gs IH]; intros [|gi] Hg; simplify_eq/=; [lia|].
  rewrite IH by done. lia.
Qed.

Lemma managed_pages_insert gs gi g g' :
  gs !! gi = Some g → same_range g g' → managed_pages (<[gi := g']> gs) = managed_pages gs.
Proof.
  intros Hg [Eb Ee]. revert gi Hg. induction gs as [|h gs IH]; intros [|gi] Hg; simplify_eq/=.
  - by rewrite Eb, Ee.
  - by rewrite IH.
Qed.

Lemma ginv_npages g A :
  ginv g A → npages (frees g) + npages A = (pg_endaddr g - pg_baseaddr g) / 4096 ∧
    0 ≤ npages (frees g) ∧ 0 ≤ npages A.
Proof.
  intros HG. pose proof (gi_sum _ _ HG) as Hs. rewrite <- Hs, Z.div_mul, npages_app by lia.
  pose proof (npages_nonneg (frees g)). pose proof (npages_nonneg A). lia.
Qed.

Lemma free_pages_bounds gs :
  (∀ g, g ∈ gs → ∃ A, ginv g A) → 0 ≤ free_pages gs ≤ managed_pages gs.
Proof.
  induction gs as [|g gs IH]; intros Hg; simpl; [lia|].
  destruct (Hg g) as [A HA]; [set_solver|]. destruct (ginv_npages _ _ HA) as (? & ? & ?).
  destruct IH as [? ?]; [set_solver|]. lia.
Qed.

(** One group changes, and with it the allocated blocks that lie in it. *)
Lemma pinv_update s A A' gi g g' n :
  pinv s A → ps_groups s !! gi = Some g → same_range g g' →
  ginv g' (filter (in_group g) A') → coal_except g' None →
  (∀ h, h ∈ ps_groups s → pg_endaddr g ≤ pg_baseaddr h ∨ pg_endaddr h ≤ pg_baseaddr g →
     filter (in_group h) A' = filter (in_group h) A) →
  (∀ b, b ∈ A' → b ∈ A ∨ in_group g b) → n = npages (frees g') - npages (frees g) →
  u32 (ps_freecount s + n) = ps_freecount s + n ∧
  pinv (PState (<[gi := g']> (ps_groups s)) (u32 (ps_freecount s + n))) A'.
Proof.
  intros [H1 H2 H3 H4 H5] Hg [Eb Ee] HG' Hc' Hother Hlive ->.
  assert (Hgin : g ∈ ps_groups s) by (by eapply list_elem_of_lookup_2).
  assert (Hig : ∀ b, in_group g' b ↔ in_group g b) by (intros b; unfold in_group; by rewrite Eb, Ee).
  assert (Hig' : filter (in_group g') A' = filter (in_group g) A') by (by apply list_filter_iff).
  assert (Hlt : (gi < length (ps_groups s))%nat) by (by eapply lookup_lt_Some).
  assert (HI : ∀ h, h ∈ <[gi := g']> (ps_groups s) → ginv h (filter (in_group h) A') ∧ coal_except h None ∧
    (bytes_of (PAGE_NSIZES - 1) | pg_endaddr h - pg_baseaddr h)).
  { intros h [j Hj]%list_elem_of_lookup. rewrite list_lookup_insert in Hj. case_decide as Hd.
    - simplify_eq. rewrite Hig', Eb, Ee. split_and!; [done|done|]. by apply H1.
    - assert (h ∈ ps_groups s) as Hh by (by eapply list_elem_of_lookup_2).
      rewrite Hother; [by apply H1|done|]. apply (H2 gi j); [done|done|]. intros ->. apply Hd. done. }
  assert (Hcount : u32 (ps_freecount s + (npages (frees g') - npages (frees g))) =
    ps_freecount s + (npages (frees g') - npages (frees g))).
  { assert (0 ≤ free_pages (<[gi := g']> (ps_groups s)) ≤ managed_pages (<[gi := g']> (ps_groups s))) as Hb
      by (apply free_pages_bounds; intros h Hh; destruct (HI h Hh); eauto).
    rewrite (managed_pages_insert _ _ g) in Hb by done.
    rewrite (free_pages_insert _ _ g) in Hb by done. rewrite u32_small by lia. lia. }
  split; [done|]. split; simpl.
  - done.
  - intros i j h1 h2. rewrite !list_lookup_insert. intros Hi Hj Hne.
    repeat case_decide; simplify_eq; rewrite ?Eb, ?Ee; [lia|..|eauto];
      destruct_and!; subst; eauto using not_eq_sym.
  - intros b [Hb|Hb]%Hlive.
    + destruct (H3 b Hb) as (h & Hh & Hin). apply list_elem_of_lookup in Hh as [j Hj].
      destruct (decide (gi = j)) as [->|Hne].
      * simplify_eq. exists g'. rewrite Hig. split; [|done]. by apply list_elem_of_insert.
      * exists h. split; [|done]. apply (list_elem_of_lookup_2 _ j). by rewrite list_lookup_insert_ne.
    + exists g'. rewrite Hig. split; [by apply list_elem_of_insert|done].
  - rewrite Hcount, (free_pages_insert _ _ g) by done. lia.
  - by rewrite (managed_pages_insert _ _ g).
Qed.

Lemma ginv_Permutation g A A' : A ≡ₚ A' → ginv g A → ginv g A'.
Proof.
  intros HP HG. eapply ginv_perm; [done|done|done|by rewrite HP|apply HG].
Qed.

Lemma pinv_Permutation s A A' : A ≡ₚ A' → pinv s A → pinv s A'.
Proof.
  intros HP [H1 H2 H3 H4 H5]. split; [|done| |done|done].
  - intros g Hg. destruct (H1 g Hg) as (HG & ? & ?). split_and!; [|done|done].
    eapply ginv_Permutation; [|done]. by rewrite HP.
  - intros b Hb. apply H3. by rewrite HP.
Qed.

Section Alloc.
Context {X : Type} (reclaim : Z → kM (pstate * X) Z).
Implicit Types s : pstate * X.

(** Taking a block from a group that may have been split before. *)
(** Allocating and freeing keep the ranges of the groups. *)
Definition ranges (s : pstate) : list (Z * Z) := (λ g, (pg_baseaddr g, pg_endaddr g)) <$> ps_groups s.

Lemma ranges_put (gs : list pagegroup) gi g g' :
  gs !! gi = Some g → same_range g g' →
  (λ g, (pg_baseaddr g, pg_endaddr g)) <$> <[gi := g']> gs = (λ g, (pg_baseaddr g, pg_endaddr g)) <$> gs.
Proof.
  intros Hg [Eb Ee]. rewrite list_fmap_insert. apply list_insert_id.
  rewrite list_lookup_fmap, Hg. simpl. by rewrite Eb, Ee.
Qed.

Lemma take_block_pinv s A gi g0 g o :
  pinv s.1 A → ps_groups s.1 !! gi = Some g0 → same_range g0 g →
  ginv g (filter (in_group g0) A) → (o < PAGE_NSIZES)%nat → ready g o →
  ∃ a s', take_block gi o (put_group gi g s) = RRet a s' ∧ s'.2 = s.2 ∧
    ps_freecount s'.1 = ps_freecount s.1 - pages_of o ∧ ranges s'.1 = ranges s.1 ∧ pinv s'.1 ((o, a) :: A).
Proof.
  intros Hp Hg [Eb Ee] HG Ho Hr.
  destruct (take_block_run gi g _ o (put_group gi g s) (put_group_lookup _ _ _ _ Hg) HG Ho Hr)
    as (a & g' & Hrun & HG' & [Eb' Ee'] & Hc').
  exists a. eexists. split; [done|]. split; [done|]. rewrite put_group_twice. simpl.
  assert (Hgin : g0 ∈ ps_groups s.1) by (by eapply list_elem_of_lookup_2).
  destruct (pi_group _ _ Hp g0 Hgin) as (HG0 & _ & _).
  assert (Hb : in_group g0 (o, a)).
  { pose proof (gi_blk _ _ HG') as Hblk. rewrite Forall_app, Forall_cons in Hblk.
    destruct Hblk as (_ & (_ & ? & ? & _) & _). pose proof (bytes_of_pos o). unfold in_group. simpl in *. lia. }
  apply and_mid.
  { unfold ranges. simpl. apply (ranges_put _ _ g0); [done|split; congruence]. }
  apply (pinv_update s.1 A _ gi g0 g'); [done|done|split; congruence| |done| | |].
  - rewrite filter_cons_True by done. done.
  - intros h Hh Hdis. rewrite filter_cons_False; [done|]. unfold in_group in *. simpl in *. lia.
  - intros b. rewrite elem_of_cons. intros [->|?]; auto.
  - destruct (ginv_npages _ _ HG0) as [E0 _], (ginv_npages _ _ HG') as [E' _]. simpl in E'.
    rewrite Eb', Ee', Eb, Ee in E'. lia.
Qed.

Lemma find_group_bind {B} P s (k : option nat → kM (pstate * X) B) :
  kbind (find_group P) k s = k (fst <$> list_find (λ g, P g = true) (ps_groups s.1)) s.
Proof. done. Qed.

Lemma coal_ready g o : coal_except g None → pg_freelist g o ≠ [] → ready g o.
Proof. intros Hc Hl. destruct (pg_freelist g o) as [|a l] eqn:E; [done|]. exists a, l, None. eauto. Qed.

Lemma find_free_some s o gi :
  fst <$> list_find (λ g, bool_decide (pg_freelist g o ≠ []) = true) (ps_groups s.1) = Some gi →
  ∃ g, ps_groups s.1 !! gi = Some g ∧ pg_freelist g o ≠ [].
Proof.
  destruct (list_find _ _) as [[i g]|] eqn:Hf; [|done]. intros [= <-].
  apply list_find_Some in Hf as (Hi & Hb%bool_decide_eq_true & _). eauto.
Qed.

Lemma find_free_none s o :
  fst <$> list_find (λ g, bool_decide (pg_freelist g o ≠ []) = true) (ps_groups s.1) = None →
  ∀ g, g ∈ ps_groups s.1 → pg_freelist g o = [].
Proof.
  destruct (list_find _ _) eqn:Hf; [done|]. intros _ g Hg. eapply list_find_None in Hf.
  rewrite Forall_forall in Hf. specialize (Hf g Hg).
  destruct (pg_freelist g o); [done|]. by rewrite bool_decide_eq_true_2 in Hf.
Qed.

(** The search finds the smallest larger order with a free block, or there is none. *)
Lemma split_search_run s A o ns :
  pinv s.1 A → (∀ n, n ∈ ns → (o < n < PAGE_NSIZES)%nat) → 
  (∃ gi g0 g, split_search o ns s = RRet (Some gi) (put_group gi g s) ∧
     ps_groups s.1 !! gi = Some g0 ∧ same_range g0 g ∧ ginv g (filter (in_group g0) A) ∧ ready g o) ∨
  (split_search o ns s = RRet None s ∧ ∀ g n, g ∈ ps_groups s.1 → n ∈ ns → pg_freelist g n = []).
Proof.
  intros Hp. induction ns as [|n ns IH]; intros Hns; cbn [split_search].
  - right. split; [done|]. set_solver.
  - rewrite !find_group_bind. destruct (fst <$> list_find _ _) as [gi|] eqn:Hf.
    + left. apply find_free_some in Hf as (g0 & Hg & Hl).
      destruct (pi_group _ _ Hp g0 ltac:(by eapply list_elem_of_lookup_2)) as (HG & Hc & _).
      assert (Hn : (o < n < PAGE_NSIZES)%nat) by (apply Hns; set_solver).
      destruct (split_down_run (n - o) gi g0 _ o s Hg HG) as (g & Hrun & HG' & Hr & Hrd).
      { lia. } { replace (o + (n - o))%nat with n by lia. by apply coal_ready. }
      exists gi, g0, g. split_and!; try done. erewrite kbind_of_ret by done.
      erewrite get_group_bind by (by eapply put_group_lookup).
      destruct Hrd as (a & l & x & E & _). by rewrite E.
    + destruct IH as [?|[Hs Hno]]; [set_solver|by left|right]. split; [done|].
      intros g n' Hg [->|Hn']%elem_of_cons; [by eapply find_free_none|eauto].
Qed.

(** What allocating a block of an order does. *)
Lemma page_alloc_order_run s A o :
  pinv s.1 A → (o < PAGE_NSIZES)%nat →
  (∃ a s', _page_alloc_order reclaim o s = RRet (Some a) s' ∧ s'.2 = s.2 ∧
     ps_freecount s'.1 = ps_freecount s.1 - pages_of o ∧ ranges s'.1 = ranges s.1 ∧
     pinv s'.1 ((o, a) :: A)) ∨
  ((∀ g o', g ∈ ps_groups s.1 → (o ≤ o' < PAGE_NSIZES)%nat → pg_freelist g o' = []) ∧
   ∀ n s', reclaim 0 s = RRet n s' → _page_alloc_order reclaim o s = RRet None s').
Proof.
  intros Hp Ho. unfold _page_alloc_order. setoid_rewrite find_group_bind.
  destruct (fst <$> list_find _ _) as [gi|] eqn:Hf.
  - left. apply find_free_some in Hf as (g & Hg & Hl).
    destruct (pi_group _ _ Hp g ltac:(by eapply list_elem_of_lookup_2)) as (HG & Hc & _).
    destruct (take_block_pinv s A gi g g o) as (a & s' & Hrun & ? & ? & ? & ?);
      [done|done|split; done|done|done|by apply coal_ready|].
    rewrite put_group_id in Hrun by done. exists a, s'. by erewrite kbind_of_ret by done.
  - destruct (split_search_run s A o (seq (o + 1) (PAGE_NSIZES - (o + 1)))) as
      [(gi & g0 & g & Hs & Hg & Hr & HG & Hrd)|[Hs Hno]]; [done|..].
    { intros n Hn%elem_of_seq. lia. }
    + left. destruct (take_block_pinv s A gi g0 g o) as (a & s' & Hrun & ? & ? & ? & ?); [done..|].
      exists a, s'. split_and!; [|done..].
      erewrite (kbind_of_ret (_page_split reclaim o)) by (unfold _page_split; by erewrite kbind_of_ret by done).
      cbn beta iota. erewrite get_group_bind by (by eapply put_group_lookup).
      destruct Hrd as (a' & l & x & E & _). rewrite E, bool_decide_eq_true_2 by done.
      unfold KASSERT. unfold kbind at 1. cbn [rbind]. by erewrite kbind_of_ret by done.
    + right. split.
      * intros g o' Hg Ho'. destruct (decide (o' = o)) as [->|Hne]; [by eapply find_free_none|].
        apply Hno; [done|]. apply elem_of_seq. lia.
      * intros n s' Hr.
        assert (_page_split reclaim o s = RRet None s') as Hsp.
        { unfold _page_split. erewrite kbind_of_ret by done. cbn beta iota. by erewrite kbind_of_ret by done. }
        by erewrite kbind_of_ret by done.
Qed.
End Alloc.

Section Free.
Context {X : Type}.
Implicit Types s : pstate * X.

Lemma from_address_run s A o a :
  pinv s.1 ((o, a) :: A) →
  ∃ gi g, _pagegroup_from_address a s = RRet (Some gi) s ∧ ps_groups s.1 !! gi = Some g ∧ in_group g (o, a).
Proof.
  intros Hp. unfold _pagegroup_from_address, find_group, kgets.
  destruct (list_find _ _) as [[gi g]|] eqn:Hf.
  - exists gi, g. apply list_find_Some in Hf as (Hi & Hb & _). split_and!; [done|done|].
    apply andb_true_iff in Hb as [?%Z.leb_le ?%Z.ltb_lt]. done.
  - eapply list_find_None in Hf. rewrite Forall_forall in Hf. exfalso.
    destruct (pi_live _ _ Hp (o, a)) as (g & Hg & [? ?]); [set_solver|]. apply (Hf g Hg).
    apply andb_true_iff. split; [by apply Z.leb_le|by apply Z.ltb_lt].
Qed.

(** A block put back into its group, before joining. *)
Lemma put_back g A o a :
  ginv g ((o, a) :: A) → coal_except g None →
  ginv (g_put o a g) A ∧ coal_except (g_put o a g) (Some (o, pair_index (g_put o a g) o a)) ∧
  a ∈ pg_freelist (g_put o a g) o ∧ same_range g (g_put o a g) ∧ blk g (o, a).
Proof.
  intros HG Hc. pose proof (gi_blk _ _ HG) as Hblk. rewrite Forall_app, Forall_cons in Hblk.
  destruct Hblk as (_ & Hb & _). destruct (ginv_put _ _ _ _ HG) as [HP _].
  destruct (flip_same o a (set_freelist o (a :: pg_freelist g o) g)) as (Ef & Eb & Ee).
  unfold g_put in *. split_and!; [done| | |done|done].
  - unfold pair_index. rewrite Eb. apply coal_put; [apply Hb|done|done].
  - rewrite Ef, freelist_eq. set_solver.
Qed.

Lemma page_free_order_run s A o a :
  pinv s.1 ((o, a) :: A) →
  ∃ s', _page_free_order a o s = RRet tt s' ∧ s'.2 = s.2 ∧
    ps_freecount s'.1 = ps_freecount s.1 + pages_of o ∧ ranges s'.1 = ranges s.1 ∧ pinv s'.1 A.
Proof.
  intros Hp. destruct (from_address_run s A o a Hp) as (gi & g & Hf & Hg & Hin).
  unfold _page_free_order. erewrite kbind_of_ret by done. cbn beta iota.
  destruct (pi_group _ _ Hp g ltac:(by eapply list_elem_of_lookup_2)) as (HG & Hc & _).
  rewrite filter_cons_True in HG by done.
  destruct (put_back _ _ _ _ HG Hc) as (HG1 & Hc1 & Ha1 & [Eb1 Ee1] & Hb).
  unfold push_free. erewrite upd_group_bind by done.
  set (g1 := set_freelist o (a :: pg_freelist g o) g). unfold kmodify. unfold kbind at 1. cbn [rbind].
  set (s1 := add_freecount (pages_of o) (put_group gi g1 s)).
  assert (Hg1 : ps_groups s1.1 !! gi = Some g1) by (by eapply (put_group_lookup gi g g1 s)).
  assert (Hdone : ∀ g', ginv g' (filter (in_group g) A) → same_range g g' → coal_except g' None →
            ps_freecount (put_group gi g' s1).1 = ps_freecount s.1 + pages_of o ∧
            ranges (put_group gi g' s1).1 = ranges s.1 ∧ pinv (put_group gi g' s1).1 A).
  { intros g' HG' Hr Hc'. simpl. rewrite list_insert_insert_eq.
    apply and_mid.
    { unfold ranges. simpl. by apply (ranges_put _ _ g). }
    apply (pinv_update s.1 ((o, a) :: A) A gi g g'); [done|done|done|done|done| | |].
    - intros h _ Hdis. rewrite filter_cons_False; [done|]. unfold in_group in *. simpl in *. lia.
    - set_solver.
    - destruct (ginv_npages _ _ HG) as [E0 _], (ginv_npages _ _ HG') as [E' _], Hr as [Eb Ee].
      simpl in E0. rewrite Eb, Ee in E'. lia. }
  case_bool_decide as Ho.
  - erewrite get_group_bind by done.
    erewrite kbind_of_ret by (eapply calc_index_run; [by apply (blk_ext g)|unfold PAGE_NSIZES in *; lia|apply HG]).
    unfold flip_bit. erewrite upd_group_bind by done. rewrite Nat.add_1_r.
    assert (set_map (S o) (bit_flip (pg_map g1 (S o)) ((a - pg_baseaddr g1) / bytes_of (S o))) g1 = g_put o a g) as ->.
    { unfold g_put, g_flip. fold g1. by rewrite bool_decide_eq_true_2. }
    destruct (join_run PAGE_NSIZES gi (g_put o a g) (filter (in_group g) A) o a (put_group gi (g_put o a g) s1))
      as (g' & Hj & HG' & [Eb' Ee'] & Hc'); [by eapply put_group_lookup|done|lia|done|done|lia|].
    rewrite put_group_twice in Hj. exists (put_group gi g' s1).
    split; [done|]. split; [done|]. apply Hdone; [done|split; congruence|done].
  - exists s1. split; [done|]. split; [done|]. rewrite <- (put_group_id gi g1 s1) by done.
    assert (g1 = g_put o a g) as ->.
    { unfold g_put, g_flip. fold g1. by rewrite bool_decide_eq_false_2. }
    apply Hdone; [done|done|]. apply (coal_top _ (pair_index (g_put o a g) o a)).
    destruct Hb as [Ho' _]. simpl in Ho'.
    by replace (PAGE_NSIZES - 1)%nat with o by (unfold PAGE_NSIZES in *; lia).
Qed.
End Free.

(** The order the public functions use. *)
Lemma order_for_spec n :
  0 ≤ n ≤ 128 → ∃ o, order_for n = Some o ∧ (o < PAGE_NSIZES)%nat ∧ n ≤ pages_of o ∧
    (o = 0%nat ∨ pages_of o < 2 * n).
Proof.
  intros Hn. unfold order_for. destruct (list_find _ _) as [[i o]|] eqn:Hf.
  - apply list_find_Some in Hf as (Hi & Hle & Hmin). apply lookup_seq in Hi as [-> Hi]. rewrite Nat.add_0_l in *.
    rewrite i32_small in Hle by lia. exists i. rewrite ?Nat.add_0_l. split_and!; [done|lia|done|].
    destruct i as [|i]; [by left|right]. rewrite pages_of_S.
    destruct (decide (n ≤ pages_of i)) as [Hc|]; [exfalso|lia].
    apply (Hmin i i); [apply lookup_seq; lia|lia|]. by rewrite i32_small by lia.
  - eapply list_find_None in Hf. rewrite Forall_forall in Hf. exfalso. apply (Hf 7%nat).
    + apply elem_of_seq. unfold PAGE_NSIZES. lia.
    + rewrite i32_small by lia. vm_compute (pages_of 7). lia.
Qed.

(** An allocated block lies in a group. *)
Lemma pinv_blk s A b :
  pinv s A → b ∈ A → ∃ i g, ps_groups s !! i = Some g ∧ in_group g b ∧ blk g b.
Proof.
  intros Hp Hb. destruct (pi_live _ _ Hp b Hb) as (g & Hg & Hin).
  destruct (pi_group _ _ Hp g Hg) as (HG & _). apply list_elem_of_lookup in Hg as [i Hi].
  exists i, g. split_and!; [done|done|]. pose proof (gi_blk _ _ HG) as Hblk.
  rewrite Forall_app, !Forall_forall in Hblk. apply Hblk, list_elem_of_filter. done.
Qed.

Lemma live_disjoint s A b1 b2 A' :
  pinv s A → A ≡ₚ b1 :: b2 :: A' →
  b1.2 + bytes_of b1.1 ≤ b2.2 ∨ b2.2 + bytes_of b2.1 ≤ b1.2.
Proof.
  intros Hp HP. pose proof (pinv_Permutation _ _ _ HP Hp) as Hp'. clear Hp.
  destruct (pinv_blk _ _ b1 Hp') as (i & g & Hi & Hg & (_ & ? & ? & _)); [set_solver|].
  destruct (pinv_blk _ _ b2 Hp') as (j & h & Hj & Hh & (_ & ? & ? & _)); [set_solver|].
  destruct (decide (b1.2 + bytes_of b1.1 ≤ b2.2)) as [|Hn1]; [by left|].
  destruct (decide (b2.2 + bytes_of b2.1 ≤ b1.2)) as [|Hn2]; [by right|exfalso].
  pose proof (bytes_of_pos b1.1). pose proof (bytes_of_pos b2.1).
  assert (i = j) as ->.
  { destruct (decide (i = j)) as [|Hne]; [done|].
    destruct (pi_disj _ _ Hp' i j g h Hi Hj Hne); lia. }
  simplify_eq. destruct (pi_group _ _ Hp' g ltac:(by eapply list_elem_of_lookup_2)) as (HG & _).
  rewrite !filter_cons_True in HG by done.
  pose proof (gi_cov _ _ HG (Z.max b1.2 b2.2) ltac:(lia)) as Hc.
  rewrite <- !Permutation_middle, !cov_cons, !decide_True in Hc by (unfold covers; lia). lia.
Qed.

(** * Properties *)

(** C19. page_alloc_n: a request for up to 128 pages returns a block of at least
    that many pages (and less than twice as many), aligned to its size in its
    group and disjoint from every allocated block, and subtracts it from the
    free count; the invariant holds with the block added.  The alternative is
    that no group has a free block of the order or larger, and then the result
    is NULL after the slab allocator was asked to reclaim. *)
Theorem page_alloc_n_correct {X} (reclaim : Z → kM (pstate * X) Z) s A n :
  pinv s.1 A → 0 ≤ n ≤ 128 →
  ∃ o, (o < PAGE_NSIZES)%nat ∧ n ≤ pages_of o ∧ (o = 0%nat ∨ pages_of o < 2 * n) ∧
  ((∃ a s', page_alloc_n reclaim n s = RRet (Some a) s' ∧ s'.2 = s.2 ∧ pinv s'.1 ((o, a) :: A) ∧
      ps_freecount s'.1 = ps_freecount s.1 - pages_of o ∧
      ∀ o' a', (o', a') ∈ A → a + bytes_of o ≤ a' ∨ a' + bytes_of o' ≤ a) ∨
   ((∀ g o', g ∈ ps_groups s.1 → (o ≤ o' < PAGE_NSIZES)%nat → pg_freelist g o' = []) ∧
    ∀ k s', reclaim 0 s = RRet k s' → page_alloc_n reclaim n s = RRet None s')).
Proof.
  intros Hp Hn. destruct (order_for_spec n Hn) as (o & Ho & Hlt & Hle & Hmin).
  exists o. split_and!; [done..|]. unfold page_alloc_n. rewrite Ho.
  destruct (page_alloc_order_run reclaim s A o Hp Hlt) as [(a & s' & Hr & Hx & Hfc & _ & Hp')|?]; [left|by right].
  exists a, s'. split_and!; [done..|]. intros o' a' [A' HA]%elem_of_Permutation.
  apply (live_disjoint _ _ (o, a) (o', a') A' Hp'). by rewrite HA.
Qed.

(** C20. page_free_n: freeing an allocated block with the number of pages it was
    allocated with fails no assertion and touches no page that is not free,
    whatever joins with its buddies follow; the invariant holds without the
    block, and its pages are added to the free count. *)
Theorem page_free_n_correct {X} (s : pstate * X) A n o a :
  pinv s.1 ((o, a) :: A) → order_for n = Some o →
  ∃ s', page_free_n a n s = RRet tt s' ∧ s'.2 = s.2 ∧ pinv s'.1 A ∧
    ps_freecount s'.1 = ps_freecount s.1 + pages_of o.
Proof.
  intros Hp Ho. unfold page_free_n. rewrite Ho.
  destruct (page_free_order_run s A o a Hp) as (s' & Hr & Hx & Hfc & _ & Hp'). by exists s'.
Qed.

Lemma cov_exists L p : (0 < cov L p)%nat → ∃ b, b ∈ L ∧ covers b p.
Proof.
  unfold cov. intros Hl. destruct (filter _ L) as [|b l] eqn:E; [simpl in Hl; lia|].
  exists b. assert (b ∈ filter (λ b, covers b p) L) as Hb by (rewrite E; set_solver).
  apply list_elem_of_filter in Hb as [? ?]. done.
Qed.

Lemma mul_between k i B : 0 < B → k * B ≤ i * B → i * B < k * B + B → k = i.
Proof. intros. nia. Qed.

(** A larger block is a multiple of a smaller one. *)
Lemma bytes_of_le o o' : (o ≤ o')%nat → (bytes_of o | bytes_of o').
Proof.
  intros Hle. exists (2 ^ (Z.of_nat o' - Z.of_nat o)).
  rewrite !bytes_of_eq, <- Z.pow_add_r by lia. f_equal. lia.
Qed.

(** An aligned block that meets a larger one lies inside it. *)
Lemma aligned_inside base B S x y :
  0 < S → (S | B) → (B | x - base) → (S | y - base) → 0 < B →
  x < y + S → y < x + B → x ≤ y ∧ y + S ≤ x + B.
Proof.
  intros HS [k ->] [i Hi] [j Hj] HB H1 H2. assert (0 < k) by nia.
  assert (i * k < j + 1) by nia. assert (j < i * k + k) by nia. nia.
Qed.

(** While nothing is allocated, a block of a lower order would have a free buddy. *)
Lemma all_free_coalesced g o :
  ginv g [] → coal_except g None → (bytes_of (PAGE_NSIZES - 1) | pg_endaddr g - pg_baseaddr g) →
  (o < PAGE_NSIZES - 1)%nat → pg_freelist g o = [].
Proof.
  intros HG Hc Hsz. induction o as [o IH] using lt_wf_ind. intros Ho.
  destruct (pg_freelist g o) as [|a l] eqn:Hl; [done|exfalso].
  assert (Ha : a ∈ pg_freelist g o) by (rewrite Hl; set_solver). clear l Hl.
  assert (Ho8 : (o < PAGE_NSIZES)%nat) by lia.
  pose proof (ginv_free_blk _ _ _ _ HG Ho8 Ha) as Hb.
  destruct (blk_index _ _ _ Hb) as [Ej Hj]. set (j := (a - pg_baseaddr g) / bytes_of o) in *.
  pose proof (bytes_of_pos o) as Hpos.
  (* the buddy *)
  set (j' := if decide (j `mod` 2 = 0) then j + 1 else j - 1).
  set (b := pg_baseaddr g + j' * bytes_of o).
  assert (Hj' : 0 ≤ j' ∧ j' / 2 = j / 2 ∧ j' ≠ j).
  { unfold j'. pose proof (Z.mod_pos_bound j 2). case_decide; Z.to_euclidean_division_equations; lia. }
  assert (Hrange : b + bytes_of o ≤ pg_endaddr g).
  { destruct (bytes_of_le (S o) (PAGE_NSIZES - 1)) as [k Hk]; [lia|]. destruct Hsz as [n Hn].
    rewrite Hk, bytes_of_S in Hn. destruct Hb as (_ & _ & He & _). simpl in He. rewrite Ej in He. unfold b.
    assert (j + 1 ≤ 2 * (n * k)) by nia. assert (j' + 1 ≤ 2 * (n * k)) by (Z.to_euclidean_division_equations; lia). nia. }
  destruct (cov_exists (frees g ++ []) b) as ([o' x] & Hin & Hcv).
  { rewrite (gi_cov _ _ HG); [lia|]. unfold b in *. nia. }
  rewrite app_nil_r in Hin. pose proof Hin as Hin'. apply elem_of_frees in Hin' as [Ho' Hx].
  destruct (decide (o' < o)%nat) as [Hlt|Hge].
  { rewrite IH in Hx by lia. set_solver. }
  destruct (ginv_free_blk _ _ _ _ HG Ho' Hx) as (_ & _ & _ & Hdx). simpl in Hdx.
  destruct Hcv as [C1 C2]. simpl in C1, C2. pose proof (bytes_of_pos o').
  destruct (decide (o' = o)) as [->|Hne].
  - (* both buddies are free *)
    assert (x = b) as ->.
    { destruct Hdx as [k Hk]. unfold b in *. assert (k = j') by nia. subst k. lia. }
    assert (None = Some (o, j / 2)); [|done].
    apply Hc; [done|apply Z.div_pos; lia|..]; apply bool_decide_eq_true; unfold b in *;
      assert (2 * (j / 2) = j ∨ 2 * (j / 2) = j') as Hcase by (unfold j'; case_decide; Z.to_euclidean_division_equations; lia);
      assert (2 * (j / 2) + 1 = j ∨ 2 * (j / 2) + 1 = j') as Hcase' by (unfold j'; case_decide; Z.to_euclidean_division_equations; lia).
    + destruct Hcase as [-> | ->]; [by rewrite <- Ej|done].
    + destruct Hcase' as [-> | ->]; [by rewrite <- Ej|done].
  - (* a larger block that contains the buddy contains the pair *)
    assert (bytes_of (S o) | bytes_of o') as HB by (apply bytes_of_le; lia).
    set (lo := pg_baseaddr g + (j / 2) * bytes_of (S o)). pose proof (bytes_of_S o) as HS.
    destruct (aligned_inside (pg_baseaddr g) (bytes_of o') (bytes_of (S o)) x lo) as [L1 L2];
      [lia|done|done|exists (j / 2); unfold lo; lia|lia| | |].
    { unfold lo, b in *. rewrite HS. assert (2 * (j / 2) + 2 > j') by (Z.to_euclidean_division_equations; lia). nia. }
    { unfold lo, b in *. rewrite HS. assert (2 * (j / 2) ≤ j') by (Z.to_euclidean_division_equations; lia). nia. }
    assert ((o', x) = (o, a)) as [= -> ->]; [|done].
    eapply (ginv_free_overlap g [] _ _ a); [done|done|by apply elem_of_frees|..]; unfold covers; simpl; [|lia].
    unfold lo in *. rewrite HS in *.
    assert (2 * (j / 2) ≤ j ∧ j + 1 ≤ 2 * (j / 2) + 2) as [] by (Z.to_euclidean_division_equations; lia). nia.
Qed.

(** Coalescing is complete: whatever was allocated and freed before, once
    nothing is allocated all memory is back in blocks of the largest order, at
    every multiple of their size, and the free count is the number of pages. *)
Lemma all_free_is_largest_blocks s g i :
  pinv s [] → g ∈ ps_groups s →
  (∀ o, (o < PAGE_NSIZES - 1)%nat → pg_freelist g o = []) ∧
  (0 ≤ i → pg_baseaddr g + (i + 1) * bytes_of (PAGE_NSIZES - 1) ≤ pg_endaddr g →
     pg_baseaddr g + i * bytes_of (PAGE_NSIZES - 1) ∈ pg_freelist g (PAGE_NSIZES - 1)) ∧
  npages (frees g) = (pg_endaddr g - pg_baseaddr g) / 4096.
Proof.
  intros Hp Hg. destruct (pi_group _ _ Hp g Hg) as (HG & Hc & Hsz). simpl in HG.
  assert (Hlow : ∀ o, (o < PAGE_NSIZES - 1)%nat → pg_freelist g o = [])
    by (intros o Ho; by apply all_free_coalesced).
  split_and!; [done| |].
  - intros Hi Hr. pose proof (bytes_of_pos (PAGE_NSIZES - 1)) as Hpos.
    set (B := bytes_of (PAGE_NSIZES - 1)) in *.
    destruct (cov_exists (frees g ++ []) (pg_baseaddr g + i * B)) as ([o x] & Hin & [C1 C2]).
    { rewrite (gi_cov _ _ HG); [lia|]. nia. }
    rewrite app_nil_r in Hin. apply elem_of_frees in Hin as [Ho Hx]. cbn [fst snd] in C1, C2.
    assert (o = (PAGE_NSIZES - 1)%nat) as ->.
    { destruct (decide (o < PAGE_NSIZES - 1)%nat) as [Hlt|]; [|lia]. rewrite Hlow in Hx by done. set_solver. }
    fold B in C2. destruct (ginv_free_blk _ _ _ _ HG Ho Hx) as (_ & _ & _ & [k Hk]). cbn [fst snd] in Hk. fold B in Hk.
    assert (k = i) as -> by (apply (mul_between k i B); lia). by replace (pg_baseaddr g + i * B) with x by lia.
  - destruct (ginv_npages _ _ HG) as [E _]. simpl in E. lia.
Qed.

(** * Adding memory *)

Abbreviation top := (PAGE_NSIZES - 1)%nat.

Lemma land_pow2_multiple n o : (pages_of top | n) → (o < top)%nat → Z.land n (pages_of o) = 0.
Proof.
  intros [k ->] Ho. rewrite !pages_of_eq. apply Z.bits_inj'. intros i Hi.
  rewrite Z.land_spec, Z.bits_0, Z.pow2_bits_eqb by lia.
  destruct (Z.eqb_spec (Z.of_nat o) i) as [<-|]; [|by rewrite andb_false_r].
  rewrite Z.mul_pow2_bits_low; [done|lia].
Qed.

(** Without a remainder nothing goes to the smaller lists. *)
Lemma add_tail_none n fl end_ os :
  (pages_of top | n) → (∀ o, o ∈ os → (o < top)%nat) → (∀ o l, fl !! o = Some l → l = []) →
  ∃ fl', foldl (add_tail n) (fl, end_) os = (fl', end_) ∧ ∀ o l, fl' !! o = Some l → l = [].
Proof.
  intros Hn. revert fl. induction os as [|o os IH]; intros fl Hos Hfl; simpl; [by eauto|].
  rewrite land_pow2_multiple by (done || (apply Hos; set_solver)). simpl. apply IH; [set_solver|].
  intros o' l. rewrite lookup_insert. case_decide; [by intros [= <-]|eauto].
Qed.

Section AddBlocks.
Context (base end_ : Z).
Let B := bytes_of top.

(** The blocks of the loop cover the range once. *)
Lemma add_blocks_spec fuel cur l :
  (B | end_ - cur) → cur ≤ end_ → (end_ - cur ≤ Z.of_nat fuel * B) →
  (∀ p, cov (pair top <$> add_blocks fuel cur end_ l) p =
        ((if decide (cur ≤ p < end_)%Z then 1 else 0) + cov (pair top <$> l) p)%nat) ∧
  npages (pair top <$> add_blocks fuel cur end_ l) * 4096 = end_ - cur + npages (pair top <$> l) * 4096 ∧
  (∀ a, a ∈ add_blocks fuel cur end_ l → a ∈ l ∨ (cur ≤ a ∧ a + B ≤ end_ ∧ (B | a - cur))).
Proof.
  assert (HB : 0 < B) by apply bytes_of_pos.
  revert cur l. induction fuel as [|fuel IH]; intros cur l Hd Hle Hf; cbn [add_blocks].
  - assert (cur = end_) as -> by lia. split_and!; [|lia|by left].
    intros p. by rewrite decide_False by lia.
  - destruct (Z.ltb_spec cur end_) as [Hlt|Hge].
    2:{ assert (cur = end_) as -> by lia. split_and!; [|lia|by left].
        intros p. by rewrite decide_False by lia. }
    fold B. assert (Hnext : cur + B ≤ end_).
    { destruct Hd as [k Hk]. assert (0 < k) by nia. nia. }
    assert (Hd' : (B | end_ - (cur + B))).
    { replace (end_ - (cur + B)) with (end_ - cur - B) by lia. by apply Z.divide_sub_r. }
    destruct (IH (cur + B) (cur :: l) Hd' Hnext ltac:(lia)) as (Hcov & Hsum & Hin). split_and!.
    + intros p. rewrite Hcov, fmap_cons, cov_cons.
      assert (covers (top, cur) p ↔ cur ≤ p < cur + B) as Hc by done.
      repeat case_decide; try lia; rewrite Hc in *; lia.
    + rewrite Hsum, fmap_cons. cbn [npages foldr fst]. fold (npages (pair top <$> l)).
      assert (B = pages_of top * 4096) by reflexivity. lia.
    + intros a [Ha|(? & ? & Hda)]%Hin.
      * apply elem_of_cons in Ha as [->|?]; [right|by left]. split_and!; [lia|lia|].
        rewrite Z.sub_diag. apply Z.divide_0_r.
      * right. split_and!; [lia|lia|]. replace (a - cur) with (a - (cur + B) + B) by lia.
        by apply Z.divide_add_r.
Qed.
End AddBlocks.

(** A new group is well formed and all free. *)
Lemma new_group_ginv fl l maps start end_ :
  0 < start → (4096 | start) → start ≤ end_ → (bytes_of top | end_ - start) →
  (∀ o l, fl !! o = Some l → l = []) → (∀ o (m : Z), maps !! o = Some m → m = 0) →
  (∀ p, cov (pair top <$> l) p = if decide (start ≤ p < end_) then 1%nat else 0%nat) →
  npages (pair top <$> l) * 4096 = end_ - start →
  (∀ a, a ∈ l → start ≤ a ∧ a + bytes_of top ≤ end_ ∧ (bytes_of top | a - start)) →
  let g := PageGroup (<[top := l]> fl) maps start end_ in
  ginv g [] ∧ coal_except g None ∧ npages (frees g) * 4096 = end_ - start.
Proof.
  intros Hpos Hs Hle Hd Hfl Hmaps Hcov Hsum Hin g.
  assert (Hlow : ∀ o, o ≠ top → pg_freelist g o = []).
  { intros o Ho. unfold pg_freelist. simpl. rewrite lookup_insert_ne by done.
    destruct (fl !! o) eqn:E; simpl; eauto. }
  assert (Htop : pg_freelist g top = l) by (unfold pg_freelist; simpl; by rewrite lookup_insert_eq).
  assert (Hfrees : frees g = pair top <$> l).
  { unfold frees, PAGE_NSIZES. cbn [seq mbind list_bind]. fold top.
    rewrite !Hlow by (unfold PAGE_NSIZES; lia). change 7%nat with top. by rewrite Htop, app_nil_r. }
  assert (Hnf : ∀ o j, (o < top)%nat → isfree g o j = false).
  { intros o j Ho. unfold isfree. rewrite Hlow by lia. by apply bool_decide_eq_false_2, not_elem_of_nil. }
  split_and!.
  - split; simpl; rewrite ?Hfrees, ?app_nil_r; try done.
    + apply Forall_forall. intros [o a] Ha. apply list_elem_of_fmap in Ha as (a' & [= -> ->] & Ha).
      destruct (Hin _ Ha) as (? & ? & ?). split_and!; try done. unfold PAGE_NSIZES. simpl. lia.
    + intros p Hp. by rewrite Hcov, decide_True.
    + intros o i Ho Hi. rewrite !Hnf by done. unfold pg_map. simpl.
      destruct (maps !! S o) as [m|] eqn:E; simpl; [rewrite (Hmaps _ _ E)|]; by rewrite Z.bits_0.
  - intros o i Ho Hi F1. by rewrite Hnf in F1.
  - by rewrite Hfrees.
Qed.

Lemma align_down_spec x : 0 ≤ x < 2 ^ 32 → PAGE_ALIGN_DOWN x = x / 4096 * 4096.
Proof.
  intros Hx. unfold PAGE_ALIGN_DOWN. rewrite (u32_small x) by done.
  change (u32 (Z.shiftl 0xffffffff PAGE_SHIFT)) with (Z.ldiff (Z.ones 32) (Z.ones 12)).
  assert (Z.land x (Z.ldiff (Z.ones 32) (Z.ones 12)) = Z.ldiff x (Z.ones 12)) as ->.
  { apply Z.bits_inj'. intros i Hi. rewrite Z.land_spec, !Z.ldiff_spec.
    destruct (decide (i < 32)) as [Hlt|Hge].
    - by rewrite (Z.ones_spec_low 32) by lia.
    - assert (Z.testbit x i = false) as ->; [|done].
      rewrite <- (Z.mod_small x (2 ^ 32)) by done. apply Z.mod_pow2_bits_high. lia. }
  rewrite Z.ldiff_ones_r, Z.shiftr_div_pow2, Z.shiftl_mul_pow2 by lia. done.
Qed.

Lemma align_down_aligned x : 0 ≤ x < 2 ^ 32 → (4096 | x) → PAGE_ALIGN_DOWN x = x.
Proof. intros Hx [k ->]. rewrite align_down_spec, Z.div_mul; lia. Qed.

Lemma align_down_range x : 0 ≤ PAGE_ALIGN_DOWN x < 2 ^ 32 ∧ (4096 | PAGE_ALIGN_DOWN x).
Proof.
  assert (PAGE_ALIGN_DOWN x = PAGE_ALIGN_DOWN (u32 x)) as ->.
  { unfold PAGE_ALIGN_DOWN. by rewrite (u32_small (u32 x)) by apply u32_range. }
  pose proof (u32_range x). rewrite align_down_spec by done.
  split; [|by apply Z.divide_factor_r]. Z.to_euclidean_division_equations; lia.
Qed.

Lemma group_end_range start end_ : 0 ≤ group_end start end_ < 2 ^ 32 ∧ (4096 | group_end start end_).
Proof. apply align_down_range. Qed.

Lemma pagegroup_create_run {X} (s : pstate * X) start end_ :
  (4096 | start) → 0 < start < group_end start end_ → (bytes_of top | group_end start end_ - start) →
  ∃ g, _pagegroup_create start end_ s = RRet g s ∧ pg_baseaddr g = start ∧
    pg_endaddr g = group_end start end_ ∧ ginv g [] ∧ coal_except g None ∧
    npages (frees g) * 4096 = group_end start end_ - start.
Proof.
  intros Hs Hlt Hd. unfold _pagegroup_create. cbv zeta.
  destruct (group_end_range start end_) as [He _].
  set (e := group_end start end_) in *.
  assert (Hn : Z.shiftr (u32 (e - start)) PAGE_SHIFT = (e - start) / 4096).
  { rewrite u32_small by lia. by rewrite Z.shiftr_div_pow2 by done. }
  rewrite Hn. assert (HB : bytes_of top = pages_of top * 4096) by reflexivity.
  assert (Hp : (pages_of top | (e - start) / 4096)).
  { destruct Hd as [k Hk]. exists k. rewrite Hk, HB, Z.mul_assoc, Z.div_mul; lia. }
  destruct (add_tail_none ((e - start) / 4096) ∅ e (seq 0 top) Hp) as (fl & Hfold & Hfl);
    [intros o Ho%elem_of_seq; lia|done|]. rewrite Hfold.
  assert (u32 (e - start) `mod` pages_of top =? 0 = true) as ->.
  { apply Z.eqb_eq. rewrite u32_small by lia. apply Z.mod_divide; [done|]. etrans; [|exact Hd].
    rewrite HB. apply Z.divide_factor_l. }
  unfold KASSERT, kbind, kret. cbn [rbind].
  destruct (add_blocks_spec e (Z.to_nat ((e - start) / 4096)) start []) as (Hcov & Hsum & Hin); [done|lia| |].
  { rewrite Z2Nat.id by (apply Z.div_pos; lia). destruct Hd as [k Hk]. rewrite Hk, HB, Z.mul_assoc, Z.div_mul by lia.
    assert (1 ≤ pages_of top) by done. assert (0 < k) by nia. nia. }
  eexists. split; [done|]. split; [done|]. split; [done|].
  apply new_group_ginv; try done; try lia.
  - intros o m Hm. apply elem_of_list_to_map_2 in Hm.
    by apply list_elem_of_fmap in Hm as (? & [= -> ->] & _).
  - intros p. rewrite Hcov. simpl. by case_decide.
  - rewrite Hsum. simpl. lia.
  - intros a [?%elem_of_nil|?]%Hin; done.
Qed.

Lemma pinv_add_group s A g :
  pinv s A → ginv g [] → coal_except g None →
  (bytes_of top | pg_endaddr g - pg_baseaddr g) →
  (∀ h, h ∈ ps_groups s → pg_endaddr h ≤ pg_baseaddr g ∨ pg_endaddr g ≤ pg_baseaddr h) →
  managed_pages (ps_groups s) + npages (frees g) < 2 ^ 32 →
  pinv (PState (ps_groups s ++ [g]) (ps_freecount s + npages (frees g))) A.
Proof.
  intros [H1 H2 H3 H4 H5] HG Hc Hd Hdis Htot.
  assert (HA : filter (in_group g) A = []).
  { apply elem_of_nil_inv. intros b Hb. apply list_elem_of_filter in Hb as [Hin Hb].
    destruct (H3 b Hb) as (h & Hh & Hin'). specialize (Hdis h Hh). unfold in_group in *. lia. }
  assert (Hsum : ∀ gs, free_pages (gs ++ [g]) = free_pages gs + npages (frees g)).
  { induction gs as [|h gs IH]; simpl; [lia|]. rewrite IH. lia. }
  assert (Hman : ∀ gs, managed_pages (gs ++ [g]) = managed_pages gs + npages (frees g)).
  { destruct (ginv_npages _ _ HG) as [E _]. simpl in E.
    induction gs as [|h gs IH]; simpl; [lia|]. rewrite IH. lia. }
  split; simpl.
  - intros h [Hh|Hh]%elem_of_app; [by apply H1|]. apply list_elem_of_singleton in Hh as ->.
    by rewrite HA.
  - intros i j h1 h2. rewrite !lookup_app_Some. intros [Hi|[Hi' Hi]] [Hj|[Hj' Hj]] Hne.
    + eauto.
    + apply list_lookup_singleton_Some in Hj as [? <-]. apply Hdis. by eapply list_elem_of_lookup_2.
    + apply list_lookup_singleton_Some in Hi as [? <-]. apply or_comm, Hdis. by eapply list_elem_of_lookup_2.
    + apply list_lookup_singleton_Some in Hi as [? <-]. apply list_lookup_singleton_Some in Hj as [? <-]. lia.
  - intros b (h & Hh & ?)%H3. exists h. set_solver.
  - rewrite Hsum. lia.
  - rewrite Hman. lia.
Qed.

Lemma page_add_range_run {X} (s : pstate * X) A start end_ :
  pinv s.1 A → (4096 | start) → (4096 | end_) → 0 < start < group_end start end_ → 0 ≤ end_ < 2 ^ 32 →
  (bytes_of top | group_end start end_ - start) →
  (∀ h, h ∈ ps_groups s.1 → pg_endaddr h ≤ start ∨ group_end start end_ ≤ pg_baseaddr h) →
  managed_pages (ps_groups s.1) + (group_end start end_ - start) / 4096 < 2 ^ 32 →
  ∃ s' g, page_add_range start end_ s = RRet tt s' ∧ s'.2 = s.2 ∧ pinv s'.1 A ∧
    ps_groups s'.1 = ps_groups s.1 ++ [g] ∧ pg_baseaddr g = start ∧ pg_endaddr g = group_end start end_ ∧
    ps_freecount s'.1 = ps_freecount s.1 + (group_end start end_ - start) / 4096.
Proof.
  intros Hp Hs He Hlt He' Hd Hdis Htot. destruct (group_end_range start end_) as [Hr Hal].
  destruct (pagegroup_create_run s start end_ Hs Hlt Hd) as (g & Hc & Eb & Ee & HG & Hcoal & Hn).
  unfold page_add_range. rewrite !align_down_aligned by (done || lia).
  erewrite kbind_of_ret by done. rewrite Eb, Ee. destruct (Z.ltb_spec start (group_end start end_)); [|lia].
  set (e := group_end start end_) in *.
  assert (Hnp : npages (frees g) = (e - start) / 4096) by (rewrite <- Hn, Z.div_mul; lia).
  assert (Hpn : ADDR_TO_PN (e - start) = npages (frees g)).
  { unfold ADDR_TO_PN. rewrite u32_small by lia. by rewrite Z.shiftr_div_pow2, Hnp by done. }
  assert (Hp' : pinv (PState (ps_groups s.1 ++ [g]) (ps_freecount s.1 + npages (frees g))) A).
  { apply pinv_add_group; rewrite ?Eb, ?Ee, ?Hnp; try done. }
  assert (Hfc : u32 (ps_freecount s.1 + npages (frees g)) = ps_freecount s.1 + npages (frees g)).
  { apply u32_small. rewrite (pi_count _ _ Hp).
    pose proof (npages_nonneg (frees g)).
    destruct (free_pages_bounds (ps_groups s.1)); [|lia]. intros h Hh. destruct (pi_group _ _ Hp h Hh). eauto. }
  eexists _, g. split; [done|]. split; [done|]. rewrite Hpn. simpl. rewrite Hfc, <- Hnp. done.
Qed.

(** page_add_range turns a page-aligned range whose usable part, in front of
    the group's own data, is a positive multiple of 128 pages, into a well-formed
    group of free pages next to the existing ones, and counts exactly its pages
    as free. *)
Theorem page_add_range_correct {X} (s : pstate * X) A start end_ :
  pinv s.1 A → (4096 | start) → (4096 | end_) → 0 < start < group_end start end_ → 0 ≤ end_ < 2 ^ 32 →
  (bytes_of top | group_end start end_ - start) →
  (∀ h, h ∈ ps_groups s.1 → pg_endaddr h ≤ start ∨ group_end start end_ ≤ pg_baseaddr h) →
  managed_pages (ps_groups s.1) + (group_end start end_ - start) / 4096 < 2 ^ 32 →
  ∃ s' g, page_add_range start end_ s = RRet tt s' ∧ s'.2 = s.2 ∧ pinv s'.1 A ∧
    ps_groups s'.1 = ps_groups s.1 ++ [g] ∧ pg_baseaddr g = start ∧ pg_endaddr g = group_end start end_ ∧
    ps_freecount s'.1 = ps_freecount s.1 + (group_end start end_ - start) / 4096.
Proof. apply page_add_range_run. Qed.

(** * Examples *)

Module Example.

(** 129 pages at 1 MB: the last one holds the group and its bitmaps. *)
Definition start : Z := 0x100000.
Definition end_ : Z := 0x181000.
Definition empty : pstate * unit := (PState [] 0, tt).
Definition reclaim (target : Z) : kM (pstate * unit) Z := kret 0.

Lemma usable : group_end start end_ = start + 128 * 4096.
Proof. vm_compute. reflexivity. Qed.

Lemma empty_pinv : pinv empty.1 [].
Proof. split; simpl; try set_solver; try lia. Qed.

Definition boot_group : option pagegroup :=
  match _pagegroup_create start end_ empty with RRet g _ => Some g | _ => None end.

Lemma boot_ready :
  ∃ g, boot_group = Some g ∧ pinv (PState [g] 128) [] ∧ pg_baseaddr g = start ∧ pg_endaddr g = start + 128 * 4096 ∧
    pg_freelist g top = [start].
Proof.
  destruct (pagegroup_create_run empty start end_) as (g & Hc & Eb & Ee & HG & Hcoal & Hn).
  { by exists 256. } { rewrite usable. unfold start. lia. } { rewrite usable. by exists 1. }
  rewrite usable in *. exists g. split_and!; [unfold boot_group; by rewrite Hc| |done|done|].
  - assert (npages (frees g) = 128) as E by lia. rewrite <- E. apply (pinv_add_group empty.1);
      [apply empty_pinv|done|done|rewrite Eb, Ee; by exists 1|simpl; set_solver|].
    rewrite E. simpl. lia.
  - vm_compute in Hc. injection Hc as <-. reflexivity.
Qed.

Lemma page_alloc_n_correct_witness :
  ∃ s a s', page_alloc_n reclaim 3 s = RRet (Some a) s' ∧ pinv s'.1 [(2%nat, a)].
Proof.
  destruct boot_ready as (g & _ & Hp & _ & _ & Hl).
  destruct (page_alloc_n_correct reclaim (PState [g] 128, tt) [] 3 Hp) as (o & Ho & H1 & H2 & Hor); [lia|].
  destruct Hor as [(a & s' & Hr & _ & Hp' & _)|[Hno _]].
  - assert (o = 2%nat) as ->.
    { rewrite pages_of_eq in H1, H2. destruct o as [|[|[|o]]]; try reflexivity; exfalso.
      - by apply H1.
      - by apply H1.
      - destruct H2 as [?|H2]; [done|].
        assert (2 ^ 3 ≤ 2 ^ Z.of_nat (S (S (S o)))) by (apply Z.pow_le_mono_r; lia). lia. }
    by exists (PState [g] 128, tt), a, s'.
  - exfalso. assert (pg_freelist g top = []) as E; [|congruence]. apply Hno; [set_solver|unfold PAGE_NSIZES in *; lia].
Defined.

Lemma page_free_n_correct_witness :
  ∃ s a s', page_free_n a 3 s = RRet tt s' ∧ pinv s'.1 [] ∧
    ps_freecount s'.1 = ps_freecount (s : pstate * unit).1 + 4.
Proof.
  destruct boot_ready as (g & _ & Hp & _ & _ & Hl).
  destruct (page_alloc_order_run reclaim (PState [g] 128, tt) [] 2 Hp) as [(a & s & _ & _ & _ & _ & Hp')|[Hno _]].
  { unfold PAGE_NSIZES. lia. }
  - destruct (page_free_n_correct s [] 3 2 a Hp') as (s' & Hr & _ & Hp'' & Hc); [reflexivity|].
    exists s, a, s'. split; [exact Hr|]. split; [exact Hp''|exact Hc].
  - exfalso. assert (pg_freelist g top = []) as E; [|congruence].
    apply Hno; [set_solver|unfold PAGE_NSIZES in *; lia].
Defined.

Lemma all_free_is_largest_blocks_witness :
  ∃ g, pinv (PState [g] 128) [] ∧ pg_freelist g 0 = [] ∧ npages (frees g) = 128.
Proof.
  destruct boot_ready as (g & _ & Hp & Eb & Ee & _). exists g. split; [exact Hp|].
  destruct (all_free_is_largest_blocks (PState [g] 128) g 0 Hp) as (Hlow & _ & Hn); [simpl; set_solver|].
  split; [apply Hlow; unfold PAGE_NSIZES; lia|]. rewrite Hn, Eb, Ee. reflexivity.
Defined.

Lemma page_add_range_correct_witness :
  ∃ s', page_add_range start end_ empty = RRet tt s' ∧ pinv s'.1 [] ∧ ps_freecount s'.1 = 128.
Proof.
  destruct (page_add_range_correct empty [] start end_) as (s' & g & Hr & _ & Hp & _ & _ & _ & Hc).
  - apply empty_pinv.
  - by exists 256.
  - by exists 385.
  - rewrite usable. unfold start. lia.
  - unfold end_. lia.
  - rewrite usable. by exists 1.
  - simpl. set_solver.
  - rewrite usable. vm_compute. reflexivity.
  - exists s'. split; [exact Hr|]. split; [exact Hp|]. rewrite Hc, usable. reflexivity.
Defined.

(** A group whose number of pages is not a multiple of the largest block loses
    the match between bits and free lists: its bitmaps start as zero although the
    page at the end has no buddy.  Allocating that page and freeing it joins it
    with the page behind the group, which is not on a free list, and the list
    operation works on whatever is stored there. *)
Theorem tail_page_joins_outside :
  ∃ s a s', page_add_range start (start + 4 * 4096) empty = RRet tt s ∧
    page_alloc reclaim s = RRet (Some a) s' ∧ a + 4096 = group_end start (start + 4 * 4096) ∧
    page_free a s' = RFault "list_remove of a page that is not free".
Proof.
  eexists _, _, _. split; [vm_compute; reflexivity|].
  split; [vm_compute; reflexivity|]. split; vm_compute; reflexivity.
Qed.
End Example.
