(* ===== verification/Slab.v ===== *)
(** The slab allocator and kmalloc: kernel/mm/slab.c.

    A slab is a block of pages that holds objects of one size.  Behind each
    object is a bufctl, which links the object on the free list of its slab while
    it is free and names its slab while it is allocated; behind the last object is
    the slab structure.  The structures are kept in maps from their addresses;
    what else is stored in the pages (the objects' contents, the poison that
    marks freed pages) is not part of the state.

    The configuration is the one of mm/slab.h: red zones in front of and behind
    every object, and a flag in every bufctl that tells whether it is free. *)

From stdpp Require Import base numbers list gmap strings.
From S2P Require Import Prelude PageAlloc.

Open Scope Z_scope.

Record slab := Slab {
  s_inuse : Z;  (* number of allocated objects *)
  s_free : Z;   (* head of the free list *)
  s_addr : Z    (* start address *)
}.

(** [sb_u] is the union of [sb_next] and [sb_slab]. *)
Record slab_bufctl := Bufctl { sb_u : Z; sb_free : bool }.

Record slab_allocator := Allocator {
  sa_name : string;
  sa_objsize : Z;
  sa_slabs : list Z;   (* the slabs, from the head of the list *)
  sa_order : Z;
  sa_slab_nobjs : Z
}.

(** The allocators by address, the order of [slab_allocators], the structures
    inside slabs, the words of the red zones, the words kmalloc writes in front of
    what it returns, and [kmalloc_allocators]. *)
Record sstate := SState {
  ss_allocators : gmap Z slab_allocator;
  ss_list : list Z;
  ss_slabs : gmap Z slab;
  ss_bufctls : gmap Z slab_bufctl;
  ss_redzones : gmap Z Z;
  ss_headers : gmap Z Z;
  ss_kmalloc : list Z
}.

Abbreviation sM := (kM (pstate * sstate)).

Definition NULL : Z := 0.
Definition SLAB_REDZONE : Z := 0xdeadbeef.
Definition sizeof_redzone : Z := 4.
Definition sizeof_slab : Z := 16.
Definition sizeof_bufctl : Z := 8.
Definition sizeof_allocator : Z := 24.
Definition SLAB_MAX_ORDER : Z := 5.

Definition upd_ss (f : sstate → sstate) : sM unit := kmodify (λ s, (s.1, f s.2)).

Definition set_allocators f (s : sstate) :=
  SState (f (ss_allocators s)) (ss_list s) (ss_slabs s) (ss_bufctls s) (ss_redzones s) (ss_headers s) (ss_kmalloc s).
Definition set_list f (s : sstate) :=
  SState (ss_allocators s) (f (ss_list s)) (ss_slabs s) (ss_bufctls s) (ss_redzones s) (ss_headers s) (ss_kmalloc s).
Definition set_slabs f (s : sstate) :=
  SState (ss_allocators s) (ss_list s) (f (ss_slabs s)) (ss_bufctls s) (ss_redzones s) (ss_headers s) (ss_kmalloc s).
Definition set_bufctls f (s : sstate) :=
  SState (ss_allocators s) (ss_list s) (ss_slabs s) (f (ss_bufctls s)) (ss_redzones s) (ss_headers s) (ss_kmalloc s).
Definition set_redzones f (s : sstate) :=
  SState (ss_allocators s) (ss_list s) (ss_slabs s) (ss_bufctls s) (f (ss_redzones s)) (ss_headers s) (ss_kmalloc s).
Definition set_headers f (s : sstate) :=
  SState (ss_allocators s) (ss_list s) (ss_slabs s) (ss_bufctls s) (ss_redzones s) (f (ss_headers s)) (ss_kmalloc s).
Definition set_kmalloc f (s : sstate) :=
  SState (ss_allocators s) (ss_list s) (ss_slabs s) (ss_bufctls s) (ss_redzones s) (ss_headers s) (f (ss_kmalloc s)).

Definition get_allocator (a : Z) : sM slab_allocator :=
  let* s := kget in kderef (ss_allocators s.2 !! a) "slab allocator".
Definition get_slab (sl : Z) : sM slab := let* s := kget in kderef (ss_slabs s.2 !! sl) "slab".
Definition get_bufctl (bc : Z) : sM slab_bufctl := let* s := kget in kderef (ss_bufctls s.2 !! bc) "bufctl".
Definition put_slab (sl : Z) (x : slab) : sM unit := upd_ss (set_slabs <[sl := x]>).
Definition put_bufctl (bc : Z) (b : slab_bufctl) : sM unit := upd_ss (set_bufctls <[bc := b]>).

(** * Sizes *)

Definition _slab_size (objsize nobjs : Z) : Z := u32 (nobjs * (objsize + sizeof_bufctl) + sizeof_slab).

Definition _slab_nobjs (objsize order : Z) : Z :=
  i32 (u32 (Z.shiftl PAGE_SIZE order - sizeof_slab) / u32 (objsize + sizeof_bufctl)).

Definition _slab_waste (objsize order : Z) : Z :=
  i32 (Z.shiftl PAGE_SIZE order - _slab_size objsize (_slab_nobjs objsize order)).

(** The search for the order with the least waste, over the orders of the list. *)
Definition best_slab (objsize : Z) (orders : list Z) (order waste : Z) : Z * Z :=
  foldl (λ '(bo, bw) o,
    let w := _slab_waste objsize o in if w <? bw then (o, w) else (bo, bw)) (order, waste) orders.

(** [sa_order] and [sa_slab_nobjs], or no order is large enough. *)
Definition _calc_slab_size (objsize : Z) : option (Z * Z) :=
  let minsize := i32 (_slab_size objsize 1) in
  match list_find (λ o, minsize ≤ i32 (Z.shiftl PAGE_SIZE o)) (seqZ 0 (Z.of_nat PAGE_NSIZES)) with
  | None => None
  | Some (_, minorder) =>
      let orders := seqZ (minorder + 1) (SLAB_MAX_ORDER - (minorder + 1)) in
      let '(best_order, _) := best_slab objsize orders minorder (_slab_waste objsize minorder) in
      Some (best_order, _slab_nobjs objsize best_order)
  end.

Definition _allocator_init (allocator : Z) (name : option string) (size : Z) : sM unit :=
  let size := u32 (size + 2 * sizeof_redzone) in
  let name := default "<unnamed>" name in
  match _calc_slab_size size with
  | None => kpanic "unable to find minorder"
  | Some (order, nobjs) =>
      upd_ss (set_allocators <[allocator := Allocator name size [] order nobjs]>) ;;;
      upd_ss (set_list (cons allocator))
  end.

(** * Objects *)

(** The distance between objects, and the objects of a slab. *)
Definition stride (a : slab_allocator) : Z := sa_objsize a + sizeof_bufctl.
Definition next_obj (a : slab_allocator) (obj : Z) : Z := obj + stride a.
Definition obj_at (a : slab_allocator) (addr k : Z) : Z := addr + k * stride a.
Definition objs (a : slab_allocator) (addr : Z) : list Z := obj_at a addr <$> seqZ 0 (sa_slab_nobjs a).

(** Where the bufctl and the rear red zone of an object are; the front red zone
    is at the object's address. *)
Definition obj_bufctl (a : slab_allocator) (obj : Z) : Z := obj + sa_objsize a.
Definition rear_rz (a : slab_allocator) (obj : Z) : Z := obj + sa_objsize a - sizeof_redzone.

Definition VERIFY_REDZONES (a : slab_allocator) (obj : Z) : sM unit :=
  let* s := kget in
  let* front := kderef (ss_redzones s.2 !! obj) "front red zone" in
  let* rear := kderef (ss_redzones s.2 !! rear_rz a obj) "rear red zone" in
  if negb (front =? SLAB_REDZONE) then kpanic "alloc: red-zone check failed"
  else if negb (rear =? SLAB_REDZONE) then kpanic "alloc: red-zone check failed"
  else kret tt.

(** * Giving pages back *)

(** The while loop over the slabs of one allocator; [Some] is the early return. *)
Fixpoint reclaim_slabs (a : Z) (target freed : Z) (slabs : list Z) : sM (Z * bool) :=
  match slabs with
  | [] => kret (freed, false)
  | sl :: slabs =>
      let* s := get_slab sl in
      let* alloc := get_allocator a in
      let* freed :=
        (if s_inuse s =? 0 then
           let npages := Z.shiftl 1 (sa_order alloc) in
           upd_ss (set_allocators <[a := Allocator (sa_name alloc) (sa_objsize alloc)
             (filter (.≠ sl) (sa_slabs alloc)) (sa_order alloc) (sa_slab_nobjs alloc)]>) ;;;
           page_free_n (s_addr s) npages ;;;
           kret (freed + npages)
         else kret freed) in
      if (0 <? target) && (target <=? freed) then kret (freed, true)
      else reclaim_slabs a target freed slabs
  end.

Fixpoint reclaim_allocators (target freed : Z) (allocs : list Z) : sM Z :=
  match allocs with
  | [] => kret freed
  | a :: allocs =>
      let* alloc := get_allocator a in
      let* (freed, stop) := reclaim_slabs a target freed (sa_slabs alloc) in
      if (stop : bool) then kret freed else reclaim_allocators target freed allocs
  end.

Definition slab_allocators_reclaim (target : Z) : sM Z :=
  let* s := kget in reclaim_allocators target 0 (ss_list s.2).

(** * Allocating *)

(** The bufctls of a new slab: each object links to the next, the last to NULL. *)
Definition init_bufctls (a : slab_allocator) (addr : Z) (m : gmap Z slab_bufctl) : gmap Z slab_bufctl :=
  foldl (λ m k, <[obj_bufctl a (obj_at a addr k) := Bufctl
           (if k <? sa_slab_nobjs a - 1 then obj_at a addr (k + 1) else NULL) true]> m)
        m (seqZ 0 (sa_slab_nobjs a)).
Definition init_redzones (a : slab_allocator) (addr : Z) (m : gmap Z Z) : gmap Z Z :=
  foldl (λ m k, <[rear_rz a (obj_at a addr k) := SLAB_REDZONE]>
                  (<[obj_at a addr k := SLAB_REDZONE]> m)) m (seqZ 0 (sa_slab_nobjs a)).

Definition _slab_allocator_grow (allocator : Z) : sM bool :=
  let* a := get_allocator allocator in
  let npages := Z.shiftl 1 (sa_order a) in
  let* addr := page_alloc_n slab_allocators_reclaim npages in
  let addr := default NULL addr in
  if addr =? NULL then kret false
  else
    let sl := next_obj a (obj_at a addr (sa_slab_nobjs a - 1)) in
    upd_ss (set_bufctls (init_bufctls a addr)) ;;;
    put_slab sl (Slab 0 addr addr) ;;;
    upd_ss (set_redzones (init_redzones a addr)) ;;;
    let* a := get_allocator allocator in
    upd_ss (set_allocators <[allocator := Allocator (sa_name a) (sa_objsize a) (sl :: sa_slabs a)
      (sa_order a) (sa_slab_nobjs a)]>) ;;;
    kret true.

(** [while (slab && (slab->s_inuse == allocator->sa_slab_nobjs)) slab = slab->s_next;] *)
Fixpoint find_slab (nobjs : Z) (slabs : list Z) : sM (option Z) :=
  match slabs with
  | [] => kret None
  | sl :: slabs =>
      let* s := get_slab sl in
      if s_inuse s =? nobjs then find_slab nobjs slabs else kret (Some sl)
  end.

(** The for loop: a slab with a free object, or no memory. *)
Fixpoint usable_slab (fuel : nat) (allocator : Z) : sM (option Z) :=
  match fuel with
  | O => λ _, RFuel
  | S fuel =>
      let* a := get_allocator allocator in
      let* found := find_slab (sa_slab_nobjs a) (sa_slabs a) in
      let* ok := (match found with
                  | Some sl => let* s := get_slab sl in kret (s_inuse s <? sa_slab_nobjs a)
                  | None => kret false
                  end) in
      if (ok : bool) then kret found
      else
        let* grown := _slab_allocator_grow allocator in
        if (grown : bool) then usable_slab fuel allocator else kret None
  end.

Definition slab_obj_alloc (allocator : Z) : sM Z :=
  let* found := usable_slab 2 allocator in
  match found with
  | None => kret NULL
  | Some sl =>
      let* a := get_allocator allocator in
      let* s := get_slab sl in
      let obj := s_free s in
      let* b := get_bufctl (obj_bufctl a obj) in
      put_slab sl (Slab (s_inuse s + 1) (sb_u b) (s_addr s)) ;;;
      put_bufctl (obj_bufctl a obj) (Bufctl sl false) ;;;
      VERIFY_REDZONES a obj ;;;
      kret (obj + sizeof_redzone)
  end.

Definition slab_obj_free (allocator obj : Z) : sM unit :=
  let obj := obj - sizeof_redzone in
  let* a := get_allocator allocator in
  VERIFY_REDZONES a obj ;;;
  let* b := get_bufctl (obj_bufctl a obj) in
  KASSERT (negb (sb_free b)) "INVALID FREE!" ;;;
  let sl := sb_u b in
  let* s := get_slab sl in
  put_bufctl (obj_bufctl a obj) (Bufctl (s_free s) true) ;;;
  put_slab sl (Slab (s_inuse s - 1) obj (s_addr s)).

Definition slab_allocator_create (name : option string) (size : Z) (slab_allocator_allocator : Z) : sM Z :=
  let* allocator := slab_obj_alloc slab_allocator_allocator in
  if allocator =? NULL then kret NULL
  else _allocator_init allocator name size ;;; kret allocator.

(** * kmalloc *)

Definition KMALLOC_SIZE_MIN_ORDER : Z := 6.
Definition KMALLOC_SIZE_MAX_ORDER : Z := 18.

Definition kmalloc_allocator_names : list string :=
  ["size-64"; "size-128"; "size-256"; "size-512"; "size-1024"; "size-2048"; "size-4096";
   "size-8192"; "size-16384"; "size-32768"; "size-65536"; "size-131072"; "size-262144"].

Definition kmalloc (size : Z) : sM Z :=
  let size := u32 (size + 4) in
  let orders := seqZ KMALLOC_SIZE_MIN_ORDER (KMALLOC_SIZE_MAX_ORDER - KMALLOC_SIZE_MIN_ORDER + 1) in
  match list_find (λ order, size ≤ Z.shiftl 1 order) orders with
  | None => kpanic "size bigger than maxorder"
  | Some (i, _) =>
      let* s := kget in
      let* cs := kderef (ss_kmalloc s.2 !! i) "kmalloc allocator" in
      let* addr := slab_obj_alloc cs in
      if addr =? NULL then kret NULL
      else upd_ss (set_headers <[addr := cs]>) ;;; kret (addr + 4)
  end.

Definition kfree (addr : Z) : sM unit :=
  let addr := addr - 4 in
  let* s := kget in
  let* sa := kderef (ss_headers s.2 !! addr) "kmalloc header" in
  slab_obj_free sa addr.

(** The loop of slab_init over the names and orders of the kmalloc allocators. *)
Fixpoint init_kmalloc (saa order : Z) (names : list string) : sM unit :=
  match names with
  | [] => kret tt
  | name :: names =>
      let* cs := slab_allocator_create (Some name) (Z.shiftl 1 order) saa in
      if cs =? NULL then kpanic "Couldn't create kmalloc allocators!"
      else upd_ss (set_kmalloc (λ l, l ++ [cs])) ;;; init_kmalloc saa (order + 1) names
  end.

(** [slab_allocator_allocator] is the address of the static allocator. *)
Definition slab_init (slab_allocator_allocator : Z) : sM unit :=
  _allocator_init slab_allocator_allocator (Some "slab_allocators") sizeof_allocator ;;;
  init_kmalloc slab_allocator_allocator KMALLOC_SIZE_MIN_ORDER kmalloc_allocator_names.

(** * Geometry *)

(** The objects, their bufctls and the slab structure fit into the block. *)
Record fits (a : slab_allocator) : Prop := {
  fit_order : 0 ≤ sa_order a < Z.of_nat PAGE_NSIZES;
  fit_nobjs : 1 ≤ sa_slab_nobjs a;
  fit_objsize : 2 * sizeof_redzone ≤ sa_objsize a;
  fit_size : sa_slab_nobjs a * stride a + sizeof_slab ≤ bytes_of (Z.to_nat (sa_order a))
}.

(** The largest object size a block of the largest order has room for. *)
Definition max_objsize : Z := 4096 * 128 - sizeof_slab - sizeof_bufctl.

Lemma page_shift_pow o : 0 ≤ o → Z.shiftl PAGE_SIZE o = 4096 * 2 ^ o.
Proof. intros. unfold PAGE_SIZE. by rewrite Z.shiftl_mul_pow2. Qed.

Lemma pow_lt_order o : 0 ≤ o < Z.of_nat PAGE_NSIZES → 1 ≤ 2 ^ o ≤ 128.
Proof.
  intros Ho. unfold PAGE_NSIZES in Ho. split.
  - pose proof (Z.pow_pos_nonneg 2 o). lia.
  - change 128 with (2 ^ 7). apply Z.pow_le_mono_r; lia.
Qed.

Lemma slab_nobjs_spec objsize o :
  0 < objsize ≤ max_objsize → 0 ≤ o < Z.of_nat PAGE_NSIZES → objsize + 24 ≤ 4096 * 2 ^ o →
  1 ≤ _slab_nobjs objsize o ∧ _slab_nobjs objsize o * (objsize + sizeof_bufctl) + sizeof_slab ≤ 4096 * 2 ^ o.
Proof.
  intros Hs Ho Hfit. unfold max_objsize, sizeof_slab, sizeof_bufctl in *. pose proof (pow_lt_order o Ho).
  unfold _slab_nobjs, sizeof_slab, sizeof_bufctl. rewrite page_shift_pow by lia. rewrite !u32_small by lia.
  set (q := (4096 * 2 ^ o - 16) / (objsize + 8)).
  assert (1 ≤ q ∧ q * (objsize + 8) ≤ 4096 * 2 ^ o - 16).
  { unfold q. Z.to_euclidean_division_equations. nia. }
  rewrite i32_small; [lia|]. nia.
Qed.

Lemma best_slab_in objsize orders o w : (best_slab objsize orders o w).1 ∈ o :: orders.
Proof.
  revert o w. unfold best_slab. induction orders as [|x orders IH]; intros o w; simpl; [set_solver|].
  destruct (_ <? w); [specialize (IH x (_slab_waste objsize x))|specialize (IH o w)]; set_solver.
Qed.

(** A size the largest block has room for gets a slab that fits. *)
Lemma calc_slab_size_fits name objsize :
  2 * sizeof_redzone ≤ objsize ≤ max_objsize →
  ∃ order nobjs, _calc_slab_size objsize = Some (order, nobjs) ∧ fits (Allocator name objsize [] order nobjs).
Proof.
  intros Hs. unfold sizeof_redzone in *. unfold _calc_slab_size.
  assert (Hmin : i32 (_slab_size objsize 1) = objsize + 24).
  { unfold _slab_size, max_objsize, sizeof_bufctl, sizeof_slab in *. rewrite u32_small, i32_small; lia. }
  destruct (list_find _ _) as [[i minorder]|] eqn:Hf.
  2:{ exfalso. eapply list_find_None in Hf. rewrite Forall_forall in Hf. apply (Hf 7).
      { apply elem_of_seqZ. unfold PAGE_NSIZES. lia. }
      rewrite Hmin. change (i32 (Z.shiftl PAGE_SIZE 7)) with (4096 * 128).
      unfold max_objsize, sizeof_bufctl, sizeof_slab in Hs. lia. }
  apply list_find_Some in Hf as (Hi & Hle & _).
  assert (Hmo : 0 ≤ minorder < Z.of_nat PAGE_NSIZES).
  { apply list_elem_of_lookup_2, elem_of_seqZ in Hi. lia. }
  rewrite Hmin, page_shift_pow in Hle by lia. pose proof (pow_lt_order _ Hmo). rewrite i32_small in Hle by lia.
  set (orders := seqZ _ _).
  pose proof (best_slab_in objsize orders minorder (_slab_waste objsize minorder)) as Hin.
  destruct (best_slab _ _ _ _) as [bo bw]. simpl in Hin. exists bo, (_slab_nobjs objsize bo).
  assert (Hbo : minorder ≤ bo < Z.of_nat PAGE_NSIZES).
  { apply elem_of_cons in Hin as [->|Hin]; [lia|]. unfold orders, SLAB_MAX_ORDER in Hin.
    apply elem_of_seqZ in Hin. unfold PAGE_NSIZES in *. lia. }
  assert (2 ^ minorder ≤ 2 ^ bo) by (apply Z.pow_le_mono_r; lia).
  destruct (slab_nobjs_spec objsize bo) as [H1 H2]; [lia|lia|lia|].
  split; [done|]. split; simpl; [lia|done|unfold sizeof_redzone; lia|].
  unfold stride. simpl. rewrite bytes_of_eq, Z2Nat.id, Z.pow_add_r by lia. lia.
Qed.

(** * The invariant *)

(** [fl] are the objects on the free list that starts at [p]. *)
Fixpoint chain (a : slab_allocator) (m : gmap Z slab_bufctl) (p : Z) (fl : list Z) : Prop :=
  match fl with
  | [] => p = NULL
  | o :: fl => p = o ∧ ∃ n, m !! obj_bufctl a o = Some (Bufctl n true) ∧ chain a m n fl
  end.

(** The bytes of the block of a slab. *)
Definition in_slab (a : slab_allocator) (s : slab) (x : Z) : Prop :=
  s_addr s ≤ x < s_addr s + bytes_of (Z.to_nat (sa_order a)).

Record slab_ok (a : slab_allocator) (bufctls : gmap Z slab_bufctl) (redzones : gmap Z Z)
    (sl : Z) (s : slab) (fl : list Z) : Prop := {
  so_place : sl = s_addr s + sa_slab_nobjs a * stride a;
  so_pos : 0 < s_addr s;
  so_chain : chain a bufctls (s_free s) fl;
  so_nodup : NoDup fl;
  so_sub o : o ∈ fl → o ∈ objs a (s_addr s);
  so_inuse : s_inuse s = sa_slab_nobjs a - Z.of_nat (length fl);
  so_used o : o ∈ objs a (s_addr s) → o ∉ fl → bufctls !! obj_bufctl a o = Some (Bufctl sl false);
  so_redzones o : o ∈ objs a (s_addr s) →
    redzones !! o = Some SLAB_REDZONE ∧ redzones !! rear_rz a o = Some SLAB_REDZONE
}.

Definition slabs_of (ss : sstate) (i : Z) : list Z := default [] (sa_slabs <$> ss_allocators ss !! i).

(** All slabs, with their allocator; the blocks they occupy. *)
Definition entries (ss : sstate) : list (Z * Z) := ss_list ss ≫= λ i, pair i <$> slabs_of ss i.
Definition block_of (ss : sstate) (e : Z * Z) : block :=
  (Z.to_nat (default 0 (sa_order <$> ss_allocators ss !! e.1)), default 0 (s_addr <$> ss_slabs ss !! e.2)).

(** An allocated object. *)
Definition live (ss : sstate) (i o : Z) : Prop :=
  ∃ a sl s, ss_allocators ss !! i = Some a ∧ sl ∈ sa_slabs a ∧ ss_slabs ss !! sl = Some s ∧
    o ∈ objs a (s_addr s) ∧ ss_bufctls ss !! obj_bufctl a o = Some (Bufctl sl false).

(** [B] are the blocks others have allocated, [L] the allocated objects. *)
Record sinv (s : pstate * sstate) (B : list block) (L : list (Z * Z)) : Prop := {
  si_nodup : NoDup (ss_list s.2);
  si_alloc i a : ss_allocators s.2 !! i = Some a → i ∈ ss_list s.2 ∧ fits a;
  si_list i : i ∈ ss_list s.2 → is_Some (ss_allocators s.2 !! i);
  si_slab i a sl : ss_allocators s.2 !! i = Some a → sl ∈ sa_slabs a →
    ∃ x fl, ss_slabs s.2 !! sl = Some x ∧ slab_ok a (ss_bufctls s.2) (ss_redzones s.2) sl x fl;
  si_pages : pinv s.1 ((block_of s.2 <$> entries s.2) ++ B);
  si_live i o : (i, o) ∈ L ↔ live s.2 i o;
  si_live_nodup : NoDup L
}.

Lemma elem_of_objs a addr o : o ∈ objs a addr ↔ ∃ k, 0 ≤ k < sa_slab_nobjs a ∧ o = obj_at a addr k.
Proof.
  unfold objs. rewrite list_elem_of_fmap. split.
  - intros (k & -> & Hk%elem_of_seqZ). exists k. split; [lia|done].
  - intros (k & Hk & ->). exists k. split; [done|]. apply elem_of_seqZ. lia.
Qed.

Lemma stride_pos a : fits a → 16 ≤ stride a.
Proof. intros [_ _ H _]. unfold stride, sizeof_bufctl, sizeof_redzone in *. lia. Qed.

(** Everything that belongs to an object lies in its stride, and the slab
    structure behind the objects, all in the block. *)
Lemma obj_in_slab a s o x :
  fits a → o ∈ objs a (s_addr s) → o ≤ x < o + stride a → in_slab a s x.
Proof.
  intros Hf (k & Hk & ->)%elem_of_objs Hx. pose proof (stride_pos a Hf). destruct Hf as [_ _ _ Hs].
  unfold in_slab, obj_at, sizeof_slab in *. nia.
Qed.

Lemma objs_apart a addr o1 o2 x :
  fits a → o1 ∈ objs a addr → o2 ∈ objs a addr → o1 ≤ x < o1 + stride a → o2 ≤ x < o2 + stride a → o1 = o2.
Proof.
  intros Hf (k1 & _ & ->)%elem_of_objs (k2 & _ & ->)%elem_of_objs. pose proof (stride_pos a Hf).
  unfold obj_at. intros. assert (k1 = k2) as -> by nia. done.
Qed.

Lemma bufctl_inj a addr o1 o2 :
  fits a → o1 ∈ objs a addr → o2 ∈ objs a addr → obj_bufctl a o1 = obj_bufctl a o2 → o1 = o2.
Proof. unfold obj_bufctl. intros. lia. Qed.

Lemma chain_frame a m m' p fl :
  (∀ o, o ∈ fl → m' !! obj_bufctl a o = m !! obj_bufctl a o) → chain a m p fl → chain a m' p fl.
Proof.
  revert p. induction fl as [|o fl IH]; simpl; intros p Hm Hc; [done|].
  destruct Hc as (-> & n & Hb & Hc). split; [done|]. exists n. split.
  - rewrite Hm by set_solver. done.
  - apply IH; [|done]. intros. apply Hm. set_solver.
Qed.

(** Objects on a free list are marked free. *)
Lemma chain_free a m p fl o :
  chain a m p fl → o ∈ fl → ∃ n, m !! obj_bufctl a o = Some (Bufctl n true).
Proof.
  revert p. induction fl as [|o' fl IH]; intros p; simpl; [set_solver|].
  intros (-> & n & Hn & Hc) [->|?]%elem_of_cons; eauto.
Qed.

(** A slab does not notice changes outside its block. *)
Lemma slab_ok_frame a bc bc' rz rz' sl s fl :
  fits a → (∀ x, in_slab a s x → bc' !! x = bc !! x ∧ rz' !! x = rz !! x) →
  slab_ok a bc rz sl s fl → slab_ok a bc' rz' sl s fl.
Proof.
  intros Hf Hm [H1 H2 H3 H4 H5 H6 H7 H8]. pose proof (stride_pos a Hf).
  assert (Hobj : ∀ o x, o ∈ objs a (s_addr s) → o ≤ x < o + stride a → bc' !! x = bc !! x ∧ rz' !! x = rz !! x).
  { intros o x Ho Hx. apply Hm. by eapply obj_in_slab. }
  assert (Hin : ∀ o, o ≤ obj_bufctl a o < o + stride a ∧ o ≤ rear_rz a o < o + stride a).
  { intros o. destruct Hf as [_ _ Hs _]. unfold obj_bufctl, rear_rz, stride, sizeof_bufctl, sizeof_redzone in *. lia. }
  split; try done.
  - eapply chain_frame; [|done]. intros o Ho. apply (Hobj o); [auto|apply Hin].
  - intros o Ho Hn. rewrite (proj1 (Hobj o _ Ho (proj1 (Hin o)))). auto.
  - intros o Ho. destruct (H8 o Ho) as [? ?].
    rewrite (proj2 (Hobj o o Ho ltac:(lia))), (proj2 (Hobj o _ Ho (proj2 (Hin o)))). done.
Qed.

(** ** Slabs do not overlap *)

Lemma elem_of_entries s B L i sl :
  sinv s B L → (i, sl) ∈ entries s.2 ↔ ∃ a, ss_allocators s.2 !! i = Some a ∧ sl ∈ sa_slabs a.
Proof.
  intros HS. unfold entries. rewrite list_elem_of_bind. split.
  - intros (i' & Hin & Hi'). apply list_elem_of_fmap in Hin as (sl' & [= <- <-] & Hin).
    destruct (si_list _ _ _ HS i Hi') as [a Ha]. exists a. split; [done|].
    unfold slabs_of in Hin. by rewrite Ha in Hin.
  - intros (a & Ha & Hin). exists i. split; [|by apply (si_alloc _ _ _ HS i a)].
    apply list_elem_of_fmap. exists sl. split; [done|]. unfold slabs_of. by rewrite Ha.
Qed.

Lemma slabs_disjoint s B L i1 a1 sl1 s1 i2 a2 sl2 s2 x :
  sinv s B L → ss_allocators s.2 !! i1 = Some a1 → sl1 ∈ sa_slabs a1 → ss_slabs s.2 !! sl1 = Some s1 →
  ss_allocators s.2 !! i2 = Some a2 → sl2 ∈ sa_slabs a2 → ss_slabs s.2 !! sl2 = Some s2 →
  in_slab a1 s1 x → in_slab a2 s2 x → (i1, sl1) = (i2, sl2).
Proof.
  intros HS Ha1 Hsl1 Hs1 Ha2 Hsl2 Hs2 Hx1 Hx2.
  destruct (decide ((i1, sl1) = (i2, sl2))) as [|Hne]; [done|exfalso].
  assert (He1 : (i1, sl1) ∈ entries s.2) by (apply (elem_of_entries _ _ _ _ _ HS); eauto).
  assert (He2 : (i2, sl2) ∈ entries s.2) by (apply (elem_of_entries _ _ _ _ _ HS); eauto).
  apply elem_of_Permutation in He1 as [E1 HP1]. rewrite HP1 in He2.
  apply elem_of_cons in He2 as [?|He2]; [congruence|].
  apply elem_of_Permutation in He2 as [E2 HP2].
  assert (HP : (block_of s.2 <$> entries s.2) ++ B ≡ₚ
    block_of s.2 (i1, sl1) :: block_of s.2 (i2, sl2) :: (block_of s.2 <$> E2) ++ B)
    by (by rewrite HP1, HP2).
  pose proof (live_disjoint _ _ _ _ _ (si_pages _ _ _ HS) HP) as Hd.
  unfold block_of in Hd. simpl in Hd. rewrite Ha1, Ha2, Hs1, Hs2 in Hd. simpl in Hd.
  unfold in_slab in *. lia.
Qed.

Lemma entries_NoDup s B L : sinv s B L → NoDup (entries s.2).
Proof.
  intros HS. apply NoDup_alt. intros i j [n sl] Hi Hj. destruct (decide (i = j)) as [|Hne]; [done|exfalso].
  assert (He : (n, sl) ∈ entries s.2) by (by eapply list_elem_of_lookup_2).
  apply (elem_of_entries _ _ _ _ _ HS) in He as (a & Ha & Hsl).
  destruct (si_slab _ _ _ HS _ _ _ Ha Hsl) as (x & fl & Hx & Hok).
  assert (He' : (n, sl) ∈ delete j (entries s.2)).
  { apply list_elem_of_lookup. destruct (decide (i < j)%nat).
    - exists i. by rewrite list_lookup_delete_lt.
    - exists (i - 1)%nat. rewrite list_lookup_delete_ge by lia. by replace (S (i - 1)) with i by lia. }
  apply elem_of_Permutation in He' as [E HE].
  assert (HP : (block_of s.2 <$> entries s.2) ++ B ≡ₚ
    block_of s.2 (n, sl) :: block_of s.2 (n, sl) :: (block_of s.2 <$> E) ++ B).
  { by rewrite (delete_Permutation _ _ _ Hj), HE. }
  pose proof (live_disjoint _ _ _ _ _ (si_pages _ _ _ HS) HP) as Hd.
  pose proof (bytes_of_pos (block_of s.2 (n, sl)).1). lia.
Qed.

(** ** One object of a slab changes hands *)

Section Update.
Context (s : pstate * sstate) (B : list block) (L : list (Z * Z)).
Context (i : Z) (a : slab_allocator) (sl : Z) (x : slab) (fl : list Z) (o : Z).
Hypothesis HS : sinv s B L.
Hypothesis Ha : ss_allocators s.2 !! i = Some a.
Hypothesis Hsl : sl ∈ sa_slabs a.
Hypothesis Hx : ss_slabs s.2 !! sl = Some x.
Hypothesis Hok : slab_ok a (ss_bufctls s.2) (ss_redzones s.2) sl x fl.
Hypothesis Ho : o ∈ objs a (s_addr x).

Let Hf : fits a := proj2 (si_alloc _ _ _ HS i a Ha).

(** A slab record belongs to one entry. *)
Lemma slab_entry_unique i' a' :
  ss_allocators s.2 !! i' = Some a' → sl ∈ sa_slabs a' → i' = i.
Proof.
  intros Ha' Hsl'.
  assert ((i', sl) = (i, sl)) as [= ->]; [|done].
  eapply (slabs_disjoint _ _ _ _ _ _ _ _ _ _ _ (s_addr x) HS); try done;
    unfold in_slab; match goal with |- context [bytes_of ?n] => pose proof (bytes_of_pos n) end; lia.
Qed.

(** The address of a bufctl determines the entry and the object. *)
Lemma bufctl_unique i' a' sl' x' o' :
  ss_allocators s.2 !! i' = Some a' → sl' ∈ sa_slabs a' → ss_slabs s.2 !! sl' = Some x' →
  o' ∈ objs a' (s_addr x') → obj_bufctl a' o' = obj_bufctl a o → i' = i ∧ sl' = sl ∧ o' = o.
Proof.
  intros Ha' Hsl' Hx' Ho' E. destruct (si_alloc _ _ _ HS i' a' Ha') as [_ Hf'].
  assert ((i', sl') = (i, sl)) as [= -> ->].
  { eapply (slabs_disjoint _ _ _ _ _ _ _ _ _ _ _ (obj_bufctl a o) HS); try done.
    - rewrite <- E. eapply obj_in_slab; [done..|]. pose proof (fit_objsize _ Hf').
      unfold obj_bufctl, stride, sizeof_bufctl, sizeof_redzone in *. lia.
    - eapply obj_in_slab; [done..|]. pose proof (fit_objsize _ Hf).
      unfold obj_bufctl, stride, sizeof_bufctl, sizeof_redzone in *. lia. }
  simplify_eq. split_and!; [done..|]. by eapply bufctl_inj.
Qed.

Definition upd_obj (x' : slab) (b : slab_bufctl) : sstate :=
  set_bufctls <[obj_bufctl a o := b]> (set_slabs <[sl := x']> s.2).

Lemma block_of_upd x' b e : s_addr x' = s_addr x → block_of (upd_obj x' b) e = block_of s.2 e.
Proof.
  intros E. unfold block_of. simpl. rewrite lookup_insert. f_equal. case_decide as He; [|done].
  rewrite <- He, Hx. by simpl.
Qed.

Lemma live_upd x' b i' o' :
  s_addr x' = s_addr x →
  live (upd_obj x' b) i' o' ↔ if decide ((i', o') = (i, o)) then b = Bufctl sl false else live s.2 i' o'.
Proof.
  intros E. unfold live. simpl. split.
  - intros (a' & sl' & y & Ha' & Hsl' & Hy & Ho' & Hb).
    assert (∃ y0, ss_slabs s.2 !! sl' = Some y0 ∧ s_addr y0 = s_addr y) as (y0 & Hy0 & Ey).
    { rewrite lookup_insert in Hy. case_decide; simplify_eq; eauto. }
    rewrite <- Ey in Ho'. rewrite lookup_insert in Hb. case_decide as Hbc.
    + destruct (bufctl_unique i' a' sl' y0 o') as (-> & -> & ->); [done..|].
      rewrite decide_True by done. by simplify_eq.
    + rewrite decide_False; [naive_solver|]. intros [= -> ->]. simplify_eq.
  - case_decide as He.
    + intros ->. simplify_eq. exists a, sl, x'. rewrite !lookup_insert_eq, E. done.
    + intros (a' & sl' & y & Ha' & Hsl' & Hy & Ho' & Hb).
      assert (∃ y0, <[sl := x']> (ss_slabs s.2) !! sl' = Some y0 ∧ s_addr y0 = s_addr y) as (y0 & Hy0 & Ey).
      { rewrite lookup_insert. case_decide; simplify_eq; eauto. }
      exists a', sl', y0. rewrite Ey. split_and!; try done. rewrite lookup_insert_ne; [done|].
      intros Hbc. apply He. destruct (bufctl_unique i' a' sl' y o') as (-> & -> & ->); done.
Qed.

Lemma sinv_update x' b fl' L' :
  s_addr x' = s_addr x →
  slab_ok a (<[obj_bufctl a o := b]> (ss_bufctls s.2)) (ss_redzones s.2) sl x' fl' →
  (∀ i' o', (i', o') ∈ L' ↔ if decide ((i', o') = (i, o)) then b = Bufctl sl false else (i', o') ∈ L) →
  NoDup L' → sinv (s.1, upd_obj x' b) B L'.
Proof.
  intros E Hok' HL' Hnd. pose proof HS as [H1 H2 H3 H4 H5 H7 H8]. split; try done.
  - intros i' a' sl' Ha' Hsl'. simpl in Ha'. simpl. destruct (decide (sl' = sl)) as [->|Hne].
    + assert (i' = i) as -> by (by eapply slab_entry_unique). simplify_eq.
      rewrite lookup_insert_eq. eauto.
    + rewrite lookup_insert_ne by done. destruct (H4 _ _ _ Ha' Hsl') as (y & fy & Hy & Hoky).
      exists y, fy. split; [done|]. eapply slab_ok_frame; [by apply (H2 i' a')| |done].
      intros z Hz. split; [|done]. rewrite lookup_insert_ne; [done|]. intros <-.
      assert ((i', sl') = (i, sl)); [|congruence].
      eapply (slabs_disjoint _ _ _ _ _ _ _ _ _ _ _ (obj_bufctl a o) HS); try done.
      eapply obj_in_slab; [done..|]. pose proof (fit_objsize _ Hf).
      unfold obj_bufctl, stride, sizeof_bufctl, sizeof_redzone in *. lia.
  - simpl. change (entries (upd_obj x' b)) with (entries s.2).
    assert ((block_of (upd_obj x' b) <$> entries s.2) = (block_of s.2 <$> entries s.2)) as -> ; [|done].
    apply list_fmap_ext. intros. by apply block_of_upd.
  - intros i' o'. rewrite HL'. simpl. rewrite live_upd by done. case_decide; [done|apply H7].
Qed.
End Update.

(** * Running the code *)

(** Reduce, and resolve the lookups the hypotheses know. *)
Ltac srun := repeat (cbv [kbind kret kget kgets kmodify kderef KASSERT get_allocator get_slab get_bufctl
    put_slab put_bufctl upd_ss]; simpl;
  match goal with
  | H : ?m !! ?i = Some _ |- context [?m !! ?i] => rewrite H
  | |- context [<[?i := _]> _ !! ?i] => rewrite lookup_insert_eq
  end); cbv [kbind kret kget kmodify kderef KASSERT]; simpl.

Definition with_slabs (l : list Z) (a : slab_allocator) : slab_allocator :=
  Allocator (sa_name a) (sa_objsize a) l (sa_order a) (sa_slab_nobjs a).

Lemma with_slabs_id a : with_slabs (sa_slabs a) a = a.
Proof. by destruct a. Qed.

(** What the operations on objects and slabs keep. *)
Record keeps (s s' : pstate * sstate) : Prop := {
  kp_ranges : ranges s'.1 = ranges s.1;
  kp_headers : ss_headers s'.2 = ss_headers s.2;
  kp_kmalloc : ss_kmalloc s'.2 = ss_kmalloc s.2;
  kp_list : ss_list s'.2 = ss_list s.2;
  kp_alloc j a : ss_allocators s.2 !! j = Some a → ∃ l, ss_allocators s'.2 !! j = Some (with_slabs l a)
}.

Lemma keeps_trans s1 s2 s3 : keeps s1 s2 → keeps s2 s3 → keeps s1 s3.
Proof.
  intros [???? A] [???? B]. split; [congruence..|]. intros j a Ha. destruct (A j a Ha) as [l Hl].
  destruct (B _ _ Hl) as [l' Hl']. by exists l'.
Qed.

Lemma keeps_same s s' :
  s'.1 = s.1 → ss_headers s'.2 = ss_headers s.2 → ss_kmalloc s'.2 = ss_kmalloc s.2 →
  ss_list s'.2 = ss_list s.2 → ss_allocators s'.2 = ss_allocators s.2 → keeps s s'.
Proof.
  intros E ??? Ea. split; [by rewrite E|done..|]. intros j a Ha. exists (sa_slabs a).
  by rewrite with_slabs_id, Ea.
Qed.

(** The part of slab_obj_alloc behind the search. *)
Definition take_object (allocator sl : Z) : sM Z :=
  let* a := get_allocator allocator in
  let* s := get_slab sl in
  let obj := s_free s in
  let* b := get_bufctl (obj_bufctl a obj) in
  put_slab sl (Slab (s_inuse s + 1) (sb_u b) (s_addr s)) ;;;
  put_bufctl (obj_bufctl a obj) (Bufctl sl false) ;;;
  VERIFY_REDZONES a obj ;;;
  kret (obj + sizeof_redzone).

Lemma verify_redzones_run a s o :
  ss_redzones s.2 !! o = Some SLAB_REDZONE → ss_redzones s.2 !! rear_rz a o = Some SLAB_REDZONE →
  VERIFY_REDZONES a o s = RRet tt s.
Proof. intros H1 H2. unfold VERIFY_REDZONES. by srun. Qed.

(** An object taken from a slab that has one. *)
Lemma take_object_run s B L i a sl x fl :
  sinv s B L → ss_allocators s.2 !! i = Some a → sl ∈ sa_slabs a → ss_slabs s.2 !! sl = Some x →
  slab_ok a (ss_bufctls s.2) (ss_redzones s.2) sl x fl → s_inuse x < sa_slab_nobjs a →
  ∃ o s', take_object i sl s = RRet (o + sizeof_redzone) s' ∧ 0 < o ∧ keeps s s' ∧
    (i, o) ∉ L ∧ sinv s' B ((i, o) :: L).
Proof.
  intros HS Ha Hsl Hx Hok Hlt. pose proof Hok as [H1 H2 H3 H4 H5 H6 H7 H8].
  destruct fl as [|o fl]; [simpl in H6; lia|]. simpl in H3. destruct H3 as (Efree & n & Hb & Hch).
  assert (Ho : o ∈ objs a (s_addr x)) by (apply H5; set_solver). destruct (H8 o Ho) as [Hr1 Hr2].
  destruct (si_alloc _ _ _ HS i a Ha) as [_ Hf]. apply NoDup_cons in H4 as [Hno Hnd].
  assert (HnL : (i, o) ∉ L).
  { rewrite (si_live _ _ _ HS). intros (a' & sl' & y & Ha' & Hsl' & Hy & Ho' & Hb'). simplify_eq. }
  exists o, (s.1, upd_obj s a sl o (Slab (s_inuse x + 1) n (s_addr x)) (Bufctl sl false)). split_and!.
  - unfold take_object. srun. rewrite Efree. srun.
    pose proof (verify_redzones_run a (s.1, upd_obj s a sl o (Slab (s_inuse x + 1) n (s_addr x)) (Bufctl sl false)) o Hr1 Hr2) as Hv.
    unfold upd_obj in Hv. simpl in Hv. unfold set_bufctls, set_slabs in *. simpl in *. by rewrite Hv.
  - apply elem_of_objs in Ho as (k & Hk & ->). pose proof (stride_pos a Hf). unfold obj_at. nia.
  - by apply keeps_same.
  - done.
  - apply (sinv_update s B L i a sl x (o :: fl) o HS Ha Hsl Hx Hok Ho _ _ fl); [done| | |].
    + split; simpl; try done.
      * eapply chain_frame; [|done]. intros o' Ho'. rewrite lookup_insert_ne; [done|].
        unfold obj_bufctl. intros E. assert (o = o') by lia. congruence.
      * intros o' Ho'. apply H5. set_solver.
      * rewrite H6. simpl. lia.
      * intros o' Ho' Hn'. rewrite lookup_insert. case_decide as E; [done|].
        apply H7; [done|]. intros [->|?]%elem_of_cons; [by apply E|done].
    + intros i' o'. rewrite elem_of_cons. case_decide as E; [rewrite E; tauto|]. naive_solver.
    + constructor; [done|apply HS].
Qed.

(** An allocated object given back. *)
Lemma obj_free_run s B L i o :
  sinv s B ((i, o) :: L) →
  ∃ s', slab_obj_free i (o + sizeof_redzone) s = RRet tt s' ∧ keeps s s' ∧ sinv s' B L.
Proof.
  intros HS. assert (HL : live s.2 i o) by (apply (si_live _ _ _ HS); set_solver).
  destruct HL as (a & sl & x & Ha & Hsl & Hx & Ho & Hb).
  destruct (si_slab _ _ _ HS _ _ _ Ha Hsl) as (x' & fl & Hx' & Hok). simplify_eq.
  pose proof Hok as [H1 H2 H3 H4 H5 H6 H7 H8]. destruct (H8 o Ho) as [Hr1 Hr2].
  destruct (si_alloc _ _ _ HS i a Ha) as [_ Hf].
  assert (Hno : o ∉ fl).
  { intros Hin. destruct (chain_free _ _ _ _ _ H3 Hin) as [n Hn]. congruence. }
  pose proof (si_live_nodup _ _ _ HS) as HndL. apply NoDup_cons in HndL as [HnL HndL].
  exists (s.1, upd_obj s a sl o (Slab (s_inuse x - 1) o (s_addr x)) (Bufctl (s_free x) true)). split_and!.
  - unfold slab_obj_free. replace (o + sizeof_redzone - sizeof_redzone) with o by lia.
    unfold get_allocator. srun. rewrite (verify_redzones_run a s o) by done. srun. done.
  - by apply keeps_same.
  - apply (sinv_update s B ((i, o) :: L) i a sl x fl o HS Ha Hsl Hx Hok Ho _ _ (o :: fl)); [done| | |done].
    + split; simpl; try done.
      * split; [done|]. exists (s_free x). rewrite lookup_insert_eq. split; [done|].
        eapply chain_frame; [|done]. intros o' Ho'. rewrite lookup_insert_ne; [done|].
        unfold obj_bufctl. intros E. assert (o = o') by lia. congruence.
      * constructor; done.
      * intros o' [->|?]%elem_of_cons; auto.
      * rewrite H6. lia.
      * intros o' Ho' Hn'. rewrite lookup_insert_ne; [apply H7; set_solver|].
        unfold obj_bufctl. intros E. assert (o = o') by lia. set_solver.
    + intros i' o'. case_decide as E; [|set_solver]. split; [|done]. intros Hin. by rewrite E in Hin.
Qed.

(** ** The slab list of an allocator changes *)

Definition set_slab_list (i : Z) (a : slab_allocator) (l : list Z) (ss : sstate) : sstate :=
  set_allocators <[i := with_slabs l a]> ss.

Lemma slab_ok_with_slabs l a bc rz sl x fl :
  slab_ok a bc rz sl x fl → slab_ok (with_slabs l a) bc rz sl x fl.
Proof.
  intros [H1 H2 H3 H4 H5 H6 H7 H8]. split; try done. clear -H3.
  revert H3. generalize (s_free x). induction fl as [|o fl IH]; intros p; simpl; [done|].
  intros (-> & n & Hn & Hc). eauto.
Qed.

Lemma entries_set ss i a l :
  NoDup (ss_list ss) → i ∈ ss_list ss → ss_allocators ss !! i = Some a →
  entries (set_slab_list i a l ss) ++ (pair i <$> sa_slabs a) ≡ₚ (pair i <$> l) ++ entries ss.
Proof.
  intros Hnd Hin Ha. unfold entries. simpl. apply list_elem_of_split in Hin as (l1 & l2 & E).
  rewrite E in Hnd |- *. apply NoDup_app in Hnd as (_ & Hn1 & Hn2%NoDup_cons).
  assert (Hne : ∀ k, i ∉ k →
    (k ≫= λ j, pair j <$> slabs_of (set_slab_list i a l ss) j) = (k ≫= λ j, pair j <$> slabs_of ss j)).
  { intros k Hk. induction k as [|j k IH]; [done|]. rewrite !bind_cons, IH by set_solver. f_equal.
    unfold slabs_of. simpl. by rewrite lookup_insert_ne by set_solver. }
  assert (E1 : slabs_of (set_slab_list i a l ss) i = l) by (unfold slabs_of; simpl; by rewrite lookup_insert_eq).
  assert (E2 : slabs_of ss i = sa_slabs a) by (unfold slabs_of; by rewrite Ha).
  rewrite !bind_app, !bind_cons, !Hne, E1, E2 by set_solver. solve_Permutation.
Qed.

Lemma block_of_set ss i a l e :
  ss_allocators ss !! i = Some a → block_of (set_slab_list i a l ss) e = block_of ss e.
Proof.
  intros Ha. unfold block_of. simpl. rewrite lookup_insert. case_decide as E; [|done].
  by rewrite <- E, Ha.
Qed.

Lemma order_for_shift o : 0 ≤ o < Z.of_nat PAGE_NSIZES → order_for (Z.shiftl 1 o) = Some (Z.to_nat o).
Proof.
  unfold PAGE_NSIZES. intros Ho.
  assert (o = 0 ∨ o = 1 ∨ o = 2 ∨ o = 3 ∨ o = 4 ∨ o = 5 ∨ o = 6 ∨ o = 7) as H by lia.
  by destruct_or! H; subst.
Qed.

Lemma pages_of_shift o : 0 ≤ o → pages_of (Z.to_nat o) = Z.shiftl 1 o.
Proof. intros. unfold pages_of. by rewrite Z2Nat.id. Qed.

(** In an unused slab every object is free. *)
Lemma unused_all_free a bc rz sl x fl o :
  fits a → slab_ok a bc rz sl x fl → s_inuse x = 0 → o ∈ objs a (s_addr x) → o ∈ fl.
Proof.
  intros Hf Hok H0 Ho. destruct Hok as [_ _ _ Hnd Hsub Hin _ _].
  assert (Hlen : length (objs a (s_addr x)) = length fl).
  { unfold objs. rewrite length_fmap, length_seqZ. pose proof (fit_nobjs _ Hf). lia. }
  assert (HP : fl ⊆+ objs a (s_addr x)) by (apply NoDup_submseteq; [done|]; intros y; apply Hsub).
  apply submseteq_length_Permutation in HP; [|lia]. by rewrite HP.
Qed.

Lemma slabs_NoDup s B L i a :
  sinv s B L → i ∈ ss_list s.2 → ss_allocators s.2 !! i = Some a → NoDup (sa_slabs a).
Proof.
  intros HS Hi Ha. pose proof (entries_NoDup _ _ _ HS) as Hnd. unfold entries in Hnd.
  apply list_elem_of_split in Hi as (l1 & l2 & E). rewrite E, bind_app, bind_cons in Hnd.
  apply NoDup_app in Hnd as (_ & _ & (Hnd & _ & _)%NoDup_app). unfold slabs_of in Hnd.
  rewrite Ha in Hnd. by apply NoDup_fmap_1 in Hnd.
Qed.

(** Giving the pages of an unused slab back. *)
Lemma reclaim_one s B L i a sl x :
  sinv s B L → ss_allocators s.2 !! i = Some a → sl ∈ sa_slabs a → ss_slabs s.2 !! sl = Some x →
  s_inuse x = 0 →
  ∃ s', page_free_n (s_addr x) (Z.shiftl 1 (sa_order a))
          (s.1, set_slab_list i a (filter (.≠ sl) (sa_slabs a)) s.2) = RRet tt s' ∧
    s'.2 = set_slab_list i a (filter (.≠ sl) (sa_slabs a)) s.2 ∧ sinv s' B L ∧ ranges s'.1 = ranges s.1 ∧
    ps_freecount s'.1 = ps_freecount s.1 + Z.shiftl 1 (sa_order a).
Proof.
  intros HS Ha Hsl Hx H0. pose proof HS as [H1 H2 H3 H4 H5 H6 H7]. destruct (H2 i a Ha) as [Hi Hf].
  set (ss' := set_slab_list i a (filter (.≠ sl) (sa_slabs a)) s.2).
  pose proof (slabs_NoDup _ _ _ _ _ HS Hi Ha) as HndS.
  assert (HE : entries s.2 ≡ₚ (i, sl) :: entries ss').
  { pose proof (entries_set s.2 i a (filter (.≠ sl) (sa_slabs a)) H1 Hi Ha) as HP.
    rewrite (filter_ne_perm sl (sa_slabs a)) in HP at 2 by done. rewrite fmap_cons in HP.
    apply (Permutation_app_inv_l (pair i <$> filter (.≠ sl) (sa_slabs a))). rewrite <- HP.
    fold ss'. solve_Permutation. }
  assert (HB : (block_of s.2 <$> entries s.2) ++ B ≡ₚ
    (Z.to_nat (sa_order a), s_addr x) :: (block_of ss' <$> entries ss') ++ B).
  { rewrite HE, fmap_cons. assert (block_of s.2 (i, sl) = (Z.to_nat (sa_order a), s_addr x)) as ->.
    { unfold block_of. simpl. by rewrite Ha, Hx. }
    rewrite (list_fmap_ext (block_of ss') (block_of s.2)); [done|]. intros. by apply block_of_set. }
  destruct (page_free_order_run (s.1, ss') ((block_of ss' <$> entries ss') ++ B)
    (Z.to_nat (sa_order a)) (s_addr x)) as (s' & Hrun & Es & Hfc & Hrg & Hp).
  { by eapply pinv_Permutation. }
  pose proof (fit_order _ Hf) as Ho. exists s'. split_and!.
  - unfold page_free_n. by rewrite order_for_shift.
  - done.
  - assert (Hlk : ∀ j b, ss_allocators ss' !! j = Some b → ∃ b0, ss_allocators s.2 !! j = Some b0 ∧
      b = with_slabs (sa_slabs b) b0 ∧ ∀ y, y ∈ sa_slabs b ↔ y ∈ sa_slabs b0 ∧ (j, y) ≠ (i, sl)).
    { intros j b. simpl. rewrite lookup_insert. case_decide as E.
      - intros [= <-]. subst j. exists a. split_and!; [done|done|]. intros y. simpl. rewrite list_elem_of_filter. naive_solver.
      - intros Hb. exists b. split_and!; [done|by destruct b|]. naive_solver. }
    split; rewrite ?Es; simpl; try done.
    + intros j b (b0 & Hb0 & -> & _)%Hlk. split; [by apply (H2 j b0)|].
      destruct (H2 j b0 Hb0) as [_ []]. by split.
    + intros j Hj. rewrite lookup_insert. case_decide; [done|auto].
    + intros j b y (b0 & Hb0 & -> & Hy)%Hlk Hyin. apply Hy in Hyin as [Hyin _].
      destruct (H4 j b0 y Hb0 Hyin) as (z & fz & Hz & Hok). exists z, fz. split; [done|].
      by apply slab_ok_with_slabs.
    + intros j o. rewrite H6. unfold live. split.
      * intros (b & y & z & Hb & Hy & Hz & Ho' & Hbc).
        assert (Hne : (j, y) ≠ (i, sl)).
        { intros [= -> ->]. simplify_eq. destruct (H4 _ _ _ Ha Hsl) as (z & fz & Hz & Hok). simplify_eq.
          pose proof (unused_all_free _ _ _ _ _ _ _ Hf Hok H0 Ho') as Hin.
          destruct (chain_free _ _ _ _ _ (so_chain _ _ _ _ _ _ Hok) Hin) as [n Hn]. congruence. }
        simpl. destruct (decide (i = j)) as [->|Hij].
        -- simplify_eq. eexists _, y, z. rewrite lookup_insert_eq. split_and!; [done| |done|done|done].
           apply list_elem_of_filter. naive_solver.
        -- exists b, y, z. rewrite lookup_insert_ne by done. done.
      * intros (b & y & z & (b0 & Hb0 & -> & Hy)%Hlk & Hyin & Hz & Ho' & Hbc).
        exists b0, y, z. apply Hy in Hyin as [? _]. done.
  - done.
  - rewrite Hfc. simpl. by rewrite pages_of_shift by lia.
Qed.

(** ** Reclaiming *)

(** How reclaiming may change the state: slabs leave their lists. *)
Record reclaimed (s s' : pstate * sstate) (n : Z) : Prop := {
  rc_count : ps_freecount s'.1 = ps_freecount s.1 + n;
  rc_nonneg : 0 ≤ n;
  rc_ranges : ranges s'.1 = ranges s.1;
  rc_headers : ss_headers s'.2 = ss_headers s.2;
  rc_kmalloc : ss_kmalloc s'.2 = ss_kmalloc s.2;
  rc_list : ss_list s'.2 = ss_list s.2;
  rc_slabs : ss_slabs s'.2 = ss_slabs s.2;
  rc_alloc j a : ss_allocators s.2 !! j = Some a →
    ∃ l, ss_allocators s'.2 !! j = Some (with_slabs l a) ∧ ∀ y, y ∈ l → y ∈ sa_slabs a
}.

Lemma reclaimed_refl s : reclaimed s s 0.
Proof. split; try done; [lia|]. intros j a Ha. exists (sa_slabs a). by rewrite with_slabs_id. Qed.

Lemma reclaimed_keeps s s' n : reclaimed s s' n → keeps s s'.
Proof. intros []. split; try done. naive_solver. Qed.

Lemma reclaimed_trans s1 s2 s3 n m :
  reclaimed s1 s2 n → reclaimed s2 s3 m → reclaimed s1 s3 (n + m).
Proof.
  intros [A1 A2 ????? A5] [B1 B2 ????? B5]. split; [lia|lia|congruence..|].
  intros j a Ha. destruct (A5 j a Ha) as (l & Hl & Hsub). destruct (B5 _ _ Hl) as (l' & Hl' & Hsub').
  exists l'. split; [done|]. naive_solver.
Qed.

(** Every slab of an allocator is in use. *)
Definition all_used (s : sstate) (i : Z) : Prop :=
  ∀ a sl x, ss_allocators s !! i = Some a → sl ∈ sa_slabs a → ss_slabs s !! sl = Some x → s_inuse x ≠ 0.

Lemma all_used_reclaimed s s' n i : reclaimed s s' n → is_Some (ss_allocators s.2 !! i) →
  all_used s.2 i → all_used s'.2 i.
Proof.
  intros [_ _ _ _ _ _ R4 R5] [a Ha] Hu a' sl x Ha' Hsl Hx. destruct (R5 i a Ha) as (l & Hl & Hsub).
  rewrite R4 in Hx. simplify_eq. simpl in Hsl. eauto.
Qed.

(** One slab of the loop. *)
Lemma reclaim_slab_step s B L i a sl x freed :
  sinv s B L → ss_allocators s.2 !! i = Some a → sl ∈ sa_slabs a → ss_slabs s.2 !! sl = Some x →
  ∃ n s', (if s_inuse x =? 0 then
             upd_ss (set_allocators <[i := with_slabs (filter (.≠ sl) (sa_slabs a)) a]>) ;;;
             page_free_n (s_addr x) (Z.shiftl 1 (sa_order a)) ;;;
             kret (freed + Z.shiftl 1 (sa_order a))
           else kret freed) s = RRet (freed + n) s' ∧ sinv s' B L ∧ reclaimed s s' n ∧
    ∃ l, ss_allocators s'.2 !! i = Some (with_slabs l a) ∧
      ∀ y, y ∈ l ↔ y ∈ sa_slabs a ∧ (s_inuse x = 0 → y ≠ sl).
Proof.
  intros HS Ha Hsl Hx. destruct (Z.eqb_spec (s_inuse x) 0) as [E|E].
  - destruct (reclaim_one s B L i a sl x) as (s' & Hrun & Es & HS' & Hrg & Hfc); [done..|].
    exists (Z.shiftl 1 (sa_order a)), s'. split_and!; [|done| |].
    + cbv [upd_ss kmodify kbind]. simpl. unfold set_slab_list in Hrun. by rewrite Hrun.
    + split; rewrite ?Es; try done.
      * destruct (si_alloc _ _ _ HS i a Ha) as [_ Hf]. pose proof (fit_order _ Hf).
        rewrite Z.shiftl_1_l. apply Z.pow_nonneg. lia.
      * intros j b Hb. simpl. rewrite lookup_insert. case_decide as Hij.
        -- simplify_eq. eexists. split; [done|]. intros y. rewrite list_elem_of_filter. tauto.
        -- exists (sa_slabs b). by rewrite with_slabs_id.
    + exists (filter (.≠ sl) (sa_slabs a)). rewrite Es. simpl. rewrite lookup_insert_eq. split; [done|].
      intros y. rewrite list_elem_of_filter. naive_solver.
  - exists 0, s. rewrite Z.add_0_r. split_and!; [done|done|apply reclaimed_refl|].
    exists (sa_slabs a). rewrite with_slabs_id. naive_solver.
Qed.

Lemma reclaim_slabs_run slabs s B L i a target freed :
  sinv s B L → ss_allocators s.2 !! i = Some a → NoDup slabs → (∀ y, y ∈ slabs → y ∈ sa_slabs a) →
  ∃ n stop s', reclaim_slabs i target freed slabs s = RRet (freed + n, stop) s' ∧ sinv s' B L ∧
    reclaimed s s' n ∧
    ∃ l, ss_allocators s'.2 !! i = Some (with_slabs l a) ∧ (∀ y, y ∈ l → y ∈ sa_slabs a) ∧
      (target ≤ 0 → stop = false ∧
        ∀ y x, y ∈ slabs → y ∈ l → ss_slabs s.2 !! y = Some x → s_inuse x ≠ 0).
Proof.
  revert s a freed. induction slabs as [|sl slabs IH]; intros s a freed HS Ha Hnd Hsub; cbn [reclaim_slabs].
  - exists 0, false, s. rewrite Z.add_0_r. split_and!; [done|done|apply reclaimed_refl|].
    exists (sa_slabs a). rewrite with_slabs_id. set_solver.
  - apply NoDup_cons in Hnd as [Hn Hnd]. assert (Hsl : sl ∈ sa_slabs a) by (apply Hsub; set_solver).
    destruct (si_slab _ _ _ HS _ _ _ Ha Hsl) as (x & fl & Hx & _).
    destruct (reclaim_slab_step s B L i a sl x freed) as (n & s1 & Hrun & HS1 & Hrc & l & Ha1 & Hl); [done..|].
    erewrite (kbind_of_ret (get_slab sl)) by (by srun). erewrite (kbind_of_ret (get_allocator i)) by (by srun).
    erewrite kbind_of_ret by exact Hrun.
    destruct ((0 <? target) && (target <=? freed + n)) eqn:Hstop.
    + exists n, true, s1. split_and!; [done|done|done|]. exists l. split_and!; [done|naive_solver|].
      intros Ht. destruct (Z.ltb_spec 0 target); [lia|done].
    + destruct (IH s1 (with_slabs l a) (freed + n)) as (m & stop & s2 & Hrun2 & HS2 & Hrc2 & l2 & Ha2 & Hl2 & Hall);
        [done|done|done| |].
      { intros y Hy. simpl. apply Hl. split; [apply Hsub; set_solver|]. intros _ ->. done. }
      exists (n + m), stop, s2. split_and!; [by rewrite Hrun2, Z.add_assoc|done|by eapply reclaimed_trans|].
      exists l2. split_and!; [done|intros y Hy%Hl2; simpl in Hy; naive_solver|].
      intros Ht. destruct (Hall Ht) as [-> Hused]. split; [done|]. intros y z [->|Hy]%elem_of_cons Hyl Hz.
      * simplify_eq. intros E. apply Hl2 in Hyl. simpl in Hyl. apply Hl in Hyl. naive_solver.
      * apply (Hused y); [done|done|]. by rewrite (rc_slabs _ _ _ Hrc).
Qed.

Lemma reclaim_allocators_run allocs s B L target freed :
  sinv s B L → (∀ i, i ∈ allocs → i ∈ ss_list s.2) →
  ∃ n s', reclaim_allocators target freed allocs s = RRet (freed + n) s' ∧ sinv s' B L ∧
    reclaimed s s' n ∧ (target ≤ 0 → ∀ i, i ∈ allocs → all_used s'.2 i).
Proof.
  revert s freed. induction allocs as [|i allocs IH]; intros s freed HS Hin; cbn [reclaim_allocators].
  - exists 0, s. rewrite Z.add_0_r. split_and!; [done|done|apply reclaimed_refl|set_solver].
  - destruct (si_list _ _ _ HS i) as [a Ha]; [apply Hin; set_solver|].
    erewrite (kbind_of_ret (get_allocator i)) by (by srun).
    destruct (reclaim_slabs_run (sa_slabs a) s B L i a target freed)
      as (n & stop & s1 & Hrun & HS1 & Hrc & l & Ha1 & Hl & Hall); [done|done| |done|].
    { destruct (si_alloc _ _ _ HS i a Ha) as [Hi _]. by eapply slabs_NoDup. }
    erewrite kbind_of_ret by done. cbn beta iota.
    assert (Hlist : ∀ j, j ∈ allocs → j ∈ ss_list s1.2).
    { intros j Hj. rewrite (rc_list _ _ _ Hrc). apply Hin. set_solver. }
    destruct stop.
    + exists n, s1. split_and!; [done|done|done|]. intros Ht. by destruct (Hall Ht).
    + destruct (IH s1 (freed + n) HS1 Hlist) as (m & s2 & Hrun2 & HS2 & Hrc2 & Hused).
      exists (n + m), s2. split_and!; [by rewrite Hrun2, Z.add_assoc|done|by eapply reclaimed_trans|].
      intros Ht j [->|Hj]%elem_of_cons; [|auto].
      eapply all_used_reclaimed; [done|by eexists|]. destruct (Hall Ht) as [_ Hu].
      intros a' sl x Ha' Hsl Hx. simplify_eq. simpl in Hsl. rewrite (rc_slabs _ _ _ Hrc) in Hx.
      by apply (Hu sl); [apply Hl| |].
Qed.

Lemma reclaim_run s B L target :
  sinv s B L →
  ∃ n s', slab_allocators_reclaim target s = RRet n s' ∧ sinv s' B L ∧ reclaimed s s' n ∧
    (target ≤ 0 → ∀ i, i ∈ ss_list s.2 → all_used s'.2 i).
Proof.
  intros HS. unfold slab_allocators_reclaim, kget, kbind. simpl.
  destruct (reclaim_allocators_run (ss_list s.2) s B L target 0 HS) as (n & s' & Hrun & ? & ? & ?); [done|].
  exists n, s'. by rewrite Hrun.
Qed.

(** ** A new slab *)

Section Inserts.
Context {K V : Type} `{Countable K} (f : Z → K) (g : Z → V).

Lemma foldl_insert_ne (m : gmap K V) ks x :
  (∀ k, k ∈ ks → f k ≠ x) → foldl (λ m k, <[f k := g k]> m) m ks !! x = m !! x.
Proof.
  revert m. induction ks as [|k ks IH]; intros m Hne; simpl; [done|].
  rewrite IH by (intros; apply Hne; set_solver). by rewrite lookup_insert_ne by (apply Hne; set_solver).
Qed.

Lemma foldl_insert_in (m : gmap K V) ks k :
  k ∈ ks → NoDup ks → (∀ k', k' ∈ ks → f k' = f k → k' = k) →
  foldl (λ m k, <[f k := g k]> m) m ks !! f k = Some (g k).
Proof.
  revert m. induction ks as [|k0 ks IH]; intros m Hk Hnd Hinj; simpl; [set_solver|].
  apply NoDup_cons in Hnd as [Hn Hnd]. destruct (decide (k = k0)) as [->|Hne].
  - rewrite foldl_insert_ne; [by rewrite lookup_insert_eq|].
    intros k' Hk' E. assert (k' = k0) by (apply Hinj; [set_solver|done]). by subst.
  - apply IH; [set_solver|done|]. intros. apply Hinj; set_solver.
Qed.
End Inserts.

Lemma foldl_redzones (f r : Z → Z) (v : Z) (m : gmap Z Z) ks x :
  ((∃ k, k ∈ ks ∧ (x = f k ∨ x = r k)) → foldl (λ m k, <[r k := v]> (<[f k := v]> m)) m ks !! x = Some v) ∧
  ((∀ k, k ∈ ks → x ≠ f k ∧ x ≠ r k) → foldl (λ m k, <[r k := v]> (<[f k := v]> m)) m ks !! x = m !! x).
Proof.
  revert m. induction ks as [|k0 ks IH]; intros m; simpl; [set_solver|]. split.
  - intros (k & Hk & Hx). destruct (decide (Exists (λ k', x = f k' ∨ x = r k') ks)) as [Hd|Hnd]; rewrite Exists_exists in *.
    + by apply IH.
    + rewrite (proj2 (IH _)) by (intros k' Hk'; split; intros ->; apply Hnd; eauto).
      assert (k = k0) as -> by (apply elem_of_cons in Hk as [?|?]; [done|exfalso; eauto]).
      rewrite !lookup_insert. repeat case_decide; naive_solver.
  - intros Hx. rewrite (proj2 (IH _)) by (intros; apply Hx; set_solver).
    destruct (Hx k0) as [? ?]; [set_solver|]. by rewrite !lookup_insert_ne.
Qed.

Section NewSlab.
Context (a : slab_allocator) (addr : Z).
Hypothesis Hf : fits a.
Hypothesis Hpos : 0 < addr.
Let sl := next_obj a (obj_at a addr (sa_slab_nobjs a - 1)).
Let x := Slab 0 addr addr.

Lemma obj_at_inj k k' : obj_at a addr k = obj_at a addr k' → k = k'.
Proof. pose proof (stride_pos a Hf). unfold obj_at. nia. Qed.

Lemma init_bufctls_obj m k :
  0 ≤ k < sa_slab_nobjs a →
  init_bufctls a addr m !! obj_bufctl a (obj_at a addr k) =
    Some (Bufctl (if k <? sa_slab_nobjs a - 1 then obj_at a addr (k + 1) else NULL) true).
Proof.
  intros Hk. unfold init_bufctls.
  apply (foldl_insert_in (λ k, obj_bufctl a (obj_at a addr k))
    (λ k, Bufctl (if k <? sa_slab_nobjs a - 1 then obj_at a addr (k + 1) else NULL) true)).
  - apply elem_of_seqZ. lia.
  - apply NoDup_seqZ.
  - intros k' _ E. apply obj_at_inj. unfold obj_bufctl in E. lia.
Qed.

Lemma init_outside mb mr y :
  ¬ in_slab a x y → init_bufctls a addr mb !! y = mb !! y ∧ init_redzones a addr mr !! y = mr !! y.
Proof.
  intros Hy. pose proof (stride_pos a Hf).
  assert (Hin : ∀ k z, k ∈ seqZ 0 (sa_slab_nobjs a) →
            obj_at a addr k ≤ z < obj_at a addr k + stride a → z ≠ y).
  { intros k z Hk%elem_of_seqZ Hz ->. apply Hy. apply (obj_in_slab a x (obj_at a addr k)); [done| |done].
    apply elem_of_objs. exists k. split; [lia|done]. }
  pose proof (fit_objsize _ Hf) as Hs. unfold sizeof_redzone in Hs. split.
  - unfold init_bufctls. apply (foldl_insert_ne (λ k, obj_bufctl a (obj_at a addr k))). intros k Hk.
    apply (Hin k); [done|]. unfold obj_bufctl, stride, sizeof_bufctl. lia.
  - unfold init_redzones. apply foldl_redzones. intros k Hk. split; apply not_eq_sym, (Hin k); try done.
    + lia.
    + unfold rear_rz, stride, sizeof_bufctl, sizeof_redzone. lia.
Qed.

Lemma new_slab_chain m j n :
  0 ≤ j → 0 ≤ n → j + n = sa_slab_nobjs a → (n = 0 ∨ 0 < n) →
  chain a (init_bufctls a addr m) (if n =? 0 then NULL else obj_at a addr j) (obj_at a addr <$> seqZ j n).
Proof.
  intros Hj Hn E _. revert j Hj E. pattern n. apply natlike_ind; [done| |done]. clear n Hn.
  intros n Hn IH j Hj E. rewrite seqZ_cons by lia. replace (Z.pred (Z.succ n)) with n by lia. rewrite fmap_cons. cbn [chain].
  destruct (Z.eqb_spec (Z.succ n) 0); [lia|]. split; [done|].
  rewrite init_bufctls_obj by lia. eexists. split; [done|].
  specialize (IH (Z.succ j) ltac:(lia) ltac:(lia)). replace (j + 1) with (Z.succ j) by lia.
  destruct (Z.ltb_spec j (sa_slab_nobjs a - 1)), (Z.eqb_spec n 0); try lia; done.
Qed.

Lemma new_slab_ok mb mr :
  slab_ok a (init_bufctls a addr mb) (init_redzones a addr mr) sl x (objs a addr).
Proof.
  pose proof (stride_pos a Hf). pose proof (fit_nobjs _ Hf). split; simpl; try done.
  - unfold sl, next_obj, obj_at. lia.
  - pose proof (new_slab_chain mb 0 (sa_slab_nobjs a)) as Hc. destruct (Z.eqb_spec (sa_slab_nobjs a) 0); [lia|].
    replace addr with (obj_at a addr 0) at 2 by (unfold obj_at; lia). apply Hc; lia.
  - unfold objs. apply NoDup_fmap_2_strong; [|apply NoDup_seqZ]. intros. by apply obj_at_inj.
  - unfold objs. rewrite length_fmap, length_seqZ. lia.
  - intros o (k & Hk & ->)%elem_of_objs. split; apply foldl_redzones; exists k;
      (split; [apply elem_of_seqZ; lia|auto]).
Qed.

Lemma sl_in_slab : in_slab a x sl.
Proof.
  pose proof (stride_pos a Hf). pose proof (fit_nobjs _ Hf). pose proof (fit_size _ Hf).
  unfold in_slab, sl, next_obj, obj_at, sizeof_slab in *. simpl. nia.
Qed.
End NewSlab.

(** The structures of the slab allocator once a block is made a slab. *)
Definition grown (i : Z) (a : slab_allocator) (addr : Z) (ss : sstate) : sstate :=
  let sl := next_obj a (obj_at a addr (sa_slab_nobjs a - 1)) in
  set_slab_list i a (sl :: sa_slabs a)
    (set_redzones (init_redzones a addr)
      (set_slabs <[sl := Slab 0 addr addr]> (set_bufctls (init_bufctls a addr) ss))).

Section Grown.
Context (s : pstate * sstate) (B : list block) (L : list (Z * Z)).
Context (i : Z) (a : slab_allocator) (p : pstate) (addr : Z).
Hypothesis HS : sinv s B L.
Hypothesis Ha : ss_allocators s.2 !! i = Some a.
Hypothesis Hp : pinv p ((Z.to_nat (sa_order a), addr) :: (block_of s.2 <$> entries s.2) ++ B).

Let Hf : fits a := proj2 (si_alloc _ _ _ HS i a Ha).
Let x := Slab 0 addr addr.
Let sl := next_obj a (obj_at a addr (sa_slab_nobjs a - 1)).

Lemma grown_pos : 0 < addr.
Proof.
  destruct (pinv_blk _ _ (Z.to_nat (sa_order a), addr) Hp) as (j & g & Hg & _ & (_ & Hb & _)); [set_solver|].
  destruct (pi_group _ _ Hp g) as (HG & _); [by eapply list_elem_of_lookup_2|].
  pose proof (gi_pos _ _ HG). simpl in Hb. lia.
Qed.

(** The new block does not meet an old slab. *)
Lemma grown_apart j b y z w :
  ss_allocators s.2 !! j = Some b → y ∈ sa_slabs b → ss_slabs s.2 !! y = Some z →
  in_slab b z w → ¬ in_slab a x w.
Proof.
  intros Hb Hy Hz Hw Hw'.
  assert (He : (j, y) ∈ entries s.2) by (apply (elem_of_entries _ _ _ _ _ HS); eauto).
  apply elem_of_Permutation in He as [E HE].
  assert (HP : (Z.to_nat (sa_order a), addr) :: (block_of s.2 <$> entries s.2) ++ B ≡ₚ
    (Z.to_nat (sa_order a), addr) :: block_of s.2 (j, y) :: (block_of s.2 <$> E) ++ B) by (by rewrite HE).
  pose proof (live_disjoint _ _ _ _ _ Hp HP) as Hd. unfold block_of in Hd. simpl in Hd.
  rewrite Hb, Hz in Hd. unfold in_slab in *. simpl in *. lia.
Qed.

Lemma grown_slab_ne j b y : ss_allocators s.2 !! j = Some b → y ∈ sa_slabs b → y ≠ sl.
Proof.
  intros Hb Hy ->. destruct (si_slab _ _ _ HS _ _ _ Hb Hy) as (z & fl & Hz & Hok).
  destruct (si_alloc _ _ _ HS j b Hb) as [_ Hfb].
  eapply (grown_apart j b sl z sl); [done..| |by apply sl_in_slab].
  pose proof (so_place _ _ _ _ _ _ Hok) as E. pose proof (fit_size _ Hfb). pose proof (stride_pos _ Hfb).
  pose proof (fit_nobjs _ Hfb). unfold in_slab, sizeof_slab in *. nia.
Qed.

(** An old slab looks the same. *)
Lemma grown_old j b y z fl :
  ss_allocators s.2 !! j = Some b → y ∈ sa_slabs b → ss_slabs s.2 !! y = Some z →
  slab_ok b (ss_bufctls s.2) (ss_redzones s.2) y z fl →
  ss_slabs (grown i a addr s.2) !! y = Some z ∧
  slab_ok b (init_bufctls a addr (ss_bufctls s.2)) (init_redzones a addr (ss_redzones s.2)) y z fl.
Proof.
  intros Hb Hy Hz Hok. split.
  - simpl. rewrite lookup_insert_ne; [done|]. by eapply not_eq_sym, grown_slab_ne.
  - eapply slab_ok_frame; [by apply (si_alloc _ _ _ HS j b)| |done].
    intros w Hw. apply init_outside; [done|]. by eapply grown_apart.
Qed.

Lemma grown_alloc j b :
  ss_allocators (grown i a addr s.2) !! j = Some b →
  ∃ b0, ss_allocators s.2 !! j = Some b0 ∧ b = with_slabs (sa_slabs b) b0 ∧
    ∀ y, y ∈ sa_slabs b ↔ y ∈ sa_slabs b0 ∨ (j = i ∧ y = sl).
Proof.
  simpl. rewrite lookup_insert. case_decide as E.
  - intros [= <-]. subst j. exists a. split_and!; [done|done|]. intros y. simpl. rewrite elem_of_cons. naive_solver.
  - intros Hb. exists b. split_and!; [done|by rewrite with_slabs_id|]. naive_solver.
Qed.

Lemma grown_bufctl j b y z o :
  ss_allocators s.2 !! j = Some b → y ∈ sa_slabs b → ss_slabs s.2 !! y = Some z → o ∈ objs b (s_addr z) →
  ss_bufctls (grown i a addr s.2) !! obj_bufctl b o = ss_bufctls s.2 !! obj_bufctl b o.
Proof.
  intros Hb Hy Hz Ho. destruct (si_alloc _ _ _ HS j b Hb) as [_ Hfb]. simpl.
  apply (init_outside a addr Hf _ ∅). eapply grown_apart; [done..|]. eapply obj_in_slab; [done..|].
  pose proof (fit_objsize _ Hfb). unfold obj_bufctl, stride, sizeof_bufctl, sizeof_redzone in *. lia.
Qed.

Lemma grown_live j o : live (grown i a addr s.2) j o ↔ live s.2 j o.
Proof.
  split.
  - intros (b & y & z & Hb & Hy & Hz & Ho & Hbc). apply grown_alloc in Hb as (b0 & Hb0 & Eb & Hin).
    rewrite Eb in Ho, Hbc. apply Hin in Hy as [Hy|[-> ->]].
    + destruct (si_slab _ _ _ HS _ _ _ Hb0 Hy) as (z0 & fl & Hz0 & Hok).
      destruct (grown_old _ _ _ _ _ Hb0 Hy Hz0 Hok) as [Hz1 _]. rewrite Hz1 in Hz. injection Hz as <-.
      exists b0, y, z0. split_and!; try done. by rewrite <- (grown_bufctl _ _ _ _ _ Hb0 Hy Hz0 Ho).
    + exfalso. rewrite Ha in Hb0. injection Hb0 as <-. simpl in Hz. fold sl in Hz.
      rewrite lookup_insert_eq in Hz. injection Hz as <-. apply elem_of_objs in Ho as (k & Hk & ->).
      pose proof (init_bufctls_obj a addr Hf (ss_bufctls s.2) k Hk) as Hinit.
      assert (Hbc' : init_bufctls a addr (ss_bufctls s.2) !! obj_bufctl a (obj_at a addr k) = Some (Bufctl sl false))
        by exact Hbc. congruence.
  - intros (b & y & z & Hb & Hy & Hz & Ho & Hbc).
    destruct (si_slab _ _ _ HS _ _ _ Hb Hy) as (z0 & fl & Hz0 & Hok). rewrite Hz0 in Hz. injection Hz as <-.
    destruct (grown_old _ _ _ _ _ Hb Hy Hz0 Hok) as [Hz1 _].
    assert (∃ l, ss_allocators (grown i a addr s.2) !! j = Some (with_slabs l b) ∧ y ∈ l) as (l & Hl & Hyl).
    { simpl. rewrite lookup_insert. case_decide; [subst j; rewrite Ha in Hb; injection Hb as <-; eexists; split; [done|set_solver]|].
      exists (sa_slabs b). by rewrite with_slabs_id. }
    exists (with_slabs l b), y, z0. split_and!; try done.
    rewrite <- Hbc, <- (grown_bufctl _ _ _ _ _ Hb Hy Hz0 Ho). done.
Qed.

Lemma grown_blocks :
  (block_of (grown i a addr s.2) <$> entries (grown i a addr s.2)) ++ B ≡ₚ
  (Z.to_nat (sa_order a), addr) :: (block_of s.2 <$> entries s.2) ++ B.
Proof.
  pose proof (proj1 (si_alloc _ _ _ HS i a Ha)) as Hi.
  assert (HE : entries (grown i a addr s.2) ≡ₚ (i, sl) :: entries s.2).
  { pose proof (entries_set s.2 i a (sl :: sa_slabs a) (si_nodup _ _ _ HS) Hi Ha) as HP.
    rewrite fmap_cons in HP. apply (Permutation_app_inv_r (pair i <$> sa_slabs a)).
    etrans; [exact HP|]. simpl. solve_Permutation. }
  rewrite HE, fmap_cons.
  assert (block_of (grown i a addr s.2) (i, sl) = (Z.to_nat (sa_order a), addr)) as ->.
  { unfold block_of. simpl. fold sl. by rewrite !lookup_insert_eq. }
  assert ((block_of (grown i a addr s.2) <$> entries s.2) = (block_of s.2 <$> entries s.2)) as ->; [|done].
  apply list_fmap_ext. intros n [j y] Hn.
  assert (He : (j, y) ∈ entries s.2) by (by eapply list_elem_of_lookup_2).
  apply (elem_of_entries _ _ _ _ _ HS) in He as (b & Hb & Hy). unfold block_of. simpl. fold sl.
  rewrite (lookup_insert_ne _ sl) by (by eapply not_eq_sym, grown_slab_ne).
  rewrite lookup_insert. case_decide; [by simplify_eq; rewrite Ha|done].
Qed.

Lemma sinv_grown : sinv (p, grown i a addr s.2) B L.
Proof.
  pose proof grown_pos as Hpos. pose proof HS as [H1 H2 H3 H4 H5 H6 H7]. split; try done.
  - intros j b (b0 & Hb0 & -> & _)%grown_alloc. split; [by apply (H2 j b0)|].
    destruct (H2 j b0 Hb0) as [_ []]. by split.
  - intros j Hj. simpl. rewrite lookup_insert. case_decide; [done|auto].
  - intros j b y (b0 & Hb0 & -> & Hin)%grown_alloc [Hy|[-> ->]]%Hin.
    + destruct (H4 _ _ _ Hb0 Hy) as (z & fl & Hz & Hok).
      destruct (grown_old _ _ _ _ _ Hb0 Hy Hz Hok) as [Hz1 Hok1]. exists z, fl. split; [done|].
      by apply slab_ok_with_slabs.
    + simplify_eq. exists x, (objs a addr). simpl. fold sl. rewrite lookup_insert_eq. split; [done|].
      by apply slab_ok_with_slabs, new_slab_ok.
  - eapply pinv_Permutation; [symmetry; apply grown_blocks|done].
  - intros j o. simpl. by rewrite grown_live.
Qed.
End Grown.

(** ** Finding a slab *)

(** No block of the order or above is free. *)
Definition no_block (ps : pstate) (o : Z) : Prop :=
  ∀ g o', g ∈ ps_groups ps → (Z.to_nat o ≤ o' < PAGE_NSIZES)%nat → pg_freelist g o' = [].

Lemma grow_run s B L i a :
  sinv s B L → ss_allocators s.2 !! i = Some a →
  (∃ p addr, _slab_allocator_grow i s = RRet true (p, grown i a addr s.2) ∧
     ps_freecount p = ps_freecount s.1 - Z.shiftl 1 (sa_order a) ∧ ranges p = ranges s.1 ∧
     sinv (p, grown i a addr s.2) B L) ∨
  (∃ n s', _slab_allocator_grow i s = RRet false s' ∧ no_block s.1 (sa_order a) ∧
     sinv s' B L ∧ reclaimed s s' n ∧ ∀ j, j ∈ ss_list s.2 → all_used s'.2 j).
Proof.
  intros HS Ha. destruct (si_alloc _ _ _ HS i a Ha) as [_ Hf]. pose proof (fit_order _ Hf) as Ho.
  unfold _slab_allocator_grow. erewrite (kbind_of_ret (get_allocator i)) by (by srun).
  unfold page_alloc_n. rewrite order_for_shift by done.
  destruct (page_alloc_order_run slab_allocators_reclaim s _ (Z.to_nat (sa_order a)) (si_pages _ _ _ HS))
    as [(addr & [p ss] & Hrun & Ess & Hfc & Hrg & Hp)|[Hno Hrec]]; [lia| |].
  - left. simpl in *. subst ss. pose proof (grown_pos s B L i a p addr HS Ha Hp) as Hpos.
    exists p, addr. rewrite pages_of_shift in Hfc by lia.
    split_and!; [|done|done|by apply sinv_grown].
    erewrite kbind_of_ret by exact Hrun. simpl. rewrite (proj2 (Z.eqb_neq addr NULL)) by (unfold NULL; lia).
    by srun.
  - right. destruct (reclaim_run s B L 0 HS) as (n & s' & Hrun & HS' & Hrc & Hu).
    exists n, s'. split_and!; [|done|done|done|apply Hu; lia].
    by erewrite kbind_of_ret by (by eapply Hrec).
Qed.

Lemma find_slab_run s B L i a l :
  sinv s B L → ss_allocators s.2 !! i = Some a → (∀ y, y ∈ l → y ∈ sa_slabs a) →
  (∃ sl x fl, find_slab (sa_slab_nobjs a) l s = RRet (Some sl) s ∧ sl ∈ l ∧ ss_slabs s.2 !! sl = Some x ∧
     slab_ok a (ss_bufctls s.2) (ss_redzones s.2) sl x fl ∧ s_inuse x < sa_slab_nobjs a) ∨
  (find_slab (sa_slab_nobjs a) l s = RRet None s ∧
     ∀ sl x, sl ∈ l → ss_slabs s.2 !! sl = Some x → s_inuse x = sa_slab_nobjs a).
Proof.
  intros HS Ha. induction l as [|sl l IH]; intros Hsub; cbn [find_slab]; [right; set_solver|].
  destruct (si_slab _ _ _ HS _ _ _ Ha (Hsub sl ltac:(set_solver))) as (x & fl & Hx & Hok).
  erewrite (kbind_of_ret (get_slab sl)) by (by srun). destruct (Z.eqb_spec (s_inuse x) (sa_slab_nobjs a)).
  - destruct IH as [(sl' & x' & fl' & ? & ? & ? & ? & ?)|[? Hall]]; [set_solver| |].
    + left. exists sl', x', fl'. split_and!; try done. set_solver.
    + right. split; [done|]. intros sl' x' [->|?]%elem_of_cons ?; [by simplify_eq|eauto].
  - left. exists sl, x, fl. pose proof (so_inuse _ _ _ _ _ _ Hok). split_and!; try done; [set_solver|lia].
Qed.

(** A slab of the allocator with a free object. *)
Definition has_room (s : pstate * sstate) (i sl : Z) : Prop :=
  ∃ a x fl, ss_allocators s.2 !! i = Some a ∧ sl ∈ sa_slabs a ∧ ss_slabs s.2 !! sl = Some x ∧
    slab_ok a (ss_bufctls s.2) (ss_redzones s.2) sl x fl ∧ s_inuse x < sa_slab_nobjs a.

(** The allocator cannot be served: its slabs are full, no block is free. *)
Definition exhausted (s : pstate * sstate) (i : Z) : Prop :=
  ∃ a, ss_allocators s.2 !! i = Some a ∧ no_block s.1 (sa_order a) ∧
    ∀ sl x, sl ∈ sa_slabs a → ss_slabs s.2 !! sl = Some x → s_inuse x = sa_slab_nobjs a.

Lemma usable_slab_step fuel s B L i a :
  sinv s B L → ss_allocators s.2 !! i = Some a →
  (∃ sl, usable_slab (S fuel) i s = RRet (Some sl) s ∧ has_room s i sl) ∨
  ((∀ sl x, sl ∈ sa_slabs a → ss_slabs s.2 !! sl = Some x → s_inuse x = sa_slab_nobjs a) ∧
   usable_slab (S fuel) i s =
     (let* grown := _slab_allocator_grow i in if (grown : bool) then usable_slab fuel i else kret None) s).
Proof.
  intros HS Ha. cbn [usable_slab]. erewrite (kbind_of_ret (get_allocator i)) by (by srun). cbn beta.
  destruct (find_slab_run s B L i a (sa_slabs a) HS Ha) as [(sl & x & fl & Hrun & Hin & Hx & Hok & Hlt)|[Hrun Hall]];
    [done|left|right]; erewrite (kbind_of_ret (find_slab _ _)) by exact Hrun; cbn beta iota.
  - exists sl. split; [|by exists a, x, fl]. erewrite kbind_of_ret; [|by srun]. cbn beta.
    by rewrite (proj2 (Z.ltb_lt _ _) Hlt).
  - split; [done|]. by erewrite kbind_of_ret by done.
Qed.

(** Two rounds suffice: a slab just added has room. *)
Lemma usable_slab_run s B L i :
  sinv s B L → i ∈ ss_list s.2 →
  (∃ sl s', usable_slab 2 i s = RRet (Some sl) s' ∧ sinv s' B L ∧ has_room s' i sl ∧ keeps s s') ∨
  (∃ n s', usable_slab 2 i s = RRet None s' ∧ sinv s' B L ∧ exhausted s i ∧ reclaimed s s' n ∧
     ∀ j, j ∈ ss_list s.2 → all_used s'.2 j).
Proof.
  intros HS Hi. destruct (si_list _ _ _ HS i Hi) as [a Ha]. destruct (si_alloc _ _ _ HS i a Ha) as [_ Hf].
  destruct (usable_slab_step 1 s B L i a HS Ha) as [(sl & ? & ?)|[Hfull ->]].
  { left. exists sl, s. split_and!; try done. by apply keeps_same. }
  destruct (grow_run s B L i a HS Ha) as [(p & addr & Hrun & Hfc & Hrg & HS')|(n & s' & Hrun & ? & ? & ? & ?)].
  - left. erewrite kbind_of_ret by exact Hrun. cbn beta iota.
    pose proof (fit_nobjs _ Hf) as Hn. pose proof (fit_order _ Hf).
    assert (Hk : keeps s (p, grown i a addr s.2)).
    { split; try done. intros j b Hb. simpl. rewrite lookup_insert. case_decide; [simplify_eq; by eexists|].
      exists (sa_slabs b). by rewrite with_slabs_id. }
    set (sl0 := next_obj a (obj_at a addr (sa_slab_nobjs a - 1))).
    destruct (usable_slab_step 0 (p, grown i a addr s.2) B L i (with_slabs (sl0 :: sa_slabs a) a) HS')
      as [(sl & Hr & ?)|[Hall _]].
    + simpl. by rewrite lookup_insert_eq.
    + exists sl, (p, grown i a addr s.2). by rewrite Hr.
    + exfalso. assert (E : s_inuse (Slab 0 addr addr) = sa_slab_nobjs a); [|simpl in E; lia].
      apply (Hall sl0); [set_solver|]. simpl. fold sl0. by rewrite lookup_insert_eq.
  - right. exists n, s'. erewrite kbind_of_ret by exact Hrun. split_and!; try done. by exists a.
Qed.

Lemma obj_alloc_run s B L i :
  sinv s B L → i ∈ ss_list s.2 →
  (∃ o s', slab_obj_alloc i s = RRet (o + sizeof_redzone) s' ∧ 0 < o ∧ keeps s s' ∧ (i, o) ∉ L ∧
     sinv s' B ((i, o) :: L)) ∨
  (∃ s' n, slab_obj_alloc i s = RRet NULL s' ∧ exhausted s i ∧ reclaimed s s' n ∧ sinv s' B L ∧
     ∀ j, j ∈ ss_list s.2 → all_used s'.2 j).
Proof.
  intros HS Hi. unfold slab_obj_alloc.
  destruct (usable_slab_run s B L i HS Hi) as [(sl & s1 & Hrun & HS1 & Hroom & Hk)|(n & s1 & Hrun & ? & ? & ? & ?)].
  - left. destruct Hroom as (a & x & fl & Ha & Hsl & Hx & Hok & Hlt).
    destruct (take_object_run s1 B L i a sl x fl) as (o & s2 & Hr2 & ? & Hk2 & ? & ?); [done..|].
    exists o, s2. split_and!; try done; [|by eapply keeps_trans].
    erewrite kbind_of_ret by exact Hrun. exact Hr2.
  - right. exists s1, n. split_and!; try done. by erewrite kbind_of_ret by exact Hrun.
Qed.

(** ** Objects do not overlap *)

Lemma live_place s B L i o a :
  sinv s B L → ss_allocators s.2 !! i = Some a → (i, o) ∈ L →
  ∃ sl x, sl ∈ sa_slabs a ∧ ss_slabs s.2 !! sl = Some x ∧ o ∈ objs a (s_addr x) ∧
    ∀ y, o ≤ y < o + stride a → in_slab a x y.
Proof.
  intros HS Ha HL. apply (si_live _ _ _ HS) in HL as (a' & sl & x & Ha' & Hsl & Hx & Ho & _). simplify_eq.
  exists sl, x. split_and!; [done..|]. intros y Hy. eapply obj_in_slab; [by apply (si_alloc _ _ _ HS i a)|done..].
Qed.

(** Two allocated objects, with their bufctls, share no byte. *)
Lemma live_apart s B L i o a j o' b :
  sinv s B L → (i, o) ∈ L → (j, o') ∈ L → (i, o) ≠ (j, o') →
  ss_allocators s.2 !! i = Some a → ss_allocators s.2 !! j = Some b →
  o + stride a ≤ o' ∨ o' + stride b ≤ o.
Proof.
  intros HS HL HL' Hne Ha Hb.
  destruct (live_place _ _ _ _ _ _ HS Ha HL) as (sl & x & Hsl & Hx & Ho & Hin).
  destruct (live_place _ _ _ _ _ _ HS Hb HL') as (sl' & x' & Hsl' & Hx' & Ho' & Hin').
  destruct (si_alloc _ _ _ HS i a Ha) as [_ Hfa]. destruct (si_alloc _ _ _ HS j b Hb) as [_ Hfb].
  pose proof (stride_pos a Hfa). pose proof (stride_pos b Hfb).
  destruct (decide (o + stride a ≤ o' ∨ o' + stride b ≤ o)) as [|Hov]; [done|exfalso].
  assert (Hy : o ≤ Z.max o o' < o + stride a ∧ o' ≤ Z.max o o' < o' + stride b) by lia. destruct Hy as [Hy Hy'].
  assert ((i, sl) = (j, sl')) as [= <- <-] by (by eapply slabs_disjoint; eauto).
  simplify_eq. apply Hne. f_equal. by eapply objs_apart.
Qed.

(** Nor do an object and a block of pages someone else has allocated. *)
Lemma live_apart_block s B L i o a c d :
  sinv s B L → (i, o) ∈ L → ss_allocators s.2 !! i = Some a → (c, d) ∈ B →
  o + stride a ≤ d ∨ d + bytes_of c ≤ o.
Proof.
  intros HS HL Ha HB. destruct (live_place _ _ _ _ _ _ HS Ha HL) as (sl & x & Hsl & Hx & Ho & Hin).
  destruct (si_alloc _ _ _ HS i a Ha) as [_ Hfa]. pose proof (stride_pos a Hfa). pose proof (bytes_of_pos c).
  assert (He : (i, sl) ∈ entries s.2) by (apply (elem_of_entries _ _ _ _ _ HS); eauto).
  apply elem_of_Permutation in He as [E HE]. apply elem_of_Permutation in HB as [B' HB].
  assert (HP : (block_of s.2 <$> entries s.2) ++ B ≡ₚ block_of s.2 (i, sl) :: (c, d) :: (block_of s.2 <$> E) ++ B').
  { rewrite HE, HB, fmap_cons. solve_Permutation. }
  pose proof (live_disjoint _ _ _ _ _ (si_pages _ _ _ HS) HP) as Hd. unfold block_of in Hd. simpl in Hd.
  rewrite Ha, Hx in Hd. simpl in Hd.
  pose proof (Hin o ltac:(lia)). pose proof (Hin (o + stride a - 1) ltac:(lia)). unfold in_slab in *. lia.
Qed.

(** Objects lie in the ranges of the page allocator. *)
Lemma live_in_ranges s B L i o :
  sinv s B L → (i, o) ∈ L → ∃ r, r ∈ ranges s.1 ∧ r.1 ≤ o ∧ o + 16 ≤ r.2.
Proof.
  intros HS HL. pose proof HL as (a & _ & _ & Ha & _)%(si_live _ _ _ HS).
  destruct (live_place _ _ _ _ _ _ HS Ha HL) as (sl & x & Hsl & Hx & Ho & Hin).
  destruct (si_alloc _ _ _ HS i a Ha) as [_ Hfa]. pose proof (stride_pos a Hfa).
  destruct (pinv_blk _ _ (block_of s.2 (i, sl)) (si_pages _ _ _ HS)) as (k & g & Hg & _ & Hb).
  { apply elem_of_app. left. apply list_elem_of_fmap_2, (elem_of_entries _ _ _ _ _ HS). eauto. }
  exists (pg_baseaddr g, pg_endaddr g). split.
  - apply list_elem_of_fmap. exists g. split; [done|]. by eapply list_elem_of_lookup_2.
  - destruct Hb as (_ & Hb1 & Hb2 & _). unfold block_of in *. simpl in *. rewrite Ha, Hx in *. simpl in *.
    pose proof (Hin o ltac:(lia)). pose proof (Hin (o + 15) ltac:(lia)). unfold in_slab in *. lia.
Qed.

Lemma sinv_perm s B L L' : L ≡ₚ L' → sinv s B L → sinv s B L'.
Proof. intros HP []. split; try done; [|by rewrite <- HP]. intros. by rewrite <- HP. Qed.

(** ** Creating allocators *)

Definition add_allocator (i : Z) (a : slab_allocator) (ss : sstate) : sstate :=
  set_list (cons i) (set_allocators <[i := a]> ss).

Lemma alloc_init_run s B L i name size :
  sinv s B L → i ∉ ss_list s.2 → 0 ≤ size ≤ max_objsize - 8 →
  ∃ a, _allocator_init i name size s = RRet tt (s.1, add_allocator i a s.2) ∧
    sa_slabs a = [] ∧ sa_objsize a = size + 8 ∧ _calc_slab_size (size + 8) = Some (sa_order a, sa_slab_nobjs a) ∧
    sinv (s.1, add_allocator i a s.2) B L.
Proof.
  intros HS Hi Hs. unfold max_objsize, sizeof_slab, sizeof_bufctl in Hs.
  assert (E : u32 (size + 2 * sizeof_redzone) = size + 8) by (unfold sizeof_redzone; rewrite u32_small; lia).
  unfold _allocator_init. rewrite E.
  destruct (calc_slab_size_fits (default "<unnamed>" name) (size + 8)) as (order & nobjs & Hc & Hf).
  { unfold max_objsize, sizeof_redzone, sizeof_slab, sizeof_bufctl. lia. }
  rewrite Hc. set (a := Allocator (default "<unnamed>" name) (size + 8) [] order nobjs) in *. exists a.
  split_and!; try done. pose proof HS as [H1 H2 H3 H4 H5 H6 H7].
  assert (Hn : ss_allocators s.2 !! i = None).
  { destruct (_ !! _) eqn:E'; [|done]. by apply H2 in E' as [? _]. }
  split; try done.
  - by constructor.
  - intros j b. simpl. rewrite lookup_insert. case_decide as Ej; [intros [= <-]; set_solver|].
    intros Hb. destruct (H2 j b Hb). set_solver.
  - intros j. simpl. rewrite lookup_insert, elem_of_cons. case_decide; naive_solver.
  - intros j b sl. simpl. rewrite lookup_insert. case_decide; [intros [= <-]; simpl; set_solver|apply H4].
  - assert (Hbl : (block_of (add_allocator i a s.2) <$> entries (add_allocator i a s.2)) =
      (block_of s.2 <$> entries s.2)); [|simpl; by rewrite Hbl].
    unfold entries. simpl. unfold slabs_of at 1. simpl. rewrite lookup_insert_eq. simpl.
    assert (Hne : ∀ k, (∀ j, j ∈ k → j ∈ ss_list s.2) → (k ≫= λ j, pair j <$> slabs_of (add_allocator i a s.2) j) =
      (k ≫= λ j, pair j <$> slabs_of s.2 j)).
    { intros k Hk. induction k as [|j k IH]; [done|]. rewrite !bind_cons, IH by set_solver. f_equal.
      unfold slabs_of. simpl. rewrite lookup_insert_ne; [done|]. intros ->. apply Hi, Hk. set_solver. }
    rewrite Hne by done. apply list_fmap_ext. intros n [j sl] Hj.
    apply list_elem_of_lookup_2 in Hj. apply (elem_of_entries _ _ _ _ _ HS) in Hj as (b & Hb & _).
    unfold block_of. simpl. rewrite lookup_insert_ne; [done|]. congruence.
  - intros j o. rewrite H6. unfold live. simpl. split; intros (b & sl & x & Hb & Hsl & ?).
    + exists b, sl, x. rewrite lookup_insert_ne by congruence. done.
    + rewrite lookup_insert in Hb. case_decide; [simplify_eq; simpl in Hsl; set_solver|]. by exists b, sl, x.
Qed.

(** ** kmalloc *)

(** The invariant with [slab_allocator_allocator] at [saa], outside the pages
    that are managed: every other allocator is one of its objects.  [K] are the
    pointers kmalloc has returned; the word in front of each names its allocator. *)
Record kinv (saa : Z) (s : pstate * sstate) (B : list block) (L : list (Z * Z)) (K : list Z) : Prop := {
  ki_sinv : sinv s B L;
  ki_saa : saa ∈ ss_list s.2;
  ki_static r : r ∈ ranges s.1 → ¬ r.1 ≤ saa < r.2;
  ki_allocs j : j ∈ ss_list s.2 → j = saa ∨ (saa, j - 4) ∈ L;
  ki_kmalloc k cs : ss_kmalloc s.2 !! k = Some cs → cs ≠ saa ∧
    ∃ a, ss_allocators s.2 !! cs = Some a ∧ sa_objsize a = Z.shiftl 1 (Z.of_nat k + 6) + 8;
  ki_headers p : p ∈ K → ∃ cs, ss_headers s.2 !! (p - 4) = Some cs ∧ cs ∈ ss_kmalloc s.2 ∧ (cs, p - 8) ∈ L;
  ki_nodup : NoDup K
}.

(** Keeping the rest keeps the invariant when no object a list names is lost. *)
Lemma kinv_keeps saa s s' B B' L L' K K' :
  kinv saa s B L K → keeps s s' → sinv s' B' L' → (∀ p, p ∈ K' → p ∈ K) → NoDup K' →
  (∀ j, (saa, j) ∈ L → (saa, j) ∈ L') →
  (∀ p cs, p ∈ K' → cs ∈ ss_kmalloc s.2 → cs ≠ saa → (cs, p - 8) ∈ L → (cs, p - 8) ∈ L') →
  kinv saa s' B' L' K'.
Proof.
  intros [I1 I2 I3 I4 I5 I6 I7] [P1 P2 P3 P4 P5] HS' Hsub Hnd Hsaa Hk. split; try done.
  - by rewrite P4.
  - rewrite P1. auto.
  - rewrite P4. intros j [->|?]%I4; auto.
  - rewrite P3. intros k cs Hcs. destruct (I5 k cs Hcs) as (? & a & Ha & Hsz). split; [done|].
    destruct (P5 _ _ Ha) as [l Hl]. by exists (with_slabs l a).
  - intros p Hp. destruct (I6 p (Hsub p Hp)) as (cs & Hh & Hin & HL). rewrite P2, P3.
    exists cs. split_and!; [done..|]. apply Hk; [done|done| |done].
    apply list_elem_of_lookup in Hin as [k Hcs]. by destruct (I5 k cs Hcs).
Qed.

Lemma kinv_more saa s s' B B' L L' K :
  kinv saa s B L K → keeps s s' → sinv s' B' L' → (∀ e, e ∈ L → e ∈ L') → kinv saa s' B' L' K.
Proof. intros HK Hk HS Hsub. by eapply kinv_keeps; [..|apply HK| |]; eauto. Qed.

(** A new object is not an allocator. *)
Lemma fresh_allocator saa s s' B L K o :
  kinv saa s B L K → keeps s s' → (saa, o) ∉ L → sinv s' B ((saa, o) :: L) → o + 4 ∉ ss_list s.2.
Proof.
  intros HK Hk Hno HS' Hin. destruct (ki_allocs _ _ _ _ _ HK _ Hin) as [E|HL].
  - destruct (live_in_ranges s' _ _ saa o HS') as (r & Hr & H1 & H2); [set_solver|].
    apply (ki_static _ _ _ _ _ HK r); [by rewrite <- (kp_ranges _ _ Hk)|lia].
  - by replace (o + 4 - 4) with o in HL by lia.
Qed.

(** The object sizes the largest block of pages has room for. *)
Definition max_size : Z := max_objsize - 8.

Lemma create_run saa s B L K name size :
  kinv saa s B L K → 0 ≤ size ≤ max_size →
  (∃ i s' a, slab_allocator_create name size saa s = RRet i s' ∧ i ≠ NULL ∧ i ∉ ss_list s.2 ∧
     kinv saa s' B ((saa, i - 4) :: L) K ∧ ss_list s'.2 = i :: ss_list s.2 ∧ ss_kmalloc s'.2 = ss_kmalloc s.2 ∧
     ranges s'.1 = ranges s.1 ∧ ss_allocators s'.2 !! i = Some a ∧ sa_objsize a = size + 8 ∧
     ∀ j b, ss_allocators s.2 !! j = Some b → ∃ l, ss_allocators s'.2 !! j = Some (with_slabs l b)) ∨
  (∃ s' n, slab_allocator_create name size saa s = RRet NULL s' ∧ exhausted s saa ∧ reclaimed s s' n ∧
     kinv saa s' B L K).
Proof.
  intros HK Hs. unfold slab_allocator_create.
  destruct (obj_alloc_run s B L saa (ki_sinv _ _ _ _ _ HK) (ki_saa _ _ _ _ _ HK))
    as [(o & s1 & Hrun & Hpos & Hk & Hno & HS1)|(s1 & n & Hrun & Hex & Hrc & HS1 & _)];
    erewrite kbind_of_ret by exact Hrun; cbn beta iota.
  - left. pose proof (fresh_allocator _ _ _ _ _ _ _ HK Hk Hno HS1) as Hfr. unfold sizeof_redzone.
    pose proof (kinv_more _ _ _ _ _ _ _ _ HK Hk HS1 ltac:(set_solver)) as HK1.
    destruct (alloc_init_run s1 B _ (o + 4) name size HS1) as (a & Hr2 & Esl & Esz & _ & HS2);
      [by rewrite (kp_list _ _ Hk)|done|].
    assert (Hnone : ss_allocators s1.2 !! (o + 4) = None).
    { destruct (_ !! _) as [b|] eqn:E; [|done]. apply (si_alloc _ _ _ HS1) in E as [E _].
      by rewrite (kp_list _ _ Hk) in E. }
    exists (o + 4), (s1.1, add_allocator (o + 4) a s1.2), a.
    replace (o + 4 - 4) with o by lia. rewrite (proj2 (Z.eqb_neq (o + 4) NULL)) by (unfold NULL; lia).
    split_and!; [by erewrite kbind_of_ret by exact Hr2|unfold NULL; lia|done| | |apply Hk|apply Hk| |done|].
    + destruct HK1 as [_ I2 I3 I4 I5 I6 I7]. split; try done; simpl.
      * set_solver.
      * intros j [->|Hj]%elem_of_cons; [right; replace (o + 4 - 4) with o by lia; set_solver|auto].
      * intros k cs Hcs. destruct (I5 k cs Hcs) as (? & b & Hb & ?). split; [done|]. exists b.
        rewrite lookup_insert_ne by congruence. done.
    + simpl. by rewrite (kp_list _ _ Hk).
    + apply lookup_insert_eq.
    + intros j b Hb. destruct (kp_alloc _ _ Hk j b Hb) as [l Hl]. exists l. simpl.
      rewrite lookup_insert_ne by congruence. done.
  - right. exists s1, n. split_and!; [done..|]. eapply kinv_more; [done|by eapply reclaimed_keeps|done|done].
Qed.

Lemma sinv_headers f s B L : sinv s B L → sinv (s.1, set_headers f s.2) B L.
Proof. intros []. by split. Qed.

(** The allocator kmalloc picks: the first whose size is large enough. *)
Lemma kmalloc_order size :
  0 ≤ size ≤ 2 ^ 18 - 4 →
  ∃ k, list_find (λ order, u32 (size + 4) ≤ Z.shiftl 1 order)
         (seqZ KMALLOC_SIZE_MIN_ORDER (KMALLOC_SIZE_MAX_ORDER - KMALLOC_SIZE_MIN_ORDER + 1)) =
       Some (k, Z.of_nat k + 6) ∧ (k < 13)%nat ∧ size + 4 ≤ Z.shiftl 1 (Z.of_nat k + 6).
Proof.
  intros Hs. rewrite u32_small by lia.
  destruct (list_find _ _) as [[k o]|] eqn:E.
  - apply list_find_Some in E as (Hk & Hle & _). apply lookup_seqZ in Hk as [-> Hlt].
    unfold KMALLOC_SIZE_MIN_ORDER, KMALLOC_SIZE_MAX_ORDER in *. exists k.
    rewrite (Z.add_comm 6) in *. split_and!; [done|lia|done].
  - apply list_find_None in E. rewrite Forall_forall in E. exfalso. apply (E 18).
    + apply elem_of_seqZ. unfold KMALLOC_SIZE_MIN_ORDER, KMALLOC_SIZE_MAX_ORDER. lia.
    + change (Z.shiftl 1 18) with (2 ^ 18). lia.
Qed.

Lemma kmalloc_run saa s B L K size :
  kinv saa s B L K → length (ss_kmalloc s.2) = 13%nat → 0 ≤ size ≤ 2 ^ 18 - 4 →
  (∃ p cs a s', kmalloc size s = RRet p s' ∧ 8 < p ∧ (cs, p - 8) ∉ L ∧ p ∉ K ∧
     ss_kmalloc s'.2 = ss_kmalloc s.2 ∧ ss_list s'.2 = ss_list s.2 ∧ cs ∈ ss_kmalloc s.2 ∧
     kinv saa s' B ((cs, p - 8) :: L) (p :: K) ∧ ss_headers s'.2 !! (p - 4) = Some cs ∧ ss_allocators s'.2 !! cs = Some a ∧ p + size ≤ rear_rz a (p - 8)) ∨
  (∃ s' n, kmalloc size s = RRet NULL s' ∧ reclaimed s s' n ∧ kinv saa s' B L K).
Proof.
  intros HK Hlen Hs. destruct (kmalloc_order size Hs) as (k & Hf & Hk & Hle).
  destruct (lookup_lt_is_Some_2 (ss_kmalloc s.2) k) as [cs Hcs]; [lia|].
  destruct (ki_kmalloc _ _ _ _ _ HK k cs Hcs) as (Hne & a & Ha & Hsz).
  assert (Hi : cs ∈ ss_list s.2) by (by apply (si_alloc _ _ _ (ki_sinv _ _ _ _ _ HK) cs a)).
  assert (kmalloc size s = (let* addr := slab_obj_alloc cs in
    if addr =? NULL then kret NULL else upd_ss (set_headers <[addr := cs]>) ;;; kret (addr + 4)) s) as ->.
  { unfold kmalloc. rewrite Hf. unfold kget. unfold kbind at 1. cbn [rbind]. rewrite Hcs. done. }
  destruct (obj_alloc_run s B L cs (ki_sinv _ _ _ _ _ HK) Hi)
    as [(o & s1 & Hrun & Hpos & Hkp & Hno & HS1)|(s1 & n & Hrun & Hex & Hrc & HS1 & _)];
    erewrite kbind_of_ret by exact Hrun; cbn beta iota.
  - left. unfold sizeof_redzone. rewrite (proj2 (Z.eqb_neq (o + 4) NULL)) by (unfold NULL; lia).
    destruct (kp_alloc _ _ Hkp cs a Ha) as [l Hl].
    pose proof (kinv_more _ _ _ _ _ _ _ _ HK Hkp HS1 ltac:(set_solver)) as HK1.
    assert (HpK : o + 8 ∉ K).
    { intros Hin. destruct (ki_headers _ _ _ _ _ HK _ Hin) as (cs' & _ & Hcs' & HL).
      replace (o + 8 - 8) with o in HL by lia. assert (cs' ≠ cs) by congruence.
      apply list_elem_of_lookup in Hcs' as [k' Hk'].
      destruct (ki_kmalloc _ _ _ _ _ HK k' cs' Hk') as (_ & b & Hb & _).
      destruct (kp_alloc _ _ Hkp cs' b Hb) as [l' Hl'].
      pose proof (stride_pos _ (proj2 (si_alloc _ _ _ HS1 _ _ Hl'))).
      pose proof (stride_pos _ (proj2 (si_alloc _ _ _ HS1 _ _ Hl))).
      destruct (live_apart s1 B _ cs' o (with_slabs l' b) cs o (with_slabs l a) HS1); [set_solver|set_solver|congruence|done|done|lia|lia]. }
    exists (o + 8), cs, (with_slabs l a), (s1.1, set_headers <[o + 4 := cs]> s1.2).
    replace (o + 8 - 8) with o by lia. replace (o + 8 - 4) with (o + 4) by lia.
    split_and!; [cbv [upd_ss kmodify kbind kret]; simpl; f_equal; lia|lia|done|done|apply Hkp|apply Hkp|by eapply list_elem_of_lookup_2| | |done|].
    + destruct HK1 as [_ I2 I3 I4 I5 I6 I7]. split; try done; simpl.
      * by apply sinv_headers.
      * intros q [->|Hq]%elem_of_cons.
        -- exists cs. replace (o + 8 - 4) with (o + 4) by lia. replace (o + 8 - 8) with o by lia.
           rewrite lookup_insert_eq, (kp_kmalloc _ _ Hkp). split_and!; [done| |set_solver].
           by eapply list_elem_of_lookup_2.
        -- destruct (I6 q Hq) as (c & Hc & Hin & HL). exists c. rewrite lookup_insert_ne; [done|].
           intros E. apply HpK. by replace (o + 8) with q by lia.
      * by constructor.
    + apply lookup_insert_eq.
    + unfold rear_rz, sizeof_redzone. simpl. lia.
  - right. exists s1, n. split_and!; [done..|]. eapply kinv_more; [done|by eapply reclaimed_keeps|done|done].
Qed.

Lemma kfree_run saa s B L K p cs :
  kinv saa s B ((cs, p - 8) :: L) K → p ∈ K → ss_headers s.2 !! (p - 4) = Some cs →
  ∃ s', kfree p s = RRet tt s' ∧ keeps s s' ∧ kinv saa s' B L (filter (.≠ p) K).
Proof.
  intros HK Hp Hcs. pose proof (ki_sinv _ _ _ _ _ HK) as HS.
  destruct (obj_free_run s B L cs (p - 8) HS) as (s' & Hrun & Hk & HS').
  exists s'. unfold kfree, kget. unfold kbind at 1. cbn [rbind]. rewrite Hcs. unfold kderef. unfold kbind at 1.
  cbn [rbind]. replace (p - 8 + sizeof_redzone) with (p - 4) in Hrun by (unfold sizeof_redzone; lia).
  split_and!; [done|done|].
  assert (Hcne : cs ≠ saa).
  { destruct (ki_headers _ _ _ _ _ HK p Hp) as (cs' & Hcs' & Hin & _). simplify_eq.
    apply list_elem_of_lookup in Hin as [k Hin]. by destruct (ki_kmalloc _ _ _ _ _ HK k cs Hin). }
  eapply kinv_keeps; [done..| | | |].
  - intros q. rewrite list_elem_of_filter. tauto.
  - apply NoDup_filter, HK.
  - intros j [[= -> _]|?]%elem_of_cons; done.
  - intros q c. rewrite list_elem_of_filter. intros [Hne _] _ _ [[= _ ?]|?]%elem_of_cons; [lia|done].
Qed.

(** ** Booting *)

(** An allocator with a slab and few objects is not exhausted. *)
Lemma few_objects s B L i a sl :
  sinv s B L → ss_allocators s.2 !! i = Some a → sl ∈ sa_slabs a → Z.of_nat (length L) < sa_slab_nobjs a →
  ¬ exhausted s i.
Proof.
  intros HS Ha Hsl Hlen (a' & Ha' & _ & Hfull). simplify_eq. destruct (si_alloc _ _ _ HS i a Ha) as [_ Hf].
  destruct (si_slab _ _ _ HS _ _ _ Ha Hsl) as (x & fl & Hx & Hok). specialize (Hfull sl x Hsl Hx).
  pose proof (so_inuse _ _ _ _ _ _ Hok) as Hin. destruct fl; [|simpl in Hin; lia].
  assert (Hsub : (pair i <$> objs a (s_addr x)) ⊆+ L).
  { apply NoDup_submseteq.
    - apply NoDup_fmap_2; [intros ?? [=]; done|]. unfold objs.
      apply NoDup_fmap_2_strong; [|apply NoDup_seqZ]. intros. by eapply obj_at_inj.
    - intros ? (o & -> & Ho)%list_elem_of_fmap. apply (si_live _ _ _ HS). exists a, sl, x.
      split_and!; try done. by apply (so_used _ _ _ _ _ _ Hok); [|set_solver]. }
  apply submseteq_length in Hsub. unfold objs in Hsub. rewrite !length_fmap, length_seqZ in Hsub. lia.
Qed.

Lemma shiftl_le o : 0 ≤ o ≤ 18 → 0 ≤ Z.shiftl 1 o ≤ max_size.
Proof.
  intros Ho. rewrite Z.shiftl_1_l. split; [apply Z.pow_nonneg; lia|].
  transitivity (2 ^ 18); [apply Z.pow_le_mono_r; lia|done].
Qed.

Lemma init_kmalloc_run saa B names s L a :
  kinv saa s B L [] → ss_allocators s.2 !! saa = Some a → 13 ≤ sa_slab_nobjs a →
  length L = length (ss_kmalloc s.2) → (length L + length names ≤ 13)%nat → (∀ e, e ∈ L → e.1 = saa) →
  (L = [] → ¬ no_block s.1 (sa_order a)) →
  ∃ s' L', init_kmalloc saa (6 + Z.of_nat (length L)) names s = RRet tt s' ∧ kinv saa s' B L' [] ∧
    length (ss_kmalloc s'.2) = (length L + length names)%nat ∧ ranges s'.1 = ranges s.1.
Proof.
  revert s L a. induction names as [|name names IH]; intros s L a HK Ha Hn Hlen Hle Hsaa Hfree; cbn [init_kmalloc].
  { exists s, L. split_and!; [done..| |done]. simpl. lia. }
  simpl in Hle. destruct (create_run saa s B L [] (Some name) (Z.shiftl 1 (6 + Z.of_nat (length L))) HK)
    as [(i & s1 & b & Hrun & Hi & Hfr & HK1 & El & Ek & Erg & Hb & Hsz & Hkeep)|(s1 & n & _ & Hex & _)];
    [apply shiftl_le; lia| |].
  - destruct (Hkeep saa a Ha) as [l Hl]. erewrite kbind_of_ret by exact Hrun. cbn beta iota.
    rewrite (proj2 (Z.eqb_neq i NULL)) by done. unfold upd_ss, kmodify. unfold kbind at 1. cbn [rbind].
    assert (HK2 : kinv saa (s1.1, set_kmalloc (λ l, l ++ [i]) s1.2) B ((saa, i - 4) :: L) []).
    { destruct HK1 as [HS1 I2 I3 I4 I5 I6 I7]. split; try done; [by destruct HS1; split| |set_solver]. simpl.
      intros k cs. rewrite lookup_app_Some, Ek. intros [Hk|[Hk [Hk' ->]%list_lookup_singleton_Some]].
      - apply I5. by rewrite Ek.
      - split; [intros ->; by apply Hfr, HK|]. exists b. split; [done|]. rewrite Hsz. do 2 f_equal.
        rewrite Hlen. lia. }
    edestruct (IH _ _ (with_slabs l a) HK2) as (s' & L' & Hr & HK' & Hk' & Hrg'); [done|done| | | |done|].
    + simpl. rewrite length_app, Ek, Hlen. simpl. lia.
    + simpl. lia.
    + intros e [->|?]%elem_of_cons; auto.
    + exists s', L'. simpl in *. split_and!; [|done|lia|congruence].
      by replace (6 + Z.of_nat (length L) + 1) with (6 + Z.of_nat (S (length L))) by lia.
  - exfalso. destruct L as [|[j o] L].
    + destruct Hex as (a' & Ha' & Hno & _). simplify_eq. by apply Hfree.
    + assert (j = saa) as -> by (apply (Hsaa (j, o)); set_solver).
      destruct (live_place _ _ _ saa o a (ki_sinv _ _ _ _ _ HK) Ha) as (sl & x & Hsl & _); [set_solver|].
      eapply few_objects; [apply HK|done|done| |done]. simpl in *. lia.
Qed.

(** The allocator structures before slab_init. *)
Definition empty_sstate : sstate := SState ∅ [] ∅ ∅ ∅ ∅ [].

Lemma empty_sinv p B : pinv p B → sinv (p, empty_sstate) B [].
Proof.
  intros Hp. split; simpl; try done; try set_solver.
  - constructor.
  - intros i o. split; [set_solver|]. intros (a & ? & ? & Ha & _). done.
  - constructor.
Qed.

Lemma slab_init_run saa p B :
  pinv p B → (∀ r, r ∈ ranges p → ¬ r.1 ≤ saa < r.2) →
  (∀ order nobjs, _calc_slab_size (sizeof_allocator + 8) = Some (order, nobjs) → ¬ no_block p order) →
  ∃ s' L, slab_init saa (p, empty_sstate) = RRet tt s' ∧ kinv saa s' B L [] ∧
    length (ss_kmalloc s'.2) = 13%nat ∧ ranges s'.1 = ranges p.
Proof.
  intros Hp Hst Hfree. destruct (alloc_init_run (p, empty_sstate) B [] saa (Some "slab_allocators") sizeof_allocator)
    as (a & Hrun & Esl & Esz & Hcalc & HS);
    [by apply empty_sinv|apply not_elem_of_nil|unfold sizeof_allocator, max_objsize, sizeof_slab, sizeof_bufctl; lia|].
  unfold slab_init. erewrite kbind_of_ret by exact Hrun. cbn beta iota.
  pose proof (Hfree _ _ Hcalc) as Hno.
  assert (Hn : 13 ≤ sa_slab_nobjs a).
  { clear -Hcalc. destruct a as [??? order nobjs]. cbn [sa_order sa_slab_nobjs] in *.
    vm_compute in Hcalc. injection Hcalc as _ <-. lia. }
  clear Hfree Hcalc Hrun.
  destruct (init_kmalloc_run saa B kmalloc_allocator_names (p, add_allocator saa a empty_sstate) [] a)
    as (s' & L' & Hr & HK & Hl & Hrg); [|apply lookup_insert_eq|done|done|reflexivity|set_solver|done|].
  - split; [done|apply list_elem_of_here|done| | |set_solver|constructor].
    + intros j. simpl. rewrite list_elem_of_singleton. auto.
    + intros k cs. simpl. done.
  - exists s', L'. done.
Qed.

(** * The properties *)

(** C25. slab_obj_alloc returns an object no one holds, or NULL.  The new object
    and its bufctl share no byte with another allocated object or with a block of
    pages allocated by others, and the allocators stay well-formed.  NULL is
    returned only when every slab of the allocator is full and no block large
    enough is free; then the unused slabs of all allocators were given back. *)
Theorem slab_obj_alloc_correct s B L i :
  sinv s B L → i ∈ ss_list s.2 →
  (∃ o a s', slab_obj_alloc i s = RRet (o + sizeof_redzone) s' ∧ 0 < o ∧ (i, o) ∉ L ∧
     sinv s' B ((i, o) :: L) ∧ ss_allocators s'.2 !! i = Some a ∧
     (∀ j o' b, (j, o') ∈ L → ss_allocators s'.2 !! j = Some b → o + stride a ≤ o' ∨ o' + stride b ≤ o) ∧
     (∀ c d, (c, d) ∈ B → o + stride a ≤ d ∨ d + bytes_of c ≤ o)) ∨
  (∃ n s', slab_obj_alloc i s = RRet NULL s' ∧ exhausted s i ∧ sinv s' B L ∧
     ps_freecount s'.1 = ps_freecount s.1 + n ∧ ∀ j, j ∈ ss_list s.2 → all_used s'.2 j).
Proof.
  intros HS Hi. destruct (obj_alloc_run s B L i HS Hi)
    as [(o & s' & Hr & Hpos & Hk & Hno & HS')|(s' & n & ? & ? & Hrc & ? & ?)].
  - left. destruct (si_list _ _ _ HS i Hi) as [a Ha]. destruct (kp_alloc _ _ Hk i a Ha) as [l Hl].
    exists o, (with_slabs l a), s'. split_and!; try done.
    + intros j o' b Hj Hb. eapply (live_apart s' B _ i o _ j o' b HS'); [set_solver|set_solver| |done|done]. congruence.
    + intros c d Hcd. eapply (live_apart_block s' B _ i o); [done|set_solver|done|done].
  - right. exists n, s'. split_and!; try done. apply Hrc.
Qed.

(** C28. slab_allocators_reclaim gives unused slabs back to the page allocator: it
    returns the number of pages freed, no allocated object is lost, and with a
    target of zero or less no unused slab is left. *)
Theorem slab_allocators_reclaim_correct s B L target :
  sinv s B L →
  ∃ n s', slab_allocators_reclaim target s = RRet n s' ∧ 0 ≤ n ∧ sinv s' B L ∧
    ps_freecount s'.1 = ps_freecount s.1 + n ∧ ss_list s'.2 = ss_list s.2 ∧
    (target ≤ 0 → ∀ i, i ∈ ss_list s.2 → all_used s'.2 i).
Proof.
  intros HS. destruct (reclaim_run s B L target HS) as (n & s' & ? & ? & [] & ?). exists n, s'. done.
Qed.

(** slab_init leaves the allocator of allocators and the thirteen kmalloc
    allocators, for the sizes 64 to 262144, well-formed, when the page allocator
    has a block for a slab of allocators; it does not panic. *)
Theorem slab_init_correct saa p B :
  pinv p B → (∀ r, r ∈ ranges p → ¬ r.1 ≤ saa < r.2) →
  (∀ order nobjs, _calc_slab_size (sizeof_allocator + 8) = Some (order, nobjs) → ¬ no_block p order) →
  ∃ s' L, slab_init saa (p, empty_sstate) = RRet tt s' ∧ kinv saa s' B L [] ∧
    length (ss_kmalloc s'.2) = 13%nat.
Proof. intros Hp Hr Hno. destruct (slab_init_run saa p B Hp Hr Hno) as (s' & L & ? & ? & ? & _). by exists s', L. Qed.

(** C26. kmalloc of at most 262140 bytes returns NULL or a new pointer with the
    bytes asked for in front of the rear red zone of its object; the object and
    those behind the pointers returned before share no byte. *)
Theorem kmalloc_correct saa s B L K size :
  kinv saa s B L K → length (ss_kmalloc s.2) = 13%nat → 0 ≤ size ≤ 2 ^ 18 - 4 →
  (∃ p cs a s', kmalloc size s = RRet p s' ∧ 8 < p ∧ p ∉ K ∧ kinv saa s' B ((cs, p - 8) :: L) (p :: K) ∧
     ss_allocators s'.2 !! cs = Some a ∧ p + size ≤ rear_rz a (p - 8) ∧ ss_kmalloc s'.2 = ss_kmalloc s.2 ∧
     ∀ q cs' b, q ∈ K → ss_headers s'.2 !! (q - 4) = Some cs' → ss_allocators s'.2 !! cs' = Some b →
       p - 8 + stride a ≤ q - 8 ∨ q - 8 + stride b ≤ p - 8) ∨
  (∃ s' n, kmalloc size s = RRet NULL s' ∧ reclaimed s s' n ∧ kinv saa s' B L K).
Proof.
  intros HK Hl Hs. destruct (kmalloc_run saa s B L K size HK Hl Hs)
    as [(p & cs & a & s' & Hr & Hp & Hno & HnK & Hk & _ & _ & HK' & Hh & Ha & Hle)|?]; [left|by right].
  exists p, cs, a, s'. split_and!; try done. intros q cs' b Hq Hc Hb.
  destruct (ki_headers _ _ _ _ _ HK' q) as (c & Hc' & _ & HL); [set_solver|]. simplify_eq.
  eapply (live_apart s' B _ cs (p - 8) a cs' (q - 8) b (ki_sinv _ _ _ _ _ HK')); [set_solver|done| |done|done]. intros [= _ E].
  apply HnK. by replace p with q by lia.
Qed.

(** C27. kfree takes back any pointer kmalloc has returned and not yet got back:
    the object is free again and everything else stays allocated. *)
Theorem kfree_correct saa s B L K p :
  kinv saa s B L K → p ∈ K →
  ∃ cs L' s', L ≡ₚ (cs, p - 8) :: L' ∧ kfree p s = RRet tt s' ∧ kinv saa s' B L' (filter (.≠ p) K).
Proof.
  intros HK Hp. destruct (ki_headers _ _ _ _ _ HK p Hp) as (cs & Hcs & _ & HL).
  apply elem_of_Permutation in HL as [L' HL].
  destruct (kfree_run saa s B L' K p cs) as (s' & ? & _ & ?); [|done|done|by exists cs, L', s'].
  eapply kinv_keeps; [done|by apply keeps_same|by eapply sinv_perm, HK|done|apply HK|..];
    intros *; by rewrite HL.
Qed.

Module Example.

(** A machine with the 128 pages of the page allocator's example, and the static
    allocator below them. *)
Definition saa : Z := 0x8000.

Definition boot : pstate := PState (option_list PageAlloc.Example.boot_group) 128.

Lemma boot_pages :
  ∃ p, p = boot ∧ pinv p [] ∧ (∀ r, r ∈ ranges p → ¬ r.1 ≤ saa < r.2) ∧ ∀ order, order < 8 → ¬ no_block p order.
Proof.
  destruct PageAlloc.Example.boot_ready as (g & Hb & Hp & Eb & Ee & Hl).
  exists (PState [g] 128). split_and!.
  - unfold boot. rewrite Hb. reflexivity.
  - done.
  - intros r. unfold ranges. simpl. rewrite list_elem_of_singleton. intros ->. simpl. rewrite Eb.
    unfold PageAlloc.Example.start, saa. lia.
  - intros order Ho Hno. assert (pg_freelist g top = []) as E; [|by rewrite E in Hl].
    apply Hno; [set_solver|]. unfold top, PAGE_NSIZES. lia.
Qed.

Lemma calc_order order nobjs : _calc_slab_size (sizeof_allocator + 8) = Some (order, nobjs) → order < 8.
Proof. vm_compute. intros [= <- _]. done. Qed.

Lemma slab_init_correct_witness :
  ∃ p s' L, slab_init saa (p, empty_sstate) = RRet tt s' ∧ kinv saa s' [] L [].
Proof.
  destruct boot_pages as (p & _ & Hp & Hr & Hno).
  destruct (slab_init_correct saa p [] Hp Hr) as (s' & L & H1 & H2 & _);
    [intros order nobjs Hc; apply Hno; exact (calc_order order nobjs Hc)|].
  exists p, s', L. split; [exact H1|exact H2].
Defined.

Lemma booted : ∃ s L, kinv saa s [] L [] ∧ length (ss_kmalloc s.2) = 13%nat.
Proof.
  destruct boot_pages as (p & _ & Hp & Hr & Hno).
  destruct (slab_init_run saa p [] Hp Hr) as (s' & L & _ & H2 & H3 & _);
    [intros order nobjs Hc; apply Hno; exact (calc_order order nobjs Hc)|].
  by exists s', L.
Qed.

Lemma slab_obj_alloc_correct_witness :
  ∃ s r s', slab_obj_alloc saa s = RRet r s' ∧ saa ∈ ss_list s.2.
Proof.
  destruct booted as (s & L & HK & _).
  destruct (slab_obj_alloc_correct s [] L saa (ki_sinv _ _ _ _ _ HK) (ki_saa _ _ _ _ _ HK))
    as [(o & a & s' & Hr & _)|(n & s' & Hr & _)]; eexists s, _, s'; split; [exact Hr|apply HK|exact Hr|apply HK].
Defined.

Lemma slab_allocators_reclaim_correct_witness :
  ∃ s n s', slab_allocators_reclaim 0 s = RRet n s' ∧ all_used s'.2 saa.
Proof.
  destruct booted as (s & L & HK & _).
  destruct (slab_allocators_reclaim_correct s [] L 0 (ki_sinv _ _ _ _ _ HK)) as (n & s' & Hr & _ & _ & _ & _ & Hu).
  exists s, n, s'. split; [exact Hr|]. apply Hu; [lia|apply HK].
Defined.

Lemma kmalloc_correct_witness :
  ∃ s r s' L K, kmalloc 100 s = RRet r s' ∧ kinv saa s' [] L K.
Proof.
  destruct booted as (s & L & HK & Hl).
  destruct (kmalloc_correct saa s [] L [] 100 HK Hl) as [(p & cs & a & s' & Hr & _ & _ & HK' & _)|(s' & n & Hr & _ & HK')];
    [lia| |]; eexists s, _, s', _, _; split; [exact Hr|exact HK'|exact Hr|exact HK'].
Defined.

(** The pointer of the first kmalloc. *)
Definition first_kmalloc : Z :=
  match slab_init saa (boot, empty_sstate) with
  | RRet _ s => match kmalloc 100 s with RRet p _ => p | _ => NULL end
  | _ => NULL
  end.

Lemma first_kmalloc_ok : (first_kmalloc =? NULL) = false.
Proof. vm_compute. reflexivity. Qed.

Lemma first_kmalloc_is s p s' :
  slab_init saa (boot, empty_sstate) = RRet tt s → kmalloc 100 s = RRet p s' → first_kmalloc = p.
Proof. intros H1 H2. unfold first_kmalloc. rewrite H1, H2. reflexivity. Qed.

Lemma allocated : ∃ s L, kinv saa s [] L [first_kmalloc].
Proof.
  destruct boot_pages as (p & -> & Hp & Hr & Hno).
  destruct (slab_init_run saa boot [] Hp Hr) as (s & L & Hrun & HK & Hl & _);
    [intros order nobjs Hc; apply Hno; exact (calc_order order nobjs Hc)|].
  assert (Hs : 0 ≤ 100 ≤ 2 ^ 18 - 4) by lia.
  destruct (kmalloc_run saa s [] L [] 100 HK Hl Hs) as [(q & cs & a & s' & Hq & _ & _ & _ & _ & _ & _ & HK' & _)|(s' & n & Hq & _)];
    pose proof (first_kmalloc_is _ _ _ Hrun Hq) as E.
  - exists s', ((cs, q - 8) :: L). rewrite E. exact HK'.
  - exfalso. pose proof first_kmalloc_ok as Hok. rewrite E in Hok. discriminate Hok.
Qed.

Lemma kfree_correct_witness :
  ∃ s L s', kfree first_kmalloc s = RRet tt s' ∧ kinv saa s' [] L [].
Proof.
  destruct allocated as (s & L & HK).
  destruct (kfree_correct saa s [] L [first_kmalloc] first_kmalloc HK) as (cs & L' & s' & _ & Hr & HK');
    [apply list_elem_of_here|].
  exists s, L', s'. split; [exact Hr|]. rewrite filter_cons_False in HK' by (intros H; exact (H eq_refl)).
  exact HK'.
Defined.

End Example.
