(* ===== verification/KMem.v ===== *)
(** What the memory allocators promise to the rest of the kernel.

    The file system takes its structures from slab_obj_alloc, kmalloc and
    page_alloc.  [KMem] names these operations and [KMemLaws] states what clients
    rely on: memory that is handed out is not NULL and not handed out already,
    memory that was handed out can be given back, and a call fails only by
    returning NULL.  The slab and page allocators of Slab and PageAlloc are shown
    to keep the promise. *)

From stdpp Require Import base numbers list gmap strings.
From S2P Require Import Prelude PageAlloc Slab.

Open Scope Z_scope.

(** A piece of memory a client holds: an object of an allocator, the result of a
    kmalloc, or a page. *)
Inductive piece :=
| PObj (allocator p : Z)
| PMalloc (p : Z)
| PPage (p : Z).

#[export] Instance piece_eq_dec : EqDecision piece.
Proof. solve_decision. Defined.

Class KMem (M : Type) := {
  km_obj_alloc : Z → kM M Z;
  km_obj_free : Z → Z → kM M unit;
  km_kmalloc : Z → kM M Z;
  km_kfree : Z → kM M unit;
  km_page_alloc : kM M Z;
  km_page_free : Z → kM M unit
}.

(** [alloc] hands out [piece p] for some new [p], or returns NULL. *)
Definition allocates {M} (inv : M → list piece → Prop) (c : kM M Z) (mk : Z → piece) (m : M) (H : list piece) : Prop :=
  (∃ p m', c m = RRet p m' ∧ 0 < p ∧ mk p ∉ H ∧ inv m' (mk p :: H)) ∨
  (∃ m', c m = RRet NULL m' ∧ inv m' H).

(** [km_inv A m H]: the allocators [A] exist and the clients hold [H]. *)
Class KMemLaws (M : Type) `{KMem M} := {
  km_inv : list Z → M → list piece → Prop;
  km_inv_perm A m H H' : H ≡ₚ H' → km_inv A m H → km_inv A m H';
  km_inv_nodup A m H : km_inv A m H → NoDup H;
  km_obj_alloc_ok A m H a : km_inv A m H → a ∈ A → allocates (km_inv A) (km_obj_alloc a) (PObj a) m H;
  km_obj_free_ok A m H a p : km_inv A m (PObj a p :: H) →
    ∃ m', km_obj_free a p m = RRet tt m' ∧ km_inv A m' H;
  km_kmalloc_ok A m H size : km_inv A m H → 0 ≤ size ≤ 2 ^ 18 - 4 →
    allocates (km_inv A) (km_kmalloc size) PMalloc m H;
  km_kfree_ok A m H p : km_inv A m (PMalloc p :: H) → ∃ m', km_kfree p m = RRet tt m' ∧ km_inv A m' H;
  km_page_pos A m H p : km_inv A m (PPage p :: H) → 0 < p;
  km_page_alloc_ok A m H : km_inv A m H → allocates (km_inv A) km_page_alloc PPage m H;
  km_page_free_ok A m H p : km_inv A m (PPage p :: H) → ∃ m', km_page_free p m = RRet tt m' ∧ km_inv A m' H
}.

(** * The kernel's allocators *)

#[export] Instance slab_kmem : KMem (pstate * sstate) := {
  km_obj_alloc := slab_obj_alloc;
  km_obj_free := slab_obj_free;
  km_kmalloc := kmalloc;
  km_kfree := kfree;
  km_page_alloc := let* a := page_alloc slab_allocators_reclaim in kret (default NULL a);
  km_page_free := page_free
}.

Lemma sinv_pages s B B' L p :
  sinv s B L → pinv p ((block_of s.2 <$> entries s.2) ++ B') → sinv (p, s.2) B' L.
Proof. intros [] ?. by split. Qed.

Lemma pinv_pos p A b : pinv p A → b ∈ A → 0 < b.2.
Proof.
  intros Hp Hb. destruct (pinv_blk _ _ b Hp Hb) as (i & g & Hg & _ & (_ & Hr & _)).
  destruct (pi_group _ _ Hp g) as (HG & _); [by eapply list_elem_of_lookup_2|].
  pose proof (gi_pos _ _ HG). lia.
Qed.

Lemma page_alloc_run s B L :
  sinv s B L →
  (∃ a s', page_alloc slab_allocators_reclaim s = RRet (Some a) s' ∧ 0 < a ∧ (0%nat, a) ∉ B ∧
     keeps s s' ∧ sinv s' ((0%nat, a) :: B) L) ∨
  (∃ s' n, page_alloc slab_allocators_reclaim s = RRet None s' ∧ reclaimed s s' n ∧ sinv s' B L).
Proof.
  intros HS. unfold page_alloc.
  destruct (page_alloc_order_run slab_allocators_reclaim s _ 0 (si_pages _ _ _ HS))
    as [(a & [p ss] & Hrun & Ess & _ & Hrg & Hp)|[_ Hrec]]; [unfold PAGE_NSIZES; lia| |].
  - left. simpl in Ess. subst ss. exists a, (p, s.2).
    assert (Hp' : pinv p ((block_of s.2 <$> entries s.2) ++ (0%nat, a) :: B)).
    { eapply pinv_Permutation; [|exact Hp]. solve_Permutation. }
    split_and!; [done| | | |by eapply sinv_pages].
    + apply (pinv_pos _ _ (0%nat, a) Hp). set_solver.
    + intros [B' HB]%elem_of_Permutation. pose proof (bytes_of_pos 0).
      assert (HP : (0%nat, a) :: (block_of s.2 <$> entries s.2) ++ B ≡ₚ
        (0%nat, a) :: (0%nat, a) :: (block_of s.2 <$> entries s.2) ++ B') by (rewrite HB; solve_Permutation).
      pose proof (live_disjoint _ _ _ _ _ Hp HP) as Hd. simpl in Hd. lia.
    + split; [done..|]. intros j b Hb. exists (sa_slabs b). by rewrite with_slabs_id.
  - right. destruct (reclaim_run s B L 0 HS) as (n & s' & Hrun & HS' & Hrc & _).
    exists s', n. split_and!; [by eapply Hrec|done|done].
Qed.

Lemma page_free_run s B L a :
  sinv s ((0%nat, a) :: B) L →
  ∃ s', page_free a s = RRet tt s' ∧ keeps s s' ∧ sinv s' B L.
Proof.
  intros HS. unfold page_free.
  destruct (page_free_order_run s ((block_of s.2 <$> entries s.2) ++ B) 0 a) as ([p ss] & Hrun & Ess & _ & Hrg & Hp).
  { eapply pinv_Permutation; [|apply (si_pages _ _ _ HS)]. solve_Permutation. }
  simpl in Ess. subst ss. exists (p, s.2). split_and!; [done| |by eapply sinv_pages].
  split; [done..|]. intros j b Hb. exists (sa_slabs b). by rewrite with_slabs_id.
Qed.

(** The pages among the pieces. *)
Definition page_of (x : piece) : option block := match x with PPage p => Some (0%nat, p) | _ => None end.

Lemma elem_of_pages (H : list piece) p : (0%nat, p) ∈ omap page_of H ↔ PPage p ∈ H.
Proof.
  rewrite list_elem_of_omap. split; [|by exists (PPage p)].
  intros ([| |q] & Hin & E); simplify_eq/=. done.
Qed.

Record smem_inv (A : list Z) (m : pstate * sstate) (H : list piece)
    (saa : Z) (B : list block) (L : list (Z * Z)) (K : list Z) : Prop := {
  sm_kinv : kinv saa m B L K;
  sm_count : length (ss_kmalloc m.2) = 13%nat;
  sm_allocs a : a ∈ A → a ∈ ss_list m.2 ∧ a ≠ saa ∧ a ∉ ss_kmalloc m.2;
  sm_nodup : NoDup H;
  sm_obj a p : PObj a p ∈ H → a ∈ A ∧ (a, p - 4) ∈ L;
  sm_malloc p : PMalloc p ∈ H → p ∈ K;
  sm_pages : ∃ B', B ≡ₚ omap page_of H ++ B'
}.

(** The step of a call: the pieces held afterwards are still there. *)
Lemma smem_step A m H saa B L K m' H' B' L' K' :
  smem_inv A m H saa B L K → ss_kmalloc m'.2 = ss_kmalloc m.2 → ss_list m'.2 = ss_list m.2 →
  kinv saa m' B' L' K' → NoDup H' →
  (∀ a p, PObj a p ∈ H' → a ∈ A ∧ (a, p - 4) ∈ L') → (∀ p, PMalloc p ∈ H' → p ∈ K') →
  (∃ B0, B' ≡ₚ omap page_of H' ++ B0) →
  smem_inv A m' H' saa B' L' K'.
Proof.
  intros [I1 I2 I3 I4 I5 I6 I7] Ek El. split; try done; [by rewrite Ek|]. rewrite Ek, El. done.
Qed.

Lemma smem_same A m H saa B L K m' :
  smem_inv A m H saa B L K → keeps m m' → sinv m' B L → smem_inv A m' H saa B L K.
Proof.
  intros HI Hk HS. eapply smem_step; [done|apply Hk|apply Hk| | | | |]; try apply HI.
  eapply kinv_more; [apply HI|done|done|done].
Qed.

Section Laws.
Context (A : list Z) (m : pstate * sstate) (H : list piece).

Definition slab_mem_inv (A : list Z) (m : pstate * sstate) (H : list piece) : Prop :=
  ∃ saa B L K, smem_inv A m H saa B L K.

Lemma slab_obj_alloc_ok a :
  slab_mem_inv A m H → a ∈ A → allocates (slab_mem_inv A) (slab_obj_alloc a) (PObj a) m H.
Proof.
  intros (saa & B & L & K & HI) Ha. destruct (sm_allocs _ _ _ _ _ _ _ HI a Ha) as (Hl & Hsaa & Hkm).
  pose proof (sm_kinv _ _ _ _ _ _ _ HI) as HK.
  destruct (obj_alloc_run m B L a (ki_sinv _ _ _ _ _ HK) Hl)
    as [(o & m' & Hr & Hpos & Hk & Hno & HS)|(m' & n & Hr & _ & Hrc & HS & _)].
  - left. exists (o + 4), m'. unfold sizeof_redzone in Hr.
    assert (Hn : PObj a (o + 4) ∉ H).
    { intros [_ Hin]%(sm_obj _ _ _ _ _ _ _ HI). by replace (o + 4 - 4) with o in Hin by lia. }
    split_and!; [done|lia|done|]. exists saa, B, ((a, o) :: L), K.
    eapply smem_step; [done|apply Hk|apply Hk| | | | |].
    + eapply kinv_more; [done..|set_solver].
    + constructor; [done|apply HI].
    + intros b p [[= -> ->]|Hin]%elem_of_cons.
      * replace (o + 4 - 4) with o by lia. set_solver.
      * destruct (sm_obj _ _ _ _ _ _ _ HI b p Hin). set_solver.
    + intros p [?|Hin]%elem_of_cons; [done|by apply HI].
    + apply HI.
  - right. exists m'. split; [done|]. exists saa, B, L, K.
    eapply smem_same; [done|by eapply reclaimed_keeps|done].
Qed.

Lemma slab_kmalloc_ok size :
  slab_mem_inv A m H → 0 ≤ size ≤ 2 ^ 18 - 4 → allocates (slab_mem_inv A) (kmalloc size) PMalloc m H.
Proof.
  intros (saa & B & L & K & HI) Hs. pose proof (sm_kinv _ _ _ _ _ _ _ HI) as HK.
  destruct (kmalloc_run saa m B L K size HK (sm_count _ _ _ _ _ _ _ HI) Hs)
    as [(p & cs & a & m' & Hr & Hp & Hno & HnK & Ek & El & Hcs & HK' & _)|(m' & n & Hr & Hrc & HK')].
  - left. exists p, m'. assert (Hn : PMalloc p ∉ H) by (by intros ?%(sm_malloc _ _ _ _ _ _ _ HI)).
    split_and!; [done|lia|done|]. exists saa, B, ((cs, p - 8) :: L), (p :: K).
    eapply smem_step; [done..| | | |].
    + constructor; [done|apply HI].
    + intros b q [?|Hin]%elem_of_cons; [done|]. destruct (sm_obj _ _ _ _ _ _ _ HI b q Hin). set_solver.
    + intros q [[= ->]|Hin]%elem_of_cons; [set_solver|]. apply elem_of_cons. right. by apply HI.
    + apply HI.
  - right. exists m'. split; [done|]. exists saa, B, L, K.
    eapply smem_same; [done|by eapply reclaimed_keeps|apply HK'].
Qed.

Lemma slab_page_alloc_ok :
  slab_mem_inv A m H → allocates (slab_mem_inv A) km_page_alloc PPage m H.
Proof.
  intros (saa & B & L & K & HI). pose proof (sm_kinv _ _ _ _ _ _ _ HI) as HK.
  destruct (sm_pages _ _ _ _ _ _ _ HI) as [B' HB].
  destruct (page_alloc_run m B L (ki_sinv _ _ _ _ _ HK)) as [(a & m' & Hr & Hp & Hno & Hk & HS)|(m' & n & Hr & Hrc & HS)].
  - left. exists a, m'. assert (Hn : PPage a ∉ H).
    { intros Hin%elem_of_pages. apply Hno. rewrite HB. set_solver. }
    split_and!; [simpl; by erewrite kbind_of_ret by exact Hr|done|done|].
    exists saa, ((0%nat, a) :: B), L, K. eapply smem_step; [done|apply Hk|apply Hk| | | | |].
    + by eapply kinv_more.
    + constructor; [done|apply HI].
    + intros b p [?|Hin]%elem_of_cons; [done|by apply HI].
    + intros p [?|Hin]%elem_of_cons; [done|by apply HI].
    + exists B'. simpl. by rewrite HB.
  - right. exists m'. split; [simpl; by erewrite kbind_of_ret by exact Hr|]. exists saa, B, L, K.
    eapply smem_same; [done|by eapply reclaimed_keeps|done].
Qed.

(** What is left when a piece is given back. *)
Lemma smem_free x saa B L K m' B' L' K' :
  smem_inv A m (x :: H) saa B L K → keeps m m' → sinv m' B' L' → NoDup K' → (∀ p, p ∈ K' → p ∈ K) →
  (∀ a p, (a, p) ∈ L → x = PObj a (p + 4) ∨ (∃ q, x = PMalloc q ∧ p = q - 8 ∧ a ∈ ss_kmalloc m.2) ∨ (a, p) ∈ L') →
  (∀ p, p ∈ K → x = PMalloc p ∨ p ∈ K') → (∀ p, x = PMalloc p → p ∉ K') →
  (∃ B0, B' ≡ₚ omap page_of H ++ B0) →
  smem_inv A m' H saa B' L' K'.
Proof.
  intros HI Hk HS HndK HsubK HL HK HpK HB. pose proof (sm_kinv _ _ _ _ _ _ _ HI) as HKI.
  pose proof (sm_nodup _ _ _ _ _ _ _ HI) as [Hx Hnd]%NoDup_cons.
  assert (Hal : ∀ a p, x = PObj a p → a ∈ A).
  { intros a p ->. apply (sm_obj _ _ _ _ _ _ _ HI a p). set_solver. }
  assert (Hsaa : ∀ k, ss_kmalloc m.2 !! k = Some saa → False).
  { intros k Hk'. by destruct (ki_kmalloc _ _ _ _ _ HKI k saa Hk'). }
  eapply smem_step; [done|apply Hk|apply Hk| |done| | |done].
  - eapply kinv_keeps; [done..| |].
    + intros j Hj. destruct (HL _ _ Hj) as [E|[(q & _ & _ & E)|?]]; [|exfalso|done].
      * apply Hal in E. by destruct (sm_allocs _ _ _ _ _ _ _ HI saa E) as (_ & ? & _).
      * apply list_elem_of_lookup in E as [k E]. eauto.
    + intros p cs Hp Hcs _ Hin. destruct (HL _ _ Hin) as [E|[(q & E & Eq & _)|?]]; [exfalso|exfalso|done].
      * apply Hal in E. by destruct (sm_allocs _ _ _ _ _ _ _ HI cs E) as (_ & _ & ?).
      * assert (q = p) as -> by lia. by apply (HpK p).
  - intros a p Hin. destruct (sm_obj _ _ _ _ _ _ _ HI a p) as [Ha HaL]; [set_solver|]. split; [done|].
    destruct (HL _ _ HaL) as [E|[(q & _ & _ & E)|?]]; [exfalso|exfalso|done].
    + apply Hx. rewrite E. by replace (p - 4 + 4) with p by lia.
    + by destruct (sm_allocs _ _ _ _ _ _ _ HI a Ha) as (_ & _ & ?).
  - intros p Hin. destruct (HK p) as [->|?]; [apply HI; set_solver| |done]. done.
Qed.

Lemma slab_obj_free_ok a p :
  slab_mem_inv A m (PObj a p :: H) → ∃ m', slab_obj_free a p m = RRet tt m' ∧ slab_mem_inv A m' H.
Proof.
  intros (saa & B & L & K & HI). pose proof (sm_kinv _ _ _ _ _ _ _ HI) as HK.
  destruct (sm_obj _ _ _ _ _ _ _ HI a p) as [Ha [L' HL]%elem_of_Permutation]; [set_solver|].
  destruct (obj_free_run m B L' a (p - 4)) as (m' & Hr & Hk & HS).
  { eapply sinv_perm; [done|apply HK]. }
  exists m'. unfold sizeof_redzone in Hr. replace (p - 4 + 4) with p in Hr by lia. split; [done|].
  exists saa, B, L', K. eapply smem_free; [done..|apply HK|done| | |done|apply HI].
  - intros b q. rewrite HL, elem_of_cons. intros [[= -> ->]|?]; [left; f_equal; lia|auto].
  - auto.
Qed.

Lemma slab_kfree_ok p :
  slab_mem_inv A m (PMalloc p :: H) → ∃ m', kfree p m = RRet tt m' ∧ slab_mem_inv A m' H.
Proof.
  intros (saa & B & L & K & HI). pose proof (sm_kinv _ _ _ _ _ _ _ HI) as HK.
  pose proof (sm_malloc _ _ _ _ _ _ _ HI p ltac:(set_solver)) as Hp.
  destruct (ki_headers _ _ _ _ _ HK p Hp) as (cs & Hcs & Hkm & [L' HL]%elem_of_Permutation).
  destruct (kfree_run saa m B L' K p cs) as (m' & Hr & Hk & HK'); [|done|done|].
  { eapply kinv_keeps; [done|by apply keeps_same|by eapply sinv_perm, HK|done|apply HK|..];
      intros *; by rewrite HL. }
  exists m'. split; [done|]. exists saa, B, L', (filter (.≠ p) K).
  eapply smem_free; [done|done|apply HK'|apply HK'| | | | |apply HI].
  - intros q. rewrite list_elem_of_filter. tauto.
  - intros b q. rewrite HL, elem_of_cons. intros [[= -> ->]|?]; [|auto]. right. left. by exists p.
  - intros q Hq. destruct (decide (q = p)) as [->|]; [by left|]. right. by apply list_elem_of_filter.
  - intros q [= <-] [? _]%list_elem_of_filter. done.
Qed.

Lemma slab_page_free_ok p :
  slab_mem_inv A m (PPage p :: H) → ∃ m', page_free p m = RRet tt m' ∧ slab_mem_inv A m' H.
Proof.
  intros (saa & B & L & K & HI). pose proof (sm_kinv _ _ _ _ _ _ _ HI) as HK.
  destruct (sm_pages _ _ _ _ _ _ _ HI) as [B' HB]. simpl in HB.
  destruct (page_free_run m (omap page_of H ++ B') L p) as (m' & Hr & Hk & HS).
  { destruct (ki_sinv _ _ _ _ _ HK). split; try done. eapply pinv_Permutation; [|done]. by rewrite HB. }
  exists m'. split; [done|]. exists saa, (omap page_of H ++ B'), L, K.
  eapply smem_free; [done..|apply HK|done|auto|auto|done|by exists B'].
Qed.
End Laws.

Lemma slab_mem_perm A m H H' : H ≡ₚ H' → slab_mem_inv A m H → slab_mem_inv A m H'.
Proof.
  intros HP (saa & B & L & K & [I1 I2 I3 I4 I5 I6 [B' HB]]). exists saa, B, L, K. split; try done.
  - by rewrite <- HP.
  - intros *. rewrite <- HP. auto.
  - intros *. rewrite <- HP. auto.
  - exists B'. by rewrite <- HP.
Qed.

Lemma slab_mem_nodup A m H : slab_mem_inv A m H → NoDup H.
Proof. by intros (saa & B & L & K & []). Qed.

Lemma slab_page_pos A m H p : slab_mem_inv A m (PPage p :: H) → 0 < p.
Proof.
  intros (saa & B & L & K & HI). destruct (sm_pages _ _ _ _ _ _ _ HI) as [B' HB].
  apply (pinv_pos _ _ (0%nat, p) (si_pages _ _ _ (ki_sinv _ _ _ _ _ (sm_kinv _ _ _ _ _ _ _ HI)))).
  rewrite HB. set_solver.
Qed.

#[export] Instance slab_kmem_laws : KMemLaws (pstate * sstate) := {
  km_inv := slab_mem_inv;
  km_inv_perm := slab_mem_perm;
  km_inv_nodup := slab_mem_nodup;
  km_obj_alloc_ok := slab_obj_alloc_ok;
  km_obj_free_ok := slab_obj_free_ok;
  km_kmalloc_ok := slab_kmalloc_ok;
  km_kfree_ok := slab_kfree_ok;
  km_page_pos := slab_page_pos;
  km_page_alloc_ok := slab_page_alloc_ok;
  km_page_free_ok := slab_page_free_ok
}.
