(* ===== verification/PageTable.v ===== *)
(** Page tables: kernel/mm/pagetable.c, with kernel/mm/phys.c.

    Physical memory is kept by page frames of 1024 words.  The code reads and
    writes it the way the processor does: every load and store goes through the
    page directory in cr3 and a page table, so that the page tables are in the
    memory that they map.  The translation cache is left out, a walk always sees
    the tables as they are, and so is the check of the write and user bits. *)

From stdpp Require Import base numbers list gmap strings.
From S2P Require Import Prelude PageAlloc Slab.

Open Scope Z_scope.

(** * Constants *)

Definition PAGE_MASK : Z := 0xfffff000.
Definition PT_ENTRY_COUNT : Z := PAGE_SIZE / 4.
Definition PT_VADDR_SIZE : Z := PAGE_SIZE * PT_ENTRY_COUNT.
Definition UPTR_MAX : Z := 0xffffffff.
Definition USER_MEM_LOW : Z := 0x00400000.
Definition USER_MEM_HIGH : Z := 0xc0000000.
Definition KERNEL_PHYS_BASE : Z := 0x100000.
Definition MEMORY_MAP_BASE : Z := 0x9000.
Definition kernel_start : Z := 0xc0000000.

Definition PD_PRESENT : Z := 0x001.
Definition PD_WRITE : Z := 0x002.
Definition PT_PRESENT : Z := 0x001.
Definition PT_WRITE : Z := 0x002.

Definition vaddr_to_pdindex (vaddr : Z) : Z := Z.shiftr (u32 vaddr) PAGE_SHIFT / PT_ENTRY_COUNT.
Definition vaddr_to_ptindex (vaddr : Z) : Z := Z.shiftr (u32 vaddr) PAGE_SHIFT `mod` PT_ENTRY_COUNT.
Definition vaddr_to_offset (vaddr : Z) : Z := Z.land (u32 vaddr) (Z.lnot PAGE_MASK).

Definition present (entry : Z) : bool := negb (Z.land PT_PRESENT entry =? 0).

(** * The page allocator

    The operations that pagetable.c uses: a page or [n] pages, 0 for NULL. *)
Class PageMem (M : Type) := {
  pm_page_alloc : kM M Z;
  pm_page_free : Z → kM M unit;
  pm_page_alloc_n : Z → kM M Z;
  pm_page_free_n : Z → Z → kM M unit;
  pm_page_add_range : Z → Z → kM M unit
}.

(** page.c, with the slab allocators behind it that give pages back. *)
#[export] Instance slab_pagemem : PageMem (pstate * sstate) := {
  pm_page_alloc := let* a := page_alloc slab_allocators_reclaim in kret (default NULL a);
  pm_page_free := page_free;
  pm_page_alloc_n n := let* a := page_alloc_n slab_allocators_reclaim n in kret (default NULL a);
  pm_page_free_n := page_free_n;
  pm_page_add_range := page_add_range
}.

(** * Physical memory *)

(** [pt_frames] maps the physical address of a frame to its words. *)
Record ptstate (M : Type) := PtState {
  pt_mem : M;
  pt_frames : gmap Z (list Z);
  pt_cr3 : Z;
  current_pagedir : Z;
  template_pagedir : Z;
  final_page : Z;
  phys_map_count : Z
}.
Arguments PtState {M}.
Arguments pt_mem {M}.
Arguments pt_frames {M}.
Arguments pt_cr3 {M}.
Arguments current_pagedir {M}.
Arguments template_pagedir {M}.
Arguments final_page {M}.
Arguments phys_map_count {M}.

(** The walk of the processor from a virtual to a physical address. *)
Definition entry_of (frames : gmap Z (list Z)) (frame index : Z) : option Z :=
  words ← frames !! frame; words !! Z.to_nat index.

Definition page_walk (frames : gmap Z (list Z)) (cr3 vaddr : Z) : option Z :=
  pde ← entry_of frames cr3 (vaddr_to_pdindex vaddr);
  if present pde then
    pte ← entry_of frames (Z.land pde PAGE_MASK) (vaddr_to_ptindex vaddr);
    if present pte then Some (Z.land pte PAGE_MASK + vaddr_to_offset vaddr) else None
  else None.

Section PageTable.
Context {M : Type} `{PageMem M}.
Abbreviation ptM := (kM (ptstate M)).

Definition with_pt_mem (m : M) (s : ptstate M) : ptstate M :=
  PtState m (pt_frames s) (pt_cr3 s) (current_pagedir s) (template_pagedir s) (final_page s) (phys_map_count s).
Definition upd_frames (f : gmap Z (list Z) → gmap Z (list Z)) (s : ptstate M) : ptstate M :=
  PtState (pt_mem s) (f (pt_frames s)) (pt_cr3 s) (current_pagedir s) (template_pagedir s) (final_page s) (phys_map_count s).
Definition with_cr3 (p c : Z) (s : ptstate M) : ptstate M :=
  PtState (pt_mem s) (pt_frames s) p c (template_pagedir s) (final_page s) (phys_map_count s).
Definition with_template (t : Z) (s : ptstate M) : ptstate M :=
  PtState (pt_mem s) (pt_frames s) (pt_cr3 s) (current_pagedir s) t (final_page s) (phys_map_count s).
Definition with_final_page (f : Z) (s : ptstate M) : ptstate M :=
  PtState (pt_mem s) (pt_frames s) (pt_cr3 s) (current_pagedir s) (template_pagedir s) f (phys_map_count s).
Definition with_phys_map_count (n : Z) (s : ptstate M) : ptstate M :=
  PtState (pt_mem s) (pt_frames s) (pt_cr3 s) (current_pagedir s) (template_pagedir s) (final_page s) n.

Definition pm_call {A} (c : kM M A) : ptM A := klift pt_mem with_pt_mem c.

Definition mmu (vaddr : Z) : ptM Z :=
  let* s := kget in kderef (page_walk (pt_frames s) (pt_cr3 s) vaddr) "page fault".
Definition get_frame (frame : Z) : ptM (list Z) := let* s := kget in kderef (pt_frames s !! frame) "no memory".

(** The word a physical address is in. *)
Definition word_index (paddr : Z) : nat := Z.to_nat (paddr `mod` PAGE_SIZE / 4).

Definition ldw (vaddr : Z) : ptM Z :=
  let* paddr := mmu vaddr in
  let* words := get_frame (Z.land paddr PAGE_MASK) in
  kderef (words !! word_index paddr) "word".
Definition stw (vaddr v : Z) : ptM unit :=
  let* paddr := mmu vaddr in
  let* words := get_frame (Z.land paddr PAGE_MASK) in
  kmodify (upd_frames <[Z.land paddr PAGE_MASK := <[word_index paddr := v]> words]>).

(** memset and memcpy: of [n] words to 0, and of whole pages. *)
Fixpoint clear_words (n : nat) (vaddr : Z) : ptM unit :=
  match n with O => kret tt | S n => stw vaddr 0 ;;; clear_words n (vaddr + 4) end.
Definition st_page (vaddr : Z) (ws : list Z) : ptM unit :=
  let* paddr := mmu vaddr in
  get_frame paddr ;;; kmodify (upd_frames <[paddr := ws]>).
Definition clear_page (vaddr : Z) : ptM unit := st_page vaddr (replicate (Z.to_nat PT_ENTRY_COUNT) 0).
Definition copy_page (dest src : Z) : ptM unit :=
  let* paddr := mmu src in let* words := get_frame paddr in st_page dest words.

(** The fields of struct pagedir, an array of entries and one of the addresses of
    the page tables. *)
Definition pd_physical (pd index : Z) : Z := pd + 4 * index.
Definition pd_virtual (pd index : Z) : Z := pd + PAGE_SIZE + 4 * index.

(** * pagetable.c *)

Definition pt_phys_tmp_map (paddr : Z) : ptM Z :=
  KASSERT (PAGE_ALIGNED paddr) "PAGE_ALIGNED(paddr)" ;;;
  let* f := kgets final_page in
  stw (f + 4 * (PT_ENTRY_COUNT - 1)) (Z.lor paddr (Z.lor PT_PRESENT PT_WRITE)) ;;;
  kret (UPTR_MAX - PAGE_SIZE + 1).

Fixpoint perm_map_loop (n : nat) (i paddr count : Z) : ptM unit :=
  match n with
  | O => kret tt
  | S n =>
      let* f := kgets final_page in
      stw (f + 4 * (PT_ENTRY_COUNT - count + i)) (Z.lor (u32 (paddr + PAGE_SIZE * i)) (Z.lor PT_PRESENT PT_WRITE)) ;;;
      perm_map_loop n (i + 1) paddr count
  end.

Definition pt_phys_perm_map (paddr count : Z) : ptM Z :=
  KASSERT (PAGE_ALIGNED paddr) "PAGE_ALIGNED(paddr)" ;;;
  let* c := kgets phys_map_count in
  let total := u32 (c + count) in
  kmodify (with_phys_map_count total) ;;;
  KASSERT (total <? PT_ENTRY_COUNT) "phys_map_count < PT_ENTRY_COUNT" ;;;
  perm_map_loop (Z.to_nat count) 0 paddr total ;;;
  kret (UPTR_MAX - PAGE_SIZE * total + 1).

Definition pt_virt_to_phys (vaddr : Z) : ptM Z :=
  let table := vaddr_to_pdindex vaddr in
  let entry := vaddr_to_ptindex vaddr in
  let offset := vaddr_to_offset vaddr in
  let* cur := kgets current_pagedir in
  let* pde := ldw (pd_physical cur table) in
  let* pagetable := pt_phys_tmp_map (Z.land pde PAGE_MASK) in
  let* pte := ldw (pagetable + 4 * entry) in
  kret (Z.land pte PAGE_MASK + offset).

Definition pt_set (pd : Z) : ptM unit :=
  let* pdir := pt_virt_to_phys (pd_physical pd 0) in kmodify (with_cr3 pdir pd).

Definition pt_get : ptM Z := kgets current_pagedir.

(** The page table for an entry of the directory: an existing one, or a new one. *)
Definition pt_get_table (pd index pdflags : Z) : ptM (option Z) :=
  let* pde := ldw (pd_physical pd index) in
  if negb (present pde) then
    let* pt := pm_call pm_page_alloc in
    if pt =? NULL then kret None
    else
      KASSERT (Z.land pdflags (Z.lnot PAGE_MASK) =? pdflags) "(pdflags & ~PAGE_MASK) == pdflags" ;;;
      clear_page pt ;;;
      let* phys := pt_virt_to_phys pt in
      stw (pd_physical pd index) (Z.lor phys pdflags) ;;;
      stw (pd_virtual pd index) pt ;;;
      kret (Some pt)
  else
    stw (pd_physical pd index) (Z.lor pde pdflags) ;;;
    let* pt := ldw (pd_virtual pd index) in kret (Some pt).

Definition pt_map (pd vaddr paddr pdflags ptflags : Z) : ptM Z :=
  KASSERT (PAGE_ALIGNED vaddr && PAGE_ALIGNED paddr) "PAGE_ALIGNED(vaddr) && PAGE_ALIGNED(paddr)" ;;;
  KASSERT ((USER_MEM_LOW <=? vaddr) && (vaddr <? USER_MEM_HIGH)) "USER_MEM_LOW <= vaddr && USER_MEM_HIGH > vaddr" ;;;
  let* pt := pt_get_table pd (vaddr_to_pdindex vaddr) pdflags in
  match pt with
  | None => kret (- ENOMEM)
  | Some pt =>
      KASSERT (Z.land ptflags (Z.lnot PAGE_MASK) =? ptflags) "(ptflags & ~PAGE_MASK) == ptflags" ;;;
      stw (pt + 4 * vaddr_to_ptindex vaddr) (Z.lor paddr ptflags) ;;;
      kret 0
  end.

Definition pt_unmap (pd vaddr : Z) : ptM unit :=
  KASSERT (PAGE_ALIGNED vaddr) "PAGE_ALIGNED(vaddr)" ;;;
  KASSERT ((USER_MEM_LOW <=? vaddr) && (vaddr <? USER_MEM_HIGH)) "USER_MEM_LOW <= vaddr && USER_MEM_HIGH > vaddr" ;;;
  let index := vaddr_to_pdindex vaddr in
  let* pde := ldw (pd_physical pd index) in
  if present pde then
    let* pt := ldw (pd_virtual pd index) in
    stw (pt + 4 * vaddr_to_ptindex vaddr) 0
  else kret tt.

(** The page tables in the middle of a range. *)
Definition unmap_table (pd i : Z) : ptM unit :=
  let* pde := ldw (pd_physical pd i) in
  if present pde then
    let* pt := ldw (pd_virtual pd i) in
    pm_call (pm_page_free pt) ;;;
    stw (pd_virtual pd i) NULL ;;;
    stw (pd_physical pd i) 0
  else kret tt.
Fixpoint unmap_tables (n : nat) (pd i : Z) : ptM unit :=
  match n with O => kret tt | S n => unmap_table pd i ;;; unmap_tables n pd (i + 1) end.

(** [memset(&pt[lo], 0, n * sizeof( *pt))] on the table of the [i]th entry, if there
    is one and [index] is not 0. *)
Definition clear_part (pd i index lo n : Z) : ptM unit :=
  let* pde := ldw (pd_physical pd i) in
  if present pde && negb (index =? 0) then
    let* pt := ldw (pd_virtual pd i) in clear_words (Z.to_nat n) (pt + 4 * lo)
  else kret tt.

Definition pt_unmap_range (pd vlow vhigh : Z) : ptM unit :=
  KASSERT (vlow <? vhigh) "vlow < vhigh" ;;;
  KASSERT (PAGE_ALIGNED vlow && PAGE_ALIGNED vhigh) "PAGE_ALIGNED(vlow) && PAGE_ALIGNED(vhigh)" ;;;
  KASSERT ((USER_MEM_LOW <=? vlow) && (vhigh <=? USER_MEM_HIGH)) "USER_MEM_LOW <= vlow && USER_MEM_HIGH >= vhigh" ;;;
  let index := vaddr_to_ptindex vlow in
  clear_part pd (vaddr_to_pdindex vlow) index index (PT_ENTRY_COUNT - index) ;;;
  let vlow := u32 (vlow + PAGE_SIZE * ((PT_ENTRY_COUNT - index) `mod` PT_ENTRY_COUNT)) in
  let index := vaddr_to_ptindex vhigh in
  clear_part pd (vaddr_to_pdindex vhigh) index 0 index ;;;
  let vhigh := u32 (vhigh - PAGE_SIZE * index) in
  unmap_tables (Z.to_nat (vaddr_to_pdindex vhigh - vaddr_to_pdindex vlow)) pd (vaddr_to_pdindex vlow).

Definition pt_create_pagedir : ptM Z :=
  let* pdir := pm_call (pm_page_alloc_n 2) in
  if pdir =? NULL then kret NULL
  else
    let* template := kgets template_pagedir in
    copy_page pdir template ;;;
    copy_page (pdir + PAGE_SIZE) (template + PAGE_SIZE) ;;;
    kret pdir.

Definition free_table (pdir i : Z) : ptM unit :=
  let* pde := ldw (pd_physical pdir i) in
  if present pde then let* pt := ldw (pd_virtual pdir i) in pm_call (pm_page_free pt) else kret tt.
Fixpoint free_tables (n : nat) (pdir i : Z) : ptM unit :=
  match n with O => kret tt | S n => free_table pdir i ;;; free_tables n pdir (i + 1) end.

Definition pt_destroy_pagedir (pdir : Z) : ptM unit :=
  KASSERT (PAGE_ALIGNED pdir) "PAGE_ALIGNED(pdir)" ;;;
  let begin_ := USER_MEM_LOW / PT_VADDR_SIZE in
  let end_ := (USER_MEM_HIGH - 1) / PT_VADDR_SIZE in
  KASSERT ((begin_ <? end_) && (0 <? begin_)) "begin < end && begin > 0" ;;;
  free_tables (Z.to_nat (end_ - begin_ + 1)) pdir begin_ ;;;
  pm_call (pm_page_free_n pdir 2).

(** [pt[i]] for the 1024 entries of a table. *)
Fixpoint fill_entries (n : nat) (pt i ptflags pstart : Z) : ptM unit :=
  match n with
  | O => kret tt
  | S n =>
      stw (pt + 4 * i) (Z.land (u32 (i * PAGE_SIZE + pstart)) PAGE_MASK) ;;;
      let* pte := ldw (pt + 4 * i) in
      stw (pt + 4 * i) (Z.lor pte (Z.land ptflags (Z.lnot PAGE_MASK))) ;;;
      fill_entries n pt (i + 1) ptflags pstart
  end.

Definition _pt_fill_page (pd pt pdflags ptflags vstart pstart : Z) : ptM unit :=
  KASSERT (negb (pd =? NULL) && negb (pt =? NULL)) "NULL != pd && NULL != pt" ;;;
  KASSERT (vstart `mod` PT_VADDR_SIZE =? 0) "0 == vstart % PT_VADDR_SIZE" ;;;
  clear_page pt ;;;
  fill_entries (Z.to_nat PT_ENTRY_COUNT) pt 0 ptflags pstart ;;;
  let base := vaddr_to_pdindex vstart in
  let table := vaddr_to_pdindex pt in
  let entry := vaddr_to_ptindex pt in
  let* temppdir := kgets pt_cr3 in
  let* pde := ldw (temppdir + 4 * table) in
  let* pagetable := pt_phys_tmp_map (Z.land pde PAGE_MASK) in
  let* pte := ldw (pagetable + 4 * entry) in
  stw (pd_physical pd base) (Z.lor (Z.land pte PAGE_MASK) (Z.land pdflags (Z.lnot PAGE_MASK))) ;;;
  stw (pd_virtual pd base) pt.

(** phys.c: [i] is the entry of the memory map that is looked at. *)
Fixpoint detect_highmem (n : nat) (i : Z) : ptM Z :=
  match n with
  | O => kpanic "Failed to detect correct physical addresses."
  | S n =>
      let ent := MEMORY_MAP_BASE + 4 + 24 * i in
      let* base := ldw ent in
      let* length := ldw (ent + 8) in
      let* type := ldw (ent + 16) in
      if (type =? 1) && (base <=? KERNEL_PHYS_BASE) && (KERNEL_PHYS_BASE <? u32 (base + length))
      then kret (u32 (base + length))
      else detect_highmem n (i + 1)
  end.
Definition phys_detect_highmem : ptM Z :=
  let* md_count := ldw MEMORY_MAP_BASE in detect_highmem (Z.to_nat md_count) 0.

(** The loop of pt_init, and the last table that it fills. *)
Fixpoint init_tables (fuel : nat) (pagedir pagetable vaddr paddr physmax : Z) : ptM Z :=
  match fuel with
  | O => λ _, RFuel
  | S fuel =>
      let pagetable := u32 (pagetable + PAGE_SIZE) in
      let vaddr := u32 (vaddr + PT_VADDR_SIZE) in
      let paddr := u32 (paddr + PT_VADDR_SIZE) in
      _pt_fill_page pagedir pagetable (Z.lor PD_PRESENT PD_WRITE) (Z.lor PT_PRESENT PT_WRITE) vaddr paddr ;;;
      if paddr <? physmax then init_tables fuel pagedir pagetable vaddr paddr physmax else kret pagetable
  end.

(** The first part of pt_init: an empty directory with the page for temporary
    mappings, which the boot loader's directory gets as well. *)
Definition init_pagedir (temppdir pagedir : Z) : ptM unit :=
  KASSERT (PAGE_ALIGNED pagedir) "PAGE_ALIGNED(pagedir)" ;;;
  clear_page pagedir ;;;
  clear_page (pagedir + PAGE_SIZE) ;;;
  let final := pagedir + 2 * PAGE_SIZE in
  kmodify (with_final_page final) ;;;
  KASSERT (PAGE_ALIGNED final) "PAGE_ALIGNED(final_page)" ;;;
  clear_page final ;;;
  stw (temppdir + 4 * (PT_ENTRY_COUNT - 1))
    (Z.lor (u32 (final - kernel_start + KERNEL_PHYS_BASE)) (Z.lor PT_PRESENT PT_WRITE)) ;;;
  let* pde := ldw (temppdir + 4 * (PT_ENTRY_COUNT - 1)) in
  stw (pd_physical pagedir (PT_ENTRY_COUNT - 1)) pde ;;;
  stw (pd_virtual pagedir (PT_ENTRY_COUNT - 1)) final.

(** [kernel_end] is set by the linker.  Note that the first argument of
    page_add_range is 1024 bytes past the start of the last table. *)
Definition pt_init (kernel_end : Z) : ptM unit :=
  let* temppdir := kgets pt_cr3 in
  let pagedir := kernel_end in
  init_pagedir temppdir pagedir ;;;
  let pagetable := pagedir + 3 * PAGE_SIZE in
  _pt_fill_page pagedir pagetable (Z.lor PD_PRESENT PD_WRITE) (Z.lor PT_PRESENT PT_WRITE) 0 0 ;;;
  let pagetable := pagetable + PAGE_SIZE in
  _pt_fill_page pagedir pagetable (Z.lor PD_PRESENT PD_WRITE) (Z.lor PT_PRESENT PT_WRITE) kernel_start KERNEL_PHYS_BASE ;;;
  kmodify (λ s, with_cr3 (pt_cr3 s) pagedir s) ;;;
  pt_set pagedir ;;;
  let* physmax := phys_detect_highmem in
  let* last := init_tables (Z.to_nat PT_ENTRY_COUNT) pagedir pagetable kernel_start KERNEL_PHYS_BASE physmax in
  pm_call (pm_page_add_range (u32 (last + PT_ENTRY_COUNT)) (u32 (physmax + kernel_start - KERNEL_PHYS_BASE))).

Definition pt_template_init : ptM unit :=
  let* cur := kgets current_pagedir in
  let* low := ldw (pd_virtual cur 0) in
  clear_page low ;;;
  let* t := pm_call (pm_page_alloc_n 2) in
  kmodify (with_template t) ;;;
  KASSERT (negb (t =? NULL)) "NULL != template_pagedir" ;;;
  copy_page t cur ;;;
  copy_page (t + PAGE_SIZE) (cur + PAGE_SIZE).
End PageTable.
