(* ===== verification/PageTableInv.v ===== *)
(** Page tables: the invariant of pagetable.c and what its operations do.

    A page directory stands for a map from the pages of user memory to page table
    entries; the rest of it, the kernel's part, is the same in all directories.
    Page directories and tables are pages of the page allocator, which the kernel
    part maps with a fixed distance between virtual and physical addresses, so
    that the walks of the processor that reach them do not depend on what the
    operations change. *)

From stdpp Require Import base numbers list gmap strings.
From S2P Require Import Prelude PageAlloc Slab KMem PageTable.

Open Scope Z_scope.

(** * Addresses *)

Lemma mask_land x : 0 ≤ x < 2 ^ 32 → Z.land x PAGE_MASK = x - x `mod` 4096.
Proof.
  intros Hx. assert (E : x - x `mod` 4096 = 4096 * (x / 4096)) by (pose proof (Z.div_mod x 4096); lia).
  rewrite E. apply Z.bits_inj'. intros n Hn. rewrite Z.land_spec.
  change 4096 with (2 ^ 12) at 1. rewrite Z.mul_comm, Z.mul_pow2_bits by lia.
  change PAGE_MASK with (Z.ones 20 * 2 ^ 12). rewrite Z.mul_pow2_bits by lia.
  destruct (Z_lt_le_dec n 12).
  - rewrite !(Z.testbit_neg_r _ (n - 12)) by lia. by rewrite andb_false_r.
  - rewrite Z.testbit_ones_nonneg by lia. change 4096 with (2 ^ 12). rewrite Z.div_pow2_bits by lia.
    replace (n - 12 + 12) with n by lia. destruct (n - 12 <? 20) eqn:E2; [by rewrite andb_true_r|].
    rewrite andb_false_r. symmetry. destruct (decide (x = 0)) as [->|]; [apply Z.bits_0|].
    apply Z.bits_above_log2; [lia|]. apply Z.log2_lt_pow2; [lia|].
    eapply Z.lt_le_trans; [apply Hx|]. apply Z.pow_le_mono_r; lia.
Qed.

Lemma pdindex_eq v : 0 ≤ v < 2 ^ 32 → vaddr_to_pdindex v = v / 2 ^ 22.
Proof.
  intros Hv. unfold vaddr_to_pdindex. rewrite u32_small by done.
  rewrite Z.shiftr_div_pow2 by (unfold PAGE_SHIFT; lia). rewrite Z.div_div by (vm_compute; congruence). done.
Qed.
Lemma ptindex_eq v : 0 ≤ v < 2 ^ 32 → vaddr_to_ptindex v = (v / 4096) `mod` 1024.
Proof.
  intros Hv. unfold vaddr_to_ptindex. rewrite u32_small by done.
  by rewrite Z.shiftr_div_pow2 by (unfold PAGE_SHIFT; lia).
Qed.
Lemma offset_eq v : 0 ≤ v < 2 ^ 32 → vaddr_to_offset v = v `mod` 4096.
Proof.
  intros Hv. unfold vaddr_to_offset. rewrite u32_small by done.
  change (Z.lnot PAGE_MASK) with (Z.lor (Z.ones 12) (Z.shiftl (-1) 32)). rewrite Z.land_lor_distr_r.
  rewrite Z.land_ones by lia. replace (Z.land v (Z.shiftl (-1) 32)) with 0; [by rewrite Z.lor_0_r|].
  symmetry. apply Z.bits_inj'. intros n Hn. rewrite Z.land_spec, Z.bits_0.
  destruct (Z_lt_le_dec n 32); [rewrite Z.shiftl_spec_low by lia; by rewrite andb_false_r|].
  destruct (decide (v = 0)) as [->|]; [by rewrite Z.bits_0|].
  rewrite (Z.bits_above_log2 v); [done|lia|]. apply Z.log2_lt_pow2; [lia|].
  eapply Z.lt_le_trans; [apply Hv|]. apply Z.pow_le_mono_r; lia.
Qed.

(** A page, and an address in it. *)
Definition page (p : Z) : Prop := (4096 | p) ∧ 0 ≤ p < 2 ^ 32.

Lemma page_split p off :
  page p → 0 ≤ off < 4096 →
  0 ≤ p + off < 2 ^ 32 ∧ (p + off) / 4096 = p / 4096 ∧ (p + off) `mod` 4096 = off ∧ (p + off) / 2 ^ 22 = p / 2 ^ 22.
Proof.
  intros [[k ->] Hp] Ho. assert (E : (k * 4096 + off) / 4096 = k).
  { rewrite Z.add_comm, Z.div_add by lia. rewrite Z.div_small by lia. lia. }
  split_and!; [lia|lia|by rewrite E, Z.div_mul by lia| |].
  - rewrite Z.add_comm, Z.mod_add by lia. by apply Z.mod_small.
  - change (2 ^ 22) with (4096 * 1024). rewrite <- !Z.div_div by lia. by rewrite E, Z.div_mul by lia.
Qed.

Lemma page_index p off :
  page p → 0 ≤ off < 4096 →
  vaddr_to_pdindex (p + off) = vaddr_to_pdindex p ∧ vaddr_to_ptindex (p + off) = vaddr_to_ptindex p ∧
  vaddr_to_offset (p + off) = off ∧ Z.land (p + off) PAGE_MASK = p.
Proof.
  intros Hp Ho. pose proof Hp as [_ Hr]. destruct (page_split p off Hp Ho) as (? & ? & Hm & E).
  rewrite !pdindex_eq, !ptindex_eq, offset_eq, mask_land by lia. split_and!; [done|by f_equal|done|lia].
Qed.

Lemma index_range v : 0 ≤ v < 2 ^ 32 → 0 ≤ vaddr_to_pdindex v < 1024 ∧ 0 ≤ vaddr_to_ptindex v < 1024.
Proof.
  intros Hv. rewrite pdindex_eq, ptindex_eq by done. split; [|apply Z.mod_pos_bound; lia].
  split; [apply Z.div_pos; lia|apply Z.div_lt_upper_bound; lia].
Qed.

(** An entry: the address of a frame and flags. *)
Lemma lor_flags_add f flags : page f → 0 ≤ flags < 4096 → Z.lor f flags = f + flags.
Proof.
  intros [[k Hk] Hr] Hfl. assert (Hd : Z.land f flags = 0).
  { apply Z.bits_inj'. intros n Hn. rewrite Z.land_spec, Z.bits_0, Hk. change 4096 with (2 ^ 12). rewrite Z.mul_pow2_bits by lia.
    destruct (Z_lt_le_dec n 12); [by rewrite (Z.testbit_neg_r _ (n - 12)) by lia|].
    destruct (decide (flags = 0)) as [->|]; [by rewrite Z.bits_0, andb_false_r|].
    rewrite (Z.bits_above_log2 flags); [by rewrite andb_false_r|lia|]. apply Z.log2_lt_pow2; [lia|].
    eapply Z.lt_le_trans; [apply Hfl|]. apply (Z.pow_le_mono_r 2 12); lia. }
  by rewrite Z.add_nocarry_lxor, Z.lxor_lor.
Qed.

Lemma entry_frame f flags :
  page f → 0 ≤ flags < 4096 → Z.land (Z.lor f flags) PAGE_MASK = f ∧ present (Z.lor f flags) = present flags.
Proof.
  intros Hf Hfl. pose proof (lor_flags_add f flags Hf Hfl) as Hl. pose proof Hf as [[k Hk] Hr].
  split; [rewrite Hl; by apply page_index|].
  unfold present, PT_PRESENT. rewrite Hl, !(Z.land_comm 1). change 1 with (Z.ones 1). rewrite !Z.land_ones by lia.
  change (2 ^ 1) with 2. rewrite Hk. replace (k * 4096 + flags) with (flags + (k * 2048) * 2) by lia.
  by rewrite Z.mod_add by lia.
Qed.

(** * The page allocator *)

(** The pages of a block. *)
Definition block_pages (b : block) : list Z := (λ k, b.2 + 4096 * k) <$> seqZ 0 (pages_of b.1).

(** What pagetable.c relies on: [P] are the pages of the allocator, [pm_inv m B]
    says that the blocks [B] are handed out. *)
Class PageMemLaws (M : Type) `{PageMem M} (P : Z → Prop) := {
  pm_inv : M → list block → Prop;
  pm_perm m B B' : B ≡ₚ B' → pm_inv m B → pm_inv m B';
  pm_pages m B : pm_inv m B → NoDup (B ≫= block_pages) ∧ Forall P (B ≫= block_pages);
  pm_page_alloc_ok m B : pm_inv m B →
    (∃ a m', pm_page_alloc m = RRet a m' ∧ a ≠ NULL ∧ pm_inv m' ((0%nat, a) :: B)) ∨
    (∃ m', pm_page_alloc m = RRet NULL m' ∧ pm_inv m' B);
  pm_page_alloc_2_ok m B : pm_inv m B →
    (∃ a m', pm_page_alloc_n 2 m = RRet a m' ∧ a ≠ NULL ∧ pm_inv m' ((1%nat, a) :: B)) ∨
    (∃ m', pm_page_alloc_n 2 m = RRet NULL m' ∧ pm_inv m' B);
  pm_page_free_ok m B a : pm_inv m ((0%nat, a) :: B) → ∃ m', pm_page_free a m = RRet tt m' ∧ pm_inv m' B;
  pm_page_free_2_ok m B a : pm_inv m ((1%nat, a) :: B) → ∃ m', pm_page_free_n a 2 m = RRet tt m' ∧ pm_inv m' B
}.

#[global] Instance pm_inv_proper `{PageMemLaws M P} m : Proper ((≡ₚ) ==> iff) (pm_inv m).
Proof. intros B B' HB. split; by apply pm_perm. Qed.

(** * The invariant *)

(** The entries of a directory for user memory. *)
Definition user_index (i : Z) : Prop := 1 ≤ i < 768.
#[global] Instance user_index_dec i : Decision (user_index i).
Proof. unfold user_index. apply _. Defined.

(** A page table: its address, its entry in the directory, its words. *)
Record tab := Tab { tb_va : Z; tb_pde : Z; tb_words : list Z }.
Record dir := Dir { d_va : Z; d_tabs : gmap Z tab }.

Definition tabs_pages (d : dir) : list Z := tb_va <$> (map_to_list (d_tabs d)).*2.
Definition dir_pages (d : dir) : list Z := d_va d :: (d_va d + 4096) :: tabs_pages d.
Definition dir_blocks (d : dir) : list block := (1%nat, d_va d) :: (pair 0%nat <$> tabs_pages d).

(** The entry for a user address, and what the processor makes of it. *)
Definition mapping (d : dir) (v : Z) : option Z :=
  t ← d_tabs d !! vaddr_to_pdindex v;
  w ← tb_words t !! Z.to_nat (vaddr_to_ptindex v);
  if present w then Some w else None.

(** How the kernel is mapped: the distance of virtual and physical addresses, the
    words of a directory outside user memory, the kernel's page tables, and the
    page table for the last 4 megabytes. *)
Record layout := Layout {
  ly_delta : Z;
  ly_words : list Z;
  ly_tables : gmap Z (list Z);
  ly_final : Z
}.

Section Inv.
Context (P : Z → Prop) (ly : layout).

Abbreviation phys p := (p - ly_delta ly).

(** The kernel's page tables map the page [p] to its place. *)
Definition kmapped (p : Z) : Prop :=
  page p ∧ page (phys p) ∧ ¬ user_index (vaddr_to_pdindex p) ∧
  ∃ pde t pte, ly_words ly !! Z.to_nat (vaddr_to_pdindex p) = Some pde ∧ present pde = true ∧
    ly_tables ly !! Z.land pde PAGE_MASK = Some t ∧ page (Z.land pde PAGE_MASK) ∧
    t !! Z.to_nat (vaddr_to_ptindex p) = Some pte ∧ present pte = true ∧ Z.land pte PAGE_MASK = phys p ∧
    (Z.land pde PAGE_MASK = phys (ly_final ly) → vaddr_to_ptindex p ≠ 1023).

(** The pages of the allocator are mapped and hold none of the kernel's tables;
    the last entry of a directory is for the page of temporary mappings. *)
Record layout_ok : Prop := {
  lo_pages p : P p → kmapped p ∧ p ≠ 0 ∧ ly_tables ly !! phys p = None;
  lo_final : kmapped (ly_final ly) ∧ is_Some (ly_tables ly !! phys (ly_final ly));
  lo_last : ∃ pde, ly_words ly !! 1023%nat = Some pde ∧ present pde = true ∧
              Z.land pde PAGE_MASK = phys (ly_final ly);
  lo_len : length (ly_words ly) = 1024%nat
}.

(** The frames agree with the kernel's tables; the last word of the page of
    temporary mappings changes. *)
Definition kernel_in (frames : gmap Z (list Z)) : Prop :=
  ∀ f t, ly_tables ly !! f = Some t → ∃ t', frames !! f = Some t' ∧
    ∀ i, (f = phys (ly_final ly) → i ≠ 1023%nat) → t' !! i = t !! i.

Definition tab_in (frames : gmap Z (list Z)) (Pw Vw : list Z) (i : nat) (t : tab) : Prop :=
  Pw !! i = Some (tb_pde t) ∧ present (tb_pde t) = true ∧ Z.land (tb_pde t) PAGE_MASK = phys (tb_va t) ∧
  Vw !! i = Some (tb_va t) ∧ frames !! phys (tb_va t) = Some (tb_words t).

Definition dir_words (frames : gmap Z (list Z)) (d : dir) (Pw Vw : list Z) : Prop :=
  (∀ i : nat, (i < 1024)%nat → ¬ user_index (Z.of_nat i) → Pw !! i = ly_words ly !! i) ∧
  (∀ i : nat, user_index (Z.of_nat i) →
     match d_tabs d !! Z.of_nat i with
     | Some t => tab_in frames Pw Vw i t
     | None => ∃ w, Pw !! i = Some w ∧ present w = false
     end).

Record dir_in (frames : gmap Z (list Z)) (d : dir) : Prop := {
  di_words : ∃ Pw Vw, frames !! phys (d_va d) = Some Pw ∧ frames !! phys (d_va d + 4096) = Some Vw ∧
               dir_words frames d Pw Vw;
  di_user i t : d_tabs d !! i = Some t → user_index i
}.

(** The directory that the kernel boots with is not a page of the allocator. *)
Definition boot_dir (c cr3 : Z) : Prop :=
  kmapped c ∧ cr3 = phys c ∧ phys c ≠ phys (ly_final ly) ∧ ly_tables ly !! phys c = Some (ly_words ly).

Context {M : Type} `{PageMem M} `{!PageMemLaws M P}.

(** The directories [D] are in memory, and the current one is among them or the one
    of the boot; the blocks [B] are handed out to others. *)
Record ptinv (s : ptstate M) (D : list dir) (B : list block) : Prop := {
  pi_mem : pm_inv (pt_mem s) ((D ≫= dir_blocks) ++ B);
  pi_len f w : pt_frames s !! f = Some w → length w = 1024%nat;
  pi_frames p : P p → is_Some (pt_frames s !! phys p);
  pi_kernel : kernel_in (pt_frames s);
  pi_dirs d : d ∈ D → dir_in (pt_frames s) d;
  pi_final : final_page s = ly_final ly;
  pi_cur : (∃ d, d ∈ D ∧ d_va d = current_pagedir s ∧ pt_cr3 s = phys (d_va d)) ∨
           boot_dir (current_pagedir s) (pt_cr3 s)
}.

Context (Hly : layout_ok).

(** ** Pages of directories *)

Lemma block_pages_0 a : block_pages (0%nat, a) = [a].
Proof. unfold block_pages. change (seqZ 0 _) with [0]. simpl. f_equal. lia. Qed.
Lemma block_pages_1 a : block_pages (1%nat, a) = [a; a + 4096].
Proof. unfold block_pages. change (seqZ 0 _) with [0; 1]. simpl. repeat f_equal; lia. Qed.

Lemma tab_blocks (l : list Z) : (pair 0%nat <$> l) ≫= block_pages = l.
Proof. induction l as [|a l IH]; [done|]. rewrite fmap_cons, bind_cons, block_pages_0, IH. done. Qed.

Lemma dir_blocks_pages d : dir_blocks d ≫= block_pages = dir_pages d.
Proof. unfold dir_blocks. rewrite bind_cons, block_pages_1, tab_blocks. done. Qed.

Lemma dirs_blocks_pages D B :
  ((D ≫= dir_blocks) ++ B) ≫= block_pages = (D ≫= dir_pages) ++ (B ≫= block_pages).
Proof.
  rewrite bind_app. f_equal. induction D as [|d D IH]; [done|].
  rewrite !bind_cons, bind_app, dir_blocks_pages, IH. done.
Qed.

Lemma ptinv_pages s D B :
  ptinv s D B → NoDup ((D ≫= dir_pages) ++ (B ≫= block_pages)) ∧ Forall P ((D ≫= dir_pages) ++ (B ≫= block_pages)).
Proof. intros HI. rewrite <- dirs_blocks_pages. apply (pm_pages (pt_mem s)), HI. Qed.

(** ** Memory access *)

(** The directory in cr3 has the kernel's entries: all that loads and stores of the
    kernel depend on. *)
Definition kaccess (frames : gmap Z (list Z)) (cr3 : Z) : Prop :=
  kernel_in frames ∧ ∃ Pw, frames !! cr3 = Some Pw ∧
    ∀ i : nat, (i < 1024)%nat → ¬ user_index (Z.of_nat i) → Pw !! i = ly_words ly !! i.

Lemma ptinv_current s D B :
  ptinv s D B → kmapped (current_pagedir s) ∧ pt_cr3 s = phys (current_pagedir s) ∧
  ∃ Pw, pt_frames s !! pt_cr3 s = Some Pw ∧
    ∀ i : nat, (i < 1024)%nat → ¬ user_index (Z.of_nat i) → Pw !! i = ly_words ly !! i.
Proof.
  intros HI. destruct (pi_cur _ _ _ HI) as [(d & Hd & <- & ->)|(Hk & Hr & Hne & Ht)].
  - destruct (ptinv_pages _ _ _ HI) as [_ HP]. rewrite Forall_forall in HP. split_and!; [|done|].
    + apply (lo_pages Hly), HP, elem_of_app. left. apply list_elem_of_bind. exists d. split; [left|done].
    + destruct (pi_dirs _ _ _ HI d Hd) as [(Pw & Vw & HPw & _ & Hw & _) _]. eauto.
  - split_and!; [done|done|]. rewrite Hr. destruct (pi_kernel _ _ _ HI _ _ Ht) as (t' & Ht' & Hw). exists t'. split; [done|].
    intros i _ _. apply Hw. done.
Qed.

Lemma ptinv_access s D B : ptinv s D B → kaccess (pt_frames s) (pt_cr3 s).
Proof. intros HI. split; [apply HI|]. by apply (ptinv_current _ _ _ HI). Qed.

Lemma kaccess_entry frames cr3 i w :
  kaccess frames cr3 → 0 ≤ i < 1024 → ¬ user_index i → ly_words ly !! Z.to_nat i = Some w → entry_of frames cr3 i = Some w.
Proof.
  intros [_ (Pw & HP & Hw)] Hi Hu Hl. unfold entry_of. rewrite HP. simpl. rewrite Hw; [done|lia|].
  by rewrite Z2Nat.id by lia.
Qed.

Lemma walk_kernel frames cr3 p off :
  kaccess frames cr3 → kmapped p → 0 ≤ off < 4096 → page_walk frames cr3 (p + off) = Some (phys p + off).
Proof.
  intros Hk (Hp & _ & Hu & pde & t & pte & Hpde & Hpr & Ht & _ & Hpte & Hpr' & Hph & Hlast) Ho.
  destruct (page_index p off Hp Ho) as (E1 & E2 & E3 & _). pose proof Hp as [_ Hr].
  destruct (index_range p Hr) as [H1 H2].
  unfold page_walk. rewrite E1, E2, E3. rewrite (kaccess_entry _ _ _ pde) by done. simpl. rewrite Hpr.
  destruct Hk as [Hk _]. destruct (Hk _ _ Ht) as (t' & Ht' & Hw).
  unfold entry_of. rewrite Ht'. simpl. rewrite Hw; [|intros ? ?; apply Hlast; [done|lia]].
  rewrite Hpte. simpl. by rewrite Hpr', Hph.
Qed.

Lemma mmu_run (s : ptstate M) p off :
  kaccess (pt_frames s) (pt_cr3 s) → kmapped p → 0 ≤ off < 4096 → mmu (p + off) s = RRet (phys p + off) s.
Proof. intros Hk Hp Ho. unfold mmu, kget, kbind, kderef. simpl. by rewrite walk_kernel. Qed.

Lemma word_place p i : page p → 0 ≤ i < 1024 → Z.land (p + 4 * i) PAGE_MASK = p ∧ word_index (p + 4 * i) = Z.to_nat i.
Proof.
  intros Hp Hi. destruct (page_index p (4 * i) Hp ltac:(lia)) as (_ & _ & _ & ->). split; [done|].
  unfold word_index, PAGE_SIZE. destruct (page_split p (4 * i) Hp ltac:(lia)) as (_ & _ & -> & _).
  f_equal. rewrite Z.mul_comm. apply Z.div_mul. lia.
Qed.

Lemma ldw_run (s : ptstate M) p i ws w :
  kaccess (pt_frames s) (pt_cr3 s) → kmapped p → 0 ≤ i < 1024 → pt_frames s !! phys p = Some ws →
  ws !! Z.to_nat i = Some w → ldw (p + 4 * i) s = RRet w s.
Proof.
  intros Hk Hp Hi Hf Hw. unfold ldw. rewrite (kbind_of_ret _ _ _ _ _ (mmu_run s p (4 * i) Hk Hp ltac:(lia))).
  destruct (word_place (phys p) i ltac:(apply Hp) Hi) as [-> ->].
  unfold get_frame, kget, kbind, kderef. simpl. rewrite Hf. simpl. by rewrite Hw.
Qed.

Lemma stw_run (s : ptstate M) p i ws v :
  kaccess (pt_frames s) (pt_cr3 s) → kmapped p → 0 ≤ i < 1024 → pt_frames s !! phys p = Some ws →
  stw (p + 4 * i) v s = RRet tt (upd_frames <[phys p := <[Z.to_nat i := v]> ws]> s).
Proof.
  intros Hk Hp Hi Hf. unfold stw. rewrite (kbind_of_ret _ _ _ _ _ (mmu_run s p (4 * i) Hk Hp ltac:(lia))).
  destruct (word_place (phys p) i ltac:(apply Hp) Hi) as [-> ->].
  unfold get_frame, kget, kbind, kderef, kmodify. simpl. by rewrite Hf.
Qed.

Lemma st_page_run (s : ptstate M) p ws0 ws :
  kaccess (pt_frames s) (pt_cr3 s) → kmapped p → pt_frames s !! phys p = Some ws0 →
  st_page p ws s = RRet tt (upd_frames <[phys p := ws]> s).
Proof.
  intros Hk Hp Hf. unfold st_page. pose proof (mmu_run s p 0 Hk Hp ltac:(lia)) as Hm. rewrite !Z.add_0_r in Hm.
  rewrite (kbind_of_ret _ _ _ _ _ Hm). unfold get_frame, kget, kbind, kderef, kmodify. simpl. by rewrite Hf.
Qed.

Lemma copy_page_run (s : ptstate M) p q ws0 ws :
  kaccess (pt_frames s) (pt_cr3 s) → kmapped p → kmapped q → pt_frames s !! phys p = Some ws0 → pt_frames s !! phys q = Some ws →
  copy_page p q s = RRet tt (upd_frames <[phys p := ws]> s).
Proof.
  intros Hk Hp Hq Hf Hw. unfold copy_page. pose proof (mmu_run s q 0 Hk Hq ltac:(lia)) as Hm. rewrite !Z.add_0_r in Hm.
  rewrite (kbind_of_ret _ _ _ _ _ Hm). unfold get_frame at 1. unfold kget, kbind at 1 2, kderef. simpl. rewrite Hw. simpl.
  by eapply st_page_run.
Qed.

(** Stores that keep the kernel's entries. *)
Lemma kernel_in_set frames p ws : P p → kernel_in frames → kernel_in (<[phys p := ws]> frames).
Proof.
  intros HP Hk f t Hf. destruct (Hk f t Hf) as (t' & Ht' & Hw). destruct (lo_pages Hly p HP) as (_ & _ & Hn).
  exists t'. split; [|done]. rewrite lookup_insert_ne; [done|congruence].
Qed.

Lemma kaccess_set frames cr3 p ws ws' :
  P p → frames !! phys p = Some ws → length ws' = length ws →
  (phys p = cr3 → ∀ i : nat, ¬ user_index (Z.of_nat i) → ws' !! i = ws !! i) →
  kaccess frames cr3 → kaccess (<[phys p := ws']> frames) cr3.
Proof.
  intros HP Hws Hlen Hsame [Hk (Pw & HPw & Hw)]. split; [by apply kernel_in_set|].
  destruct (decide (phys p = cr3)) as [<-|Hne].
  - exists ws'. rewrite lookup_insert_eq. split; [done|]. intros i Hi Hu. simplify_eq. rewrite Hsame by done. by apply Hw.
  - exists Pw. rewrite lookup_insert_ne by done. done.
Qed.

(** ** Directories *)

Lemma tabs_pages_elem d i t : d_tabs d !! i = Some t → tb_va t ∈ tabs_pages d.
Proof.
  intros Ht. apply list_elem_of_fmap. exists t. split; [done|].
  apply list_elem_of_fmap. exists (i, t). split; [done|]. by apply elem_of_map_to_list.
Qed.

Lemma tabs_pages_set va m i t : tabs_pages (Dir va (<[i := t]> m)) ≡ₚ tb_va t :: tabs_pages (Dir va (delete i m)).
Proof.
  unfold tabs_pages. simpl. rewrite <- insert_delete_eq. by rewrite map_to_list_insert by apply lookup_delete_eq.
Qed.

Lemma tabs_pages_delete va m i t : m !! i = Some t → tabs_pages (Dir va m) ≡ₚ tb_va t :: tabs_pages (Dir va (delete i m)).
Proof. intros Hi. rewrite <- (insert_id m i t) at 1 by done. apply tabs_pages_set. Qed.

Lemma tabs_inj d i j t t' :
  NoDup (tabs_pages d) → d_tabs d !! i = Some t → d_tabs d !! j = Some t' → tb_va t = tb_va t' → i = j.
Proof.
  destruct d as [va m]. intros Hn Hi Hj E. destruct (decide (i = j)) as [|Hne]; [done|]. simpl in *.
  rewrite (tabs_pages_delete va m i t) in Hn by done. apply NoDup_cons in Hn as [Hn _]. destruct Hn. rewrite E.
  apply (tabs_pages_elem (Dir va (delete i m)) j). simpl. by rewrite lookup_delete_ne.
Qed.

(** A store to a page that is not the directory's. *)
Lemma dir_in_frame frames d f ws :
  (∀ q, q ∈ dir_pages d → phys q ≠ f) → dir_in frames d → dir_in (<[f := ws]> frames) d.
Proof.
  intros Hf [(Pw & Vw & HP & HV & H1 & H2) Hu]. split; [|done]. exists Pw, Vw.
  rewrite !lookup_insert_ne by (apply not_eq_sym, Hf; unfold dir_pages; set_solver).
  split; [done|]. split; [done|]. split; [done|]. intros i Hi. specialize (H2 i Hi).
  destruct (d_tabs d !! Z.of_nat i) as [t|] eqn:Et; [|done]. destruct H2 as (? & ? & ? & ? & ?).
  unfold tab_in. rewrite lookup_insert_ne; [done|]. apply not_eq_sym, Hf. unfold dir_pages.
  pose proof (tabs_pages_elem d _ _ Et). set_solver.
Qed.

(** A store to a page of one directory leaves the others. *)
Lemma dirs_frame s d D B p ws :
  ptinv s (d :: D) B → p ∈ dir_pages d → ∀ d', d' ∈ D → dir_in (<[phys p := ws]> (pt_frames s)) d'.
Proof.
  intros HI Hp d' Hd'. apply dir_in_frame; [|apply (pi_dirs _ _ _ HI); set_solver].
  intros q Hq E. destruct (ptinv_pages _ _ _ HI) as [Hn _]. rewrite bind_cons in Hn.
  apply NoDup_app in Hn as [Hn _]. apply NoDup_app in Hn as (_ & Hn & _). apply (Hn p); [done|].
  replace p with q by lia. apply list_elem_of_bind. eauto.
Qed.

(** A store to a page that is in no directory. *)
Lemma dirs_frame_other s D B p ws :
  ptinv s D B → p ∉ D ≫= dir_pages → ∀ d', d' ∈ D → dir_in (<[phys p := ws]> (pt_frames s)) d'.
Proof.
  intros HI Hp d' Hd'. apply dir_in_frame; [|by apply (pi_dirs _ _ _ HI)].
  intros q Hq E. apply Hp. replace p with q by lia. apply list_elem_of_bind. eauto.
Qed.

Lemma ptinv_perm s D D' B B' : D ≡ₚ D' → B ≡ₚ B' → ptinv s D B → ptinv s D' B'.
Proof.
  intros HD HB [H1 H2 H3 H4 H5 H6 H7]. split; try done.
  - eapply pm_perm; [|exact H1]. by rewrite HD, HB.
  - intros d. rewrite <- HD. apply H5.
  - setoid_rewrite <- HD. done.
Qed.

(** Stores to pages of the allocator. *)
Inductive stored (F : gmap Z (list Z)) : gmap Z (list Z) → Prop :=
| stored_refl : stored F F
| stored_step F' p ws : stored F F' → P p → length ws = 1024%nat → stored F (<[phys p := ws]> F').

Lemma stored_one F p ws : P p → length ws = 1024%nat → stored F (<[phys p := ws]> F).
Proof. intros. apply stored_step; [constructor|done..]. Qed.

(** The invariant after stores to pages of the allocator. *)
Lemma ptinv_stored s s' D D' B B' :
  ptinv s D B → stored (pt_frames s) (pt_frames s') → pt_cr3 s' = pt_cr3 s → current_pagedir s' = current_pagedir s →
  final_page s' = final_page s → pm_inv (pt_mem s') ((D' ≫= dir_blocks) ++ B') →
  (∀ d, d ∈ D' → dir_in (pt_frames s') d) → d_va <$> D ⊆ d_va <$> D' → ptinv s' D' B'.
Proof.
  intros [H1 H2 H3 H4 H5 H6 H7] Hst Er Ec Efp Hmem Hdirs Hva.
  assert ((∀ f w, pt_frames s' !! f = Some w → length w = 1024%nat) ∧ (∀ p, P p → is_Some (pt_frames s' !! phys p)) ∧
    kernel_in (pt_frames s')) as (H2' & H3' & H4').
  { clear Hdirs. induction Hst as [|F' p ws _ (I1 & I2 & I3) HP Hl]; [done|]. split_and!.
    - intros f w. rewrite lookup_insert. case_decide; intros; simplify_eq; eauto.
    - intros q Hq. rewrite lookup_insert. case_decide; eauto.
    - by apply kernel_in_set. }
  split; rewrite ?Er, ?Ec, ?Efp; try done.
  destruct H7 as [(d & Hd & Hc & Hr)|H7]; [left|by right].
  assert (Hin : d_va d ∈ d_va <$> D') by (apply Hva, list_elem_of_fmap; eauto).
  apply list_elem_of_fmap in Hin as (d' & E & Hd'). exists d'. rewrite <- E. done.
Qed.

Lemma ptinv_mem s m' D B B' :
  ptinv s D B → pm_inv m' ((D ≫= dir_blocks) ++ B') → ptinv (with_pt_mem m' s) D B'.
Proof. intros [] ?. by split. Qed.

Lemma pm_call_run {A} (c : kM M A) s a m' : c (pt_mem s) = RRet a m' → pm_call c s = RRet a (with_pt_mem m' s).
Proof. intros E. unfold pm_call, klift. by rewrite E. Qed.

(** ** The physical address of a page *)

(** States that differ in the page of temporary mappings. *)
Record tmp_step (s s' : ptstate M) : Prop := {
  ts_mem : pt_mem s' = pt_mem s;
  ts_frames f : f ≠ phys (ly_final ly) → pt_frames s' !! f = pt_frames s !! f;
  ts_template : template_pagedir s' = template_pagedir s;
  ts_current : current_pagedir s' = current_pagedir s
}.

Lemma final_not_page p : P p → phys p ≠ phys (ly_final ly).
Proof. intros HP E. destruct (lo_pages Hly p HP) as (_ & _ & Hn). destruct (lo_final Hly) as [_ [t Ht]]. congruence. Qed.

Lemma ptinv_tmp s D B x ws :
  ptinv s D B → pt_frames s !! phys (ly_final ly) = Some ws →
  let s' := upd_frames <[phys (ly_final ly) := <[1023%nat := x]> ws]> s in ptinv s' D B ∧ tmp_step s s'.
Proof.
  intros HI Hws. cbv zeta. pose proof (ptinv_pages _ _ _ HI) as [_ HP]. rewrite Forall_forall in HP.
  split; [|split; simpl; [done| |done|done]; intros f Hf; by rewrite lookup_insert_ne].
  pose proof HI as [H1 H2 H3 H4 H5 H6 H7]. split; simpl; try done.
  - intros f w. rewrite lookup_insert. case_decide; intros; simplify_eq; [rewrite length_insert|]; eauto.
  - intros q Hq. rewrite lookup_insert. case_decide; eauto.
  - intros f t Hf. destruct (H4 f t Hf) as (t' & Ht' & Hw). rewrite lookup_insert. case_decide as E; [|eauto].
    subst f. simplify_eq. eexists. split; [done|]. intros i Hi. rewrite list_lookup_insert_ne by (apply not_eq_sym; auto). eauto.
  - intros d Hd. apply dir_in_frame; [|by apply H5]. intros q Hq E. apply (final_not_page q); [|done].
    apply HP. apply elem_of_app. left. apply list_elem_of_bind. eauto.
Qed.

(** The last page of the address space is the page that was mapped last. *)
Lemma walk_tmp frames cr3 f ws i :
  kaccess frames cr3 → frames !! phys (ly_final ly) = Some ws → ws !! 1023%nat = Some (Z.lor f 3) →
  page f → 0 ≤ i < 1024 → page_walk frames cr3 (0xfffff000 + 4 * i) = Some (f + 4 * i).
Proof.
  intros Hk Hws Hw Hf Hi. assert (Hp : page 0xfffff000) by (split; [by exists 0xfffff|lia]).
  destruct (page_index 0xfffff000 (4 * i) Hp ltac:(lia)) as (E1 & E2 & E3 & _).
  destruct (lo_last Hly) as (pde & Hpde & Hpr & Hph). unfold page_walk. rewrite E1, E2, E3.
  change (vaddr_to_pdindex 0xfffff000) with 1023. change (vaddr_to_ptindex 0xfffff000) with 1023.
  rewrite (kaccess_entry _ _ _ pde) by (done || (unfold user_index; lia)). simpl. rewrite Hpr, Hph.
  unfold entry_of. rewrite Hws. cbn [mbind option_bind]. change (Z.to_nat 1023) with 1023%nat. rewrite Hw. cbn [mbind option_bind].
  destruct (entry_frame f 3 Hf ltac:(lia)) as [-> ->]. done.
Qed.

Lemma page_aligned p : (4096 | p) → PAGE_ALIGNED p = true.
Proof. intros Hp. unfold PAGE_ALIGNED, PAGE_SIZE. apply Z.eqb_eq, Z.mod_divide; [lia|done]. Qed.

Lemma frame_words s D B p : ptinv s D B → P p → ∃ ws, pt_frames s !! phys p = Some ws ∧ length ws = 1024%nat.
Proof. intros HI HP. destruct (pi_frames _ _ _ HI p HP) as [ws Hws]. exists ws. split; [done|by eapply HI]. Qed.

Lemma tmp_map_run s D B f :
  ptinv s D B → page f →
  ∃ s' ws, pt_phys_tmp_map f s = RRet 0xfffff000 s' ∧ ptinv s' D B ∧ tmp_step s s' ∧
    pt_frames s !! phys (ly_final ly) = Some ws ∧ pt_frames s' = <[phys (ly_final ly) := <[1023%nat := Z.lor f 3]> ws]> (pt_frames s).
Proof.
  intros HI Hf. destruct (lo_final Hly) as [Hfin [t Ht]].
  destruct (pi_kernel _ _ _ HI _ _ Ht) as (ws & Hws & _). destruct (ptinv_tmp s D B (Z.lor f 3) ws HI Hws) as [HI' Hs].
  eexists _, ws. split_and!; [|done|done|done|done]. unfold pt_phys_tmp_map.
  rewrite kassert_next by (apply page_aligned, Hf). rewrite kgets_next.
  rewrite (pi_final _ _ _ HI). change (PT_ENTRY_COUNT - 1) with 1023.
  by erewrite kbind_of_ret by (apply stw_run; [by eapply ptinv_access|done|lia|done]).
Qed.

Lemma virt_to_phys_run s D B p off :
  ptinv s D B → kmapped p → 0 ≤ off < 4096 →
  ∃ s', pt_virt_to_phys (p + off) s = RRet (phys p + off) s' ∧ ptinv s' D B ∧ tmp_step s s'.
Proof.
  intros HI Hp Ho. pose proof Hp as (Hpg & _ & Hu & pde & t & pte & Hpde & Hpr & Ht & Hpf & Hpte & Hpr' & Hph & Hlast).
  destruct (page_index p off Hpg Ho) as (E1 & E2 & E3 & _). destruct (index_range p ltac:(apply Hpg)) as [H1 H2].
  destruct (ptinv_current _ _ _ HI) as (Hkc & Hcr & Pw & HPw & Hw). pose proof (ptinv_access _ _ _ HI) as Hacc. rewrite Hcr in HPw.
  unfold pt_virt_to_phys. rewrite E1, E2, E3. rewrite kgets_next.
  unfold pd_physical. erewrite kbind_of_ret; [|apply (ldw_run s (current_pagedir s) _ Pw pde); [done..|]].
  2: { rewrite Hw; [done|lia|by rewrite Z2Nat.id by lia]. }
  destruct (tmp_map_run s D B (Z.land pde PAGE_MASK) HI Hpf) as (s' & ws & Hr & HI' & Hs & Hws & Hf').
  rewrite (kbind_of_ret _ _ _ _ _ Hr). exists s'. split_and!; [|done|done].
  pose proof (ptinv_access _ _ _ HI') as Hacc'.
  destruct (pi_kernel _ _ _ HI' _ _ Ht) as (t' & Ht' & Hw').
  assert (Hwk : page_walk (pt_frames s') (pt_cr3 s') (0xfffff000 + 4 * vaddr_to_ptindex p) =
    Some (Z.land pde PAGE_MASK + 4 * vaddr_to_ptindex p)).
  { eapply walk_tmp; [done|rewrite Hf'; apply lookup_insert_eq| |done|done].
    rewrite list_lookup_insert_eq; [done|]. rewrite (pi_len _ _ _ HI _ _ Hws). lia. }
  destruct (word_place (Z.land pde PAGE_MASK) (vaddr_to_ptindex p) Hpf H2) as [Ef Ei].
  erewrite kbind_of_ret; [unfold kret; by rewrite Hph|].
  unfold ldw, mmu, get_frame, kget, kbind, kderef. cbn [rbind]. rewrite Hwk. cbn [rbind]. rewrite Ef, Ei, Ht'. cbn [rbind].
  rewrite Hw'; [by rewrite Hpte|]. intros ? ?. apply Hlast; [done|lia].
Qed.

(** ** Tables *)

Lemma flags_mask f : 0 ≤ f < 4096 → Z.land f PAGE_MASK = 0.
Proof. intros Hf. rewrite mask_land by lia. rewrite Z.mod_small by lia. lia. Qed.

Lemma lor_flags x f : 0 ≤ f < 4096 → Z.land (Z.lor x f) PAGE_MASK = Z.land x PAGE_MASK.
Proof. intros Hf. by rewrite Z.land_lor_distr_l, (flags_mask f), Z.lor_0_r. Qed.

Lemma lor_present x f : present x = true → present (Z.lor x f) = true.
Proof.
  unfold present. rewrite !negb_true_iff, !Z.eqb_neq, Z.land_lor_distr_r. intros Hx Hl.
  by apply Z.lor_eq_0_iff in Hl as [? _].
Qed.

Lemma flags_low f : 0 ≤ f < 4096 → (Z.land f (Z.lnot PAGE_MASK) =? f) = true.
Proof.
  intros Hf. pose proof (offset_eq f ltac:(lia)) as E. unfold vaddr_to_offset in E.
  rewrite u32_small, Z.mod_small in E by lia. by apply Z.eqb_eq.
Qed.

(** The pages of a directory are pages of the allocator. *)
Lemma dir_page_ok s D B d q : ptinv s D B → d ∈ D → q ∈ dir_pages d → P q ∧ kmapped q.
Proof.
  intros HI Hd Hq. destruct (ptinv_pages _ _ _ HI) as [_ HP]. rewrite Forall_forall in HP.
  assert (P q) by (apply HP, elem_of_app; left; apply list_elem_of_bind; eauto). split; [done|by apply (lo_pages Hly)].
Qed.

Lemma dir_nodup s d D B : ptinv s (d :: D) B → NoDup (dir_pages d).
Proof. intros HI. destruct (ptinv_pages _ _ _ HI) as [Hn _]. rewrite bind_cons in Hn. by apply NoDup_app in Hn as [[? _]%NoDup_app _]. Qed.

(** A block that is handed out is in no directory. *)
Lemma new_page s D B a : ptinv s D ((0%nat, a) :: B) → P a ∧ kmapped a ∧ a ∉ D ≫= dir_pages.
Proof.
  intros HI. destruct (ptinv_pages _ _ _ HI) as [Hn HP]. rewrite bind_cons, block_pages_0 in Hn, HP.
  rewrite Forall_forall in HP. assert (P a) by (apply HP, elem_of_app; right; left). split_and!; [done|by apply (lo_pages Hly)|].
  apply NoDup_app in Hn as (_ & Hn & _). intros Hin. apply (Hn a Hin). left.
Qed.

Definition set_tab (i : Z) (t : tab) (d : dir) : dir := Dir (d_va d) (<[i := t]> (d_tabs d)).

(** Writing the two words of a directory for a table that is in memory. *)
Lemma dir_in_set frames d i t :
  user_index i → NoDup (dir_pages (set_tab i t d)) → dir_in frames d →
  (∀ Pw Vw, frames !! phys (d_va d) = Some Pw → frames !! phys (d_va d + 4096) = Some Vw →
     length Pw = 1024%nat → length Vw = 1024%nat →
     frames !! phys (tb_va t) = Some (tb_words t) → present (tb_pde t) = true →
     Z.land (tb_pde t) PAGE_MASK = phys (tb_va t) →
     dir_in (<[phys (d_va d + 4096) := <[Z.to_nat i := tb_va t]> Vw]> (<[phys (d_va d) := <[Z.to_nat i := tb_pde t]> Pw]> frames))
       (set_tab i t d)).
Proof.
  intros Hi Hnd [(Pw & Vw & HP & HV & H1 & H2) Hu] Pw' Vw' HP' HV' Hl1 Hl2 Ht Hpr Hm. simplify_eq.
  assert (Hva : ∀ j t', d_tabs (set_tab i t d) !! j = Some t' → tb_va t' ≠ d_va d ∧ tb_va t' ≠ d_va d + 4096).
  { intros j t' Hj. apply tabs_pages_elem in Hj. unfold dir_pages in Hnd. simpl in Hnd.
    apply NoDup_cons in Hnd as [Hn1 [Hn2 _]%NoDup_cons].
    split; intros E; rewrite <- E in *; [apply Hn1; by right|by apply Hn2]. }
  split; simpl; [|intros j t'; rewrite lookup_insert; case_decide; intros; simplify_eq; eauto].
  exists (<[Z.to_nat i := tb_pde t]> Pw), (<[Z.to_nat i := tb_va t]> Vw).
  rewrite lookup_insert_ne, !lookup_insert_eq by lia. split; [done|]. split; [done|]. split.
  - intros j Hj Hju. rewrite list_lookup_insert_ne; [by apply H1|]. intros <-. rewrite Z2Nat.id in Hju by (unfold user_index in *; lia). done.
  - intros j Hj. specialize (H2 j Hj). change (d_tabs (set_tab i t d)) with (<[i := t]> (d_tabs d)).
    destruct (decide (i = Z.of_nat j)) as [->|Hne].
    + rewrite lookup_insert_eq. unfold tab_in. unfold user_index in Hj. rewrite Nat2Z.id.
      rewrite !list_lookup_insert_eq by lia. destruct (Hva (Z.of_nat j) t) as [Hn1 Hn2]; [apply lookup_insert_eq|].
      rewrite !lookup_insert_ne by lia. done.
    + rewrite lookup_insert_ne by done. assert (Z.to_nat i ≠ j) by (unfold user_index in *; lia).
      destruct (d_tabs d !! Z.of_nat j) as [t'|] eqn:Et; [|by rewrite list_lookup_insert_ne].
      destruct (Hva (Z.of_nat j) t') as [Hn1 Hn2]; [simpl; by rewrite lookup_insert_ne|].
      unfold tab_in. rewrite !list_lookup_insert_ne, !lookup_insert_ne by (done || lia). done.
Qed.

Lemma set_tab_tabs_new d i t : d_tabs d !! i = None → tabs_pages (set_tab i t d) ≡ₚ tb_va t :: tabs_pages d.
Proof. intros Hn. destruct d as [va m]. unfold set_tab. simpl in *. by rewrite tabs_pages_set, delete_id. Qed.
Lemma set_tab_tabs_same d i t t0 :
  d_tabs d !! i = Some t0 → tb_va t = tb_va t0 → tabs_pages (set_tab i t d) ≡ₚ tabs_pages d.
Proof.
  intros Hi E. destruct d as [va m]. unfold set_tab. simpl in *. rewrite tabs_pages_set, E. symmetry. by apply tabs_pages_delete.
Qed.

Lemma dir_pages_perm d d' l : d_va d' = d_va d → tabs_pages d' ≡ₚ l ++ tabs_pages d → dir_pages d' ≡ₚ l ++ dir_pages d.
Proof. intros E Ht. unfold dir_pages. rewrite E, Ht. solve_Permutation. Qed.
Lemma dir_blocks_perm d d' l :
  d_va d' = d_va d → tabs_pages d' ≡ₚ l ++ tabs_pages d → dir_blocks d' ≡ₚ (pair 0%nat <$> l) ++ dir_blocks d.
Proof. intros E Ht. unfold dir_blocks. rewrite E, Ht, fmap_app. solve_Permutation. Qed.

(** Changing the words of a table. *)
Lemma dir_in_table frames d i t ws :
  NoDup (dir_pages d) → dir_in frames d → d_tabs d !! i = Some t →
  dir_in (<[phys (tb_va t) := ws]> frames) (set_tab i (Tab (tb_va t) (tb_pde t) ws) d).
Proof.
  intros Hnd [(Pw & Vw & HP & HV & H1 & H2) Hu] Ht. pose proof (Hu _ _ Ht) as Hi.
  unfold dir_pages in Hnd. apply NoDup_cons in Hnd as [Hn1 [Hn2 Hn3]%NoDup_cons].
  assert (tb_va t ≠ d_va d ∧ tb_va t ≠ d_va d + 4096) as [Hv1 Hv2].
  { pose proof (tabs_pages_elem d _ _ Ht). split; intros E; rewrite <- E in *; [apply Hn1; by right|by apply Hn2]. }
  split; simpl; [|intros j t'; rewrite lookup_insert; case_decide; intros; simplify_eq; eauto].
  exists Pw, Vw. rewrite !lookup_insert_ne by lia. split; [done|]. split; [done|]. split; [done|].
  intros j Hj. specialize (H2 j Hj).
  change (d_tabs (set_tab i _ d)) with (<[i := Tab (tb_va t) (tb_pde t) ws]> (d_tabs d)). rewrite lookup_insert.
  case_decide as Hij.
  - subst i. rewrite Ht in H2. destruct H2 as (? & ? & ? & ? & _). unfold tab_in. simpl. by rewrite lookup_insert_eq.
  - destruct (d_tabs d !! Z.of_nat j) as [t'|] eqn:Et; [|done]. destruct H2 as (? & ? & ? & ? & ?).
    unfold tab_in. rewrite lookup_insert_ne; [done|]. intros E. apply Hij.
    eapply (tabs_inj d); [done|exact Ht|exact Et|lia].
Qed.

(** The invariant after the words of a table have changed. *)
Lemma ptinv_table s d D B i t ws :
  ptinv s (d :: D) B → d_tabs d !! i = Some t → length ws = 1024%nat →
  ptinv (upd_frames <[phys (tb_va t) := ws]> s) (set_tab i (Tab (tb_va t) (tb_pde t) ws) d :: D) B.
Proof.
  intros HI Ht Hl. assert (Hin : tb_va t ∈ dir_pages d) by (unfold dir_pages; do 2 right; by eapply tabs_pages_elem).
  destruct (dir_page_ok _ _ _ d (tb_va t) HI) as [HP _]; [left|done|].
  eapply ptinv_stored; [exact HI|by apply stored_one|done|done|done| | |].
  - eapply pm_perm; [|apply HI]. rewrite !bind_cons.
    rewrite (dir_blocks_perm d (set_tab i (Tab (tb_va t) (tb_pde t) ws) d) []); [done|done|]. by eapply set_tab_tabs_same.
  - simpl. intros d' [->|Hd']%elem_of_cons; [|by eapply dirs_frame].
    apply dir_in_table; [by eapply dir_nodup|apply (pi_dirs _ _ _ HI); left|done].
  - simpl. done.
Qed.

Lemma dir_lookup s d D B i t :
  ptinv s (d :: D) B → d_tabs d !! i = Some t →
  P (tb_va t) ∧ kmapped (tb_va t) ∧ pt_frames s !! phys (tb_va t) = Some (tb_words t) ∧ length (tb_words t) = 1024%nat ∧
  user_index i ∧ present (tb_pde t) = true ∧ Z.land (tb_pde t) PAGE_MASK = phys (tb_va t).
Proof.
  intros HI Ht. pose proof (pi_dirs _ _ _ HI d (list_elem_of_here _ _)) as [(Pw & Vw & HP & HV & H1 & H2) Hu].
  pose proof (Hu _ _ Ht) as Hi. assert (E : Z.of_nat (Z.to_nat i) = i) by (unfold user_index in Hi; lia).
  specialize (H2 (Z.to_nat i)). rewrite E, Ht in H2. destruct (H2 Hi) as (_ & ? & ? & _ & Hf).
  destruct (dir_page_ok _ _ _ d (tb_va t) HI) as [HPt Hk]; [left|unfold dir_pages; do 2 right; by eapply tabs_pages_elem|].
  split_and!; try done. by eapply HI.
Qed.

(** Reading the two words of a directory. *)
Lemma dir_loads s d D B i :
  ptinv s (d :: D) B → user_index i →
  match d_tabs d !! i with
  | Some t => ldw (pd_physical (d_va d) i) s = RRet (tb_pde t) s ∧ ldw (pd_virtual (d_va d) i) s = RRet (tb_va t) s
  | None => ∃ w, ldw (pd_physical (d_va d) i) s = RRet w s ∧ present w = false
  end.
Proof.
  intros HI Hi. pose proof (pi_dirs _ _ _ HI d (list_elem_of_here _ _)) as [(Pw & Vw & HP & HV & H1 & H2) Hu].
  destruct (dir_page_ok _ _ _ d (d_va d) HI) as [_ K1]; [left|left|].
  destruct (dir_page_ok _ _ _ d (d_va d + 4096) HI) as [_ K2]; [left|right; left|].
  pose proof (ptinv_access _ _ _ HI) as Hacc.
  assert (E : Z.of_nat (Z.to_nat i) = i) by (unfold user_index in Hi; lia).
  assert (Hr : 0 ≤ i < 1024) by (unfold user_index in Hi; lia).
  specialize (H2 (Z.to_nat i)). rewrite E in H2. specialize (H2 Hi). unfold pd_physical, pd_virtual.
  destruct (d_tabs d !! i) as [t|].
  - destruct H2 as (? & _ & _ & ? & _). split; [by eapply ldw_run|]. change PAGE_SIZE with 4096. by eapply ldw_run.
  - destruct H2 as (w & ? & ?). exists w. split; [by eapply ldw_run|done].
Qed.

(** Writing the two words of a directory for a table. *)
Lemma ptinv_set_tab s s' d D B B' i t Pw Vw :
  ptinv s (d :: D) B → user_index i →
  pt_frames s !! phys (d_va d) = Some Pw → pt_frames s !! phys (d_va d + 4096) = Some Vw →
  pt_frames s !! phys (tb_va t) = Some (tb_words t) → present (tb_pde t) = true → Z.land (tb_pde t) PAGE_MASK = phys (tb_va t) →
  pt_frames s' = <[phys (d_va d + 4096) := <[Z.to_nat i := tb_va t]> Vw]> (<[phys (d_va d) := <[Z.to_nat i := tb_pde t]> Pw]> (pt_frames s)) →
  pt_mem s' = pt_mem s → pt_cr3 s' = pt_cr3 s → current_pagedir s' = current_pagedir s → final_page s' = final_page s →
  (dir_blocks (set_tab i t d) ++ (D ≫= dir_blocks)) ++ B' ≡ₚ (dir_blocks d ++ (D ≫= dir_blocks)) ++ B →
  ptinv s' (set_tab i t d :: D) B'.
Proof.
  intros HI Hi HP HV Ht Hpr Hm Ef Em Ec Ecur Efp Hperm.
  destruct (dir_page_ok _ _ _ d (d_va d) HI) as [P1 _]; [left|left|].
  destruct (dir_page_ok _ _ _ d (d_va d + 4096) HI) as [P2 _]; [left|right; left|].
  assert (HL : length Pw = 1024%nat ∧ length Vw = 1024%nat) by (split; by eapply HI). destruct HL as [L1 L2].
  assert (Hmem : pm_inv (pt_mem s') (((set_tab i t d :: D) ≫= dir_blocks) ++ B')).
  { rewrite Em. eapply pm_perm; [|apply HI]. rewrite !bind_cons. by rewrite Hperm. }
  assert (Hnd : NoDup (dir_pages (set_tab i t d))).
  { destruct (pm_pages _ _ Hmem) as [Hn _]. rewrite dirs_blocks_pages, bind_cons in Hn. by apply NoDup_app in Hn as [[? _]%NoDup_app _]. }
  eapply ptinv_stored; [exact HI| |done|done|done|exact Hmem| |done].
  - rewrite Ef. apply stored_step; [apply stored_one|..]; rewrite ?length_insert; done.
  - rewrite Ef. intros d' [->|Hd']%elem_of_cons.
    + apply dir_in_set; try done. apply (pi_dirs _ _ _ HI). left.
    + apply dir_in_frame; [|eapply dirs_frame; [exact HI|left|done]].
      intros q Hq E. destruct (ptinv_pages _ _ _ HI) as [Hn _]. rewrite bind_cons in Hn.
      apply NoDup_app in Hn as [Hn _]. apply NoDup_app in Hn as (_ & Hn & _). apply (Hn (d_va d + 4096)); [right; left|].
      replace (d_va d + 4096) with q by lia. apply list_elem_of_bind. eauto.
Qed.

Lemma get_table_old s d D B i t pdflags :
  ptinv s (d :: D) B → d_tabs d !! i = Some t → 0 ≤ pdflags < 4096 →
  ∃ s', pt_get_table (d_va d) i pdflags s = RRet (Some (tb_va t)) s' ∧
    ptinv s' (set_tab i (Tab (tb_va t) (Z.lor (tb_pde t) pdflags) (tb_words t)) d :: D) B.
Proof.
  intros HI Ht Hfl. destruct (dir_lookup _ _ _ _ _ _ HI Ht) as (HPt & Hkt & Hft & Hlt & Hi & Hpr & Hm).
  pose proof (dir_loads _ _ _ _ _ HI Hi) as Hld. rewrite Ht in Hld. destruct Hld as [Hl1 Hl2].
  pose proof (pi_dirs _ _ _ HI d (list_elem_of_here _ _)) as [(Pw & Vw & HP & HV & H1 & H2) _].
  destruct (dir_page_ok _ _ _ d (d_va d) HI) as [P1 K1]; [left|left|].
  destruct (dir_page_ok _ _ _ d (d_va d + 4096) HI) as [P2 K2]; [left|right; left|].
  assert (Hr : 0 ≤ i < 1024) by (unfold user_index in Hi; lia).
  set (t' := Tab (tb_va t) (Z.lor (tb_pde t) pdflags) (tb_words t)).
  set (s1 := upd_frames <[phys (d_va d) := <[Z.to_nat i := tb_pde t']> Pw]> s).
  assert (HVi : Vw !! Z.to_nat i = Some (tb_va t)).
  { specialize (H2 (Z.to_nat i)). rewrite Z2Nat.id, Ht in H2 by lia. by destruct (H2 Hi) as (_ & _ & _ & ? & _). }
  assert (HI1 : ptinv s1 (set_tab i t' d :: D) B).
  { eapply ptinv_set_tab; try done.
    - by apply lor_present.
    - simpl. by rewrite lor_flags.
    - simpl. rewrite (list_insert_id Vw) by done. by rewrite (insert_id _ (phys (d_va d + 4096))) by (by rewrite lookup_insert_ne by lia).
    - rewrite (dir_blocks_perm d (set_tab i t' d) []); [done|done|]. by eapply set_tab_tabs_same. }
  exists s1. split; [|done]. unfold pt_get_table. rewrite (kbind_of_ret _ _ _ _ _ Hl1), Hpr. simpl.
  unfold pd_physical. erewrite kbind_of_ret by (eapply stw_run; [by eapply ptinv_access|done|done|done]).
  fold s1. pose proof (dir_loads _ _ _ _ _ HI1 Hi) as Hld. simpl in Hld. rewrite lookup_insert_eq in Hld.
  destruct Hld as [_ Hld]. by rewrite (kbind_of_ret _ _ _ _ _ Hld).
Qed.

(** A new table that is cleared, before it is entered in the directory. *)
Lemma ptinv_clear s D B a :
  ptinv s D ((0%nat, a) :: B) →
  ∃ s', clear_page a s = RRet tt s' ∧ ptinv s' D ((0%nat, a) :: B) ∧ pt_frames s' !! phys a = Some (replicate 1024 0).
Proof.
  intros HI. destruct (new_page _ _ _ _ HI) as (HPa & Hka & Hna).
  destruct (frame_words _ _ _ a HI HPa) as (ws & Hws & _). eexists. split; [|split].
  - unfold clear_page. eapply st_page_run; [by eapply ptinv_access|done|done].
  - change (Z.to_nat PT_ENTRY_COUNT) with 1024%nat.
    eapply ptinv_stored; [exact HI|apply stored_one; [done|apply length_replicate]|done|done|done|apply HI| |done].
    by eapply dirs_frame_other.
  - simpl. change (Z.to_nat PT_ENTRY_COUNT) with 1024%nat. apply lookup_insert_eq.
Qed.

Lemma get_table_new s d D B i pdflags :
  ptinv s (d :: D) B → user_index i → d_tabs d !! i = None → 0 ≤ pdflags < 4096 → present pdflags = true →
  (∃ a s', pt_get_table (d_va d) i pdflags s = RRet (Some a) s' ∧
    ptinv s' (set_tab i (Tab a (Z.lor (phys a) pdflags) (replicate 1024 0)) d :: D) B) ∨
  (∃ s', pt_get_table (d_va d) i pdflags s = RRet None s' ∧ ptinv s' (d :: D) B).
Proof.
  intros HI Hi Ht Hfl Hpr. pose proof (dir_loads _ _ _ _ _ HI Hi) as Hld. rewrite Ht in Hld. destruct Hld as (w & Hl1 & Hw).
  assert (Hr : 0 ≤ i < 1024) by (unfold user_index in Hi; lia).
  unfold pt_get_table. rewrite (kbind_of_ret _ _ _ _ _ Hl1), Hw. cbn [negb].
  destruct (pm_page_alloc_ok _ _ (pi_mem _ _ _ HI)) as [(a & m' & Ha & Hnn & Hm)|(m' & Ha & Hm)]; [left|right].
  2: { exists (with_pt_mem m' s). rewrite (kbind_of_ret _ _ _ _ _ (pm_call_run _ _ _ _ Ha)). split; [done|by eapply ptinv_mem]. }
  rewrite (kbind_of_ret _ _ _ _ _ (pm_call_run _ _ _ _ Ha)). replace (a =? NULL) with false by (symmetry; by apply Z.eqb_neq).
  rewrite kassert_next by (by apply flags_low).
  assert (HI1 : ptinv (with_pt_mem m' s) (d :: D) ((0%nat, a) :: B)).
  { eapply ptinv_mem; [done|]. eapply pm_perm; [|exact Hm]. solve_Permutation. }
  destruct (ptinv_clear _ _ _ _ HI1) as (s2 & E2 & HI2 & Hz). rewrite (kbind_of_ret _ _ _ _ _ E2).
  destruct (new_page _ _ _ _ HI2) as (HPa & Hka & Hna).
  destruct (virt_to_phys_run _ _ _ a 0 HI2 Hka ltac:(lia)) as (s3 & E3 & HI3 & Hts). rewrite !Z.add_0_r in E3.
  rewrite (kbind_of_ret _ _ _ _ _ E3).
  assert (Hz3 : pt_frames s3 !! phys a = Some (replicate 1024 0)) by (rewrite (ts_frames _ _ Hts); [done|by apply final_not_page]).
  pose proof (pi_dirs _ _ _ HI3 d (list_elem_of_here _ _)) as [(Pw & Vw & HP & HV & H1 & H2) _].
  destruct (dir_page_ok _ _ _ d (d_va d) HI3) as [P1 K1]; [left|left|].
  destruct (dir_page_ok _ _ _ d (d_va d + 4096) HI3) as [P2 K2]; [left|right; left|].
  set (t := Tab a (Z.lor (phys a) pdflags) (replicate 1024 0)).
  unfold pd_physical. erewrite kbind_of_ret by (eapply stw_run; [by eapply ptinv_access|done|done|done]).
  set (s4 := upd_frames _ s3). unfold pd_virtual. change PAGE_SIZE with 4096.
  assert (Hacc4 : kaccess (pt_frames s4) (pt_cr3 s4)).
  { eapply kaccess_set; [done|done|by rewrite length_insert| |exact (ptinv_access _ _ _ HI3)].
    intros _ j Hj. apply list_lookup_insert_ne. intros <-. rewrite Z2Nat.id in Hj by lia. done. }
  erewrite kbind_of_ret; [|eapply stw_run; [done|done|done|]; simpl; rewrite lookup_insert_ne by lia; done].
  destruct (entry_frame (phys a) pdflags ltac:(apply Hka) Hfl) as [Hm1 Hm2].
  eexists a, _. split; [reflexivity|]. eapply (ptinv_set_tab s3 _ d D _ B i t Pw Vw HI3 Hi HP HV Hz3); try done.
  - by rewrite <- Hpr.
  - rewrite (dir_blocks_perm d (set_tab i t d) [a]); [simpl; solve_Permutation|done|]. by apply set_tab_tabs_new.
Qed.

(** ** Mapping and unmapping *)

Definition user_addr (v : Z) : Prop := USER_MEM_LOW ≤ v < USER_MEM_HIGH.

Lemma user_addr_index v :
  user_addr v → 0 ≤ v < 2 ^ 32 ∧ user_index (vaddr_to_pdindex v) ∧ 0 ≤ vaddr_to_ptindex v < 1024.
Proof.
  intros Hv. unfold user_addr, USER_MEM_LOW, USER_MEM_HIGH in Hv. assert (Hr : 0 ≤ v < 2 ^ 32) by lia.
  split; [done|]. split; [|by apply index_range]. rewrite pdindex_eq by done. unfold user_index.
  split; [apply Z.div_le_lower_bound; lia|apply Z.div_lt_upper_bound; lia].
Qed.

Lemma same_page v v' :
  0 ≤ v < 2 ^ 32 → 0 ≤ v' < 2 ^ 32 →
  v' / 4096 = v / 4096 ↔ vaddr_to_pdindex v' = vaddr_to_pdindex v ∧ vaddr_to_ptindex v' = vaddr_to_ptindex v.
Proof.
  intros Hv Hv'. rewrite !pdindex_eq, !ptindex_eq by done. change (2 ^ 22) with (4096 * 1024). rewrite <- !Z.div_div by lia.
  split; [by intros ->|]. intros [E1 E2].
  pose proof (Z.div_mod (v / 4096) 1024). pose proof (Z.div_mod (v' / 4096) 1024). lia.
Qed.

Lemma mapping_set d i va pde ws v :
  mapping (set_tab i (Tab va pde ws) d) v =
  if decide (vaddr_to_pdindex v = i) then w ← ws !! Z.to_nat (vaddr_to_ptindex v); if present w then Some w else None
  else mapping d v.
Proof.
  unfold mapping, set_tab. simpl. rewrite lookup_insert. destruct (decide (vaddr_to_pdindex v = i)) as [->|Hne].
  - by rewrite decide_True by done.
  - by rewrite decide_False by (by apply not_eq_sym).
Qed.

(** The entry of one page replaced. *)
Lemma mapping_word d i t v v' w :
  d_tabs d !! i = Some t → length (tb_words t) = 1024%nat → vaddr_to_pdindex v = i →
  0 ≤ v < 2 ^ 32 → 0 ≤ v' < 2 ^ 32 →
  mapping (set_tab i (Tab (tb_va t) (tb_pde t) (<[Z.to_nat (vaddr_to_ptindex v) := w]> (tb_words t))) d) v' =
  if decide (v' / 4096 = v / 4096) then (if present w then Some w else None) else mapping d v'.
Proof.
  intros Ht Hl <- Hv Hv'. rewrite mapping_set. pose proof (same_page v v' Hv Hv') as Hs.
  destruct (index_range v Hv) as [_ Hj]. destruct (index_range v' Hv') as [_ Hj'].
  destruct (decide (v' / 4096 = v / 4096)) as [E|Hne].
  - apply Hs in E as [-> ->]. rewrite decide_True by done. by rewrite list_lookup_insert_eq by lia.
  - case_decide as Hi; [|done]. rewrite list_lookup_insert_ne; [unfold mapping; by rewrite Hi, Ht|].
    intros E. apply Hne, Hs. split; [done|lia].
Qed.

Lemma pt_map_run s d D B v paddr pdflags ptflags :
  ptinv s (d :: D) B → user_addr v → (4096 | v) → (4096 | paddr) →
  0 ≤ pdflags < 4096 → present pdflags = true → 0 ≤ ptflags < 4096 →
  (∃ d' s', pt_map (d_va d) v paddr pdflags ptflags s = RRet 0 s' ∧ ptinv s' (d' :: D) B ∧ d_va d' = d_va d ∧
     ∀ v', user_addr v' → mapping d' v' =
       if decide (v' / 4096 = v / 4096) then (if present (Z.lor paddr ptflags) then Some (Z.lor paddr ptflags) else None)
       else mapping d v') ∨
  (∃ s', pt_map (d_va d) v paddr pdflags ptflags s = RRet (- ENOMEM) s' ∧ ptinv s' (d :: D) B ∧
     d_tabs d !! vaddr_to_pdindex v = None).
Proof.
  intros HI Hv Hva Hpa Hpd Hpr Hpt. destruct (user_addr_index v Hv) as (Hvr & Hi & Hj).
  unfold pt_map. rewrite kassert_next by (by rewrite !page_aligned).
  rewrite kassert_next by (unfold user_addr in Hv; lia).
  set (i := vaddr_to_pdindex v) in *. set (j := vaddr_to_ptindex v) in *.
  assert ((∃ t s', pt_get_table (d_va d) i pdflags s = RRet (Some (tb_va t)) s' ∧ ptinv s' (set_tab i t d :: D) B ∧
      ∀ v', user_addr v' → mapping (set_tab i t d) v' = mapping d v') ∨
    (∃ s', pt_get_table (d_va d) i pdflags s = RRet None s' ∧ ptinv s' (d :: D) B ∧ d_tabs d !! i = None))
    as [(t & s1 & E1 & HI1 & Hsame)|(s1 & E1 & HI1 & Hn)].
  { destruct (d_tabs d !! i) as [t|] eqn:Ht.
    - left. destruct (get_table_old _ _ _ _ _ _ pdflags HI Ht Hpd) as (s' & E & HI').
      eexists (Tab (tb_va t) _ _), s'. split_and!; [done|done|]. intros v' _. rewrite mapping_set.
      case_decide as Ei; [|done]. unfold mapping. by rewrite Ei, Ht.
    - destruct (get_table_new _ _ _ _ _ pdflags HI Hi Ht Hpd Hpr) as [(a & s' & E & HI')|(s' & E & HI')]; [left|right; eauto].
      eexists (Tab a _ _), s'. split_and!; [done|done|]. intros v' Hv'. rewrite mapping_set.
      case_decide as Ei; [|done]. unfold mapping. rewrite Ei, Ht. destruct (user_addr_index v' Hv') as (_ & _ & ?).
      by rewrite lookup_replicate_2 by lia. }
  - left. rewrite (kbind_of_ret _ _ _ _ _ E1). rewrite kassert_next by (by apply flags_low).
    assert (Ht1 : d_tabs (set_tab i t d) !! i = Some t) by apply lookup_insert_eq.
    destruct (dir_lookup _ _ _ _ _ _ HI1 Ht1) as (_ & Hk & Hf & Hl & _).
    erewrite kbind_of_ret by (eapply stw_run; [by eapply ptinv_access|done|done|done]).
    eexists _, _. split; [reflexivity|]. split; [eapply ptinv_table; [done|done|by rewrite length_insert]|].
    split; [done|]. intros v' Hv'. destruct (user_addr_index v' Hv') as (? & _).
    rewrite (mapping_word _ _ _ v) by done. by rewrite Hsame.
  - right. exists s1. rewrite (kbind_of_ret _ _ _ _ _ E1). done.
Qed.

Lemma pt_unmap_run s d D B v :
  ptinv s (d :: D) B → user_addr v → (4096 | v) →
  ∃ d' s', pt_unmap (d_va d) v s = RRet tt s' ∧ ptinv s' (d' :: D) B ∧ d_va d' = d_va d ∧
    ∀ v', user_addr v' → mapping d' v' = if decide (v' / 4096 = v / 4096) then None else mapping d v'.
Proof.
  intros HI Hv Hva. destruct (user_addr_index v Hv) as (Hvr & Hi & Hj).
  unfold pt_unmap. rewrite kassert_next by (by apply page_aligned). rewrite kassert_next by (unfold user_addr in Hv; lia).
  pose proof (dir_loads _ _ _ _ _ HI Hi) as Hld. destruct (d_tabs d !! vaddr_to_pdindex v) as [t|] eqn:Ht.
  - destruct Hld as [L1 L2]. destruct (dir_lookup _ _ _ _ _ _ HI Ht) as (_ & Hk & Hf & Hl & _ & Hpr & _).
    rewrite (kbind_of_ret _ _ _ _ _ L1), Hpr, (kbind_of_ret _ _ _ _ _ L2).
    erewrite stw_run by (done || by eapply ptinv_access).
    eexists _, _. split; [reflexivity|]. split; [eapply ptinv_table; [done|done|by rewrite length_insert]|]. split; [done|].
    intros v' Hv'. destruct (user_addr_index v' Hv') as (? & _). by rewrite (mapping_word _ _ _ v).
  - destruct Hld as (w & L1 & Hw). rewrite (kbind_of_ret _ _ _ _ _ L1), Hw. exists d, s. split_and!; [done|done|done|].
    intros v' Hv'. destruct (user_addr_index v' Hv') as (? & _). case_decide as E; [|done].
    apply same_page in E as [E _]; [|done..]. unfold mapping. by rewrite E, Ht.
Qed.

(** ** What the processor sees *)

Lemma walk_user s D B d v :
  ptinv s D B → d ∈ D → user_addr v →
  page_walk (pt_frames s) (phys (d_va d)) v = (λ w, Z.land w PAGE_MASK + vaddr_to_offset v) <$> mapping d v.
Proof.
  intros HI Hd Hv. destruct (user_addr_index v Hv) as (_ & Hi & _).
  destruct (pi_dirs _ _ _ HI d Hd) as [(Pw & Vw & HP & HV & H1 & H2) _].
  specialize (H2 (Z.to_nat (vaddr_to_pdindex v))). rewrite Z2Nat.id in H2 by (unfold user_index in Hi; lia). specialize (H2 Hi).
  unfold page_walk, mapping, entry_of. rewrite HP. simpl. destruct (d_tabs d !! vaddr_to_pdindex v) as [t|].
  - destruct H2 as (-> & Hpr & Hm & _ & Hf). simpl. rewrite Hpr, Hm, Hf. simpl.
    destruct (tb_words t !! _) as [w|]; [|done]. simpl. by destruct (present w).
  - destruct H2 as (w & -> & Hw). simpl. by rewrite Hw.
Qed.

(** ** Unmapping a range *)

Lemma set_tab_set i t t' d : set_tab i t (set_tab i t' d) = set_tab i t d.
Proof. unfold set_tab. simpl. by rewrite insert_insert_eq. Qed.

Lemma clear_words_run n s d D B i t j :
  ptinv s (d :: D) B → d_tabs d !! i = Some t → 0 ≤ j → j + Z.of_nat n ≤ 1024 →
  ∃ ws s', clear_words n (tb_va t + 4 * j) s = RRet tt s' ∧
    ptinv s' (set_tab i (Tab (tb_va t) (tb_pde t) ws) d :: D) B ∧
    ∀ k : nat, (k < 1024)%nat → ws !! k = if decide (j ≤ Z.of_nat k < j + Z.of_nat n) then Some 0 else tb_words t !! k.
Proof.
  revert s d t j. induction n as [|n IH]; intros s d t j HI Ht Hj Hn.
  - exists (tb_words t), s. split_and!; [done| |intros k _; by rewrite decide_False by lia].
    replace (set_tab i _ d) with d; [done|]. destruct t, d as [va m]. unfold set_tab. simpl in *. by rewrite insert_id.
  - destruct (dir_lookup _ _ _ _ _ _ HI Ht) as (_ & Hk & Hf & Hl & _). simpl clear_words.
    erewrite kbind_of_ret by (eapply (stw_run s (tb_va t) j); [by eapply ptinv_access|done|lia|done]).
    pose proof (ptinv_table s d D B i t (<[Z.to_nat j := 0]> (tb_words t)) HI Ht ltac:(by rewrite length_insert)) as HI1.
    set (t1 := Tab (tb_va t) (tb_pde t) (<[Z.to_nat j := 0]> (tb_words t))) in *.
    destruct (IH _ _ t1 (j + 1) HI1 (lookup_insert_eq _ _ _) ltac:(lia) ltac:(lia)) as (ws & s' & E & HI' & Hw).
    exists ws, s'. simpl in E. replace (tb_va t + 4 * j + 4) with (tb_va t + 4 * (j + 1)) by lia.
    split_and!; [done|by rewrite set_tab_set in HI'|]. intros k Hk'. rewrite Hw by done. simpl.
    destruct (decide (Z.of_nat k = j)) as [<-|Hne].
    + rewrite decide_False, decide_True by lia. rewrite Nat2Z.id. apply list_lookup_insert_eq. lia.
    + rewrite list_lookup_insert_ne by lia. case_decide; [by rewrite decide_True by lia|by rewrite decide_False by lia].
Qed.

(** The page tables of a directory, by their index. *)
Definition tab_vas (d : dir) : gmap Z Z := tb_va <$> d_tabs d.

Lemma tab_vas_set d i t t' : d_tabs d !! i = Some t → tb_va t' = tb_va t → tab_vas (set_tab i t' d) = tab_vas d.
Proof.
  intros Ht E. unfold tab_vas, set_tab. simpl. rewrite fmap_insert, E. apply insert_id. by rewrite lookup_fmap, Ht.
Qed.

(** One of the two partial tables at the ends of the range. *)
Definition part_cleared (i lo hi v : Z) : Prop := vaddr_to_pdindex v = i ∧ lo ≤ vaddr_to_ptindex v < hi.
#[global] Instance part_cleared_dec i lo hi v : Decision (part_cleared i lo hi v).
Proof. unfold part_cleared. apply _. Defined.

Lemma dir_load_any s d D B i : ptinv s (d :: D) B → 0 ≤ i < 1024 → ∃ w, ldw (pd_physical (d_va d) i) s = RRet w s.
Proof.
  intros HI Hi. pose proof (pi_dirs _ _ _ HI d (list_elem_of_here _ _)) as [(Pw & Vw & HP & _) _].
  destruct (dir_page_ok _ _ _ d (d_va d) HI) as [_ K1]; [left|left|].
  destruct (lookup_lt_is_Some_2 Pw (Z.to_nat i)) as [w Hw]. { rewrite (pi_len _ _ _ HI _ _ HP). lia. }
  exists w. eapply ldw_run; [by eapply ptinv_access|done|done|done|done].
Qed.

Lemma clear_part_run s d D B i index lo n :
  ptinv s (d :: D) B → 0 ≤ i < 1024 → (index ≠ 0 → user_index i) → 0 ≤ lo → 0 ≤ n → lo + n ≤ 1024 →
  ∃ d' s', clear_part (d_va d) i index lo n s = RRet tt s' ∧ ptinv s' (d' :: D) B ∧ d_va d' = d_va d ∧ tab_vas d' = tab_vas d ∧
    ∀ v, user_addr v → mapping d' v = if decide (index ≠ 0 ∧ part_cleared i lo (lo + n) v) then None else mapping d v.
Proof.
  intros HI Hi Hu Hlo Hn Hhi. unfold clear_part. destruct (decide (index = 0)) as [->|Hne].
  { destruct (dir_load_any _ _ _ _ _ HI Hi) as [w Hw]. rewrite (kbind_of_ret _ _ _ _ _ Hw), andb_false_r.
    exists d, s. split_and!; [done|done|done|done|]. intros v _. by rewrite decide_False by naive_solver. }
  specialize (Hu Hne). replace (index =? 0) with false by (symmetry; by apply Z.eqb_neq).
  pose proof (dir_loads _ _ _ _ _ HI Hu) as Hld. destruct (d_tabs d !! i) as [t|] eqn:Ht.
  - destruct Hld as [L1 L2]. destruct (dir_lookup _ _ _ _ _ _ HI Ht) as (_ & _ & _ & _ & _ & Hpr & _).
    rewrite (kbind_of_ret _ _ _ _ _ L1), Hpr. cbn [andb negb]. rewrite (kbind_of_ret _ _ _ _ _ L2).
    destruct (clear_words_run (Z.to_nat n) _ _ _ _ _ _ lo HI Ht Hlo ltac:(lia)) as (ws & s' & E & HI' & Hw).
    eexists _, s'. split_and!; [done|done|done|by eapply tab_vas_set|]. intros v Hv. rewrite mapping_set.
    destruct (user_addr_index v Hv) as (_ & _ & Hj). unfold part_cleared.
    destruct (decide (vaddr_to_pdindex v = i)) as [Ei|]; [|by rewrite decide_False by naive_solver].
    rewrite Hw by lia. rewrite Z2Nat.id by lia. case_decide as Hc.
    + by rewrite decide_True by (split; [done|]; split; [done|lia]).
    + rewrite decide_False by (intros (_ & _ & ?); lia). unfold mapping. by rewrite Ei, Ht.
  - destruct Hld as (w & L1 & Hw). rewrite (kbind_of_ret _ _ _ _ _ L1), Hw. exists d, s. split_and!; [done|done|done|done|].
    intros v Hv. case_decide as Hc; [|done]. destruct Hc as (_ & Ei & _). unfold mapping. by rewrite Ei, Ht.
Qed.

(** A table given back. *)
Definition unset_tab (i : Z) (d : dir) : dir := Dir (d_va d) (delete i (d_tabs d)).

Lemma dir_in_unset frames d i Pw Vw :
  user_index i → NoDup (dir_pages d) → dir_in frames d → frames !! phys (d_va d) = Some Pw → frames !! phys (d_va d + 4096) = Some Vw →
  length Pw = 1024%nat →
  dir_in (<[phys (d_va d) := <[Z.to_nat i := 0]> Pw]> (<[phys (d_va d + 4096) := <[Z.to_nat i := NULL]> Vw]> frames)) (unset_tab i d).
Proof.
  intros Hi Hnd [(Pw' & Vw' & HP & HV & H1 & H2) Hu] HP' HV' Hl.
  rewrite HP in HP'. rewrite HV in HV'. injection HP' as ->. injection HV' as ->.
  unfold dir_pages in Hnd. apply NoDup_cons in Hnd as [Hn1 [Hn2 Hn3]%NoDup_cons].
  split; simpl; [|intros j t' [_ Hj]%lookup_delete_Some; eauto].
  exists (<[Z.to_nat i := 0]> Pw), (<[Z.to_nat i := NULL]> Vw).
  rewrite lookup_insert_eq. rewrite lookup_insert_ne, lookup_insert_eq by lia. split; [done|]. split; [done|]. split.
  - intros j Hj Hju. rewrite list_lookup_insert_ne; [by apply H1|]. intros <-. rewrite Z2Nat.id in Hju by (unfold user_index in *; lia). done.
  - intros j Hj. specialize (H2 j Hj). change (d_tabs (unset_tab i d)) with (delete i (d_tabs d)). rewrite lookup_delete.
    case_decide as Hij.
    + subst i. unfold user_index in Hj. exists 0. rewrite Nat2Z.id. split; [apply list_lookup_insert_eq; lia|done].
    + assert (Z.to_nat i ≠ j) by (unfold user_index in *; lia).
      destruct (d_tabs d !! Z.of_nat j) as [t'|] eqn:Et; [|by rewrite list_lookup_insert_ne].
      pose proof (tabs_pages_elem d _ _ Et) as Hel.
      assert (tb_va t' ≠ d_va d ∧ tb_va t' ≠ d_va d + 4096) as [Hv1 Hv2].
      { split; intros E; rewrite <- E in *; [apply Hn1; by right|by apply Hn2]. }
      unfold tab_in. rewrite !list_lookup_insert_ne, !lookup_insert_ne by (done || lia). done.
Qed.

Lemma unset_tab_blocks d i t : d_tabs d !! i = Some t → dir_blocks d ≡ₚ (0%nat, tb_va t) :: dir_blocks (unset_tab i d).
Proof.
  intros Ht. destruct d as [va m]. unfold unset_tab. simpl in *.
  apply (dir_blocks_perm (Dir va (delete i m)) _ [tb_va t]); [done|]. by apply tabs_pages_delete.
Qed.

Lemma mapping_unset d i v : mapping (unset_tab i d) v = if decide (vaddr_to_pdindex v = i) then None else mapping d v.
Proof.
  unfold mapping, unset_tab. simpl. rewrite lookup_delete. destruct (decide (vaddr_to_pdindex v = i)) as [->|Hne].
  - by rewrite decide_True.
  - by rewrite decide_False by (by apply not_eq_sym).
Qed.

Lemma unmap_table_run s d D B i t :
  ptinv s (d :: D) B → d_tabs d !! i = Some t →
  ∃ s', (pm_call (pm_page_free (tb_va t)) ;;; stw (pd_virtual (d_va d) i) NULL ;;; stw (pd_physical (d_va d) i) 0) s = RRet tt s' ∧
    ptinv s' (unset_tab i d :: D) B.
Proof.
  intros HI Ht. destruct (dir_lookup _ _ _ _ _ _ HI Ht) as (_ & _ & _ & _ & Hi & _).
  assert (Hr : 0 ≤ i < 1024) by (unfold user_index in Hi; lia).
  assert (Hm : pm_inv (pt_mem s) ((0%nat, tb_va t) :: ((unset_tab i d :: D) ≫= dir_blocks) ++ B)).
  { eapply pm_perm; [|apply HI]. rewrite !bind_cons, (unset_tab_blocks d i t) by done. done. }
  destruct (pm_page_free_ok _ _ _ Hm) as (m' & Ef & Hm').
  rewrite (kbind_of_ret _ _ _ _ _ (pm_call_run _ _ _ _ Ef)). set (s1 := with_pt_mem m' s).
  pose proof (pi_dirs _ _ _ HI d (list_elem_of_here _ _)) as [(Pw & Vw & HP & HV & _) _].
  assert (L1 : length Pw = 1024%nat) by (by eapply HI). assert (L2 : length Vw = 1024%nat) by (by eapply HI).
  destruct (dir_page_ok _ _ _ d (d_va d) HI) as [P1 K1]; [left|left|].
  destruct (dir_page_ok _ _ _ d (d_va d + 4096) HI) as [P2 K2]; [left|right; left|].
  assert (Hacc : kaccess (pt_frames s1) (pt_cr3 s1)) by exact (ptinv_access _ _ _ HI).
  unfold pd_virtual. change PAGE_SIZE with 4096.
  erewrite kbind_of_ret by (eapply stw_run; [done|done|done|exact HV]). set (s2 := upd_frames _ s1).
  assert (Hacc2 : kaccess (pt_frames s2) (pt_cr3 s2)).
  { eapply kaccess_set; [done|exact HV|by rewrite length_insert| |done].
    intros _ j Hj. apply list_lookup_insert_ne. intros <-. rewrite Z2Nat.id in Hj by lia. done. }
  unfold pd_physical. erewrite stw_run; [|done|done|done|simpl; rewrite lookup_insert_ne by lia; exact HP].
  eexists. split; [reflexivity|]. eapply ptinv_stored; [exact HI| |done|done|done|exact Hm'| |done].
  - simpl. apply stored_step; [apply stored_one|..]; rewrite ?length_insert; done.
  - simpl. intros d' [->|Hd']%elem_of_cons.
    + apply dir_in_unset; try done; [by eapply dir_nodup|]. apply (pi_dirs _ _ _ HI). left.
    + apply dir_in_frame; [|eapply dirs_frame; [exact HI|right; left|done]].
      intros q Hq E. destruct (ptinv_pages _ _ _ HI) as [Hn _]. rewrite bind_cons in Hn.
      apply NoDup_app in Hn as [Hn _]. apply NoDup_app in Hn as (_ & Hn & _). apply (Hn (d_va d)); [left|].
      replace (d_va d) with q by lia. apply list_elem_of_bind. eauto.
Qed.

Lemma unmap_table_any s d D B i :
  ptinv s (d :: D) B → user_index i →
  ∃ d' s', unmap_table (d_va d) i s = RRet tt s' ∧ ptinv s' (d' :: D) B ∧ d_va d' = d_va d ∧ d_tabs d' = delete i (d_tabs d).
Proof.
  intros HI Hu. unfold unmap_table. pose proof (dir_loads _ _ _ _ _ HI Hu) as Hld. destruct (d_tabs d !! i) as [t|] eqn:Ht.
  - destruct Hld as [L1 L2]. destruct (dir_lookup _ _ _ _ _ _ HI Ht) as (_ & _ & _ & _ & _ & Hpr & _).
    destruct (unmap_table_run _ _ _ _ _ _ HI Ht) as (s' & E & HI'). exists (unset_tab i d), s'.
    rewrite (kbind_of_ret _ _ _ _ _ L1), Hpr, (kbind_of_ret _ _ _ _ _ L2). done.
  - destruct Hld as (w & L1 & Hw). rewrite (kbind_of_ret _ _ _ _ _ L1), Hw. exists d, s. by rewrite delete_id.
Qed.

Lemma unmap_tables_run n s d D B i :
  ptinv s (d :: D) B → 1 ≤ i → i + Z.of_nat n ≤ 768 →
  ∃ d' s', unmap_tables n (d_va d) i s = RRet tt s' ∧ ptinv s' (d' :: D) B ∧ d_va d' = d_va d ∧
    ∀ k, d_tabs d' !! k = if decide (i ≤ k < i + Z.of_nat n) then None else d_tabs d !! k.
Proof.
  revert s d i. induction n as [|n IH]; intros s d i HI Hi Hn.
  { exists d, s. split_and!; [done|done|done|]. intros v. by rewrite decide_False by lia. }
  destruct (unmap_table_any s d D B i HI) as (d1 & s1 & E1 & HI1 & Ev & Hm1); [unfold user_index; lia|].
  destruct (IH s1 d1 (i + 1) HI1 ltac:(lia) ltac:(lia)) as (d2 & s2 & E2 & HI2 & Ev2 & Hm2).
  exists d2, s2. split_and!; [|done|congruence|].
  - simpl. rewrite (kbind_of_ret _ _ _ _ _ E1), <- Ev. done.
  - intros k. rewrite Hm2, Hm1, lookup_delete. repeat case_decide; try done; lia.
Qed.

(** The tables that lie in a range as a whole. *)
Definition table_inside (vlow vhigh k : Z) : Prop := vlow ≤ k * PT_VADDR_SIZE ∧ (k + 1) * PT_VADDR_SIZE ≤ vhigh.
#[global] Instance table_inside_dec vlow vhigh k : Decision (table_inside vlow vhigh k).
Proof. unfold table_inside. apply _. Defined.

Lemma inside_indices p i q j k :
  0 ≤ i < 1024 → 0 ≤ j < 1024 → let p' := if decide (i = 0) then p else p + 1 in
  table_inside (4096 * (1024 * p + i)) (4096 * (1024 * q + j)) k ↔ p' ≤ k < p' + Z.of_nat (Z.to_nat (q - p')).
Proof. intros Hi Hj. unfold table_inside. change PT_VADDR_SIZE with 0x400000. cbv zeta. case_decide; lia. Qed.

(** The indices of an address, as quotients and remainders of its page number. *)
Lemma indices v :
  0 ≤ v < 2 ^ 32 →
  v / 4096 = 1024 * vaddr_to_pdindex v + vaddr_to_ptindex v ∧ 0 ≤ vaddr_to_ptindex v < 1024 ∧ 0 ≤ vaddr_to_pdindex v < 1024.
Proof.
  intros Hv. destruct (index_range v Hv) as [H1 H2]. split; [|done]. rewrite pdindex_eq, ptindex_eq by done.
  change (2 ^ 22) with (4096 * 1024). rewrite <- Z.div_div by lia. apply Z.div_mod. lia.
Qed.

(** The pages that pt_unmap_range clears: those of the range, except when the range
    starts inside a page table and ends in the same one, where it is the whole
    table. *)
Definition range_cleared (vlow vhigh v : Z) : Prop :=
  if decide (vaddr_to_pdindex vlow = vaddr_to_pdindex vhigh ∧ vaddr_to_ptindex vlow ≠ 0)
  then vaddr_to_pdindex v = vaddr_to_pdindex vlow
  else vlow ≤ v < vhigh.
#[global] Instance range_cleared_dec vlow vhigh v : Decision (range_cleared vlow vhigh v).
Proof. unfold range_cleared. destruct (decide _); apply _. Defined.

Lemma range_cleared_iff vlow vhigh v :
  range_cleared vlow vhigh v ↔
  (vaddr_to_pdindex vlow = vaddr_to_pdindex vhigh ∧ vaddr_to_ptindex vlow ≠ 0 ∧ vaddr_to_pdindex v = vaddr_to_pdindex vlow) ∨
  (¬ (vaddr_to_pdindex vlow = vaddr_to_pdindex vhigh ∧ vaddr_to_ptindex vlow ≠ 0) ∧ vlow ≤ v < vhigh).
Proof. unfold range_cleared. destruct (decide _); tauto. Qed.

Lemma page_lt v w : (4096 | w) → w ≤ v ↔ w / 4096 ≤ v / 4096.
Proof.
  intros [k ->]. rewrite Z.div_mul by lia. split; intros.
  - apply Z.div_le_lower_bound; lia.
  - pose proof (Z.div_mod v 4096 ltac:(lia)). pose proof (Z.mod_pos_bound v 4096 ltac:(lia)). lia.
Qed.

Lemma range_ends vlow vhigh :
  vlow < vhigh → (4096 | vlow) → (4096 | vhigh) → USER_MEM_LOW ≤ vlow → vhigh ≤ USER_MEM_HIGH →
  let i := vaddr_to_ptindex vlow in let j := vaddr_to_ptindex vhigh in
  vaddr_to_pdindex (u32 (vlow + PAGE_SIZE * ((PT_ENTRY_COUNT - i) `mod` PT_ENTRY_COUNT))) =
    (if decide (i = 0) then vaddr_to_pdindex vlow else vaddr_to_pdindex vlow + 1) ∧
  vaddr_to_pdindex (u32 (vhigh - PAGE_SIZE * j)) = vaddr_to_pdindex vhigh ∧
  1 ≤ vaddr_to_pdindex vlow ≤ vaddr_to_pdindex vhigh ∧ vaddr_to_pdindex vhigh ≤ 768 ∧
  (vaddr_to_pdindex vhigh = 768 → j = 0) ∧ vaddr_to_pdindex vlow < 768.
Proof.
  intros Hlt [a ->] [b ->] Hlo Hhi. unfold USER_MEM_LOW, USER_MEM_HIGH in *. cbv zeta.
  destruct (indices (a * 4096) ltac:(lia)) as (E1 & R1 & _). destruct (indices (b * 4096) ltac:(lia)) as (E2 & R2 & _).
  rewrite Z.div_mul in E1, E2 by lia. set (i := vaddr_to_ptindex (a * 4096)) in *. set (j := vaddr_to_ptindex (b * 4096)) in *.
  set (p := vaddr_to_pdindex (a * 4096)) in *. set (q := vaddr_to_pdindex (b * 4096)) in *.
  assert (Hbase : ∀ k, 0 ≤ k < 1024 → vaddr_to_pdindex (u32 (k * 1024 * 4096)) = k).
  { intros k Hk. rewrite u32_small, pdindex_eq by lia. replace (k * 1024 * 4096) with (k * 2 ^ 22) by lia. apply Z.div_mul. lia. }
  change PAGE_SIZE with 4096. change PT_ENTRY_COUNT with 1024. split_and!; [|rewrite <- (Hbase q) by lia; do 2 f_equal; lia|lia..].
  case_decide as Hi.
  - rewrite Hi. change ((1024 - 0) `mod` 1024) with 0. rewrite <- (Hbase p) by lia. do 2 f_equal. lia.
  - rewrite Z.mod_small by lia. rewrite <- (Hbase (p + 1)) by lia. do 2 f_equal. lia.
Qed.

Lemma range_parts (p i q j X y p' : Z) :
  0 ≤ i < 1024 → 0 ≤ j < 1024 → 0 ≤ y < 1024 → 1024 * p + i < 1024 * q + j → p' = (if decide (i = 0) then p else p + 1) →
  (p = q ∧ i ≠ 0 ∧ X = p) ∨ (¬ (p = q ∧ i ≠ 0) ∧ 1024 * p + i ≤ 1024 * X + y < 1024 * q + j) ↔
  p' ≤ X < p' + Z.of_nat (Z.to_nat (q - p')) ∨ (j ≠ 0 ∧ X = q ∧ 0 ≤ y < 0 + j) ∨ (i ≠ 0 ∧ X = p ∧ i ≤ y < i + (1024 - i)).
Proof.
  intros Hi Hj Hy Hlt ->. destruct (decide (i = 0)) as [->|Hne].
  - rewrite Z2Nat.id by lia. lia.
  - destruct (decide (p = q)) as [->|Hpq].
    + replace (Z.to_nat (q - (q + 1))) with 0%nat by lia. lia.
    + rewrite Z2Nat.id by lia. lia.
Qed.

Lemma pt_unmap_range_run s d D B vlow vhigh :
  ptinv s (d :: D) B → vlow < vhigh → (4096 | vlow) → (4096 | vhigh) → USER_MEM_LOW ≤ vlow → vhigh ≤ USER_MEM_HIGH →
  ∃ d' s', pt_unmap_range (d_va d) vlow vhigh s = RRet tt s' ∧ ptinv s' (d' :: D) B ∧ d_va d' = d_va d ∧
    tab_vas d' = filter (λ kv, ¬ table_inside vlow vhigh kv.1) (tab_vas d) ∧
    ∀ v, user_addr v → mapping d' v = if decide (range_cleared vlow vhigh v) then None else mapping d v.
Proof.
  intros HI Hlt Ha Hb Hlo Hhi. destruct (range_ends vlow vhigh Hlt Ha Hb Hlo Hhi) as (E1 & E2 & R1 & R2 & R3 & R4).
  assert (Hr1 : 0 ≤ vlow < 2 ^ 32) by (unfold USER_MEM_LOW, USER_MEM_HIGH in *; lia).
  assert (Hr2 : 0 ≤ vhigh < 2 ^ 32) by (unfold USER_MEM_LOW, USER_MEM_HIGH in *; lia).
  destruct (indices vlow Hr1) as (Q1 & I1 & _). destruct (indices vhigh Hr2) as (Q2 & I2 & _).
  unfold pt_unmap_range. rewrite !kassert_next by (try (by rewrite !page_aligned); lia). cbv zeta. rewrite E1, E2.
  set (i := vaddr_to_ptindex vlow) in *. set (j := vaddr_to_ptindex vhigh) in *.
  set (p := vaddr_to_pdindex vlow) in *. set (q := vaddr_to_pdindex vhigh) in *. change PT_ENTRY_COUNT with 1024.
  destruct (clear_part_run s d D B p i i (1024 - i) HI) as (d1 & s1 & C1 & HI1 & V1 & T1 & M1); [lia|unfold user_index; lia|lia..|].
  rewrite (kbind_of_ret _ _ _ _ _ C1), <- V1.
  destruct (clear_part_run s1 d1 D B q j 0 j HI1) as (d2 & s2 & C2 & HI2 & V2 & T2 & M2); [lia|unfold user_index; lia|lia..|].
  rewrite (kbind_of_ret _ _ _ _ _ C2), <- V2. set (p' := if decide (i = 0) then p else p + 1).
  assert (Hp' : 1 ≤ p' ∧ p ≤ p' ≤ p + 1) by (unfold p'; case_decide; lia).
  destruct (unmap_tables_run (Z.to_nat (q - p')) s2 d2 D B p' HI2) as (d3 & s3 & C3 & HI3 & V3 & M3); [lia|unfold p' in *; case_decide; lia|].
  assert (M3' : ∀ v, mapping d3 v = if decide (p' ≤ vaddr_to_pdindex v < p' + Z.of_nat (Z.to_nat (q - p'))) then None else mapping d2 v).
  { intros v. unfold mapping. rewrite M3. by destruct (decide (p' ≤ vaddr_to_pdindex v < _)). }
  exists d3, s3. split_and!; [done|done|congruence| |].
  { apply fin_maps.map_eq. intros k. rewrite map_lookup_filter, <- T1, <- T2. unfold tab_vas. rewrite !lookup_fmap, M3.
    destruct Ha as [a ->], Hb as [b ->]. rewrite Z.div_mul in Q1, Q2 by lia. rewrite (Z.mul_comm a), (Z.mul_comm b), Q1, Q2.
    pose proof (inside_indices p i q j k I1 I2) as Hin. cbv zeta in Hin. fold p' in Hin.
    destruct (decide (p' ≤ k < _)), (d_tabs d2 !! k); cbn -[table_inside]; try done; [rewrite option_guard_False by tauto|rewrite option_guard_True by tauto]; done. }
  intros v Hv. rewrite M3', M2, M1 by done.
  destruct (user_addr_index v Hv) as (Hvr & _). destruct (indices v Hvr) as (Q & I & _).
  pose proof (page_lt v vlow Ha) as O1. pose proof (page_lt v vhigh Hb) as O2. pose proof (page_lt vlow vhigh Hb) as O3.
  pose proof (range_parts p i q j (vaddr_to_pdindex v) (vaddr_to_ptindex v) p' I1 I2 I ltac:(lia) eq_refl) as Hcl.
  rewrite <- Q, <- Q1, <- Q2 in Hcl. unfold part_cleared.
  assert (Hrc : range_cleared vlow vhigh v ↔ (p = q ∧ i ≠ 0 ∧ vaddr_to_pdindex v = p) ∨
    (¬ (p = q ∧ i ≠ 0) ∧ vlow / 4096 ≤ v / 4096 < vhigh / 4096)).
  { rewrite range_cleared_iff. fold i p q. rewrite O1. assert (v < vhigh ↔ v / 4096 < vhigh / 4096) as -> by lia. done. }
  rewrite Hcl in Hrc. clear Hcl.
  destruct (decide (range_cleared vlow vhigh v)) as [Hc|Hc]; rewrite Hrc in Hc; clear -Hc; repeat case_decide; tauto.
Qed.

(** ** Creating and destroying directories *)

Lemma new_pages s D B a :
  ptinv s D ((1%nat, a) :: B) →
  (P a ∧ kmapped a ∧ a ∉ D ≫= dir_pages) ∧ (P (a + 4096) ∧ kmapped (a + 4096) ∧ a + 4096 ∉ D ≫= dir_pages).
Proof.
  intros HI. destruct (ptinv_pages _ _ _ HI) as [Hn HP]. rewrite bind_cons, block_pages_1 in Hn, HP.
  rewrite Forall_forall in HP. apply NoDup_app in Hn as (_ & Hn & _).
  assert (P a) by (apply HP, elem_of_app; right; left). assert (P (a + 4096)) by (apply HP, elem_of_app; right; right; left).
  split; (split_and!; [done|by apply (lo_pages Hly)|]); intros Hin; apply (Hn _ Hin); [left|right; left].
Qed.

Lemma pt_create_run s D B dt :
  ptinv s D B → dt ∈ D → d_va dt = template_pagedir s → d_tabs dt = ∅ →
  (∃ a s', pt_create_pagedir s = RRet a s' ∧ a ≠ NULL ∧ ptinv s' (Dir a ∅ :: D) B ∧
     template_pagedir s' = template_pagedir s ∧ current_pagedir s' = current_pagedir s) ∨
  (∃ s', pt_create_pagedir s = RRet NULL s' ∧ ptinv s' D B ∧
     template_pagedir s' = template_pagedir s ∧ current_pagedir s' = current_pagedir s).
Proof.
  intros HI Hdt Ht Het. unfold pt_create_pagedir.
  destruct (pm_page_alloc_2_ok _ _ (pi_mem _ _ _ HI)) as [(a & m' & Ha & Hnn & Hm)|(m' & Ha & Hm)]; [left|right];
    rewrite (kbind_of_ret _ _ _ _ _ (pm_call_run _ _ _ _ Ha)).
  2: { exists (with_pt_mem m' s). split_and!; [done|by eapply ptinv_mem|done|done]. }
  replace (a =? NULL) with false by (symmetry; by apply Z.eqb_neq). rewrite kgets_next. set (s1 := with_pt_mem m' s).
  assert (HI1 : ptinv s1 D ((1%nat, a) :: B)). { eapply ptinv_mem; [done|]. eapply pm_perm; [|exact Hm]. solve_Permutation. }
  destruct (new_pages _ _ _ _ HI1) as [(P1 & K1 & N1) (P2 & K2 & N2)].
  destruct (frame_words _ _ _ _ HI1 P1) as (w1 & Hw1 & _). destruct (frame_words _ _ _ _ HI1 P2) as (w2 & Hw2 & _).
  pose proof (pi_dirs _ _ _ HI1 dt Hdt) as [(Pw & Vw & HP & HV & D1 & D2) _].
  assert (L1 : length Pw = 1024%nat) by (by eapply HI1). assert (L2 : length Vw = 1024%nat) by (by eapply HI1).
  assert (Hin : ∀ q, q ∈ [d_va dt; d_va dt + 4096] → q ∈ D ≫= dir_pages).
  { intros q Hq. apply list_elem_of_bind. exists dt. split; [|done]. unfold dir_pages. set_solver. }
  destruct (dir_page_ok _ _ _ dt (d_va dt) HI1 Hdt) as [_ K3]; [left|].
  destruct (dir_page_ok _ _ _ dt (d_va dt + 4096) HI1 Hdt) as [_ K4]; [right; left|].
  change (template_pagedir s1) with (template_pagedir s). rewrite <- Ht.
  assert (Hne : d_va dt + 4096 ≠ a ∧ d_va dt ≠ a) by (split; intros E; apply N1; rewrite <- E; apply Hin; set_solver).
  erewrite kbind_of_ret by (eapply copy_page_run; [by eapply ptinv_access|done|done|done|done]). set (s2 := upd_frames _ s1).
  assert (HI2 : ptinv s2 D ((1%nat, a) :: B)).
  { eapply ptinv_stored; [exact HI1|by apply stored_one|done|done|done|apply HI1| |done]. by eapply dirs_frame_other. }
  change PAGE_SIZE with 4096.
  erewrite kbind_of_ret; [|eapply copy_page_run; [by eapply ptinv_access|done|exact K4| |];
    simpl; rewrite lookup_insert_ne by lia; done].
  eexists a, _. split; [reflexivity|]. split_and!; [done| |done|done].
  eapply ptinv_stored; [exact HI2|by apply stored_one|done|done|done| | |].
  - eapply pm_perm; [|apply HI2]. rewrite bind_cons. unfold dir_blocks at 2, tabs_pages. simpl. rewrite map_to_list_empty. solve_Permutation.
  - intros d' [->|Hd']%elem_of_cons; [|by eapply dirs_frame_other]. split; [|by intros ? ? [=]].
    exists Pw, Vw. simpl. rewrite lookup_insert_eq, lookup_insert_ne, lookup_insert_eq by lia. split; [done|]. split; [done|].
    split; [done|]. intros i Hi. specialize (D2 i Hi). rewrite Het in D2. simpl. by rewrite lookup_empty in D2 |- *.
  - rewrite fmap_cons. set_solver.
Qed.

(** The tables from an index on. *)
Definition tabs_from (i : Z) (d : dir) : dir := Dir (d_va d) (filter (λ kt, i ≤ kt.1) (d_tabs d)).

Lemma tabs_from_step i d :
  tabs_pages (tabs_from i d) ≡ₚ
  match d_tabs d !! i with Some t => [tb_va t] | None => [] end ++ tabs_pages (tabs_from (i + 1) d).
Proof.
  destruct d as [va m]. unfold tabs_from. simpl.
  assert (E : delete i (filter (λ kt : Z * tab, i ≤ kt.1) m) = filter (λ kt, i + 1 ≤ kt.1) m).
  { apply fin_maps.map_eq. intros k. apply option_eq. intros t. rewrite lookup_delete_Some, !map_lookup_filter_Some. simpl.
    split; [intros (? & ? & ?); split; [done|lia]|intros (? & ?); split_and!; [lia|done|lia]]. }
  destruct (m !! i) as [t|] eqn:Ht.
  - rewrite <- E. apply tabs_pages_delete. apply map_lookup_filter_Some. simpl. split; [done|lia].
  - simpl. rewrite <- E, delete_id; [done|]. apply map_lookup_filter_None. by left.
Qed.

Lemma free_tables_run n s d D B m i R :
  ptinv s (d :: D) B → 1 ≤ i → i + Z.of_nat n = 768 →
  pm_inv m ((pair 0%nat <$> tabs_pages (tabs_from i d)) ++ R) →
  ∃ m', free_tables n (d_va d) i (with_pt_mem m s) = RRet tt (with_pt_mem m' s) ∧ pm_inv m' R.
Proof.
  intros HI. revert m i. induction n as [|n IH]; intros m i Hi Hn Hm.
  - exists m. split; [done|]. replace (tabs_pages (tabs_from i d)) with (@nil Z) in Hm; [done|].
    unfold tabs_pages, tabs_from. simpl. replace (filter _ _) with (∅ : gmap Z tab); [by rewrite map_to_list_empty|].
    symmetry. apply map_empty. intros k. apply map_lookup_filter_None. right. intros t Ht. simpl.
    pose proof (pi_dirs _ _ _ HI d (list_elem_of_here _ _)) as [_ Hu]. specialize (Hu _ _ Ht). unfold user_index in Hu. lia.
  - rewrite tabs_from_step in Hm. simpl free_tables.
    assert (Hu : user_index i) by (unfold user_index; lia).
    assert (HI' : ptinv (with_pt_mem (pt_mem s) s) (d :: D) B) by (by destruct s).
    assert (∃ m1, free_table (d_va d) i (with_pt_mem m s) = RRet tt (with_pt_mem m1 s) ∧
      pm_inv m1 ((pair 0%nat <$> tabs_pages (tabs_from (i + 1) d)) ++ R)) as (m1 & E1 & Hm1).
    { unfold free_table. pose proof (pi_dirs _ _ _ HI d (list_elem_of_here _ _)) as [(Pw & Vw & HP & HV & D1 & D2) _].
      destruct (dir_page_ok _ _ _ d (d_va d) HI) as [_ K1]; [left|left|].
      destruct (dir_page_ok _ _ _ d (d_va d + 4096) HI) as [_ K2]; [left|right; left|].
      assert (Hacc : kaccess (pt_frames (with_pt_mem m s)) (pt_cr3 (with_pt_mem m s))) by exact (ptinv_access _ _ _ HI).
      specialize (D2 (Z.to_nat i)). rewrite Z2Nat.id in D2 by lia. specialize (D2 Hu). unfold pd_physical, pd_virtual.
      destruct (d_tabs d !! i) as [t|].
      - destruct D2 as (W1 & Hpr & _ & W2 & _).
        rewrite (kbind_of_ret _ _ _ _ _ (ldw_run _ _ i Pw _ Hacc K1 ltac:(lia) HP W1)), Hpr. change PAGE_SIZE with 4096.
        rewrite (kbind_of_ret _ _ _ _ _ (ldw_run _ _ i Vw _ Hacc K2 ltac:(lia) HV W2)).
        destruct (pm_page_free_ok m _ (tb_va t) Hm) as (m1 & Ef & Hm1). exists m1. split; [|done].
        by rewrite (pm_call_run _ (with_pt_mem m s) _ _ Ef).
      - destruct D2 as (w & W1 & Hw).
        rewrite (kbind_of_ret _ _ _ _ _ (ldw_run _ _ i Pw _ Hacc K1 ltac:(lia) HP W1)), Hw. exists m. done. }
    rewrite (kbind_of_ret _ _ _ _ _ E1). apply IH; [lia|lia|done].
Qed.

Lemma pt_destroy_run s d D B :
  ptinv s (d :: D) B → d_va d ≠ current_pagedir s →
  ∃ s', pt_destroy_pagedir (d_va d) s = RRet tt s' ∧ ptinv s' D B ∧
    template_pagedir s' = template_pagedir s ∧ current_pagedir s' = current_pagedir s.
Proof.
  intros HI Hcur. destruct (dir_page_ok _ _ _ d (d_va d) HI) as [_ ((Hal & _) & _)]; [left|left|].
  unfold pt_destroy_pagedir. rewrite kassert_next by (by apply page_aligned). cbv zeta. rewrite kassert_next by done.
  change (USER_MEM_LOW / PT_VADDR_SIZE) with 1. change (Z.to_nat _) with 767%nat.
  destruct (free_tables_run 767 s d D B (pt_mem s) 1 ((1%nat, d_va d) :: (D ≫= dir_blocks) ++ B) HI) as (m1 & E1 & Hm1); [lia|lia| |].
  { eapply pm_perm; [|apply HI]. rewrite bind_cons. unfold dir_blocks at 1.
    replace (tabs_pages (tabs_from 1 d)) with (tabs_pages d); [solve_Permutation|].
    unfold tabs_from, tabs_pages. simpl. rewrite map_filter_id; [done|]. intros k t Ht.
    pose proof (pi_dirs _ _ _ HI d (list_elem_of_here _ _)) as [_ Hu]. specialize (Hu _ _ Ht). unfold user_index in Hu. simpl. lia. }
  replace (with_pt_mem (pt_mem s) s) with s in E1 by (by destruct s). rewrite (kbind_of_ret _ _ _ _ _ E1).
  destruct (pm_page_free_2_ok _ _ _ Hm1) as (m2 & E2 & Hm2).
  rewrite (pm_call_run _ (with_pt_mem m1 s) _ _ E2). exists (with_pt_mem m2 s). split_and!; [done| |done|done].
  pose proof HI as [H1 H2 H3 H4 H5 H6 [(d0 & [->|Hd0]%elem_of_cons & Hc & Hr)|H7]]; [done|..];
    (split; try done; [intros d' Hd'; apply H5; by right|]); [left; by exists d0|by right].
Qed.
(** ** Switching *)

Lemma pt_set_run s D B d :
  ptinv s D B → d ∈ D →
  ∃ s', pt_set (d_va d) s = RRet tt s' ∧ ptinv s' D B ∧ current_pagedir s' = d_va d ∧ pt_cr3 s' = phys (d_va d) ∧
    template_pagedir s' = template_pagedir s.
Proof.
  intros HI Hd. destruct (dir_page_ok _ _ _ d (d_va d) HI Hd) as [_ K]; [left|].
  destruct (virt_to_phys_run _ _ _ _ 0 HI K ltac:(lia)) as (s1 & E & HI1 & Hts). rewrite !Z.add_0_r in E.
  unfold pt_set, pd_physical. rewrite Z.add_0_r, (kbind_of_ret _ _ _ _ _ E).
  eexists. split; [reflexivity|]. split_and!; [|done|done|apply Hts].
  destruct HI1 as [H1 H2 H3 H4 H5 H6 H7]. split; try done. left. eauto.
Qed.

(** ** The template *)

(** The directory of the boot: its second page has the address [low] of the table
    for the first 4 megabytes, which holds nothing else. *)
Record boot_state (s : ptstate M) (low : Z) : Prop := {
  bs_dir : boot_dir (current_pagedir s) (pt_cr3 s);
  bs_user i : user_index i → ∃ w, ly_words ly !! Z.to_nat i = Some w ∧ present w = false;
  bs_virt : kmapped (current_pagedir s + 4096) ∧ ∃ Vw, pt_frames s !! phys (current_pagedir s + 4096) = Some Vw ∧ Vw !! 0%nat = Some low;
  bs_low : kmapped low ∧ ¬ P low ∧ ly_tables ly !! phys low = None ∧ is_Some (pt_frames s !! phys low) ∧
           low ≠ current_pagedir s + 4096;
  bs_virt_free : ¬ P (current_pagedir s + 4096);
  bs_virt_final : current_pagedir s + 4096 ≠ ly_final ly
}.

(** Setting the directory of the boot again. *)
Lemma pt_set_boot s B low :
  ptinv s [] B → boot_state s low →
  ∃ s', pt_set (current_pagedir s) s = RRet tt s' ∧ ptinv s' [] B ∧ boot_state s' low ∧ current_pagedir s' = current_pagedir s ∧ pt_mem s' = pt_mem s.
Proof.
  intros HI Hb. pose proof (bs_dir _ _ Hb) as (Kc & Ecr & Nf & Tc).
  destruct (virt_to_phys_run _ _ _ _ 0 HI Kc ltac:(lia)) as (s1 & E & HI1 & [T1 T2 T3 T4]). rewrite !Z.add_0_r in E.
  unfold pt_set, pd_physical. rewrite Z.add_0_r, (kbind_of_ret _ _ _ _ _ E).
  eexists. split; [reflexivity|]. split_and!; [|destruct Hb as [B1 B2 (Kv & Vw & HV & V0) (Kl & Pl & Tl & Hlw & Nl) B5 B6]; split; simpl|done|done].
  - destruct HI1 as [H1 H2 H3 H4 H5 H6 H7]. split; try done. right. split_and!; done.
  - done.
  - done.
  - split; [done|]. exists Vw. rewrite T2; [done|]. lia.
  - split_and!; [done..| |done]. rewrite T2; [done|]. intros Ef. destruct (lo_final Hly) as [_ [t Ht]]. congruence.
  - done.
  - done.
Qed.

Lemma ptinv_low s B low ws :
  ptinv s [] B → ly_tables ly !! phys low = None → length ws = 1024%nat → ptinv (upd_frames <[phys low := ws]> s) [] B.
Proof.
  intros [H1 H2 H3 H4 H5 H6 H7] Hn Hl. split; simpl; try done.
  - intros f w. rewrite lookup_insert. case_decide; intros; simplify_eq; eauto.
  - intros p Hp. rewrite lookup_insert. case_decide; eauto.
  - intros f t Hf. destruct (H4 f t Hf) as (t' & Ht' & Hw). exists t'. split; [|done].
    rewrite lookup_insert_ne; [done|congruence].
  - by intros d Hd%elem_of_nil.
Qed.

Lemma pt_template_init_run s B low :
  ptinv s [] B → boot_state s low →
  (∃ t s', pt_template_init s = RRet tt s' ∧ ptinv s' [Dir t ∅] B ∧ template_pagedir s' = t ∧ current_pagedir s' = current_pagedir s) ∨
  (∃ m', pm_page_alloc_n 2 (pt_mem s) = RRet NULL m') ∧ pt_template_init s = RPanic "NULL != template_pagedir".
Proof.
  intros HI [Hb Hu [Kv (Vw & HV & V0)] (Kl & Pl & Tl & [lw Hlw] & Nl) Pv _]. pose proof Hb as (Kc & Ecr & Nf & Tc).
  unfold pt_template_init. rewrite kgets_next. unfold pd_virtual. change PAGE_SIZE with 4096.
  rewrite (kbind_of_ret _ _ _ _ _ (ldw_run s (current_pagedir s + 4096) 0 Vw low (ptinv_access _ _ _ HI) Kv ltac:(lia) HV V0)).
  unfold clear_page. rewrite (kbind_of_ret _ _ _ _ _ (st_page_run s low lw _ (ptinv_access _ _ _ HI) Kl Hlw)).
  change (Z.to_nat PT_ENTRY_COUNT) with 1024%nat. set (s1 := upd_frames _ s).
  assert (HI1 : ptinv s1 [] B) by (by apply ptinv_low; [..|apply length_replicate]).
  assert (HV1 : pt_frames s1 !! phys (current_pagedir s + 4096) = Some Vw) by (simpl; rewrite lookup_insert_ne by lia; done).
  destruct (pm_page_alloc_2_ok _ _ (pi_mem _ _ _ HI1)) as [(a & m' & Ha & Hnn & Hm)|(m' & Ha & Hm)]; [left|right];
    rewrite (kbind_of_ret _ _ _ _ _ (pm_call_run _ _ _ _ Ha)); [|split; [by exists m'|reflexivity]].
  unfold kmodify at 1. erewrite kbind_of_ret by reflexivity.
  rewrite kassert_next by (apply negb_true_iff; by apply Z.eqb_neq). set (s2 := with_template a _).
  assert (HI2 : ptinv s2 [] ((1%nat, a) :: B)) by (destruct HI1; by split).
  destruct (new_pages _ _ _ _ HI2) as [(P1 & K1 & _) (P2 & K2 & _)].
  destruct (frame_words _ _ _ _ HI2 P1) as (w1 & Hw1 & _). destruct (frame_words _ _ _ _ HI2 P2) as (w2 & Hw2 & _).
  destruct (pi_kernel _ _ _ HI2 _ _ Tc) as (Pw & HPw & HPe).
  assert (L1 : length Pw = 1024%nat) by (by eapply HI2). assert (L2 : length Vw = 1024%nat) by (by eapply HI2).
  erewrite kbind_of_ret by (eapply copy_page_run; [by eapply ptinv_access|done|exact Kc|done|exact HPw]). set (s3 := upd_frames _ s2).
  assert (HI3 : ptinv s3 [] ((1%nat, a) :: B)).
  { eapply ptinv_stored; [exact HI2|by apply stored_one|done|done|done|apply HI2| |done]. by intros d ?%elem_of_nil. }
  eexists a, _. split.
  { eapply copy_page_run; [by eapply ptinv_access|exact K2|exact Kv| |]; simpl; rewrite lookup_insert_ne; [done|lia|done|].
    intros E. apply Pv. by replace (current_pagedir s + 4096) with a by lia. }
  split_and!; [|done|done].
  eapply ptinv_stored; [exact HI3|by apply stored_one|done|done|done| | |by intros ? ?%elem_of_nil].
  - eapply pm_perm; [|apply HI3]. rewrite bind_cons. unfold dir_blocks, tabs_pages. simpl. rewrite map_to_list_empty. done.
  - intros d ->%list_elem_of_singleton. split; [|by intros ? ? [=]].
    exists Pw, Vw. simpl. rewrite lookup_insert_eq, lookup_insert_ne, lookup_insert_eq by lia. split; [done|]. split; [done|]. split.
    + intros i _ _. by apply HPe.
    + intros i Hi. simpl. destruct (Hu _ Hi) as (w & Hw & Hp). exists w. rewrite HPe by done. by rewrite Nat2Z.id in Hw.
Qed.
End Inv.
