(* ===== verification/PageTableProps.v ===== *)
(** Page tables: the theorems about pagetable.c, and the page allocator that keeps
    what they rely on. *)

From stdpp Require Import base numbers list gmap strings.
From S2P Require Import Prelude PageAlloc Slab KMem PageTable PageTableInv.

Open Scope Z_scope.

(** * The allocator of page.c *)

(** The pages between the ends of the page groups. *)
Definition managed (rs : list (Z * Z)) (p : Z) : Prop := (4096 | p) ∧ ∃ r, r ∈ rs ∧ r.1 ≤ p < r.2.

Definition slab_pm_inv (rs : list (Z * Z)) (m : pstate * sstate) (B : list block) : Prop :=
  ranges m.1 = rs ∧ ∃ B' L, sinv m (B ++ B') L.

Lemma bytes_pages o : bytes_of o = 4096 * pages_of o.
Proof. unfold bytes_of, PAGE_SHIFT. rewrite Z.shiftl_mul_pow2 by lia. change (2 ^ 12) with 4096. lia. Qed.

Lemma elem_of_block_pages b p : p ∈ block_pages b ↔ ∃ k, 0 ≤ k < pages_of b.1 ∧ p = b.2 + 4096 * k.
Proof.
  unfold block_pages. rewrite list_elem_of_fmap. setoid_rewrite elem_of_seqZ. split.
  - intros (k & -> & Hk). exists k. split; [lia|done].
  - intros (k & Hk & ->). exists k. split; [done|lia].
Qed.

Lemma pinv_pages s A B R :
  pinv s A → A ≡ₚ B ++ R → NoDup (B ≫= block_pages) ∧ Forall (managed (ranges s)) (B ≫= block_pages).
Proof.
  intros Hp HA. split.
  - revert R HA. induction B as [|b B IH]; intros R HA; [constructor|]. rewrite bind_cons. apply NoDup_app. split_and!.
    + unfold block_pages. apply NoDup_fmap_2_strong; [intros; lia|apply NoDup_seqZ].
    + intros p (k & Hk & ->)%elem_of_block_pages (b' & Hpb & Hb')%list_elem_of_bind.
      apply elem_of_Permutation in Hb' as [B' HB']. apply elem_of_block_pages in Hpb as (k' & Hk' & E).
      assert (HP : A ≡ₚ b :: b' :: B' ++ R) by (rewrite HA, HB'; done).
      pose proof (live_disjoint _ _ _ _ _ Hp HP). rewrite !bytes_pages in *. lia.
    + apply (IH (b :: R)). rewrite HA. solve_Permutation.
  - apply Forall_forall. intros p (b & Hpb & Hb)%list_elem_of_bind. apply elem_of_block_pages in Hpb as (k & Hk & ->).
    destruct (pinv_blk _ _ b Hp ltac:(rewrite HA; set_solver)) as (i & g & Hg & _ & (_ & H1 & H2 & H3)).
    destruct (pi_group _ _ Hp g ltac:(by eapply list_elem_of_lookup_2)) as (HG & _).
    rewrite bytes_pages in H2, H3. split.
    + apply Z.divide_add_r; [|apply Z.divide_factor_l]. replace b.2 with (pg_baseaddr g + (b.2 - pg_baseaddr g)) by lia.
      apply Z.divide_add_r; [apply HG|]. etrans; [apply Z.divide_factor_l|exact H3].
    + exists (pg_baseaddr g, pg_endaddr g). split; [|simpl; lia].
      unfold ranges. apply list_elem_of_fmap. exists g. split; [done|by eapply list_elem_of_lookup_2].
Qed.

Lemma alloc_order_run rs m B o :
  (o < PAGE_NSIZES)%nat → slab_pm_inv rs m B →
  (∃ a m', _page_alloc_order slab_allocators_reclaim o m = RRet (Some a) m' ∧ a ≠ NULL ∧ slab_pm_inv rs m' ((o, a) :: B)) ∨
  (∃ m', _page_alloc_order slab_allocators_reclaim o m = RRet None m' ∧ slab_pm_inv rs m' B).
Proof.
  intros Ho [Hrs (B' & L & HS)].
  destruct (page_alloc_order_run slab_allocators_reclaim m _ o (si_pages _ _ _ HS)) as [(a & [p ss] & Hrun & Ess & _ & Hrg & Hp)|[_ Hrec]]; [done|left|right].
  - simpl in Ess. subst ss. exists a, (p, m.2).
    assert (Hpos : 0 < a) by (apply (pinv_pos _ _ (o, a) Hp); left).
    split_and!; [done|unfold NULL; lia|]. split; [simpl in *; congruence|]. exists B', L.
    eapply sinv_pages; [exact HS|]. eapply pinv_Permutation; [|exact Hp]. solve_Permutation.
  - destruct (reclaim_run m _ L 0 HS) as (n & m' & Hrun & HS' & Hrc & _).
    exists m'. split; [by eapply Hrec|]. split; [rewrite (rc_ranges _ _ _ Hrc); done|]. eauto.
Qed.

Lemma free_order_run rs m B o a :
  slab_pm_inv rs m ((o, a) :: B) → ∃ m', _page_free_order a o m = RRet tt m' ∧ slab_pm_inv rs m' B.
Proof.
  intros [Hrs (B' & L & HS)].
  destruct (page_free_order_run m ((block_of m.2 <$> entries m.2) ++ (B ++ B')) o a) as ([p ss] & Hrun & Ess & _ & Hrg & Hp).
  { eapply pinv_Permutation; [|apply (si_pages _ _ _ HS)]. solve_Permutation. }
  simpl in Ess. subst ss. exists (p, m.2). split; [done|]. split; [simpl in *; congruence|]. exists B', L. by eapply sinv_pages.
Qed.

(** The allocator keeps what pagetable.c relies on. *)
#[export] Instance slab_pagemem_laws rs : PageMemLaws (pstate * sstate) (managed rs).
Proof.
  refine {| pm_inv := slab_pm_inv rs |}.
  - intros m B B' HB [Hrs (B0 & L & HS)]. split; [done|]. exists B0, L.
    eapply sinv_pages with (p := m.1) in HS; [by destruct m|]. eapply pinv_Permutation; [|apply (si_pages _ _ _ HS)]. by rewrite HB.
  - intros m B [<- (B' & L & HS)]. apply (pinv_pages _ _ B ((block_of m.2 <$> entries m.2) ++ B') (si_pages _ _ _ HS)). solve_Permutation.
  - intros m B HI. destruct (alloc_order_run rs m B 0 ltac:(unfold PAGE_NSIZES; lia) HI) as [(a & m' & E & ? & ?)|(m' & E & ?)];
      [left; exists a, m'|right; exists m']; simpl; unfold page_alloc; rewrite (kbind_of_ret _ _ _ _ _ E); done.
  - intros m B HI. destruct (alloc_order_run rs m B 1 ltac:(unfold PAGE_NSIZES; lia) HI) as [(a & m' & E & ? & ?)|(m' & E & ?)];
      [left; exists a, m'|right; exists m']; simpl; unfold page_alloc_n; change (order_for 2) with (Some 1%nat);
      cbv iota; rewrite (kbind_of_ret _ _ _ _ _ E); done.
  - intros m B a HI. simpl. by apply free_order_run.
  - intros m B a HI. simpl. unfold page_free_n. change (order_for 2) with (Some 1%nat). by apply free_order_run.
Defined.

(** * Address spaces *)

(** What the processor makes of a user address under the directory [pd]. *)
Definition translate (ly : layout) {M} (s : ptstate M) (pd v : Z) : option Z := page_walk (pt_frames s) (pd - ly_delta ly) v.

Definition same_space (ly : layout) {M} (s s' : ptstate M) (pd : Z) : Prop :=
  ∀ v, user_addr v → translate ly s' pd v = translate ly s pd v.

Lemma user_page v off :
  user_addr v → (4096 | v) → 0 ≤ off < 4096 →
  user_addr (v + off) ∧ (v + off) / 4096 = v / 4096 ∧ vaddr_to_offset (v + off) = off.
Proof.
  intros Hv Hal Ho. assert (Hp : page v) by (split; [done|unfold user_addr, USER_MEM_LOW, USER_MEM_HIGH in Hv; lia]).
  destruct (page_split v off Hp Ho) as (_ & E & _). destruct (page_index v off Hp Ho) as (_ & _ & Eo & _). split_and!; [..|done|done];
    unfold user_addr, USER_MEM_LOW, USER_MEM_HIGH in *; destruct Hal as [k ->]; lia.
Qed.

Section Spaces.
Context (P : Z → Prop) (ly : layout) {M : Type} `{PageMem M} `{!PageMemLaws M P} (Hly : layout_ok P ly).

Lemma translate_user s D B d v :
  ptinv P ly s D B → d ∈ D → user_addr v →
  translate ly s (d_va d) v = (λ w, Z.land w PAGE_MASK + vaddr_to_offset v) <$> mapping d v.
Proof. intros. by eapply walk_user. Qed.

Lemma same_spaces s s' D D' B B' :
  ptinv P ly s D B → ptinv P ly s' D' B' → ∀ d, d ∈ D → d ∈ D' → same_space ly s s' (d_va d).
Proof. intros HI HI' d Hd Hd' v Hv. by rewrite !(translate_user _ _ _ d) by done. Qed.

(** A directory [d'] in the place of [d] whose mappings are those of [d] but for the
    pages where [Q] holds. *)
Lemma translate_changed s s' d d' D B B' (Q : Z → Prop) `{!∀ v, Decision (Q v)} new :
  ptinv P ly s (d :: D) B → ptinv P ly s' (d' :: D) B' → d_va d' = d_va d →
  (∀ v, user_addr v → mapping d' v = if decide (Q v) then new else mapping d v) →
  ∀ v, user_addr v → translate ly s' (d_va d) v =
    if decide (Q v) then (λ w, Z.land w PAGE_MASK + vaddr_to_offset v) <$> new else translate ly s (d_va d) v.
Proof.
  intros HI HI' E Hm v Hv. rewrite (translate_user s _ _ d v HI) by (done || left). rewrite <- E.
  rewrite (translate_user _ _ _ d' v HI') by (done || left). rewrite Hm by done. by case_decide.
Qed.

(** C21. pt_map maps one page of an address space: it gives an error when a table is
    needed and there is no memory, and changes nothing then; otherwise the addresses
    of the page translate to the frame, and every other address of this and of the
    other address spaces translates as before. *)
Theorem pt_map_correct s d D B v paddr pdflags ptflags :
  ptinv P ly s (d :: D) B → user_addr v → (4096 | v) → page paddr →
  0 ≤ pdflags < 4096 → present pdflags = true → 0 ≤ ptflags < 4096 → present ptflags = true →
  (∃ d' s', pt_map (d_va d) v paddr pdflags ptflags s = RRet 0 s' ∧ ptinv P ly s' (d' :: D) B ∧ d_va d' = d_va d ∧
     (∀ off, 0 ≤ off < 4096 → translate ly s' (d_va d) (v + off) = Some (paddr + off)) ∧
     (∀ v', user_addr v' → v' / 4096 ≠ v / 4096 → translate ly s' (d_va d) v' = translate ly s (d_va d) v') ∧
     (∀ d2, d2 ∈ D → same_space ly s s' (d_va d2))) ∨
  (∃ s', pt_map (d_va d) v paddr pdflags ptflags s = RRet (- ENOMEM) s' ∧ ptinv P ly s' (d :: D) B ∧
     (∀ d2, d2 ∈ d :: D → same_space ly s s' (d_va d2))).
Proof.
  intros HI Hv Hal Hpg Hpf Hpp Htf Htp. pose proof (Hpg) as [Hpa _].
  destruct (pt_map_run P ly Hly s d D B v paddr pdflags ptflags HI Hv Hal Hpa Hpf Hpp Htf)
    as [(d' & s' & E & HI' & Va & Hm)|(s' & E & HI' & _)]; [left|right].
  - exists d', s'. destruct (entry_frame paddr ptflags Hpg Htf) as [Ef Ep]. rewrite Ep, Htp in Hm.
    pose proof (translate_changed _ _ _ _ _ _ _ _ _ HI HI' Va Hm) as Ht. split_and!; [done|done|done|..].
    + intros off Ho. destruct (user_page v off Hv Hal Ho) as (Hu & Hd & Hoff). rewrite Ht by done.
      rewrite decide_True by done. cbn [fmap option_fmap option_map]. by rewrite Ef, Hoff.
    + intros v' Hu Hne. rewrite Ht by done. by rewrite decide_False.
    + intros d2 Hd2. eapply (same_spaces _ _ _ _ _ _ HI HI'); by right.
  - exists s'. split_and!; [done|done|]. intros d2 Hd2. by eapply (same_spaces _ _ _ _ _ _ HI HI').
Qed.

(** C22. pt_unmap_range takes a range of pages out of an address space and leaves the
    other address spaces as they are.  A range that starts inside a page table and
    ends in the same one takes the pages of the whole table with it; every other
    range takes exactly its own pages.  Of the page tables of the address space,
    exactly those that lie in the range as a whole are given back to the page
    allocator ([ptinv] has the blocks in use: those of [d'] and [D], and [B]). *)
Theorem pt_unmap_range_correct s d D B vlow vhigh :
  ptinv P ly s (d :: D) B → vlow < vhigh → (4096 | vlow) → (4096 | vhigh) → USER_MEM_LOW ≤ vlow → vhigh ≤ USER_MEM_HIGH →
  ∃ d' s', pt_unmap_range (d_va d) vlow vhigh s = RRet tt s' ∧ ptinv P ly s' (d' :: D) B ∧ d_va d' = d_va d ∧
    tab_vas d' = filter (λ kv, ¬ table_inside vlow vhigh kv.1) (tab_vas d) ∧
    (∀ v, user_addr v → translate ly s' (d_va d) v =
       if decide (range_cleared vlow vhigh v) then None else translate ly s (d_va d) v) ∧
    (∀ d2, d2 ∈ D → same_space ly s s' (d_va d2)).
Proof.
  intros HI Hlt Ha Hb Hlo Hhi.
  destruct (pt_unmap_range_run P ly Hly s d D B vlow vhigh HI Hlt Ha Hb Hlo Hhi) as (d' & s' & E & HI' & Va & Htb & Hm).
  exists d', s'. split_and!; [done|done|done|done| |].
  - exact (translate_changed _ _ _ _ _ _ _ _ None HI HI' Va Hm).
  - intros d2 Hd2. eapply (same_spaces _ _ _ _ _ _ HI HI'); by right.
Qed.

(** C23. A directory that pt_create_pagedir makes maps no user address, and the other
    directories stay as they are.  pt_set makes it the current one, the processor
    then translates with it.  Once another one is current, pt_destroy_pagedir gives
    back every page of it, whatever was mapped in it before. *)
Theorem pagedir_lifecycle s D B dt :
  ptinv P ly s D B → dt ∈ D → d_va dt = template_pagedir s → d_tabs dt = ∅ →
  (∃ s', pt_create_pagedir s = RRet NULL s' ∧ ptinv P ly s' D B) ∨
  ∃ a s', pt_create_pagedir s = RRet a s' ∧ a ≠ NULL ∧ ptinv P ly s' (Dir a ∅ :: D) B ∧
    (∀ v, user_addr v → translate ly s' a v = None) ∧
    (∀ d2, d2 ∈ D → same_space ly s s' (d_va d2)) ∧
    (∃ s2, pt_set a s' = RRet tt s2 ∧ ptinv P ly s2 (Dir a ∅ :: D) B ∧ pt_get s2 = RRet a s2 ∧
       ∀ v, user_addr v → page_walk (pt_frames s2) (pt_cr3 s2) v = None) ∧
    (∀ s3 d3 D3, ptinv P ly s3 (d3 :: D3) B → d_va d3 = a → current_pagedir s3 ≠ a →
       ∃ s4, pt_destroy_pagedir a s3 = RRet tt s4 ∧ ptinv P ly s4 D3 B ∧ ∀ d2, d2 ∈ D3 → same_space ly s3 s4 (d_va d2)).
Proof.
  intros HI Hdt Ht He. destruct (pt_create_run P ly Hly s D B dt HI Hdt Ht He) as [(a & s' & E & Hnn & HI' & _)|(s' & E & HI' & _)];
    [right|left; by exists s'].
  exists a, s'. split_and!; [done|done|done| | | |].
  - intros v Hv. by rewrite (translate_user _ _ _ (Dir a ∅) v HI') by (done || left).
  - intros d2 Hd2. eapply (same_spaces _ _ _ _ _ _ HI HI'); [done|by right].
  - destruct (pt_set_run P ly Hly s' _ B (Dir a ∅) HI') as (s2 & E2 & HI2 & Hc & Hr & _); [left|].
    exists s2. split_and!; [done|done|unfold pt_get, kgets; by rewrite Hc|].
    intros v Hv. rewrite Hr. by rewrite (walk_user P ly s2 _ B (Dir a ∅) v HI2) by (done || left).
  - intros s3 d3 D3 HI3 <- Hc. destruct (pt_destroy_run P ly Hly s3 d3 D3 B HI3 ltac:(done)) as (s4 & E4 & HI4 & _).
    exists s4. split_and!; [done|done|]. intros d2 Hd2. eapply (same_spaces _ _ _ _ _ _ HI3 HI4); [by right|done].
Qed.
End Spaces.
