(* ===== verification/PageTableBoot.v ===== *)
(** Page tables from the boot on: the tables of the boot loader (boot/paging.h), the
    ones that pt_init builds with them, and the invariant that it leaves. *)

From stdpp Require Import base numbers list gmap strings.
From S2P Require Import Prelude PageAlloc Slab KMem PageTable PageTableInv PageTableProps.

Open Scope Z_scope.

(** * The boot loader *)

(** [install_page_table]: a directory at 0x2000, a table for the first 4 megabytes
    and one for the kernel. *)
Definition PAGE_DIRECTORY_BASE : Z := 0x2000.
Definition boot_table (eax : Z) : list Z := (λ i, u32 (eax + 0x1000 * i)) <$> seqZ 0 0x400.
Definition install_page_table (memory : gmap Z (list Z)) : gmap Z (list Z) :=
  let edi := PAGE_DIRECTORY_BASE in
  let eax := Z.lor (edi + 0x1000) 0x103 in
  let words := <[Z.to_nat (Z.shiftr kernel_start 20 / 4) := eax + 0x1000]> (<[0%nat := eax]> (replicate 1024 0)) in
  <[edi := words]> (<[edi + 0x1000 := boot_table 0x103]>
    (<[edi + 0x2000 := boot_table (Z.lxor KERNEL_PHYS_BASE 0x103)]> memory)).

(** * Memory access *)

(** The page [p] is at the frame [f]. *)
Definition at_frame (F : gmap Z (list Z)) (cr3 p f : Z) : Prop :=
  page p ∧ page f ∧ ∀ off, 0 ≤ off < 4096 → page_walk F cr3 (p + off) = Some (f + off).

Section Access.
Context {M : Type} `{PageMem M}.

Lemma mmu_at (s : ptstate M) p f off :
  at_frame (pt_frames s) (pt_cr3 s) p f → 0 ≤ off < 4096 → mmu (p + off) s = RRet (f + off) s.
Proof. intros (_ & _ & Hw) Ho. unfold mmu, kget, kbind, kderef. simpl. by rewrite Hw. Qed.

Lemma ldw_at (s : ptstate M) p f i ws w :
  at_frame (pt_frames s) (pt_cr3 s) p f → 0 ≤ i < 1024 → pt_frames s !! f = Some ws →
  ws !! Z.to_nat i = Some w → ldw (p + 4 * i) s = RRet w s.
Proof.
  intros Hp Hi Hf Hw. unfold ldw. rewrite (kbind_of_ret _ _ _ _ _ (mmu_at s p f (4 * i) Hp ltac:(lia))).
  destruct (word_place f i ltac:(apply Hp) Hi) as [-> ->].
  unfold get_frame, kget, kbind, kderef. simpl. rewrite Hf. simpl. by rewrite Hw.
Qed.

Lemma stw_at (s : ptstate M) p f i ws v :
  at_frame (pt_frames s) (pt_cr3 s) p f → 0 ≤ i < 1024 → pt_frames s !! f = Some ws →
  stw (p + 4 * i) v s = RRet tt (upd_frames <[f := <[Z.to_nat i := v]> ws]> s).
Proof.
  intros Hp Hi Hf. unfold stw. rewrite (kbind_of_ret _ _ _ _ _ (mmu_at s p f (4 * i) Hp ltac:(lia))).
  destruct (word_place f i ltac:(apply Hp) Hi) as [-> ->].
  unfold get_frame, kget, kbind, kderef, kmodify. simpl. by rewrite Hf.
Qed.

Lemma st_page_at (s : ptstate M) p f ws0 ws :
  at_frame (pt_frames s) (pt_cr3 s) p f → pt_frames s !! f = Some ws0 →
  st_page p ws s = RRet tt (upd_frames <[f := ws]> s).
Proof.
  intros Hp Hf. unfold st_page. pose proof (mmu_at s p f 0 Hp ltac:(lia)) as Hm. rewrite !Z.add_0_r in Hm.
  rewrite (kbind_of_ret _ _ _ _ _ Hm). unfold get_frame, kget, kbind, kderef, kmodify. simpl. by rewrite Hf.
Qed.
End Access.

(** * Directories of the boot *)

Definition delta : Z := kernel_start - KERNEL_PHYS_BASE.
Abbreviation phys p := (p - delta).

(** An entry for a frame. *)
Definition entry (w f : Z) : Prop := present w = true ∧ Z.land w PAGE_MASK = f.

Lemma entry_lor f flags : page f → 0 ≤ flags < 4096 → present flags = true → entry (Z.lor f flags) f.
Proof. intros Hf Hfl Hp. destruct (entry_frame f flags Hf Hfl) as [E1 E2]. split; [by rewrite E2|done]. Qed.

(** The table [t] maps 4 megabytes from [pstart] on. *)
Definition maps_4mb (t : list Z) (pstart : Z) : Prop :=
  ∀ i, 0 ≤ i < 1024 → ∃ w, t !! Z.to_nat i = Some w ∧ entry w (pstart + 4096 * i).

(** The directory in cr3 maps the first 4 megabytes to themselves, with the table at
    [lf], and the kernel to its place, with the table at [kf]. *)
Record root (F : gmap Z (list Z)) (cr3 lf kf : Z) : Prop := {
  rt_dir : ∃ T e0 e1, F !! cr3 = Some T ∧ T !! 0%nat = Some e0 ∧ T !! 768%nat = Some e1 ∧ entry e0 lf ∧ entry e1 kf;
  rt_low : ∃ t, F !! lf = Some t ∧ maps_4mb t 0;
  rt_kernel : ∃ t, F !! kf = Some t ∧ maps_4mb t KERNEL_PHYS_BASE
}.

Definition tmp_root (F : gmap Z (list Z)) (cr3 ff : Z) : Prop :=
  ∃ T e, F !! cr3 = Some T ∧ T !! 1023%nat = Some e ∧ entry e ff.

Definition in_kernel (p : Z) : Prop := page p ∧ kernel_start ≤ p < kernel_start + PT_VADDR_SIZE.

Lemma walk_entries F cr3 p T pde f1 t pte f :
  page p → page f → F !! cr3 = Some T → T !! Z.to_nat (vaddr_to_pdindex p) = Some pde → entry pde f1 →
  F !! f1 = Some t → t !! Z.to_nat (vaddr_to_ptindex p) = Some pte → entry pte f → at_frame F cr3 p f.
Proof.
  intros Hp Hf HT H1 [P1 E1] Ht H2 [P2 E2]. split_and!; [done|done|]. intros off Ho.
  destruct (page_index p off Hp Ho) as (I1 & I2 & I3 & _).
  unfold page_walk, entry_of. rewrite I1, I2, I3, HT. cbn [mbind option_bind]. rewrite H1. cbn [mbind option_bind].
  rewrite P1, E1, Ht. cbn [mbind option_bind]. rewrite H2. cbn [mbind option_bind]. by rewrite P2, E2.
Qed.

Lemma at_low F cr3 lf kf p : root F cr3 lf kf → page p → p < PT_VADDR_SIZE → at_frame F cr3 p p.
Proof.
  intros [(T & e0 & e1 & HT & H0 & _ & E0 & _) (t & Ht & Hm) _] Hp Hlt. pose proof Hp as [[k Hk] Hr].
  change PT_VADDR_SIZE with (2 ^ 22) in Hlt.
  destruct (index_range p Hr) as [_ Hi]. destruct (Hm _ Hi) as (w & Hw & Ew).
  eapply walk_entries; [done|done|exact HT| |exact E0|exact Ht|exact Hw|].
  - rewrite pdindex_eq, Z.div_small by lia. exact H0.
  - rewrite ptindex_eq, Hk, Z.div_mul, Z.mod_small in Ew by lia. by replace p with (0 + 4096 * k) by lia.
Qed.

Lemma kernel_index p : in_kernel p →
  vaddr_to_pdindex p = 768 ∧ phys p = KERNEL_PHYS_BASE + 4096 * vaddr_to_ptindex p ∧ page (phys p).
Proof.
  intros [[[k Hk] Hr] Hin]. unfold kernel_start, PT_VADDR_SIZE, PAGE_SIZE, PT_ENTRY_COUNT in Hin. change (4096 * (PAGE_SIZE / 4)) with (2 ^ 22) in Hin.
  unfold delta, kernel_start, KERNEL_PHYS_BASE. split_and!.
  - rewrite pdindex_eq by done. symmetry. apply (Z.div_unique _ _ _ (p - 768 * 2 ^ 22)); lia.
  - rewrite ptindex_eq by done. rewrite Hk, Z.div_mul by lia.
    assert (k `mod` 1024 = k - 768 * 1024) as ->; [|lia]. symmetry. apply (Z.mod_unique _ _ 768); lia.
  - split; [exists (k - 0xbff00)|]; lia.
Qed.

Lemma at_kernel F cr3 lf kf p : root F cr3 lf kf → in_kernel p → at_frame F cr3 p (phys p).
Proof.
  intros [(T & e0 & e1 & HT & _ & H1 & _ & E1) _ (t & Ht & Hm)] Hp. destruct (kernel_index p Hp) as (I & E & Hph).
  destruct Hp as [Hp _]. destruct (index_range p ltac:(apply Hp)) as [_ Hi]. destruct (Hm _ Hi) as (w & Hw & Ew).
  eapply walk_entries; [done|done|done|rewrite I; exact H1|exact E1|done|done|]. by rewrite E.
Qed.

Lemma at_tmp F cr3 ff Fw w f :
  tmp_root F cr3 ff → F !! ff = Some Fw → Fw !! 1023%nat = Some w → entry w f → page f → at_frame F cr3 0xfffff000 f.
Proof.
  intros (T & e & HT & He & Ee) HF Hw Ew Hf. assert (Hp : page 0xfffff000) by (split; [by exists 0xfffff|lia]).
  eapply walk_entries; [done|done|exact HT| |exact Ee|exact HF| |exact Ew].
  - change (vaddr_to_pdindex 0xfffff000) with 1023. exact He.
  - change (vaddr_to_ptindex 0xfffff000) with 1023. exact Hw.
Qed.

(** Stores that keep the entries. *)
Definition keeps (F : gmap Z (list Z)) (cr3 f : Z) (ws : list Z) : Prop :=
  f = cr3 → ∀ T, F !! cr3 = Some T → ws !! 0%nat = T !! 0%nat ∧ ws !! 768%nat = T !! 768%nat.

Lemma root_set F cr3 lf kf f ws :
  root F cr3 lf kf → f ≠ lf → f ≠ kf → keeps F cr3 f ws → root (<[f := ws]> F) cr3 lf kf.
Proof.
  intros [(T & e0 & e1 & HT & H0 & H1 & E) (t & Ht & Hm) (t' & Ht' & Hm')] Hl Hk Hc. split.
  - destruct (decide (f = cr3)) as [->|Hne].
    + destruct (Hc eq_refl T HT) as [C0 C1]. exists ws, e0, e1. by rewrite lookup_insert_eq, C0, C1.
    + exists T, e0, e1. by rewrite lookup_insert_ne.
  - exists t. by rewrite lookup_insert_ne.
  - exists t'. by rewrite lookup_insert_ne.
Qed.

Lemma tmp_root_set F cr3 ff f ws :
  tmp_root F cr3 ff → (f = cr3 → ∀ T, F !! cr3 = Some T → ws !! 1023%nat = T !! 1023%nat) → tmp_root (<[f := ws]> F) cr3 ff.
Proof.
  intros (T & e & HT & He & Ee) Hc. destruct (decide (f = cr3)) as [->|Hne].
  - exists ws, e. rewrite lookup_insert_eq, (Hc eq_refl T HT). done.
  - exists T, e. by rewrite lookup_insert_ne.
Qed.

(** * Filling a table *)

Definition fill_word (pstart i : Z) : Z := Z.lor (u32 (i * PAGE_SIZE + pstart)) 3.
Definition fill_table (pstart : Z) : list Z := fill_word pstart <$> seqZ 0 1024.
Arguments fill_table : simpl never.

Lemma fill_table_length pstart : length (fill_table pstart) = 1024%nat.
Proof. unfold fill_table. by rewrite length_fmap, length_seqZ. Qed.

Lemma fill_table_lookup pstart i : 0 ≤ i < 1024 → fill_table pstart !! Z.to_nat i = Some (fill_word pstart i).
Proof.
  intros Hi. unfold fill_table. rewrite list_lookup_fmap, lookup_seqZ_lt by lia. simpl. do 2 f_equal. lia.
Qed.

Lemma fill_table_maps pstart :
  page pstart → pstart + PT_VADDR_SIZE ≤ 2 ^ 32 → maps_4mb (fill_table pstart) pstart.
Proof.
  intros [[k Hk] Hr] Hlt i Hi. change PT_VADDR_SIZE with (4096 * 1024) in Hlt. exists (fill_word pstart i).
  split; [by apply fill_table_lookup|]. unfold fill_word, PAGE_SIZE. rewrite u32_small by lia.
  replace (i * 4096 + pstart) with (pstart + 4096 * i) by lia. apply entry_lor; [|lia|done]. split; [exists (k + i)|]; lia.
Qed.

Section Fill.
Context {M : Type} `{PageMem M}.

Lemma upd_frames_twice f g (s : ptstate M) : upd_frames f (upd_frames g s) = upd_frames (f ∘ g) s.
Proof. done. Qed.

Lemma upd_frames_set f a b (s : ptstate M) : upd_frames <[f := a]> (upd_frames <[f := b]> s) = upd_frames <[f := a]> s.
Proof. unfold upd_frames. simpl. by rewrite insert_insert_eq. Qed.

Lemma fill_entries_run n (s : ptstate M) lf kf pt i pstart ws :
  root (pt_frames s) (pt_cr3 s) lf kf → in_kernel pt → phys pt ∉ [pt_cr3 s; lf; kf] →
  pt_frames s !! phys pt = Some ws → length ws = 1024%nat → 0 ≤ i → i + Z.of_nat n = 1024 → page pstart → pstart + PT_VADDR_SIZE ≤ 2 ^ 32 →
  fill_entries n pt i 3 pstart s =
    RRet tt (upd_frames <[phys pt := take (Z.to_nat i) ws ++ drop (Z.to_nat i) (fill_table pstart)]> s).
Proof.
  revert s i ws. induction n as [|n IH]; intros s i ws Hr Hpt Hne Hws Hl Hi Hn Hps Hlt.
  - simpl. replace i with 1024 by lia. change (Z.to_nat 1024) with 1024%nat.
    rewrite take_ge, drop_ge, app_nil_r by (rewrite ?fill_table_length; lia).
    destruct s; unfold upd_frames; simpl in *. by rewrite insert_id.
  - rewrite !not_elem_of_cons in Hne. destruct Hne as (N1 & N2 & N3 & _). cbn [fill_entries].
    change (Z.land 3 (Z.lnot PAGE_MASK)) with 3.
    erewrite kbind_of_ret by (eapply stw_at; [by eapply at_kernel|lia|done]).
    set (s1 := upd_frames _ s).
    assert (R1 : root (pt_frames s1) (pt_cr3 s1) lf kf) by (apply root_set; [done|done|done|by intros E]).
    erewrite kbind_of_ret; [|eapply ldw_at; [by eapply at_kernel|lia|simpl; by rewrite lookup_insert_eq|];
      rewrite list_lookup_insert_eq by lia; done].
    erewrite kbind_of_ret by (eapply stw_at; [by eapply at_kernel|lia|simpl; by rewrite lookup_insert_eq]).
    unfold s1. rewrite upd_frames_set, list_insert_insert_eq.
    assert (Ew : Z.lor (Z.land (u32 (i * PAGE_SIZE + pstart)) PAGE_MASK) 3 = fill_word pstart i).
    { unfold fill_word. f_equal. destruct Hps as [[k Hk] Hr']. change PT_VADDR_SIZE with (4096 * 1024) in Hlt. unfold PAGE_SIZE.
      rewrite u32_small by lia. rewrite mask_land by lia. subst pstart. rewrite <- Z.mul_add_distr_r, Z.mod_mul by lia. lia. }
    rewrite Ew. set (ws1 := <[Z.to_nat i := fill_word pstart i]> ws).
    rewrite (IH _ (i + 1) ws1); try done; try lia.
    + rewrite upd_frames_set. do 3 f_equal. unfold ws1. rewrite Z2Nat.inj_add by lia. change (Z.to_nat 1) with 1%nat.
      rewrite Nat.add_1_r, (take_S_r _ _ (fill_word pstart i)) by (rewrite list_lookup_insert_eq; [done|lia]).
      rewrite take_insert_ge by lia. rewrite <- app_assoc. cbn [app]. f_equal.
      symmetry. apply drop_S. apply fill_table_lookup. lia.
    + apply root_set; [done|done|done|by intros E].
    + rewrite !not_elem_of_cons. split_and!; [done..|apply not_elem_of_nil].
    + simpl. by rewrite lookup_insert_eq.
    + unfold ws1. by rewrite length_insert.
Qed.
End Fill.

(** * Building the directory *)

Section Build.
Context {M : Type} `{PageMem M} (K : Z).
Context (HK1 : in_kernel K) (HK2 : in_kernel (K + 4096)) (HK3 : in_kernel (K + 8192)).

(** The frames of the directory at [K], of its second page and of the last table. *)
Definition dir_frames : list Z := [phys K; phys (K + 4096); phys (K + 8192)].

(** The tables [l] are filled and entered: the index, the address and the first frame
    that is mapped, for each. *)
Record built (s : ptstate M) (l : list (Z * Z * Z)) : Prop := {
  bt_final : final_page s = K + 8192;
  bt_dir : ∃ Pw Vw Fw, pt_frames s !! phys K = Some Pw ∧ pt_frames s !! phys (K + 4096) = Some Vw ∧
    pt_frames s !! phys (K + 8192) = Some Fw ∧
    (∃ e, Pw !! 1023%nat = Some e ∧ entry e (phys (K + 8192))) ∧
    (∀ b pt ps, (b, pt, ps) ∈ l → Pw !! Z.to_nat b = Some (Z.lor (phys pt) 3) ∧ Vw !! Z.to_nat b = Some pt) ∧
    (∀ b, 0 ≤ b < 1023 → (∀ pt ps, (b, pt, ps) ∉ l) → Pw !! Z.to_nat b = Some 0);
  bt_tabs b pt ps : (b, pt, ps) ∈ l → 0 ≤ b < 1023 ∧ in_kernel pt ∧ phys pt ∉ dir_frames ∧ pt_frames s !! phys pt = Some (fill_table ps);
  bt_len f w : pt_frames s !! f = Some w → length w = 1024%nat
}.

(** What stays. *)
Record kept (s s' : ptstate M) : Prop := {
  kp_mem : pt_mem s' = pt_mem s;
  kp_cr3 : pt_cr3 s' = pt_cr3 s;
  kp_current : current_pagedir s' = current_pagedir s;
  kp_dom f : is_Some (pt_frames s !! f) → is_Some (pt_frames s' !! f);
  kp_low f : f < KERNEL_PHYS_BASE → pt_frames s' !! f = pt_frames s !! f
}.

Lemma kept_trans s1 s2 s3 : kept s1 s2 → kept s2 s3 → kept s1 s3.
Proof. intros [? ? ? ? Hl] [? ? ? ? Hl']. split; [congruence..|eauto|]. intros f Hf. by rewrite Hl', Hl. Qed.

Lemma in_kernel_phys p : in_kernel p → KERNEL_PHYS_BASE ≤ phys p.
Proof. intros [_ ?]. unfold delta. lia. Qed.

(** The frames the processor depends on: none of them is written, but for entries of
    the directory itself. *)
Record running (s : ptstate M) (lf kf : Z) : Prop := {
  rn_root : root (pt_frames s) (pt_cr3 s) lf kf;
  rn_tmp : tmp_root (pt_frames s) (pt_cr3 s) (phys (K + 8192));
  rn_cr3 : page (pt_cr3 s) ∧ pt_cr3 s < PT_VADDR_SIZE;
  rn_kf : page kf;
  rn_apart : phys (K + 4096) ∉ [pt_cr3 s; lf; kf] ∧ phys (K + 8192) ∉ [pt_cr3 s; lf; kf] ∧ phys K ∉ [lf; kf]
}.

Lemma running_set s lf kf f ws :
  running s lf kf → f ∉ [lf; kf] →
  (f = pt_cr3 s → ∀ T, pt_frames s !! f = Some T →
     ws !! 0%nat = T !! 0%nat ∧ ws !! 768%nat = T !! 768%nat ∧ ws !! 1023%nat = T !! 1023%nat) →
  running (upd_frames <[f := ws]> s) lf kf.
Proof.
  intros [H1 H2 H3 H4 H5] Hf Hc. rewrite !not_elem_of_cons in Hf. destruct Hf as (N1 & N2 & _). split; simpl; try done.
  - apply root_set; [done..|]. intros -> T HT. destruct (Hc eq_refl T HT) as (? & ? & _). done.
  - apply tmp_root_set; [done|]. intros -> T HT. apply (Hc eq_refl T HT).
Qed.

Lemma tmp_map_at s lf kf f Fw :
  running s lf kf → final_page s = K + 8192 → pt_frames s !! phys (K + 8192) = Some Fw → page f →
  pt_phys_tmp_map f s = RRet 0xfffff000 (upd_frames <[phys (K + 8192) := <[1023%nat := Z.lor f 3]> Fw]> s).
Proof.
  intros HR Hfin HF Hf. unfold pt_phys_tmp_map. rewrite kassert_next by (apply page_aligned, Hf). rewrite kgets_next, Hfin.
  change (PT_ENTRY_COUNT - 1) with 1023. change (Z.lor PT_PRESENT PT_WRITE) with 3.
  erewrite kbind_of_ret; [reflexivity|]. eapply stw_at; [eapply at_kernel; [apply HR|done]|lia|done].
Qed.
(** The new table at the right places, before the directory is changed. *)
Lemma fill_table_run s lf kf pt pstart :
  running s lf kf → final_page s = K + 8192 → in_kernel pt → phys pt ∉ [pt_cr3 s; lf; kf; phys (K + 8192)] →
  is_Some (pt_frames s !! phys pt) → (∀ f w, pt_frames s !! f = Some w → length w = 1024%nat) →
  is_Some (pt_frames s !! phys (K + 8192)) → page pstart → pstart + PT_VADDR_SIZE ≤ 2 ^ 32 →
  let s2 := upd_frames <[phys pt := fill_table pstart]> s in
  ∃ Fw, pt_frames s !! phys (K + 8192) = Some Fw ∧
  let s3 := upd_frames <[phys (K + 8192) := <[1023%nat := Z.lor kf 3]> Fw]> s2 in
  (∃ s1, clear_page pt s = RRet tt s1 ∧ fill_entries (Z.to_nat PT_ENTRY_COUNT) pt 0 3 pstart s1 = RRet tt s2) ∧
  (∃ pde pte, ldw (pt_cr3 s2 + 4 * vaddr_to_pdindex pt) s2 = RRet pde s2 ∧
     pt_phys_tmp_map (Z.land pde PAGE_MASK) s2 = RRet 0xfffff000 s3 ∧
     ldw (0xfffff000 + 4 * vaddr_to_ptindex pt) s3 = RRet pte s3 ∧ Z.land pte PAGE_MASK = phys pt) ∧ running s3 lf kf.
Proof.
  intros HR Hfin Hpt Hne [pw Hpw] Hlen [Fw HF] Hps Hlt. rewrite !not_elem_of_cons in Hne. destruct Hne as (N1 & N2 & N3 & N4 & _). cbv zeta.
  assert (N5 : phys pt ∉ [lf; kf]) by (rewrite !not_elem_of_cons; split_and!; [done..|apply not_elem_of_nil]).
  set (s2 := upd_frames <[phys pt := fill_table pstart]> s).
  assert (R2 : running s2 lf kf) by (apply running_set; [done|done|by intros E]).
  assert (HF2 : pt_frames s2 !! phys (K + 8192) = Some Fw) by (simpl; rewrite lookup_insert_ne; done).
  exists Fw. split; [done|].
  set (s3 := upd_frames <[phys (K + 8192) := <[1023%nat := Z.lor kf 3]> Fw]> s2).
  pose proof (rn_apart _ _ _ HR) as (_ & A2 & _). rewrite !not_elem_of_cons in A2. destruct A2 as (B1 & B2 & B3 & _).
  assert (R3 : running s3 lf kf).
  { apply running_set; [done|rewrite !not_elem_of_cons; split_and!; [done..|apply not_elem_of_nil]|by intros E]. }
  split_and!; [| |exact R3].
  - eexists. split; [eapply st_page_at; [eapply at_kernel; [apply HR|done]|done]|].
    change (Z.to_nat PT_ENTRY_COUNT) with 1024%nat. set (s1 := upd_frames _ s).
    assert (R1 : running s1 lf kf) by (apply running_set; [done|done|by intros E]).
    erewrite fill_entries_run; [|apply R1|done| |apply lookup_insert_eq|done|lia|lia|done|done].
    + unfold s1. rewrite upd_frames_set. done.
    + rewrite !not_elem_of_cons. split_and!; [done..|apply not_elem_of_nil].
  - destruct (kernel_index pt Hpt) as (-> & Eph & Hpg).
    destruct (rn_root _ _ _ R2) as [(T & e0 & e1 & HT & _ & H1 & _ & _ & E1) _ (t & Ht & Hm)].
    destruct (index_range pt ltac:(apply Hpt)) as [_ Hi]. destruct (Hm _ Hi) as (w & Hw & _ & Ew).
    assert (HA : at_frame (pt_frames s3) (pt_cr3 s3) 0xfffff000 kf).
    { eapply (at_tmp _ _ _ _ (Z.lor kf 3)); [apply R3|apply lookup_insert_eq| |apply entry_lor; [apply HR|lia|done]|apply HR].
      rewrite list_lookup_insert_eq; [reflexivity|]. rewrite (Hlen _ _ HF). apply Nat.lt_succ_diag_r. }
    exists e1, w. split_and!; [| |eapply ldw_at; [exact HA|done| |exact Hw]|by rewrite Ew].
    + eapply ldw_at; [eapply at_low; [apply R2|apply R2|apply R2]|lia|exact HT|exact H1].
    + rewrite E1. apply (tmp_map_at s2 lf kf kf Fw R2 Hfin HF2 (rn_kf _ _ _ HR)).
    + simpl. by rewrite lookup_insert_ne.
Qed.
Lemma in_frames f : f ∉ dir_frames ↔ f ≠ phys K ∧ f ≠ phys (K + 4096) ∧ f ≠ phys (K + 8192).
Proof.
  unfold dir_frames. rewrite !not_elem_of_cons. split; [tauto|]. intros (? & ? & ?). split_and!; [done..|apply not_elem_of_nil].
Qed.

(** The directory with one more table. *)
Lemma built_enter s s' l b pt pstart x Pw Vw Fw :
  built s l → in_kernel pt → phys pt ∉ dir_frames → (∀ b' q ps, (b', q, ps) ∈ l → q ≠ pt ∧ b' ≠ b) → 0 ≤ b < 1023 →
  pt_frames s !! phys K = Some Pw → pt_frames s !! phys (K + 4096) = Some Vw → pt_frames s !! phys (K + 8192) = Some Fw →
  pt_frames s' = <[phys (K + 4096) := <[Z.to_nat b := pt]> Vw]> (<[phys K := <[Z.to_nat b := Z.lor (phys pt) 3]> Pw]>
    (<[phys (K + 8192) := <[1023%nat := x]> Fw]> (<[phys pt := fill_table pstart]> (pt_frames s)))) →
  final_page s' = final_page s → built s' ((b, pt, pstart) :: l).
Proof.
  intros [Hfin (Pw' & Vw' & Fw' & HP' & HV' & HF' & (e & He & Ee) & Hl & Hz) Htabs Hlen] Hpt Hnd Hfresh Hb HP HV HF Hfr Hf.
  rewrite HP in HP'. rewrite HV in HV'. rewrite HF in HF'. simplify_eq.
  pose proof Hnd as (D1 & D2 & D3)%in_frames.
  pose proof (Hlen _ _ HP) as L1. pose proof (Hlen _ _ HV) as L2. pose proof (Hlen _ _ HF) as L3.
  split; rewrite ?Hfr.
  - by rewrite Hf.
  - exists (<[Z.to_nat b := Z.lor (phys pt) 3]> Pw'), (<[Z.to_nat b := pt]> Vw'), (<[1023%nat := x]> Fw'). split_and!.
    + rewrite lookup_insert_ne, lookup_insert_eq by lia. done.
    + by rewrite lookup_insert_eq.
    + rewrite !lookup_insert_ne, lookup_insert_eq by lia. done.
    + exists e. rewrite list_lookup_insert_ne by lia. done.
    + intros b' q ps [E|Hin]%elem_of_cons; [simplify_eq; rewrite !list_lookup_insert_eq by lia; done|].
      destruct (Hfresh _ _ _ Hin) as [_ Hne]. destruct (Htabs _ _ _ Hin) as [Hb' _].
      rewrite !list_lookup_insert_ne by lia. by eapply Hl.
    + intros b' Hb' Hn. assert (b' ≠ b) by (intros ->; apply (Hn pt pstart); left). rewrite list_lookup_insert_ne by lia.
      apply Hz; [done|]. intros q ps Hin. apply (Hn q ps). by right.
  - intros b' q ps [E|Hin]%elem_of_cons.
    + simplify_eq. split_and!; [lia|lia|done|done|]. rewrite !lookup_insert_ne, lookup_insert_eq by lia. done.
    + destruct (Htabs _ _ _ Hin) as (Hb' & Hq & Hqd & Ht). destruct (Hfresh _ _ _ Hin) as [Hne _]. split_and!; [lia|lia|done|done|].
      pose proof Hqd as (? & ? & ?)%in_frames. rewrite !lookup_insert_ne by lia. done.
  - intros f w. rewrite !lookup_insert. repeat case_decide; intros; simplify_eq; rewrite ?length_insert, ?fill_table_length; eauto.
Qed.

(** Filling a table and entering it, as one step. *)
Lemma fill_page_run s l lf kf pt vstart pstart :
  built s l → running s lf kf → in_kernel pt → phys pt ∉ [pt_cr3 s; lf; kf] → phys pt ∉ dir_frames →
  is_Some (pt_frames s !! phys pt) → (∀ b q ps, (b, q, ps) ∈ l → q ≠ pt ∧ b ≠ vaddr_to_pdindex vstart) →
  vstart `mod` PT_VADDR_SIZE = 0 → 0 ≤ vaddr_to_pdindex vstart < 1023 →
  (phys K = pt_cr3 s → vaddr_to_pdindex vstart ∉ [0; 768]) → page pstart → pstart + PT_VADDR_SIZE ≤ 2 ^ 32 →
  ∃ s', _pt_fill_page K pt 3 3 vstart pstart s = RRet tt s' ∧ built s' ((vaddr_to_pdindex vstart, pt, pstart) :: l) ∧
    running s' lf kf ∧ kept s s'.
Proof.
  intros HB HR Hpt Hne Hnd Hsome Hfresh Hv Hb Hbc Hps Hlt. set (b := vaddr_to_pdindex vstart) in *.
  pose proof Hnd as (D1 & D2 & D3)%in_frames. pose proof HB as [Hfin (Pw & Vw & Fw & HP & HV & HF & (e & He & Ee) & Hl & Hz) Htabs Hlen].
  assert (Hne' : phys pt ∉ [pt_cr3 s; lf; kf; phys (K + 8192)]).
  { rewrite !not_elem_of_cons in Hne. rewrite !not_elem_of_cons. destruct Hne as (? & ? & ? & _). split_and!; [done..|apply not_elem_of_nil]. }
  destruct (fill_table_run s lf kf pt pstart HR Hfin Hpt Hne' Hsome Hlen (mk_is_Some _ _ HF) Hps Hlt) as (Fw' & HF' & (s1 & C1 & C2) & (pde & pte & C3 & C4 & C5 & C6) & R3).
  rewrite HF in HF'. injection HF' as <-. set (s2 := upd_frames <[phys pt := fill_table pstart]> s) in *.
  set (s3 := upd_frames <[phys (K + 8192) := <[1023%nat := Z.lor kf 3]> Fw]> s2) in *.
  pose proof (rn_apart _ _ _ HR) as (A1 & _ & A3).
  assert (HP3 : pt_frames s3 !! phys K = Some Pw) by (simpl; rewrite !lookup_insert_ne by lia; done).
  assert (HV3 : pt_frames s3 !! phys (K + 4096) = Some Vw) by (simpl; rewrite !lookup_insert_ne by lia; done).
  set (s4 := upd_frames <[phys K := <[Z.to_nat b := Z.lor (phys pt) 3]> Pw]> s3).
  assert (R4 : running s4 lf kf).
  { apply running_set; [done|done|]. intros Ec T HT. rewrite HP3 in HT. injection HT as <-.
    specialize (Hbc Ec). rewrite !not_elem_of_cons in Hbc. split_and!; apply list_lookup_insert_ne; lia. }
  assert (HV4 : pt_frames s4 !! phys (K + 4096) = Some Vw) by (simpl; rewrite lookup_insert_ne by lia; done).
  set (s5 := upd_frames <[phys (K + 4096) := <[Z.to_nat b := pt]> Vw]> s4).
  rewrite !not_elem_of_cons in A1. destruct A1 as (A11 & A12 & A13 & _).
  assert (R5 : running s5 lf kf).
  { apply running_set; [done|rewrite !not_elem_of_cons; split_and!; [done..|apply not_elem_of_nil]|by intros E]. }
  exists s5. split_and!; [| |done|].
  - unfold _pt_fill_page. rewrite kassert_next.
    2: { apply andb_true_intro. destruct HK1 as [_ ?], Hpt as [_ ?]. unfold kernel_start, NULL in *. split; apply negb_true_iff, Z.eqb_neq; lia. }
    rewrite kassert_next by (by rewrite Hv). cbv zeta. fold b.
    change (Z.land 3 (Z.lnot PAGE_MASK)) with 3. rewrite (kbind_of_ret _ _ _ _ _ C1), (kbind_of_ret _ _ _ _ _ C2), kgets_next.
    rewrite (kbind_of_ret _ _ _ _ _ C3), (kbind_of_ret _ _ _ _ _ C4), (kbind_of_ret _ _ _ _ _ C5), C6.
    unfold pd_physical, pd_virtual. change PAGE_SIZE with 4096.
    erewrite kbind_of_ret by (eapply stw_at; [eapply at_kernel; [apply R3|done]|lia|exact HP3]).
    eapply stw_at; [eapply at_kernel; [apply R4|done]|lia|exact HV4].
  - apply (built_enter s s5 l b pt pstart (Z.lor kf 3) Pw Vw Fw HB Hpt Hnd Hfresh Hb HP HV HF); done.
  - split; [done..| |]; intros f Hf; simpl.
    + rewrite !lookup_insert. repeat case_decide; done || by eexists.
    + pose proof (in_kernel_phys _ Hpt). pose proof (in_kernel_phys _ HK1). pose proof (in_kernel_phys _ HK2).
      pose proof (in_kernel_phys _ HK3). by rewrite !lookup_insert_ne by lia.
Qed.
End Build.

(** * The state that the boot loader leaves *)

(** The end of the range of usable memory with the kernel, in the [j]th entry of the
    memory map. *)
Definition usable_at (ws : list Z) (j : nat) : option Z :=
  base ← ws !! (1 + 6 * j)%nat; length ← ws !! (3 + 6 * j)%nat; type ← ws !! (5 + 6 * j)%nat;
  if (type =? 1) && (base <=? KERNEL_PHYS_BASE) && (KERNEL_PHYS_BASE <? u32 (base + length))
  then Some (u32 (base + length)) else None.

(** The first such entry ends at [X]. *)
Definition memory_map (ws : list Z) (X : Z) : Prop :=
  ∃ count i, ws !! 0%nat = Some (Z.of_nat count) ∧ (i < count ≤ 170)%nat ∧ usable_at ws i = Some X ∧
    ∀ j, (j < i)%nat → usable_at ws j = None.

Record loaded {M} (X : Z) (s : ptstate M) : Prop := {
  ld_cr3 : pt_cr3 s = PAGE_DIRECTORY_BASE;
  ld_memory : ∃ memory, pt_frames s = install_page_table memory ∧
    (∀ f, page f → f < X → is_Some (memory !! f)) ∧ (∀ f ws, memory !! f = Some ws → length ws = 1024%nat) ∧
    ∃ ws, memory !! MEMORY_MAP_BASE = Some ws ∧ memory_map ws X
}.

Lemma boot_table_maps start : page start → start + PT_VADDR_SIZE ≤ 2 ^ 32 → maps_4mb (boot_table (start + 0x103)) start.
Proof.
  intros [[k Hk] Hr] Hlt i Hi. change PT_VADDR_SIZE with (4096 * 1024) in Hlt. exists (Z.lor (start + 4096 * i) 0x103).
  assert (Hp : page (start + 4096 * i)) by (split; [exists (k + i)|]; lia).
  split; [|apply entry_lor; [done|lia|done]]. unfold boot_table.
  rewrite list_lookup_fmap, lookup_seqZ_lt by lia. simpl. f_equal. rewrite lor_flags_add by (done || lia). rewrite u32_small; lia.
Qed.

Lemma boot_table_length eax : length (boot_table eax) = 1024%nat.
Proof. unfold boot_table. by rewrite length_fmap, length_seqZ. Qed.

Lemma loaded_root {M} X (s : ptstate M) : loaded X s → root (pt_frames s) (pt_cr3 s) 0x3000 0x4000.
Proof.
  intros [-> (memory & -> & _)]. unfold install_page_table, PAGE_DIRECTORY_BASE. cbv zeta.
  change (0x2000 + 0x1000) with 0x3000. change (0x2000 + 0x2000) with 0x4000. split.
  - eexists _, 0x3103, 0x4103. split; [apply lookup_insert_eq|]. split_and!; done.
  - eexists. split; [rewrite lookup_insert_ne by lia; apply lookup_insert_eq|]. apply (boot_table_maps 0); [|done]. split; [by exists 0|lia].
  - eexists. split; [rewrite !lookup_insert_ne by lia; apply lookup_insert_eq|]. apply (boot_table_maps KERNEL_PHYS_BASE); [|done].
    split; [by exists 0x100|done].
Qed.

(** The words of a page in the first 4 megabytes. *)
Lemma detect_run {M} `{PageMem M} (s : ptstate M) lf kf ws X n j i :
  root (pt_frames s) (pt_cr3 s) lf kf → pt_frames s !! MEMORY_MAP_BASE = Some ws → length ws = 1024%nat →
  (i < j + n ≤ 170)%nat → (j ≤ i)%nat → usable_at ws i = Some X → (∀ k, (k < i)%nat → usable_at ws k = None) →
  detect_highmem n (Z.of_nat j) s = RRet X s.
Proof.
  intros HR Hws Hl Hn Hji HX Hno. revert j Hn Hji. induction n as [|n IH]; intros j Hn Hji; [lia|]. cbn [detect_highmem].
  assert (Hp : page MEMORY_MAP_BASE) by (split; [by exists 9|done]).
  pose proof (at_low _ _ _ _ _ HR Hp ltac:(done)) as HA.
  destruct (lookup_lt_is_Some_2 ws (1 + 6 * j) ltac:(lia)) as [base Hb].
  destruct (lookup_lt_is_Some_2 ws (3 + 6 * j) ltac:(lia)) as [len Hle].
  destruct (lookup_lt_is_Some_2 ws (5 + 6 * j) ltac:(lia)) as [type Ht].
  replace (MEMORY_MAP_BASE + 4 + 24 * Z.of_nat j) with (MEMORY_MAP_BASE + 4 * (1 + 6 * Z.of_nat j)) by lia.
  replace (MEMORY_MAP_BASE + 4 * (1 + 6 * Z.of_nat j) + 8) with (MEMORY_MAP_BASE + 4 * (3 + 6 * Z.of_nat j)) by lia.
  replace (MEMORY_MAP_BASE + 4 * (1 + 6 * Z.of_nat j) + 16) with (MEMORY_MAP_BASE + 4 * (5 + 6 * Z.of_nat j)) by lia.
  rewrite (kbind_of_ret _ _ _ _ _ (ldw_at s _ _ (1 + 6 * Z.of_nat j) ws base HA ltac:(lia) Hws ltac:(by replace (Z.to_nat _) with (1 + 6 * j)%nat by lia))).
  rewrite (kbind_of_ret _ _ _ _ _ (ldw_at s _ _ (3 + 6 * Z.of_nat j) ws len HA ltac:(lia) Hws ltac:(by replace (Z.to_nat _) with (3 + 6 * j)%nat by lia))).
  rewrite (kbind_of_ret _ _ _ _ _ (ldw_at s _ _ (5 + 6 * Z.of_nat j) ws type HA ltac:(lia) Hws ltac:(by replace (Z.to_nat _) with (5 + 6 * j)%nat by lia))).
  assert (E : usable_at ws j = if (type =? 1) && (base <=? KERNEL_PHYS_BASE) && (KERNEL_PHYS_BASE <? u32 (base + len))
    then Some (u32 (base + len)) else None) by (unfold usable_at; rewrite Hb; cbn [mbind option_bind]; rewrite Hle; cbn [mbind option_bind]; by rewrite Ht).
  destruct (decide (j = i)) as [->|Hne].
  - rewrite HX in E. destruct (_ && _); simplify_eq. done.
  - rewrite Hno in E by lia. destruct (_ && _); [done|]. replace (Z.of_nat j + 1) with (Z.of_nat (S j)) by lia. apply IH; lia.
Qed.

(** phys_detect_highmem finds the end of the memory that the kernel is in. *)
Lemma phys_detect_highmem_run {M} `{PageMem M} (s : ptstate M) lf kf ws X :
  root (pt_frames s) (pt_cr3 s) lf kf → pt_frames s !! MEMORY_MAP_BASE = Some ws → length ws = 1024%nat →
  memory_map ws X → phys_detect_highmem s = RRet X s.
Proof.
  intros HR Hws Hl (cnt & i & W0 & Wi & WX & Wn). unfold phys_detect_highmem.
  assert (Hp : page MEMORY_MAP_BASE) by (split; [by exists 9|done]).
  pose proof (ldw_at s _ _ 0 ws _ (at_low _ _ _ _ _ HR Hp ltac:(done)) ltac:(lia) Hws W0) as E. rewrite Z.mul_0_r, Z.add_0_r in E.
  rewrite (kbind_of_ret _ _ _ _ _ E), Nat2Z.id. by apply (detect_run s lf kf ws X cnt 0 i); try lia.
Qed.

(** * The tables of pt_init *)

Definition zeros : list Z := replicate 1024 0.
Lemma zeros_length : length zeros = 1024%nat.
Proof. done. Qed.
Lemma zeros_lookup i : 0 ≤ i < 1024 → zeros !! Z.to_nat i = Some 0.
Proof. intros Hi. apply lookup_replicate_2. lia. Qed.
#[local] Opaque zeros.

Section Tables.
Context {M : Type} `{PageMem M} (K X : Z) (N : nat).

(** The [j]th table for the kernel, and the one for the first 4 megabytes. *)
Definition ktable (j : nat) : Z := K + 16384 + 4096 * Z.of_nat j.
Definition kstart (j : nat) : Z := KERNEL_PHYS_BASE + PT_VADDR_SIZE * Z.of_nat j.
Definition low_table : Z := K + 12288.
Definition kentry (j : nat) : Z * Z * Z := (768 + Z.of_nat j, ktable j, kstart j).
Fixpoint tables (n : nat) : list (Z * Z * Z) :=
  kentry n :: match n with O => [(0, low_table, 0)] | S n => tables n end.

(** The kernel ends in front of the space that the tables take; the [N]th table is
    the first one past the end of memory. *)
Record sizes : Prop := {
  sz_kernel : page K ∧ kernel_start ≤ K;
  sz_room : ktable N + 4096 ≤ kernel_start + 0x300000;
  sz_count : (1 ≤ N ≤ 254)%nat;
  sz_max : X ≤ kstart N;
  sz_mem : phys (ktable N) < X;
  sz_first j : (1 ≤ j < N)%nat → kstart j < X
}.
Context (HS : sizes).

Lemma elem_of_tables n b q ps :
  (b, q, ps) ∈ tables n ↔ (b, q, ps) = (0, low_table, 0) ∨ ∃ j, (j ≤ n)%nat ∧ (b, q, ps) = kentry j.
Proof.
  induction n as [|n IH]; simpl.
  - rewrite !elem_of_cons, elem_of_nil. split.
    + intros [E|[E|[]]]; [right; exists 0%nat; split; [lia|done]|by left].
    + intros [E|(j & Hj & E)]; [right; by left|left]. by replace j with 0%nat in E by lia.
  - rewrite elem_of_cons, IH. split.
    + intros [E|[E|(j & Hj & E)]]; [right; exists (S n); split; [lia|done]|by left|right; exists j; split; [lia|done]].
    + intros [E|(j & Hj & E)]; [right; by left|]. destruct (decide (j = S n)) as [->|]; [by left|]. right; right. exists j. split; [lia|done].
Qed.

Lemma table_in_kernel k : 0 ≤ k → 4096 * k + 4096 ≤ kernel_start + 0x300000 - K → in_kernel (K + 4096 * k) ∧ phys (K + 4096 * k) < PT_VADDR_SIZE.
Proof.
  intros Hk Hlt. destruct (sz_kernel HS) as [[[m Hm] Hr] Hge]. unfold in_kernel, page, delta, KERNEL_PHYS_BASE.
  change PT_VADDR_SIZE with 0x400000. unfold kernel_start in *. split_and!; try lia. exists (m + k). lia.
Qed.

Lemma ktable_ok j : (j ≤ N)%nat → in_kernel (ktable j) ∧ phys (ktable j) < PT_VADDR_SIZE.
Proof.
  intros Hj. pose proof (sz_room HS) as Hroom. unfold ktable in *.
  replace (K + 16384 + 4096 * Z.of_nat j) with (K + 4096 * (4 + Z.of_nat j)) by lia. apply table_in_kernel; lia.
Qed.

Lemma front_ok k : 0 ≤ k < 4 → in_kernel (K + 4096 * k) ∧ phys (K + 4096 * k) < PT_VADDR_SIZE.
Proof. intros Hk. pose proof (sz_room HS) as Hroom. unfold ktable in *. apply table_in_kernel; lia. Qed.

Lemma dirs_ok : in_kernel K ∧ in_kernel (K + 4096) ∧ in_kernel (K + 8192) ∧ in_kernel low_table ∧ phys K < PT_VADDR_SIZE.
Proof.
  destruct (front_ok 0 ltac:(lia)) as [H0 L0]. destruct (front_ok 1 ltac:(lia)) as [H1 _]. destruct (front_ok 2 ltac:(lia)) as [H2 _].
  destruct (front_ok 3 ltac:(lia)) as [H3 _]. rewrite Z.add_0_r in H0, L0. done.
Qed.

Lemma vindex j : (j ≤ 254)%nat →
  let v := kernel_start + PT_VADDR_SIZE * Z.of_nat j in 0 ≤ v < 2 ^ 32 ∧ vaddr_to_pdindex v = 768 + Z.of_nat j ∧ v `mod` PT_VADDR_SIZE = 0.
Proof.
  intros Hj. cbv zeta. change PT_VADDR_SIZE with 0x400000. unfold kernel_start.
  assert (Hr : 0 ≤ 0xc0000000 + 0x400000 * Z.of_nat j < 2 ^ 32) by lia. split; [done|]. split.
  - rewrite pdindex_eq by done. symmetry. apply (Z.div_unique _ _ _ 0); lia.
  - symmetry. apply (Z.mod_unique _ _ (768 + Z.of_nat j)); lia.
Qed.

Lemma kstart_page j : (j ≤ 254)%nat → page (kstart j) ∧ kstart j + PT_VADDR_SIZE ≤ 2 ^ 32.
Proof.
  intros Hj. unfold kstart, KERNEL_PHYS_BASE, page. change PT_VADDR_SIZE with 0x400000. split_and!; try lia.
  exists (0x100 + 0x400 * Z.of_nat j). lia.
Qed.
Lemma table_apart n q b ps k :
  (b, q, ps) ∈ tables n → (n < k)%nat → q ≠ ktable k ∧ b ≠ 768 + Z.of_nat k.
Proof.
  intros [E|(j & Hj & E)]%elem_of_tables Hk; unfold kentry, low_table, ktable in *; simplify_eq; split; lia.
Qed.

Lemma not_elem_of_3 {A} (x a b c : A) : x ≠ a → x ≠ b → x ≠ c → x ∉ [a; b; c].
Proof. intros. rewrite !not_elem_of_cons. split_and!; [done..|apply not_elem_of_nil]. Qed.

(** The loop of pt_init. *)
Lemma init_tables_run fuel (s : ptstate M) j :
  (j < N)%nat → (N - j ≤ fuel)%nat → built K s (tables j) → running K s (phys low_table) (phys (ktable 0)) → pt_cr3 s = phys K →
  (∀ i, (i ≤ N)%nat → is_Some (pt_frames s !! phys (ktable i))) →
  ∃ s', init_tables fuel K (ktable j) (kernel_start + PT_VADDR_SIZE * Z.of_nat j) (kstart j) X s = RRet (ktable N) s' ∧
    built K s' (tables N) ∧ running K s' (phys low_table) (phys (ktable 0)) ∧ kept s s'.
Proof.
  revert s j. induction fuel as [|fuel IH]; intros s j Hj Hfuel HB HR Hcr Hsome; [lia|]. cbn [init_tables].
  pose proof (sz_count HS) as Hc. pose proof (sz_max HS) as Hmax. pose proof (sz_room HS) as Hroom.
  destruct (ktable_ok (S j) ltac:(lia)) as [Hin Hlow]. destruct (vindex (S j) ltac:(lia)) as (Hv & Hi & Hm).
  destruct (kstart_page (S j) ltac:(lia)) as [Hps Hpl].
  assert (E1 : u32 (ktable j + PAGE_SIZE) = ktable (S j)).
  { destruct Hin as [[_ ?] _]. unfold PAGE_SIZE. rewrite u32_small; unfold ktable in *; lia. }
  assert (E2 : u32 (kernel_start + PT_VADDR_SIZE * Z.of_nat j + PT_VADDR_SIZE) = kernel_start + PT_VADDR_SIZE * Z.of_nat (S j)).
  { rewrite u32_small; lia. }
  assert (E3 : u32 (kstart j + PT_VADDR_SIZE) = kstart (S j)).
  { destruct Hps as [_ ?]. rewrite u32_small; unfold kstart in *; lia. }
  rewrite E1, E2, E3. change (Z.lor PD_PRESENT PD_WRITE) with 3. change (Z.lor PT_PRESENT PT_WRITE) with 3.
  destruct dirs_ok as (K1 & K2 & K3 & _).
  destruct (fill_page_run K K1 K2 K3 s (tables j) (phys low_table) (phys (ktable 0)) (ktable (S j))
    (kernel_start + PT_VADDR_SIZE * Z.of_nat (S j)) (kstart (S j))) as (s1 & R1 & HB1 & HR1 & Hk1); try done.
  { rewrite Hcr. apply not_elem_of_3; unfold low_table, ktable; lia. }
  { apply not_elem_of_3; unfold ktable; lia. }
  { apply Hsome. lia. }
  { intros b q ps Hq. rewrite Hi. by eapply table_apart; [|apply Nat.lt_succ_diag_r]. }
  { lia. }
  { intros _. rewrite !not_elem_of_cons. split_and!; [lia|lia|apply not_elem_of_nil]. }
  rewrite (kbind_of_ret _ _ _ _ _ R1). rewrite Hi in HB1. change (built K s1 (tables (S j))) in HB1.
  destruct (decide (S j = N)) as [<-|Hne].
  - exists s1. destruct (Z.ltb_spec (kstart (S j)) X); [lia|]. done.
  - pose proof (sz_first HS (S j) ltac:(lia)). destruct (Z.ltb_spec (kstart (S j)) X); [|lia].
    destruct (IH s1 (S j)) as (s' & E & HB' & HR' & Hk'); [lia|lia|done|done|by rewrite (kp_cr3 _ _ Hk1)|..].
    { intros i Hile. apply (kp_dom _ _ Hk1), Hsome. done. }
    exists s'. split_and!; [done|done|done|by eapply kept_trans].
Qed.
(** ** The first part *)

Lemma clear_page_at (s : ptstate M) p f ws0 :
  at_frame (pt_frames s) (pt_cr3 s) p f → pt_frames s !! f = Some ws0 → clear_page p s = RRet tt (upd_frames <[f := zeros]> s).
Proof. intros. by eapply st_page_at. Qed.

Lemma loaded_frame (s : ptstate M) f : loaded X s → page f → f < X → ∃ ws, pt_frames s !! f = Some ws ∧ length ws = 1024%nat.
Proof.
  intros [_ (memory & -> & Hm & Hl & _)] Hf Hlt. destruct (Hm f Hf Hlt) as [ws Hws]. unfold install_page_table. cbv zeta.
  rewrite !lookup_insert. repeat case_decide; eexists; (split; [done|]); [done|apply boot_table_length..|eauto].
Qed.

Lemma loaded_length (s : ptstate M) f ws : loaded X s → pt_frames s !! f = Some ws → length ws = 1024%nat.
Proof.
  intros [_ (memory & -> & Hm & Hl & _)]. unfold install_page_table. cbv zeta. rewrite !lookup_insert.
  repeat case_decide; intros; simplify_eq; rewrite ?length_insert, ?boot_table_length; [apply length_replicate|done..|eauto].
Qed.

(** The frames after the first part; [T] is the directory of the boot loader. *)
Definition final_entry : Z := Z.lor (phys (K + 8192)) 3.
Definition cleared_frames (F : gmap Z (list Z)) : gmap Z (list Z) :=
  <[phys (K + 8192) := zeros]> (<[phys (K + 4096) := zeros]> (<[phys K := zeros]> F)).
Definition init_frames (F : gmap Z (list Z)) (T : list Z) : gmap Z (list Z) :=
  <[phys (K + 4096) := <[1023%nat := K + 8192]> zeros]> (<[phys K := <[1023%nat := final_entry]> zeros]>
    (<[0x2000 := <[1023%nat := final_entry]> T]> (cleared_frames F))).
Definition init_state (s : ptstate M) (T : list Z) : ptstate M := with_final_page (K + 8192) (upd_frames (λ F, init_frames F T) s).

Lemma front_phys : 0x100000 ≤ phys K ∧ page (phys K) ∧ page (phys (K + 4096)) ∧ page (phys (K + 8192)) ∧ phys (K + 8192) < X.
Proof.
  destruct dirs_ok as (K1 & K2 & K3 & _). pose proof (sz_mem HS). pose proof (in_kernel_phys _ K1).
  split_and!; [done|by apply kernel_index..|unfold ktable in *; lia].
Qed.

Lemma boot_root_set F f ws : root F 0x2000 0x3000 0x4000 → 0x100000 ≤ f → root (<[f := ws]> F) 0x2000 0x3000 0x4000.
Proof. intros HF Hf. apply root_set; [done|lia|lia|]. intros ->. lia. Qed.

Lemma init_root F T :
  root F 0x2000 0x3000 0x4000 → F !! 0x2000 = Some T →
  root (<[0x2000 := <[1023%nat := final_entry]> T]> (cleared_frames F)) 0x2000 0x3000 0x4000 ∧ root (init_frames F T) 0x2000 0x3000 0x4000.
Proof.
  intros HR HT. destruct front_phys as (P1 & _).
  assert (R : root (<[0x2000 := <[1023%nat := final_entry]> T]> (cleared_frames F)) 0x2000 0x3000 0x4000).
  { unfold cleared_frames. apply root_set; [by repeat apply boot_root_set; try lia|lia|lia|].
    intros _ T'. rewrite !lookup_insert_ne by lia. intros. simplify_eq. by rewrite !list_lookup_insert_ne by lia. }
  split; [done|]. unfold init_frames. apply boot_root_set; [apply boot_root_set; [done|lia]|lia].
Qed.

Lemma init_pagedir_steps (s : ptstate M) T :
  loaded X s → pt_frames s !! 0x2000 = Some T → init_pagedir PAGE_DIRECTORY_BASE K s = RRet tt (init_state s T).
Proof.
  intros HL HT. pose proof (loaded_root X s HL) as R0. pose proof (ld_cr3 _ _ HL) as Hcr. rewrite Hcr in R0.
  pose proof (loaded_length s _ _ HL HT) as LT. destruct dirs_ok as (K1 & K2 & K3 & _). destruct front_phys as (P1 & G1 & G2 & G3 & Hx).
  destruct (loaded_frame s (phys K) HL G1 ltac:(lia)) as (w1 & Hw1 & _).
  destruct (loaded_frame s (phys (K + 4096)) HL G2 ltac:(lia)) as (w2 & Hw2 & _).
  destruct (loaded_frame s (phys (K + 8192)) HL G3 Hx) as (w3 & Hw3 & _).
  destruct s as [m F cr cur tm fin cnt]. unfold PAGE_DIRECTORY_BASE in *. simpl in Hcr. subst cr.
  cbn [pt_mem pt_frames current_pagedir template_pagedir phys_map_count] in *.
  set (F1 := <[phys K := zeros]> F). set (F2 := <[phys (K + 4096) := zeros]> F1). set (F3 := <[phys (K + 8192) := zeros]> F2).
  set (F4 := <[0x2000 := <[1023%nat := final_entry]> T]> F3). set (F5 := <[phys K := <[1023%nat := final_entry]> zeros]> F4).
  set (st F := PtState m F 0x2000 cur tm (K + 8192) cnt).
  assert (R1 : root F1 0x2000 0x3000 0x4000) by (by apply boot_root_set).
  assert (R2 : root F2 0x2000 0x3000 0x4000) by (apply boot_root_set; [done|lia]).
  assert (R3 : root F3 0x2000 0x3000 0x4000) by (apply boot_root_set; [done|lia]).
  destruct (init_root F T R0 HT) as [R4 _]. assert (R5 : root F5 0x2000 0x3000 0x4000) by (by apply boot_root_set).
  assert (Hl2 : F1 !! phys (K + 4096) = Some w2) by (unfold F1; rewrite lookup_insert_ne by lia; done).
  assert (Hl3 : F2 !! phys (K + 8192) = Some w3) by (unfold F2, F1; rewrite !lookup_insert_ne by lia; done).
  assert (HT3 : F3 !! 0x2000 = Some T) by (unfold F3, F2, F1; rewrite !lookup_insert_ne by lia; done).
  assert (Hl4 : F4 !! phys K = Some zeros) by (unfold F4, F3, F2, F1; rewrite !lookup_insert_ne by lia; apply lookup_insert_eq).
  assert (Hl5 : F5 !! phys (K + 4096) = Some zeros)
    by (unfold F5, F4, F3, F2; rewrite !lookup_insert_ne by lia; apply lookup_insert_eq).
  assert (Hlow : page 0x2000) by (split; [by exists 2|lia]).
  unfold init_pagedir. rewrite kassert_next by (apply page_aligned, K1). change PAGE_SIZE with 4096.
  rewrite (kbind_of_ret _ _ _ _ _ (clear_page_at (PtState m F 0x2000 cur tm fin cnt) _ _ w1 (at_kernel _ _ _ _ _ R0 K1) Hw1)).
  rewrite (kbind_of_ret _ _ _ _ _ (clear_page_at (PtState m F1 0x2000 cur tm fin cnt) _ _ w2 (at_kernel _ _ _ _ _ R1 K2) Hl2)).
  cbv zeta. change (2 * 4096) with 8192. unfold kmodify at 1. erewrite kbind_of_ret by reflexivity.
  rewrite kassert_next by (apply page_aligned, K3).
  rewrite (kbind_of_ret _ _ _ _ _ (clear_page_at (st F2) _ _ w3 (at_kernel _ _ _ _ _ R2 K3) Hl3)).
  change (PT_ENTRY_COUNT - 1) with 1023. change (Z.lor PT_PRESENT PT_WRITE) with 3.
  replace (u32 (K + 8192 - kernel_start + KERNEL_PHYS_BASE)) with (phys (K + 8192)).
  2: { destruct K3 as [[_ ?] ?]. unfold delta, kernel_start, KERNEL_PHYS_BASE in *. rewrite u32_small; lia. }
  fold final_entry.
  rewrite (kbind_of_ret _ _ _ _ _ (stw_at (st F3) 0x2000 _ 1023 T final_entry (at_low _ _ _ _ _ R3 Hlow ltac:(done)) ltac:(lia) HT3)).
  rewrite (kbind_of_ret _ _ _ _ _ (ldw_at (st F4) 0x2000 _ 1023 _ final_entry (at_low _ _ _ _ _ R4 Hlow ltac:(done)) ltac:(lia)
    (lookup_insert_eq _ _ _) (list_lookup_insert_eq _ _ _ ltac:(rewrite LT; apply Nat.lt_succ_diag_r)))).
  rewrite (kbind_of_ret _ _ _ _ _ (stw_at (st F4) K _ 1023 zeros final_entry (at_kernel _ _ _ _ _ R4 K1) ltac:(lia) Hl4)).
  unfold pd_virtual. exact (stw_at (st F5) (K + 4096) _ 1023 zeros (K + 8192) (at_kernel _ _ _ _ _ R5 K2) ltac:(lia) Hl5).
Qed.

Lemma init_state_built (s : ptstate M) T :
  loaded X s → pt_frames s !! 0x2000 = Some T → built K (init_state s T) [] ∧ running K (init_state s T) 0x3000 0x4000.
Proof.
  intros HL HT. pose proof (loaded_root X s HL) as R0. pose proof (ld_cr3 _ _ HL) as Hcr. rewrite Hcr in R0.
  pose proof (loaded_length s _ _ HL HT) as LT. destruct front_phys as (P1 & G1 & G2 & G3 & Hx). pose proof zeros_length as LZ.
  assert (Ee : entry final_entry (phys (K + 8192))) by (apply entry_lor; [done|lia|done]). split.
  - split; [done| |by intros ? ? ? ?%elem_of_nil|].
    + eexists _, _, _. split_and!; [..|intros ? ? ? []%elem_of_nil|].
      * cbn [init_state with_final_page upd_frames pt_frames]. unfold init_frames. rewrite lookup_insert_ne by lia. apply lookup_insert_eq.
      * apply lookup_insert_eq.
      * cbn [init_state with_final_page upd_frames pt_frames]. unfold init_frames, cleared_frames.
        rewrite !lookup_insert_ne by lia. apply lookup_insert_eq.
      * exists final_entry. split; [|done]. apply list_lookup_insert_eq. rewrite LZ. apply Nat.lt_succ_diag_r.
      * intros b Hb _. rewrite list_lookup_insert_ne by lia. apply zeros_lookup. lia.
    + intros f w. cbn [init_state with_final_page upd_frames pt_frames]. unfold init_frames, cleared_frames. rewrite !lookup_insert.
      repeat case_decide; intros; simplify_eq; rewrite ?length_insert; try done. by eapply loaded_length.
  - split; cbn [init_state with_final_page upd_frames pt_frames pt_cr3]; rewrite ?Hcr.
    + by apply init_root.
    + eexists _, final_entry. split; [|split; [|exact Ee]].
      * unfold init_frames. rewrite !lookup_insert_ne by (unfold PAGE_DIRECTORY_BASE; lia). apply lookup_insert_eq.
      * apply list_lookup_insert_eq. rewrite LT. apply Nat.lt_succ_diag_r.
    + split; [|done]. split; [by exists 2|done].
    + split; [by exists 4|lia].
    + unfold PAGE_DIRECTORY_BASE. split_and!; try (apply not_elem_of_3; lia). rewrite !not_elem_of_cons. split_and!; [lia|lia|apply not_elem_of_nil].
Qed.
(** ** The switch to the new directory *)

Lemma built_tmp (s : ptstate M) l x Fw :
  built K s l → pt_frames s !! phys (K + 8192) = Some Fw → built K (upd_frames <[phys (K + 8192) := <[1023%nat := x]> Fw]> s) l.
Proof.
  intros [Hfin (Pw & Vw & Fw' & HP & HV & HF & He & Hl & Hz) Htabs Hlen] HF'. split; [done| | |].
  - exists Pw, Vw, (<[1023%nat := x]> Fw). cbn [upd_frames pt_frames].
    rewrite lookup_insert_eq, !lookup_insert_ne by lia. done.
  - intros b q ps Hq. destruct (Htabs _ _ _ Hq) as (? & ? & Hn & ?). split_and!; [lia|lia|done|done|].
    pose proof Hn as (_ & _ & Hne)%in_frames. cbn [upd_frames pt_frames]. by rewrite lookup_insert_ne.
  - intros f w. cbn [upd_frames pt_frames]. rewrite lookup_insert. case_decide; intros; simplify_eq; rewrite ?length_insert; eauto.
Qed.

(** The frames of the new directory, as the processor will see them. *)
Lemma built_running (s : ptstate M) n :
  built K s (tables n) → pt_cr3 s = phys K → running K s (phys low_table) (phys (ktable 0)).
Proof.
  intros [_ (Pw & Vw & Fw & HP & HV & HF & (e & He & Ee) & Hl & _) Htabs _] Hcr. destruct dirs_ok as (K1 & K2 & K3 & K4 & Hlow).
  destruct (ktable_ok 0 ltac:(lia)) as [K5 _]. pose proof K1 as (_ & _ & G1)%kernel_index.
  pose proof K4 as (_ & _ & G4)%kernel_index. pose proof K5 as (_ & _ & G5)%kernel_index.
  assert (T1 : (0, low_table, 0) ∈ tables n) by (apply elem_of_tables; by left).
  assert (T2 : (768, ktable 0, kstart 0) ∈ tables n) by (apply elem_of_tables; right; exists 0%nat; split; [lia|done]).
  destruct (kstart_page 0 ltac:(lia)) as [Q1 Q2].
  split; rewrite ?Hcr; [split| |done|done|].
  - exists Pw, (Z.lor (phys low_table) 3), (Z.lor (phys (ktable 0)) 3).
    split_and!; [done|apply (Hl _ _ _ T1)|apply (Hl _ _ _ T2)|apply entry_lor; [done|lia|done]..].
  - exists (fill_table 0). split; [apply (Htabs _ _ _ T1)|]. apply fill_table_maps; [split; [by exists 0|lia]|done].
  - exists (fill_table (kstart 0)). split; [apply (Htabs _ _ _ T2)|]. by apply fill_table_maps.
  - exists Pw, e. done.
  - unfold low_table, ktable. split_and!; try (apply not_elem_of_3; lia). rewrite !not_elem_of_cons. split_and!; [lia|lia|apply not_elem_of_nil].
Qed.

Lemma boot_pt_set (s : ptstate M) :
  built K s (tables 0) → running K s 0x3000 0x4000 → current_pagedir s = K →
  ∃ s', pt_set K s = RRet tt s' ∧ built K s' (tables 0) ∧ pt_cr3 s' = phys K ∧ current_pagedir s' = K ∧ pt_mem s' = pt_mem s ∧
    (∀ f, is_Some (pt_frames s !! f) → is_Some (pt_frames s' !! f)) ∧
    pt_frames s' !! MEMORY_MAP_BASE = pt_frames s !! MEMORY_MAP_BASE.
Proof.
  intros HB HR Hcur. destruct dirs_ok as (K1 & K2 & K3 & K4 & _). pose proof K1 as (I1 & Eph & G1)%kernel_index.
  pose proof (bt_dir _ _ _ HB) as (Pw & Vw & Fw & HP & HV & HF & _ & Hl & _).
  destruct (ktable_ok 0 ltac:(lia)) as [K5 _]. pose proof K5 as (_ & _ & G5)%kernel_index.
  assert (T2 : (768, ktable 0, kstart 0) ∈ tables 0) by (apply elem_of_tables; right; exists 0%nat; split; [lia|done]).
  destruct (Hl _ _ _ T2) as [HPk _]. destruct (bt_tabs _ _ _ HB _ _ _ T2) as (_ & _ & Hnd & Ht). apply in_frames in Hnd as (_ & _ & Hne).
  destruct (index_range K ltac:(apply K1)) as [_ Hi]. destruct (kstart_page 0 ltac:(lia)) as [Q1 Q2].
  destruct (fill_table_maps _ Q1 Q2 _ Hi) as (w & Hw & _ & Ew). change (kstart 0) with KERNEL_PHYS_BASE in Ew. rewrite <- Eph in Ew.
  set (s1 := upd_frames <[phys (K + 8192) := <[1023%nat := Z.lor (phys (ktable 0)) 3]> Fw]> s).
  pose proof (rn_apart _ _ _ _ HR) as (_ & A2 & _). pose proof A2 as A2'. rewrite !not_elem_of_cons in A2'. destruct A2' as (B1 & B2 & B3 & _).
  assert (R1 : running K s1 0x3000 0x4000).
  { apply running_set; [done|rewrite !not_elem_of_cons; split_and!; [done..|apply not_elem_of_nil]|by intros E]. }
  assert (HA : at_frame (pt_frames s1) (pt_cr3 s1) 0xfffff000 (phys (ktable 0))).
  { eapply (at_tmp _ _ _ _ (Z.lor (phys (ktable 0)) 3)); [apply R1|apply lookup_insert_eq| |apply entry_lor; [done|lia|done]|done].
    apply list_lookup_insert_eq. rewrite (bt_len _ _ _ HB _ _ HF). apply Nat.lt_succ_diag_r. }
  assert (E : pt_virt_to_phys K s = RRet (phys K) s1).
  { unfold pt_virt_to_phys. rewrite kgets_next, Hcur, I1. unfold pd_physical.
    rewrite (kbind_of_ret _ _ _ _ _ (ldw_at s K _ 768 Pw _ (at_kernel _ _ _ _ _ (rn_root _ _ _ _ HR) K1) ltac:(lia) HP HPk)).
    rewrite (proj1 (entry_frame (phys (ktable 0)) 3 G5 ltac:(lia))).
    rewrite (kbind_of_ret _ _ _ _ _ (tmp_map_at K K3 s 0x3000 0x4000 _ Fw HR (bt_final _ _ _ HB) HF G5)). fold s1.
    rewrite (kbind_of_ret _ _ _ _ _ (ldw_at s1 0xfffff000 _ _ _ w HA Hi
      ltac:(cbn [s1 upd_frames pt_frames]; rewrite lookup_insert_ne; [exact Ht|done]) Hw)), Ew.
    destruct (page_index K 0 ltac:(apply K1) ltac:(lia)) as (_ & _ & Eo & _). rewrite Z.add_0_r in Eo. rewrite Eo.
    unfold kret. by rewrite Z.add_0_r. }
  unfold pt_set, pd_physical. rewrite Z.add_0_r, (kbind_of_ret _ _ _ _ _ E). eexists. split; [reflexivity|].
  pose proof (in_kernel_phys _ K3). split_and!; [|done|done|done| |].
  - destruct (built_tmp s (tables 0) (Z.lor (phys (ktable 0)) 3) Fw HB HF). by split.
  - intros f Hf. cbn. rewrite lookup_insert. case_decide; [by eexists|done].
  - cbn. rewrite lookup_insert_ne; [done|]. unfold MEMORY_MAP_BASE, KERNEL_PHYS_BASE in *. lia.
Qed.
(** ** The whole *)

Lemma table_frames (s : ptstate M) :
  loaded X s → is_Some (pt_frames s !! phys low_table) ∧ ∀ i, (i ≤ N)%nat → is_Some (pt_frames s !! phys (ktable i)).
Proof.
  intros HL. pose proof (sz_mem HS). destruct dirs_ok as (_ & _ & _ & K4 & _). split.
  - destruct (loaded_frame s (phys low_table) HL) as (ws & ? & _); [by apply kernel_index|unfold low_table, ktable in *; lia|by eexists].
  - intros i Hi. destruct (loaded_frame s (phys (ktable i)) HL) as (ws & ? & _); [by apply kernel_index, ktable_ok|unfold ktable in *; lia|by eexists].
Qed.

(** The two tables that are filled with the directory of the boot loader. *)
Lemma boot_fill (s : ptstate M) l pt vstart pstart :
  built K s l → running K s 0x3000 0x4000 → pt_cr3 s = 0x2000 → in_kernel pt → K + 8192 < pt → is_Some (pt_frames s !! phys pt) →
  (∀ b q ps, (b, q, ps) ∈ l → q ≠ pt ∧ b ≠ vaddr_to_pdindex vstart) → vstart `mod` PT_VADDR_SIZE = 0 →
  0 ≤ vaddr_to_pdindex vstart < 1023 → page pstart → pstart + PT_VADDR_SIZE ≤ 2 ^ 32 →
  ∃ s', _pt_fill_page K pt 3 3 vstart pstart s = RRet tt s' ∧ built K s' ((vaddr_to_pdindex vstart, pt, pstart) :: l) ∧
    running K s' 0x3000 0x4000 ∧ kept s s'.
Proof.
  intros HB HR Hcr Hpt Hlt Hsome Hfresh Hv Hb Hps Hpl. destruct dirs_ok as (K1 & K2 & K3 & _).
  pose proof (in_kernel_phys _ Hpt) as P1. pose proof (in_kernel_phys _ K1) as P2. unfold KERNEL_PHYS_BASE in P1, P2.
  apply (fill_page_run K K1 K2 K3); try done.
  - rewrite Hcr. apply not_elem_of_3; lia.
  - apply not_elem_of_3; lia.
  - rewrite Hcr. lia.
Qed.

(** pt_init, up to the call of page_add_range. *)
Lemma pt_init_run (s : ptstate M) :
  loaded X s → 0 ≤ X < 2 ^ 32 →
  ∃ s', pt_init K s = pm_call (pm_page_add_range (ktable N + 1024) (X + delta)) s' ∧
    built K s' (tables N) ∧ pt_cr3 s' = phys K ∧ current_pagedir s' = K ∧ pt_mem s' = pt_mem s ∧
    ∀ f, is_Some (pt_frames s !! f) → is_Some (pt_frames s' !! f).
Proof.
  intros HL HX. pose proof (ld_cr3 _ _ HL) as Hcr. destruct (rt_dir _ _ _ _ (loaded_root X s HL)) as (T & _ & _ & HT & _).
  rewrite Hcr in HT. destruct (table_frames s HL) as [Hf1 Hf2]. destruct dirs_ok as (K1 & K2 & K3 & K4 & _).
  destruct (ktable_ok 0 ltac:(lia)) as [K5 _]. destruct (kstart_page 0 ltac:(lia)) as [Q1 Q2]. pose proof (sz_count HS) as Hc.
  pose proof (sz_max HS) as Hmax. pose proof (sz_room HS) as Hroom.
  destruct (init_state_built s T HL HT) as [HB0 HR0]. set (s0 := init_state s T) in *.
  assert (D0 : ∀ f, is_Some (pt_frames s !! f) → is_Some (pt_frames s0 !! f)).
  { intros f Hf. cbn. unfold init_frames, cleared_frames. rewrite !lookup_insert. repeat case_decide; done || by eexists. }
  destruct (boot_fill s0 [] low_table 0 0 HB0 HR0 Hcr K4) as (s1 & E1 & HB1 & HR1 & Hk1);
    [unfold low_table; lia|by apply D0|by intros ? ? ? ?%elem_of_nil|done|done|split; [by exists 0|lia]|done|].
  change (vaddr_to_pdindex 0) with 0 in HB1.
  destruct (boot_fill s1 _ (ktable 0) kernel_start KERNEL_PHYS_BASE HB1 HR1) as (s2 & E2 & HB2 & HR2 & Hk2);
    [by rewrite (kp_cr3 _ _ Hk1)|done|unfold ktable; lia|apply (kp_dom _ _ Hk1), D0, Hf2; lia| |done|done|done|done|].
  { intros b q ps Hq%list_elem_of_singleton. simplify_eq. split; [unfold low_table, ktable; lia|done]. }
  change (vaddr_to_pdindex kernel_start) with 768 in HB2. change (built K s2 (tables 0)) in HB2.
  set (s3 := with_cr3 (pt_cr3 s2) K s2).
  destruct (boot_pt_set s3) as (s4 & E4 & HB4 & Hcr4 & Hcur4 & Hm4 & D4 & L4); [by destruct HB2; split|by destruct HR2; split|done|].
  pose proof (built_running s4 0 HB4 Hcr4) as HR4.
  destruct (ld_memory _ _ HL) as (memory & Hmem & _ & Hlen & ws & Hws & HW).
  assert (Hws4 : pt_frames s4 !! MEMORY_MAP_BASE = Some ws).
  { rewrite L4. cbn [s3 with_cr3 pt_frames]. rewrite (kp_low _ _ Hk2), (kp_low _ _ Hk1) by done. cbn. unfold init_frames, cleared_frames.
    pose proof front_phys as (P1 & _). unfold MEMORY_MAP_BASE. rewrite !lookup_insert_ne by lia. rewrite Hmem.
    unfold install_page_table, PAGE_DIRECTORY_BASE. cbv zeta. rewrite !lookup_insert_ne by lia. done. }
  pose proof (phys_detect_highmem_run s4 _ _ ws X (rn_root _ _ _ _ HR4) Hws4 (Hlen _ _ Hws) HW) as E5.
  destruct (init_tables_run 1024 s4 0) as (s5 & E6 & HB5 & HR5 & Hk5); [lia|lia|done|done|done| |].
  { intros j Hj. apply D4. cbn [s3 with_cr3 pt_frames]. by apply (kp_dom _ _ Hk2), (kp_dom _ _ Hk1), D0, Hf2. }
  exists s5. split_and!; [|done|by rewrite (kp_cr3 _ _ Hk5)|by rewrite (kp_current _ _ Hk5)| |].
  - unfold pt_init. rewrite kgets_next, Hcr. cbv zeta. rewrite (kbind_of_ret _ _ _ _ _ (init_pagedir_steps s T HL HT)). fold s0.
    change (Z.lor PD_PRESENT PD_WRITE) with 3. change (Z.lor PT_PRESENT PT_WRITE) with 3. change (K + 3 * PAGE_SIZE) with low_table.
    replace (low_table + PAGE_SIZE) with (ktable 0) by (unfold low_table, ktable, PAGE_SIZE; lia).
    rewrite (kbind_of_ret _ _ _ _ _ E1), (kbind_of_ret _ _ _ _ _ E2). unfold kmodify at 1. erewrite kbind_of_ret by reflexivity.
    fold s3. rewrite (kbind_of_ret _ _ _ _ _ E4), (kbind_of_ret _ _ _ _ _ E5). rewrite Z.mul_0_r, Z.add_0_r in E6.
    change (kstart 0) with KERNEL_PHYS_BASE in E6. change (Z.to_nat PT_ENTRY_COUNT) with 1024%nat.
    rewrite (kbind_of_ret _ _ _ _ _ E6). change PT_ENTRY_COUNT with 1024.
    unfold kstart, delta, kernel_start, KERNEL_PHYS_BASE in *. change PT_VADDR_SIZE with 0x400000 in *.
    rewrite !u32_small by (unfold ktable in *; destruct K1 as [[_ ?] _]; lia). do 2 f_equal. lia.
  - rewrite (kp_mem _ _ Hk5), Hm4. cbn [s3 with_cr3 pt_mem]. by rewrite (kp_mem _ _ Hk2), (kp_mem _ _ Hk1).
  - intros f Hf. apply (kp_dom _ _ Hk5), D4. cbn [s3 with_cr3 pt_frames]. by apply (kp_dom _ _ Hk2), (kp_dom _ _ Hk1), D0.
Qed.
(** ** The layout *)

(** The kernel's tables: the directory, the table of temporary mappings, and the
    tables in front of the last one. *)
Definition kernel_frame (f : Z) : Prop :=
  f = phys K ∨ f = phys (K + 8192) ∨ phys (ktable 0) ≤ f < phys (ktable N).
#[local] Instance kernel_frame_dec f : Decision (kernel_frame f).
Proof. unfold kernel_frame. apply _. Defined.

Definition boot_layout (frames : gmap Z (list Z)) : layout :=
  Layout delta (default [] (frames !! phys K)) (filter (λ ft, kernel_frame ft.1) frames) (K + 8192).

Lemma boot_tables frames f t : ly_tables (boot_layout frames) !! f = Some t ↔ frames !! f = Some t ∧ kernel_frame f.
Proof. apply map_lookup_filter_Some. Qed.

Lemma kernel_mapped (s : ptstate M) p :
  built K s (tables N) → page p → kernel_start ≤ p < kernel_start + PT_VADDR_SIZE * Z.of_nat N → kmapped (boot_layout (pt_frames s)) p.
Proof.
  intros [_ (Pw & Vw & Fw & HP & _ & _ & _ & Hl & _) Htabs Hlen] Hp Hr. change PT_VADDR_SIZE with (2 ^ 22) in Hr.
  pose proof (sz_count HS) as Hc. set (j := Z.to_nat ((p - kernel_start) / 2 ^ 22)).
  assert (Hd : 0 ≤ (p - kernel_start) / 2 ^ 22 < Z.of_nat N) by (split; [apply Z.div_pos; lia|apply Z.div_lt_upper_bound; lia]).
  assert (Hj : Z.of_nat j = (p - kernel_start) / 2 ^ 22) by (unfold j; lia).
  assert (Ei : vaddr_to_pdindex p = 768 + Z.of_nat j).
  { rewrite pdindex_eq, Hj by apply Hp. replace p with ((p - kernel_start) + 768 * 2 ^ 22) at 1 by (unfold kernel_start; lia).
    rewrite Z.div_add by lia. lia. }
  destruct (ktable_ok j ltac:(lia)) as [Kj _]. pose proof Kj as (_ & _ & Gj)%kernel_index.
  destruct (kstart_page j ltac:(lia)) as [Q1 Q2]. destruct (index_range p ltac:(apply Hp)) as [_ Hi].
  assert (Tj : (768 + Z.of_nat j, ktable j, kstart j) ∈ tables N) by (apply elem_of_tables; right; exists j; split; [lia|done]).
  destruct (Hl _ _ _ Tj) as [HPj _]. destruct (Htabs _ _ _ Tj) as (_ & _ & Hnd & Ht). apply in_frames in Hnd as (_ & _ & N3).
  destruct (entry_lor (phys (ktable j)) 3 Gj ltac:(lia) eq_refl) as [Pr Em].
  destruct (fill_table_maps _ Q1 Q2 _ Hi) as (w & Hw & Pw' & Ew).
  assert (Eph : kstart j + 4096 * vaddr_to_ptindex p = phys p).
  { rewrite ptindex_eq by apply Hp. unfold kstart, delta. change PT_VADDR_SIZE with (4096 * 1024). rewrite Hj.
    destruct Hp as [[k Hk] Hp]. rewrite Hk, Z.div_mul by lia. change (2 ^ 22) with (4096 * 1024).
    replace (k * 4096 - kernel_start) with ((k - 786432) * 4096) by (unfold kernel_start; lia).
    rewrite <- Z.div_div, Z.div_mul by lia. replace k with ((k - 786432) + 768 * 1024) at 2 by lia. rewrite Z.mod_add by lia.
    pose proof (Z.div_mod (k - 786432) 1024). unfold kernel_start. lia. }
  assert (Hpp : page (phys p)).
  { rewrite <- Eph. destruct Q1 as [[a Ha] ?]. change PT_VADDR_SIZE with (4096 * 1024) in Q2. split; [exists (a + vaddr_to_ptindex p)|]; lia. }
  split_and!; [done|done|unfold user_index; lia|]. exists (Z.lor (phys (ktable j)) 3), (fill_table (kstart j)), w. rewrite Em, Ew, Eph. split_and!; try done.
  - rewrite Ei. cbn [boot_layout ly_words]. rewrite HP. exact HPj.
  - apply boot_tables. split; [done|]. right; right. unfold ktable. lia.
Qed.
(** The pages for the allocator: from the last table to an address in front of the
    end of memory. *)
Context (stop : Z) (Hstop : ktable N ≤ stop ≤ X + delta).
Abbreviation pages := (managed [(ktable N, stop)]).

Lemma boot_page p : pages p → page p ∧ ktable N ≤ p < X + delta.
Proof.
  intros [Hd (r & ->%list_elem_of_singleton & Hr)]. simpl in Hr. pose proof (sz_max HS) as Hmax. pose proof (sz_count HS) as Hc.
  pose proof (sz_kernel HS) as [_ HK]. unfold page, kstart, delta, kernel_start, KERNEL_PHYS_BASE, ktable in *.
  change PT_VADDR_SIZE with 0x400000 in *. split_and!; [done|lia..].
Qed.

Lemma boot_page_mapped (s : ptstate M) p : built K s (tables N) → pages p → kmapped (boot_layout (pt_frames s)) p.
Proof.
  intros HB [Hp Hr]%boot_page. apply kernel_mapped; [done|done|]. pose proof (sz_max HS). pose proof (sz_kernel HS) as [_ HK].
  unfold kstart, delta, ktable in *. lia.
Qed.

Lemma front_mapped (s : ptstate M) p : built K s (tables N) → in_kernel p → kmapped (boot_layout (pt_frames s)) p.
Proof. intros HB [Hp Hr]. apply kernel_mapped; [done|done|]. pose proof (sz_count HS). change PT_VADDR_SIZE with 0x400000 in *. lia. Qed.

Lemma boot_layout_ok (s : ptstate M) : built K s (tables N) → layout_ok pages (boot_layout (pt_frames s)).
Proof.
  intros HB. destruct dirs_ok as (K1 & K2 & K3 & _).
  pose proof (bt_dir _ _ _ HB) as (Pw & Vw & Fw & HP & HV & HF & (e & He & Pr & Em) & _). split.
  - intros p Hp. pose proof Hp as [_ Hr]%boot_page. split_and!; [by apply boot_page_mapped| |].
    + pose proof (sz_kernel HS) as [_ HK]. unfold ktable, kernel_start in *. lia.
    + apply eq_None_not_Some. intros [t [_ Hk]%boot_tables]. unfold kernel_frame, ktable in *. cbn [boot_layout ly_delta] in Hk. lia.
  - split; [by apply front_mapped|]. exists Fw. apply boot_tables. split; [done|right; by left].
  - exists e. cbn [boot_layout ly_words ly_delta ly_final]. rewrite HP. done.
  - cbn [boot_layout ly_words]. rewrite HP. exact (bt_len _ _ _ HB _ _ HP).
Qed.

Lemma boot_access (s : ptstate M) :
  built K s (tables N) → pt_cr3 s = phys K → kaccess (boot_layout (pt_frames s)) (pt_frames s) (pt_cr3 s).
Proof.
  intros HB ->. pose proof (bt_dir _ _ _ HB) as (Pw & Vw & Fw & HP & _). split.
  - intros f t [Hf _]%boot_tables. by exists t.
  - exists Pw. split; [done|]. intros i _ _. cbn [boot_layout ly_words]. by rewrite HP.
Qed.

Lemma boot_ptinv `{!PageMemLaws M pages} (s : ptstate M) :
  built K s (tables N) → pt_cr3 s = phys K → current_pagedir s = K → pm_inv (pt_mem s) [] →
  (∀ f, page f → f < X → is_Some (pt_frames s !! f)) →
  ptinv pages (boot_layout (pt_frames s)) s [] [] ∧ boot_state pages (boot_layout (pt_frames s)) s low_table.
Proof.
  intros HB Hcr Hcur Hm Hmem. destruct dirs_ok as (K1 & K2 & K3 & K4 & _).
  pose proof (bt_dir _ _ _ HB) as (Pw & Vw & Fw & HP & HV & HF & (e & He & Pr & Em) & Hl & Hz).
  assert (Hb : boot_dir (boot_layout (pt_frames s)) (current_pagedir s) (pt_cr3 s)).
  { rewrite Hcur. split_and!; [by apply front_mapped|done|cbn; lia|]. apply boot_tables. cbn [boot_layout ly_delta ly_words]. rewrite HP.
    split; [done|by left]. }
  assert (T1 : (0, low_table, 0) ∈ tables N) by (apply elem_of_tables; by left).
  assert (Hnot : ∀ p, p < ktable N → ¬ pages p) by (intros p Hlt [_ ?]%boot_page; lia). split.
  - split; [done|apply HB| | |by intros ? ?%elem_of_nil|apply HB|by right].
    + intros p Hp. pose proof (boot_page_mapped s p HB Hp) as (_ & Hph & _). pose proof Hp as [_ Hr]%boot_page. apply Hmem; [done|cbn; lia].
    + intros f t [Hf _]%boot_tables. by exists t.
  - split; [done| | | | |].
    + intros i Hi. exists 0. cbn [boot_layout ly_words]. rewrite HP. split; [|done]. unfold user_index in Hi. apply Hz; [lia|].
      intros q ps [E|(j & _ & E)]%elem_of_tables; unfold kentry in E; simplify_eq; lia.
    + rewrite Hcur. split; [by apply front_mapped|]. exists Vw. split; [done|apply (Hl _ _ _ T1)].
    + split_and!; [by apply front_mapped|apply Hnot; unfold low_table, ktable; lia| | |rewrite Hcur; unfold low_table; lia].
      * apply eq_None_not_Some. intros [t [_ Hk]%boot_tables]. unfold kernel_frame, low_table, ktable in Hk. cbn [boot_layout ly_delta] in Hk. lia.
      * exists (fill_table 0). apply (bt_tabs _ _ _ HB _ _ _ T1).
    + rewrite Hcur. apply Hnot. unfold ktable. lia.
    + rewrite Hcur. cbn [boot_layout ly_final]. lia.
Qed.
End Tables.

(** * From the boot loader to address spaces *)

Lemma no_pages_pinv : pinv (PState [] 0) [].
Proof. split; simpl; try done; [by intros ? ?%elem_of_nil|by intros ? ?%elem_of_nil]. Qed.

Lemma align_down_in_page start : page start → PAGE_ALIGN_DOWN (start + 1024) = start.
Proof.
  intros Hs. destruct (page_split start 1024 Hs ltac:(lia)) as (Hr1 & E & _). rewrite align_down_spec, E by done.
  destruct Hs as [[k ->] _]. by rewrite Z.div_mul by lia.
Qed.

Lemma page_add_range_aligned start end_ (s : pstate * sstate) :
  page_add_range start end_ s = page_add_range (PAGE_ALIGN_DOWN start) end_ s.
Proof. unfold page_add_range. destruct (align_down_range start). by rewrite (align_down_aligned (PAGE_ALIGN_DOWN start)). Qed.

(** The range need not be a multiple of the largest block for page_add_range to
    return. *)
Lemma add_tail_aligned n fl end_ os :
  (4096 | end_) → ∃ fl' e, foldl (add_tail n) (fl, end_) os = (fl', e) ∧ (4096 | e).
Proof.
  revert fl end_. induction os as [|o os IH]; intros fl end_ He; simpl; [by eauto|].
  destruct (Z.land n (pages_of o) =? 0); apply IH; [done|].
  unfold u32. apply Z.mod_divide; [done|]. rewrite Z.mod_mod_divide by (by exists (2 ^ 20)).
  apply Z.mod_divide; [done|]. apply Z.divide_sub_r; [done|]. rewrite bytes_pages. apply Z.divide_factor_l.
Qed.

Lemma add_range_returns start end_ (ss : sstate) :
  page start → page end_ → start < group_end start end_ →
  ∃ m, page_add_range (start + 1024) end_ (PState [] 0, ss) = RRet tt m ∧ ranges m.1 = [(start, group_end start end_)].
Proof.
  intros Hs He Hlt. assert (Ha : PAGE_ALIGN_DOWN (start + 1024) = start) by (by apply align_down_in_page).
  rewrite page_add_range_aligned, Ha. unfold page_add_range. rewrite !align_down_aligned by (apply Hs || apply He || lia).
  unfold _pagegroup_create. destruct (group_end_range start end_) as [Hr Hal]. set (e := group_end start end_) in *.
  destruct (add_tail_aligned (Z.shiftr (u32 (e - start)) PAGE_SHIFT) ∅ e (seq 0 (PAGE_NSIZES - 1)) Hal) as (fl & e' & Ef & He').
  cbv zeta. rewrite Ef. assert (u32 (e' - start) `mod` pages_of (PAGE_NSIZES - 1) =? 0 = true) as ->.
  { apply Z.eqb_eq. unfold u32. rewrite Z.mod_mod_divide by (by exists (2 ^ 25)). apply Z.mod_divide; [done|].
    transitivity 4096; [by exists 32|]. apply Z.divide_sub_r; [done|apply Hs]. }
  unfold KASSERT, kbind, kret. cbn [rbind pg_baseaddr pg_endaddr]. rewrite (proj2 (Z.ltb_lt _ _) Hlt). eexists. by split.
Qed.

(** Nothing is allocated: there is a free block of every order. *)
Lemma fresh_room (p : pstate) g o :
  pinv p [] → g ∈ ps_groups p → (o < PAGE_NSIZES)%nat → 4096 ≤ pg_endaddr g - pg_baseaddr g → ¬ no_block p (Z.of_nat o).
Proof.
  intros Hp Hg Ho Hsz Hno. destruct (pi_group _ _ Hp g Hg) as (HG & Hc & Hd). simpl in HG.
  assert (Hf : frees g = []).
  { apply elem_of_nil_inv. intros [o' x] [Ho' Hx]%elem_of_frees. destruct (decide (o' < PAGE_NSIZES - 1)%nat).
    - by rewrite all_free_coalesced in Hx by done; apply elem_of_nil in Hx.
    - rewrite (Hno g o' Hg) in Hx by lia. by apply elem_of_nil in Hx. }
  destruct (ginv_npages _ _ HG) as [E _]. rewrite Hf in E. simpl in E.
  assert (1 ≤ (pg_endaddr g - pg_baseaddr g) / 4096) by (apply Z.div_le_lower_bound; lia). lia.
Qed.

Lemma fresh_alloc (m : pstate * sstate) o :
  pinv m.1 [] → (o < PAGE_NSIZES)%nat → ¬ no_block m.1 (Z.of_nat o) →
  ∃ a m', _page_alloc_order slab_allocators_reclaim o m = RRet (Some a) m' ∧ a ≠ NULL.
Proof.
  intros Hp Ho Hroom. destruct (page_alloc_order_run slab_allocators_reclaim m [] o Hp Ho) as [(a & m' & E & _ & _ & _ & Hp')|[Hno _]].
  - exists a, m'. split; [done|]. assert (0 < a) by (apply (pinv_pos _ _ (o, a) Hp'); left). unfold NULL. lia.
  - destruct Hroom. intros g o' Hg Hr. apply Hno; [done|lia].
Qed.

(** The first pages of the allocator. *)
Lemma first_range start end_ :
  page start → page end_ → 0 < start → start < group_end start end_ → (bytes_of top | group_end start end_ - start) →
  ∃ m, page_add_range (start + 1024) end_ (PState [] 0, empty_sstate) = RRet tt m ∧ ranges m.1 = [(start, group_end start end_)] ∧
    m.2 = empty_sstate ∧ pinv m.1 [] ∧ ∀ o, (o < PAGE_NSIZES)%nat → ¬ no_block m.1 (Z.of_nat o).
Proof.
  intros Hs He Hpos Hlt Hd. pose proof (group_end_range start end_) as [Hr _]. set (e := group_end start end_) in *.
  assert (Ha : PAGE_ALIGN_DOWN (start + 1024) = start) by (by apply align_down_in_page).
  rewrite page_add_range_aligned, Ha.
  destruct (page_add_range_run (PState [] 0, empty_sstate) [] start end_ no_pages_pinv) as (m & g & Hrun & E2 & Hp & Hg & Hb & Hen & _);
    [apply Hs|apply He|done|apply He|done|by intros ? ?%elem_of_nil| |].
  { fold e. cbn [fst ps_groups managed_pages foldr]. rewrite Z.add_0_l. apply (Z.le_lt_trans _ e); [|lia].
    transitivity (e - start); [apply Z.div_le_upper_bound; lia|lia]. }
  exists m. split_and!; [done| |done|done|].
  - unfold ranges. rewrite Hg. simpl. by rewrite Hb, Hen.
  - intros o Ho. apply (fresh_room _ g); [done|rewrite Hg; left|done|].
    rewrite Hb, Hen. destruct Hs as [[k Hk] _], (group_end_range start end_) as [_ [k' Hk']]. fold e in Hk' |- *. lia.
Qed.

Lemma fresh_alloc_2 (m : pstate * sstate) m' :
  pinv m.1 [] → (∀ o, (o < PAGE_NSIZES)%nat → ¬ no_block m.1 (Z.of_nat o)) → pm_page_alloc_n 2 m ≠ RRet NULL m'.
Proof.
  intros Hp Hroom. cbn [pm_page_alloc_n slab_pagemem]. unfold page_alloc_n. change (order_for 2) with (Some 1%nat). cbv iota.
  destruct (fresh_alloc m 1 Hp) as (a & m1 & Ea & Hn); [unfold PAGE_NSIZES; lia|apply Hroom; unfold PAGE_NSIZES; lia|].
  rewrite (kbind_of_ret _ _ _ _ _ Ea). unfold kret. simpl. congruence.
Qed.

(** pt_init: the tables. *)
Lemma pt_tables_run K X N (s : ptstate (pstate * sstate)) :
  sizes K X N → loaded X s → pt_mem s = (PState [] 0, empty_sstate) → (4096 | X) →
  let start := ktable K N in let stop := group_end start (X + delta) in
  start < stop ≤ X + delta →
  ∃ s', pt_init K s = RRet tt s' ∧ ranges (pt_mem s').1 = [(start, stop)] ∧
    let P := managed [(start, stop)] in let ly := boot_layout K N (pt_frames s') in
    layout_ok P ly ∧ kaccess ly (pt_frames s') (pt_cr3 s').
Proof.
  intros HS HL Hm0 HX. cbv zeta. set (start := ktable K N). set (stop := group_end start (X + delta)). intros Hstop.
  pose proof (sz_max _ _ _ HS) as Hmax. pose proof (sz_count _ _ _ HS) as Hc. pose proof (sz_mem _ _ _ HS) as Hmem.
  destruct (ktable_ok K X N HS N ltac:(lia)) as [[Hpg Hin] _]. fold start in Hpg, Hin, Hmem.
  unfold kstart in Hmax. change PT_VADDR_SIZE with 0x400000 in *. assert (Hd : delta = 0xbff00000) by done.
  unfold KERNEL_PHYS_BASE, kernel_start in *.
  destruct (pt_init_run K X N HS s HL ltac:(lia)) as (s1 & Hrun & HB & Hcr & _ & Em & _).
  assert (Hend : page (X + delta)) by (rewrite Hd; destruct HX as [k ->]; split; [exists (k + 0xbff00)|]; lia).
  destruct (add_range_returns start (X + delta) empty_sstate Hpg Hend) as (m & Hadd & Hrg); [fold stop; lia|].
  assert (HB' : built K (with_pt_mem m s1) (tables K N)) by (by destruct HB; split).
  exists (with_pt_mem m s1). split_and!; [|done|apply (boot_layout_ok K X N HS stop); [fold start; lia|done]|by apply boot_access].
  rewrite Hrun. unfold pm_call, klift. rewrite Em, Hm0. cbn [pm_page_add_range slab_pagemem]. fold start. by rewrite Hadd.
Qed.

(** pt_init, and pt_template_init after it. *)
Lemma pt_boot_run K X N (s : ptstate (pstate * sstate)) :
  sizes K X N → loaded X s → pt_mem s = (PState [] 0, empty_sstate) → (4096 | X) →
  let start := ktable K N in let stop := group_end start (X + delta) in
  start < stop ≤ X + delta → (bytes_of top | stop - start) →
  ∃ s', pt_init K s = RRet tt s' ∧ current_pagedir s' = K ∧ ranges (pt_mem s').1 = [(start, stop)] ∧ (pt_mem s').2 = empty_sstate ∧
    pinv (pt_mem s').1 [] ∧ (∀ o, (o < PAGE_NSIZES)%nat → ¬ no_block (pt_mem s').1 (Z.of_nat o)) ∧
    let P := managed [(start, stop)] in let ly := boot_layout K N (pt_frames s') in
    layout_ok P ly ∧ ptinv P ly s' [] [] ∧ boot_state P ly s' (low_table K) ∧
    ∃ t s2, pt_template_init s' = RRet tt s2 ∧ ptinv P ly s2 [Dir t ∅] [] ∧ template_pagedir s2 = t.
Proof.
  intros HS HL Hm0 HX. cbv zeta. set (start := ktable K N). set (stop := group_end start (X + delta)). intros Hstop Hdiv.
  pose proof (sz_max _ _ _ HS) as Hmax. pose proof (sz_count _ _ _ HS) as Hc. pose proof (sz_mem _ _ _ HS) as Hmem.
  destruct (ktable_ok K X N HS N ltac:(lia)) as [[Hpg Hin] _]. fold start in Hpg, Hin, Hmem.
  unfold kstart in Hmax. change PT_VADDR_SIZE with 0x400000 in *. assert (Hd : delta = 0xbff00000) by done.
  unfold KERNEL_PHYS_BASE, kernel_start in *.
  destruct (pt_init_run K X N HS s HL ltac:(lia)) as (s1 & Hrun & HB & Hcr & Hcur & Em & Hdom).
  assert (Hend : page (X + delta)) by (rewrite Hd; destruct HX as [k ->]; split; [exists (k + 0xbff00)|]; lia).
  destruct (first_range start (X + delta) Hpg Hend ltac:(lia) ltac:(lia) Hdiv) as (m & Hadd & Hrg & Hss & Hp & Hroom). fold stop in Hrg.
  set (s' := with_pt_mem m s1). assert (HB' : built K s' (tables K N)) by (by destruct HB; split).
  assert (Hfr : ∀ f, page f → f < X → is_Some (pt_frames s' !! f)).
  { intros f Hf Hlt. apply Hdom. destruct (loaded_frame X s f HL Hf Hlt) as (ws & Hws & _). by eexists. }
  pose proof (boot_layout_ok K X N HS stop ltac:(fold start; lia) s' HB') as Hly.
  assert (Hm' : @pm_inv _ _ _ (slab_pagemem_laws [(start, stop)]) (pt_mem s') []).
  { split; [done|]. exists [], []. destruct m as [p ss]. simpl in Hss. subst ss. by apply empty_sinv. }
  destruct (boot_ptinv K X N HS stop ltac:(fold start; lia) s' HB' Hcr Hcur Hm' Hfr) as [HI Hbs].
  exists s'. split_and!; [|done|done|done|done|done|done|done|done|].
  - rewrite Hrun. unfold pm_call, klift. rewrite Em, Hm0. cbn [pm_page_add_range slab_pagemem]. fold start. by rewrite Hadd.
  - destruct (pt_template_init_run _ _ Hly s' [] _ HI Hbs) as [(t & s2 & ? & ? & ? & _)|[[m' Hm2] _]]; [by exists t, s2|].
    by destruct (fresh_alloc_2 m m' Hp Hroom).
Qed.

(** C24. From the memory that the boot loader leaves, with the kernel in front of its
    page tables and a memory map whose usable range ends at a page boundary, pt_init
    hands the pages behind the tables to the page allocator and builds page tables
    that map each of these pages to the frame it belongs to.  When what it hands over
    is a multiple of 128 pages, the largest block of the allocator, this is the state
    in which address spaces can be made: pt_template_init then makes the template,
    and also after other pages have been handed out it makes it or panics because
    there is no memory.  (Without the condition the allocator starts with blocks whose
    buddy does not exist, and its invariant does not hold.) *)
Theorem pt_boot_correct K X N (s : ptstate (pstate * sstate)) :
  sizes K X N → loaded X s → pt_mem s = (PState [] 0, empty_sstate) → (4096 | X) →
  let start := ktable K N in let stop := group_end start (X + delta) in
  start < stop ≤ X + delta →
  ∃ s', pt_init K s = RRet tt s' ∧ ranges (pt_mem s').1 = [(start, stop)] ∧
    let P := managed [(start, stop)] in let ly := boot_layout K N (pt_frames s') in
    (∀ p off, P p → 0 ≤ off < 4096 → page_walk (pt_frames s') (pt_cr3 s') (p + off) = Some (p - delta + off)) ∧
    layout_ok P ly ∧
    ((bytes_of top | stop - start) →
     ptinv P ly s' [] [] ∧
     (∃ t s2, pt_template_init s' = RRet tt s2 ∧ ptinv P ly s2 [Dir t ∅] [] ∧ template_pagedir s2 = t) ∧
     ∀ m B, slab_pm_inv [(start, stop)] m B →
       (∃ t s2, pt_template_init (with_pt_mem m s') = RRet tt s2 ∧ ptinv P ly s2 [Dir t ∅] B ∧ template_pagedir s2 = t) ∨
       pt_template_init (with_pt_mem m s') = RPanic "NULL != template_pagedir").
Proof.
  intros HS HL Hm0 HX. cbv zeta. intros Hstop.
  destruct (pt_tables_run K X N s HS HL Hm0 HX Hstop) as (s' & Hrun & Hrg & Hly & Hacc).
  exists s'. split_and!; [done|done| |done|].
  { intros p off Hp Ho. apply (walk_kernel _ _ _ p off Hacc); [|done]. by apply (lo_pages _ _ Hly). }
  intros Hdiv. destruct (pt_boot_run K X N s HS HL Hm0 HX Hstop Hdiv) as (s0 & E & _ & _ & _ & _ & _ & _ & HI & Hbs & Ht).
  assert (s0 = s') as -> by congruence. split_and!; [done|done|].
  intros m B Hm. destruct (pt_template_init_run _ _ Hly (with_pt_mem m s') B (low_table K)) as [(t & s2 & ? & ? & ? & _)|[_ ?]];
    [by eapply ptinv_mem|by destruct Hbs; split|left; by exists t, s2|by right].
Qed.

(** * Example: a machine with 8 megabytes *)

Module Machine.

Definition physmax : Z := 0x800000.
Definition kernel_end : Z := 0xc00f9000.

(** One range of usable memory, from the first megabyte on. *)
Definition map_words : list Z := [1; 0x100000; 0; 0x700000; 0; 1; 0] ++ replicate 1017 0.
Definition memory : gmap Z (list Z) :=
  <[MEMORY_MAP_BASE := map_words]> (list_to_map ((λ i, (4096 * i, zeros)) <$> seqZ 0 (physmax / 4096))).
Definition machine : ptstate (pstate * sstate) :=
  PtState (PState [] 0, empty_sstate) (install_page_table memory) PAGE_DIRECTORY_BASE 0 0 0 1.

Lemma memory_lookup f ws : memory !! f = Some ws → length ws = 1024%nat.
Proof.
  unfold memory. rewrite lookup_insert. case_decide; [intros [= <-]; done|].
  intros (i & [= _ ->] & _)%elem_of_list_to_map_2%list_elem_of_fmap. apply zeros_length.
Qed.

Lemma memory_frame f : page f → f < physmax → is_Some (memory !! f).
Proof.
  intros [[k ->] Hr] Hlt. unfold memory. rewrite lookup_insert. case_decide; [by eexists|].
  apply not_eq_None_Some. intros Hn%not_elem_of_list_to_map_2. apply Hn. rewrite <- list_fmap_compose.
  apply list_elem_of_fmap. exists k. split; [simpl; lia|].
  apply elem_of_seqZ. change (physmax / 4096) with 2048. unfold physmax in Hlt. lia.
Qed.

Lemma machine_sizes : sizes kernel_end physmax 2.
Proof.
  split; [|done|lia|done|done|].
  - split; [split; [by exists 0xc00f9|done]|done].
  - intros j Hj. replace j with 1%nat by lia. done.
Qed.

Lemma machine_loaded : loaded physmax machine.
Proof.
  split; [done|]. exists memory. split_and!; [done|by apply memory_frame|by apply memory_lookup|].
  exists map_words. split; [apply lookup_insert_eq|]. exists 1%nat, 0%nat. split_and!; [done|lia|lia|done|lia].
Qed.

Lemma machine_range :
  ktable kernel_end 2 < group_end (ktable kernel_end 2) (physmax + delta) ≤ physmax + delta ∧
  (bytes_of top | group_end (ktable kernel_end 2) (physmax + delta) - ktable kernel_end 2).
Proof.
  assert (group_end (ktable kernel_end 2) (physmax + delta) = 0xc06ff000) as -> by (vm_compute; reflexivity).
  split; [done|]. exists 12. vm_compute. reflexivity.
Qed.

(** The machine after the boot, with the template. *)
Lemma machine_booted :
  ∃ P ly (laws : PageMemLaws (pstate * sstate) P) s t, layout_ok P ly ∧ ptinv P ly s [Dir t ∅] [] ∧ template_pagedir s = t.
Proof.
  destruct machine_range as [Hr Hd].
  destruct (pt_boot_run kernel_end physmax 2 machine machine_sizes machine_loaded eq_refl ltac:(by exists 2048) Hr Hd)
    as (s' & _ & _ & _ & _ & _ & _ & Hly & _ & _ & t & s2 & _ & HI & Ht).
  eexists _, _, _, s2, t. split; [exact Hly|]. split; [exact HI|exact Ht].
Qed.

Lemma pt_boot_correct_witness :
  ∃ s' t s2, pt_init kernel_end machine = RRet tt s' ∧ pt_template_init s' = RRet tt s2 ∧ template_pagedir s2 = t.
Proof.
  destruct machine_range as [Hr Hd].
  destruct (pt_boot_correct kernel_end physmax 2 machine machine_sizes machine_loaded eq_refl ltac:(by exists 2048) Hr)
    as (s' & E & _ & _ & _ & H). destruct (H Hd) as (_ & (t & s2 & E2 & _ & Ht) & _).
  exists s', t, s2. split; [exact E|]. split; [exact E2|exact Ht].
Defined.

Lemma pt_map_correct_witness :
  ∃ (s : ptstate (pstate * sstate)) d r s', pt_map d 0x08048000 0x300000 7 7 s = RRet r s'.
Proof.
  destruct machine_booted as (P & ly & laws & s & t & Hly & HI & _).
  destruct (pt_map_correct P ly Hly s (Dir t ∅) [] [] 0x08048000 0x300000 7 7 HI) as [(d' & s' & E & _)|(s' & E & _)];
    [unfold user_addr, USER_MEM_LOW, USER_MEM_HIGH; lia|by exists 0x8048|split; [by exists 0x300|lia]|lia|done|lia|done| |];
    eexists s, t, _, s'; exact E.
Defined.

Lemma pt_unmap_range_correct_witness :
  ∃ (s : ptstate (pstate * sstate)) d s', pt_unmap_range d 0x08049000 0x0804a000 s = RRet tt s'.
Proof.
  destruct machine_booted as (P & ly & laws & s & t & Hly & HI & _).
  destruct (pt_unmap_range_correct P ly Hly s (Dir t ∅) [] [] 0x08049000 0x0804a000 HI) as (d' & s' & E & _);
    [lia|by exists 0x8049|by exists 0x804a|done|done|].
  exists s, t, s'. exact E.
Defined.

Lemma pagedir_lifecycle_witness :
  ∃ (s : ptstate (pstate * sstate)) r s', pt_create_pagedir s = RRet r s'.
Proof.
  destruct machine_booted as (P & ly & laws & s & t & Hly & HI & Ht).
  destruct (pagedir_lifecycle P ly Hly s [Dir t ∅] [] (Dir t ∅) HI) as [(s' & E & _)|(a & s' & E & _)];
    [left|symmetry; exact Ht|reflexivity| |]; eexists s, _, s'; exact E.
Defined.
End Machine.
