(* ===== verification/Vfs.v ===== *)
(** Vnodes and open files: kernel/fs/vnode.c and kernel/fs/file.c, with the
    operations of kernel/fs/ramfs/ramfs.c that vnode.c calls.

    One file system is mounted, a ramfs, as in a kernel without __MOUNTING__ and
    with VFS_ROOTFS_TYPE "ramfs"; the fs argument of the functions is left out.
    Structures are kept in maps from their addresses and disappear from the map
    when they are freed, so that using a freed vnode, file or inode is a fault.
    The state has the current process's descriptors and working directory, the
    threads and queues of Sched, and the memory allocators behind KMem. *)

From stdpp Require Import base numbers list gmap strings.
From S2P Require Import Prelude Sched Mutex PageAlloc Slab KMem.

Open Scope Z_scope.

(** * Data *)

(** stat.h *)
Definition S_IFCHR : Z := 0x0100.
Definition S_IFDIR : Z := 0x0200.
Definition S_IFBLK : Z := 0x0400.
Definition S_IFREG : Z := 0x0800.
Definition _S_TYPE (m : Z) : Z := Z.land m 0xFF00.
Definition S_ISCHR (m : Z) : bool := _S_TYPE m =? S_IFCHR.
Definition S_ISDIR (m : Z) : bool := _S_TYPE m =? S_IFDIR.
Definition S_ISBLK (m : Z) : bool := _S_TYPE m =? S_IFBLK.
Definition S_ISREG (m : Z) : bool := _S_TYPE m =? S_IFREG.

(** config.h *)
Definition NFILES : Z := 32.
Definition NAME_LEN : Z := 28.
Definition MAXPATHLEN : Z := 1024.

(** The operation tables a vnode may have. *)
Inductive vops := ramfs_dir_vops | ramfs_file_vops | bytedev_spec_vops | blockdev_spec_vops.

(** A byte device: its identifier and the read and write entries of its table. *)
Record bytedev := Bytedev {
  cd_id : Z;
  cd_read : option (Z → Z → Z * list Z);
  cd_write : option (Z → list Z → Z)
}.

Record vnode := Vnode {
  vn_ops : option vops;
  vn_refcount : Z;    (* vn_mmobj.mmo_refcount *)
  vn_nrespages : Z;   (* vn_mmobj.mmo_nrespages *)
  vn_vno : Z;
  vn_mode : Z;
  vn_len : Z;
  vn_i : Z;
  vn_devid : Z;
  vn_cdev : option bytedev;
  vn_busy : bool      (* VN_BUSY & vn_flags *)
}.

Record file := File { f_pos : Z; f_mode : Z; f_refcount : Z; f_vnode : Z }.

(** [rf_mem] is the address of a page, or a device identifier. *)
Record ramfs_inode := Inode {
  rf_size : Z;
  rf_ino : Z;
  rf_mem : Z;
  rf_mode : Z;
  rf_linkcount : Z
}.

Definition RAMFS_TYPE_DATA : Z := 0.
Definition RAMFS_TYPE_DIR : Z := 1.
Definition RAMFS_TYPE_CHR : Z := 2.
Definition RAMFS_TYPE_BLK : Z := 3.
Definition RAMFS_MAX_FILES : Z := 64.

(** A directory entry, free when its name is empty; the name is the string in
    the array [rd_name]. *)
Record ramfs_dirent := Dirent { rd_ino : Z; rd_name : string }.
Definition sizeof_dirent : Z := 32.
Definition RAMFS_MAX_DIRENT : Z := PAGE_SIZE / sizeof_dirent.

(** The page of an inode: the bytes of a file or the entries of a directory. *)
Inductive rpage := PData (bytes : list Z) | PDirents (entries : list ramfs_dirent).

Record vfs (M : Type) := Vfs {
  v_ks : kstate;
  v_mem : M;
  v_vnode_allocator : Z;
  v_file_allocator : Z;
  v_vnodes : gmap Z vnode;
  v_inuse : list Z;                (* vnode_inuse_list *)
  v_files : gmap Z file;
  v_rfs_inodes : list Z;           (* rfs_inodes *)
  v_inodes : gmap Z ramfs_inode;
  v_pages : gmap Z rpage;
  v_bytedevs : list bytedev;
  v_root : Z;                      (* vfs_root_vn, fs_root *)
  v_p_files : list Z;              (* curproc->p_files *)
  v_p_cwd : Z                      (* curproc->p_cwd *)
}.

Arguments Vfs {M}.
Arguments v_ks {M}.
Arguments v_mem {M}.
Arguments v_vnode_allocator {M}.
Arguments v_file_allocator {M}.
Arguments v_vnodes {M}.
Arguments v_inuse {M}.
Arguments v_files {M}.
Arguments v_rfs_inodes {M}.
Arguments v_inodes {M}.
Arguments v_pages {M}.
Arguments v_bytedevs {M}.
Arguments v_root {M}.
Arguments v_p_files {M}.
Arguments v_p_cwd {M}.

(** * State access *)

Section Access.
Context {M : Type}.

Definition with_ks x (s : vfs M) := Vfs x (v_mem s) (v_vnode_allocator s) (v_file_allocator s) (v_vnodes s)
  (v_inuse s) (v_files s) (v_rfs_inodes s) (v_inodes s) (v_pages s) (v_bytedevs s) (v_root s) (v_p_files s) (v_p_cwd s).
Definition with_mem (x : M) (s : vfs M) := Vfs (v_ks s) x (v_vnode_allocator s) (v_file_allocator s) (v_vnodes s)
  (v_inuse s) (v_files s) (v_rfs_inodes s) (v_inodes s) (v_pages s) (v_bytedevs s) (v_root s) (v_p_files s) (v_p_cwd s).
Definition upd_vnodes f (s : vfs M) := Vfs (v_ks s) (v_mem s) (v_vnode_allocator s) (v_file_allocator s) (f (v_vnodes s))
  (v_inuse s) (v_files s) (v_rfs_inodes s) (v_inodes s) (v_pages s) (v_bytedevs s) (v_root s) (v_p_files s) (v_p_cwd s).
Definition upd_inuse f (s : vfs M) := Vfs (v_ks s) (v_mem s) (v_vnode_allocator s) (v_file_allocator s) (v_vnodes s)
  (f (v_inuse s)) (v_files s) (v_rfs_inodes s) (v_inodes s) (v_pages s) (v_bytedevs s) (v_root s) (v_p_files s) (v_p_cwd s).
Definition upd_files f (s : vfs M) := Vfs (v_ks s) (v_mem s) (v_vnode_allocator s) (v_file_allocator s) (v_vnodes s)
  (v_inuse s) (f (v_files s)) (v_rfs_inodes s) (v_inodes s) (v_pages s) (v_bytedevs s) (v_root s) (v_p_files s) (v_p_cwd s).
Definition upd_rfs_inodes f (s : vfs M) := Vfs (v_ks s) (v_mem s) (v_vnode_allocator s) (v_file_allocator s) (v_vnodes s)
  (v_inuse s) (v_files s) (f (v_rfs_inodes s)) (v_inodes s) (v_pages s) (v_bytedevs s) (v_root s) (v_p_files s) (v_p_cwd s).
Definition upd_inodes f (s : vfs M) := Vfs (v_ks s) (v_mem s) (v_vnode_allocator s) (v_file_allocator s) (v_vnodes s)
  (v_inuse s) (v_files s) (v_rfs_inodes s) (f (v_inodes s)) (v_pages s) (v_bytedevs s) (v_root s) (v_p_files s) (v_p_cwd s).
Definition upd_pages f (s : vfs M) := Vfs (v_ks s) (v_mem s) (v_vnode_allocator s) (v_file_allocator s) (v_vnodes s)
  (v_inuse s) (v_files s) (v_rfs_inodes s) (v_inodes s) (f (v_pages s)) (v_bytedevs s) (v_root s) (v_p_files s) (v_p_cwd s).
Definition with_root x (s : vfs M) := Vfs (v_ks s) (v_mem s) (v_vnode_allocator s) (v_file_allocator s) (v_vnodes s)
  (v_inuse s) (v_files s) (v_rfs_inodes s) (v_inodes s) (v_pages s) (v_bytedevs s) x (v_p_files s) (v_p_cwd s).
Definition upd_p_files f (s : vfs M) := Vfs (v_ks s) (v_mem s) (v_vnode_allocator s) (v_file_allocator s) (v_vnodes s)
  (v_inuse s) (v_files s) (v_rfs_inodes s) (v_inodes s) (v_pages s) (v_bytedevs s) (v_root s) (f (v_p_files s)) (v_p_cwd s).
Definition with_p_cwd x (s : vfs M) := Vfs (v_ks s) (v_mem s) (v_vnode_allocator s) (v_file_allocator s) (v_vnodes s)
  (v_inuse s) (v_files s) (v_rfs_inodes s) (v_inodes s) (v_pages s) (v_bytedevs s) (v_root s) (v_p_files s) x.

Abbreviation vM := (kM (vfs M)).

(** Calls of the scheduler and of the allocators. *)
Definition ks_call {A} (c : kM kstate A) : vM A := klabel "scheduler: " (klift v_ks with_ks c).
Definition mem_call {A} (c : kM M A) : vM A := klabel "memory: " (klift v_mem with_mem c).

Definition get_vnode (v : Z) : vM vnode := let* s := kget in kderef (v_vnodes s !! v) "vnode".
Definition put_vnode (v : Z) (x : vnode) : vM unit := kmodify (upd_vnodes <[v := x]>).
Definition get_file (f : Z) : vM file := let* s := kget in kderef (v_files s !! f) "file".
Definition put_file (f : Z) (x : file) : vM unit := kmodify (upd_files <[f := x]>).
Definition get_inode (i : Z) : vM ramfs_inode := let* s := kget in kderef (v_inodes s !! i) "ramfs inode".
Definition put_inode (i : Z) (x : ramfs_inode) : vM unit := kmodify (upd_inodes <[i := x]>).

Definition set_refcount (n : Z) (x : vnode) : vnode :=
  Vnode (vn_ops x) n (vn_nrespages x) (vn_vno x) (vn_mode x) (vn_len x) (vn_i x) (vn_devid x) (vn_cdev x) (vn_busy x).
Definition set_nrespages (n : Z) (x : vnode) : vnode :=
  Vnode (vn_ops x) (vn_refcount x) n (vn_vno x) (vn_mode x) (vn_len x) (vn_i x) (vn_devid x) (vn_cdev x) (vn_busy x).
Definition set_busy (b : bool) (x : vnode) : vnode :=
  Vnode (vn_ops x) (vn_refcount x) (vn_nrespages x) (vn_vno x) (vn_mode x) (vn_len x) (vn_i x) (vn_devid x) (vn_cdev x) b.
Definition set_len (n : Z) (x : vnode) : vnode :=
  Vnode (vn_ops x) (vn_refcount x) (vn_nrespages x) (vn_vno x) (vn_mode x) n (vn_i x) (vn_devid x) (vn_cdev x) (vn_busy x).
Definition upd_vnode (v : Z) (f : vnode → vnode) : vM unit := let* x := get_vnode v in put_vnode v (f x).

Definition set_linkcount (n : Z) (i : ramfs_inode) : ramfs_inode :=
  Inode (rf_size i) (rf_ino i) (rf_mem i) (rf_mode i) n.
Definition set_size (n : Z) (i : ramfs_inode) : ramfs_inode :=
  Inode n (rf_ino i) (rf_mem i) (rf_mode i) (rf_linkcount i).
Definition upd_inode (i : Z) (f : ramfs_inode → ramfs_inode) : vM unit :=
  let* x := get_inode i in put_inode i (f x).

(** [VNODE_TO_RAMFSINODE(vn)] *)
Definition VNODE_TO_RAMFSINODE (v : Z) : vM Z := let* x := get_vnode v in kret (vn_i x).
End Access.

Abbreviation vM M := (kM (vfs M)).

(** * ramfs: what vnode.c calls *)

Section RamfsFsOps.
Context {M : Type} `{KMem M}.

Definition ramfs_read_vnode (v : Z) : vM M unit :=
  let* x := get_vnode v in
  let* s := kget in
  let* i := kderef (if decide (0 ≤ vn_vno x) then v_rfs_inodes s !! Z.to_nat (vn_vno x) else None) "rfs_inodes" in
  KASSERT (negb (i =? NULL)) "inode" ;;;
  let* inode := get_inode i in
  KASSERT (rf_ino inode =? vn_vno x) "inode->rf_ino == vn->vn_vno" ;;;
  put_inode i (set_linkcount (rf_linkcount inode + 1) inode) ;;;
  let fill ops mode devid := put_vnode v (Vnode ops (vn_refcount x) (vn_nrespages x) (vn_vno x) mode
    (rf_size inode) i devid (vn_cdev x) (vn_busy x)) in
  if rf_mode inode =? RAMFS_TYPE_DATA then fill (Some ramfs_file_vops) S_IFREG (vn_devid x)
  else if rf_mode inode =? RAMFS_TYPE_DIR then fill (Some ramfs_dir_vops) S_IFDIR (vn_devid x)
  else if rf_mode inode =? RAMFS_TYPE_CHR then fill None S_IFCHR (rf_mem inode)
  else if rf_mode inode =? RAMFS_TYPE_BLK then fill None S_IFBLK (rf_mem inode)
  else kpanic "inode has unknown/invalid type".

Definition ramfs_delete_vnode (v : Z) : vM M unit :=
  let* x := get_vnode v in
  let i := vn_i x in
  let* inode := get_inode i in
  let inode := set_linkcount (rf_linkcount inode - 1) inode in
  put_inode i inode ;;;
  if rf_linkcount inode =? 0 then
    let* s := kget in
    let* j := kderef (if decide (0 ≤ vn_vno x) then v_rfs_inodes s !! Z.to_nat (vn_vno x) else None) "rfs_inodes" in
    KASSERT (j =? i) "rfs->rfs_inodes[vn->vn_vno] == inode" ;;;
    kmodify (upd_rfs_inodes <[Z.to_nat (vn_vno x) := NULL]>) ;;;
    (if (rf_mode inode =? RAMFS_TYPE_DATA) || (rf_mode inode =? RAMFS_TYPE_DIR) then
       mem_call (km_page_free (rf_mem inode)) ;;; kmodify (upd_pages (delete (rf_mem inode)))
     else kret tt) ;;;
    mem_call (km_kfree i) ;;;
    kmodify (upd_inodes (delete i))
  else kret tt.

Definition ramfs_query_vnode (v : Z) : vM M bool :=
  let* i := VNODE_TO_RAMFSINODE v in
  let* inode := get_inode i in
  kret (1 <? rf_linkcount inode).

(** * vnode.c *)

Definition vn_waitq (v : Z) : qid := WaitQ (Z.to_pos v).

Definition vref (v : Z) : vM M unit :=
  KASSERT (negb (v =? NULL)) "vn" ;;;
  let* x := get_vnode v in
  KASSERT (0 <? vn_refcount x) "0 < vn->vn_refcount" ;;;
  let* n := int_inc (vn_refcount x) in
  put_vnode v (set_refcount n x).

(** bytedev.c *)
Definition NULL_DEVID : Z := 0.

Fixpoint bytedev_lookup (id : Z) (devs : list bytedev) : vM M (option bytedev) :=
  match devs with
  | [] => kret None
  | cd :: devs =>
      KASSERT (negb (NULL_DEVID =? cd_id cd)) "NULL_DEVID != cd->cd_id" ;;;
      if id =? cd_id cd then kret (Some cd) else bytedev_lookup id devs
  end.

Definition init_special_vnode (v : Z) : vM M unit :=
  let* x := get_vnode v in
  let* s := kget in
  if S_ISCHR (vn_mode x) then
    let* cd := bytedev_lookup (vn_devid x) (v_bytedevs s) in
    put_vnode v (Vnode (Some bytedev_spec_vops) (vn_refcount x) (vn_nrespages x) (vn_vno x) (vn_mode x)
      (vn_len x) (vn_i x) (vn_devid x) cd (vn_busy x))
  else
    KASSERT (S_ISBLK (vn_mode x)) "S_ISBLK(vn->vn_mode)" ;;;
    put_vnode v (Vnode (Some blockdev_spec_vops) (vn_refcount x) (vn_nrespages x) (vn_vno x) (vn_mode x)
      (vn_len x) (vn_i x) (vn_devid x) (vn_cdev x) (vn_busy x)).

(** The search of vget in the list of vnodes in use. *)
Fixpoint find_vnode (vno : Z) (l : list Z) : vM M (option Z) :=
  match l with
  | [] => kret None
  | v :: l =>
      let* x := get_vnode v in
      if vn_vno x =? vno then kret (Some v) else find_vnode vno l
  end.

(** A new vnode is brought in. *)
Definition bring_in (v vno : Z) : vM M Z :=
  put_vnode v (Vnode None 0 0 vno 0 0 NULL 0 None false) ;;;
  ks_call (kmutex_init (Z.to_pos v)) ;;;
  ks_call (sched_queue_init (vn_waitq v)) ;;;
  upd_vnode v (set_busy true) ;;;
  kmodify (upd_inuse (cons v)) ;;;
  ramfs_read_vnode v ;;;
  upd_vnode v (set_busy false) ;;;
  let* x := get_vnode v in
  (if S_ISCHR (vn_mode x) || S_ISBLK (vn_mode x) then init_special_vnode v else kret tt) ;;;
  upd_vnode v (set_refcount 1) ;;;
  kret v.

(** [goto find] follows a switch to another thread; [rounds] bounds how often the
    model lets the thread come back. *)
Fixpoint vget_rounds (rounds : nat) (vno : Z) : vM M Z :=
  match rounds with
  | O => λ _, RFuel
  | S rounds =>
      let* s := kget in
      let* found := find_vnode vno (v_inuse s) in
      match found with
      | Some v =>
          let* x := get_vnode v in
          if vn_busy x then ks_call (sched_sleep_on (vn_waitq v)) ;;; vget_rounds rounds vno
          else vref v ;;; kret v
      | None =>
          let* v := mem_call (km_obj_alloc (v_vnode_allocator s)) in
          if v =? NULL then
            ks_call (let* t := get_curthr in sched_make_runnable t ;;; sched_switch) ;;;
            vget_rounds rounds vno
          else bring_in v vno
      end
  end.
Definition vget (vno : Z) : vM M Z := vget_rounds 16 vno.

(** [pframe_free] on every resident page: each takes one page and, through the
    put entry of the object, one reference.  Pages are not busy here. *)
Definition free_respages (v : Z) : vM M unit :=
  upd_vnode v (λ x, set_refcount (vn_refcount x - vn_nrespages x) (set_nrespages 0 x)).

Definition vput (v : Z) : vM M unit :=
  KASSERT (negb (v =? NULL)) "vn" ;;;
  let* x := get_vnode v in
  KASSERT (0 <=? vn_nrespages x) "0 <= vn->vn_nrespages" ;;;
  KASSERT (vn_nrespages x <? vn_refcount x) "vn->vn_nrespages < vn->vn_refcount" ;;;
  KASSERT (negb (vn_busy x)) "!(VN_BUSY & vn->vn_flags)" ;;;
  (if vn_nrespages x =? vn_refcount x - 1 then
     let* linked := ramfs_query_vnode v in
     if (linked : bool) then kret tt
     else
       free_respages v ;;;
       let* x := get_vnode v in
       KASSERT (vn_nrespages x =? 0) "0 == vn->vn_nrespages" ;;;
       KASSERT (vn_refcount x =? 1) "1 == vn->vn_refcount"
   else kret tt) ;;;
  let* x := get_vnode v in
  put_vnode v (set_refcount (vn_refcount x - 1) x) ;;;
  if 0 <? vn_refcount x - 1 then kret tt
  else
    KASSERT (vn_refcount x - 1 =? 0) "0 == vn->vn_refcount" ;;;
    KASSERT (vn_nrespages x =? 0) "0 == vn->vn_nrespages" ;;;
    upd_vnode v (set_busy true) ;;;
    ramfs_delete_vnode v ;;;
    ks_call (let* Q := get_queue (vn_waitq v) in sched_broadcast_on (Z.to_nat (tq_size Q)) (vn_waitq v)) ;;;
    kmodify (upd_inuse (filter (.≠ v))) ;;;
    let* s := kget in
    mem_call (km_obj_free (v_vnode_allocator s) v) ;;;
    kmodify (upd_vnodes (delete v)).

(** The loop of vfs_is_in_use: -EBUSY when a vnode has references besides those
    of its resident pages and, for the root, the one of the file system. *)
Fixpoint is_in_use (ret : Z) (l : list Z) : vM M Z :=
  match l with
  | [] => kret ret
  | v :: l =>
      let* x := get_vnode v in
      let* s := kget in
      KASSERT (vn_nrespages x <=? vn_refcount x) "vn->vn_refcount >= vn->vn_nrespages" ;;;
      KASSERT (0 <=? vn_nrespages x) "vn->vn_nrespages >= 0" ;;;
      let refs := vn_refcount x - vn_nrespages x in
      KASSERT (0 <=? refs) "0 <= refs" ;;;
      KASSERT (((v_root s =? v) && (1 <=? refs)) || (negb (v_root s =? v) && (0 <=? refs))) "refs" ;;;
      is_in_use (if ((v_root s =? v) && (1 <? refs)) || (negb (v_root s =? v) && negb (refs =? 0))
                 then - EBUSY else ret) l
  end.
Definition vfs_is_in_use : vM M Z := let* s := kget in is_in_use 0 (v_inuse s).

Definition vnode_inuse : vM M Z := kgets (λ s, Z.of_nat (length (v_inuse s))).

(** * file.c *)

Definition FMODE_READ : Z := 1.
Definition FMODE_WRITE : Z := 2.
Definition FMODE_APPEND : Z := 4.

Definition set_frefcount (n : Z) (x : file) : file := File (f_pos x) (f_mode x) n (f_vnode x).

Definition fref (f : Z) : vM M unit :=
  let* x := get_file f in
  KASSERT ((0 <=? f_mode x) && (f_mode x <? 8)) "f->f_mode" ;;;
  KASSERT (-1 <=? f_pos x) "f->f_pos >= -1" ;;;
  KASSERT (0 <=? f_refcount x) "f->f_refcount >= 0" ;;;
  KASSERT ((f_refcount x =? 0) || negb (f_vnode x =? NULL)) "f->f_vnode" ;;;
  let* n := int_inc (f_refcount x) in
  put_file f (set_frefcount n x).

Definition fget (fd : Z) : vM M Z :=
  let* s := kget in
  if fd =? -1 then
    let* f := mem_call (km_obj_alloc (v_file_allocator s)) in
    if f =? NULL then kret NULL
    else put_file f (File 0 0 0 NULL) ;;; fref f ;;; kret f
  else if (fd <? 0) || (NFILES <=? fd) then kret NULL
  else
    let* f := kderef (v_p_files s !! Z.to_nat fd) "p_files" in
    if f =? NULL then kret NULL else fref f ;;; kret f.

Definition fput (f : Z) : vM M unit :=
  KASSERT (negb (f =? NULL)) "f" ;;;
  let* x := get_file f in
  KASSERT ((0 <=? f_mode x) && (f_mode x <? 8)) "f->f_mode" ;;;
  KASSERT (-1 <=? f_pos x) "f->f_pos >= -1" ;;;
  KASSERT (0 <? f_refcount x) "f->f_refcount > 0" ;;;
  KASSERT ((f_refcount x =? 1) || negb (f_vnode x =? NULL)) "f->f_vnode" ;;;
  put_file f (set_frefcount (f_refcount x - 1) x) ;;;
  if f_refcount x - 1 =? 0 then
    (if f_vnode x =? NULL then kret tt else vput (f_vnode x)) ;;;
    let* s := kget in
    mem_call (km_obj_free (v_file_allocator s) f) ;;;
    kmodify (upd_files (delete f))
  else kret tt.
End RamfsFsOps.
