(* ===== verification/Ramfs.v ===== *)
(** The in-memory file system: kernel/fs/ramfs/ramfs.c, the operations on special
    files of kernel/fs/vnode.c, and the dispatch through the operation tables.

    A name argument is the rest of a path, not terminated at its length, together
    with that length, as in the source. *)

From stdpp Require Import base numbers list gmap strings.
From S2P Require Import Prelude Sched Mutex PageAlloc Slab KMem Vfs.

Open Scope Z_scope.

Definition strlen (s : string) : Z := Z.of_nat (String.length s).

(** The first [n] characters, or all when there are fewer. *)
Definition prefix_of (name : string) (n : Z) : string := String.substring 0 (Z.to_nat n) name.

(** [name_match] of vfs.h: once the lengths agree strncmp compares all of
    [fname]. *)
Definition name_match (fname name : string) (namelen : Z) : bool :=
  (strlen fname =? namelen) && bool_decide (fname = prefix_of name namelen).

(** [strncpy(rd_name, name, MIN(name_len, NAME_LEN - 1))] and the terminator. *)
Definition copy_name (name : string) (name_len : Z) : string := prefix_of name (Z.min name_len (NAME_LEN - 1)).

Section Ramfs.
Context {M : Type} `{KMem M}.

(** * Pages *)

Definition zero_dirents : list ramfs_dirent := replicate (Z.to_nat RAMFS_MAX_DIRENT) (Dirent 0 EmptyString).
Definition zero_bytes : list Z := replicate (Z.to_nat PAGE_SIZE) 0.

Definition get_dirents (p : Z) : vM M (list ramfs_dirent) :=
  let* s := kget in
  kderef (match v_pages s !! p with Some (PDirents l) => Some l | _ => None end) "directory page".
Definition put_dirents (p : Z) (l : list ramfs_dirent) : vM M unit := kmodify (upd_pages <[p := PDirents l]>).
Definition get_bytes (p : Z) : vM M (list Z) :=
  let* s := kget in
  kderef (match v_pages s !! p with Some (PData l) => Some l | _ => None end) "data page".
Definition put_bytes (p : Z) (l : list Z) : vM M unit := kmodify (upd_pages <[p := PData l]>).

(** [VNODE_TO_DIRENT(vn)]: the page of a directory. *)
Definition VNODE_TO_DIRENT (v : Z) : vM M Z :=
  let* i := VNODE_TO_RAMFSINODE v in let* inode := get_inode i in kret (rf_mem inode).

(** * Inodes *)

Definition ramfs_alloc_inode (type devid : Z) : vM M Z :=
  KASSERT ((RAMFS_TYPE_DATA =? type) || (RAMFS_TYPE_DIR =? type) || (RAMFS_TYPE_CHR =? type)
           || (RAMFS_TYPE_BLK =? type)) "type" ;;;
  let* s := kget in
  match list_find (λ p, p = NULL) (v_rfs_inodes s) with
  | None => kret (- ENOSPC)
  | Some (i, _) =>
      let* inode := mem_call (km_kmalloc 20) in
      if inode =? NULL then kret (- ENOSPC)
      else
        let ino := Z.of_nat i in
        let install mem :=
          put_inode inode (Inode 0 ino mem type 1) ;;;
          kmodify (upd_rfs_inodes <[i := inode]>) ;;;
          kret ino in
        if (RAMFS_TYPE_CHR =? type) || (RAMFS_TYPE_BLK =? type) then install devid
        else
          let* mem := mem_call km_page_alloc in
          if mem =? NULL then mem_call (km_kfree inode) ;;; kret (- ENOSPC)
          else
            kmodify (upd_pages <[mem := if RAMFS_TYPE_DIR =? type then PDirents zero_dirents
                                        else PData zero_bytes]>) ;;;
            install mem
  end.

(** rfs_inodes[ino] *)
Definition get_rfs_inode (ino : Z) : vM M Z :=
  let* s := kget in
  kderef (if decide (0 ≤ ino) then v_rfs_inodes s !! Z.to_nat ino else None) "rfs_inodes".

Definition ramfs_mount : vM M Z :=
  let* rfs := mem_call (km_kmalloc 256) in
  if rfs =? NULL then kret (- ENOMEM)
  else
    kmodify (upd_rfs_inodes (λ _, replicate (Z.to_nat RAMFS_MAX_FILES) NULL)) ;;;
    let* root_ino := ramfs_alloc_inode RAMFS_TYPE_DIR 0 in
    if root_ino <? 0 then kret root_ino
    else
      KASSERT (0 =? root_ino) "0 == root_ino" ;;;
      let* root := get_rfs_inode root_ino in
      let* inode := get_inode root in
      let* l := get_dirents (rf_mem inode) in
      put_dirents (rf_mem inode) (<[1%nat := Dirent 0 ".."]> (<[0%nat := Dirent 0 "."]> l)) ;;;
      put_inode root (set_size (2 * sizeof_dirent) inode) ;;;
      kmodify (upd_rfs_inodes <[0%nat := root]>) ;;;
      let* v := vget 0 in
      kmodify (with_root v) ;;;
      kret 0.

(** * Directories *)

(** The first entry of the name, and the first free entry. *)
Definition find_entry (name : string) (len : Z) (l : list ramfs_dirent) : option (nat * ramfs_dirent) :=
  list_find (λ e, name_match (rd_name e) name len = true) l.
Definition find_space (l : list ramfs_dirent) : option (nat * ramfs_dirent) :=
  list_find (λ e, rd_name e = EmptyString) l.

Definition ramfs_lookup (dir : Z) (name : string) (namelen : Z) : vM M (Z * Z) :=
  let* p := VNODE_TO_DIRENT dir in
  let* l := get_dirents p in
  match find_entry name namelen l with
  | Some (_, e) => let* v := vget (rd_ino e) in kret (0, v)
  | None => kret (- ENOENT, NULL)
  end.

(** [KASSERT(0 != ramfs_lookup(dir, name, name_len, &vn))] *)
Definition assert_absent (dir : Z) (name : string) (len : Z) : vM M unit :=
  let* (ret, _) := ramfs_lookup dir name len in KASSERT (negb (ret =? 0)) "0 != ramfs_lookup".

(** The entry is written and the size of the directory adjusted. *)
Definition set_entry (dir : Z) (i : nat) (e : ramfs_dirent) (dsize : Z) : vM M unit :=
  let* p := VNODE_TO_DIRENT dir in
  let* l := get_dirents p in
  put_dirents p (<[i := e]> l) ;;;
  let* d := VNODE_TO_RAMFSINODE dir in
  upd_inode d (λ x, set_size (rf_size x + dsize) x).

(** [entry->rd_name[0] = '\0'] *)
Definition clear_entry (e : ramfs_dirent) : ramfs_dirent := Dirent (rd_ino e) EmptyString.

Definition ramfs_create (dir : Z) (name : string) (name_len : Z) : vM M (Z * Z) :=
  assert_absent dir name name_len ;;;
  let* p := VNODE_TO_DIRENT dir in
  let* l := get_dirents p in
  match find_space l with
  | None => kret (- ENOSPC, NULL)
  | Some (i, _) =>
      let* ino := ramfs_alloc_inode RAMFS_TYPE_DATA 0 in
      if ino <? 0 then kret (ino, NULL)
      else
        let* v := vget ino in
        let* x := get_vnode v in
        set_entry dir i (Dirent (vn_vno x) (copy_name name name_len)) sizeof_dirent ;;;
        kret (0, v)
  end.

Definition ramfs_mknod (dir : Z) (name : string) (name_len mode devid : Z) : vM M Z :=
  assert_absent dir name name_len ;;;
  let* p := VNODE_TO_DIRENT dir in
  let* l := get_dirents p in
  match find_space l with
  | None => kret (- ENOSPC)
  | Some (i, _) =>
      let* ino := (if S_ISCHR mode then ramfs_alloc_inode RAMFS_TYPE_CHR devid
                   else if S_ISBLK mode then ramfs_alloc_inode RAMFS_TYPE_BLK devid
                   else kpanic "Invalid mode!") in
      if ino <? 0 then kret ino
      else set_entry dir i (Dirent ino (copy_name name name_len)) sizeof_dirent ;;; kret 0
  end.

Definition ramfs_link (oldvnode dir : Z) (name : string) (name_len : Z) : vM M Z :=
  assert_absent dir name name_len ;;;
  let* p := VNODE_TO_DIRENT dir in
  let* l := get_dirents p in
  match find_space l with
  | None => kret (- ENOSPC)
  | Some (i, _) =>
      let* x := get_vnode oldvnode in
      set_entry dir i (Dirent (vn_vno x) (copy_name name name_len)) sizeof_dirent ;;;
      upd_inode (vn_i x) (λ n, set_linkcount (rf_linkcount n + 1) n) ;;;
      kret 0
  end.

(** Taking the entry of a name out of a directory. *)
Definition remove_entry (dir : Z) (name : string) (namelen : Z) : vM M unit :=
  let* p := VNODE_TO_DIRENT dir in
  let* l := get_dirents p in
  let l := match find_entry name namelen l with
           | Some (i, e) => <[i := clear_entry e]> l
           | None => l
           end in
  put_dirents p l ;;;
  let* d := VNODE_TO_RAMFSINODE dir in
  upd_inode d (λ x, set_size (rf_size x - sizeof_dirent) x).

Definition ramfs_unlink (dir : Z) (name : string) (namelen : Z) : vM M Z :=
  let* (ret, v) := ramfs_lookup dir name namelen in
  KASSERT (ret =? 0) "0 == ret" ;;;
  let* x := get_vnode v in
  KASSERT (negb (S_ISDIR (vn_mode x))) "!S_ISDIR(vn->vn_mode)" ;;;
  remove_entry dir name namelen ;;;
  upd_inode (vn_i x) (λ n, set_linkcount (rf_linkcount n - 1) n) ;;;
  vput v ;;;
  kret 0.

Definition ramfs_mkdir (dir : Z) (name : string) (name_len : Z) : vM M Z :=
  assert_absent dir name name_len ;;;
  let* p := VNODE_TO_DIRENT dir in
  let* l := get_dirents p in
  match find_space l with
  | None => kret (- ENOSPC)
  | Some (i, _) =>
      let* ino := ramfs_alloc_inode RAMFS_TYPE_DIR 0 in
      if ino <? 0 then kret ino
      else
        set_entry dir i (Dirent ino (copy_name name name_len)) sizeof_dirent ;;;
        let* q := get_rfs_inode ino in
        let* inode := get_inode q in
        let* x := get_vnode dir in
        let* l := get_dirents (rf_mem inode) in
        put_dirents (rf_mem inode) (<[1%nat := Dirent (vn_vno x) ".."]> (<[0%nat := Dirent ino "."]> l)) ;;;
        put_inode q (set_size (2 * sizeof_dirent) inode) ;;;
        kret 0
  end.

(** No entry but "." and "..". *)
Definition dir_empty (l : list ramfs_dirent) : bool :=
  forallb (λ e, bool_decide (rd_name e = "."%string ∨ rd_name e = ".."%string ∨ rd_name e = EmptyString)) l.

Definition ramfs_rmdir (dir : Z) (name : string) (name_len : Z) : vM M Z :=
  KASSERT (negb (name_match "." name name_len) && negb (name_match ".." name name_len)) "name_match" ;;;
  let* (ret, v) := ramfs_lookup dir name name_len in
  if negb (ret =? 0) then kret ret
  else
    let* x := get_vnode v in
    if negb (S_ISDIR (vn_mode x)) then vput v ;;; kret (- ENOTDIR)
    else
      let* q := VNODE_TO_DIRENT v in
      let* l := get_dirents q in
      if negb (dir_empty l) then vput v ;;; kret (- ENOTEMPTY)
      else
        remove_entry dir name name_len ;;;
        upd_inode (vn_i x) (λ n, set_linkcount (rf_linkcount n - 1) n) ;;;
        vput v ;;;
        kret 0.

(** * Files *)

(** A transfer of [n] bytes at [offset] of a page; a negative [n] is a size of
    nearly the whole address space. *)
Definition in_page (offset n : Z) : bool :=
  (n =? 0) || ((0 <=? offset) && (0 <? n) && (offset + n <=? PAGE_SIZE)).

Definition ramfs_read (file offset count : Z) : vM M (Z * list Z) :=
  let* x := get_vnode file in
  let* inode := get_inode (vn_i x) in
  KASSERT (negb (S_ISDIR (vn_mode x))) "!S_ISDIR(file->vn_mode)" ;;;
  let ret := Z.max 0 (Z.min (i32 count) (i32 (rf_size inode - offset))) in
  let* l := get_bytes (rf_mem inode) in
  if in_page offset ret then kret (ret, take (Z.to_nat ret) (drop (Z.to_nat offset) l))
  else kfault "memcpy outside the page".

Definition ramfs_write (file offset : Z) (data : list Z) : vM M Z :=
  let* x := get_vnode file in
  let* inode := get_inode (vn_i x) in
  KASSERT (negb (S_ISDIR (vn_mode x))) "!S_ISDIR(file->vn_mode)" ;;;
  let ret := Z.min (i32 (Z.of_nat (length data))) (i32 (PAGE_SIZE - offset)) in
  let* l := get_bytes (rf_mem inode) in
  if in_page offset ret then
    put_bytes (rf_mem inode) (take (Z.to_nat offset) l ++ take (Z.to_nat ret) data ++
                              drop (Z.to_nat (offset + ret)) l) ;;;
    KASSERT (vn_len x =? rf_size inode) "file->vn_len == inode->rf_size" ;;;
    let len := Z.max (vn_len x) (i32 (offset + ret)) in
    put_vnode file (set_len len x) ;;;
    put_inode (vn_i x) (set_size len inode) ;;;
    kret ret
  else kfault "memcpy outside the page".

(** struct dirent and struct stat, the fields that are set. *)
Record dirent := mkdirent { d_ino : Z; d_off : Z; d_name : string }.
Record stat := Stat {
  st_mode : Z; st_ino : Z; st_rdev : Z; st_nlink : Z; st_size : Z; st_blksize : Z; st_blocks : Z }.

(** The while loop over the entries from [offset] on. *)
Definition ramfs_readdir (dir offset : Z) : vM M (Z * option dirent) :=
  let* x := get_vnode dir in
  KASSERT (S_ISDIR (vn_mode x)) "S_ISDIR(dir->vn_mode)" ;;;
  KASSERT (offset mod sizeof_dirent =? 0) "0 == offset % sizeof(ramfs_dirent_t)" ;;;
  let* p := VNODE_TO_DIRENT dir in
  let* l := get_dirents p in
  if offset <? 0 then kfault "entry in front of the page" else
  match list_find (λ e, rd_name e ≠ EmptyString) (drop (Z.to_nat (offset / sizeof_dirent)) l) with
  | None => kret (0, None)
  | Some (k, e) =>
      kret (sizeof_dirent + Z.of_nat k * sizeof_dirent,
            Some (mkdirent (rd_ino e) 0 (prefix_of (rd_name e) (NAME_LEN - 1))))
  end.

Definition ramfs_stat (file : Z) : vM M (Z * stat) :=
  let* x := get_vnode file in
  let* i := get_inode (vn_i x) in
  kret (0, Stat (vn_mode x) (vn_vno x)
    (if (vn_mode x =? S_IFCHR) || (vn_mode x =? S_IFBLK) then rf_mem i else 0)
    (rf_linkcount i - 1) (rf_size i) PAGE_SIZE 1).

(** Freeing the inodes that are left. *)
Fixpoint free_inodes (l : list Z) : vM M unit :=
  match l with
  | [] => kret tt
  | i :: l =>
      (if i =? NULL then kret tt
       else
         let* inode := get_inode i in
         (if negb (rf_mem inode =? NULL) && ((rf_mode inode =? RAMFS_TYPE_DATA) || (rf_mode inode =? RAMFS_TYPE_DIR))
          then mem_call (km_page_free (rf_mem inode)) ;;; kmodify (upd_pages (delete (rf_mem inode)))
          else kret tt) ;;;
         mem_call (km_kfree i) ;;;
         kmodify (upd_inodes (delete i))) ;;;
      free_inodes l
  end.

Definition ramfs_umount : vM M Z :=
  let* s := kget in
  vput (v_root s) ;;;
  let* s := kget in
  free_inodes (v_rfs_inodes s) ;;;
  kret 0.

(** * Special files (vnode.c) *)

Definition special_file_read (file offset count : Z) : vM M (Z * list Z) :=
  let* x := get_vnode file in
  KASSERT (S_ISCHR (vn_mode x) || S_ISBLK (vn_mode x)) "special file" ;;;
  let* r := (if S_ISCHR (vn_mode x) then
               match vn_cdev x with
               | Some (Bytedev _ (Some read) _) => kret (read offset count)
               | _ => kpanic "file->vn_cdev->cd_ops->read"
               end
             else kret (0, [])) in
  if S_ISBLK (vn_mode x) then kret (- ENOTSUP, []) else kret r.

Definition special_file_write (file offset : Z) (data : list Z) : vM M Z :=
  let* x := get_vnode file in
  KASSERT (S_ISCHR (vn_mode x) || S_ISBLK (vn_mode x)) "special file" ;;;
  let* r := (if S_ISCHR (vn_mode x) then
               match vn_cdev x with
               | Some (Bytedev _ _ (Some write)) => kret (write offset data)
               | _ => kpanic "file->vn_cdev->cd_ops->write"
               end
             else kret 0) in
  if S_ISBLK (vn_mode x) then kret (- ENOTSUP) else kret r.

(** * Calls through the operation tables *)

Definition get_ops (v : Z) : vM M vops :=
  let* x := get_vnode v in kderef (vn_ops x) "vn_ops".

Definition vop_read (v offset count : Z) : vM M (Z * list Z) :=
  let* o := get_ops v in
  match o with
  | ramfs_file_vops => ramfs_read v offset count
  | bytedev_spec_vops => special_file_read v offset count
  | _ => kfault "vn_ops->read is NULL"
  end.
Definition vop_write (v offset : Z) (data : list Z) : vM M Z :=
  let* o := get_ops v in
  match o with
  | ramfs_file_vops => ramfs_write v offset data
  | bytedev_spec_vops => special_file_write v offset data
  | _ => kfault "vn_ops->write is NULL"
  end.

(** Whether the entry for directories is there; then it is the one of ramfs. *)
Definition is_dir_vops (o : vops) : bool := if o is ramfs_dir_vops then true else false.

Definition special_file_stat (v : Z) : vM M (Z * stat) :=
  let* s := kget in
  let* o := get_ops (v_root s) in
  match o with
  | ramfs_dir_vops | ramfs_file_vops => ramfs_stat v
  | _ => kpanic "vnode->vn_fs->fs_root->vn_ops->stat"
  end.
Definition vop_stat (v : Z) : vM M (Z * stat) :=
  let* o := get_ops v in
  match o with
  | ramfs_dir_vops | ramfs_file_vops => ramfs_stat v
  | bytedev_spec_vops | blockdev_spec_vops => special_file_stat v
  end.
End Ramfs.
