(* ===== verification/Namev.v ===== *)
(** Path names: kernel/fs/namev.c.

    A pointer into a path is the rest of the path from it on: endPtr is the empty
    rest, and the difference of two pointers is the difference of the lengths. *)

From Stdlib Require Import Ascii.
From stdpp Require Import base numbers list gmap strings.
From S2P Require Import Prelude Sched Mutex PageAlloc Slab KMem Vfs Ramfs.

Open Scope Z_scope.

Definition O_RDONLY : Z := 0.
Definition O_WRONLY : Z := 1.
Definition O_RDWR : Z := 2.
Definition O_CREAT : Z := 0x100.
Definition O_TRUNC : Z := 0x200.
Definition O_APPEND : Z := 0x400.

Definition slash : Ascii.ascii := "/"%char.

(** [strchr(s, '/')], and the while loop that moves extraPtr over slashes. *)
Fixpoint seek_slash (s : string) : option string :=
  match s with
  | EmptyString => None
  | String c s' => if bool_decide (c = slash) then Some s else seek_slash s'
  end.
Fixpoint skip_slashes (s : string) : string :=
  match s with
  | String c s' => if bool_decide (c = slash) then skip_slashes s' else s
  | EmptyString => s
  end.

(** What dir_namev returns, with its out-arguments. *)
Record dir_result := DirResult { dn_ret : Z; dn_vnode : Z; dn_name : string; dn_namelen : Z }.
Definition dn_error (ret : Z) : dir_result := DirResult ret NULL EmptyString 0.

Section Namev.
Context {M : Type} `{KMem M}.

Definition lookup (dir : Z) (name : string) (len : Z) : vM M (Z * Z) :=
  KASSERT (negb (dir =? NULL)) "NULL != dir" ;;;
  let* x := get_vnode dir in
  if negb (S_ISDIR (vn_mode x)) then kret (- ENOTDIR, NULL)
  else if strlen name =? 0 then vref dir ;;; kret (0, dir)
  else
    let* o := get_ops dir in
    if negb (is_dir_vops o) then kret (- ENOTDIR, NULL)
    else ramfs_lookup dir name len.

(** The while loop; it is entered at most once for every character. *)
Fixpoint walk (fuel : nat) (dir : Z) (startPtr breakPtr : string) : vM M dir_result :=
  if bool_decide (breakPtr = EmptyString) then kret (DirResult 0 dir startPtr (strlen startPtr))
  else
    match fuel with
    | O => λ _, RFuel
    | S fuel =>
        match seek_slash startPtr with
        | None => kret (DirResult 0 dir startPtr (strlen startPtr))
        | Some breakPtr =>
            let extraPtr := skip_slashes breakPtr in
            if negb (strlen breakPtr =? 1) && negb (bool_decide (extraPtr = EmptyString)) then
              if dir =? NULL then vput dir ;;; kret (dn_error (- ENOENT))
              else
                let* x := get_vnode dir in
                if negb (S_ISDIR (vn_mode x)) then vput dir ;;; kret (dn_error (- ENOTDIR))
                else
                  let* (ret, result) := lookup dir startPtr (strlen startPtr - strlen breakPtr) in
                  vput dir ;;;
                  if ret <? 0 then kret (dn_error ret)
                  else
                    let* y := get_vnode result in
                    if negb (S_ISDIR (vn_mode y)) then kret (dn_error (- ENOTDIR))
                    else walk fuel result extraPtr extraPtr
            else kret (DirResult 0 dir startPtr (strlen startPtr - strlen breakPtr))
        end
    end.

Definition dir_namev (pathname : string) (base : Z) : vM M dir_result :=
  let* s := kget in
  let '(dir, startPtr) :=
    match pathname with
    | String c rest => if bool_decide (c = slash) then (v_root s, rest)
                       else (if base =? NULL then v_p_cwd s else base, pathname)
    | EmptyString => (if base =? NULL then v_p_cwd s else base, pathname)
    end in
  (if dir =? NULL then kret tt else let* x := get_vnode dir in vget (vn_vno x) ;;; kret tt) ;;;
  walk (String.length pathname) dir startPtr pathname.

Definition open_namev (pathname : string) (flag base : Z) : vM M (Z * Z) :=
  let* r := dir_namev pathname base in
  if dn_ret r <? 0 then kret (dn_ret r, NULL)
  else
    let res_vnode1 := dn_vnode r in
    let* x := get_vnode res_vnode1 in
    if negb (S_ISDIR (vn_mode x)) then vput res_vnode1 ;;; kret (- ENOTDIR, NULL)
    else
      let* (ret, res_vnode) := lookup res_vnode1 (dn_name r) (dn_namelen r) in
      if ret <? 0 then
        if negb (Z.land flag O_CREAT =? 0) then
          let* o := get_ops res_vnode1 in
          KASSERT (is_dir_vops o) "res_vnode1->vn_ops->create!=NULL" ;;;
          let* (ret, res_vnode) := ramfs_create res_vnode1 (dn_name r) (dn_namelen r) in
          if ret <? 0 then vput res_vnode1 ;;; kret (ret, NULL)
          else vput res_vnode1 ;;; kret (0, res_vnode)
        else vput res_vnode1 ;;; kret (ret, NULL)
      else vput res_vnode1 ;;; kret (0, res_vnode).
End Namev.
