(* ===== verification/VfsSyscall.v ===== *)
(** The file system calls: kernel/fs/vfs_syscall.c and kernel/fs/open.c. *)

From stdpp Require Import base numbers list gmap strings.
From S2P Require Import Prelude Sched Mutex PageAlloc Slab KMem Vfs Ramfs Namev.

Open Scope Z_scope.

Definition SEEK_SET : Z := 0.
Definition SEEK_CUR : Z := 1.
Definition SEEK_END : Z := 2.

Section Syscalls.
Context {M : Type} `{KMem M}.

Definition set_pos (n : Z) (x : file) : file := File n (f_mode x) (f_refcount x) (f_vnode x).
Definition set_fmode (n : Z) (x : file) : file := File (f_pos x) n (f_refcount x) (f_vnode x).
Definition set_fvnode (n : Z) (x : file) : file := File (f_pos x) (f_mode x) (f_refcount x) n.
Definition upd_file (f : Z) (g : file → file) : vM M unit := let* x := get_file f in put_file f (g x).

(** [S_ISDIR(v->vn_mode)] *)
Definition isdir (v : Z) : vM M bool := let* x := get_vnode v in kret (S_ISDIR (vn_mode x)).
(** [fp->f_vnode && S_ISDIR(fp->f_vnode->vn_mode)] *)
Definition fisdir (f : Z) : vM M bool :=
  let* x := get_file f in if f_vnode x =? NULL then kret false else isdir (f_vnode x).

Definition do_read (fd nbytes : Z) : vM M (Z * list Z) :=
  let* fp := fget fd in
  if fp =? NULL then kret (- EBADF, [])
  else
    let* x := get_file fp in
    if negb (Z.land (f_mode x) 1 =? FMODE_READ) then fput fp ;;; kret (- EBADF, [])
    else
      let* dir := fisdir fp in
      if (dir : bool) then fput fp ;;; kret (- EISDIR, [])
      else
        let* (bytes_read, data) := vop_read (f_vnode x) (f_pos x) nbytes in
        if bytes_read =? 0 then kret (bytes_read, data)
        else
          upd_file fp (λ x, set_pos (i32 (f_pos x + bytes_read)) x) ;;;
          fput fp ;;;
          kret (bytes_read, data).

Definition do_lseek (fd offset whence : Z) : vM M Z :=
  if fd <? 0 then kret (- EBADF)
  else
    let* fp := fget fd in
    if fp =? NULL then kret (- EBADF)
    else if negb (whence =? SEEK_SET) && negb (whence =? SEEK_CUR) && negb (whence =? SEEK_END) then kret (- EINVAL)
    else
      let* x := get_file fp in
      (if whence =? SEEK_SET then put_file fp (set_pos offset x)
       else if whence =? SEEK_END then
         let* v := get_vnode (f_vnode x) in put_file fp (set_pos (i32 (vn_len v + offset)) x)
       else put_file fp (set_pos (i32 (f_pos x + offset)) x)) ;;;
      let* x := get_file fp in
      if f_pos x <? 0 then put_file fp (set_pos 0 x) ;;; fput fp ;;; kret (- EINVAL)
      else
        fput fp ;;;
        let* x := get_file fp in
        kret (f_pos x).

Definition do_write (fd : Z) (buf : list Z) : vM M Z :=
  let* fp := fget fd in
  if fp =? NULL then kret (- EBADF)
  else
    let* x := get_file fp in
    if negb (Z.land (f_mode x) 2 =? FMODE_WRITE) then fput fp ;;; kret (- EBADF)
    else
      let* dir := fisdir fp in
      if (dir : bool) then kret (- EISDIR)
      else
        (if Z.land (f_mode x) FMODE_APPEND =? FMODE_APPEND then
           let* pos := do_lseek fd 0 SEEK_END in upd_file fp (set_pos pos)
         else kret tt) ;;;
        let* x := get_file fp in
        if Z.land (f_mode x) FMODE_WRITE =? FMODE_WRITE then
          let* bytes_wrote := vop_write (f_vnode x) (f_pos x) buf in
          (if 0 <? bytes_wrote then upd_file fp (λ x, set_pos (i32 (f_pos x + bytes_wrote)) x) else kret tt) ;;;
          let* x := get_file fp in
          let* v := get_vnode (f_vnode x) in
          KASSERT (S_ISCHR (vn_mode v) || S_ISBLK (vn_mode v) ||
                   (S_ISREG (vn_mode v) && (f_pos x <=? vn_len v))) "position is inside the file" ;;;
          fput fp ;;;
          kret bytes_wrote
        else fput fp ;;; kret (- EBADF).

(** curproc->p_files[fd] *)
Definition get_fd (fd : Z) : vM M Z :=
  let* s := kget in kderef (if decide (0 ≤ fd) then v_p_files s !! Z.to_nat fd else None) "p_files".
Definition put_fd (fd f : Z) : vM M unit := kmodify (upd_p_files <[Z.to_nat fd := f]>).

Definition do_close (fd : Z) : vM M Z :=
  if fd <? 0 then kret (- EBADF)
  else
    let* fp := fget fd in
    if fp =? NULL then kret (- EBADF)
    else
      let* f := get_fd fd in
      if f =? NULL then kret (- EBADF)
      else
        put_fd fd NULL ;;;
        fput fp ;;;
        fput fp ;;;
        kret 0.

(** open.c *)
Definition get_empty_fd : vM M Z :=
  let* s := kget in
  match list_find (λ f, f = NULL) (v_p_files s) with
  | Some (fd, _) => kret (Z.of_nat fd)
  | None => kret (- EMFILE)
  end.

Definition do_dup (fd : Z) : vM M Z :=
  if fd <? 0 then kret (- EBADF)
  else
    let* fp := fget fd in
    if fp =? NULL then kret (- EBADF)
    else
      let* dir := fisdir fp in
      if (dir : bool) then kret (- EISDIR)
      else
        let* new_fd := get_empty_fd in
        if - EMFILE =? new_fd then kret (- EMFILE)
        else
          let* f := get_fd fd in
          put_fd new_fd f ;;;
          kret new_fd.

Definition do_dup2 (ofd nfd : Z) : vM M Z :=
  if (ofd <? 0) || (nfd <? 0) || (NFILES <=? ofd) || (NFILES <=? nfd) then kret (- EBADF)
  else
    let* fp := fget ofd in
    if fp =? NULL then kret (- EBADF)
    else if nfd =? ofd then fput fp ;;; kret nfd
    else
      let* dir := fisdir fp in
      if (dir : bool) then kret (- EISDIR)
      else
        let* f := get_fd nfd in
        let* err := (if f =? NULL then kret 0 else do_close nfd) in
        if err <? 0 then fput fp ;;; kret err
        else if - EMFILE =? nfd then kret EMFILE
        else
          let* f := get_fd ofd in
          put_fd nfd f ;;;
          kret nfd.

(** The vnode an out-argument of lookup holds afterwards. *)
Definition out (ret v old : Z) : Z := if ret =? 0 then v else old.

Definition do_mknod (path : string) (mode devid : Z) : vM M Z :=
  if negb (mode =? S_IFCHR) || (strlen path <? 1) then kret (- EINVAL)
  else if MAXPATHLEN <? strlen path then kret (- ENAMETOOLONG)
  else
    let* r := dir_namev path NULL in
    if dn_ret r <? 0 then kret (dn_ret r)
    else
      let* (err, v) := lookup (dn_vnode r) (dn_name r) (dn_namelen r) in
      let res_vnode := out err v (dn_vnode r) in
      if err =? 0 then vput res_vnode ;;; kret (- EEXIST)
      else if err =? - ENOENT then
        let* o := get_ops res_vnode in
        KASSERT (is_dir_vops o) "NULL != res_vnode->vn_ops->mknod" ;;;
        let* err := ramfs_mknod res_vnode (dn_name r) (dn_namelen r) mode devid in
        vput res_vnode ;;;
        kret err
      else kret err.

Definition do_mkdir (path : string) : vM M Z :=
  if MAXPATHLEN <? strlen path then kret (- ENAMETOOLONG)
  else
    let* r := dir_namev path NULL in
    let res_vnode := dn_vnode r in
    if dn_ret r <? 0 then kret (dn_ret r)
    else if NAME_LEN <? dn_namelen r then vput res_vnode ;;; kret (- ENAMETOOLONG)
    else if res_vnode =? NULL then kret (- ENOTDIR)
    else
      let* (ret, result) := lookup res_vnode (dn_name r) (dn_namelen r) in
      if ret =? 0 then vput res_vnode ;;; vput result ;;; kret (- EEXIST)
      else if - ENOENT =? ret then
        let* o := get_ops res_vnode in
        KASSERT (is_dir_vops o) "NULL != res_vnode->vn_ops->mkdir" ;;;
        let* ret := ramfs_mkdir res_vnode (dn_name r) (dn_namelen r) in
        vput res_vnode ;;;
        kret ret
      else kret ret.

Definition do_rmdir (path : string) : vM M Z :=
  let* r := dir_namev path NULL in
  let res_vnode := dn_vnode r in
  if dn_ret r <? 0 then kret (dn_ret r)
  else if bool_decide (dn_name r = "."%string) then vput res_vnode ;;; kret (- EINVAL)
  else if bool_decide (dn_name r = ".."%string) then vput res_vnode ;;; kret (- ENOTEMPTY)
  else if res_vnode =? NULL then kret (- ENOTDIR)
  else if NAME_LEN <? dn_namelen r then vput res_vnode ;;; kret (- ENAMETOOLONG)
  else
    let* (ret, result) := lookup res_vnode (dn_name r) (dn_namelen r) in
    if negb (ret =? 0) then vput res_vnode ;;; kret ret
    else
      let* o := get_ops res_vnode in
      KASSERT (is_dir_vops o) "NULL != res_vnode->vn_ops->rmdir" ;;;
      let* ret := ramfs_rmdir res_vnode (dn_name r) (dn_namelen r) in
      vput res_vnode ;;;
      kret ret.

Definition do_unlink (path : string) : vM M Z :=
  if MAXPATHLEN <? strlen path then kret (- ENAMETOOLONG)
  else
    let* r := dir_namev path NULL in
    let res_parentvnode := dn_vnode r in
    if dn_ret r <? 0 then vput res_parentvnode ;;; kret (dn_ret r)
    else
      let* (returnval, res_childvnode) := lookup res_parentvnode (dn_name r) (dn_namelen r) in
      if returnval <? 0 then vput res_parentvnode ;;; kret returnval
      else
        let* dir := isdir res_childvnode in
        if (dir : bool) then vput res_parentvnode ;;; vput res_childvnode ;;; kret (- EISDIR)
        else
          let* o := get_ops res_parentvnode in
          KASSERT (is_dir_vops o) "NULL != res_parentvnode->vn_ops->unlink" ;;;
          let* returnval := ramfs_unlink res_parentvnode (dn_name r) (dn_namelen r) in
          vput res_childvnode ;;;
          vput res_parentvnode ;;;
          kret returnval.

Definition do_link (from to : string) : vM M Z :=
  if MAXPATHLEN <? strlen from then kret (- ENAMETOOLONG)
  else if MAXPATHLEN <? strlen to then kret (- ENAMETOOLONG)
  else
    let* (returnval, res_parentvnode) := open_namev from 0 NULL in
    if returnval <? 0 then kret returnval
    else
      let* r := dir_namev to NULL in
      if dn_ret r <? 0 then vput res_parentvnode ;;; kret (dn_ret r)
      else
        vput (dn_vnode r) ;;;
        let* (returnval, v) := lookup (dn_vnode r) (dn_name r) (dn_namelen r) in
        let res_childvnode := out returnval v (dn_vnode r) in
        let* dir := isdir res_childvnode in
        if negb dir then vput res_childvnode ;;; kret (- EISDIR)
        else if returnval =? 0 then vput res_childvnode ;;; vput res_parentvnode ;;; kret (- EEXIST)
        else if - ENOENT =? returnval then
          let* o := get_ops res_childvnode in
          if negb (is_dir_vops o) then kfault "vn_ops->link is NULL" else
          let* returnval := ramfs_link res_parentvnode res_childvnode (dn_name r) (dn_namelen r) in
          vput res_parentvnode ;;;
          kret returnval
        else vput res_parentvnode ;;; kret returnval.

Definition do_rename (oldname newname : string) : vM M Z :=
  if (1 <? strlen oldname) || (1 <? strlen newname) then do_link oldname newname ;;; do_unlink oldname
  else kret (- EINVAL).

Definition do_chdir (path : string) : vM M Z :=
  if strlen path <? 1 then kret (- EINVAL)
  else
    let* (err, res_vnode) := open_namev path 0 NULL in
    if err <? 0 then kret err
    else
      let* dir := isdir res_vnode in
      if negb dir then vput res_vnode ;;; kret (- ENOTDIR)
      else
        let* s := kget in
        vput (v_p_cwd s) ;;;
        kmodify (with_p_cwd res_vnode) ;;;
        kret 0.

Definition sizeof_struct_dirent : Z := 40.

Definition do_getdent (fd : Z) : vM M (Z * option dirent) :=
  if (fd <? 0) || (NFILES <? fd) then kret (- EBADF, None)
  else
    let* fp := fget fd in
    if fp =? NULL then kret (- EBADF, None)
    else
      let* x := get_file fp in
      let* dir := isdir (f_vnode x) in
      if negb dir then fput fp ;;; kret (- ENOTDIR, None)
      else
        let* o := get_ops (f_vnode x) in
        if negb (is_dir_vops o) then kfault "vn_ops->readdir is NULL" else
        let* (num_bytes, d) := ramfs_readdir (f_vnode x) (f_pos x) in
        if num_bytes =? 0 then kret (0, d)
        else
          upd_file fp (λ x, set_pos (i32 (f_pos x + num_bytes)) x) ;;;
          fput fp ;;;
          kret (sizeof_struct_dirent, d).

Definition do_stat (path : string) : vM M (Z * option stat) :=
  if MAXPATHLEN <? strlen path then kret (- ENAMETOOLONG, None)
  else if strlen path =? 0 then kret (- EINVAL, None)
  else
    let* r := dir_namev path NULL in
    if dn_ret r <? 0 then kret (dn_ret r, None)
    else
      vput (dn_vnode r) ;;;
      let* (returnval, v) := lookup (dn_vnode r) (dn_name r) (dn_namelen r) in
      if returnval =? - ENOENT then kret (returnval, None)
      else if returnval =? 0 then
        let* (ret, st) := vop_stat v in
        vput v ;;;
        kret (ret, Some st)
      else kret (returnval, None).

(** open.c *)
Definition do_open (filename : string) (oflags : Z) : vM M Z :=
  let acc := Z.land oflags 3 in
  let status := Z.land oflags 0x700 in
  if negb ((acc =? O_RDONLY) || (acc =? O_WRONLY) || (acc =? O_RDWR)) then kret (- EINVAL)
  else
    let flag := if (status =? O_CREAT) || (status =? O_TRUNC) || (status =? O_APPEND) then status else 0 in
    if MAXPATHLEN <? strlen filename then kret (- ENAMETOOLONG)
    else
      let* next_avail_fd := get_empty_fd in
      if - EMFILE =? next_avail_fd then kret (- EMFILE)
      else
        let* fp := fget (-1) in
        if fp =? NULL then kret (- EBADF)
        else
          let* (returnerr, v) := open_namev filename flag NULL in
          if returnerr <? 0 then kret returnerr
          else
            upd_file fp (set_fvnode v) ;;;
            let* dir := isdir v in
            if dir && ((acc =? O_WRONLY) || (acc =? O_RDWR)) then vput v ;;; kret (- EISDIR)
            else
              let* err :=
                (if (returnerr =? 0) && negb (Z.land flag O_APPEND =? O_APPEND) && (acc =? O_WRONLY) then
                   vput v ;;;
                   let* returnerr := do_unlink filename in
                   if returnerr <? 0 then let* f := get_fd next_avail_fd in fput f ;;; kret returnerr
                   else
                     let* (returnerr, res_vnode) := open_namev filename O_CREAT NULL in
                     if returnerr <? 0 then let* f := get_fd next_avail_fd in fput f ;;; kret returnerr
                     else kret 0
                 else kret 0) in
              if err <? 0 then kret err
              else
                put_fd next_avail_fd fp ;;;
                (if status =? O_APPEND then upd_file fp (set_fmode FMODE_APPEND)
                 else upd_file fp (λ x, set_pos 0 (set_fmode 0 x))) ;;;
                (if acc =? O_RDONLY then upd_file fp (λ x, set_fmode (Z.lor (f_mode x) FMODE_READ) x)
                 else if acc =? O_WRONLY then upd_file fp (λ x, set_fmode (Z.lor (f_mode x) FMODE_WRITE) x)
                 else upd_file fp (λ x, set_fmode (Z.lor (Z.lor (f_mode x) FMODE_WRITE) FMODE_READ) x)) ;;;
                kret next_avail_fd.
End Syscalls.
