(* ===== verification/VfsBoot.v ===== *)
(** The file system is brought up and down: kernel/fs/vfs.c, and what
    idleproc_run of kernel/main/kmain.c does with it at boot. *)

From stdpp Require Import base numbers list gmap strings.
From S2P Require Import Prelude Sched Mutex PageAlloc Slab KMem Vfs Ramfs Namev VfsSyscall.

Open Scope Z_scope.

(** The sizes of the structures on a 32-bit machine. *)
Definition sizeof_vnode : Z := 104.
Definition sizeof_file : Z := 16.
Definition sizeof_fs : Z := 76.

(** [vnode_init] and [file_init]: the two allocators, which come from the slab
    allocator that is in [saa]. *)
Definition with_allocators {M} (va fa : Z) (s : vfs M) : vfs M := Vfs (v_ks s) (v_mem s) va fa (v_vnodes s)
  (v_inuse s) (v_files s) (v_rfs_inodes s) (v_inodes s) (v_pages s) (v_bytedevs s) (v_root s) (v_p_files s) (v_p_cwd s).

Definition vnode_init (saa : Z) : vM (pstate * sstate) unit :=
  kmodify (upd_inuse (λ _, [])) ;;;
  let* a := mem_call (slab_allocator_create (Some "vnode"%string) sizeof_vnode saa) in
  kmodify (λ s, with_allocators a (v_file_allocator s) s).
Definition file_init (saa : Z) : vM (pstate * sstate) unit :=
  let* a := mem_call (slab_allocator_create (Some "file"%string) sizeof_file saa) in
  kmodify (λ s, with_allocators (v_vnode_allocator s) a s).

(** config.h, without __S5FS__ *)
Definition VFS_ROOTFS_TYPE : string := "ramfs".

Definition MINOR_BITS : Z := 8.
Definition MKDEVID (major minor : Z) : Z := Z.lor (Z.shiftl major MINOR_BITS) minor.

Section Boot.
Context {M : Type} `{KMem M}.

(** The table of file systems has the one entry. *)
Definition mountfunc (fs_type : string) : vM M Z :=
  if bool_decide (fs_type = "ramfs"%string) then ramfs_mount else kret (- EINVAL).

(** Returns the structure of the file system. *)
Definition vfs_init : vM M Z :=
  let* fs := mem_call (km_kmalloc sizeof_fs) in
  KASSERT (negb (fs =? NULL)) "fs" ;;;
  let* err := mountfunc VFS_ROOTFS_TYPE in
  if err <? 0 then kpanic "Failed to mount root fs" else kret fs.

Definition vfs_shutdown (fs : Z) : vM M Z :=
  let* s := kget in
  KASSERT (negb (v_root s =? NULL)) "vfs_root_vn" ;;;
  let* r := vfs_is_in_use in
  if r <? 0 then kpanic "vfs_shutdown: found active vnodes in root filesystem"
  else
    let* ret := ramfs_umount in
    let* n := vnode_inuse in
    KASSERT (n =? 0) "!vnode_inuse(fs)" ;;;
    kmodify (with_root NULL) ;;;
    mem_call (km_kfree fs) ;;;
    kret ret.

(** What the idle process does at the end: its working directory is put and the
    file system shut down. *)
Definition idle_shutdown (fs : Z) : vM M unit :=
  let* s := kget in
  vput (v_p_cwd s) ;;;
  let* ret := vfs_shutdown fs in
  if negb (ret =? 0) then kpanic "vfs shutdown FAILED!!" else kret tt.

(** The working directory of the idle process, and the device files.  The init
    process gets the same vnode for the one reference. *)
Definition boot_cwd : vM M unit :=
  let* s := kget in
  kmodify (with_p_cwd (v_root s)) ;;;
  vref (v_root s).

Definition must (c : vM M Z) (why : string) (k : vM M unit) : vM M unit :=
  let* ret := c in if negb (ret =? 0) then kpanic why else k.

Definition boot_devices : vM M unit :=
  must (do_mkdir "/dev") "MKDIR failed" (
  must (do_mknod "/dev/null" S_IFCHR (MKDEVID 1 0)) "MKNOD failed for /dev/null" (
  must (do_mknod "/dev/zero" S_IFCHR (MKDEVID 1 1)) "MKNOD failed for /dev/zero" (
  must (do_mknod "/dev/tty0" S_IFCHR (MKDEVID 2 0)) "MKNOD failed for /dev/tty0" (
  must (do_mknod "/dev/tty1" S_IFCHR (MKDEVID 2 1)) "MKNOD failed for /dev/tty1" (
  must (do_mknod "/dev/tty2" S_IFCHR (MKDEVID 2 3)) "MKNOD failed for /dev/tty1" (
  kret tt)))))).
End Boot.
