(* ===== verification/VnodeInv.v ===== *)
(** The vnode cache keeps its invariant: the functions of kernel/fs/vnode.c on
    any memory that keeps the promises of KMemLaws. *)

From stdpp Require Import base numbers list gmap strings.
From S2P Require Import Prelude Sched Mutex PageAlloc Slab KMem Vfs.

Open Scope Z_scope.

(** How often a reference occurs among those that are held. *)
Definition cnt (v : Z) (R : list Z) : Z := Z.of_nat (length (filter (v =.) R)).

Lemma cnt_cons v w R : cnt v (w :: R) = (if decide (v = w) then 1 else 0) + cnt v R.
Proof. unfold cnt. rewrite filter_cons. case_decide; simpl; lia. Qed.

Lemma cnt_nonneg v R : 0 ≤ cnt v R.
Proof. unfold cnt. lia. Qed.

Lemma cnt_pos v R : 0 < cnt v R ↔ v ∈ R.
Proof.
  induction R as [|w R IH]; [rewrite elem_of_nil; unfold cnt; simpl; lia|].
  rewrite cnt_cons, elem_of_cons. pose proof (cnt_nonneg v R). case_decide; [|rewrite <- IH; intuition lia]. intuition lia.
Qed.

Lemma cnt_app v R R' : cnt v (R ++ R') = cnt v R + cnt v R'.
Proof. unfold cnt. rewrite filter_app, length_app. lia. Qed.

Lemma cnt_insert v R (i : nat) w w' : R !! i = Some w →
  cnt v (<[i := w']> R) = cnt v R - (if decide (v = w) then 1 else 0) + (if decide (v = w') then 1 else 0).
Proof.
  intros Hi. assert (E : cnt v R = cnt v (take i R ++ w :: drop (S i) R)) by (by rewrite take_drop_middle).
  rewrite E, insert_take_drop by (by eapply lookup_lt_Some). rewrite !cnt_app, !cnt_cons. lia.
Qed.

#[export] Instance cnt_perm v : Proper ((≡ₚ) ==> eq) (cnt v).
Proof. intros R R' HR. unfold cnt. by rewrite HR. Qed.

(** The invariant. *)
Section VnodeInv.
Context {M : Type} `{KMemLaws M}.
Implicit Types (s : vfs M) (x : vnode) (i : ramfs_inode).

(** The running thread is on no queue, and the run queue is there. *)
Definition ks_ok (k : kstate) : Prop :=
  ∃ t th Q, ks_curthr k = Some t ∧ ks_threads k !! t = Some th ∧ kt_wchan th = None ∧ kt_qlink th = None ∧
    ks_queues k !! RunQ = Some Q.

(** The devices that are registered have identifiers. *)
Definition devs_ok (devs : list bytedev) : Prop := Forall (λ cd, cd_id cd ≠ NULL_DEVID) devs.

Definition find_dev (id : Z) (devs : list bytedev) : option bytedev := snd <$> list_find (λ cd, cd_id cd = id) devs.

Lemma bytedev_lookup_run id devs s : devs_ok devs → bytedev_lookup id devs s = RRet (find_dev id devs) s.
Proof.
  unfold find_dev. induction 1 as [|cd devs Hcd _ IH]; [done|]. cbn [bytedev_lookup list_find].
  rewrite kassert_next by (by destruct (Z.eqb_spec NULL_DEVID (cd_id cd)) as [E|]; [destruct Hcd|]).
  destruct (Z.eqb_spec id (cd_id cd)) as [E|E]; [by rewrite decide_True|]. rewrite decide_False by done. rewrite IH. by destruct (list_find _ devs) as [[]|].
Qed.

(** What an inode has on its page. *)
Definition page_ok s i : Prop :=
  (rf_mode i = RAMFS_TYPE_DATA ∧ ∃ l, v_pages s !! rf_mem i = Some (PData l) ∧
     length l = Z.to_nat PAGE_SIZE ∧ 0 ≤ rf_size i ≤ PAGE_SIZE ∧
     ∀ n, rf_size i ≤ Z.of_nat n < PAGE_SIZE → l !! n = Some 0) ∨
  (rf_mode i = RAMFS_TYPE_DIR ∧ ∃ l, v_pages s !! rf_mem i = Some (PDirents l) ∧
     length l = Z.to_nat RAMFS_MAX_DIRENT) ∨
  rf_mode i = RAMFS_TYPE_CHR ∨ rf_mode i = RAMFS_TYPE_BLK.

Definition has_page i : bool := (rf_mode i =? RAMFS_TYPE_DATA) || (rf_mode i =? RAMFS_TYPE_DIR).

(** The memory the inodes hold. *)
Definition inode_pieces s (p : Z) : list piece :=
  if decide (p = NULL) then []
  else PMalloc p :: (if v_inodes s !! p is Some i then if has_page i then [PPage (rf_mem i)] else [] else []).

(** A vnode of the inode [vno] is in memory. *)
Definition loaded s (vno : Z) : bool :=
  bool_decide (Exists (λ v, vn_vno <$> v_vnodes s !! v = Some vno) (v_inuse s)).

(** What read_vnode sets from the inode. *)
Definition vnode_mode (type : Z) : Z :=
  if type =? RAMFS_TYPE_DATA then S_IFREG else if type =? RAMFS_TYPE_DIR then S_IFDIR
  else if type =? RAMFS_TYPE_CHR then S_IFCHR else S_IFBLK.
Definition vnode_ops (type : Z) : vops :=
  if type =? RAMFS_TYPE_DATA then ramfs_file_vops else if type =? RAMFS_TYPE_DIR then ramfs_dir_vops
  else if type =? RAMFS_TYPE_CHR then bytedev_spec_vops else blockdev_spec_vops.

Record vnode_ok s (R : list Z) (v : Z) x : Prop := {
  vk_pos : 0 < v;
  vk_refs : vn_refcount x = cnt v R;
  vk_held : 0 < vn_refcount x;
  vk_pages : vn_nrespages x = 0;
  vk_busy : vn_busy x = false;
  vk_waitq : ks_queues (v_ks s) !! vn_waitq v = Some (KTQueue [] 0);
  vk_vno : 0 ≤ vn_vno x;
  vk_table : v_rfs_inodes s !! Z.to_nat (vn_vno x) = Some (vn_i x);
  vk_i : vn_i x ≠ NULL;
  vk_inode : ∃ i, v_inodes s !! vn_i x = Some i ∧ rf_ino i = vn_vno x ∧ vn_mode x = vnode_mode (rf_mode i) ∧
    vn_ops x = Some (vnode_ops (rf_mode i)) ∧ (rf_mode i = RAMFS_TYPE_DATA → vn_len x = rf_size i)
}.

Record inode_ok s (L : Z → Z) (k : nat) (p : Z) i : Prop := {
  ik_ino : rf_ino i = Z.of_nat k;
  ik_links : rf_linkcount i = L (Z.of_nat k) + (if loaded s (Z.of_nat k) then 1 else 0);
  ik_nonneg : 0 ≤ L (Z.of_nat k);
  ik_live : 0 < rf_linkcount i;
  ik_page : page_ok s i
}.

(** [L] is the number of links of each inode, [R] the references held on vnodes,
    [P] the memory held besides vnodes and inodes. *)
Record vninv (L : Z → Z) (R : list Z) (P : list piece) s : Prop := {
  vi_ks : ks_ok (v_ks s) ∧ devs_ok (v_bytedevs s);
  vi_mem : km_inv [v_vnode_allocator s; v_file_allocator s] (v_mem s)
    ((PObj (v_vnode_allocator s) <$> v_inuse s) ++ (v_rfs_inodes s ≫= inode_pieces s) ++ P);
  vi_inuse v : v ∈ v_inuse s ↔ is_Some (v_vnodes s !! v);
  vi_nodup : NoDup (v_inuse s);
  vi_vnode v x : v_vnodes s !! v = Some x → vnode_ok s R v x;
  vi_inj v x w y : v_vnodes s !! v = Some x → v_vnodes s !! w = Some y → vn_vno x = vn_vno y → v = w;
  vi_refs v : v ∈ R → is_Some (v_vnodes s !! v);
  vi_inode k p : v_rfs_inodes s !! k = Some p → p ≠ NULL → ∃ i, v_inodes s !! p = Some i ∧ inode_ok s L k p i
}.

Lemma vninv_perm L R R' P P' s : R ≡ₚ R' → P ≡ₚ P' → vninv L R P s → vninv L R' P' s.
Proof.
  intros HR HP [I1 I2 I3 I4 I5 I6 I7 I8]. split; try done.
  - eapply km_inv_perm; [|exact I2]. by rewrite HP.
  - intros v x Hx. destruct (I5 v x Hx). split; try done. by rewrite <- HR.
  - intros v Hv. apply I7. by rewrite HR.
Qed.

(** The invariant does not depend on the files, the root and the process. *)
Lemma vninv_other L R P s files root p_files p_cwd :
  vninv L R P s →
  vninv L R P (Vfs (v_ks s) (v_mem s) (v_vnode_allocator s) (v_file_allocator s) (v_vnodes s) (v_inuse s) files
    (v_rfs_inodes s) (v_inodes s) (v_pages s) (v_bytedevs s) root p_files p_cwd).
Proof.
  intros [I1 I2 I3 I4 I5 I6 I7 I8]. split; try done.
  - intros w x Hx. by destruct (I5 w x Hx).
  - intros k p Hk Hp. destruct (I8 k p Hk Hp) as (i & Hi & []). exists i. split; [done|]. by split.
Qed.

(** ** Running *)

Lemma ks_call_run {A} (c : kM kstate A) s a k : c (v_ks s) = RRet a k → ks_call c s = RRet a (with_ks k s).
Proof. unfold ks_call, klabel, klift. by intros ->. Qed.

Lemma mem_call_run {A} (c : kM M A) s a m : c (v_mem s) = RRet a m → mem_call c s = RRet a (with_mem m s).
Proof. unfold mem_call, klabel, klift. by intros ->. Qed.
End VnodeInv.

(** Reduce, and resolve the lookups the hypotheses know. *)
Ltac vreduce := cbv [kbind kret kget kgets kmodify kderef KASSERT get_vnode put_vnode upd_vnode get_inode put_inode
  upd_inode get_file put_file VNODE_TO_RAMFSINODE]; simpl.
Ltac vrun := repeat (vreduce;
  match goal with
  | H : ?m !! ?i = Some _ |- context [?m !! ?i] => rewrite H
  | |- context [<[?i := _]> _ !! ?i] => rewrite lookup_insert_eq
  | H : ?b = true |- context [?b] => rewrite H
  | H : ?b = false |- context [?b] => rewrite H
  end); vreduce.

(** A state as a record of its fields. *)
Ltac vstate := cbv [with_ks with_mem upd_vnodes upd_inuse upd_files upd_rfs_inodes upd_inodes upd_pages with_root
  upd_p_files with_p_cwd]; simpl.

(** One call of a sequence, by what it does. *)
Tactic Notation "vnext" tactic3(tac) := erewrite kbind_of_ret; [|solve [tac]]; cbn beta; vstate.

Section Vref.
Context {M : Type} `{KMemLaws M}.
Implicit Types (s : vfs M) (x : vnode).

(** Changing the reference count of a vnode. *)
Definition ref_state s (v n : Z) : vfs M := upd_vnodes (alter (set_refcount n) v) s.

Lemma loaded_ext s s' k :
  v_inuse s' = v_inuse s → (∀ w, vn_vno <$> v_vnodes s' !! w = vn_vno <$> v_vnodes s !! w) →
  loaded s' k = loaded s k.
Proof.
  intros Ei El. unfold loaded. rewrite Ei. apply bool_decide_ext. rewrite !Exists_exists.
  by setoid_rewrite El.
Qed.

Lemma loaded_ref s v n k : loaded (ref_state s v n) k = loaded s k.
Proof.
  apply loaded_ext; [done|]. intros w. simpl. destruct (decide (v = w)) as [->|?].
  - rewrite lookup_alter_eq. by destruct (v_vnodes s !! w).
  - by rewrite lookup_alter_ne.
Qed.

Lemma vninv_ref L R R' P s v x n :
  vninv L R P s → v_vnodes s !! v = Some x → n = cnt v R' → 0 < n → (∀ w, w ≠ v → cnt w R' = cnt w R) →
  vninv L R' P (ref_state s v n).
Proof.
  intros HI Hx Hn Hpos Hother. destruct HI as [I1 I2 I3 I4 I5 I6 I7 I8].
  assert (Hlk : ∀ w y, v_vnodes (ref_state s v n) !! w = Some y → ∃ y0, v_vnodes s !! w = Some y0 ∧
            y = set_refcount (vn_refcount y) y0 ∧ (w ≠ v → y = y0) ∧ (w = v → vn_refcount y = n)).
  { intros w y. simpl. destruct (decide (v = w)) as [->|Hne].
    - rewrite lookup_alter_eq, Hx. intros [= <-]. exists x. by destruct x.
    - rewrite lookup_alter_ne by done. intros Hy. exists y. split_and!; [done|by destruct y|done|]. congruence. }
  split; try done.
  - intros w. simpl. rewrite I3. destruct (decide (v = w)) as [->|Hne].
    + rewrite lookup_alter_eq. by destruct (v_vnodes s !! w).
    + by rewrite lookup_alter_ne.
  - intros w y (y0 & Hy0 & E & Hne & Heq)%Hlk. destruct (I5 w y0 Hy0) as [J1 J2 J3 J4 J5 J6 J7 J8 J9 J10].
    rewrite E. destruct (decide (w = v)) as [->|Hwv].
    + rewrite (Heq eq_refl). split; simpl; try done.
    + rewrite (Hne Hwv). split; simpl; try done. rewrite Hother by done. done.
  - intros w y w' y' (y0 & Hy0 & E & _)%Hlk (y0' & Hy0' & E' & _)%Hlk. rewrite E, E'. by apply (I6 w y0 w' y0').
  - intros w Hw. simpl. destruct (decide (v = w)) as [->|Hne]; [rewrite lookup_alter_eq, Hx; by eexists|].
    rewrite lookup_alter_ne by done. apply I7, cnt_pos. rewrite <- Hother by done. by apply cnt_pos.
  - intros k p Hk Hp. destruct (I8 k p Hk Hp) as (i & Hi & []). exists i. split; [done|].
    split; try done. by rewrite loaded_ref.
Qed.

Lemma vref_run L R P s v x :
  vninv L R P s → v_vnodes s !! v = Some x →
  (if vn_refcount x <? INT_MAX then vref v s = RRet tt (ref_state s v (vn_refcount x + 1)) else vref v s = RFault OVERFLOW) ∧
  vninv L (v :: R) P (ref_state s v (vn_refcount x + 1)).
Proof.
  intros HI Hx. destruct (vi_vnode _ _ _ _ HI v x Hx) as [J1 J2 J3 _ _ _ _ _ _ _]. split.
  - unfold vref, int_inc, kfault. assert (Hn : (v =? NULL) = false) by (unfold NULL; lia).
    assert (Hr : (0 <? vn_refcount x) = true) by lia. destruct (vn_refcount x <? INT_MAX) eqn:Hi; vrun; [|reflexivity].
    unfold ref_state, upd_vnodes. by rewrite (insert_alter (set_refcount (vn_refcount x + 1))).
  - eapply vninv_ref; [done..| | |].
    + rewrite cnt_cons, decide_True by done. lia.
    + lia.
    + intros w Hw. rewrite cnt_cons, decide_False by done. lia.
Qed.
End Vref.

(** Elements two members of a list contribute to its bind. *)
Lemma NoDup_bind_inj {A B} (f : A → list B) (l : list A) j k a b z :
  NoDup (l ≫= f) → l !! j = Some a → l !! k = Some b → z ∈ f a → z ∈ f b → j = k.
Proof.
  revert j k. induction l as [|c l IH]; intros j k Hnd Hj Hk Ha Hb; [done|].
  rewrite bind_cons in Hnd. apply NoDup_app in Hnd as (_ & Hdis & Hnd).
  assert (Hout : ∀ n e, l !! n = Some e → z ∈ f e → z ∈ l ≫= f).
  { intros n e Hn He. apply list_elem_of_bind. exists e. split; [done|]. by eapply list_elem_of_lookup_2. }
  destruct j, k; simplify_eq/=; try done; [| |f_equal; by eapply IH].
  - exfalso. eapply Hdis; [done|]. by eapply Hout.
  - exfalso. eapply Hdis; [done|]. by eapply Hout.
Qed.

Section Tables.
Context {M : Type} `{KMemLaws M}.
Implicit Types (s : vfs M) (x : vnode) (i : ramfs_inode).
Context (L : Z → Z) (R : list Z) (P : list piece) (s : vfs M) (HI : vninv L R P s).

Lemma pieces_nodup : NoDup (v_rfs_inodes s ≫= inode_pieces s).
Proof.
  pose proof (km_inv_nodup _ _ _ (vi_mem _ _ _ _ HI)) as Hnd.
  apply NoDup_app in Hnd as (_ & _ & Hnd). by apply NoDup_app in Hnd as (Hnd & _ & _).
Qed.

Lemma inode_unique j k p : v_rfs_inodes s !! j = Some p → v_rfs_inodes s !! k = Some p → p ≠ NULL → j = k.
Proof.
  intros Hj Hk Hp. eapply (NoDup_bind_inj _ _ j k p p (PMalloc p) pieces_nodup); [done..| |];
    unfold inode_pieces; rewrite decide_False by done; set_solver.
Qed.

Lemma page_unique j k p q i i' :
  v_rfs_inodes s !! j = Some p → v_rfs_inodes s !! k = Some q → p ≠ NULL → q ≠ NULL →
  v_inodes s !! p = Some i → v_inodes s !! q = Some i' → has_page i = true → has_page i' = true →
  rf_mem i = rf_mem i' → j = k.
Proof.
  intros Hj Hk Hp Hq Hi Hi' H1 H2 E.
  eapply (NoDup_bind_inj _ _ j k p q (PPage (rf_mem i)) pieces_nodup); [done..| |];
    unfold inode_pieces; rewrite decide_False by done.
  - rewrite Hi, H1. set_solver.
  - rewrite Hi', H2, E. set_solver.
Qed.

Lemma loaded_vnode v x : v_vnodes s !! v = Some x → loaded s (vn_vno x) = true.
Proof.
  intros Hx. apply bool_decide_eq_true, Exists_exists. exists v.
  rewrite Hx. split; [|done]. apply (vi_inuse _ _ _ _ HI). by eexists.
Qed.

(** The vnode, its inode and what they have in common. *)
Lemma vnode_inode v x :
  v_vnodes s !! v = Some x →
  ∃ i, v_inodes s !! vn_i x = Some i ∧ vn_i x ≠ NULL ∧ v_rfs_inodes s !! Z.to_nat (vn_vno x) = Some (vn_i x) ∧
    inode_ok s L (Z.to_nat (vn_vno x)) (vn_i x) i ∧ vnode_ok s R v x ∧
    vn_mode x = vnode_mode (rf_mode i) ∧ vn_ops x = Some (vnode_ops (rf_mode i)) ∧
    (rf_mode i = RAMFS_TYPE_DATA → vn_len x = rf_size i).
Proof.
  intros Hx. pose proof (vi_vnode _ _ _ _ HI v x Hx) as Hok. destruct (vk_inode _ _ _ _ Hok) as (i & Hi & _ & ? & ? & ?).
  pose proof (vk_table _ _ _ _ Hok) as Ht.
  pose proof (vk_i _ _ _ _ Hok) as Hn.
  destruct (vi_inode _ _ _ _ HI _ _ Ht Hn) as (i' & Hi' & Hik). simplify_eq. by exists i.
Qed.
End Tables.

Section Vput.
Context {M : Type} `{KMemLaws M}.
Implicit Types (s : vfs M) (x : vnode) (i : ramfs_inode).

Lemma vput_keep L R P s v x :
  vninv L (v :: R) P s → v ∈ R → v_vnodes s !! v = Some x →
  vput v s = RRet tt (ref_state s v (vn_refcount x - 1)) ∧ vninv L R P (ref_state s v (vn_refcount x - 1)).
Proof.
  intros HI Hv Hx. destruct (vi_vnode _ _ _ _ HI v x Hx) as [J1 J2 J3 J4 J5 _ _ _ _ _].
  rewrite cnt_cons, decide_True in J2 by done. pose proof (proj2 (cnt_pos v R) Hv). split.
  - unfold vput. assert (Hn : (v =? NULL) = false) by (unfold NULL; lia).
    assert (Hb1 : (0 <=? vn_nrespages x) = true) by lia.
    assert (Hb2 : (vn_nrespages x <? vn_refcount x) = true) by lia.
    assert (Hb3 : (vn_nrespages x =? vn_refcount x - 1) = false) by lia.
    assert (Hb4 : (0 <? vn_refcount x - 1) = true) by lia.
    vrun. unfold ref_state, upd_vnodes.
    by rewrite (insert_alter (set_refcount (vn_refcount x - 1))).
  - eapply vninv_ref; [done..| | |]; [lia|lia|].
    intros w Hw. rewrite cnt_cons, decide_False by done. lia.
Qed.

(** The last reference is given up. *)
Definition gone s v x i (m : M) : vfs M :=
  let last := rf_linkcount i =? 1 in
  Vfs (v_ks s) m (v_vnode_allocator s) (v_file_allocator s) (delete v (v_vnodes s)) (filter (.≠ v) (v_inuse s))
    (v_files s) (if last then <[Z.to_nat (vn_vno x) := NULL]> (v_rfs_inodes s) else v_rfs_inodes s)
    (if last then delete (vn_i x) (v_inodes s) else <[vn_i x := set_linkcount (rf_linkcount i - 1) i]> (v_inodes s))
    (if last && has_page i then delete (rf_mem i) (v_pages s) else v_pages s)
    (v_bytedevs s) (v_root s) (v_p_files s) (v_p_cwd s).

(** The memory of a list of inodes without one of them. *)
Lemma pieces_remove s s' k p :
  v_rfs_inodes s !! k = Some p → (∀ j q, j ≠ k → v_rfs_inodes s !! j = Some q → inode_pieces s' q = inode_pieces s q) →
  v_rfs_inodes s ≫= inode_pieces s ≡ₚ inode_pieces s p ++ (<[k := NULL]> (v_rfs_inodes s) ≫= inode_pieces s').
Proof.
  intros Hk Hext. pose proof (lookup_lt_Some _ _ _ Hk) as Hlt.
  rewrite <- (take_drop_middle _ _ _ Hk) at 1. rewrite insert_take_drop by done.
  rewrite !bind_app, !bind_cons.
  assert (E0 : inode_pieces s' NULL = []) by done. rewrite E0. simpl.
  rewrite (Forall_bind_ext (inode_pieces s') (inode_pieces s) (take k _)),
    (Forall_bind_ext (inode_pieces s') (inode_pieces s) (drop (S k) _)); [solve_Permutation|..];
    apply Forall_lookup; intros j q Hj.
  - rewrite lookup_drop in Hj. by eapply (Hext (S k + j)%nat); [lia|].
  - apply lookup_take_Some in Hj as [Hj ?]. by eapply (Hext j); [lia|].
Qed.

Definition delete_state s x i (m : M) : vfs M :=
  let last := rf_linkcount i =? 1 in
  Vfs (v_ks s) m (v_vnode_allocator s) (v_file_allocator s) (v_vnodes s) (v_inuse s)
    (v_files s) (if last then <[Z.to_nat (vn_vno x) := NULL]> (v_rfs_inodes s) else v_rfs_inodes s)
    (if last then delete (vn_i x) (v_inodes s) else <[vn_i x := set_linkcount (rf_linkcount i - 1) i]> (v_inodes s))
    (if last && has_page i then delete (rf_mem i) (v_pages s) else v_pages s)
    (v_bytedevs s) (v_root s) (v_p_files s) (v_p_cwd s).

Lemma delete_vnode_run A H' s v x i :
  v_vnodes s !! v = Some x → 0 ≤ vn_vno x → v_rfs_inodes s !! Z.to_nat (vn_vno x) = Some (vn_i x) →
  vn_i x ≠ NULL → v_inodes s !! vn_i x = Some i → km_inv A (v_mem s) (inode_pieces s (vn_i x) ++ H') →
  ∃ m, ramfs_delete_vnode v s = RRet tt (delete_state s x i m) ∧
    km_inv A m (if rf_linkcount i =? 1 then H' else inode_pieces s (vn_i x) ++ H').
Proof.
  intros Hx Hv Ht Hn Hi Hm. unfold ramfs_delete_vnode, delete_state, inode_pieces in *.
  destruct s as [ks mem va fa vn iu fi rfs ino pg bd rt pf cwd]. simpl in *.
  destruct (Z.eqb_spec (rf_linkcount i) 1) as [E|E].
  - assert (Hz : (rf_linkcount i - 1 =? 0) = true) by lia.
    assert (Hd : (vn_i x =? vn_i x) = true) by lia.
    rewrite decide_False, Hi in Hm by done.
    vrun. rewrite decide_True by done. vrun. unfold has_page, mem_call, klabel, klift in *. simpl.
    destruct (_ || _) eqn:Hp; simpl in Hm.
    + destruct (km_page_free_ok A mem (PMalloc (vn_i x) :: H') (rf_mem i)) as (m1 & Hr1 & Hm1).
      { eapply km_inv_perm; [|exact Hm]. solve_Permutation. }
      destruct (km_kfree_ok A m1 H' (vn_i x) Hm1) as (m2 & Hr2 & Hm2).
      exists m2. split; [|done]. vstate. rewrite Hr1. simpl. rewrite Hr2. simpl. by rewrite delete_insert_eq.
    + destruct (km_kfree_ok A mem H' (vn_i x) Hm) as (m2 & Hr2 & Hm2).
      exists m2. split; [|done]. vstate. rewrite Hr2. simpl. by rewrite delete_insert_eq.
  - assert (Hz : (rf_linkcount i - 1 =? 0) = false) by lia.
    exists mem. split; [|done]. by vrun.
Qed.

(** A broadcast on a queue no one waits on. *)
Lemma broadcast_empty q (k : kstate) :
  ks_queues k !! q = Some (KTQueue [] 0) →
  (let* Q := get_queue q in sched_broadcast_on (Z.to_nat (tq_size Q)) q) k = RRet tt k.
Proof.
  intros Hq. assert (Hg : get_queue q k = RRet (KTQueue [] 0) k).
  { unfold get_queue, kbind, kget, kderef. simpl. by rewrite Hq. }
  erewrite kbind_of_ret by exact Hg. simpl. by erewrite kbind_of_ret by exact Hg.
Qed.

Lemma upd_vnodes_id s v x : v_vnodes s !! v = Some x → upd_vnodes <[v := x]> s = s.
Proof. intros Hx. destruct s. unfold upd_vnodes. simpl in *. by rewrite insert_id. Qed.

(** The part of vput in front of the decrement does nothing without resident pages. *)
Lemma vput_query_run L R P s v x :
  vninv L R P s → v_vnodes s !! v = Some x → vn_refcount x = 1 →
  (let* linked := ramfs_query_vnode v in
   if (linked : bool) then kret tt
   else
     free_respages v ;;;
     let* x := get_vnode v in
     KASSERT (vn_nrespages x =? 0) "0 == vn->vn_nrespages" ;;;
     KASSERT (vn_refcount x =? 1) "1 == vn->vn_refcount") s = RRet tt s.
Proof.
  intros HI Hx Hr. destruct (vnode_inode _ _ _ _ HI v x Hx) as (i & Hi & _ & _ & _ & [_ _ _ Hnr _ _ _ _ _ _] & _).
  unfold ramfs_query_vnode. vrun. destruct (1 <? rf_linkcount i); vrun; [done|].
  unfold free_respages. vrun.
  assert (E : set_refcount (vn_refcount x - vn_nrespages x) (set_nrespages 0 x) = x).
  { rewrite Hnr, Hr. destruct x. simpl in *. by subst. }
  rewrite E, Hr, Hnr, upd_vnodes_id by done. done.
Qed.

Lemma gone_pieces L R P s v x i m :
  vninv L R P s → v_vnodes s !! v = Some x → v_inodes s !! vn_i x = Some i →
  (if rf_linkcount i =? 1 then [] else inode_pieces s (vn_i x)) ++
    (<[Z.to_nat (vn_vno x) := NULL]> (v_rfs_inodes s) ≫= inode_pieces s) ≡ₚ
  v_rfs_inodes (gone s v x i m) ≫= inode_pieces (gone s v x i m).
Proof.
  intros HI Hx Hi. destruct (vnode_inode _ _ _ _ HI v x Hx) as (i' & Hi' & Hn & Ht & _). simplify_eq.
  unfold gone. simpl. destruct (rf_linkcount i =? 1) eqn:E; simpl.
  - rewrite (Forall_bind_ext (inode_pieces (Vfs _ _ _ _ _ _ _ _ _ _ _ _ _ _)) (inode_pieces s)); [done|].
    apply Forall_lookup. intros j q Hj. unfold inode_pieces. simpl. case_decide as Hq; [done|].
    rewrite lookup_delete_ne; [done|]. intros <-. destruct (decide (Z.to_nat (vn_vno x) = j)) as [<-|Hjk].
    + rewrite list_lookup_insert_eq in Hj by (by eapply lookup_lt_Some). congruence.
    + rewrite list_lookup_insert_ne in Hj by done. by apply Hjk, (inode_unique _ _ _ _ HI _ _ (vn_i x)).
  - rewrite <- pieces_remove by done. apply reflexive_eq, Forall_bind_ext, Forall_true. intros q.
    unfold inode_pieces. simpl. case_decide; [done|]. rewrite lookup_insert. case_decide as Eq; [|done].
    by rewrite <- Eq, Hi.
Qed.

Lemma vput_last_run L R P s v x :
  vninv L (v :: R) P s → v ∉ R → v_vnodes s !! v = Some x →
  ∃ i m, v_inodes s !! vn_i x = Some i ∧ vput v s = RRet tt (gone s v x i m) ∧
    km_inv [v_vnode_allocator s; v_file_allocator s] m ((PObj (v_vnode_allocator s) <$> filter (.≠ v) (v_inuse s)) ++
      (v_rfs_inodes (gone s v x i m) ≫= inode_pieces (gone s v x i m)) ++ P).
Proof.
  intros HI Hv Hx. destruct (vnode_inode _ _ _ _ HI v x Hx) as (i & Hi & Hn & Ht & Hik & Hok & _).
  pose proof Hok as [J1 J2 J3 J4 J5 J6 J7 _ _ _].
  assert (J2' : vn_refcount x = 1).
  { rewrite cnt_cons, decide_True in J2 by done. pose proof (cnt_nonneg v R).
    assert (¬ 0 < cnt v R) by (by rewrite cnt_pos). lia. }
  set (A := [v_vnode_allocator s; v_file_allocator s]).
  set (H' := (PObj (v_vnode_allocator s) <$> v_inuse s) ++
    (<[Z.to_nat (vn_vno x) := NULL]> (v_rfs_inodes s) ≫= inode_pieces s) ++ P).
  set (s1 := upd_vnodes <[v := set_busy true (set_refcount 0 x)]> s).
  pose proof (pieces_remove s s _ _ Ht ltac:(done)) as HP.
  destruct (delete_vnode_run A H' s1 v (set_busy true (set_refcount 0 x)) i) as (m1 & Hd & Hm1);
    [apply lookup_insert_eq|done|done|done|done| |].
  { eapply km_inv_perm; [|apply HI]. unfold H'. rewrite HP. simpl. solve_Permutation. }
  assert (Hiu : v_inuse s ≡ₚ v :: filter (.≠ v) (v_inuse s)).
  { apply filter_ne_perm; [apply HI|]. apply (vi_inuse _ _ _ _ HI). by eexists. }
  assert (Hm1' : km_inv A m1 (PObj (v_vnode_allocator s) v :: (PObj (v_vnode_allocator s) <$> filter (.≠ v) (v_inuse s)) ++
      (v_rfs_inodes (gone s v x i m1) ≫= inode_pieces (gone s v x i m1)) ++ P)).
  { eapply km_inv_perm; [|exact Hm1]. rewrite <- (gone_pieces _ _ _ _ _ _ _ _ HI Hx Hi). unfold H'.
    destruct (rf_linkcount i =? 1); rewrite Hiu at 1; rewrite fmap_cons; simpl; solve_Permutation. }
  destruct (km_obj_free_ok A m1 _ _ _ Hm1') as (m2 & Hf & Hm2). exists i, m2. split_and!; [done| |done].
  unfold vput. assert (Hb0 : (v =? NULL) = false) by (unfold NULL; lia).
  assert (Hb1 : (0 <=? vn_nrespages x) = true) by lia.
  assert (Hb2 : (vn_nrespages x <? vn_refcount x) = true) by lia.
  assert (Hb3 : (vn_nrespages x =? vn_refcount x - 1) = true) by lia.
  assert (Hg : get_vnode v s = RRet x s) by (by vrun).
  do 2 (erewrite kbind_of_ret; [|first [unfold KASSERT; by rewrite Hb0|exact Hg]]; cbn beta).
  do 3 (erewrite (kbind_of_ret (KASSERT _ _)) by (unfold KASSERT; by rewrite ?Hb1, ?Hb2, ?J5); cbn beta).
  rewrite Hb3. erewrite kbind_of_ret by (by eapply vput_query_run).
  erewrite kbind_of_ret by exact Hg. cbn beta. rewrite J2'.
  change (1 - 1) with 0. rewrite J4. simpl.
  assert (Hup : (put_vnode v (set_refcount 0 x) ;;; upd_vnode v (set_busy true)) s = RRet tt s1).
  { subst s1. clear. destruct s. vrun. vstate. by rewrite insert_insert_eq. }
  transitivity ((ramfs_delete_vnode v ;;;
    ks_call (let* Q := get_queue (vn_waitq v) in sched_broadcast_on (Z.to_nat (tq_size Q)) (vn_waitq v)) ;;;
    kmodify (upd_inuse (filter (.≠ v))) ;;;
    let* s := kget in
    mem_call (km_obj_free (v_vnode_allocator s) v) ;;;
    kmodify (upd_vnodes (delete v))) s1).
  { rewrite <- (kbind_of_ret _ (λ _, _) _ _ _ Hup). done. }
  erewrite kbind_of_ret by exact Hd. cbn beta.
  erewrite kbind_of_ret by (apply ks_call_run, broadcast_empty; exact J6). cbn beta.
  subst s1 A H'. clear -Hf. destruct s. unfold delete_state, gone. simpl in *.
  vreduce. vstate. unfold mem_call, klabel, klift. simpl. rewrite Hf. simpl. by rewrite delete_insert_eq.
Qed.

Lemma loaded_gone L R P s v x i m k :
  vninv L R P s → v_vnodes s !! v = Some x →
  loaded (gone s v x i m) k = loaded s k && negb (k =? vn_vno x).
Proof.
  intros HI Hx. apply eq_bool_prop_intro. rewrite andb_True. unfold loaded. rewrite !bool_decide_spec, !Exists_exists.
  simpl. split.
  - intros (w & Hw & E). apply list_elem_of_filter in Hw as [Hne Hw]. rewrite lookup_delete_ne in E by done.
    split; [by exists w|]. destruct (v_vnodes s !! w) as [y|] eqn:Hy; simplify_eq/=.
    destruct (Z.eqb_spec (vn_vno y) (vn_vno x)) as [E|]; [|done]. by eapply Hne, (vi_inj _ _ _ _ HI).
  - intros [(w & Hw & E) Hk]. destruct (v_vnodes s !! w) as [y|] eqn:Hy; simplify_eq/=. exists w.
    assert (Hne : w ≠ v). { intros ->. simplify_eq. by destruct (Z.eqb_spec (vn_vno x) (vn_vno x)). }
    rewrite lookup_delete_ne, Hy by done. split; [|done]. by apply list_elem_of_filter.
Qed.

(** What other inodes have is not touched. *)
Lemma gone_inode L R P s v x i m k p j :
  vninv L R P s → v_vnodes s !! v = Some x → v_inodes s !! vn_i x = Some i →
  v_rfs_inodes s !! k = Some p → p ≠ NULL → v_inodes s !! p = Some j → Z.of_nat k ≠ vn_vno x →
  v_rfs_inodes (gone s v x i m) !! k = Some p ∧ v_inodes (gone s v x i m) !! p = Some j ∧
  (has_page j = true → v_pages (gone s v x i m) !! rf_mem j = v_pages s !! rf_mem j).
Proof.
  intros HI Hx Hi Hk Hp Hj Hne. destruct (vnode_inode _ _ _ _ HI v x Hx) as (i' & Hi' & Hn & Ht & _ & [_ _ _ _ _ _ Hv _ _ _] & _).
  simplify_eq. assert (Hk' : Z.to_nat (vn_vno x) ≠ k) by lia.
  assert (Hpi : vn_i x ≠ p). { intros <-. by apply Hk', (inode_unique _ _ _ _ HI _ _ (vn_i x)). }
  unfold gone. simpl. destruct (rf_linkcount i =? 1); simpl.
  - rewrite list_lookup_insert_ne, lookup_delete_ne by done. split_and!; [done..|]. intros Hpg.
    destruct (has_page i) eqn:Hpi'; [|done]. rewrite lookup_delete_ne; [done|]. intros E.
    by apply Hk', (page_unique _ _ _ _ HI _ _ (vn_i x) p i j).
  - by rewrite lookup_insert_ne.
Qed.

Lemma page_ok_ext s s' i :
  (has_page i = true → v_pages s' !! rf_mem i = v_pages s !! rf_mem i) → page_ok s i → page_ok s' i.
Proof.
  intros Hp [(E & l & Hl & ?)|[(E & l & Hl & ?)|?]]; [left|right; left|by right; right]; split; try done; exists l;
    rewrite Hp; try done; unfold has_page; rewrite E; done.
Qed.

Lemma vninv_gone L R P s v x i m :
  vninv L (v :: R) P s → v ∉ R → v_vnodes s !! v = Some x → v_inodes s !! vn_i x = Some i →
  km_inv [v_vnode_allocator s; v_file_allocator s] m ((PObj (v_vnode_allocator s) <$> filter (.≠ v) (v_inuse s)) ++
      (v_rfs_inodes (gone s v x i m) ≫= inode_pieces (gone s v x i m)) ++ P) →
  vninv L R P (gone s v x i m).
Proof.
  intros HI Hv Hx Hi Hm. destruct (vnode_inode _ _ _ _ HI v x Hx) as (i' & Hi' & Hn & Ht & Hik & Hok & _). simplify_eq.
  assert (Hlk : ∀ w y, delete v (v_vnodes s) !! w = Some y → w ≠ v ∧ v_vnodes s !! w = Some y)
    by (intros w y [? ?]%lookup_delete_Some; done).
  split; try done.
  - apply HI.
  - intros w. simpl. rewrite list_elem_of_filter, lookup_delete_is_Some, (vi_inuse _ _ _ _ HI). naive_solver.
  - apply NoDup_filter, HI.
  - intros w y [Hw Hy]%Hlk. destruct (vnode_inode _ _ _ _ HI w y Hy) as (j & Hj & Hjn & Hjt & _ & Hyok & ? & ? & ?).
    destruct (gone_inode _ _ _ _ _ _ _ m _ _ _ HI Hx Hi Hjt Hjn Hj) as (G1 & G2 & _).
    { pose proof (vk_vno _ _ _ _ Hyok). intros E. apply Hw. eapply (vi_inj _ _ _ _ HI); [done..|lia]. }
    destruct Hyok as [J1 J2 J3 J4 J5 J6 J7 J8 J9 J10]. split; try done.
    + rewrite cnt_cons, decide_False in J2 by done. lia.
    + exists j. destruct J10 as (j' & ? & ? & _). simplify_eq. done.
  - intros w y w' y' [_ Hy]%Hlk [_ Hy']%Hlk. by apply (vi_inj _ _ _ _ HI).
  - intros w Hw. simpl. rewrite lookup_delete_ne by (by intros ->). apply (vi_refs _ _ _ _ HI). set_solver.
  - intros k p Hk Hp. destruct (decide (Z.of_nat k = vn_vno x)) as [Ek|Ek].
    + assert (k = Z.to_nat (vn_vno x)) as -> by lia. pose proof (vk_vno _ _ _ _ Hok).
      destruct (rf_linkcount i =? 1) eqn:El; unfold gone in Hk; simpl in Hk; rewrite El in Hk.
      { rewrite list_lookup_insert_eq in Hk by (by eapply lookup_lt_Some). congruence. }
      simplify_eq. exists (set_linkcount (rf_linkcount i - 1) i). split.
      { unfold gone. simpl. rewrite El. apply lookup_insert_eq. }
      destruct Hik as [K1 K2 K3 K4 K5]. rewrite Ek in *. rewrite (loaded_vnode _ _ _ _ HI v x Hx) in K2.
      split; simpl; rewrite ?Ek; try done; try lia.
      * rewrite (loaded_gone _ _ _ _ _ _ _ _ _ HI Hx), (loaded_vnode _ _ _ _ HI v x Hx), Z.eqb_refl. simpl. lia.
      * apply (page_ok_ext s); [|done]. intros _. unfold gone. simpl. by rewrite El.
    + assert (Hk0 : v_rfs_inodes s !! k = Some p).
      { unfold gone in Hk. simpl in Hk. destruct (rf_linkcount i =? 1); [|done].
        rewrite list_lookup_insert_ne in Hk; [done|]. pose proof (vk_vno _ _ _ _ Hok). lia. }
      destruct (vi_inode _ _ _ _ HI k p Hk0 Hp) as (j & Hj & [K1 K2 K3 K4 K5]).
      destruct (gone_inode _ _ _ _ _ _ _ m _ _ _ HI Hx Hi Hk0 Hp Hj Ek) as (_ & G2 & G3).
      exists j. split; [done|]. split; try done.
      * rewrite (loaded_gone _ _ _ _ _ _ _ _ _ HI Hx). destruct (Z.eqb_spec (Z.of_nat k) (vn_vno x)); [done|].
        by rewrite andb_true_r.
      * by apply (page_ok_ext s).
Qed.
End Vput.

(** * What a step of the cache leaves alone *)

Section Steps.
Context {M : Type} `{KMemLaws M}.
Implicit Types (s : vfs M) (x : vnode) (i : ramfs_inode).

(** What an inode number stands for: a file with its page, a directory with its
    entries, a device. *)
Inductive node :=
  | NFile (size : Z) (page : list Z)
  | NDir (size : Z) (entries : list ramfs_dirent)
  | NDev (type devid : Z).

Definition node_of (pages : gmap Z rpage) i : option node :=
  if rf_mode i =? RAMFS_TYPE_DATA then
    if pages !! rf_mem i is Some (PData l) then Some (NFile (rf_size i) l) else None
  else if rf_mode i =? RAMFS_TYPE_DIR then
    if pages !! rf_mem i is Some (PDirents l) then Some (NDir (rf_size i) l) else None
  else Some (NDev (rf_mode i) (rf_mem i)).

Definition content s (k : Z) : option node :=
  if decide (0 ≤ k) then
    p ← v_rfs_inodes s !! Z.to_nat k;
    if decide (p = NULL) then None else i ← v_inodes s !! p; node_of (v_pages s) i
  else None.

Lemma node_of_ext pages pages' i i' :
  rf_mode i' = rf_mode i → rf_size i' = rf_size i → rf_mem i' = rf_mem i →
  (has_page i = true → pages' !! rf_mem i = pages !! rf_mem i) → node_of pages' i' = node_of pages i.
Proof.
  unfold node_of, has_page. intros -> -> -> Hp. destruct (rf_mode i =? RAMFS_TYPE_DATA); [by rewrite Hp|].
  by destruct (rf_mode i =? RAMFS_TYPE_DIR); [rewrite Hp|].
Qed.

Record vsame s s' : Prop := {
  sm_files : v_files s' = v_files s;
  sm_p_files : v_p_files s' = v_p_files s;
  sm_p_cwd : v_p_cwd s' = v_p_cwd s;
  sm_root : v_root s' = v_root s;
  sm_va : v_vnode_allocator s' = v_vnode_allocator s;
  sm_fa : v_file_allocator s' = v_file_allocator s;
  sm_bytedevs : v_bytedevs s' = v_bytedevs s
}.

(** The inode number of a vnode. *)
Definition vno_at s (v : Z) : option Z := vn_vno <$> v_vnodes s !! v.

Lemma vno_at_Some s v k : vno_at s v = Some k ↔ ∃ x, v_vnodes s !! v = Some x ∧ vn_vno x = k.
Proof. unfold vno_at. rewrite fmap_Some. naive_solver. Qed.

(** The inodes that cannot go away: linked, or behind a vnode that is held. *)
Definition stays (L : Z → Z) (R : list Z) s (k : Z) : Prop := 0 < L k ∨ ∃ w, w ∈ R ∧ vno_at s w = Some k.

(** Nothing but vnodes, inodes and memory changes, and held vnodes stay the
    vnodes of their inodes. *)
Record vframe (R : list Z) s s' : Prop := {
  fr_same : vsame s s';
  fr_vnode w : w ∈ R → vno_at s' w = vno_at s w
}.

Lemma vsame_refl s : vsame s s.
Proof. by split. Qed.
Lemma vsame_trans s1 s2 s3 : vsame s1 s2 → vsame s2 s3 → vsame s1 s3.
Proof. intros [] []. split; congruence. Qed.

Lemma vframe_refl R s : vframe R s s.
Proof. by split. Qed.

Lemma vframe_trans R s1 s2 s3 : vframe R s1 s2 → vframe R s2 s3 → vframe R s1 s3.
Proof.
  intros [A1 A2] [B1 B2]. split; [by eapply vsame_trans|]. intros w Hw. by rewrite B2, A2.
Qed.

Lemma vframe_weaken R R' s s' : R' ⊆ R → vframe R s s' → vframe R' s s'.
Proof. intros Hsub [A1 A2]. split; [done|auto]. Qed.

Lemma content_same s s' k :
  v_rfs_inodes s' = v_rfs_inodes s → v_inodes s' = v_inodes s → v_pages s' = v_pages s → content s' k = content s k.
Proof. unfold content. by intros -> -> ->. Qed.

Lemma vframe_ref R s v n : vframe R s (ref_state s v n).
Proof.
  split; [done|]. intros w _. unfold vno_at. simpl. destruct (decide (v = w)) as [->|?].
  - rewrite lookup_alter_eq. by destruct (v_vnodes s !! w).
  - by rewrite lookup_alter_ne.
Qed.

Lemma content_gone L R P s v x i m k :
  vninv L R P s → v_vnodes s !! v = Some x → v_inodes s !! vn_i x = Some i →
  (k = vn_vno x → rf_linkcount i ≠ 1) → content (gone s v x i m) k = content s k.
Proof.
  intros HI Hx Hi Hne. destruct (vnode_inode _ _ _ _ HI v x Hx) as (i' & Hi' & Hn & Ht & Hik & Hok & _). simplify_eq.
  pose proof (vk_vno _ _ _ _ Hok) as Hvno. unfold content. case_decide as Hk0; [|done].
  destruct (v_rfs_inodes s !! Z.to_nat k) as [p|] eqn:Hp.
  - destruct (decide (p = NULL)) as [->|Hpn].
    + unfold gone. simpl. destruct (Z.eqb_spec (rf_linkcount i) 1); [|by rewrite Hp].
      assert (k ≠ vn_vno x) by (intros ->; congruence).
      rewrite list_lookup_insert_ne by lia. by rewrite Hp.
    + simpl. rewrite (decide_False (P := p = NULL)) by done. destruct (decide (k = vn_vno x)) as [->|Hkx].
      * unfold gone. simpl. destruct (Z.eqb_spec (rf_linkcount i) 1) as [E|]; [by apply Hne in E|].
        simplify_eq. rewrite Ht. simpl. rewrite decide_False by done. rewrite lookup_insert_eq, Hi. done.
      * destruct (vi_inode _ _ _ _ HI _ _ Hp Hpn) as (j & Hj & _).
        destruct (gone_inode _ _ _ _ _ _ _ m _ _ _ HI Hx Hi Hp Hpn Hj ltac:(lia)) as (G1 & G2 & G3).
        clear - G1 G2 G3 Hj Hpn. unfold gone in *. simpl in *. rewrite G1. simpl. rewrite decide_False by done.
        rewrite G2, Hj. simpl. by apply node_of_ext.
  - unfold gone. simpl. destruct (rf_linkcount i =? 1); [|by rewrite Hp].
    rewrite list_lookup_insert_ne; [by rewrite Hp|]. intros E. rewrite E in Ht. congruence.
Qed.

Lemma stays_linked L R P s v x i :
  vninv L (v :: R) P s → v ∉ R → v_vnodes s !! v = Some x → v_inodes s !! vn_i x = Some i →
  stays L R s (vn_vno x) → rf_linkcount i ≠ 1.
Proof.
  intros HI Hv Hx Hi [Hk|(w & Hw & (y & Hy & E)%vno_at_Some)].
  - destruct (vnode_inode _ _ _ _ HI v x Hx) as (i' & Hi' & _ & _ & [_ K2 _ _ _] & Hok & _). simplify_eq.
    rewrite Z2Nat.id, (loaded_vnode _ _ _ _ HI v x Hx) in K2 by apply Hok. lia.
  - assert (w = v) as -> by (by eapply (vi_inj _ _ _ _ HI)). done.
Qed.

Lemma vput_run L R P s v k :
  vninv L (v :: R) P s → vno_at s v = Some k → ∃ s', vput v s = RRet tt s' ∧ vninv L R P s' ∧ vframe R s s' ∧
    ∀ j, j ≠ k ∨ stays L R s k → content s' j = content s j.
Proof.
  intros HI (x & Hx & <-)%vno_at_Some. destruct (decide (v ∈ R)) as [Hv|Hv].
  - destruct (vput_keep _ _ _ _ _ _ HI Hv Hx) as [Hr HI']. eexists.
    split_and!; [done|done|apply vframe_ref|by intros; apply content_same].
  - destruct (vput_last_run _ _ _ _ _ _ HI Hv Hx) as (i & m & Hi & Hr & Hm). eexists.
    split_and!; [done|by eapply vninv_gone| |].
    + split; [done|]. intros w Hw. unfold vno_at. simpl. rewrite lookup_delete_ne; [done|]. by intros <-.
    + intros k Hk. eapply content_gone; [done..|]. intros ->. eapply stays_linked; [done..|]. by destruct Hk.
Qed.
End Steps.

(** * A vnode is brought in *)

Section Vget.
Context {M : Type} `{KMemLaws M}.
Implicit Types (s : vfs M) (x : vnode) (i : ramfs_inode).

Lemma get_vnode_run s v x : v_vnodes s !! v = Some x → get_vnode v s = RRet x s.
Proof. intros Hx. by vrun. Qed.

Lemma upd_vnode_run s v f x : v_vnodes s !! v = Some x → upd_vnode v f s = RRet tt (upd_vnodes <[v := f x]> s).
Proof. intros Hx. by vrun. Qed.

Lemma page_mode s i : page_ok s i →
  rf_mode i = RAMFS_TYPE_DATA ∨ rf_mode i = RAMFS_TYPE_DIR ∨ rf_mode i = RAMFS_TYPE_CHR ∨ rf_mode i = RAMFS_TYPE_BLK.
Proof. unfold page_ok. naive_solver. Qed.

Lemma read_vnode_run s v x p i :
  v_vnodes s !! v = Some x → 0 ≤ vn_vno x → v_rfs_inodes s !! Z.to_nat (vn_vno x) = Some p → p ≠ NULL →
  v_inodes s !! p = Some i → rf_ino i = vn_vno x →
  (rf_mode i = RAMFS_TYPE_DATA ∨ rf_mode i = RAMFS_TYPE_DIR ∨ rf_mode i = RAMFS_TYPE_CHR ∨ rf_mode i = RAMFS_TYPE_BLK) →
  ramfs_read_vnode v s = RRet tt
    (upd_vnodes <[v := Vnode (if has_page i then Some (vnode_ops (rf_mode i)) else None) (vn_refcount x) (vn_nrespages x)
       (vn_vno x) (vnode_mode (rf_mode i)) (rf_size i) p (if has_page i then vn_devid x else rf_mem i) (vn_cdev x)
       (vn_busy x)]> (upd_inodes <[p := set_linkcount (rf_linkcount i + 1) i]> s)).
Proof.
  intros Hx Hk Ht Hp Hi Hino Hm. destruct s as [ks m va fa vns inuse files rfs inodes pages devs root pf cwd]. simpl in *.
  unfold ramfs_read_vnode. vrun. rewrite decide_True by done. vrun.
  assert (Hb : (p =? NULL) = false) by lia. assert (Hb2 : (rf_ino i =? vn_vno x) = true) by lia.
  vrun. unfold has_page. destruct Hm as [E|[E|[E|E]]]; by rewrite E.
Qed.

Definition fresh_ks (k : kstate) (v : Z) : kstate :=
  set_queues <[vn_waitq v := KTQueue [] 0]>
    (set_holder (Z.to_pos v) None (set_queues <[MutexQ (Z.to_pos v) := KTQueue [] 0]> k)).

(** The vnode of an inode. *)
Definition vnode_of (devs : list bytedev) (k p : Z) i : vnode :=
  let chr := rf_mode i =? RAMFS_TYPE_CHR in
  Vnode (Some (vnode_ops (rf_mode i))) 1 0 k (vnode_mode (rf_mode i)) (rf_size i) p
    (if has_page i then 0 else rf_mem i) (if chr then find_dev (rf_mem i) devs else None) false.

Definition brought s v k p i (m : M) : vfs M :=
  Vfs (fresh_ks (v_ks s) v) m (v_vnode_allocator s) (v_file_allocator s)
    (<[v := vnode_of (v_bytedevs s) k p i]> (v_vnodes s)) (v :: v_inuse s) (v_files s) (v_rfs_inodes s)
    (<[p := set_linkcount (rf_linkcount i + 1) i]> (v_inodes s)) (v_pages s) (v_bytedevs s) (v_root s) (v_p_files s)
    (v_p_cwd s).

Lemma bring_in_run s v k p i m :
  0 ≤ k → v_rfs_inodes s !! Z.to_nat k = Some p → p ≠ NULL → v_inodes s !! p = Some i → rf_ino i = k → page_ok s i →
  devs_ok (v_bytedevs s) → bring_in v k (with_mem m s) = RRet v (brought s v k p i m).
Proof.
  intros Hk Ht Hp Hi Hino Hpg Hdev. destruct s as [ks m0 va fa vns inuse files rfs inodes pages devs root pf cwd].
  unfold brought, vnode_of, fresh_ks. simpl in *.
  unfold bring_in. do 3 (vnext reflexivity).
  vnext (eapply upd_vnode_run, lookup_insert_eq). vnext reflexivity.
  vnext (eapply read_vnode_run; [apply lookup_insert_eq|done..|eapply page_mode; exact Hpg]).
  vnext (eapply upd_vnode_run, lookup_insert_eq). vnext (apply get_vnode_run, lookup_insert_eq).
  destruct Hpg as [[E _]|[[E _]|[E|E]]]; unfold has_page; rewrite E; simpl.
  1,2: vnext reflexivity.
  3: vnext (unfold init_special_vnode; vnext (apply get_vnode_run, lookup_insert_eq);
       vnext reflexivity; erewrite kbind_of_ret by (by apply bytedev_lookup_run); reflexivity).
  4: vnext (unfold init_special_vnode; vnext (apply get_vnode_run, lookup_insert_eq);
       vnext reflexivity; reflexivity).
  all: vnext (eapply upd_vnode_run, lookup_insert_eq); by rewrite !insert_insert_eq.
Qed.

Lemma not_inuse L R P s v : vninv L R P s → v ∉ v_inuse s → v_vnodes s !! v = None ∧ cnt v R = 0.
Proof.
  intros HI Hv. assert (Hn : v_vnodes s !! v = None).
  { apply eq_None_not_Some. by rewrite <- (vi_inuse _ _ _ _ HI). }
  split; [done|]. pose proof (cnt_nonneg v R). destruct (decide (0 < cnt v R)) as [Hc|]; [|lia].
  apply cnt_pos, (vi_refs _ _ _ _ HI) in Hc as [? ?]. congruence.
Qed.

Lemma loaded_brought s v k p i m j :
  v ∉ v_inuse s → loaded (brought s v k p i m) j = (k =? j) || loaded s j.
Proof.
  intros Hv. unfold loaded. simpl. apply eq_bool_prop_intro. rewrite orb_True, !bool_decide_spec, Exists_cons.
  rewrite lookup_insert_eq. simpl. rewrite Is_true_true, Z.eqb_eq. f_equiv; [naive_solver|].
  rewrite !Exists_exists. split; intros (w & Hw & E); exists w; (split; [done|]);
    [rewrite lookup_insert_ne in E by congruence|rewrite lookup_insert_ne by congruence]; done.
Qed.

Lemma brought_pieces L R P s v k p i m :
  vninv L R P s → v_rfs_inodes s !! Z.to_nat k = Some p → v_inodes s !! p = Some i →
  v_rfs_inodes s ≫= inode_pieces (brought s v k p i m) = v_rfs_inodes s ≫= inode_pieces s.
Proof.
  intros HI Ht Hi. apply Forall_bind_ext, Forall_forall. intros q _. unfold inode_pieces. case_decide; [done|].
  simpl. destruct (decide (p = q)) as [<-|?]; [by rewrite lookup_insert_eq, Hi|by rewrite lookup_insert_ne].
Qed.

Lemma fresh_ks_ok k v : ks_ok k → ks_ok (fresh_ks k v).
Proof.
  intros (t & th & Q & ?). exists t, th, Q. unfold fresh_ks. simpl.
  rewrite !lookup_insert_ne by done. done.
Qed.

Lemma vninv_brought L R P s v k p i m :
  vninv L R P s → 0 ≤ k → v_rfs_inodes s !! Z.to_nat k = Some p → p ≠ NULL → v_inodes s !! p = Some i →
  loaded s k = false → 0 < v → v ∉ v_inuse s →
  km_inv [v_vnode_allocator s; v_file_allocator s] m (PObj (v_vnode_allocator s) v ::
    (PObj (v_vnode_allocator s) <$> v_inuse s) ++ (v_rfs_inodes s ≫= inode_pieces s) ++ P) →
  vninv L (v :: R) P (brought s v k p i m).
Proof.
  intros HI Hk Ht Hp Hi Hld Hv0 Hv Hm. destruct (not_inuse _ _ _ _ _ HI Hv) as [Hvn Hc0].
  assert (Hlk : ∀ w y, v_vnodes s !! w = Some y → w ≠ v) by congruence.
  assert (Hld' : ∀ w y, v_vnodes s !! w = Some y → vn_vno y ≠ k).
  { intros w y Hy <-. by rewrite (loaded_vnode _ _ _ _ HI w y Hy) in Hld. }
  destruct (vi_inode _ _ _ _ HI _ _ Ht Hp) as (i' & Hi' & Hik). simplify_eq.
  destruct Hik as [K1 K2 K3 K4 K5]. rewrite Z2Nat.id in K1, K2, K3 by done. rewrite Hld in K2.
  split; simpl.
  - split; [apply fresh_ks_ok|]; apply HI.
  - by rewrite (brought_pieces L R P).
  - intros w. rewrite elem_of_cons, lookup_insert_is_Some', (vi_inuse _ _ _ _ HI). naive_solver.
  - constructor; [done|apply HI].
  - intros w y [[<- <-]|[Hne Hy]]%lookup_insert_Some.
    + split; simpl; try done.
      * rewrite cnt_cons, decide_True by done. lia.
      * by rewrite lookup_insert_eq.
      * eexists. rewrite lookup_insert_eq. split; [done|]. simpl. done.
    + destruct (vi_vnode _ _ _ _ HI w y Hy) as [J1 J2 J3 J4 J5 J6 J7 J8 J9 J10]. split; simpl; try done.
      * rewrite cnt_cons, decide_False by done. lia.
      * unfold fresh_ks. simpl. rewrite !lookup_insert_ne; [done..|]. unfold vn_waitq. intros [= E]. lia.
      * destruct J10 as (j & Hj & E). assert (p ≠ vn_i y).
        { intros E'. apply (Hld' w y Hy). rewrite <- E' in J8. pose proof (inode_unique _ _ _ _ HI _ _ _ Ht J8 Hp). lia. }
        exists j. by rewrite lookup_insert_ne.
  - intros w y w' y' [[<- <-]|[Hne Hy]]%lookup_insert_Some [[<- <-]|[Hne' Hy']]%lookup_insert_Some; simpl;
      [done|intros E; by apply Hld' in Hy'|intros E; by apply Hld' in Hy|by apply (vi_inj _ _ _ _ HI)].
  - intros w [->|Hw]%elem_of_cons; [rewrite lookup_insert_eq; by eexists|].
    rewrite lookup_insert_is_Some'. right. by apply (vi_refs _ _ _ _ HI).
  - intros k' p' Hk' Hp'. destruct (vi_inode _ _ _ _ HI _ _ Hk' Hp') as (j & Hj & [G1 G2 G3 G4 G5]).
    destruct (decide (p = p')) as [<-|Hpp].
    + assert (k' = Z.to_nat k) as -> by (by eapply (inode_unique _ _ _ _ HI)). simplify_eq.
      eexists. rewrite lookup_insert_eq. split; [done|]. split; simpl; try done; [|lia].
      rewrite loaded_brought by done. rewrite Z2Nat.id, Z.eqb_refl by done. simpl. lia.
    + exists j. rewrite lookup_insert_ne by done. split; [done|]. split; try done.
      rewrite loaded_brought by done. destruct (Z.eqb_spec k (Z.of_nat k')) as [E|]; [|done].
      rewrite E, Nat2Z.id in Ht. congruence.
Qed.

(** The search finds the vnode of an inode exactly when it is in memory. *)
Lemma find_vnode_run s k l :
  (∀ v, v ∈ l → is_Some (v_vnodes s !! v)) →
  (∃ v x, find_vnode k l s = RRet (Some v) s ∧ v_vnodes s !! v = Some x ∧ vn_vno x = k) ∨
  (find_vnode k l s = RRet None s ∧ ¬ Exists (λ v, vn_vno <$> v_vnodes s !! v = Some k) l).
Proof.
  induction l as [|v l IH]; intros Hl; [right; split; [done|]; by intros ?%Exists_nil|].
  destruct (Hl v) as [x Hx]; [set_solver|]. simpl. erewrite kbind_of_ret by (by apply get_vnode_run).
  destruct (Z.eqb_spec (vn_vno x) k) as [E|E]; [left; by exists v, x|].
  destruct IH as [?|[-> Hn]]; [set_solver|by left|right]. split; [done|]. rewrite Exists_cons, Hx. simpl.
  intros [?|?]; [congruence|done].
Qed.

Lemma content_brought s v k p i m j :
  v_inodes s !! p = Some i → content (brought s v k p i m) j = content s j.
Proof.
  intros Hi. unfold content. case_decide; [|done]. simpl. destruct (v_rfs_inodes s !! Z.to_nat j) as [q|]; [|done].
  simpl. case_decide; [done|].
  destruct (decide (p = q)) as [<-|?]; [by rewrite lookup_insert_eq, Hi|by rewrite lookup_insert_ne].
Qed.

Lemma vframe_brought L R P s v k p i m :
  vninv L R P s → v ∉ v_inuse s → vframe R s (brought s v k p i m).
Proof.
  intros HI Hv. split; [done|]. intros w Hw. unfold vno_at. simpl. rewrite lookup_insert_ne; [done|]. intros <-.
  by apply Hv, (vi_inuse _ _ _ _ HI), (vi_refs _ _ _ _ HI).
Qed.

(** The one way a file system call gives up the processor: no vnode could be allocated. *)
Definition starved s : Prop := ∃ m, km_obj_alloc (v_vnode_allocator s) m = RRet NULL (v_mem s).

(** The ways a call may end other than by returning: starved, and with or without
    the overflow of a reference count. *)
Definition may_starve (x : stop (vfs M)) : Prop := match x with Switched s => starved s | Faulted _ => False end.
Definition may_overflow (x : stop (vfs M)) : Prop := match x with Switched s => starved s | Faulted why => why = OVERFLOW end.

(** An inode number in use. *)
Definition inode_at s (k : Z) : Prop := is_Some (content s k).

Lemma inode_at_inv s k : inode_at s k →
  0 ≤ k ∧ ∃ p i, v_rfs_inodes s !! Z.to_nat k = Some p ∧ p ≠ NULL ∧ v_inodes s !! p = Some i.
Proof.
  intros [c Hc]. unfold content in Hc. case_decide; [|done]. split; [done|].
  destruct (v_rfs_inodes s !! Z.to_nat k) as [p|]; [|done]. simpl in Hc. case_decide; [done|].
  destruct (v_inodes s !! p) as [i|] eqn:Hi; [|done]. by exists p, i.
Qed.

Lemma yield_run {A} (c : vM M A) s : ks_ok (v_ks s) → ∃ k c',
  (ks_call (let* t := get_curthr in sched_make_runnable t ;;; sched_switch) ;;; c) s = RSwitch (with_ks k s) c'.
Proof.
  intros (t & th & Q & Ht & Hth & Hw & Hq & HQ).
  pose proof (sched_make_runnable_run (v_ks s) t th Hth ltac:(by eexists) Hw Hq) as Hr.
  unfold ks_call, klabel, klift, get_curthr, kbind, kget, kderef. simpl. rewrite Ht. simpl. rewrite Hr. simpl. eauto.
Qed.

(** A reference to the vnode of the inode [k] was taken. *)
Definition got L R P s (k v : Z) s' : Prop :=
  vninv L (v :: R) P s' ∧ vframe R s s' ∧ (∀ j, content s' j = content s j) ∧ vno_at s' v = Some k.

Lemma vget_run L R P s k (E : stop (vfs M) → Prop) : (∀ s', starved s' → E (Switched s')) →
  ((∃ v, INT_MAX ≤ cnt v R) → E (Faulted OVERFLOW)) →
  vninv L R P s → inode_at s k → wp E (vget k) (got L R P s k) s.
Proof.
  intros HE1 HE2 HI (Hk & p & i & Ht & Hp & Hi)%inode_at_inv. unfold vget. generalize 15%nat. intros rounds.
  cbn [vget_rounds]. apply wp_bind.
  eapply wp_run; [done|]. apply wp_bind.
  destruct (find_vnode_run s k (v_inuse s)) as [(v & x & Hf & Hx & Ek)|[Hf Hn]]; [by intros v ?%(vi_inuse _ _ _ _ HI)|..];
    (eapply wp_run; [exact Hf|]).
  - apply wp_bind. eapply wp_run; [by apply get_vnode_run|].
    destruct (vi_vnode _ _ _ _ HI v x Hx) as [_ J2 _ _ J5 _ _ _ _ _]. rewrite J5.
    destruct (vref_run _ _ _ _ _ _ HI Hx) as [Hr HI']. destruct (Z.ltb_spec (vn_refcount x) INT_MAX); [|by unfold wp, kbind; rewrite Hr; apply HE2; exists v; rewrite <- J2].
    apply wp_bind. eapply wp_run; [exact Hr|]. apply wp_ret.
    split_and!; [done|apply vframe_ref|by intros; apply content_same|].
    unfold vno_at. simpl. by rewrite lookup_alter_eq, Hx, <- Ek.
  - apply wp_bind.
    destruct (km_obj_alloc_ok _ _ _ (v_vnode_allocator s) (vi_mem _ _ _ _ HI) ltac:(set_solver))
      as [(v & m & Hr & Hv0 & Hv & Hm)|(m & Hr & Hm)]; (eapply wp_run; [by apply mem_call_run|]).
    + assert (Hvi : v ∉ v_inuse s) by set_solver. destruct (Z.eqb_spec v NULL); [unfold NULL in *; lia|].
      destruct (vi_inode _ _ _ _ HI _ _ Ht Hp) as (i' & Hi' & Hik). simplify_eq.
      pose proof (ik_ino _ _ _ _ _ Hik). eapply wp_run; [apply (bring_in_run s v k p i m); try done; [lia|by eapply ik_page|apply HI]|].
      split_and!; [|by eapply vframe_brought|by intros; apply content_brought|].
      * eapply vninv_brought; try done. by apply bool_decide_eq_false.
      * unfold vno_at. simpl. by rewrite lookup_insert_eq.
    + rewrite Z.eqb_refl. destruct (yield_run (vget_rounds rounds k) (with_mem m s)) as (ks & c & Hy); [apply HI|].
      unfold wp. rewrite Hy. apply HE1. exists (v_mem s). done.
Qed.

Lemma vget_wp L R P s k : vninv L R P s → inode_at s k → wp may_overflow (vget k) (got L R P s k) s.
Proof. by apply vget_run. Qed.

Lemma vget_strict L R P s k : (∀ v, cnt v R < INT_MAX) → vninv L R P s → inode_at s k → wp may_starve (vget k) (got L R P s k) s.
Proof. intros Hc. apply vget_run; [done|]. intros [v Hv]. specialize (Hc v). simpl. lia. Qed.
End Vget.
