(* ===== verification/RamfsInv.v ===== *)
(** The ramfs operations of Ramfs keep the invariant of the vnode cache, and
    what each does to the contents of the inodes. *)

From stdpp Require Import base functions numbers list gmap strings.
From S2P Require Import Prelude Sched Mutex PageAlloc Slab KMem Vfs VnodeInv Ramfs.

Open Scope Z_scope.

(** * One inode is changed *)

Section Edit.
Context {M : Type} `{KMemLaws M}.
Implicit Types (s : vfs M) (x : vnode) (i : ramfs_inode).

Definition edited s vns (p : Z) i (pages : gmap Z rpage) : vfs M :=
  Vfs (v_ks s) (v_mem s) (v_vnode_allocator s) (v_file_allocator s) vns (v_inuse s) (v_files s) (v_rfs_inodes s)
    (<[p := i]> (v_inodes s)) pages (v_bytedevs s) (v_root s) (v_p_files s) (v_p_cwd s).

(** How the vnodes follow: the one of the inode may get its length. *)
Definition follows (k : Z) i i' (f : vnode → vnode) : Prop := ∀ y, ∃ len, f y = set_len len y ∧
  (vn_vno y ≠ k → len = vn_len y) ∧
  (vn_vno y = k → rf_mode i = RAMFS_TYPE_DATA → vn_len y = rf_size i → len = rf_size i').

Record same_inode i i' : Prop := {
  si_ino : rf_ino i' = rf_ino i;
  si_mem : rf_mem i' = rf_mem i;
  si_mode : rf_mode i' = rf_mode i
}.

Lemma loaded_fmap s s' f k :
  (∀ y, vn_vno (f y) = vn_vno y) → v_inuse s' = v_inuse s → v_vnodes s' = f <$> v_vnodes s → loaded s' k = loaded s k.
Proof.
  intros Hf Ei Ev. apply loaded_ext; [done|]. intros w. rewrite Ev, lookup_fmap. destruct (v_vnodes s !! w); [|done].
  simpl. by rewrite Hf.
Qed.

Section One.
Context L R P s (k p : Z) i i' (f : vnode → vnode) (pages : gmap Z rpage) (HI : vninv L R P s).
Context (Hk : 0 ≤ k) (Ht : v_rfs_inodes s !! Z.to_nat k = Some p) (Hp : p ≠ NULL) (Hi : v_inodes s !! p = Some i).
Context (Hsame : same_inode i i') (Hf : follows k i i' f).
Context (Hpages : ∀ a, (has_page i = true → a ≠ rf_mem i) → pages !! a = v_pages s !! a).

Let s' := edited s (f <$> v_vnodes s) p i' pages.

Lemma edited_other j q n : j ≠ Z.to_nat k → v_rfs_inodes s !! j = Some q → q ≠ NULL → v_inodes s !! q = Some n →
  p ≠ q ∧ (has_page n = true → pages !! rf_mem n = v_pages s !! rf_mem n).
Proof using Hi Hp Ht HI Hpages.
  intros Hj Hq Hqn Hn. split; [intros <-; by apply Hj, (inode_unique _ _ _ _ HI _ _ p)|].
  intros Hpn. apply Hpages. intros Hpi E. apply Hj. by eapply (page_unique _ _ _ _ HI _ _ q p).
Qed.

Lemma content_edited j : content s' j = if decide (j = k) then node_of pages i' else content s j.
Proof using Hi Hk Hp Ht HI Hpages.
  unfold content, s'. simpl. destruct (decide (j = k)) as [->|Hj].
  - rewrite decide_True, Ht by done. simpl. rewrite decide_False, lookup_insert_eq by done. done.
  - case_decide; [|done]. destruct (v_rfs_inodes s !! Z.to_nat j) as [q|] eqn:Hq; [|done]. simpl. case_decide; [done|].
    destruct (vi_inode _ _ _ _ HI _ _ Hq ltac:(done)) as (n & Hn & _).
    destruct (edited_other (Z.to_nat j) q n) as [? Hpg]; [lia|done..|]. rewrite lookup_insert_ne, Hn by done. simpl.
    by apply node_of_ext.
Qed.

Lemma edited_pieces : v_rfs_inodes s ≫= inode_pieces s' = v_rfs_inodes s ≫= inode_pieces s.
Proof using Hi Hsame.
  apply Forall_bind_ext, Forall_forall. intros q _. unfold inode_pieces. case_decide; [done|]. simpl.
  destruct (decide (p = q)) as [<-|?]; [|by rewrite lookup_insert_ne].
  rewrite lookup_insert_eq, Hi. unfold has_page. by rewrite (si_mode _ _ Hsame), (si_mem _ _ Hsame).
Qed.

Lemma vninv_edit L' :
  (∀ j, j ≠ k → L' j = L j) → 0 ≤ L' k → rf_linkcount i' = rf_linkcount i + (L' k - L k) → 0 < rf_linkcount i' →
  page_ok s' i' → vninv L' R P s'.
Proof using All.
  intros HL HL0 Hlc Hlive Hpg.
  assert (Hlk : ∀ w y', v_vnodes s' !! w = Some y' → ∃ y len, v_vnodes s !! w = Some y ∧ y' = set_len len y ∧
    (vn_vno y ≠ k → len = vn_len y) ∧ (vn_vno y = k → rf_mode i = RAMFS_TYPE_DATA → vn_len y = rf_size i → len = rf_size i')).
  { intros w y'. simpl. rewrite lookup_fmap. destruct (v_vnodes s !! w) as [y|]; [|done]. intros [= <-].
    destruct (Hf y) as (len & -> & ? & ?). by exists y, len. }
  assert (Hvno : ∀ y, vn_vno (f y) = vn_vno y) by (intros y; by destruct (Hf y) as (? & -> & _)).
  split.
  - apply HI.
  - simpl. rewrite edited_pieces. apply HI.
  - intros w. simpl. rewrite lookup_fmap, fmap_is_Some. apply HI.
  - apply HI.
  - intros w y' (y & len & Hy & -> & Hlen1 & Hlen2)%Hlk.
    destruct (vi_vnode _ _ _ _ HI w y Hy) as [J1 J2 J3 J4 J5 J6 J7 J8 J9 (n & Hn & G1 & G2 & G3 & G4)].
    split; try done. simpl. destruct (decide (vn_vno y = k)) as [Ey|Ey].
    + assert (vn_i y = p) as Ep by (rewrite Ey in J8; congruence). exists i'. rewrite Ep in *. assert (n = i) as -> by congruence.
      rewrite lookup_insert_eq, (si_ino _ _ Hsame), (si_mode _ _ Hsame). split_and!; try done. auto.
    + destruct (edited_other (Z.to_nat (vn_vno y)) (vn_i y) n) as [? _]; [lia|done..|].
      exists n. rewrite lookup_insert_ne by done. rewrite Hlen1 by done. done.
  - intros w y w' y' (z & ? & Hz & -> & _)%Hlk (z' & ? & Hz' & -> & _)%Hlk. by apply (vi_inj _ _ _ _ HI w z w' z').
  - intros w Hw. simpl. rewrite lookup_fmap, fmap_is_Some. by apply (vi_refs _ _ _ _ HI).
  - intros j q Hj Hq. destruct (vi_inode _ _ _ _ HI j q Hj Hq) as (n & Hn & [K1 K2 K3 K4 K5]).
    destruct (decide (j = Z.to_nat k)) as [->|Hjk].
    + exists i'. simpl in Hj. simplify_eq. split; [apply lookup_insert_eq|].
      rewrite Z2Nat.id in * by done. split; rewrite ?Z2Nat.id by done; try done.
      * by rewrite (si_ino _ _ Hsame).
      * rewrite (loaded_fmap s s' f) by done. lia.
    + destruct (edited_other j q n) as [? Hpn]; [done..|]. exists n. simpl. rewrite lookup_insert_ne by done.
      split; [done|]. split; try done; rewrite ?(HL (Z.of_nat j)) by lia; try done.
      * by rewrite (loaded_fmap s s' f).
      * apply (page_ok_ext s); [|done]. intros ?. by apply Hpn.
Qed.
End One.
End Edit.

(** * Vnodes and the contents of their inodes *)

Definition node_type (n : node) : Z :=
  match n with NFile _ _ => RAMFS_TYPE_DATA | NDir _ _ => RAMFS_TYPE_DIR | NDev type _ => type end.

Section View.
Context {M : Type} `{KMemLaws M}.
Implicit Types (s : vfs M) (x : vnode) (i : ramfs_inode).

(** What the inode of a node looks like. *)
Definition node_inode s (n : node) i : Prop :=
  match n with
  | NFile size l => rf_mode i = RAMFS_TYPE_DATA ∧ rf_size i = size ∧ v_pages s !! rf_mem i = Some (PData l) ∧
      length l = Z.to_nat PAGE_SIZE ∧ 0 ≤ size ≤ PAGE_SIZE ∧ ∀ a, size ≤ Z.of_nat a < PAGE_SIZE → l !! a = Some 0
  | NDir size l => rf_mode i = RAMFS_TYPE_DIR ∧ rf_size i = size ∧ v_pages s !! rf_mem i = Some (PDirents l) ∧
      length l = Z.to_nat RAMFS_MAX_DIRENT
  | NDev type devid => (type = RAMFS_TYPE_CHR ∨ type = RAMFS_TYPE_BLK) ∧ rf_mode i = type ∧ rf_mem i = devid
  end.

Lemma page_node s i : page_ok s i → ∃ n, node_of (v_pages s) i = Some n ∧ node_inode s n i.
Proof.
  unfold node_of. intros [(E & l & Hl & H1 & H2 & H3)|[(E & l & Hl & ?)|[E|E]]]; rewrite E; simpl; rewrite ?Hl.
  - by exists (NFile (rf_size i) l).
  - by exists (NDir (rf_size i) l).
  - eexists. split; [done|]. simpl. auto.
  - eexists. split; [done|]. simpl. auto.
Qed.

Lemma node_page s n i : node_inode s n i → page_ok s i.
Proof. unfold page_ok. destruct n; simpl; naive_solver. Qed.

Lemma vnode_view L R P s v x :
  vninv L R P s → v_vnodes s !! v = Some x → ∃ i n, v_inodes s !! vn_i x = Some i ∧ content s (vn_vno x) = Some n ∧
    node_inode s n i ∧ vn_mode x = vnode_mode (node_type n) ∧ vn_ops x = Some (vnode_ops (node_type n)) ∧
    0 ≤ vn_vno x ∧ v_rfs_inodes s !! Z.to_nat (vn_vno x) = Some (vn_i x) ∧ vn_i x ≠ NULL ∧
    (node_type n = RAMFS_TYPE_DATA → vn_len x = rf_size i).
Proof.
  intros HI Hx. destruct (vnode_inode _ _ _ _ HI v x Hx) as (i & Hi & Hn & Ht & Hik & Hok & Hm & Ho & Hlen).
  destruct (page_node s i) as (n & Hno & Hni); [by eapply ik_page|]. pose proof (vk_vno _ _ _ _ Hok).
  assert (Et : rf_mode i = node_type n) by (destruct n; simpl in *; naive_solver).
  exists i, n. rewrite <- Et. split_and!; try done. unfold content. rewrite decide_True, Ht by done. simpl.
  by rewrite decide_False, Hi by done.
Qed.

Lemma inode_node L R P s k n :
  vninv L R P s → content s k = Some n → 0 ≤ k ∧ ∃ p i, v_rfs_inodes s !! Z.to_nat k = Some p ∧ p ≠ NULL ∧
    v_inodes s !! p = Some i ∧ node_inode s n i ∧ inode_ok s L (Z.to_nat k) p i.
Proof.
  intros HI Hc. destruct (inode_at_inv s k) as (Hk & p & i & Ht & Hp & Hi); [by eexists|].
  destruct (vi_inode _ _ _ _ HI _ _ Ht Hp) as (i' & Hi' & Hik). simplify_eq. split; [done|]. exists p, i.
  split_and!; try done. destruct (page_node s i) as (n' & Hno & Hni); [by eapply ik_page|].
  unfold content in Hc. rewrite decide_True, Ht in Hc by done. simpl in Hc. rewrite decide_False, Hi in Hc by done.
  simpl in Hc. by simplify_eq.
Qed.

(** The entries of the directory with number [k] change. *)
Definition dir_changed L R P s (k size' : Z) (l' : list ramfs_dirent) s' : Prop :=
  vninv L R P s' ∧ vsame s s' ∧ v_vnodes s' = v_vnodes s ∧ ∀ j, content s' j = <[k := Some (NDir size' l')]> (content s) j.

Lemma dir_edit L R P s k size l l' size' p i :
  vninv L R P s → content s k = Some (NDir size l) → v_rfs_inodes s !! Z.to_nat k = Some p →
  v_inodes s !! p = Some i → length l' = length l →
  dir_changed L R P s k size' l' (edited s (v_vnodes s) p (set_size size' i) (<[rf_mem i := PDirents l']> (v_pages s))).
Proof.
  intros HI Hc Ht Hi Hlen.
  destruct (inode_node _ _ _ _ _ _ HI Hc) as (Hk & p' & i' & Ht' & Hn & Hi' & (Hmode & Hsz & Hl & Hll) & Hik). simplify_eq.
  assert (Hf : follows k i (set_size size' i) id).
  { intros y. exists (vn_len y). rewrite Hmode. split_and!; [by destruct y|done|done]. }
  assert (Hpg : ∀ a, (has_page i = true → a ≠ rf_mem i) → <[rf_mem i := PDirents l']> (v_pages s) !! a = v_pages s !! a).
  { intros a Ha. rewrite lookup_insert_ne; [done|]. unfold has_page in Ha. rewrite Hmode in Ha. naive_solver. }
  split; [|split_and!; [done|done|]];
    replace (edited s (v_vnodes s)) with (edited s (id <$> v_vnodes s)) by (by rewrite map_fmap_id).
  - pose proof (ik_nonneg _ _ _ _ _ Hik) as Hnn. rewrite Z2Nat.id in Hnn by done.
    eapply (vninv_edit L R P s k); try done; [simpl; lia|apply Hik|].
    right. left. split; [done|]. exists l'. simpl. rewrite lookup_insert_eq. split; [done|]. lia.
  - intros j. erewrite content_edited by done. unfold node_of. simpl. rewrite Hmode, lookup_insert_eq. simpl.
    unfold insert, fn_insert. by destruct (decide (j = k)), (decide (k = j)).
Qed.

(** ** Directories *)

Section Dir.
Context L R P s (d k size : Z) (l : list ramfs_dirent) (HI : vninv L R P s).
Context (Hd : vno_at s d = Some k) (Hc : content s k = Some (NDir size l)).

Lemma dir_view : ∃ x i, v_vnodes s !! d = Some x ∧ vn_vno x = k ∧ v_inodes s !! vn_i x = Some i ∧
  v_rfs_inodes s !! Z.to_nat k = Some (vn_i x) ∧
  rf_mode i = RAMFS_TYPE_DIR ∧ rf_size i = size ∧ v_pages s !! rf_mem i = Some (PDirents l) ∧
  length l = Z.to_nat RAMFS_MAX_DIRENT ∧ vn_mode x = S_IFDIR ∧ vn_ops x = Some ramfs_dir_vops.
Proof using HI Hd Hc.
  apply vno_at_Some in Hd as (x & Hx & E). destruct (vnode_view _ _ _ _ _ _ HI Hx) as (i & n & Hi & Hn & Hni & Hm & Ho & _ & Ht & _).
  rewrite E, Hc in Hn. simplify_eq. destruct Hni as (? & ? & ? & ?). by exists x, i.
Qed.

Lemma wp_dirents {A} (c : Z → list ramfs_dirent → vM M A) E Q :
  (∀ x i, v_vnodes s !! d = Some x → v_inodes s !! vn_i x = Some i → v_pages s !! rf_mem i = Some (PDirents l) →
     wp E (c (rf_mem i) l) Q s) →
  wp E (let* p := VNODE_TO_DIRENT d in let* l := get_dirents p in c p l) Q s.
Proof using HI Hd Hc.
  destruct dir_view as (x & i & Hx & _ & Hi & _ & _ & _ & Hl & _). intros HQ. specialize (HQ x i Hx Hi Hl).
  unfold VNODE_TO_DIRENT, get_dirents, wp. vrun. done.
Qed.

Lemma lookup_wp name len :
  (∀ j e, find_entry name len l = Some (j, e) → inode_at s (rd_ino e)) →
  wp may_overflow (ramfs_lookup d name len) (λ '(ret, v) s',
    match find_entry name len l with
    | Some (_, e) => ret = 0 ∧ got L R P s (rd_ino e) v s'
    | None => ret = - ENOENT ∧ v = NULL ∧ s' = s
    end) s.
Proof using HI Hd Hc.
  intros He. apply wp_dirents. intros _ _ _ _ _.
  destruct (find_entry name len l) as [[j e]|]; [|done]. apply wp_bind. eapply wp_mono; [apply vget_wp; [done|by eapply He]|].
  intros v s' Hg. by apply wp_ret.
Qed.

Lemma set_entry_run j e dsize :
  ∃ s', set_entry d j e dsize s = RRet tt s' ∧ dir_changed L R P s k (size + dsize) (<[j := e]> l) s'.
Proof using HI Hd Hc.
  destruct dir_view as (x & i & Hx & Hk & Hi & Ht & Hmode & Hsz & Hl & Hll & _). eexists. split.
  - unfold set_entry, VNODE_TO_DIRENT, get_dirents, put_dirents. vrun. by rewrite Hsz.
  - apply (dir_edit L R P s k size l (<[j := e]> l) (size + dsize) (vn_i x) i); try done. by rewrite length_insert.
Qed.

Lemma remove_entry_run name len :
  ∃ s', remove_entry d name len s = RRet tt s' ∧
    dir_changed L R P s k (size - sizeof_dirent)
      (match find_entry name len l with Some (j, e) => <[j := clear_entry e]> l | None => l end) s'.
Proof using HI Hd Hc.
  destruct dir_view as (x & i & Hx & Hk & Hi & Ht & Hmode & Hsz & Hl & Hll & _). eexists. split.
  - unfold remove_entry, VNODE_TO_DIRENT, get_dirents, put_dirents. vrun. by rewrite Hsz.
  - apply (dir_edit L R P s k size l (match find_entry name len l with Some (j, e) => <[j := clear_entry e]> l | None => l end)
      (size - sizeof_dirent) (vn_i x) i); try done.
    destruct (find_entry name len l) as [[]|]; by rewrite ?length_insert.
Qed.
End Dir.
End View.

(** * The number of links *)

Section Links.
Context {M : Type} `{KMemLaws M}.
Implicit Types (s : vfs M) (x : vnode) (i : ramfs_inode).

(** The vnode is in memory, so the inode stays at a link count above 0. *)
Lemma link_run L R P s v x delta :
  vninv L R P s → v_vnodes s !! v = Some x → 0 ≤ L (vn_vno x) + delta →
  ∃ s', upd_inode (vn_i x) (λ n, set_linkcount (rf_linkcount n + delta) n) s = RRet tt s' ∧
    vninv (<[vn_vno x := L (vn_vno x) + delta]> L) R P s' ∧ vsame s s' ∧ v_vnodes s' = v_vnodes s ∧
    ∀ j, content s' j = content s j.
Proof.
  intros HI Hx Hn. destruct (vnode_view _ _ _ _ _ _ HI Hx) as (i & nd & Hi & Hc & Hni & _ & _ & Hk0 & Ht & Hnn & _).
  destruct (vi_inode _ _ _ _ HI _ _ Ht Hnn) as (i' & Hi' & Hik). simplify_eq.
  destruct Hik as [K1 K2 K3 K4 K5]. rewrite Z2Nat.id in * by done.
  set (i' := set_linkcount (rf_linkcount i + delta) i).
  exists (edited s (v_vnodes s) (vn_i x) i' (v_pages s)).
  assert (Hf : follows (vn_vno x) i i' id). { intros y. exists (vn_len y). split_and!; [by destruct y|done|]. simpl. auto. }
  split_and!; [by vrun| |done|done|];
    replace (edited s (v_vnodes s)) with (edited s (id <$> v_vnodes s)) by (by rewrite map_fmap_id).
  - eapply (vninv_edit L R P s (vn_vno x)); try done.
    + intros j Hj. by rewrite fn_lookup_insert_ne.
    + by rewrite fn_lookup_insert.
    + rewrite fn_lookup_insert. simpl. lia.
    + simpl. rewrite (loaded_vnode _ _ _ _ HI v x Hx) in K2. lia.
  - intros j. rewrite (content_edited L R P s (vn_vno x) (vn_i x) i i' id (v_pages s)) by done.
    case_decide; [|done]. subst j. rewrite Hc.
    unfold content in Hc. rewrite decide_True, Ht in Hc by done. simpl in Hc. rewrite decide_False, Hi in Hc by done. done.
Qed.
End Links.

(** * A new inode *)

Definition fresh_node (type devid : Z) : node :=
  if type =? RAMFS_TYPE_DATA then NFile 0 zero_bytes
  else if type =? RAMFS_TYPE_DIR then NDir 0 zero_dirents else NDev type devid.

Section Alloc.
Context {M : Type} `{KMemLaws M}.
Implicit Types (s : vfs M) (x : vnode) (i : ramfs_inode).

Definition installed s (j : nat) (q mem type : Z) (pages : gmap Z rpage) (m : M) : vfs M :=
  Vfs (v_ks s) m (v_vnode_allocator s) (v_file_allocator s) (v_vnodes s) (v_inuse s) (v_files s)
    (<[j := q]> (v_rfs_inodes s)) (<[q := Inode 0 (Z.of_nat j) mem type 1]> (v_inodes s)) pages
    (v_bytedevs s) (v_root s) (v_p_files s) (v_p_cwd s).

Lemma pieces_insert s s' (j : nat) q :
  v_rfs_inodes s !! j = Some NULL → (∀ k p, k ≠ j → v_rfs_inodes s !! k = Some p → inode_pieces s' p = inode_pieces s p) →
  <[j := q]> (v_rfs_inodes s) ≫= inode_pieces s' ≡ₚ inode_pieces s' q ++ (v_rfs_inodes s ≫= inode_pieces s).
Proof.
  intros Hj Hp. pose proof (lookup_lt_Some _ _ _ Hj).
  rewrite insert_take_drop by done. rewrite <- (take_drop_middle _ _ _ Hj) at 3.
  rewrite !bind_app, !bind_cons. change (inode_pieces s NULL) with (@nil piece).
  rewrite (Forall_bind_ext (inode_pieces s') (inode_pieces s) (take j _)).
  2: { apply Forall_lookup. intros k p [? ?]%lookup_take_Some. apply (Hp k); [lia|done]. }
  rewrite (Forall_bind_ext (inode_pieces s') (inode_pieces s) (drop (S j) _)).
  2: { apply Forall_lookup. intros k p. rewrite lookup_drop. intros. apply (Hp (S j + k)%nat); [lia|done]. }
  simpl. solve_Permutation.
Qed.

Lemma no_vnode L R P s j w y :
  vninv L R P s → v_rfs_inodes s !! j = Some NULL → v_vnodes s !! w = Some y → vn_vno y ≠ Z.of_nat j.
Proof.
  intros HI Hj Hy E. destruct (vi_vnode _ _ _ _ HI w y Hy) as [_ _ _ _ _ _ _ J8 J9 _].
  rewrite E, Nat2Z.id in J8. congruence.
Qed.

Lemma not_loaded L R P s j :
  vninv L R P s → v_rfs_inodes s !! j = Some NULL → loaded s (Z.of_nat j) = false.
Proof.
  intros HI Hj. apply bool_decide_eq_false. rewrite Exists_exists. intros (w & Hw & (y & Hy & E)%fmap_Some).
  by eapply (no_vnode L R P s j w y).
Qed.

Section Install.
Context L R P s (j : nat) (q mem type : Z) (pages : gmap Z rpage) (m : M) (HI : vninv L R P s).
Context (Hj : v_rfs_inodes s !! j = Some NULL) (Hq : 0 < q).
Let i := Inode 0 (Z.of_nat j) mem type 1.
Let s' := installed s j q mem type pages m.
Context (Hqf : PMalloc q ∉ v_rfs_inodes s ≫= inode_pieces s).
Context (Hmf : has_page i = true → PPage mem ∉ v_rfs_inodes s ≫= inode_pieces s).
Context (Hpages : ∀ a, (has_page i = true → a ≠ mem) → pages !! a = v_pages s !! a).

Lemma installed_other k p : v_rfs_inodes s !! k = Some p → p ≠ NULL →
  ∃ n, v_inodes s !! p = Some n ∧ k ≠ j ∧ q ≠ p ∧ (has_page n = true → pages !! rf_mem n = v_pages s !! rf_mem n).
Proof using All.
  intros Hk Hp. destruct (vi_inode _ _ _ _ HI _ _ Hk Hp) as (n & Hn & _). exists n.
  pose proof (list_elem_of_lookup_2 _ _ _ Hk) as Hel. split_and!; [done|congruence| |].
  - intros ->. apply Hqf, list_elem_of_bind. exists p. split; [|done]. unfold inode_pieces.
    rewrite decide_False by done. set_solver.
  - intros Hpn. apply Hpages. intros Hpi E. apply Hmf; [done|]. apply list_elem_of_bind. exists p. split; [|done].
    unfold inode_pieces. rewrite decide_False, Hn, Hpn, <- E by done. set_solver.
Qed.

Lemma content_installed k : content s' k = <[Z.of_nat j := node_of pages i]> (content s) k.
Proof using All.
  pose proof (lookup_lt_Some _ _ _ Hj). unfold content, s'. simpl. destruct (decide (Z.of_nat j = k)) as [<-|Hk].
  - rewrite fn_lookup_insert, decide_True, Nat2Z.id, list_lookup_insert_eq by lia. simpl.
    rewrite decide_False by (unfold NULL; lia). by rewrite lookup_insert_eq.
  - rewrite fn_lookup_insert_ne by done. case_decide; [|done]. rewrite list_lookup_insert_ne by lia.
    destruct (v_rfs_inodes s !! Z.to_nat k) as [p|] eqn:Hp; [|done]. simpl. case_decide; [done|].
    destruct (installed_other _ _ Hp ltac:(done)) as (n & Hn & _ & ? & ?). rewrite lookup_insert_ne, Hn by done. simpl.
    by apply node_of_ext.
Qed.

Lemma installed_pieces : v_rfs_inodes s' ≫= inode_pieces s' ≡ₚ
  (PMalloc q :: if has_page i then [PPage mem] else []) ++ (v_rfs_inodes s ≫= inode_pieces s).
Proof using All.
  unfold s'. simpl. rewrite (pieces_insert s); [|done|].
  2: { intros k p Hk Hp. unfold inode_pieces. case_decide; [done|]. simpl.
       destruct (installed_other _ _ Hp ltac:(done)) as (n & Hn & _ & ? & ?). by rewrite lookup_insert_ne. }
  unfold inode_pieces at 1. rewrite decide_False by (unfold NULL; lia). simpl. by rewrite lookup_insert_eq.
Qed.

Lemma vninv_installed :
  page_ok s' i →
  km_inv [v_vnode_allocator s; v_file_allocator s] m ((PMalloc q :: if has_page i then [PPage mem] else []) ++
    (PObj (v_vnode_allocator s) <$> v_inuse s) ++ (v_rfs_inodes s ≫= inode_pieces s) ++ P) →
  vninv (<[Z.of_nat j := 1]> L) R P s'.
Proof using All.
  intros Hpg Hm. pose proof (lookup_lt_Some _ _ _ Hj).
  assert (Hld : ∀ k, loaded s' k = loaded s k) by (by intros; apply loaded_ext).
  split; try apply HI.
  - change (v_mem s') with m. eapply km_inv_perm; [|exact Hm]. rewrite installed_pieces. solve_Permutation.
  - intros w y Hy. pose proof (no_vnode _ _ _ _ _ _ _ HI Hj Hy) as Hne.
    destruct (vi_vnode _ _ _ _ HI w y Hy) as [J1 J2 J3 J4 J5 J6 J7 J8 J9 (n & Hn & ?)].
    destruct (installed_other _ _ J8 J9) as (n' & Hn' & ? & ? & _). split; try done; simpl.
    + rewrite list_lookup_insert_ne by done. done.
    + exists n. by rewrite lookup_insert_ne.
  - intros k p Hk Hp. simpl in *. destruct (decide (j = k)) as [<-|Hjk].
    + rewrite list_lookup_insert_eq in Hk by done. injection Hk as <-. exists i. rewrite lookup_insert_eq. split; [done|].
      split; simpl; rewrite ?fn_lookup_insert, ?Hld, ?(not_loaded L R P s) by done; try done.
    + rewrite list_lookup_insert_ne in Hk by done. destruct (vi_inode _ _ _ _ HI _ _ Hk Hp) as (n & Hn & [K1 K2 K3 K4 K5]).
      destruct (installed_other _ _ Hk Hp) as (n' & Hn' & ? & ? & ?). simplify_eq. exists n.
      rewrite lookup_insert_ne by done. split; [done|].
      split; rewrite ?fn_lookup_insert_ne by lia; rewrite ?Hld; try done. by apply (page_ok_ext s).
Qed.
End Install.

(** Only memory changed. *)
Lemma vninv_mem L R P P' s m :
  vninv L R P s → km_inv [v_vnode_allocator s; v_file_allocator s] m ((PObj (v_vnode_allocator s) <$> v_inuse s) ++
    (v_rfs_inodes s ≫= inode_pieces s) ++ P') →
  vninv L R P' (with_mem m s).
Proof.
  intros HI Hm. destruct HI as [I1 I2 I3 I4 I5 I6 I7 I8]. split; try done.
  - intros v x Hx. by destruct (I5 v x Hx).
  - intros k p Hk Hp. destruct (I8 k p Hk Hp) as (i & Hi & []). exists i. split; [done|]. by split.
Qed.

Definition valid_type (type : Z) : bool :=
  (RAMFS_TYPE_DATA =? type) || (RAMFS_TYPE_DIR =? type) || (RAMFS_TYPE_CHR =? type) || (RAMFS_TYPE_BLK =? type).

(** What allocating an inode did. *)
Definition inode_allocated L R P s type devid (ret : Z) s' : Prop :=
  (0 ≤ ret ∧ content s ret = None ∧ vninv (<[ret := 1]> L) R P s' ∧ vsame s s' ∧ v_vnodes s' = v_vnodes s ∧
     ∀ j, content s' j = <[ret := Some (fresh_node type devid)]> (content s) j) ∨
  (ret = - ENOSPC ∧ vninv L R P s' ∧ vsame s s' ∧ v_vnodes s' = v_vnodes s ∧ ∀ j, content s' j = content s j).

Lemma free_content s j : v_rfs_inodes s !! j = Some NULL → content s (Z.of_nat j) = None.
Proof. intros Hj. unfold content. rewrite decide_True, Nat2Z.id, Hj by lia. done. Qed.

Lemma alloc_dev_run L R P s j q type devid m :
  vninv L R P s → v_rfs_inodes s !! j = Some NULL → type = RAMFS_TYPE_CHR ∨ type = RAMFS_TYPE_BLK →
  0 < q → PMalloc q ∉ (PObj (v_vnode_allocator s) <$> v_inuse s) ++ (v_rfs_inodes s ≫= inode_pieces s) ++ P →
  km_inv [v_vnode_allocator s; v_file_allocator s] m (PMalloc q :: (PObj (v_vnode_allocator s) <$> v_inuse s) ++
    (v_rfs_inodes s ≫= inode_pieces s) ++ P) →
  inode_allocated L R P s type devid (Z.of_nat j) (installed s j q devid type (v_pages s) m).
Proof.
  intros HI Hj Htype Hq Hqf Hm. left.
  assert (Hhp : has_page (Inode 0 (Z.of_nat j) devid type 1) = false) by (by destruct Htype as [-> | ->]).
  split_and!; [lia|by apply free_content| |done|done|].
  - eapply vninv_installed; try done; rewrite ?Hhp; try done; [set_solver|].
    right. right. simpl. done.
  - intros k. erewrite content_installed; try done; rewrite ?Hhp; try done; [|set_solver].
    unfold node_of, fresh_node. by destruct Htype as [-> | ->].
Qed.

Lemma alloc_page_run L R P s j q mem type devid m :
  vninv L R P s → v_rfs_inodes s !! j = Some NULL → type = RAMFS_TYPE_DATA ∨ type = RAMFS_TYPE_DIR →
  0 < q → PMalloc q ∉ (PObj (v_vnode_allocator s) <$> v_inuse s) ++ (v_rfs_inodes s ≫= inode_pieces s) ++ P →
  PPage mem ∉ (PObj (v_vnode_allocator s) <$> v_inuse s) ++ (v_rfs_inodes s ≫= inode_pieces s) ++ P →
  km_inv [v_vnode_allocator s; v_file_allocator s] m (PPage mem :: PMalloc q ::
    (PObj (v_vnode_allocator s) <$> v_inuse s) ++ (v_rfs_inodes s ≫= inode_pieces s) ++ P) →
  inode_allocated L R P s type devid (Z.of_nat j) (installed s j q mem type
    (<[mem := if RAMFS_TYPE_DIR =? type then PDirents zero_dirents else PData zero_bytes]> (v_pages s)) m).
Proof.
  intros HI Hj Htype Hq Hqf Hmf Hm. left.
  assert (Hhp : has_page (Inode 0 (Z.of_nat j) mem type 1) = true) by (by destruct Htype as [-> | ->]).
  assert (Hpg : ∀ pg a, (has_page (Inode 0 (Z.of_nat j) mem type 1) = true → a ≠ mem) →
    <[mem := pg]> (v_pages s) !! a = v_pages s !! a).
  { intros pg a Ha. rewrite lookup_insert_ne; [done|]. apply not_eq_sym. auto. }
  split_and!; [lia|by apply free_content| |done|done|].
  - eapply vninv_installed; try done; [set_solver..| |].
    + destruct Htype as [-> | ->]; [left|right; left]; (split; [done|]); eexists; simpl; rewrite lookup_insert_eq.
      * split; [done|]. unfold zero_bytes. rewrite length_replicate. split; [done|]. split; [by unfold PAGE_SIZE|].
        intros n Hn. apply lookup_replicate_2. lia.
      * split; [done|]. unfold zero_dirents. by rewrite length_replicate.
    + rewrite Hhp. eapply km_inv_perm; [|exact Hm]. solve_Permutation.
  - intros k. erewrite content_installed; try done; [|set_solver..].
    unfold node_of, fresh_node. simpl. rewrite lookup_insert_eq. by destruct Htype as [-> | ->].
Qed.

Lemma alloc_failed L R P s type devid m :
  vninv L R P s → km_inv [v_vnode_allocator s; v_file_allocator s] m ((PObj (v_vnode_allocator s) <$> v_inuse s) ++
    (v_rfs_inodes s ≫= inode_pieces s) ++ P) →
  inode_allocated L R P s type devid (- ENOSPC) (with_mem m s).
Proof. intros HI Hm. right. split_and!; try done. by eapply vninv_mem. Qed.

Lemma valid_type_cases type : valid_type type = true →
  (type = RAMFS_TYPE_CHR ∨ type = RAMFS_TYPE_BLK) ∧ (RAMFS_TYPE_CHR =? type) || (RAMFS_TYPE_BLK =? type) = true ∨
  (type = RAMFS_TYPE_DATA ∨ type = RAMFS_TYPE_DIR) ∧ (RAMFS_TYPE_CHR =? type) || (RAMFS_TYPE_BLK =? type) = false.
Proof.
  unfold valid_type. rewrite !orb_true_iff, !Z.eqb_eq. intros [[[<- | <-]|<-]|<-]; [right|right|left|left]; split; auto.
Qed.

Lemma alloc_inode_run L R P s type devid :
  vninv L R P s → valid_type type = true →
  ∃ ret s', ramfs_alloc_inode type devid s = RRet ret s' ∧ inode_allocated L R P s type devid ret s' ∧
    (0 ≤ ret → ∃ p, list_find (λ p, p = NULL) (v_rfs_inodes s) = Some (Z.to_nat ret, p)).
Proof.
  intros HI Htype. unfold ramfs_alloc_inode. fold (valid_type type). rewrite Htype.
  do 2 (erewrite kbind_of_ret; [|reflexivity]; cbn beta).
  destruct (list_find _ (v_rfs_inodes s)) as [[j p]|] eqn:Hj.
  2: { eexists _, s. split; [done|]. split; [|done]. right. split_and!; try done. }
  apply list_find_Some in Hj as (Hj & -> & _).
  assert (Hfind : 0 ≤ Z.of_nat j → ∃ p, Some (j, NULL) = Some (Z.to_nat (Z.of_nat j), p)) by (rewrite Nat2Z.id; eauto).
  destruct (km_kmalloc_ok _ _ _ 20 (vi_mem _ _ _ _ HI)) as [(q & m & Hr & Hq & Hqf & Hm)|(m & Hr & Hm)]; [lia|..];
    (erewrite kbind_of_ret by (by apply mem_call_run)).
  2: { rewrite Z.eqb_refl. eexists _, _. split; [done|]. split; [by apply alloc_failed|done]. }
  destruct (Z.eqb_spec q NULL); [unfold NULL in *; lia|].
  destruct (valid_type_cases _ Htype) as [[Hd ->]|[Hd ->]].
  - eexists _, _. split; [|split; [by apply alloc_dev_run|exact Hfind]]. done.
  - destruct (km_page_alloc_ok _ _ _ Hm) as [(mem & m' & Hr' & Hmem & Hmf & Hm')|(m' & Hr' & Hm')];
      (erewrite kbind_of_ret by (by apply mem_call_run)).
    + destruct (Z.eqb_spec mem NULL); [unfold NULL in *; lia|].
      eexists _, _. split; [|split; [apply (alloc_page_run L R P s j q mem type devid m'); try done; set_solver|exact Hfind]]. done.
    + rewrite Z.eqb_refl. destruct (km_kfree_ok _ _ _ _ Hm') as (m'' & Hf & Hm'').
      erewrite kbind_of_ret by (by apply mem_call_run). exists (- ENOSPC), (with_mem m'' s).
      split; [done|]. split; [by apply alloc_failed|done].
Qed.
End Alloc.

(** * The operations on directories *)

Lemma fn_insert_ext {A} (k : Z) (n : A) (f g : Z → A) a : (∀ j, f j = g j) → <[k := n]> f a = <[k := n]> g a.
Proof. intros E. unfold insert, fn_insert. by case_decide. Qed.

Section DirOps.
Context {M : Type} `{KMemLaws M}.
Implicit Types (s : vfs M) (x : vnode) (i : ramfs_inode) (c : Z → option node).

(** The state [s'] follows [s], keeps the held vnodes [R], holds [R'], and its
    inodes are [c]. *)
Definition becomes L R' P (R : list Z) s c s' : Prop :=
  vninv L R' P s' ∧ vframe R s s' ∧ ∀ a, content s' a = c a.

Lemma becomes_refl L R P s : vninv L R P s → becomes L R P R s (content s) s.
Proof. intros HI. split_and!; [done|apply vframe_refl|done]. Qed.

Lemma becomes_got L R P s k v s' : got L R P s k v s' → becomes L (v :: R) P R s (content s) s'.
Proof. intros (? & ? & ? & _). done. Qed.

Lemma vframe_vnodes R s s' : vsame s s' → v_vnodes s' = v_vnodes s → vframe R s s'.
Proof. intros Hs E. split; [done|]. intros w _. unfold vno_at. by rewrite E. Qed.

Lemma vno_same s s' v : v_vnodes s' = v_vnodes s → vno_at s' v = vno_at s v.
Proof. intros E. unfold vno_at. by rewrite E. Qed.

Section Dir.
Context L R P s (d k size : Z) (l : list ramfs_dirent) (name : string) (len : Z) (HI : vninv L R P s).
Context (Hd : vno_at s d = Some k) (Hdr : d ∈ R) (Hc : content s k = Some (NDir size l)).

Lemma absent_wp : find_entry name len l = None → wp may_overflow (assert_absent d name len) (λ _ s', s' = s) s.
Proof using HI Hd Hc.
  intros Hn. apply wp_bind. eapply wp_mono; [by eapply lookup_wp; [..|rewrite Hn]|].
  intros [ret v] s'. rewrite Hn. intros (-> & _ & ->). by apply wp_assert.
Qed.

(** A new inode is entered into the directory. *)
Definition entered (type devid ino : Z) (j : nat) c : Z → option node :=
  <[k := Some (NDir (size + sizeof_dirent) (<[j := Dirent ino (copy_name name len)]> l))]>
    (<[ino := Some (fresh_node type devid)]> c).

Lemma alloc_wp type devid : valid_type type = true →
  wp may_overflow (ramfs_alloc_inode type devid) (λ ret s',
    (0 ≤ ret ∧ content s ret = None ∧ becomes (<[ret := 1]> L) R P R s (<[ret := Some (fresh_node type devid)]> (content s)) s'
       ∧ v_vnodes s' = v_vnodes s) ∨
    (ret = - ENOSPC ∧ becomes L R P R s (content s) s')) s.
Proof using HI.
  intros Ht. destruct (alloc_inode_run _ _ _ _ _ devid HI Ht) as (ret & s' & Hr & Ha & _). eapply wp_run; [exact Hr|].
  destruct Ha as [(? & ? & ? & Hs & Hv & ?)|(? & ? & Hs & Hv & ?)]; [left|right]; split_and!; try done;
    split_and!; try done; by apply vframe_vnodes.
Qed.

Lemma enter_run L1 R1 type devid ino j s1 :
  content s ino = None → becomes L1 R1 P R s (<[ino := Some (fresh_node type devid)]> (content s)) s1 →
  ∃ s2, set_entry d j (Dirent ino (copy_name name len)) sizeof_dirent s1 = RRet tt s2 ∧
    becomes L1 R1 P R s (entered type devid ino j (content s)) s2 ∧ v_vnodes s2 = v_vnodes s1.
Proof using Hd Hdr Hc.
  intros Hino (HI1 & [Hs1 Hv1] & Hc1). assert (Hne : ino ≠ k) by congruence.
  destruct (set_entry_run _ _ _ s1 d k size l HI1) with (j := j) (e := Dirent ino (copy_name name len))
    (dsize := sizeof_dirent) as (s2 & Hr & HI2 & Hs2 & Hv2 & Hc2).
  { by rewrite Hv1. }
  { by rewrite Hc1, fn_lookup_insert_ne. }
  exists s2. split; [done|]. split; [|done]. split_and!; [done| |].
  - eapply vframe_trans; [by split|by apply vframe_vnodes].
  - intros a. rewrite Hc2. unfold entered. by apply fn_insert_ext.
Qed.

(** What entering a new inode did; [R'] are the references held afterwards. *)
Definition makes (type devid : Z) (ret : Z) (R' : list Z) (ino : Z) (c : (Z → option node) → Z → option node) s' : Prop :=
  ret = 0 ∧ 0 ≤ ino ∧ content s ino = None ∧
  ∃ j e, find_space l = Some (j, e) ∧ becomes (<[ino := 1]> L) R' P R s (c (entered type devid ino j (content s))) s'.

Definition no_space (ret : Z) s' : Prop := ret = - ENOSPC ∧ becomes L R P R s (content s) s'.

Lemma create_wp :
  find_entry name len l = None →
  wp may_overflow (ramfs_create d name len) (λ '(ret, v) s',
    (∃ ino, makes RAMFS_TYPE_DATA 0 ret (v :: R) ino id s' ∧ vno_at s' v = Some ino) ∨ (no_space ret s' ∧ v = NULL)) s.
Proof using HI Hd Hdr Hc.
  intros Hn. apply wp_bind. eapply wp_mono; [by apply absent_wp|]. intros _ ? ->. eapply wp_dirents; [done..|].
  intros _ _ _ _ _. destruct (find_space l) as [[j e]|] eqn:Hsp; [|right; split; [|done]; split; [done|by apply becomes_refl]].
  apply wp_bind. eapply wp_mono; [by apply alloc_wp|].
  intros ino s1 [(Hino & Hcn & Hb & Hv)|[-> Hb]]; [|right; split; [|done]; by split].
  destruct (Z.ltb_spec ino 0); [lia|]. apply wp_bind. pose proof Hb as (HI1 & Hf1 & Hc1). eapply wp_mono; [apply vget_wp|].
  { done. }
  { unfold inode_at. rewrite Hc1, fn_lookup_insert. by eexists. }
  intros v s2 (HI2 & Hf2 & Hc2 & Hvn). apply vno_at_Some in Hvn as (x & Hx & Ex). apply wp_bind.
  eapply wp_run; [by apply get_vnode_run|]. rewrite Ex.
  destruct (enter_run (<[ino := 1]> L) (v :: R) RAMFS_TYPE_DATA 0 ino j s2) as (s3 & Hr & Hb3 & Hv3); [done| |].
  { split_and!; [done|by eapply vframe_trans|]. intros a. by rewrite Hc2. }
  apply wp_bind. eapply wp_run; [exact Hr|]. apply wp_ret. left. exists ino. split.
  - split_and!; [done..|]. by exists j, e.
  - unfold vno_at. by rewrite Hv3, Hx, <- Ex.
Qed.

Lemma mknod_wp mode devid :
  find_entry name len l = None → S_ISCHR mode || S_ISBLK mode = true →
  wp may_overflow (ramfs_mknod d name len mode devid) (λ ret s',
    (∃ ino, makes (if S_ISCHR mode then RAMFS_TYPE_CHR else RAMFS_TYPE_BLK) devid ret R ino id s') ∨ no_space ret s') s.
Proof using HI Hd Hdr Hc.
  intros Hn Hmode. apply wp_bind. eapply wp_mono; [by apply absent_wp|]. intros _ ? ->. eapply wp_dirents; [done..|].
  intros _ _ _ _ _. destruct (find_space l) as [[j e]|] eqn:Hsp; [|right; split; [done|by apply becomes_refl]].
  set (type := if S_ISCHR mode then RAMFS_TYPE_CHR else RAMFS_TYPE_BLK). apply wp_bind.
  replace (if S_ISCHR mode then ramfs_alloc_inode RAMFS_TYPE_CHR devid else if S_ISBLK mode then
    ramfs_alloc_inode RAMFS_TYPE_BLK devid else kpanic "Invalid mode!") with (ramfs_alloc_inode (M := M) type devid)
    by (unfold type; destruct (S_ISCHR mode), (S_ISBLK mode); done).
  eapply wp_mono; [apply alloc_wp; by unfold type; destruct (S_ISCHR mode)|].
  intros ino s1 [(Hino & Hcn & Hb & Hv)|[-> Hb]]; [|right; by split].
  destruct (Z.ltb_spec ino 0); [lia|].
  destruct (enter_run (<[ino := 1]> L) R type devid ino j s1) as (s3 & Hr & Hb3 & Hv3); [done..|].
  apply wp_bind. eapply wp_run; [exact Hr|]. apply wp_ret. left. exists ino. split_and!; [done..|]. by exists j, e.
Qed.

(** The entries of a new directory. *)
Definition new_dir (ino : Z) : node :=
  NDir (2 * sizeof_dirent) (<[1%nat := Dirent k ".."]> (<[0%nat := Dirent ino "."]> zero_dirents)).

Lemma mkdir_wp :
  find_entry name len l = None →
  wp may_overflow (ramfs_mkdir d name len) (λ ret s',
    (∃ ino, makes RAMFS_TYPE_DIR 0 ret R ino <[ino := Some (new_dir ino)]> s') ∨ no_space ret s') s.
Proof using HI Hd Hdr Hc.
  intros Hn. apply wp_bind. eapply wp_mono; [by apply absent_wp|]. intros _ ? ->. eapply wp_dirents; [done..|].
  intros _ _ _ _ _. destruct (find_space l) as [[j e]|] eqn:Hsp; [|right; split; [done|by apply becomes_refl]].
  apply wp_bind. eapply wp_mono; [by apply alloc_wp|].
  intros ino s1 [(Hino & Hcn & Hb & Hv)|[-> Hb]]; [|right; by split].
  destruct (Z.ltb_spec ino 0); [lia|].
  destruct (enter_run (<[ino := 1]> L) R RAMFS_TYPE_DIR 0 ino j s1) as (s3 & Hr & (HI3 & Hf3 & Hc3) & Hv3); [done..|].
  apply wp_bind. eapply wp_run; [exact Hr|].
  assert (Hci : content s3 ino = Some (NDir 0 zero_dirents)).
  { rewrite Hc3. unfold entered. by rewrite fn_lookup_insert_ne, fn_lookup_insert by congruence. }
  destruct (inode_node _ _ _ _ _ _ HI3 Hci) as (_ & q & i & Ht & Hq & Hi & (Hmode & Hsz & Hl & Hll) & _).
  destruct (proj1 (vno_at_Some s3 d k)) as (x & Hx & Ex); [by rewrite (fr_vnode _ _ _ Hf3)|].
  destruct (dir_edit _ _ _ _ _ _ _ (<[1%nat := Dirent k ".."]> (<[0%nat := Dirent ino "."]> zero_dirents))
    (2 * sizeof_dirent) _ _ HI3 Hci Ht Hi) as (HI4 & Hs4 & Hv4 & Hc4); [done|].
  eapply wp_run.
  { unfold get_rfs_inode, get_dirents, put_dirents. vrun. rewrite decide_True by done. vrun. rewrite Ex. done. }
  left. exists ino. split_and!; [done..|]. exists j, e. split; [done|]. split_and!; [done| |].
  - eapply vframe_trans; [done|]. by apply vframe_vnodes.
  - intros a. rewrite Hc4. by apply fn_insert_ext.
Qed.

Lemma link_wp v ko :
  find_entry name len l = None → v ∈ R → vno_at s v = Some ko → 0 ≤ L ko →
  wp may_overflow (ramfs_link v d name len) (λ ret s',
    (ret = 0 ∧ ∃ j e, find_space l = Some (j, e) ∧ becomes (<[ko := L ko + 1]> L) R P R s
       (<[k := Some (NDir (size + sizeof_dirent) (<[j := Dirent ko (copy_name name len)]> l))]> (content s)) s') ∨
    no_space ret s') s.
Proof using HI Hd Hdr Hc.
  intros Hn Hvr Hv HL. apply wp_bind. eapply wp_mono; [by apply absent_wp|]. intros _ ? ->. eapply wp_dirents; [done..|].
  intros _ _ _ _ _. destruct (find_space l) as [[j e]|] eqn:Hsp; [|right; split; [done|by apply becomes_refl]].
  apply vno_at_Some in Hv as (x & Hx & Ex). apply wp_bind. eapply wp_run; [by apply get_vnode_run|]. apply wp_bind.
  destruct (set_entry_run _ _ _ _ _ _ _ _ HI Hd Hc j (Dirent (vn_vno x) (copy_name name len)) sizeof_dirent)
    as (s1 & Hr & HI1 & Hs1 & Hv1 & Hc1). eapply wp_run; [exact Hr|]. apply wp_bind.
  destruct (link_run _ _ _ _ v x 1 HI1) as (s2 & Hr2 & HI2 & Hs2 & Hv2 & Hc2); [by rewrite Hv1|rewrite Ex; lia|].
  eapply wp_run; [exact Hr2|]. apply wp_ret. left. split; [done|]. exists j, e. split; [done|]. rewrite <- Ex.
  split_and!; [done| |].
  - apply vframe_vnodes; [by eapply vsame_trans|congruence].
  - intros a. by rewrite Hc2, Hc1.
Qed.

(** The entry of the name is taken out and the inode loses a link. *)
Definition unlinked (j : nat) (e : ramfs_dirent) : Z → option node :=
  <[k := Some (NDir (size - sizeof_dirent) (<[j := clear_entry e]> l))]> (content s).

(** What taking out the entry [e] did.  The inode itself goes away when it has no
    other link and is not held. *)
Definition removes (j : nat) (e : ramfs_dirent) (ret : Z) s' : Prop :=
  ret = 0 ∧ vninv (<[rd_ino e := L (rd_ino e) - 1]> L) R P s' ∧ vframe R s s' ∧
  ∀ a, a ≠ rd_ino e ∨ stays (<[rd_ino e := L (rd_ino e) - 1]> L) R s (rd_ino e) → content s' a = unlinked j e a.

Lemma remove_wp v x j e s1 :
  find_entry name len l = Some (j, e) → 1 ≤ L (rd_ino e) → got L R P s (rd_ino e) v s1 → v_vnodes s1 !! v = Some x →
  wp may_overflow (remove_entry d name len ;;; upd_inode (vn_i x) (λ n, set_linkcount (rf_linkcount n - 1) n) ;;; vput v ;;; kret 0)
    (removes j e) s1.
Proof using Hd Hdr Hc.
  intros He HL (HI1 & Hf1 & Hc1 & Hv) Hx. assert (Ex : vn_vno x = rd_ino e). { unfold vno_at in Hv. rewrite Hx in Hv. by injection Hv. }
  destruct (remove_entry_run _ _ _ s1 d k size l HI1) with (name := name) (len := len) as (s2 & Hr2 & HI2 & Hs2 & Hv2 & Hc2).
  { by rewrite (fr_vnode _ _ _ Hf1). }
  { by rewrite Hc1. }
  rewrite He in Hc2. apply wp_bind. eapply wp_run; [exact Hr2|]. apply wp_bind.
  destruct (link_run _ _ _ _ v x (-1) HI2) as (s3 & Hr3 & HI3 & Hs3 & Hv3 & Hc3); [by rewrite Hv2|rewrite Ex; lia|].
  eapply wp_run; [exact Hr3|]. apply wp_bind. rewrite Ex in HI3.
  destruct (vput_run _ _ _ _ _ (rd_ino e) HI3) as (s4 & Hr4 & HI4 & Hf4 & Hc4).
  { by rewrite (vno_same s2), (vno_same s1). }
  eapply wp_run; [exact Hr4|]. apply wp_ret.
  assert (Hf : vframe R s s3).
  { eapply vframe_trans; [done|]. apply vframe_vnodes; [by eapply vsame_trans|congruence]. }
  split_and!; [done..|by eapply vframe_trans|]. intros a Ha. rewrite Hc4, Hc3, Hc2.
  - by apply fn_insert_ext.
  - destruct Ha as [?|[Ha|(w & Hw & E)]]; [by left|right; by left|right; right]. exists w.
    by rewrite (fr_vnode _ _ _ Hf).
Qed.

Lemma unlink_wp j e n :
  find_entry name len l = Some (j, e) → 1 ≤ L (rd_ino e) →
  content s (rd_ino e) = Some n → node_type n ≠ RAMFS_TYPE_DIR →
  wp may_overflow (ramfs_unlink d name len) (removes j e) s.
Proof using HI Hd Hdr Hc.
  intros He HL Hn Hty. apply wp_bind. eapply wp_mono; [eapply lookup_wp; [done..|]|].
  { intros ? ? ?. simplify_eq. by eexists. }
  intros [ret v] s1. rewrite He. intros [-> Hg]. apply wp_bind, wp_assert; [done|].
  pose proof Hg as (HI1 & Hf1 & Hc1 & (x & Hx & Ex)%vno_at_Some). apply wp_bind. eapply wp_run; [by apply get_vnode_run|].
  destruct (vnode_view _ _ _ _ _ _ HI1 Hx) as (i & n' & _ & Hn' & Hni & Hm & _). rewrite Ex, Hc1, Hn in Hn'.
  injection Hn' as <-. apply wp_bind, wp_assert.
  { rewrite Hm. destruct n; simpl in *; [done..|]. by destruct Hni as [[-> | ->] _]. }
  by apply remove_wp.
Qed.

(** Removing a directory: errors leave everything, and an empty one goes. *)
Definition rmdir_post (j : nat) (e : ramfs_dirent) (n : node) (ret : Z) s' : Prop :=
  match n with
  | NDir _ l' => if dir_empty l' then removes j e ret s' else ret = - ENOTEMPTY ∧ becomes L R P R s (content s) s'
  | _ => ret = - ENOTDIR ∧ becomes L R P R s (content s) s'
  end.

Lemma put_back_wp v e s1 (ret : Z) :
  1 ≤ L (rd_ino e) → got L R P s (rd_ino e) v s1 →
  wp may_overflow (vput v ;;; kret ret) (λ r s', r = ret ∧ becomes L R P R s (content s) s') s1.
Proof using HI.
  intros HL (HI1 & Hf1 & Hc1 & Hv). destruct (vput_run _ _ _ _ _ _ HI1 Hv) as (s2 & Hr & HI2 & Hf2 & Hc2).
  apply wp_bind. eapply wp_run; [exact Hr|]. apply wp_ret. split; [done|]. split_and!; [done|by eapply vframe_trans|].
  intros a. rewrite Hc2; [done|]. right. left. lia.
Qed.

Lemma rmdir_wp j e n :
  negb (name_match "." name len) && negb (name_match ".." name len) = true →
  find_entry name len l = Some (j, e) → 1 ≤ L (rd_ino e) → content s (rd_ino e) = Some n →
  wp may_overflow (ramfs_rmdir d name len) (rmdir_post j e n) s.
Proof using HI Hd Hdr Hc.
  intros Hdots He HL Hn. apply wp_bind, wp_assert; [done|]. apply wp_bind. eapply wp_mono; [eapply lookup_wp; [done..|]|].
  { intros ? ? ?. simplify_eq. by eexists. }
  intros [ret v] s1. rewrite He. intros [-> Hg]. cbn [negb Z.eqb].
  pose proof Hg as (HI1 & Hf1 & Hc1 & Hv). pose proof Hv as (x & Hx & Ex)%vno_at_Some.
  apply wp_bind. eapply wp_run; [by apply get_vnode_run|].
  destruct (vnode_view _ _ _ _ _ _ HI1 Hx) as (i & n' & _ & Hn' & Hni & Hm & _). rewrite Ex, Hc1, Hn in Hn'.
  injection Hn' as <-. rewrite Hm. unfold rmdir_post. destruct n as [?|size' l'|type ?]; simpl.
  - by eapply put_back_wp.
  - eapply wp_dirents; [done..|by rewrite Hc1|]. intros _ _ _ _ _. destruct (dir_empty l'); simpl.
    + by apply remove_wp.
    + by eapply put_back_wp.
  - assert (Hnd : S_ISDIR (vnode_mode type) = false) by (by destruct Hni as [[-> | ->] _]). rewrite Hnd. by eapply put_back_wp.
Qed.
End Dir.
End DirOps.

(** * The operations on files *)

(** A write of [data] at [offset] of a page. *)
Definition page_write (page : list Z) (offset : Z) (data : list Z) : list Z :=
  take (Z.to_nat offset) page ++ data ++ drop (Z.to_nat (offset + Z.of_nat (length data))) page.

Lemma page_write_lookup page offset data (n : nat) :
  0 ≤ offset → offset + Z.of_nat (length data) ≤ Z.of_nat (length page) →
  page_write page offset data !! n =
    if decide (offset ≤ Z.of_nat n < offset + Z.of_nat (length data)) then data !! Z.to_nat (Z.of_nat n - offset) else page !! n.
Proof.
  intros Ho Hl. unfold page_write. assert (Hlt : length (take (Z.to_nat offset) page) = Z.to_nat offset).
  { rewrite length_take. lia. }
  destruct (decide (Z.of_nat n < offset)) as [Hn|Hn].
  - rewrite decide_False by lia. rewrite lookup_app_l by lia. apply lookup_take_lt. lia.
  - rewrite lookup_app_r by lia. rewrite Hlt. case_decide.
    + rewrite lookup_app_l by lia. f_equal. lia.
    + rewrite lookup_app_r by lia. rewrite lookup_drop. f_equal. lia.
Qed.

Lemma page_write_length page offset data :
  0 ≤ offset → offset + Z.of_nat (length data) ≤ Z.of_nat (length page) → length (page_write page offset data) = length page.
Proof. intros. unfold page_write. rewrite !length_app, length_take, length_drop. lia. Qed.

Section Files.
Context {M : Type} `{KMemLaws M}.
Implicit Types (s : vfs M) (x : vnode) (i : ramfs_inode) (c : Z → option node).

Section File.
Context L R P s (v k size : Z) (page : list Z) (HI : vninv L R P s).
Context (Hv : vno_at s v = Some k) (Hc : content s k = Some (NFile size page)).

Lemma file_view : ∃ x i, v_vnodes s !! v = Some x ∧ vn_vno x = k ∧ v_inodes s !! vn_i x = Some i ∧
  v_rfs_inodes s !! Z.to_nat k = Some (vn_i x) ∧ node_inode s (NFile size page) i ∧ vn_mode x = S_IFREG ∧
  vn_ops x = Some ramfs_file_vops ∧ vn_len x = size.
Proof using HI Hv Hc.
  apply vno_at_Some in Hv as (x & Hx & E).
  destruct (vnode_view _ _ _ _ _ _ HI Hx) as (i & n & Hi & Hn & Hni & Hm & Ho & _ & Ht & _ & Hlen).
  rewrite E, Hc in Hn. simplify_eq. exists x, i. split_and!; try done. rewrite Hlen by done. apply Hni.
Qed.

(** The bytes of a file. *)
Definition file_bytes : list Z := take (Z.to_nat size) page.

Lemma read_run offset count :
  0 ≤ offset < 2 ^ 31 → 0 ≤ count < 2 ^ 31 →
  ramfs_read v offset count s =
    RRet (Z.max 0 (Z.min count (size - offset)), take (Z.to_nat count) (drop (Z.to_nat offset) file_bytes)) s.
Proof using HI Hv Hc.
  intros Ho Hn. destruct file_view as (x & i & Hx & Hk & Hi & Ht & (Hmode & Hsz & Hp & Hpl & Hsize & _) & Hm & _ & Hlen).
  unfold PAGE_SIZE in *. assert (Hb : S_ISDIR (vn_mode x) = false) by (by rewrite Hm).
  assert (Hb1 : i32 count = count) by (apply i32_small; lia).
  assert (Hb2 : i32 (size - offset) = size - offset) by (apply i32_small; lia).
  assert (Hb3 : in_page offset (Z.max 0 (Z.min count (size - offset))) = true).
  { unfold in_page, PAGE_SIZE. lia. }
  unfold ramfs_read, get_bytes. vrun. rewrite Hsz, Hb1, Hb2, Hb3. do 2 f_equal.
  unfold file_bytes. rewrite skipn_firstn_comm, take_take. f_equal. lia.
Qed.

(** What a write did: the bytes that fit are on the page, and the file reaches at
    least to their end. *)
Definition written offset data (ret : Z) s' : Prop :=
  ret = Z.min (Z.of_nat (length data)) (PAGE_SIZE - offset) ∧
  becomes L R P R s (<[k := Some (NFile (Z.max size (offset + ret)) (page_write page offset (take (Z.to_nat ret) data)))]>
    (content s)) s'.

Definition relen (len : Z) (y : vnode) : vnode := if vn_vno y =? k then set_len len y else y.

Lemma relen_follows len i i' : rf_size i' = len → follows k i i' (relen len).
Proof using.
  intros <- y. unfold relen. destruct (Z.eqb_spec (vn_vno y) k) as [E|E]; [by exists (rf_size i')|].
  exists (vn_len y). split_and!; [by destruct y|done|done].
Qed.

Lemma relen_vnodes x len : v_vnodes s !! v = Some x → vn_vno x = k → <[v := set_len len x]> (v_vnodes s) = relen len <$> v_vnodes s.
Proof using HI.
  intros Hx E. apply stdpp.fin_maps.map_eq. intros w. rewrite lookup_fmap. destruct (decide (v = w)) as [<-|Hne].
  - rewrite lookup_insert_eq, Hx. simpl. unfold relen. by rewrite E, Z.eqb_refl.
  - rewrite lookup_insert_ne by done. destruct (v_vnodes s !! w) as [y|] eqn:Hy; [|done]. simpl. unfold relen.
    destruct (Z.eqb_spec (vn_vno y) k) as [E'|]; [|done]. destruct Hne. eapply (vi_inj _ _ _ _ HI); [done..|congruence].
Qed.

Lemma file_edit p i len page' :
  v_rfs_inodes s !! Z.to_nat k = Some p → v_inodes s !! p = Some i → length page' = Z.to_nat PAGE_SIZE →
  0 ≤ len ≤ PAGE_SIZE → (∀ a, len ≤ Z.of_nat a < PAGE_SIZE → page' !! a = Some 0) →
  becomes L R P R s (<[k := Some (NFile len page')]> (content s))
    (edited s (relen len <$> v_vnodes s) p (set_size len i) (<[rf_mem i := PData page']> (v_pages s))).
Proof using HI Hc.
  intros Ht Hi Hpl Hlen Hz.
  destruct (inode_node _ _ _ _ _ _ HI Hc) as (Hk & p' & i' & Ht' & Hn & Hi' & (Hmode & Hsz & Hl & _) & Hik). simplify_eq.
  assert (Hpg : ∀ a, (has_page i = true → a ≠ rf_mem i) → <[rf_mem i := PData page']> (v_pages s) !! a = v_pages s !! a).
  { intros a Ha. rewrite lookup_insert_ne; [done|]. unfold has_page in Ha. rewrite Hmode in Ha. naive_solver. }
  pose proof (ik_nonneg _ _ _ _ _ Hik) as Hnn. rewrite Z2Nat.id in Hnn by done.
  pose proof (relen_follows len i (set_size len i) eq_refl) as Hf. split_and!.
  - eapply (vninv_edit L R P s k); try done; [simpl; lia|apply Hik|].
    left. split; [done|]. exists page'. simpl. by rewrite lookup_insert_eq.
  - split; [done|]. intros w _. unfold vno_at. simpl. rewrite lookup_fmap. destruct (v_vnodes s !! w) as [y|]; [|done].
    simpl. unfold relen. by destruct (vn_vno y =? k).
  - intros j. rewrite (content_edited L R P s k p i) by done. unfold node_of. simpl. rewrite Hmode, lookup_insert_eq. simpl.
    unfold insert, fn_insert. by destruct (decide (j = k)), (decide (k = j)).
Qed.

Lemma write_run offset data :
  0 ≤ offset ≤ PAGE_SIZE → Z.of_nat (length data) < 2 ^ 31 →
  ∃ ret s', ramfs_write v offset data s = RRet ret s' ∧ written offset data ret s'.
Proof using HI Hv Hc.
  intros Ho Hn. destruct file_view as (x & i & Hx & Hk & Hi & Ht & (Hmode & Hsz & Hp & Hpl & Hsize & Hz) & Hm & _ & Hlen).
  unfold PAGE_SIZE in Ho, Hsize, Hz. set (ret := Z.min (Z.of_nat (length data)) (PAGE_SIZE - offset)).
  assert (Hret : 0 ≤ ret ∧ offset + ret ≤ 4096 ∧ ret ≤ Z.of_nat (length data)) by (unfold ret, PAGE_SIZE; lia).
  assert (Hb : S_ISDIR (vn_mode x) = false) by (by rewrite Hm).
  assert (Hb1 : i32 (Z.of_nat (length data)) = Z.of_nat (length data)) by (apply i32_small; lia).
  assert (Hb2 : i32 (PAGE_SIZE - offset) = PAGE_SIZE - offset) by (apply i32_small; unfold PAGE_SIZE; lia).
  assert (Hb3 : in_page offset ret = true) by (unfold in_page, PAGE_SIZE; lia).
  assert (Hb4 : i32 (offset + ret) = offset + ret) by (apply i32_small; lia).
  assert (Hb5 : (vn_len x =? rf_size i) = true) by lia.
  set (len := Z.max size (offset + ret)). set (page' := page_write page offset (take (Z.to_nat ret) data)).
  assert (Hdl : Z.of_nat (length (take (Z.to_nat ret) data)) = ret) by (rewrite length_take; lia).
  exists ret, (edited s (relen len <$> v_vnodes s) (vn_i x) (set_size len i) (<[rf_mem i := PData page']> (v_pages s))).
  split.
  { unfold ramfs_write, get_bytes, put_bytes. vrun. rewrite Hb1, Hb2. fold ret. rewrite Hb3. vrun. rewrite Hb4, Hlen. fold len.
    unfold edited. rewrite <- (relen_vnodes x) by done. unfold page', page_write. rewrite Hdl. by vstate. }
  split; [done|]. assert (Hfit : offset + Z.of_nat (length (take (Z.to_nat ret) data)) ≤ Z.of_nat (length page)).
  { rewrite Hdl, Hpl. unfold PAGE_SIZE. lia. }
  apply file_edit; [done..| |unfold len, PAGE_SIZE; lia|].
  - unfold page'. by rewrite page_write_length by lia.
  - intros a Ha. unfold page'. rewrite page_write_lookup by lia. rewrite decide_False by lia. apply Hz.
    unfold PAGE_SIZE in Ha. lia.
Qed.
End File.
End Files.
