(* ===== verification/FsTree.v ===== *)
(** The directories form a tree: what the contents of the inodes and their link
    counts satisfy, and that entering and removing names keeps it. *)

From stdpp Require Import base functions numbers list gmap strings.
From S2P Require Import Prelude Sched Mutex PageAlloc Slab KMem Vfs VnodeInv Ramfs RamfsInv.

Open Scope Z_scope.

(** * Names in a directory *)

Definition dir_get (l : list ramfs_dirent) (name : string) : option (nat * ramfs_dirent) :=
  list_find (λ e, rd_name e = name) l.

Lemma list_find_ext {A} (P Q : A → Prop) `{∀ x, Decision (P x), ∀ x, Decision (Q x)} (l : list A) :
  (∀ x, P x ↔ Q x) → list_find P l = list_find Q l.
Proof.
  intros HPQ. induction l as [|x l IH]; [done|]. simpl. rewrite IH. by rewrite (decide_ext _ _ _ _ (HPQ x)).
Qed.

Lemma find_entry_piece name len l :
  strlen (prefix_of name len) = len → find_entry name len l = dir_get l (prefix_of name len).
Proof.
  intros Hlen. apply list_find_ext. intros e. unfold name_match. rewrite andb_true_iff, bool_decide_eq_true, Z.eqb_eq.
  split; [by intros [_ ?]|]. by intros ->.
Qed.

(** Named entries of linked directories name linked inodes. *)
Definition sound (L : Z → Z) (c : Z → option node) : Prop := ∀ k size l j e,
  0 < L k → c k = Some (NDir size l) → l !! j = Some e → rd_name e ≠ EmptyString →
  0 < L (rd_ino e) ∧ is_Some (c (rd_ino e)).

Lemma dir_get_Some l name j e : dir_get l name = Some (j, e) → l !! j = Some e ∧ rd_name e = name.
Proof. intros (? & ? & _)%list_find_Some. done. Qed.

Lemma sound_get L c k size l name j e :
  sound L c → 0 < L k → c k = Some (NDir size l) → dir_get l name = Some (j, e) → name ≠ EmptyString →
  0 < L (rd_ino e) ∧ is_Some (c (rd_ino e)).
Proof. intros Hs HL Hc [Hj <-]%dir_get_Some Hn. by eapply Hs. Qed.

(** * The tree *)

Section Tree.
Implicit Types (L : Z → Z) (c : Z → option node) (l : list ramfs_dirent).

(** The entry [j] of the linked directory [d], other than "." and "..", names [k]. *)
Definition entry L c (d : Z) (j : nat) (k : Z) : Prop := ∃ size l e,
  0 < L d ∧ c d = Some (NDir size l) ∧ (2 ≤ j)%nat ∧ l !! j = Some e ∧ rd_name e ≠ EmptyString ∧ rd_ino e = k.

Definition distinct l : Prop := ∀ i j e e', l !! i = Some e → l !! j = Some e' →
  rd_name e ≠ EmptyString → rd_name e = rd_name e' → i = j.

(** A linked directory is entered in the directory that its ".." names, and has
    that one link. *)
Record dir_ok L c (k : Z) l : Prop := {
  dk_one : L k = 1;
  dk_dot : l !! 0%nat = Some (Dirent k ".");
  dk_dotdot : ∃ p, l !! 1%nat = Some (Dirent p "..") ∧ 0 < L p ∧ if decide (k = 0) then p = 0 else ∃ j, entry L c p j k;
  dk_distinct : distinct l
}.

Definition count (k : Z) (E : list (Z * nat * Z)) : Z := Z.of_nat (length (filter (λ t, t.2 = k) E)).

Record tree L c : Prop := {
  tr_root : 0 < L 0 ∧ ∃ size l, c 0 = Some (NDir size l);
  tr_some k : 0 < L k → is_Some (c k);
  tr_dir k size l : 0 < L k → c k = Some (NDir size l) → dir_ok L c k l;
  tr_links : ∃ E, NoDup E ∧ (∀ d j k, (d, j, k) ∈ E ↔ entry L c d j k) ∧
    ∀ k, (if decide (k = 0) then 1 else 0) + count k E ≤ L k
}.

Lemma count_cons k t E : count k (t :: E) = (if decide (t.2 = k) then 1 else 0) + count k E.
Proof. unfold count. rewrite filter_cons. case_decide; simpl; lia. Qed.

Lemma count_pos k E : 0 < count k E ↔ ∃ d j, (d, j, k) ∈ E.
Proof.
  unfold count. split.
  - destruct (filter _ E) as [|[[d j] k'] E'] eqn:HE; simpl; [lia|]. intros _.
    assert ((d, j, k') ∈ filter (λ t, t.2 = k) E) as [Hk Hin]%list_elem_of_filter by (rewrite HE; apply list_elem_of_here).
    simpl in Hk. subst k'. eauto.
  - intros (d & j & Hin). assert ((d, j, k) ∈ filter (λ t, t.2 = k) E) as Hin' by (by apply list_elem_of_filter).
    destruct (filter _ E); simpl; [by apply elem_of_nil in Hin'|lia].
Qed.

Lemma entry_linked L c d j k : tree L c → entry L c d j k → 0 < L k.
Proof.
  intros HT He. destruct (tr_links _ _ HT) as (E & _ & HE & Hcnt). specialize (Hcnt k).
  assert (0 < count k E) by (apply count_pos; exists d, j; by apply HE). case_decide; lia.
Qed.

Lemma tree_sound L c : tree L c → sound L c.
Proof.
  intros HT k size l j e HL Hc Hj Hne. assert (HL' : 0 < L (rd_ino e)); [|split; [done|by apply (tr_some _ _ HT)]].
  destruct (tr_dir _ _ HT _ _ _ HL Hc) as [_ D1 (p & D2 & Hp & _) _].
  destruct j as [|[|j]]; [rewrite D1 in Hj; by injection Hj as <-|rewrite D2 in Hj; by injection Hj as <-|].
  eapply (entry_linked _ _ k (S (S j))); [done|]. exists size, l, e. split_and!; try done. lia.
Qed.

(** ** A name is added *)

Definition adds c (kd : Z) (name : string) (n : node) (ino : Z) (c' : Z → option node) : Prop := ∃ size l j e,
  c kd = Some (NDir size l) ∧ find_space l = Some (j, e) ∧ 0 ≤ ino ∧ c ino = None ∧
  ∀ a, c' a = <[kd := Some (NDir (size + sizeof_dirent) (<[j := Dirent ino name]> l))]> (<[ino := Some n]> c) a.

(** Free in the directory. *)
Definition unused c (kd : Z) (name : string) : Prop := ∀ size l, c kd = Some (NDir size l) → dir_get l name = None.

Lemma dir_get_None l name : dir_get l name = None ↔ ∀ j e, l !! j = Some e → rd_name e ≠ name.
Proof.
  unfold dir_get. rewrite list_find_None, Forall_lookup. done.
Qed.

Lemma distinct_insert l j e e' :
  distinct l → l !! j = Some e → (∀ i x, l !! i = Some x → rd_name x ≠ EmptyString → rd_name x ≠ rd_name e' ∨ i = j) →
  distinct (<[j := e']> l).
Proof.
  intros Hd Hj Hn a b x y. pose proof (lookup_lt_Some _ _ _ Hj).
  destruct (decide (j = a)) as [<-|Ha]; destruct (decide (j = b)) as [<-|Hb]; [done|..];
    rewrite ?list_lookup_insert_eq, ?list_lookup_insert_ne by done.
  - intros [= <-] Hy Hne E. destruct (Hn b y Hy) as [?|?]; congruence.
  - intros Hx [= <-] Hne E. destruct (Hn a x Hx) as [?|?]; congruence.
  - apply Hd.
Qed.

(** The entries of a new directory are "." and "..". *)
Lemma new_dir_entry kd ino a x : (<[1%nat := Dirent kd ".."]> (<[0%nat := Dirent ino "."]> zero_dirents)) !! a = Some x →
  (2 ≤ a)%nat → rd_name x = EmptyString.
Proof.
  intros Ha Ha2. rewrite !list_lookup_insert_ne in Ha by lia. apply lookup_replicate in Ha as [-> _]. done.
Qed.

Lemma new_dir_distinct kd ino : distinct (<[1%nat := Dirent kd ".."]> (<[0%nat := Dirent ino "."]> zero_dirents)).
Proof.
  intros a b x y Ha Hb Hx E.
  assert (Hlt : ∀ a x, (<[1%nat := Dirent kd ".."]> (<[0%nat := Dirent ino "."]> zero_dirents)) !! a = Some x →
    rd_name x ≠ EmptyString → (a = 0%nat ∧ rd_name x = ".") ∨ (a = 1%nat ∧ rd_name x = "..")).
  { intros a' x' Ha' Hx'. destruct a' as [|[|]]; [left|right|]; [by injection Ha' as <-..|].
    destruct Hx'. eapply (new_dir_entry kd ino); [exact Ha'|lia]. }
  destruct (Hlt a x Ha Hx) as [[-> Ex]|[-> Ex]], (Hlt b y Hb) as [[-> Ey]|[-> Ey]]; congruence.
Qed.

Section Add.
Context L c (kd : Z) (name : string) (n : node) (ino : Z) (c' : Z → option node) (HT : tree L c) (HL : 0 < L kd) (Hname : name ≠ EmptyString).
Context (size : Z) l (j : nat) (e : ramfs_dirent) (Hc : c kd = Some (NDir size l)) (Hsp : find_space l = Some (j, e)).
Context (Hc' : ∀ a, c' a = <[kd := Some (NDir (size + sizeof_dirent) (<[j := Dirent ino name]> l))]> (<[ino := Some n]> c) a).
Context (Hun : dir_get l name = None) (Hn : (∀ size l, n ≠ NDir size l) ∨ n = new_dir kd ino).
(** The inode is new and gets its first link, or is there, no directory, and gets
    another. *)
Context (m : Z) (Hino : (c ino = None ∧ m = 1) ∨ (c ino = Some n ∧ (∀ size l, n ≠ NDir size l) ∧ 0 < L ino ∧ m = L ino + 1)).
Let L' := <[ino := m]> L.

Lemma add_no_dir sz l0 : c ino ≠ Some (NDir sz l0).
Proof using Hino. destruct Hino as [[-> _]|(-> & Hnd & _)]; [done|]. intros [= E]. by eapply Hnd. Qed.

Lemma add_new : ino ≠ kd ∧ L ino + 1 ≤ m ∧ 1 ≤ m ∧ (2 ≤ j)%nat ∧ l !! j = Some e ∧ rd_name e = EmptyString.
Proof using All.
  apply list_find_Some in Hsp as (Hj & He & _). destruct (tr_dir _ _ HT _ _ _ HL Hc) as [_ D1 (p & D2 & _) _].
  split_and!; [| | | |done|done].
  - intros E. apply (add_no_dir size l). by rewrite E.
  - destruct Hino as [[E ->]|(_ & _ & ? & ->)]; [|lia]. destruct (decide (0 < L ino)) as [H|]; [|lia].
    apply (tr_some _ _ HT) in H as [? ?]. congruence.
  - destruct Hino as [[_ ->]|(_ & _ & ? & ->)]; lia.
  - destruct j as [|[|]]; [| |lia]; [rewrite D1 in Hj|rewrite D2 in Hj]; by injection Hj as <-.
Qed.

Lemma add_linked a : a ≠ ino → L' a = L a.
Proof using. intros. unfold L'. by rewrite fn_lookup_insert_ne. Qed.

Lemma add_pos a : 0 < L a → 0 < L' a.
Proof using All.
  intros Ha. destruct (decide (a = ino)) as [->|]; [|by rewrite add_linked]. unfold L'. rewrite fn_lookup_insert.
  destruct add_new as (_ & _ & ? & _). lia.
Qed.

Lemma add_c_kd : c' kd = Some (NDir (size + sizeof_dirent) (<[j := Dirent ino name]> l)).
Proof using Hc'. by rewrite Hc', fn_lookup_insert. Qed.
Lemma add_c_ino : c' ino = Some n.
Proof using All. destruct add_new as (? & _). by rewrite Hc', fn_lookup_insert_ne, fn_lookup_insert. Qed.
Lemma add_c_other a : a ≠ kd → a ≠ ino → c' a = c a.
Proof using Hc'. intros. by rewrite Hc', !fn_lookup_insert_ne. Qed.

Lemma add_entry d a k : entry L' c' d a k ↔ (d = kd ∧ a = j ∧ k = ino) ∨ entry L c d a k.
Proof using All.
  destruct add_new as (Hne & _ & _ & Hj2 & Hj & He). pose proof (lookup_lt_Some _ _ _ Hj). split.
  - intros (sz & l' & x & HLd & Hd & Ha2 & Ha & Hx & <-). destruct (decide (d = ino)) as [->|Hdi].
    { exfalso. rewrite add_c_ino in Hd. injection Hd as ->. destruct Hn as [Hn' |Hn']; [by eapply Hn'|].
      injection Hn' as -> ->. apply Hx. exact (new_dir_entry kd ino a x Ha Ha2). }
    rewrite add_linked in HLd by done. destruct (decide (d = kd)) as [->|Hdk].
    + rewrite add_c_kd in Hd. injection Hd as <- <-. destruct (decide (j = a)) as [->|Hja].
      * rewrite list_lookup_insert_eq in Ha by done. injection Ha as <-. by left.
      * rewrite list_lookup_insert_ne in Ha by done. right. by exists size, l, x.
    + rewrite add_c_other in Hd by done. right. by exists sz, l', x.
  - intros [(-> & -> & ->)|(sz & l' & x & HLd & Hd & Ha2 & Ha & Hx & <-)].
    + exists (size + sizeof_dirent), (<[j := Dirent ino name]> l), (Dirent ino name).
      rewrite add_linked by done. rewrite list_lookup_insert_eq by done. split_and!; try done. apply add_c_kd.
    + assert (d ≠ ino) by (intros ->; by apply (add_no_dir sz l')). rewrite <- add_linked in HLd by done. destruct (decide (d = kd)) as [->|Hdk].
      * rewrite Hc in Hd. injection Hd as <- <-. assert (j ≠ a) by (intros ->; congruence).
        eexists _, _, x. split_and!; [done|apply add_c_kd|done| |done|done]. by rewrite list_lookup_insert_ne.
      * exists sz, l', x. by rewrite add_c_other.
Qed.

Lemma add_dir_ok k l0 : k ≠ ino → dir_ok L c k l0 → dir_ok L' c' k l0.
Proof using All.
  intros Hk [D1 D2 (p & D3 & Hp & D4) D5]. split; [by rewrite add_linked|done| |done].
  exists p. split_and!; [done|by apply add_pos|]. case_decide; [done|].
  destruct D4 as [a Ha]. exists a. apply add_entry. by right.
Qed.

Lemma new_dir_ok : ino ≠ 0 → m = 1 → n = new_dir kd ino →
  dir_ok L' c' ino (<[1%nat := Dirent kd ".."]> (<[0%nat := Dirent ino "."]> zero_dirents)).
Proof using All.
  intros H0 Em En. destruct add_new as (Hne & _ & _ & Hj & _). split.
  - unfold L'. by rewrite fn_lookup_insert.
  - done.
  - exists kd. rewrite add_linked by done. split_and!; [done..|]. rewrite decide_False by done. exists j. apply add_entry. auto.
  - apply new_dir_distinct.
Qed.

Lemma tree_add : tree L' c'.
Proof using All.
  destruct add_new as (Hne & HLi & Hm1 & Hj2 & Hj & He). destruct (tr_root _ _ HT) as (H0 & sz0 & l0 & Hc0).
  assert (Hi0 : ino ≠ 0) by (intros E; apply (add_no_dir sz0 l0); by rewrite E). split.
  - rewrite add_linked by done. split; [done|]. destruct (decide (0 = kd)) as [Ek|Hk]; [rewrite Ek, add_c_kd; eauto|].
    rewrite add_c_other by done. eauto.
  - intros k Hk. destruct (decide (k = ino)) as [->|Hki]; [rewrite add_c_ino; by eexists|].
    rewrite add_linked in Hk by done. destruct (decide (k = kd)) as [->|Hkd]; [rewrite add_c_kd; by eexists|].
    rewrite add_c_other by done. by apply (tr_some _ _ HT).
  - intros k sz lk Hk Hck. destruct (decide (k = ino)) as [->|Hki].
    { rewrite add_c_ino in Hck. injection Hck as Hck. destruct Hn as [Hn'|Hn']; [by destruct (Hn' sz lk)|].
      assert (Em : m = 1). { destruct Hino as [[_ ?]|(_ & Hnd & _)]; [done|]. exfalso. by eapply Hnd. }
      rewrite Hn' in Hck. injection Hck as <- <-. by apply new_dir_ok. }
    rewrite add_linked in Hk by done. destruct (decide (k = kd)) as [->|Hkd].
    + rewrite add_c_kd in Hck. injection Hck as <- <-.
      destruct (add_dir_ok kd l) as [D1 D2 (p & D3 & D4) D5]; [done|by apply (tr_dir _ _ HT kd size)|].
      split; [done|by rewrite list_lookup_insert_ne by lia| |].
      * exists p. by rewrite list_lookup_insert_ne by lia.
      * eapply distinct_insert; [done..|]. intros a x Ha _. left. by eapply dir_get_None.
    + rewrite add_c_other in Hck by done. apply add_dir_ok; [done|]. by apply (tr_dir _ _ HT k sz).
  - destruct (tr_links _ _ HT) as (E & HE1 & HE2 & HE3). exists ((kd, j, ino) :: E). split_and!.
    + constructor; [|done]. rewrite HE2. intros (? & ? & x & _ & Hx & _ & Hjx & Hne' & _). simplify_eq.
    + intros d a k. rewrite elem_of_cons, HE2, add_entry. naive_solver.
    + intros k. rewrite count_cons. simpl. specialize (HE3 k). destruct (decide (ino = k)) as [<-|Hk].
      * unfold L'. rewrite fn_lookup_insert. rewrite decide_False in * by done. lia.
      * rewrite add_linked by done. lia.
Qed.
End Add.

(** ** A name is removed *)

Lemma dir_empty_entry L c l0 k a x : dir_ok L c k l0 → dir_empty l0 = true → l0 !! a = Some x → (2 ≤ a)%nat → rd_name x = EmptyString.
Proof.
  intros [_ D1 (p & D2 & _) D3] Hd Ha Ha2. apply Is_true_true in Hd. unfold dir_empty in Hd.
  rewrite forallb_True, Forall_lookup in Hd.
  destruct (decide (rd_name x = EmptyString)) as [|Hx]; [done|exfalso].
  specialize (Hd _ _ Ha). apply bool_decide_unpack in Hd. destruct Hd as [E|[E|E]]; [..|done].
  - by pose proof (D3 a 0%nat x _ Ha D1 Hx E) as ->; lia.
  - by pose proof (D3 a 1%nat x _ Ha D2 Hx E) as ->; lia.
Qed.

Lemma count_filter k t E : NoDup E → t ∈ E → count k (filter (.≠ t) E) = count k E - (if decide (t.2 = k) then 1 else 0).
Proof.
  intros Hnd Hin. assert (HP : E ≡ₚ t :: filter (.≠ t) E).
  { apply NoDup_Permutation; [done|constructor; [|by apply NoDup_filter]|].
    - by intros [? _]%list_elem_of_filter.
    - intros x. rewrite elem_of_cons, list_elem_of_filter. destruct (decide (x = t)); naive_solver. }
  unfold count. rewrite HP at 2. rewrite filter_cons. case_decide; simpl; lia.
Qed.

Section Drop.
Context L c (kd : Z) (n : node) (c' : Z → option node) (HT : tree L c) (HL : 0 < L kd).
Context (size : Z) l (j : nat) (e : ramfs_dirent) (Hc : c kd = Some (NDir size l)) (Hj : l !! j = Some e).
Context (Hj2 : (2 ≤ j)%nat) (He : rd_name e ≠ EmptyString).
Let ino := rd_ino e.
Let L' := <[ino := L ino - 1]> L.
Context (Hn : c ino = Some n).
Context (Hempty : ∀ size l, n = NDir size l → dir_empty l = true).
Context (Hc' : ∀ a, a ≠ ino ∨ 0 < L' ino → c' a = <[kd := Some (NDir (size - sizeof_dirent) (<[j := clear_entry e]> l))]> c a).

(** A directory that goes has no entries. *)
Lemma drop_no_entry a k : ¬ entry L c ino a k.
Proof using HT Hn Hempty.
  intros (sz & l' & x & HLi & Hi & Ha2 & Ha & Hx & _). rewrite Hn in Hi. injection Hi as Hi. apply Hx.
  eapply dir_empty_entry; [by apply (tr_dir _ _ HT ino sz); [|rewrite Hn, Hi]|by eapply Hempty|done|done].
Qed.

Lemma drop_entry_kd : entry L c kd j ino.
Proof using HL Hc Hj Hj2 He. by exists size, l, e. Qed.

Lemma drop_ne : ino ≠ kd.
Proof using All. intros E. pose proof drop_entry_kd as Hk. rewrite <- E in Hk at 1. by eapply drop_no_entry. Qed.

Lemma drop_linked a : a ≠ ino → L' a = L a.
Proof using. intros. unfold L'. by rewrite fn_lookup_insert_ne. Qed.
Lemma drop_linked_ino : L' ino = L ino - 1.
Proof using. unfold L'. by rewrite fn_lookup_insert. Qed.
Lemma drop_linked_lt a : 0 < L' a → 0 < L a.
Proof using. clear. destruct (decide (a = ino)) as [->|Ha]; [rewrite drop_linked_ino; lia|by rewrite drop_linked]. Qed.

Lemma drop_c_kd : c' kd = Some (NDir (size - sizeof_dirent) (<[j := clear_entry e]> l)).
Proof using All. rewrite Hc' by (left; apply not_eq_sym, drop_ne). by rewrite fn_lookup_insert. Qed.
Lemma drop_c_other a : a ≠ kd → a ≠ ino ∨ 0 < L' ino → c' a = c a.
Proof using Hc'. intros ? ?. by rewrite Hc', fn_lookup_insert_ne. Qed.

Lemma drop_entry d a k : entry L' c' d a k ↔ entry L c d a k ∧ (d, a, k) ≠ (kd, j, ino).
Proof using All.
  pose proof drop_ne as Hne. pose proof (lookup_lt_Some _ _ _ Hj). split.
  - intros (sz & l' & x & HLd & Hd & Ha2 & Ha & Hx & <-). pose proof (drop_linked_lt _ HLd) as HLd'.
    destruct (decide (d = kd)) as [->|Hdk].
    + rewrite drop_c_kd in Hd. injection Hd as <- <-. destruct (decide (j = a)) as [<-|Hja].
      * rewrite list_lookup_insert_eq in Ha by done. injection Ha as <-. done.
      * rewrite list_lookup_insert_ne in Ha by done. split; [by exists size, l, x|]. congruence.
    + rewrite drop_c_other in Hd; [|done|]. { split; [by exists sz, l', x|]. congruence. }
      destruct (decide (d = ino)) as [->|]; [by right|by left].
  - intros [(sz & l' & x & HLd & Hd & Ha2 & Ha & Hx & <-) Hnot].
    assert (Hdi : d ≠ ino). { intros ->. apply (drop_no_entry a (rd_ino x)). by exists sz, l', x. }
    rewrite <- drop_linked in HLd by done. destruct (decide (d = kd)) as [->|Hdk].
    + rewrite Hc in Hd. injection Hd as <- <-. assert (j ≠ a). { intros <-. apply Hnot. unfold ino. congruence. }
      eexists _, _, x. split_and!; [done|apply drop_c_kd|done| |done|done]. by rewrite list_lookup_insert_ne.
    + exists sz, l', x. rewrite drop_c_other by auto. done.
Qed.

Lemma drop_dir_ok k sz lk : 0 < L' k → c k = Some (NDir sz lk) → dir_ok L c k lk → dir_ok L' c' k lk.
Proof using All.
  intros HLk Hck [D1 D2 (p & D3 & Hp & D4) D5].
  assert (Hk : k ≠ ino). { intros ->. rewrite drop_linked_ino in HLk. lia. }
  assert (Hpi : if decide (k = 0) then True else p ≠ ino).
  { case_decide; [done|]. intros ->. destruct D4 as [a Ha]. by eapply drop_no_entry. }
  split; [by rewrite drop_linked|done| |done]. exists p. case_decide as Hk0.
  - subst. split_and!; try done.
  - rewrite drop_linked by done. split_and!; [done..|]. destruct D4 as [a Ha]. exists a. apply drop_entry. split; [done|]. congruence.
Qed.

Lemma tree_drop : tree L' c'.
Proof using All.
  pose proof drop_ne as Hne. pose proof (lookup_lt_Some _ _ _ Hj). pose proof drop_entry_kd as Hke.
  destruct (tr_links _ _ HT) as (E & HE1 & HE2 & HE3). pose proof (proj2 (HE2 _ _ _) Hke) as Hin.
  assert (Hcnt : (if decide (ino = 0) then 1 else 0) + 1 ≤ L ino).
  { assert (0 < count ino E) by (apply count_pos; eauto). specialize (HE3 ino). lia. }
  destruct (tr_root _ _ HT) as (H0 & sz0 & l0 & Hc0).
  assert (Hi0 : ino ≠ 0).
  { intros E0. rewrite E0, decide_True in Hcnt by done. pose proof (dk_one _ _ _ _ (tr_dir _ _ HT _ _ _ H0 Hc0)). lia. }
  split.
  - rewrite drop_linked by done. split; [done|]. destruct (decide (0 = kd)) as [E0|]; [rewrite E0, drop_c_kd; eauto|].
    rewrite drop_c_other by auto. eauto.
  - intros k Hk. destruct (decide (k = kd)) as [->|Hkk]; [rewrite drop_c_kd; eauto|].
    rewrite drop_c_other; [|done|].
    + by apply (tr_some _ _ HT), drop_linked_lt.
    + destruct (decide (k = ino)) as [->|]; [by right|by left].
  - intros k sz lk Hk Hck. destruct (decide (k = kd)) as [->|Hkk].
    + rewrite drop_c_kd in Hck. injection Hck as <- <-.
      destruct (drop_dir_ok kd size l) as [D1 D2 (p & D3 & D4) D5]; [done|done|by apply (tr_dir _ _ HT kd size)|].
      split; [done|by rewrite list_lookup_insert_ne by lia| |].
      * exists p. by rewrite list_lookup_insert_ne by lia.
      * eapply distinct_insert; [done..|]. simpl. auto.
    + assert (Hck' : c k = Some (NDir sz lk)).
      { rewrite <- drop_c_other; [done|done|]. destruct (decide (k = ino)) as [->|]; [by right|by left]. }
      eapply drop_dir_ok; [done..|]. apply (tr_dir _ _ HT k sz); [by apply drop_linked_lt|done].
  - exists (filter (.≠ (kd, j, ino)) E). split_and!; [by apply NoDup_filter| |].
    + intros d a k. rewrite list_elem_of_filter, HE2, drop_entry. naive_solver.
    + intros k. rewrite count_filter by done. simpl. specialize (HE3 k). destruct (decide (ino = k)) as [<-|Hk].
      * rewrite drop_linked_ino. lia.
      * rewrite drop_linked by done. lia.
Qed.
End Drop.

(** ** The directories stay *)

Lemma tree_dirs L c c' :
  (∀ k, 0 < L k → is_Some (c k) → is_Some (c' k)) →
  (∀ k size l, 0 < L k → c' k = Some (NDir size l) ↔ c k = Some (NDir size l)) → tree L c → tree L c'.
Proof.
  intros Hsome Hdir HT. assert (He : ∀ d j k, entry L c' d j k ↔ entry L c d j k).
  { intros d j k. split; intros (sz & l & e & HL & Hd & ?); exists sz, l, e; (split; [done|]; split; [by apply Hdir|done]). }
  split.
  - destruct (tr_root _ _ HT) as (H0 & sz & l & Hc). split; [done|]. exists sz, l. by apply Hdir.
  - intros k Hk. apply Hsome; [done|]. by apply (tr_some _ _ HT).
  - intros k sz l Hk Hc. destruct (tr_dir _ _ HT k sz l) as [D1 D2 (p & D3 & D4 & D5) D6]; [done|by apply Hdir|].
    split; try done. exists p. split_and!; [done..|]. case_decide; [done|]. by setoid_rewrite He.
  - destruct (tr_links _ _ HT) as (E & HE1 & HE2 & HE3). exists E. split_and!; [done| |done].
    intros. by rewrite He, HE2.
Qed.

Lemma tree_file L c c' k size page size' page' :
  tree L c → c k = Some (NFile size page) → (∀ a, c' a = <[k := Some (NFile size' page')]> c a) → tree L c'.
Proof.
  intros HT Hk Hc'. eapply tree_dirs; [..|exact HT].
  - intros a _ Ha. rewrite Hc'. destruct (decide (k = a)) as [<-|?]; [rewrite fn_lookup_insert; by eexists|].
    by rewrite fn_lookup_insert_ne.
  - intros a sz l _. rewrite Hc'. destruct (decide (k = a)) as [<-|?]; [rewrite fn_lookup_insert; naive_solver|].
    by rewrite fn_lookup_insert_ne.
Qed.

Lemma tree_adds L c kd name n ino c' :
  tree L c → adds c kd name n ino c' → 0 < L kd → name ≠ EmptyString → unused c kd name →
  (∀ size l, n ≠ NDir size l) ∨ n = new_dir kd ino → tree (<[ino := 1]> L) c'.
Proof.
  intros HT (size & l & j & e & Hc & Hsp & Hi & Hino & Hc') HL Hne Hun Hn. eapply tree_add; try done; [by eapply Hun|by left].
Qed.

(** An inode that is there gets another name. *)
Definition links c (kd : Z) (name : string) (ino : Z) (c' : Z → option node) : Prop := ∃ size l j e,
  c kd = Some (NDir size l) ∧ find_space l = Some (j, e) ∧
  ∀ a, c' a = <[kd := Some (NDir (size + sizeof_dirent) (<[j := Dirent ino name]> l))]> c a.

Lemma tree_links L c kd name n ino c' :
  tree L c → links c kd name ino c' → 0 < L kd → name ≠ EmptyString → unused c kd name →
  c ino = Some n → (∀ size l, n ≠ NDir size l) → 0 < L ino → tree (<[ino := L ino + 1]> L) c'.
Proof.
  intros HT (size & l & j & e & Hc & Hsp & Hc') HL Hne Hun Hi Hn HLi.
  eapply (tree_add L c kd name n ino); try done; [|by eapply Hun|by left|by right].
  intros a. rewrite Hc'. apply fn_insert_ext. intros b. destruct (decide (b = ino)) as [->|]; [by rewrite fn_lookup_insert|].
  by rewrite fn_lookup_insert_ne.
Qed.
End Tree.

(** * What the ramfs operations do to the tree *)

Section Makes.
Context {M : Type} `{KMemLaws M}.
Implicit Types (s : vfs M).

Lemma makes_adds L R P s k size l name len type devid ret R' ino s' :
  content s k = Some (NDir size l) → makes L R P s k size l name len type devid ret R' ino id s' →
  ret = 0 ∧ ∃ c', adds (content s) k (copy_name name len) (fresh_node type devid) ino c' ∧
    becomes (<[ino := 1]> L) R' P R s c' s'.
Proof.
  intros Hc (-> & Hi & Hn & j & e & Hsp & Hb). split; [done|]. eexists. split; [|exact Hb].
  exists size, l, j, e. done.
Qed.

Lemma makes_adds_dir L R P s k size l name len ret R' ino s' :
  content s k = Some (NDir size l) →
  makes L R P s k size l name len RAMFS_TYPE_DIR 0 ret R' ino <[ino := Some (new_dir k ino)]> s' →
  ret = 0 ∧ ∃ c', adds (content s) k (copy_name name len) (new_dir k ino) ino c' ∧
    becomes (<[ino := 1]> L) R' P R s c' s'.
Proof.
  intros Hc (-> & Hi & Hn & j & e & Hsp & Hb). split; [done|]. eexists. split; [|exact Hb].
  exists size, l, j, e. split_and!; try done. intros a. unfold entered. assert (ino ≠ k) by congruence.
  unfold insert, fn_insert. repeat case_decide; congruence.
Qed.
End Makes.
