(* ===== verification/NamevInv.v ===== *)
(** Path names are resolved component by component: the functions of Namev on a
    tree of directories whose entries name existing inodes. *)

From Stdlib Require Import Ascii.
From stdpp Require Import base functions numbers list gmap strings.
From S2P Require Import Prelude Sched Mutex PageAlloc Slab KMem Vfs VnodeInv Ramfs RamfsInv FsTree Namev.

Open Scope Z_scope.

(** * Components *)

(** The components of a path: the longest pieces without a slash. *)
Fixpoint comps (cur s : string) : list string :=
  match s with
  | EmptyString => if bool_decide (cur = EmptyString) then [] else [cur]
  | String c s' =>
      if bool_decide (c = slash) then
        if bool_decide (cur = EmptyString) then comps EmptyString s' else cur :: comps EmptyString s'
      else comps (cur +:+ String c EmptyString) s'
  end.

(** How dir_namev takes a path apart: the directories it passes, and what it
    leaves in name and namelen. *)
Fixpoint parse (fuel : nat) (start : string) : list (string * Z) * (string * Z) :=
  match seek_slash start with
  | None => ([], (start, strlen start))
  | Some b =>
      let e := skip_slashes b in
      if negb (strlen b =? 1) && negb (bool_decide (e = EmptyString)) then
        match fuel with
        | O => ([], (start, strlen start))
        | S fuel => let '(ds, r) := parse fuel e in ((start, strlen start - strlen b) :: ds, r)
        end
      else ([], (start, strlen start - strlen b))
  end.

Lemma app_cons c a b : String c a +:+ b = String c (a +:+ b).
Proof. done. Qed.
Lemma app_cons_l cur c s : cur +:+ String c s = (cur +:+ String c EmptyString) +:+ s.
Proof. induction cur as [|a cur IH]; [done|]. by rewrite !app_cons, IH. Qed.
Lemma app_empty_r s : s +:+ EmptyString = s.
Proof. induction s as [|a s IH]; [done|]. by rewrite app_cons, IH. Qed.
Lemma strlen_app a b : strlen (a +:+ b) = strlen a + strlen b.
Proof. unfold strlen. induction a as [|c a IH]; [done|]. rewrite app_cons. simpl. lia. Qed.
Lemma strlen_nonneg a : 0 ≤ strlen a.
Proof. unfold strlen. lia. Qed.
Lemma strlen_zero a : strlen a = 0 → a = EmptyString.
Proof. unfold strlen. destruct a; simpl; [done|lia]. Qed.

Lemma prefix_of_app a b : prefix_of (a +:+ b) (strlen a) = a.
Proof.
  unfold prefix_of, strlen. rewrite Nat2Z.id. induction a as [|c a IH]; [by destruct b|]. rewrite app_cons. simpl. by rewrite IH.
Qed.
Lemma prefix_of_all a : prefix_of a (strlen a) = a.
Proof. by rewrite <- (app_empty_r a) at 1; rewrite prefix_of_app. Qed.

Lemma seek_slash_Some s b : seek_slash s = Some b →
  ∃ a b', s = a +:+ b ∧ seek_slash a = None ∧ b = String slash b'.
Proof.
  induction s as [|c s IH]; [done|]. simpl. case_bool_decide as Hc.
  - intros [= <-]. exists EmptyString, s. by subst c.
  - intros (a & b' & -> & Ha & ->)%IH. exists (String c a), b'. split; [done|]. simpl. by rewrite bool_decide_eq_false_2.
Qed.

Lemma comps_app cur a b : seek_slash a = None → comps cur (a +:+ b) = comps (cur +:+ a) b.
Proof.
  revert cur. induction a as [|c a IH]; intros cur; [by rewrite app_empty_r|].
  rewrite app_cons. simpl. case_bool_decide as Hc; [done|]. intros Ha. rewrite IH by done. by rewrite <- app_cons_l.
Qed.

Lemma comps_slashes b : comps EmptyString (skip_slashes b) = comps EmptyString b.
Proof. induction b as [|c b IH]; [done|]. simpl. case_bool_decide as Hc; [|simpl; by rewrite bool_decide_eq_false_2]. by rewrite IH. Qed.

Lemma skip_slashes_le b : (String.length (skip_slashes b) ≤ String.length b)%nat.
Proof. induction b as [|c b IH]; [done|]. simpl. case_bool_decide; simpl; lia. Qed.

(** A string that does not start with a slash. *)
Definition starts_slash (s : string) : bool := if s is String c _ then bool_decide (c = slash) else false.

Lemma skip_slashes_start b : starts_slash (skip_slashes b) = false.
Proof. induction b as [|c b IH]; [done|]. simpl. case_bool_decide as Hc; [done|]. simpl. by case_bool_decide. Qed.

(** A piece of a path with its length is a component. *)
Definition piece_of (p : string * Z) : string := prefix_of p.1 p.2.
Definition piece_ok (p : string * Z) : Prop := strlen (piece_of p) = p.2 ∧ 0 < p.2 ∧ p.1 ≠ EmptyString.

Lemma no_start a b : starts_slash (a +:+ String slash b) = false → a ≠ EmptyString.
Proof. by intros H ->. Qed.

(** The name at the end, if there is one. *)
Definition last_comp (p : string * Z) : list string := if p.2 =? 0 then [] else [piece_of p].

Lemma parse_spec fuel start :
  (String.length start ≤ fuel)%nat → starts_slash start = false →
  let '(ds, r) := parse fuel start in
  comps EmptyString start = (piece_of <$> ds) ++ last_comp r ∧ Forall piece_ok ds ∧
  (piece_ok r ∨ r = (EmptyString, 0)).
Proof.
  revert start. induction fuel as [|fuel IH]; intros start Hlen Hst; simpl.
  { assert (start = EmptyString) as -> by (destruct start; simpl in *; [done|lia]). simpl. auto. }
  destruct (seek_slash start) as [b|] eqn:Hsk.
  - apply seek_slash_Some in Hsk as (a & b' & -> & Ha & ->). pose proof (no_start _ _ Hst) as Hne.
    assert (Hsl : 0 < strlen a). { pose proof (strlen_nonneg a). pose proof (strlen_zero a). destruct (decide (strlen a = 0)); [tauto|lia]. }
    assert (Elen : strlen (a +:+ String slash b') - strlen (String slash b') = strlen a) by (rewrite strlen_app; lia).
    assert (Hok : piece_ok (a +:+ String slash b', strlen a) ∧ piece_of (a +:+ String slash b', strlen a) = a).
    { unfold piece_ok, piece_of. simpl. rewrite prefix_of_app. split_and!; [done..|by destruct a|done]. }
    rewrite Elen. rewrite comps_app by done. change (EmptyString +:+ a) with a. cbn [comps].
    rewrite (bool_decide_eq_true_2 (slash = slash)), (bool_decide_eq_false_2 (a = EmptyString)) by done.
    assert (Hskip : comps EmptyString b' = comps EmptyString (skip_slashes (String slash b'))).
    { simpl. by rewrite comps_slashes. }
    destruct (negb (strlen (String slash b') =? 1) && negb (bool_decide (skip_slashes (String slash b') = EmptyString))) eqn:Hcond.
    + specialize (IH (skip_slashes (String slash b'))).
      destruct (parse fuel (skip_slashes (String slash b'))) as [ds r]. destruct IH as (IH1 & IH2 & IH3).
      * pose proof (skip_slashes_le (String slash b')). simpl in *.
        assert (String.length (a +:+ String slash b') = String.length a + S (String.length b'))%nat as E.
        { pose proof (strlen_app a (String slash b')). unfold strlen in *. simpl in *. lia. }
        destruct a; [done|]. simpl in *. lia.
      * apply skip_slashes_start.
      * rewrite Hskip, IH1, fmap_cons, (proj2 Hok). split_and!; [done|constructor; [apply Hok|done]|done].
    + assert (E : comps EmptyString b' = []).
      { apply andb_false_iff in Hcond as [Hc|Hc]; apply negb_false_iff in Hc.
        - destruct b'; [done|]. apply Z.eqb_eq in Hc. unfold strlen in Hc. simpl in Hc. lia.
        - apply bool_decide_eq_true in Hc. by rewrite Hskip, Hc. }
      rewrite E. unfold last_comp. simpl. destruct (Z.eqb_spec (strlen a) 0); [lia|]. rewrite (proj2 Hok).
      split_and!; [done..|]. left. apply Hok.
  - rewrite <- (app_empty_r start) at 1. rewrite comps_app by done. simpl. unfold last_comp, piece_ok, piece_of. simpl.
    rewrite prefix_of_all. pose proof (strlen_nonneg start). destruct (decide (start = EmptyString)) as [->|Hne].
    + split_and!; [done..|auto].
    + rewrite bool_decide_eq_false_2 by done. pose proof (strlen_zero start). destruct (Z.eqb_spec (strlen start) 0); [tauto|].
      split_and!; [done..|]. left. split_and!; [done|lia|done].
Qed.

(** * Directories *)

(** The directory a list of names leads to, or the error. *)
Fixpoint resolve (c : Z → option node) (k : Z) (names : list string) : Z + Z :=
  match names with
  | [] => inr k
  | name :: names =>
      match c k with
      | Some (NDir _ l) =>
          match dir_get l name with
          | Some (_, e) =>
              match c (rd_ino e) with Some (NDir _ _) => resolve c (rd_ino e) names | _ => inl ENOTDIR end
          | None => inl ENOENT
          end
      | _ => inl ENOTDIR
      end
  end.

(** The inode that stands where a directory is needed, when there is one: its
    vnode has been looked up and stays referenced. *)
Fixpoint stopped_at (c : Z → option node) (k : Z) (names : list string) : list Z :=
  match names with
  | [] => []
  | name :: names =>
      match c k with
      | Some (NDir _ l) =>
          match dir_get l name with
          | Some (_, e) =>
              match c (rd_ino e) with Some (NDir _ _) => stopped_at c (rd_ino e) names | _ => [rd_ino e] end
          | None => []
          end
      | _ => []
      end
  end.

Section Walk.
Context {M : Type} `{KMemLaws M}.
Implicit Types (s : vfs M) (c : Z → option node).

(** What looking up one name does. *)
Definition looked_up L R P s (k : Z) (name : string) (ret v : Z) s' : Prop :=
  match content s k with
  | Some (NDir _ l) =>
      match dir_get l name with
      | Some (_, e) => ret = 0 ∧ got L R P s (rd_ino e) v s'
      | None => ret = - ENOENT ∧ v = NULL ∧ s' = s
      end
  | _ => ret = - ENOTDIR ∧ v = NULL ∧ s' = s
  end.

Lemma isdir_view L R P s d k n :
  vninv L R P s → vno_at s d = Some k → content s k = Some n → ∃ x, v_vnodes s !! d = Some x ∧ vn_vno x = k ∧
    S_ISDIR (vn_mode x) = (if n is NDir _ _ then true else false) ∧ vn_ops x = Some (vnode_ops (node_type n)) ∧ (d =? NULL) = false.
Proof.
  intros HI (x & Hx & E)%vno_at_Some Hn. destruct (vnode_view _ _ _ _ _ _ HI Hx) as (i & n' & _ & Hn' & Hni & Hm & Ho & _).
  rewrite E, Hn in Hn'. injection Hn' as <-. exists x. pose proof (vk_pos _ _ _ _ (vi_vnode _ _ _ _ HI d x Hx)).
  split_and!; [done..| |done|unfold NULL; lia]. rewrite Hm. destruct n; [done..|]. by destruct Hni as [[-> | ->] _].
Qed.

Lemma lookup_name_wp L R P s d k n name len :
  vninv L R P s → vno_at s d = Some k → content s k = Some n → 0 < L k → sound L (content s) →
  piece_ok (name, len) →
  wp may_overflow (lookup d name len) (λ '(ret, v) s', looked_up L R P s k (piece_of (name, len)) ret v s') s.
Proof.
  intros HI Hd Hn HL Hs (Hlen & Hpos & Hne). unfold piece_of in *. simpl in *.
  destruct (isdir_view _ _ _ _ _ _ _ HI Hd Hn) as (x & Hx & Ex & Hdir & Ho & Hnull). unfold looked_up. rewrite Hn.
  apply wp_bind, wp_assert; [by rewrite Hnull|]. apply wp_bind. eapply wp_run; [by apply get_vnode_run|].
  rewrite Hdir. destruct n as [| size l |]; [done| |done]. simpl.
  destruct (Z.eqb_spec (strlen name) 0); [by apply strlen_zero in e|].
  apply wp_bind. eapply wp_run; [unfold get_ops; vrun; by rewrite Ho|]. simpl.
  eapply wp_mono; [eapply lookup_wp; [done..|]|].
  - intros j e He. rewrite find_entry_piece in He by done. eapply sound_get; try done. intros E.
    rewrite E in Hlen. unfold strlen in Hlen. simpl in Hlen. lia.
  - intros [ret v] s'. by rewrite find_entry_piece by done.
Qed.

(** Nothing changed, but one reference to the vnode of each of the inodes [ks] is
    left behind. *)
Definition leaves (ks : list Z) L R P s s' : Prop := ∃ vs,
  Forall2 (λ v k, vno_at s' v = Some k) vs ks ∧ becomes L (vs ++ R) P R s (content s) s'.

Lemma leaves_nil L R P s s' : becomes L R P R s (content s) s' → leaves [] L R P s s'.
Proof. intros Hb. by exists []. Qed.

Lemma leaves_one L R P s v k s' : becomes L (v :: R) P R s (content s) s' → vno_at s' v = Some k → leaves [k] L R P s s'.
Proof. intros Hb Hv. exists [v]. split; [by repeat constructor|done]. Qed.

(** What resolving the directories of a path does: the vnode of the directory is
    held, or there is an error, and what is not a directory stays referenced. *)
Definition walked L R P s (k : Z) (ds : list (string * Z)) (r : string * Z) (res : dir_result) s' : Prop :=
  match resolve (content s) k (piece_of <$> ds) with
  | inr k' => dn_ret res = 0 ∧ dn_name res = r.1 ∧ dn_namelen res = r.2 ∧ got L R P s k' (dn_vnode res) s'
  | inl err => res = dn_error (- err) ∧ 0 < err ∧ leaves (stopped_at (content s) k (piece_of <$> ds)) L R P s s'
  end.

Lemma walk_done L R P s d k start len :
  vninv L (d :: R) P s → vno_at s d = Some k → walked L R P s k [] (start, len) (DirResult 0 d start len) s.
Proof. intros HI Hd. split_and!; done. Qed.

(** One step of the walk: on to a directory below. *)
Lemma resolve_ext c c' names k : (∀ a, c' a = c a) → resolve c' k names = resolve c k names.
Proof.
  intros Hc. revert k. induction names as [|n names IH]; intros k; [done|]. simpl. rewrite Hc. destruct (c k) as [[]|]; try done.
  destruct (dir_get entries n) as [[? e']|]; [|done]. rewrite Hc. by destruct (c (rd_ino e')) as [[]|].
Qed.

Lemma stopped_at_ext c c' names k : (∀ a, c' a = c a) → stopped_at c' k names = stopped_at c k names.
Proof.
  intros Hc. revert k. induction names as [|n names IH]; intros k; [done|]. simpl. rewrite Hc. destruct (c k) as [[]|]; try done.
  destruct (dir_get entries n) as [[? e']|]; [|done]. rewrite Hc. by destruct (c (rd_ino e')) as [[]|].
Qed.

Lemma walked_frame L R P s s' k ds r res s'' :
  vframe R s s' → (∀ a, content s' a = content s a) → walked L R P s' k ds r res s'' → walked L R P s k ds r res s''.
Proof.
  intros Hf Hcc. unfold walked. rewrite (resolve_ext (content s)), (stopped_at_ext (content s)) by done.
  destruct (resolve (content s) k (piece_of <$> ds)).
  - intros (? & ? & vs & ? & ? & ? & Hca). split_and!; try done. exists vs. split; [done|].
    split_and!; [done|by eapply vframe_trans|]. intros a. by rewrite Hca.
  - intros (? & ? & ? & ? & ? & Hca & ?). split_and!; try done. split_and!; [done|by eapply vframe_trans| |done].
    intros a. by rewrite Hca.
Qed.

Lemma walked_step L R P s k size l e j s' ds r res s'' name size' l' :
  content s k = Some (NDir size l) → dir_get l (piece_of name) = Some (j, e) → content s (rd_ino e) = Some (NDir size' l') →
  vframe R s s' → (∀ a, content s' a = content s a) →
  walked L R P s' (rd_ino e) ds r res s'' → walked L R P s k (name :: ds) r res s''.
Proof.
  intros Hc Hg Hc' Hf Hcc Hw. apply (walked_frame _ _ _ s) in Hw; [|done..].
  unfold walked. rewrite fmap_cons. cbn [resolve stopped_at]. by rewrite Hc, Hg, Hc'.
Qed.

Lemma walk_step_wp L R P s d k size l start len ds r (cont : Z → vM M dir_result) :
  vninv L (d :: R) P s → vno_at s d = Some k → 0 < L k → sound L (content s) → content s k = Some (NDir size l) →
  piece_ok (start, len) →
  (∀ v k' size' l' s1, vninv L (v :: R) P s1 → vno_at s1 v = Some k' → 0 < L k' → sound L (content s1) →
     content s1 k' = Some (NDir size' l') → wp may_overflow (cont v) (walked L R P s1 k' ds r) s1) →
  wp may_overflow (let* (ret, result) := lookup d start len in
    vput d ;;;
    if ret <? 0 then kret (dn_error ret)
    else let* y := get_vnode result in
         if negb (S_ISDIR (vn_mode y)) then kret (dn_error (- ENOTDIR)) else cont result)
    (walked L R P s k ((start, len) :: ds) r) s.
Proof.
  intros HI Hd HL Hs Hc Hok Hcont. apply wp_bind. eapply wp_mono; [by eapply lookup_name_wp|].
  intros [ret v] s1. unfold looked_up. rewrite Hc. destruct (dir_get l (piece_of (start, len))) as [[j e]|] eqn:Hg.
  - intros [-> (HI1 & Hf1 & Hc1 & Hv)]. simpl.
    destruct (sound_get _ _ _ _ _ _ _ _ Hs HL Hc Hg) as [HLe [n Hn]].
    { intros E. destruct Hok as (Hl & Hp & _). rewrite E in Hl. unfold strlen in Hl. simpl in *. lia. }
    destruct (vput_run L (v :: R) P s1 d k) as (s2 & Hr & HI2 & Hf2 & Hc2).
    { eapply vninv_perm; [|done|exact HI1]. solve_Permutation. }
    { by rewrite (fr_vnode _ _ _ Hf1) by set_solver. }
    apply wp_bind. eapply wp_run; [exact Hr|].
    assert (Hcc : ∀ a, content s2 a = content s a). { intros a. rewrite Hc2; [done|]. right. by left. }
    assert (Hf : vframe R s s2). { eapply vframe_trans; eapply vframe_weaken; [|exact Hf1| |exact Hf2]; set_solver. }
    assert (Hv2 : vno_at s2 v = Some (rd_ino e)) by (rewrite (fr_vnode _ _ _ Hf2) by set_solver; done).
    destruct (isdir_view _ _ _ _ _ _ n HI2 Hv2) as (x & Hx & _ & Hdir & _); [by rewrite Hcc|].
    apply wp_bind. eapply wp_run; [by apply get_vnode_run|]. rewrite Hdir. destruct n as [|size' l'|]; simpl.
    2: { eapply wp_mono; [eapply Hcont; try done; [|by rewrite Hcc]|].
         - intros ? ? ? ? ?. rewrite !Hcc. by apply Hs.
         - intros res s3. by eapply walked_step. }
    all: unfold walked; rewrite fmap_cons; cbn [resolve stopped_at]; rewrite Hc, Hg, Hn; split_and!; [done..|];
      by eapply leaves_one.
  - intros (-> & -> & ->). simpl. destruct (vput_run _ _ _ _ _ _ HI Hd) as (s2 & Hr & HI2 & Hf2 & Hc2).
    apply wp_bind. eapply wp_run; [exact Hr|]. unfold walked. rewrite fmap_cons. cbn [resolve stopped_at]. rewrite Hc, Hg.
    apply wp_ret. split_and!; [done..|]. apply leaves_nil. split_and!; [done..|]. intros a. apply Hc2. right. by left.
Qed.

Lemma walk_wp fuel : ∀ n d start brk L R P s k size l,
  (String.length start ≤ n)%nat → (String.length start ≤ fuel)%nat → (0 < fuel)%nat → brk ≠ EmptyString →
  starts_slash start = false → vninv L (d :: R) P s → vno_at s d = Some k → 0 < L k → sound L (content s) →
  content s k = Some (NDir size l) →
  wp may_overflow (walk fuel d start brk) (walked L R P s k (parse n start).1 (parse n start).2) s.
Proof.
  induction fuel as [|fuel IH]; intros n d start brk L R P s k size l Hn Hfl Hfuel Hbrk Hst HI Hd HL Hs Hc; [lia|].
  cbn [walk]. rewrite (bool_decide_eq_false_2 (brk = EmptyString)) by done.
  pose proof (parse_spec n start Hn Hst) as Hp.
  destruct n as [|n]; simpl in *;
    (destruct (seek_slash start) as [b|] eqn:Hsk; [|by apply wp_ret, walk_done]);
    (destruct (negb (strlen b =? 1) && negb (bool_decide (skip_slashes b = EmptyString))) eqn:Hcond;
      [|by apply wp_ret, walk_done]).
  { apply seek_slash_Some in Hsk as (a & b' & -> & _ & ->). destruct a; simpl in Hn; lia. }
  apply andb_true_iff in Hcond as [_ He%negb_true_iff%bool_decide_eq_false].
  assert (Hlen : (String.length (skip_slashes b) < String.length start)%nat).
  { apply seek_slash_Some in Hsk as (a & b' & -> & _ & ->). pose proof (no_start _ _ Hst).
    pose proof (skip_slashes_le (String slash b')). pose proof (strlen_app a (String slash b')).
    unfold strlen in *. destruct a; [done|]. simpl in *. lia. }
  assert (Hlen' : (0 < String.length (skip_slashes b))%nat) by (destruct (skip_slashes b); simpl; [done|lia]).
  pose proof (skip_slashes_start b) as Hst'. specialize (IH n).
  destruct (isdir_view _ _ _ _ _ _ _ HI Hd Hc) as (x & Hx & _ & Hdir & _ & Hnull). rewrite Hnull.
  apply wp_bind. eapply wp_run; [by apply get_vnode_run|]. rewrite Hdir. simpl.
  destruct (parse n (skip_slashes b)) as [ds r] eqn:Hpe. destruct Hp as (_ & Hp & _). simpl.
  eapply walk_step_wp; try done; [by inversion Hp|].
  intros v k' size' l' s1 ? ? ? ? ?. specialize (IH v (skip_slashes b) (skip_slashes b) L R P s1 k' size' l').
  rewrite Hpe in IH. apply IH; try done; lia.
Qed.

(** ** dir_namev *)

(** Where a path starts, and what is left of it there. *)
Definition path_dir s (path : string) : Z := if starts_slash path then v_root s else v_p_cwd s.
Definition path_rest (path : string) : string :=
  if path is String c rest then if bool_decide (c = slash) then rest else path else path.
Definition parsed (path : string) : list (string * Z) * (string * Z) := parse (String.length path) (path_rest path).

(** The state a path name is resolved in: the root and the working directory are
    held, and the directories form a tree. *)
Record paths_ok (L : Z → Z) (R : list Z) s : Prop := {
  po_root : v_root s ∈ R ∧ vno_at s (v_root s) = Some 0;
  po_cwd : v_p_cwd s ∈ R ∧ ∃ k size l, vno_at s (v_p_cwd s) = Some k ∧ 0 < L k ∧ content s k = Some (NDir size l);
  po_tree : tree L (content s)
}.

Lemma path_start L R s path : paths_ok L R s →
  path_dir s path ∈ R ∧ ∃ k size l, vno_at s (path_dir s path) = Some k ∧ 0 < L k ∧ content s k = Some (NDir size l).
Proof.
  intros [[R1 R2] C HT]. unfold path_dir. destruct (starts_slash path); [|done]. split; [done|]. exists 0.
  destruct (tr_root _ _ HT) as (? & sz & l & ?). by exists sz, l.
Qed.

Lemma path_rest_length path : (String.length (path_rest path) ≤ String.length path)%nat.
Proof. destruct path as [|c path]; simpl; [done|]. case_bool_decide; simpl; lia. Qed.

Lemma dir_namev_unfold s path :
  dir_namev path NULL s = ((if path_dir s path =? NULL then kret tt
    else let* x := get_vnode (path_dir s path) in vget (vn_vno x) ;;; kret tt) ;;;
    walk (String.length path) (path_dir s path) (path_rest path) path) s.
Proof.
  unfold dir_namev, path_dir, path_rest. cbv [kget]. simpl. destruct path as [|c path]; simpl; [done|]. by case_bool_decide.
Qed.

Lemma dir_namev_wp L R P s path k :
  vninv L R P s → paths_ok L R s → vno_at s (path_dir s path) = Some k → starts_slash (path_rest path) = false →
  wp may_overflow (dir_namev path NULL) (walked L R P s k (parsed path).1 (parsed path).2) s.
Proof.
  intros HI HP Hk Hst. destruct (path_start _ _ _ path HP) as (Hdr & k' & sz & l & Hd & HL & Hc).
  assert (k' = k) as -> by congruence. clear Hk.
  eapply wp_eq; [apply dir_namev_unfold|]. set (d := path_dir s path) in *.
  destruct (isdir_view _ _ _ _ _ _ _ HI Hd Hc) as (x & Hx & Ex & _ & _ & ->).
  apply wp_bind, wp_bind. eapply wp_run; [by apply get_vnode_run|]. apply wp_bind. rewrite Ex.
  eapply wp_mono; [apply vget_wp; [done|by eexists]|]. intros v s1 (HI1 & Hf1 & Hc1 & Hv). apply wp_ret.
  assert (v = d) as ->.
  { apply vno_at_Some in Hv as (y & Hy & Ey). pose proof (fr_vnode _ _ _ Hf1 d Hdr) as Hd1. rewrite Hd in Hd1.
    apply vno_at_Some in Hd1 as (z & Hz & Ez). eapply (vi_inj _ _ _ _ HI1); [done..|congruence]. }
  eapply wp_mono.
  2: { intros res s2 Hw. apply (walked_frame L R P s s1); [done..|exact Hw]. }
  destruct (decide (path = EmptyString)) as [->|Hne]; [by apply wp_ret, walk_done|].
  pose proof (path_rest_length path). unfold parsed. eapply walk_wp; try done.
  - destruct path; simpl in *; [done|lia].
  - intros ? ? ? ? ?. rewrite !Hc1. by apply (tree_sound _ _ (po_tree _ _ _ HP)).
  - by rewrite Hc1.
Qed.

(** ** The last name *)

(** What the last name of a path names in the directory [kd]; no name is the
    directory itself. *)
Definition found (c : Z → option node) (kd : Z) (r : string * Z) : option Z :=
  if r.2 =? 0 then Some kd
  else if c kd is Some (NDir _ l) then (λ x, rd_ino x.2) <$> dir_get l (piece_of r) else None.

Definition last_ok (r : string * Z) : Prop := piece_ok r ∨ r = (EmptyString, 0).

Lemma parsed_ok path : starts_slash (path_rest path) = false →
  Forall piece_ok (parsed path).1 ∧ last_ok (parsed path).2.
Proof.
  intros Hst. pose proof (parse_spec (String.length path) (path_rest path) (path_rest_length path) Hst) as Hp.
  unfold parsed. destruct (parse _ _) as [ds r]. destruct Hp as (_ & ? & ?). done.
Qed.

Lemma vref_wp L R P s d k : vninv L R P s → vno_at s d = Some k →
  wp may_overflow (vref d) (λ _ s', got L R P s k d s') s.
Proof.
  intros HI Hd. pose proof Hd as (x & Hx & Ex)%vno_at_Some. destruct (vref_run _ _ _ _ _ _ HI Hx) as [Hr HI'].
  destruct (vn_refcount x <? INT_MAX); [|by unfold wp; rewrite Hr].
  eapply wp_run; [exact Hr|]. split_and!; [done|apply vframe_ref|by intros; apply content_same|].
  unfold vno_at. simpl. by rewrite lookup_alter_eq, Hx, <- Ex.
Qed.

Lemma lookup_last_wp L R P s d kd size l r :
  vninv L R P s → vno_at s d = Some kd → content s kd = Some (NDir size l) → 0 < L kd → sound L (content s) → last_ok r →
  wp may_overflow (lookup d r.1 r.2) (λ '(ret, v) s',
    match found (content s) kd r with
    | Some k' => ret = 0 ∧ got L R P s k' v s'
    | None => ret = - ENOENT ∧ v = NULL ∧ s' = s
    end) s.
Proof.
  intros HI Hd Hc HL Hs [Hok| ->].
  - destruct r as [name len]. eapply wp_mono; [by eapply lookup_name_wp|]. intros [ret v] s'.
    unfold looked_up, found. rewrite Hc. destruct Hok as (_ & Hpos & _). simpl in *.
    destruct (Z.eqb_spec len 0); [lia|]. by destruct (dir_get l (piece_of (name, len))) as [[? e]|].
  - destruct (isdir_view _ _ _ _ _ _ _ HI Hd Hc) as (x & Hx & _ & Hdir & _ & Hnull). unfold lookup. simpl.
    apply wp_bind, wp_assert; [by rewrite Hnull|]. apply wp_bind. eapply wp_run; [by apply get_vnode_run|].
    rewrite Hdir. simpl. apply wp_bind. eapply wp_mono; [by apply vref_wp|]. intros [] s' Hg. by apply wp_ret.
Qed.

(** Giving up the reference to the directory at the end. *)
Lemma vput_becomes L R R1 P s c d k s1 :
  becomes L (d :: R1) P R s c s1 → R ⊆ R1 → vno_at s1 d = Some k → 0 < L k →
  ∃ s2, vput d s1 = RRet tt s2 ∧ becomes L R1 P R s c s2 ∧ ∀ w, w ∈ R1 → vno_at s2 w = vno_at s1 w.
Proof.
  intros (HI1 & Hf1 & Hc1) Hsub Hd HL. destruct (vput_run _ _ _ _ _ _ HI1 Hd) as (s2 & Hr & HI2 & Hf2 & Hc2).
  exists s2. split_and!; [done| |apply Hf2]. split_and!; [done| |].
  - eapply vframe_trans; [done|]. by eapply vframe_weaken.
  - intros a. rewrite Hc2; [done|]. right. by left.
Qed.

Lemma vput_becomes_wp {A} L R R' R1 P s c d k s1 (e : A) Q :
  becomes L R' P R s c s1 → R' ≡ₚ d :: R1 → R ⊆ R1 → vno_at s1 d = Some k → 0 < L k →
  (∀ s2, becomes L R1 P R s c s2 → (∀ w, w ∈ R1 → vno_at s2 w = vno_at s1 w) → Q e s2) →
  wp may_overflow (vput d ;;; kret e) Q s1.
Proof.
  intros (HI1 & Hf1 & Hc1) HP Hsub Hd HL HQ.
  destruct (vput_becomes L R R1 P s c d k s1) as (s2 & Hr & Hb & Hw); [|done..|].
  { split_and!; [by eapply vninv_perm|done..]. }
  apply wp_bind. eapply wp_run; [exact Hr|]. apply wp_ret. auto.
Qed.

(** ** The directory of a path *)

(** The inode of the directory a path leads to, and the last name. *)
Definition parent_of s (path : string) : Z + Z :=
  if vno_at s (path_dir s path) is Some k then resolve (content s) k (piece_of <$> (parsed path).1) else inl ENOENT.

Definition stuck s (path : string) : list Z :=
  if vno_at s (path_dir s path) is Some k then stopped_at (content s) k (piece_of <$> (parsed path).1) else [].

Lemma resolve_dir L c names : sound L c → Forall (λ n, n ≠ EmptyString) names → ∀ k size l kd,
  0 < L k → c k = Some (NDir size l) → resolve c k names = inr kd →
  0 < L kd ∧ ∃ size l, c kd = Some (NDir size l).
Proof.
  intros Hs. induction 1 as [|name names Hn _ IH]; intros k size l kd HL Hc; simpl; [intros [= <-]; eauto|].
  rewrite Hc. destruct (dir_get l name) as [[j e]|] eqn:Hg; [|done].
  destruct (sound_get _ _ _ _ _ _ _ _ Hs HL Hc Hg Hn) as [HLe _].
  destruct (c (rd_ino e)) as [[|sz' l'|]|] eqn:Hc'; try done. by eapply IH.
Qed.

Record at_dir L R P s (kd size : Z) (l : list ramfs_dirent) (d : Z) s1 : Prop := {
  ad_becomes : becomes L (d :: R) P R s (content s) s1;
  ad_vno : vno_at s1 d = Some kd;
  ad_linked : 0 < L kd;
  ad_content : content s kd = Some (NDir size l)
}.

Lemma piece_nonempty p : piece_ok p → piece_of p ≠ EmptyString.
Proof. intros (Hl & Hp & _) E. rewrite E in Hl. unfold strlen in Hl. simpl in Hl. lia. Qed.

Definition found_dir L R P s path (res : dir_result) s1 : Prop :=
  match parent_of s path with
  | inl err => res = dn_error (- err) ∧ 0 < err ∧ leaves (stuck s path) L R P s s1
  | inr kd => ∃ size l, dn_ret res = 0 ∧ dn_name res = (parsed path).2.1 ∧ dn_namelen res = (parsed path).2.2 ∧
      at_dir L R P s kd size l (dn_vnode res) s1
  end.

Lemma parent_wp L R P s path :
  vninv L R P s → paths_ok L R s → starts_slash (path_rest path) = false →
  wp may_overflow (dir_namev path NULL) (found_dir L R P s path) s.
Proof.
  intros HI HP Hst. destruct (path_start _ _ _ path HP) as (Hdr & k & sz & l & Hd & HL & Hc).
  eapply wp_mono; [by eapply dir_namev_wp|]. intros res s1. unfold walked, found_dir, parent_of, stuck. rewrite Hd.
  destruct (resolve _ _ _) as [err|kd] eqn:Hr; [done|]. intros (-> & -> & -> & Hg).
  destruct (parsed_ok path Hst) as [Hok _].
  eapply resolve_dir in Hr as (HLd & sz' & l' & Hc'); [|by eapply tree_sound, po_tree| |done..].
  - exists sz', l'. split_and!; try done. split; try done; [by eapply becomes_got|apply Hg].
  - rewrite Forall_fmap. eapply Forall_impl; [exact Hok|]. intros p Hp. by apply piece_nonempty.
Qed.

Lemma found_linked L c kd size l r k' :
  sound L c → 0 < L kd → c kd = Some (NDir size l) → last_ok r → found c kd r = Some k' → 0 < L k' ∧ is_Some (c k').
Proof.
  intros Hs HL Hc Hr. unfold found. rewrite Hc. destruct (Z.eqb_spec r.2 0); [intros [= <-]; by eauto|].
  destruct (dir_get l (piece_of r)) as [[j e]|] eqn:Hg; [|done]. simpl. intros [= <-]. eapply sound_get; try done.
  destruct Hr as [Hr| ->]; [by apply piece_nonempty|done].
Qed.

Lemma found_None c kd size l r : c kd = Some (NDir size l) → last_ok r → found c kd r = None →
  piece_ok r ∧ dir_get l (piece_of r) = None ∧ find_entry r.1 r.2 l = None.
Proof.
  intros Hc Hr. unfold found. rewrite Hc. destruct (Z.eqb_spec r.2 0); [done|].
  destruct Hr as [Hr| ->]; [|done]. destruct (dir_get l (piece_of r)) eqn:Hg; [done|]. intros _. split_and!; [done..|].
  rewrite find_entry_piece by apply Hr. done.
Qed.

(** The lookup of the last name, with the directory held. *)
Lemma lookup_at_wp L R P s kd size l d s1 r :
  at_dir L R P s kd size l d s1 → sound L (content s) → last_ok r →
  wp may_overflow (lookup d r.1 r.2) (λ '(ret, v) s2,
    match found (content s) kd r with
    | Some k' => ret = 0 ∧ becomes L (v :: d :: R) P R s (content s) s2 ∧ vno_at s2 v = Some k' ∧ vno_at s2 d = Some kd
    | None => ret = - ENOENT ∧ v = NULL ∧ s2 = s1
    end) s1.
Proof.
  intros [(HI1 & Hf1 & Hc1) Hd HL Hc] Hs Hr.
  assert (Hs1 : sound L (content s1)) by (intros ? ? ? ? ?; rewrite !Hc1; apply Hs).
  eapply wp_mono; [eapply (lookup_last_wp L (d :: R) P s1 d kd size l r); try done; by rewrite Hc1|].
  intros [ret v] s2. assert (Ef : found (content s1) kd r = found (content s) kd r) by (unfold found; by rewrite Hc1).
  rewrite Ef. destruct (found (content s) kd r) as [k'|]; [|done]. intros (-> & HI2 & Hf2 & Hc2 & Hv).
  split_and!; try done.
  - split_and!; [done| |intros a; by rewrite Hc2]. eapply vframe_trans; [done|]. eapply vframe_weaken; [|done]. set_solver.
  - by rewrite (fr_vnode _ _ _ Hf2) by set_solver.
Qed.

Definition created L R P s kd r (ret v : Z) s' : Prop :=
  (∃ ino c', ret = 0 ∧ adds (content s) kd (copy_name r.1 r.2) (NFile 0 zero_bytes) ino c' ∧
     becomes (<[ino := 1]> L) (v :: R) P R s c' s' ∧ vno_at s' v = Some ino) ∨
  (ret = - ENOSPC ∧ becomes L R P R s (content s) s').

Definition opened L R P s path flag (ret v : Z) s' : Prop :=
  match parent_of s path with
  | inl err => ret = - err ∧ 0 < err ∧ leaves (stuck s path) L R P s s'
  | inr kd =>
      match found (content s) kd (parsed path).2 with
      | Some k' => ret = 0 ∧ got L R P s k' v s'
      | None => if Z.land flag O_CREAT =? 0 then ret = - ENOENT ∧ becomes L R P R s (content s) s'
                else created L R P s kd (parsed path).2 ret v s'
      end
  end.

(** From the state in the directory back to the first state. *)
Lemma becomes_back L L1 R R' P s d s1 c1 s2 :
  becomes L (d :: R) P R s (content s) s1 → becomes L1 R' P (d :: R) s1 c1 s2 → becomes L1 R' P R s c1 s2.
Proof.
  intros (_ & Hf & _) (? & Hf' & Hc). split_and!; [done| |done]. eapply vframe_trans; [done|].
  eapply vframe_weaken; [|done]. set_solver.
Qed.

Lemma becomes_ext L R R' P s c c' s' : becomes L R' P R s c s' → (∀ a, c a = c' a) → becomes L R' P R s c' s'.
Proof. intros (? & ? & Hc) E. split_and!; [done..|]. intros a. by rewrite Hc, E. Qed.

Lemma adds_ext c1 c kd name n ino c' : (∀ a, c1 a = c a) → adds c1 kd name n ino c' → adds c kd name n ino c'.
Proof.
  intros E (sz & l & j & e & Hc & Hsp & Hi & Hn & Hc'). exists sz, l, j, e. rewrite <- !E. split_and!; try done.
  intros a. rewrite Hc'. apply fn_insert_ext. intros b. by apply fn_insert_ext.
Qed.

Lemma create_at_wp L R P s kd size l d s1 r :
  at_dir L R P s kd size l d s1 → last_ok r → found (content s) kd r = None →
  wp may_overflow (let* (ret, v) := ramfs_create d r.1 r.2 in
    if ret <? 0 then vput d ;;; kret (ret, NULL) else vput d ;;; kret (0, v))
    (λ '(ret, v) s', created L R P s kd r ret v s') s1.
Proof.
  intros [(HI1 & Hf1 & Hc1) Hd HL Hc] Hr Hf. destruct (found_None _ _ _ _ _ Hc Hr Hf) as (Hok & _ & Hfe).
  apply wp_bind. eapply wp_mono; [eapply create_wp; try done; [set_solver|by rewrite Hc1]|].
  intros [ret v] s2 [(ino & Hm & Hv)|[[-> Hb] ->]].
  - apply makes_adds in Hm as (-> & c' & Ha & Hb); [|by rewrite Hc1]. simpl. apply (adds_ext _ (content s)) in Ha; [|done].
    assert (Hne : ino ≠ kd). { destruct Ha as (? & ? & ? & ? & ? & _ & _ & ? & _). congruence. }
    pose proof (fr_vnode _ _ _ (proj1 (proj2 Hb)) d ltac:(set_solver)) as Hd2.
    eapply (vput_becomes_wp _ R _ (v :: R)); [by eapply becomes_back|solve_Permutation|set_solver|by rewrite Hd2| |].
    + by rewrite fn_lookup_insert_ne.
    + intros s3 Hb3 Hw. left. exists ino, c'. split_and!; try done. by rewrite Hw by set_solver.
  - pose proof (fr_vnode _ _ _ (proj1 (proj2 Hb)) d ltac:(set_solver)) as Hd2.
    eapply (vput_becomes_wp _ R _ R); [by eapply becomes_back|done..|by rewrite Hd2|done|].
    intros s3 Hb3 _. right. split; [done|]. by eapply becomes_ext.
Qed.

Lemma open_namev_wp L R P s path flag :
  vninv L R P s → paths_ok L R s → starts_slash (path_rest path) = false →
  wp may_overflow (open_namev path flag NULL) (λ '(ret, v) s', opened L R P s path flag ret v s') s.
Proof.
  intros HI HP Hst. apply wp_bind. eapply wp_mono; [by apply parent_wp|]. intros res s1. unfold found_dir, opened.
  pose proof (tree_sound _ _ (po_tree _ _ _ HP)) as Hs. destruct (parsed_ok path Hst) as [_ Hr].
  destruct (parent_of s path) as [err|kd].
  { intros (-> & Herr & HR). simpl. destruct (Z.ltb_spec (- err) 0); [|lia]. by apply wp_ret. }
  intros (size & l & -> & -> & -> & Had). simpl. pose proof Had as [(HI1 & Hf1 & Hc1) Hd HL Hc].
  destruct (isdir_view _ _ _ _ _ _ (NDir size l) HI1 Hd) as (x & Hx & _ & Hdir & Ho & _); [by rewrite Hc1|].
  apply wp_bind. eapply wp_run; [by apply get_vnode_run|]. rewrite Hdir. simpl.
  apply wp_bind. eapply wp_mono; [by eapply lookup_at_wp|]. intros [ret v] s2.
  destruct (found (content s) kd (parsed path).2) as [k'|] eqn:Hf.
  - intros (-> & Hb & Hv & Hd2). simpl.
    eapply (vput_becomes_wp _ R _ (v :: R)); [exact Hb|solve_Permutation|set_solver|done..|].
    intros s3 (HI3 & Hf3 & Hc3) Hw. split; [done|]. split_and!; try done. by rewrite Hw by set_solver.
  - intros (-> & -> & ->). simpl. destruct (Z.land flag O_CREAT =? 0); simpl.
    + eapply (vput_becomes_wp _ R _ R); [apply Had|done..|]. intros s3 Hb _. done.
    + apply wp_bind. eapply wp_run; [unfold get_ops; vrun; by rewrite Ho|]. simpl. apply wp_bind, wp_assert; [done|].
      by eapply create_at_wp.
Qed.
End Walk.
