(* ===== verification/PathInv.v ===== *)
(** The file system calls that take a path: what they do to the tree of
    directories, on every branch. *)

From Stdlib Require Import Ascii.
From stdpp Require Import base functions numbers list gmap strings.
From S2P Require Import Prelude Sched Mutex PageAlloc Slab KMem Vfs VnodeInv Ramfs RamfsInv FsTree Namev NamevInv VfsSyscall.

Open Scope Z_scope.

Section Paths.
Context {M : Type} `{KMemLaws M}.
Implicit Types (s : vfs M) (c : Z → option node).

(** Nothing changed in the tree, but references to the vnodes of [ks] are left
    behind. *)
Definition same_tree ks L R P s (ret ret' : Z) s' : Prop := ret = ret' ∧ leaves ks L R P s s'.

Lemma same_tree_intro L R P s ret s' : becomes L R P R s (content s) s' → same_tree [] L R P s ret ret s'.
Proof. intros Hb. split; [done|]. by apply leaves_nil. Qed.

(** The calls resolve the path, give up on an error, and go on in the directory. *)
Lemma in_parent_wp {A} L R P s path (k : dir_result → vM M A) (Q : A → vfs M → Prop) :
  vninv L R P s → paths_ok L R s → starts_slash (path_rest path) = false →
  (∀ err s1, parent_of s path = inl err → 0 < err → leaves (stuck s path) L R P s s1 →
     wp may_overflow (k (dn_error (- err))) Q s1) →
  (∀ kd size l d s1, parent_of s path = inr kd → at_dir L R P s kd size l d s1 → last_ok (parsed path).2 →
     sound L (content s) → wp may_overflow (k (DirResult 0 d (parsed path).2.1 (parsed path).2.2)) Q s1) →
  wp may_overflow (let* r := dir_namev path NULL in k r) Q s.
Proof.
  intros HI HP Hst Herr Hok. apply wp_bind. eapply wp_mono; [by apply parent_wp|]. intros res s1. unfold found_dir.
  destruct (parent_of s path) as [err|kd]; [intros (-> & ? & ?); by apply Herr|].
  intros (size & l & E1 & E2 & E3 & Had). destruct res as [ret d name len]. simpl in *. subst.
  eapply Hok; try done; [by apply parsed_ok|by eapply tree_sound, po_tree].
Qed.

(** Two references are given up at the end. *)
Lemma put2_wp {A} L R P s d kd v k s1 (e : A) Q :
  becomes L (v :: d :: R) P R s (content s) s1 → vno_at s1 d = Some kd → vno_at s1 v = Some k → 0 < L kd → 0 < L k →
  (∀ s2, becomes L R P R s (content s) s2 → Q e s2) →
  wp may_overflow (vput d ;;; vput v ;;; kret e) Q s1 ∧ wp may_overflow (vput v ;;; vput d ;;; kret e) Q s1.
Proof.
  intros Hb Hd Hv HLd HLv HQ. pose proof Hb as (HI1 & Hf1 & Hc1). split.
  - destruct (vput_becomes L R (v :: R) P s (content s) d kd s1) as (s2 & Hr & Hb2 & Hw); [|set_solver|done..|].
    { split_and!; [|done..]. eapply vninv_perm; [|done|exact HI1]. solve_Permutation. }
    apply wp_bind. eapply wp_run; [exact Hr|].
    eapply (vput_becomes_wp _ R _ R); [exact Hb2|done..|by rewrite Hw by set_solver|done|]. auto.
  - destruct (vput_becomes L R (d :: R) P s (content s) v k s1) as (s2 & Hr & Hb2 & Hw); [done|set_solver|done..|].
    apply wp_bind. eapply wp_run; [exact Hr|].
    eapply (vput_becomes_wp _ R _ R); [exact Hb2|done..|by rewrite Hw by set_solver|done|]. auto.
Qed.

(** ** mkdir *)

(** A new node was entered, or there was no room for it. *)
Definition entered_new L R P s kd r (n : Z → node) (ret : Z) s' : Prop :=
  (∃ ino c', ret = 0 ∧ adds (content s) kd (copy_name r.1 r.2) (n ino) ino c' ∧ becomes (<[ino := 1]> L) R P R s c' s') ∨
  same_tree [] L R P s ret (- ENOSPC) s'.

Definition mkdir_post L R P s path ret s' : Prop :=
  match parent_of s path with
  | inl err => same_tree (stuck s path) L R P s ret (- err) s'
  | inr kd =>
      let r := (parsed path).2 in
      if NAME_LEN <? r.2 then same_tree [] L R P s ret (- ENAMETOOLONG) s'
      else if found (content s) kd r is Some _ then same_tree [] L R P s ret (- EEXIST) s'
      else entered_new L R P s kd r (new_dir kd) ret s'
  end.

Lemma make_at_wp L R P s kd size l d s1 r (op : vM M Z) (n : Z → node) :
  at_dir L R P s kd size l d s1 →
  wp may_overflow op (λ ret s2,
    (∃ ino c', ret = 0 ∧ adds (content s) kd (copy_name r.1 r.2) (n ino) ino c' ∧ becomes (<[ino := 1]> L) (d :: R) P (d :: R) s1 c' s2) ∨
    (ret = - ENOSPC ∧ becomes L (d :: R) P (d :: R) s1 (content s1) s2)) s1 →
  wp may_overflow (let* ret := op in vput d ;;; kret ret) (entered_new L R P s kd r n) s1.
Proof.
  intros [Hb1 Hd HL Hc] Hop. apply wp_bind. eapply wp_mono; [exact Hop|]. clear Hop. intros ret s2 Hs2.
  assert (Hd2 : vno_at s2 d = Some kd).
  { rewrite <- Hd. destruct Hs2 as [(? & ? & _ & _ & _ & Hf & _)|(_ & _ & Hf & _)]; apply Hf; set_solver. }
  destruct Hs2 as [(ino & c' & -> & Ha & Hb)|[-> Hb]].
  - assert (Hne : ino ≠ kd). { destruct Ha as (? & ? & ? & ? & ? & _ & _ & ? & _). congruence. }
    eapply (vput_becomes_wp _ R _ R); [by eapply becomes_back|done..|by rewrite fn_lookup_insert_ne|].
    intros s3 Hb3 _. left. by exists ino, c'.
  - eapply (vput_becomes_wp _ R _ R); [by eapply becomes_back|done..|]. intros s3 Hb3 _. right.
    apply same_tree_intro. eapply becomes_ext; [done|]. apply Hb1.
Qed.

Lemma do_mkdir_wp L R P s path :
  vninv L R P s → paths_ok L R s → starts_slash (path_rest path) = false → strlen path ≤ MAXPATHLEN →
  wp may_overflow (do_mkdir path) (mkdir_post L R P s path) s.
Proof.
  intros HI HP Hst Hlen. unfold do_mkdir. destruct (Z.ltb_spec MAXPATHLEN (strlen path)); [lia|].
  eapply in_parent_wp; [done..| |]; unfold mkdir_post.
  { intros err s1 -> Herr HR. simpl. destruct (Z.ltb_spec (- err) 0); [|lia]. by apply wp_ret. }
  intros kd size l d s1 -> Had Hr Hs. cbn [dn_ret dn_vnode dn_namelen dn_name]. cbn [Z.ltb Z.compare].
  pose proof Had as [(HI1 & Hf1 & Hc1) Hd HL Hc]. set (r := (parsed path).2) in *.
  destruct (NAME_LEN <? r.2).
  { eapply (vput_becomes_wp _ R _ R); [apply Had|done..|]. intros s3 Hb3 _. by apply same_tree_intro. }
  destruct (isdir_view _ _ _ _ _ _ (NDir size l) HI1 Hd) as (x & Hx & _ & Hdir & Ho & ->); [by rewrite Hc1|].
  apply wp_bind. eapply wp_mono; [by eapply lookup_at_wp|]. intros [ret v] s2.
  destruct (found (content s) kd r) as [k'|] eqn:Hf.
  - intros (-> & Hb & Hv & Hd2). simpl. destruct (found_linked _ _ _ _ _ _ _ Hs HL Hc Hr Hf) as [HL' _].
    eapply (proj1 (put2_wp _ _ _ _ _ _ _ _ _ _ _ Hb Hd2 Hv HL HL' _)).
    Unshelve. intros s3 Hb3. by apply same_tree_intro.
  - intros (-> & -> & ->). simpl. destruct (found_None _ _ _ _ _ Hc Hr Hf) as (Hok & _ & Hfe).
    apply wp_bind. eapply wp_run; [unfold get_ops; vrun; by rewrite Ho|]. apply wp_bind, wp_assert; [done|].
    eapply make_at_wp; [done|]. eapply wp_mono; [eapply mkdir_wp; try done; [set_solver|by rewrite Hc1]|].
    intros ret s2 [[ino Hm]|Hsp]; [left|by right].
    apply makes_adds_dir in Hm as (-> & c' & Ha & Hb); [|by rewrite Hc1]. exists ino, c'.
    split_and!; [done|by eapply adds_ext|done].
Qed.

(** ** mknod *)

(** The parent directory stays referenced when the name is taken. *)
Definition mknod_post L R P s path devid ret s' : Prop :=
  match parent_of s path with
  | inl err => same_tree (stuck s path) L R P s ret (- err) s'
  | inr kd =>
      let r := (parsed path).2 in
      if found (content s) kd r is Some _ then same_tree [kd] L R P s ret (- EEXIST) s'
      else entered_new L R P s kd r (λ _, NDev RAMFS_TYPE_CHR devid) ret s'
  end.

Lemma do_mknod_wp L R P s path devid :
  vninv L R P s → paths_ok L R s → starts_slash (path_rest path) = false → 1 ≤ strlen path ≤ MAXPATHLEN →
  wp may_overflow (do_mknod path S_IFCHR devid) (mknod_post L R P s path devid) s.
Proof.
  intros HI HP Hst Hlen. unfold do_mknod. destruct (Z.ltb_spec (strlen path) 1); [lia|]. simpl.
  destruct (Z.ltb_spec MAXPATHLEN (strlen path)); [lia|].
  eapply in_parent_wp; [done..| |]; unfold mknod_post.
  { intros err s1 -> Herr HR. simpl. destruct (Z.ltb_spec (- err) 0); [|lia]. by apply wp_ret. }
  intros kd size l d s1 -> Had Hr Hs. cbn [dn_ret dn_vnode dn_namelen dn_name]. cbn [Z.ltb Z.compare].
  pose proof Had as [(HI1 & Hf1 & Hc1) Hd HL Hc]. set (r := (parsed path).2) in *.
  destruct (isdir_view _ _ _ _ _ _ (NDir size l) HI1 Hd) as (x & Hx & _ & Hdir & Ho & _); [by rewrite Hc1|].
  apply wp_bind. eapply wp_mono; [by eapply lookup_at_wp|]. intros [ret v] s2.
  destruct (found (content s) kd r) as [k'|] eqn:Hf.
  - intros (-> & Hb & Hv & Hd2). unfold out. simpl. destruct (found_linked _ _ _ _ _ _ _ Hs HL Hc Hr Hf) as [HL' _].
    eapply (vput_becomes_wp _ R _ (d :: R)); [exact Hb|done|set_solver|done..|].
    intros s3 Hb3 Hw. split; [done|]. eapply leaves_one; [done|]. by rewrite Hw by set_solver.
  - intros (-> & -> & ->). unfold out. simpl. destruct (found_None _ _ _ _ _ Hc Hr Hf) as (Hok & _ & Hfe).
    apply wp_bind. eapply wp_run; [unfold get_ops; vrun; by rewrite Ho|]. apply wp_bind, wp_assert; [done|].
    eapply make_at_wp; [done|]. eapply wp_mono; [eapply mknod_wp; try done; [set_solver|by rewrite Hc1]|].
    intros ret s2 [[ino Hm]|Hsp]; [left|by right].
    apply makes_adds in Hm as (-> & c' & Ha & Hb); [|by rewrite Hc1]. exists ino, c'.
    split_and!; [done|by eapply adds_ext|done].
Qed.

(** ** unlink *)

(** The name was taken out of the directory and the inode lost a link.  Its
    content is kept while it has another link or one of [R'] is its vnode. *)
Definition drops L R' P R s kd r (k' : Z) s' : Prop := ∃ size l j e,
  content s kd = Some (NDir size l) ∧ dir_get l (piece_of r) = Some (j, e) ∧ rd_ino e = k' ∧
  let L' := <[k' := L k' - 1]> L in
  vninv L' R' P s' ∧ vframe R s s' ∧
  ∀ a, a ≠ k' ∨ stays L' R' s' k' →
    content s' a = <[kd := Some (NDir (size - sizeof_dirent) (<[j := clear_entry e]> l))]> (content s) a.

Definition unlink_post L R P s path ret s' : Prop :=
  match parent_of s path with
  | inl _ => False
  | inr kd =>
      let r := (parsed path).2 in
      match found (content s) kd r with
      | None => same_tree [] L R P s ret (- ENOENT) s'
      | Some k' =>
          if content s k' is Some (NDir _ _) then same_tree [] L R P s ret (- EISDIR) s'
          else ret = 0 ∧ drops L R P R s kd r k' s'
      end
  end.

Lemma found_entry c kd size l r k' : c kd = Some (NDir size l) → last_ok r → found c kd r = Some k' → r.2 ≠ 0 →
  piece_ok r ∧ ∃ j e, dir_get l (piece_of r) = Some (j, e) ∧ find_entry r.1 r.2 l = Some (j, e) ∧ rd_ino e = k'.
Proof.
  intros Hc Hr. unfold found. rewrite Hc. destruct (Z.eqb_spec r.2 0); [done|].
  destruct Hr as [Hr| ->]; [|done]. destruct (dir_get l (piece_of r)) as [[j e]|] eqn:Hg; [|done]. simpl.
  intros [= <-] _. split; [done|]. exists j, e. split_and!; [done| |done]. by rewrite find_entry_piece by apply Hr.
Qed.

Lemma stays_ext L R s s' k : (∀ w, w ∈ R → vno_at s' w = vno_at s w) → stays L R s' k ↔ stays L R s k.
Proof.
  intros Hw. unfold stays. split; (intros [?|(w & ? & E)]; [by left|right; exists w]); [rewrite <- Hw|rewrite Hw]; done.
Qed.

(** The last steps of unlink: the vnode of the inode and the directory are put. *)
Lemma unlink_put_wp L' R P s kd k' v d s3 c :
  vninv L' (v :: d :: R) P s3 → vframe R s s3 → (∀ a, content s3 a = c a) → vno_at s3 v = Some k' → vno_at s3 d = Some kd →
  k' ≠ kd → 0 < L' kd →
  wp may_overflow (vput v ;;; vput d ;;; kret 0) (λ ret s', ret = 0 ∧ vninv L' R P s' ∧ vframe R s s' ∧
    ∀ a, a ≠ k' ∨ stays L' R s' k' → content s' a = c a) s3.
Proof.
  intros HI3 Hf3 Hc3 Hv Hd Hne HLd.
  destruct (vput_run _ _ _ _ _ _ HI3 Hv) as (s4 & Hr4 & HI4 & Hf4 & Hc4).
  apply wp_bind. eapply wp_run; [exact Hr4|].
  assert (Hd4 : vno_at s4 d = Some kd) by (rewrite (fr_vnode _ _ _ Hf4) by set_solver; done).
  destruct (vput_run _ _ _ _ _ _ HI4 Hd4) as (s5 & Hr5 & HI5 & Hf5 & Hc5).
  apply wp_bind. eapply wp_run; [exact Hr5|]. apply wp_ret. split_and!; [done..| |].
  - eapply vframe_trans; [done|]. eapply vframe_trans; [|done]. eapply vframe_weaken; [|done]. set_solver.
  - intros a Ha. rewrite Hc5 by (right; by left). rewrite Hc4; [done|]. destruct Ha as [?|Ha]; [by left|right].
    rewrite (stays_ext _ _ s3) in Ha.
    + destruct Ha as [?|(w & Hw & E)]; [by left|]. right. exists w. split; [set_solver|done].
    + intros w Hw. rewrite (fr_vnode _ _ _ Hf5), (fr_vnode _ _ _ Hf4); set_solver.
Qed.

Lemma isdir_run L R P s v k n : vninv L R P s → vno_at s v = Some k → content s k = Some n →
  isdir v s = RRet (if n is NDir _ _ then true else false) s.
Proof.
  intros HI Hv Hc. destruct (isdir_view _ _ _ _ _ _ _ HI Hv Hc) as (x & Hx & _ & Hdir & _). unfold isdir.
  erewrite kbind_of_ret by (by apply get_vnode_run). by rewrite Hdir.
Qed.

Lemma get_ops_run L R P s v k n : vninv L R P s → vno_at s v = Some k → content s k = Some n →
  get_ops v s = RRet (vnode_ops (node_type n)) s.
Proof.
  intros HI Hv Hc. destruct (isdir_view _ _ _ _ _ _ _ HI Hv Hc) as (x & Hx & _ & _ & Ho & _). unfold get_ops.
  erewrite kbind_of_ret by (by apply get_vnode_run). by rewrite Ho.
Qed.

Lemma node_dir_cases L R P s k n : vninv L R P s → content s k = Some n →
  (∃ size l, n = NDir size l) ∨ (if n is NDir _ _ then true else false) = false ∧ node_type n ≠ RAMFS_TYPE_DIR.
Proof.
  intros HI Hn. destruct n as [|sz l|type ?]; [by right|left; eauto|right]. split; [done|].
  destruct (inode_node _ _ _ _ _ _ HI Hn) as (_ & p & i & _ & _ & _ & [[-> | ->] _] & _); done.
Qed.

Lemma do_unlink_wp L R P s path kd :
  vninv L R P s → paths_ok L R s → starts_slash (path_rest path) = false → strlen path ≤ MAXPATHLEN →
  parent_of s path = inr kd →
  wp may_overflow (do_unlink path) (unlink_post L R P s path) s.
Proof.
  intros HI HP Hst Hlen Hpar. unfold do_unlink. destruct (Z.ltb_spec MAXPATHLEN (strlen path)); [lia|].
  eapply in_parent_wp; [done..| |]; unfold unlink_post; [congruence|].
  intros kd' size l d s1 E Had Hr Hs. rewrite E. cbn [dn_ret dn_vnode dn_namelen dn_name]. cbn [Z.ltb Z.compare].
  clear kd Hpar E. rename kd' into kd. pose proof Had as [(HI1 & Hf1 & Hc1) Hd HL Hc]. set (r := (parsed path).2) in *.
  apply wp_bind. eapply wp_mono; [by eapply lookup_at_wp|]. intros [ret v] s2.
  destruct (found (content s) kd r) as [k'|] eqn:Hf.
  2: { intros (-> & -> & ->). simpl. eapply (vput_becomes_wp _ R _ R); [apply Had|done..|].
       intros s3 Hb3 _. by apply same_tree_intro. }
  intros (-> & Hb & Hv & Hd2). simpl. destruct (found_linked _ _ _ _ _ _ _ Hs HL Hc Hr Hf) as [HL' [n Hn]].
  pose proof Hb as (HI2 & Hf2 & Hc2). rewrite Hn.
  apply wp_bind. eapply wp_run; [eapply isdir_run; [done..|by rewrite Hc2]|].
  destruct (node_dir_cases _ _ _ _ _ _ HI2 ltac:(rewrite Hc2; exact Hn)) as [(sz & l' & ->)|[Hnd Hty]].
  { eapply (proj1 (put2_wp _ _ _ _ _ _ _ _ _ _ _ Hb Hd2 Hv HL HL' _)). Unshelve.
    intros s3 Hb3. by apply same_tree_intro. }
  rewrite Hnd. assert (Hne : k' ≠ kd). { intros ->. rewrite Hc in Hn. by injection Hn as <-. }
  assert (Hr0 : r.2 ≠ 0). { intros E. unfold found in Hf. rewrite E in Hf. simpl in Hf. congruence. }
  destruct (found_entry _ _ _ _ _ _ Hc Hr Hf Hr0) as (Hok & j & e & Hg & Hfe & Ee).
  apply wp_bind. eapply wp_run; [eapply get_ops_run; [done..|by rewrite Hc2]|]. apply wp_bind, wp_assert; [done|].
  apply wp_bind. eapply wp_mono.
  { eapply (unlink_wp L (v :: d :: R) P s2 d kd size l r.1 r.2); try done; [set_solver|by rewrite Hc2|rewrite Ee; lia|by rewrite Ee, Hc2]. }
  intros ret s3 (-> & HI3 & Hf3 & Hc3). rewrite Ee in *.
  assert (Hv3 : vno_at s3 v = Some k') by (rewrite (fr_vnode _ _ _ Hf3) by set_solver; done).
  assert (Hd3 : vno_at s3 d = Some kd) by (rewrite (fr_vnode _ _ _ Hf3) by set_solver; done).
  eapply wp_mono; [eapply unlink_put_wp; [exact HI3| | |done|done|done|]|].
  - eapply vframe_trans; [done|]. eapply vframe_weaken; [|done]. set_solver.
  - intros a. rewrite Hc3; [done|]. right. right. exists v. split; [set_solver|done].
  - by rewrite fn_lookup_insert_ne.
  - intros ret s4 (-> & HI4 & Hf4 & Hc4).
    assert ((if n is NDir _ _ then same_tree [] L R P s 0 (- EISDIR) s4 else 0 = 0 ∧ drops L R P R s kd r k' s4) =
      (0 = 0 ∧ drops L R P R s kd r k' s4)) as -> by (by destruct n).
    split; [done|]. exists size, l, j, e. cbv zeta. split_and!; try done.
    intros a Ha. rewrite Hc4 by done. unfold unlinked. by apply fn_insert_ext.
Qed.

(** ** rmdir *)

(** "." and ".." are refused as long as nothing stands behind them. *)
Definition rmdir_name (path : string) : Prop :=
  let r := (parsed path).2 in
  r.1 = "."%string ∨ r.1 = ".."%string ∨ (piece_ok r ∧ piece_of r ≠ "."%string ∧ piece_of r ≠ ".."%string).

Definition rmdir_call_post L R P s path ret s' : Prop :=
  match parent_of s path with
  | inl err => same_tree (stuck s path) L R P s ret (- err) s'
  | inr kd =>
      let r := (parsed path).2 in
      if decide (r.1 = "."%string) then same_tree [] L R P s ret (- EINVAL) s'
      else if decide (r.1 = ".."%string) then same_tree [] L R P s ret (- ENOTEMPTY) s'
      else if NAME_LEN <? r.2 then same_tree [] L R P s ret (- ENAMETOOLONG) s'
      else match found (content s) kd r with
      | None => same_tree [] L R P s ret (- ENOENT) s'
      | Some k' =>
          match content s k' with
          | Some (NDir _ l) =>
              if dir_empty l then ret = 0 ∧ ∃ v, vno_at s' v = Some k' ∧ drops L (v :: R) P R s kd r k' s'
              else same_tree [k'] L R P s ret (- ENOTEMPTY) s'
          | _ => same_tree [k'] L R P s ret (- ENOTDIR) s'
          end
      end
  end.

Lemma dots_name r : piece_ok r → piece_of r ≠ "."%string → piece_of r ≠ ".."%string →
  r.1 ≠ "."%string ∧ r.1 ≠ ".."%string ∧ negb (name_match "." r.1 r.2) && negb (name_match ".." r.1 r.2) = true.
Proof.
  intros (Hlen & Hpos & _) H1 H2. unfold piece_of, prefix_of, name_match in *. destruct r as [name len]. simpl in *.
  split_and!.
  - intros ->. destruct (Z.to_nat len) as [|[|n]] eqn:E; [lia|by apply H1..].
  - intros ->. destruct (Z.to_nat len) as [|[|[|n]]] eqn:E; [lia|by apply H1|by apply H2..].
  - rewrite !bool_decide_eq_false_2 by done. by rewrite !andb_false_r.
Qed.

Lemma dir_empty_name l j e : dir_empty l = true → l !! j = Some e → rd_name e = "."%string ∨ rd_name e = ".."%string ∨ rd_name e = EmptyString.
Proof.
  intros Hd%Is_true_true Hj. unfold dir_empty in Hd. rewrite forallb_True, Forall_lookup in Hd.
  by eapply bool_decide_unpack, Hd.
Qed.

Lemma rmdir_at_wp L R P s kd size l d v k' n r s2 :
  becomes L (v :: d :: R) P R s (content s) s2 → vno_at s2 v = Some k' → vno_at s2 d = Some kd → 0 < L kd → 0 < L k' →
  content s kd = Some (NDir size l) → piece_ok r → piece_of r ≠ "."%string → piece_of r ≠ ".."%string →
  found (content s) kd r = Some k' → content s k' = Some n →
  wp may_overflow (let* ret := ramfs_rmdir d r.1 r.2 in vput d ;;; kret ret) (λ ret s',
    match n with
    | NDir _ l' => if dir_empty l' then ret = 0 ∧ ∃ v, vno_at s' v = Some k' ∧ drops L (v :: R) P R s kd r k' s'
                   else same_tree [k'] L R P s ret (- ENOTEMPTY) s'
    | _ => same_tree [k'] L R P s ret (- ENOTDIR) s'
    end) s2.
Proof.
  intros Hb Hv Hd HL HL' Hc Hok H1 H2 Hf Hn. pose proof Hb as (HI2 & Hf2 & Hc2).
  destruct (found_entry _ _ _ _ _ _ Hc (or_introl Hok) Hf) as (_ & j & e & Hg & Hfe & Ee); [destruct Hok as (_ & ? & _); lia|].
  destruct (dots_name r Hok H1 H2) as (_ & _ & Hdots). apply wp_bind. eapply wp_mono.
  { eapply (rmdir_wp L (v :: d :: R) P s2 d kd size l r.1 r.2); try done; [set_solver|by rewrite Hc2|rewrite Ee; lia|by rewrite Ee, Hc2]. }
  assert (Hkeep : ∀ ret' s3, becomes L (v :: d :: R) P (v :: d :: R) s2 (content s2) s3 →
    wp may_overflow (vput d ;;; kret ret') (λ ret s', same_tree [k'] L R P s ret ret' s') s3).
  { intros ret' s3 (HI3 & Hf3 & Hc3). eapply (vput_becomes_wp L R (v :: d :: R) (v :: R) P s (content s)).
    - split_and!; [done| |intros a; by rewrite Hc3]. eapply vframe_trans; [done|]. eapply vframe_weaken; [|done]. set_solver.
    - solve_Permutation.
    - set_solver.
    - rewrite (fr_vnode _ _ _ Hf3) by set_solver. done.
    - done.
    - intros s4 Hb4 Hw. split; [done|]. eapply leaves_one; [done|]. rewrite Hw by set_solver.
      rewrite (fr_vnode _ _ _ Hf3) by set_solver. done. }
  intros ret s3. unfold rmdir_post. destruct n as [|sz l'|]; [intros [-> Hb3]; by apply Hkeep| |intros [-> Hb3]; by apply Hkeep].
  destruct (dir_empty l') eqn:Hem; [|intros [-> Hb3]; by apply Hkeep]. intros (-> & HI3 & Hf3 & Hc3). rewrite Ee in *.
  assert (Hne : k' ≠ kd).
  { intros ->. rewrite Hc in Hn. injection Hn as <- <-. pose proof (dir_get_Some _ _ _ _ Hg) as [Hj En].
    destruct (dir_empty_name _ _ _ Hem Hj) as [E|[E|E]]; rewrite En in E; try done. by apply piece_nonempty in Hok. }
  assert (Hall : ∀ a, content s3 a = unlinked s2 kd size l j e a).
  { intros a. apply Hc3. right. right. exists v. split; [set_solver|done]. }
  eapply (vput_becomes_wp (<[k' := L k' - 1]> L) R (v :: d :: R) (v :: R) P s (unlinked s2 kd size l j e)).
  - split_and!; [done| |done]. eapply vframe_trans; [done|]. eapply vframe_weaken; [|done]. set_solver.
  - solve_Permutation.
  - set_solver.
  - rewrite (fr_vnode _ _ _ Hf3) by set_solver. done.
  - by rewrite fn_lookup_insert_ne.
  - intros s4 (HI4 & Hf4 & Hc4) Hw. split; [done|]. exists v.
    split; [rewrite Hw, (fr_vnode _ _ _ Hf3) by set_solver; done|]. exists size, l, j, e. cbv zeta. split_and!; try done.
    intros a _. rewrite Hc4. unfold unlinked. by apply fn_insert_ext.
Qed.

Lemma do_rmdir_wp L R P s path :
  vninv L R P s → paths_ok L R s → starts_slash (path_rest path) = false → rmdir_name path →
  wp may_overflow (do_rmdir path) (rmdir_call_post L R P s path) s.
Proof.
  intros HI HP Hst Hrm. unfold do_rmdir. eapply in_parent_wp; [done..| |]; unfold rmdir_call_post.
  { intros err s1 -> Herr HR. simpl. destruct (Z.ltb_spec (- err) 0); [|lia]. by apply wp_ret. }
  intros kd size l d s1 -> Had Hr Hs. cbn [dn_ret dn_vnode dn_namelen dn_name]. cbn [Z.ltb Z.compare].
  pose proof Had as [(HI1 & Hf1 & Hc1) Hd HL Hc]. set (r := (parsed path).2) in *.
  case_decide as N1.
  { rewrite bool_decide_eq_true_2 by done. eapply (vput_becomes_wp _ R _ R); [apply Had|done..|].
    intros s3 Hb3 _. by apply same_tree_intro. }
  rewrite bool_decide_eq_false_2 by done. case_decide as N2.
  { rewrite bool_decide_eq_true_2 by done. eapply (vput_becomes_wp _ R _ R); [apply Had|done..|].
    intros s3 Hb3 _. by apply same_tree_intro. }
  rewrite bool_decide_eq_false_2 by done. destruct Hrm as [?|[?|(Hok & H1 & H2)]]; [done..|].
  destruct (isdir_view _ _ _ _ _ _ (NDir size l) HI1 Hd) as (x & Hx & _ & Hdir & Ho & ->); [by rewrite Hc1|].
  destruct (NAME_LEN <? r.2).
  { eapply (vput_becomes_wp _ R _ R); [apply Had|done..|]. intros s3 Hb3 _. by apply same_tree_intro. }
  apply wp_bind. eapply wp_mono; [by eapply lookup_at_wp|]. intros [ret v] s2.
  destruct (found (content s) kd r) as [k'|] eqn:Hf.
  2: { intros (-> & -> & ->). simpl. eapply (vput_becomes_wp _ R _ R); [apply Had|done..|].
       intros s3 Hb3 _. by apply same_tree_intro. }
  intros (-> & Hb & Hv & Hd2). simpl. destruct (found_linked _ _ _ _ _ _ _ Hs HL Hc Hr Hf) as [HL' [n Hn]].
  pose proof Hb as (HI2 & Hf2 & Hc2). rewrite Hn.
  apply wp_bind. eapply wp_run; [eapply get_ops_run; [done..|by rewrite Hc2]|]. apply wp_bind, wp_assert; [done|].
  by eapply rmdir_at_wp.
Qed.

(** ** chdir *)

(** The reference to the old directory was given up for one to the new. *)
Definition moved L R P s (k' : Z) s' : Prop :=
  vno_at s' (v_p_cwd s') = Some k' ∧ v_root s' = v_root s ∧ v_files s' = v_files s ∧ v_p_files s' = v_p_files s ∧
  v_file_allocator s' = v_file_allocator s ∧ vninv L (v_p_cwd s' :: R) P s' ∧ (∀ w, w ∈ R → vno_at s' w = vno_at s w) ∧ ∀ a, content s' a = content s a.

Definition chdir_post L R P s path ret s' : Prop :=
  let R' := v_p_cwd s :: R in
  match parent_of s path with
  | inl err => same_tree (stuck s path) L R' P s ret (- err) s'
  | inr kd =>
      match found (content s) kd (parsed path).2 with
      | None => same_tree [] L R' P s ret (- ENOENT) s'
      | Some k' => if content s k' is Some (NDir _ _) then ret = 0 ∧ moved L R P s k' s'
                   else same_tree [] L R' P s ret (- ENOTDIR) s'
      end
  end.

Lemma parent_linked L R s path kd : paths_ok L R s → starts_slash (path_rest path) = false → parent_of s path = inr kd →
  0 < L kd ∧ ∃ size l, content s kd = Some (NDir size l).
Proof.
  intros HP Hst. destruct (path_start _ _ _ path HP) as (_ & k & sz & l & Hd & HL & Hc). unfold parent_of. rewrite Hd.
  eapply resolve_dir; [by eapply tree_sound, po_tree| |done..].
  rewrite Forall_fmap. eapply Forall_impl; [by apply parsed_ok|]. intros p Hp. by apply piece_nonempty.
Qed.

Lemma do_chdir_wp L R P s path :
  vninv L (v_p_cwd s :: R) P s → paths_ok L (v_p_cwd s :: R) s → starts_slash (path_rest path) = false → 1 ≤ strlen path →
  wp may_overflow (do_chdir path) (chdir_post L R P s path) s.
Proof.
  intros HI HP Hst Hlen. unfold do_chdir. destruct (Z.ltb_spec (strlen path) 1); [lia|]. apply wp_bind.
  eapply wp_mono; [by apply open_namev_wp|]. intros [ret v] s1. unfold opened, chdir_post.
  destruct (parent_of s path) as [err|kd] eqn:Hpar.
  { intros (-> & Herr & HR). destruct (Z.ltb_spec (- err) 0); [|lia]. by apply wp_ret. }
  destruct (parent_linked _ _ _ _ _ HP Hst Hpar) as (HLd & size & l & Hc).
  destruct (found (content s) kd (parsed path).2) as [k'|] eqn:Hf.
  2: { simpl. intros [-> Hb]. simpl. apply wp_ret. by apply same_tree_intro. }
  intros (-> & HI1 & Hf1 & Hc1 & Hv). simpl.
  destruct (found_linked _ _ _ _ _ _ _ (tree_sound _ _ (po_tree _ _ _ HP)) HLd Hc (proj2 (parsed_ok path Hst)) Hf) as [HL' [n Hn]].
  apply wp_bind. eapply wp_run; [eapply isdir_run; [done..|by rewrite Hc1]|]. rewrite Hn.
  destruct (node_dir_cases _ _ _ _ _ _ HI1 ltac:(rewrite Hc1; exact Hn)) as [(sz & l' & ->)|[Hnd Hty]].
  - simpl. apply wp_bind. eapply wp_run; [done|]. rewrite (sm_p_cwd _ _ (fr_same _ _ _ Hf1)).
    destruct (po_cwd _ _ _ HP) as (Hcr & kc & szc & lc & Hvc & HLc & Hcc).
    destruct (vput_run L (v :: R) P s1 (v_p_cwd s) kc) as (s2 & Hr & HI2 & Hf2 & Hc2).
    { eapply vninv_perm; [|done|exact HI1]. solve_Permutation. }
    { by rewrite (fr_vnode _ _ _ Hf1). }
    apply wp_bind. eapply wp_run; [exact Hr|]. apply wp_bind. eapply wp_run; [done|]. apply wp_ret. split; [done|].
    destruct Hf1 as [[] Hf1]. destruct Hf2 as [[] Hf2]. unfold moved. simpl. split_and!; try congruence.
    + change (vno_at (with_p_cwd v s2) v) with (vno_at s2 v). by rewrite Hf2 by set_solver.
    + by apply (vninv_other L _ P s2).
    + intros w Hw. change (vno_at (with_p_cwd v s2) w) with (vno_at s2 w). rewrite Hf2, Hf1; set_solver.
    + intros a. change (content (with_p_cwd v s2) a) with (content s2 a). rewrite Hc2; [done|]. right. by left.
  - rewrite Hnd. simpl. eapply (vput_becomes_wp L (v_p_cwd s :: R) (v :: v_p_cwd s :: R) (v_p_cwd s :: R) P s (content s));
      try done.
    intros s3 Hb3 _. destruct n; [|done|]; by apply same_tree_intro.
Qed.

(** ** The tree afterwards *)

Lemma copy_name_piece r : piece_ok r → r.2 ≤ NAME_LEN - 1 → copy_name r.1 r.2 = piece_of r.
Proof. intros _ Hl. unfold copy_name, piece_of. by rewrite Z.min_l by done. Qed.

Lemma drops_tree L R' P R s kd r k' s' n :
  tree L (content s) → drops L R' P R s kd r k' s' → 0 < L kd → piece_ok r → piece_of r ≠ "."%string →
  piece_of r ≠ ".."%string → content s k' = Some n → (∀ size l, n = NDir size l → dir_empty l = true) →
  tree (<[k' := L k' - 1]> L) (content s').
Proof.
  intros HT (size & l & j & e & Hc & Hg & <- & _ & _ & Hc') HL Hok H1 H2 Hn Hem.
  pose proof (dir_get_Some _ _ _ _ Hg) as [Hj En]. destruct (tr_dir _ _ HT _ _ _ HL Hc) as [_ D1 (p & D2 & _) _].
  eapply (tree_drop L (content s) kd n (content s') HT HL size l j e); try done.
  - destruct j as [|[|]]; [| |lia]; [rewrite D1 in Hj|rewrite D2 in Hj]; injection Hj as <-; simpl in En; congruence.
  - rewrite En. by apply piece_nonempty.
  - intros a [?|?]; apply Hc'; [by left|right; by left].
Qed.

(** The working directory is still there. *)
Lemma paths_ok_frame L L' R R' s s' :
  paths_ok L R s → vframe R s s' → R ⊆ R' → tree L' (content s') →
  (∀ k size l, vno_at s (v_p_cwd s) = Some k → 0 < L k → content s k = Some (NDir size l) →
     0 < L' k ∧ ∃ size l, content s' k = Some (NDir size l)) →
  paths_ok L' R' s'.
Proof.
  intros [[R1 R2] (C1 & k & sz & l & Hk & HL & Hc) HT] [Hs Hv] Hsub HT' Hcwd. split.
  - rewrite (sm_root _ _ Hs). split; [set_solver|by rewrite Hv].
  - rewrite (sm_p_cwd _ _ Hs). split; [set_solver|]. destruct (Hcwd _ _ _ Hk HL Hc) as (? & sz' & l' & ?).
    exists k, sz', l'. by rewrite Hv.
  - done.
Qed.

Lemma paths_ok_same L R R' P s s' :
  paths_ok L R s → becomes L R' P R s (content s) s' → R ⊆ R' → paths_ok L R' s'.
Proof.
  intros HP (_ & Hf & Hc) Hsub. eapply paths_ok_frame; [done..| |].
  - eapply tree_dirs; [..|apply HP]; intros; by rewrite Hc.
  - intros k sz l _ HL Hk. rewrite Hc. eauto.
Qed.

Lemma tree_ext L c c' : (∀ a, c' a = c a) → tree L c → tree L c'.
Proof. intros E HT. eapply tree_dirs; [..|exact HT]; intros; by rewrite E. Qed.

(** Directories stay directories when a name is added. *)
Lemma adds_dirs L c kd name n ino c' k size l :
  adds c kd name n ino c' → 0 < L k → c k = Some (NDir size l) →
  0 < (<[ino := 1]> L) k ∧ ∃ size l, c' k = Some (NDir size l).
Proof.
  intros (sz' & l' & j & e & Hkd & _ & _ & Hino & Hc) HLk Hk. rewrite Hc.
  assert (ino ≠ k) by congruence. rewrite fn_lookup_insert_ne by done. split; [done|].
  destruct (decide (kd = k)) as [<-|]; [rewrite fn_lookup_insert; eauto|]. rewrite !fn_lookup_insert_ne by done. eauto.
Qed.

Lemma paths_ok_adds L R R' P s s' kd name n ino c' :
  paths_ok L R s → adds (content s) kd name n ino c' → becomes (<[ino := 1]> L) R' P R s c' s' → R ⊆ R' →
  0 < L kd → name ≠ EmptyString → unused (content s) kd name → (∀ size l, n ≠ NDir size l) ∨ n = new_dir kd ino →
  paths_ok (<[ino := 1]> L) R' s'.
Proof.
  intros HP Ha (_ & Hf & Hc) Hsub HL Hne Hun Hn. eapply paths_ok_frame; [done..| |].
  - eapply tree_ext; [exact Hc|]. eapply tree_adds; try done. apply HP.
  - intros k sz l _ HLk Hk. rewrite Hc. by eapply adds_dirs.
Qed.

Lemma paths_ok_drops L R R' P s kd r k' s' n :
  paths_ok L R s → drops L R' P R s kd r k' s' → R ⊆ R' → 0 < L kd → piece_ok r → piece_of r ≠ "."%string →
  piece_of r ≠ ".."%string → content s k' = Some n → (∀ size l, n = NDir size l → dir_empty l = true) →
  vno_at s (v_p_cwd s) ≠ Some k' → paths_ok (<[k' := L k' - 1]> L) R' s'.
Proof.
  intros HP Hd Hsub HL Hok H1 H2 Hn Hem Hcwd. eapply paths_ok_frame; [done|by destruct Hd as (? & ? & ? & ? & _ & _ & _ & _ & ? & _)|done| |].
  - eapply drops_tree; try done. apply HP.
  - intros k sz l Hk HLk Hck. assert (k' ≠ k) by congruence. rewrite fn_lookup_insert_ne by done. split; [done|].
    destruct Hd as (size & l0 & j & e & Hc & _ & _ & _ & _ & Hc'). rewrite Hc' by (left; congruence).
    destruct (decide (kd = k)) as [<-|]; [rewrite fn_lookup_insert; eauto|]. rewrite fn_lookup_insert_ne by done. eauto.
Qed.
End Paths.
