(* ===== verification/LinkInv.v ===== *)
(** The calls that look a name up after giving up their reference to its
    directory: stat and link of kernel/fs/vfs_syscall.c.  They need someone else
    to hold the directory. *)

From Stdlib Require Import Ascii.
From stdpp Require Import base functions numbers list gmap strings.
From S2P Require Import Prelude Sched Mutex PageAlloc Slab KMem Vfs VnodeInv Ramfs RamfsInv FsTree Namev NamevInv VfsSyscall PathInv.

Open Scope Z_scope.

Section Link.
Context {M : Type} `{KMemLaws M}.
Implicit Types (s : vfs M) (c : Z → option node).

(** The directory of the path has a vnode in memory. *)
Definition dir_loaded s (path : string) : Prop := ∀ kd, parent_of s path = inr kd → loaded s kd = true.

Lemma loaded_held L R P s k : vninv L R P s → loaded s k = true → ∃ w, w ∈ R ∧ vno_at s w = Some k.
Proof.
  intros HI (w & _ & Hw)%bool_decide_eq_true%Exists_exists. exists w. split; [|exact Hw].
  destruct (v_vnodes s !! w) as [y|] eqn:Hy; [|done].
  destruct (vi_vnode _ _ _ _ HI w y Hy) as [_ V2 V3 _ _ _ _ _ _ _]. apply cnt_pos. lia.
Qed.

(** The vnode someone else holds is the one the path led to. *)
Lemma at_dir_held L R P s kd size l d s1 : vninv L R P s → at_dir L R P s kd size l d s1 → loaded s kd = true → d ∈ R.
Proof.
  intros HI [(HI1 & Hf1 & _) Hd _ _] Hl. destruct (loaded_held _ _ _ _ _ HI Hl) as (w & Hw & E).
  rewrite <- (fr_vnode _ _ _ Hf1 w Hw) in E. apply vno_at_Some in E as (y & Hy & Ey).
  apply vno_at_Some in Hd as (x & Hx & Ex). assert (d = w) as -> by (eapply (vi_inj _ _ _ _ HI1); [done..|congruence]). done.
Qed.

(** A path leads to the same place while nothing but references changes. *)
Lemma parent_of_same L R R' P s s1 path :
  paths_ok L R s → becomes L R' P R s (content s) s1 → parent_of s1 path = parent_of s path ∧ stuck s1 path = stuck s path.
Proof.
  intros HP (_ & [Hs Hv] & Hc). destruct (path_start _ _ _ path HP) as (Hin & k & _ & _ & Hk & _).
  assert (E : path_dir s1 path = path_dir s path) by (unfold path_dir; by rewrite (sm_root _ _ Hs), (sm_p_cwd _ _ Hs)).
  unfold parent_of, stuck. rewrite E, Hv, Hk by done. split; [by apply resolve_ext|by apply stopped_at_ext].
Qed.

Lemma found_same c c' kd r : (∀ a, c' a = c a) → found c' kd r = found c kd r.
Proof. intros E. unfold found. by rewrite E. Qed.

(** The reference is given up, and the name looked up all the same. *)
Lemma put_lookup_wp {A} L R P s kd size l d s1 r (k : Z * Z → vM M A) Q :
  vninv L R P s → at_dir L R P s kd size l d s1 → loaded s kd = true → sound L (content s) → last_ok r →
  (∀ k' v s2, found (content s) kd r = Some k' → becomes L (v :: R) P R s (content s) s2 → vno_at s2 v = Some k' →
     wp may_overflow (k (0, v)) Q s2) →
  (∀ s2, found (content s) kd r = None → becomes L R P R s (content s) s2 → d ∈ R → vno_at s2 d = Some kd →
     wp may_overflow (k (- ENOENT, NULL)) Q s2) →
  wp may_overflow (vput d ;;; let* x := lookup d r.1 r.2 in k x) Q s1.
Proof.
  intros HI Had Hl Hs Hr H1 H2. pose proof (at_dir_held _ _ _ _ _ _ _ _ _ HI Had Hl) as Hin.
  destruct Had as [Hb Hd HL Hc]. destruct (vput_becomes _ _ _ _ _ _ _ _ _ Hb ltac:(done) Hd HL) as (s2 & Hrun & Hb2 & Hw).
  apply wp_bind. eapply wp_run; [exact Hrun|]. apply wp_bind. pose proof Hb2 as (HI2 & Hf2 & Hc2).
  assert (Hd2 : vno_at s2 d = Some kd) by (by rewrite Hw).
  eapply wp_mono; [eapply (lookup_last_wp L R P s2 d kd size l r); try done|].
  - by rewrite Hc2.
  - intros ? ? ? ? ?. rewrite !Hc2. by apply Hs.
  - intros [ret v] s3. rewrite (found_same (content s)) by done. destruct (found (content s) kd r) as [k'|].
    + intros (-> & HI3 & Hf3 & Hc3 & Hv). eapply H1; [done| |done].
      split_and!; [done|by eapply vframe_trans|]. intros a. by rewrite Hc3.
    + intros (-> & -> & ->). by apply H2.
Qed.

(** ** stat *)

Definition stat_is L (k : Z) (n : node) (st : stat) : Prop :=
  st_mode st = vnode_mode (node_type n) ∧ st_ino st = k ∧ st_nlink st = L k ∧
  match n with
  | NFile size _ | NDir size _ => st_size st = size ∧ st_rdev st = 0
  | NDev _ devid => st_rdev st = devid
  end ∧ st_blksize st = PAGE_SIZE ∧ st_blocks st = 1.

Lemma vop_stat_run L R P s v k n :
  vninv L R P s → paths_ok L R s → vno_at s v = Some k → content s k = Some n →
  ∃ st, vop_stat v s = RRet (0, st) s ∧ stat_is L k n st.
Proof.
  intros HI HP Hv Hn. pose proof Hv as (x & Hx & Ex)%vno_at_Some.
  destruct (vnode_view _ _ _ _ _ _ HI Hx) as (i & n' & Hi & Hn' & Hni & Hm & Ho & Hk0 & Ht & _).
  rewrite Ex, Hn in Hn'. injection Hn' as <-. rewrite Ex in *.
  destruct (inode_node _ _ _ _ _ _ HI Hn) as (_ & p & i' & Ht' & _ & Hi' & _ & [_ J2 _ _ _]). simplify_eq.
  assert (Hload : loaded s (vn_vno x) = true).
  { apply bool_decide_eq_true, Exists_exists. exists v. split; [|exact Hv]. apply (vi_inuse _ _ _ _ HI). by eexists. }
  rewrite Z2Nat.id, Hload in J2 by done.
  destruct (tr_root _ _ (po_tree _ _ _ HP)) as (_ & sz & l & Hroot).
  destruct (isdir_view _ _ _ _ _ _ _ HI (proj2 (po_root _ _ _ HP)) Hroot) as (xr & Hxr & _ & _ & Hor & _).
  set (st := Stat (vn_mode x) (vn_vno x) (if (vn_mode x =? S_IFCHR) || (vn_mode x =? S_IFBLK) then rf_mem i else 0)
    (rf_linkcount i - 1) (rf_size i) PAGE_SIZE 1).
  assert (Hst : ramfs_stat v s = RRet (0, st) s) by (unfold ramfs_stat; by vrun).
  exists st. split.
  - assert (Hsp : special_file_stat v s = RRet (0, st) s).
    { unfold special_file_stat. erewrite (kbind_of_ret kget) by done. cbn beta.
      erewrite kbind_of_ret by (eapply get_ops_run; [done|apply HP|exact Hroot]). exact Hst. }
    unfold vop_stat. erewrite kbind_of_ret by (by eapply get_ops_run). by destruct (vnode_ops (node_type n)).
  - unfold stat_is, st. simpl. rewrite Hm, J2. split_and!; try done; [lia|].
    destruct n as [size page|size l'|type devid]; simpl in Hni |- *; [naive_solver..|].
    by destruct Hni as [[-> | ->] [_ ->]].
Qed.

Definition stat_post L R P s path (res : Z * option stat) s' : Prop :=
  match parent_of s path with
  | inl err => same_tree (stuck s path) L R P s res.1 (- err) s' ∧ res.2 = None
  | inr kd =>
      match found (content s) kd (parsed path).2 with
      | None => same_tree [] L R P s res.1 (- ENOENT) s' ∧ res.2 = None
      | Some k => same_tree [] L R P s res.1 0 s' ∧ ∃ n st, content s k = Some n ∧ res.2 = Some st ∧ stat_is L k n st
      end
  end.

Lemma do_stat_wp L R P s path :
  vninv L R P s → paths_ok L R s → starts_slash (path_rest path) = false → 1 ≤ strlen path ≤ MAXPATHLEN → dir_loaded s path →
  wp may_overflow (do_stat path) (stat_post L R P s path) s.
Proof.
  intros HI HP Hst Hlen Hld. unfold do_stat. destruct (Z.ltb_spec MAXPATHLEN (strlen path)); [lia|].
  destruct (Z.eqb_spec (strlen path) 0) as [|_]; [lia|].
  eapply in_parent_wp; [done..| |]; unfold stat_post.
  { intros err s1 -> Herr HR. simpl. destruct (Z.ltb_spec (- err) 0); [|lia]. apply wp_ret. simpl. by split; [split|]. }
  intros kd size l d s1 Hpar Had Hr Hs. rewrite Hpar. cbn [dn_ret dn_vnode dn_namelen dn_name]. cbn [Z.ltb Z.compare].
  eapply put_lookup_wp; [exact HI|exact Had|by apply Hld|exact Hs|exact Hr| |].
  - intros k v s2 Hf Hb Hv. rewrite Hf. simpl. destruct Had as [_ _ HL Hc].
    destruct (found_linked _ _ _ _ _ _ _ Hs HL Hc Hr Hf) as [HL' [n Hn]].
    pose proof Hb as (HI2 & Hf2 & Hc2).
    destruct (vop_stat_run _ _ _ s2 v k n HI2) as (st & Hrun & Hst');
      [eapply paths_ok_same; [exact HP|exact Hb|set_solver]|done|by rewrite Hc2|].
    apply wp_bind. eapply wp_run; [exact Hrun|].
    eapply (vput_becomes_wp _ R _ R); [exact Hb|done..|]. intros s3 Hb3 _. split; [by apply same_tree_intro|]. by exists n, st.
  - intros s2 Hf Hb _ _. rewrite Hf. simpl. apply wp_ret. split; [by apply same_tree_intro|done].
Qed.

(** ** link *)

Definition link_post L R P s (from to : string) ret s' : Prop :=
  match parent_of s from with
  | inl err => same_tree (stuck s from) L R P s ret (- err) s'
  | inr kf =>
      match found (content s) kf (parsed from).2 with
      | None => same_tree [] L R P s ret (- ENOENT) s'
      | Some ko =>
          match parent_of s to with
          | inl err => same_tree (stuck s to) L R P s ret (- err) s'
          | inr kd =>
              let r := (parsed to).2 in
              match found (content s) kd r with
              | Some k => if content s k is Some (NDir _ _) then same_tree [] L R P s ret (- EEXIST) s'
                          else same_tree [ko] L R P s ret (- EISDIR) s'
              | None =>
                  (ret = 0 ∧ ∃ c', links (content s) kd (copy_name r.1 r.2) ko c' ∧
                     becomes (<[ko := L ko + 1]> L) R P R s c' s') ∨
                  same_tree [] L R P s ret (- ENOSPC) s'
              end
          end
      end
  end.

Lemma leaves_put {A} ks L R P s s1 s2 v k (e : A) Q :
  becomes L (v :: R) P R s (content s) s1 → vno_at s1 v = Some k → 0 < L k → leaves ks L (v :: R) P s1 s2 →
  (∀ s3, leaves ks L R P s s3 → Q e s3) → wp may_overflow (vput v ;;; kret e) Q s2.
Proof.
  intros (_ & Hf1 & Hc1) Hv HL (vs & Hvs & HI2 & Hf2 & Hc2) HQ.
  eapply (vput_becomes_wp L R (vs ++ v :: R) (vs ++ R) P s (content s)).
  - split_and!; [done| |intros a; by rewrite Hc2]. eapply vframe_trans; [done|]. eapply vframe_weaken; [|done]. set_solver.
  - solve_Permutation.
  - set_solver.
  - rewrite (fr_vnode _ _ _ Hf2) by set_solver. exact Hv.
  - done.
  - intros s3 Hb Hw. apply HQ. exists vs. split; [|done]. apply Forall2_same_length_lookup. split; [by eapply Forall2_length|].
    intros j w a Hw1 Ha. rewrite Hw; [by eapply (Forall2_lookup_lr _ _ _ _ _ _ Hvs)|].
    apply elem_of_app. left. by eapply list_elem_of_lookup_2.
Qed.

Lemma loaded_kept L R P s s1 R1 k : vninv L R P s → vninv L R1 P s1 → vframe R s s1 → loaded s k = true → loaded s1 k = true.
Proof.
  intros HI HI1 Hf Hl. destruct (loaded_held _ _ _ _ _ HI Hl) as (w & Hw & E). rewrite <- (fr_vnode _ _ _ Hf w Hw) in E.
  apply bool_decide_eq_true, Exists_exists. exists w. split; [|exact E]. apply (vi_inuse _ _ _ _ HI1).
  apply vno_at_Some in E as (y & Hy & _). by eexists.
Qed.

(** Two steps that change nothing but references. *)
Lemma becomes_trans L L2 R R1 R2 P s s1 s2 : becomes L R1 P R s (content s) s1 → R ⊆ R1 →
  becomes L2 R2 P R1 s1 (content s1) s2 → becomes L2 R2 P R s (content s) s2.
Proof.
  intros (_ & Hf1 & Hc1) Hsub (HI2 & Hf2 & Hc2). split_and!; [done| |intros a; by rewrite Hc2].
  eapply vframe_trans; [done|]. by eapply vframe_weaken.
Qed.

(** The name is there already. *)
Lemma link_taken_wp L R P s s1 s2 v ko v2 k n :
  becomes L (v :: R) P R s (content s) s1 → vno_at s1 v = Some ko → 0 < L ko → 0 < L k →
  becomes L (v2 :: v :: R) P (v :: R) s1 (content s1) s2 → vno_at s2 v2 = Some k → content s k = Some n →
  wp may_overflow (let* dir := isdir v2 in
    if negb dir then vput v2 ;;; kret (- EISDIR) else vput v2 ;;; vput v ;;; kret (- EEXIST)) (λ ret s',
    if n is NDir _ _ then same_tree [] L R P s ret (- EEXIST) s' else same_tree [ko] L R P s ret (- EISDIR) s') s2.
Proof.
  intros Hb1 Hv HLo HLk Hb2 Hv2 Hn. pose proof (becomes_trans _ _ _ _ _ _ _ _ _ Hb1 ltac:(set_solver) Hb2) as Hb.
  pose proof Hb as (HI2 & _ & Hc2). pose proof Hb2 as (_ & Hf2 & _).
  assert (Hvo : vno_at s2 v = Some ko) by (rewrite (fr_vnode _ _ _ Hf2) by set_solver; done).
  apply wp_bind. eapply wp_run; [eapply isdir_run; [done..|by rewrite Hc2]|].
  destruct (vput_becomes L R (v :: R) P s (content s) v2 k s2) as (s3 & Hr & Hb3 & Hw); [done|set_solver|done..|].
  assert (Hvo3 : vno_at s3 v = Some ko) by (rewrite Hw by set_solver; done).
  assert (Hk : ∀ e, wp may_overflow (vput v2 ;;; kret e) (λ ret s', same_tree [ko] L R P s ret e s') s2).
  { intros e. apply wp_bind. eapply wp_run; [exact Hr|]. apply wp_ret. split; [done|]. by eapply leaves_one. }
  destruct n as [|sz l|]; [apply Hk| |apply Hk]. cbn [negb]. apply wp_bind. eapply wp_run; [exact Hr|].
  eapply (vput_becomes_wp _ R _ R); [exact Hb3|done..|]. intros s4 Hb4 _. by apply same_tree_intro.
Qed.

(** The name is entered. *)
Lemma link_enter_wp L R P s s1 s2 v ko d kd size l r :
  becomes L (v :: R) P R s (content s) s1 → vno_at s1 v = Some ko → 0 < L ko →
  becomes L (v :: R) P (v :: R) s1 (content s1) s2 → d ∈ v :: R → vno_at s2 d = Some kd →
  content s kd = Some (NDir size l) → find_entry r.1 r.2 l = None →
  wp may_overflow (let* ret := ramfs_link v d r.1 r.2 in vput v ;;; kret ret) (λ ret s',
    (ret = 0 ∧ ∃ c', links (content s) kd (copy_name r.1 r.2) ko c' ∧ becomes (<[ko := L ko + 1]> L) R P R s c' s') ∨
    same_tree [] L R P s ret (- ENOSPC) s') s2.
Proof.
  intros Hb1 Hv HLo Hb2 Hdin Hd Hc Hfe. pose proof (becomes_trans _ _ _ _ _ _ _ _ _ Hb1 ltac:(set_solver) Hb2) as Hb.
  pose proof Hb as (HI2 & Hfs & Hc2). pose proof Hb2 as (_ & Hf2 & _).
  assert (Hvo : vno_at s2 v = Some ko) by (rewrite (fr_vnode _ _ _ Hf2) by set_solver; done).
  apply wp_bind. eapply wp_mono.
  { eapply (link_wp L (v :: R) P s2 d kd size l r.1 r.2); try done; [by rewrite Hc2|set_solver|lia]. }
  intros ret s3 [(-> & j & e & Hsp & Hb3)|[-> Hb3]]; pose proof Hb3 as (HI3 & Hf3 & Hc3).
  - eapply (vput_becomes_wp (<[ko := L ko + 1]> L) R (v :: R) R P s); [|done..|rewrite (fr_vnode _ _ _ Hf3) by set_solver; done|rewrite fn_lookup_insert; lia|].
    { split_and!; [done| |exact Hc3]. eapply vframe_trans; [done|]. eapply vframe_weaken; [|done]. set_solver. }
    intros s4 Hb4 _. left. split; [done|]. eexists. split; [|exact Hb4]. exists size, l, j, e. split_and!; [done..|].
    intros a. by apply fn_insert_ext.
  - eapply (vput_becomes_wp _ R (v :: R) R P s); [eapply becomes_trans; [exact Hb|set_solver|exact Hb3]|done..| | |].
    + rewrite (fr_vnode _ _ _ Hf3) by set_solver. done.
    + done.
    + intros s4 Hb4 _. right. by apply same_tree_intro.
Qed.

Lemma do_link_wp L R P s from to :
  vninv L R P s → paths_ok L R s → starts_slash (path_rest from) = false → starts_slash (path_rest to) = false →
  strlen from ≤ MAXPATHLEN → strlen to ≤ MAXPATHLEN → dir_loaded s to →
  wp may_overflow (do_link from to) (link_post L R P s from to) s.
Proof.
  intros HI HP Hsf Hst Hlf Hlt Hld. unfold do_link. destruct (Z.ltb_spec MAXPATHLEN (strlen from)); [lia|].
  destruct (Z.ltb_spec MAXPATHLEN (strlen to)); [lia|]. pose proof (tree_sound _ _ (po_tree _ _ _ HP)) as Hs.
  apply wp_bind. eapply wp_mono; [by apply open_namev_wp|]. intros [ret v] s1. unfold opened, link_post.
  destruct (parent_of s from) as [err|kf] eqn:Hpf.
  { intros (-> & Herr & Hl). destruct (Z.ltb_spec (- err) 0); [|lia]. by apply wp_ret. }
  destruct (parent_linked _ _ _ _ _ HP Hsf Hpf) as (HLf & szf & lf & Hcf).
  destruct (found (content s) kf (parsed from).2) as [ko|] eqn:Hff.
  2: { simpl. intros [-> Hb]. simpl. apply wp_ret. by apply same_tree_intro. }
  destruct (found_linked _ _ _ _ _ _ _ Hs HLf Hcf (proj2 (parsed_ok from Hsf)) Hff) as [HLo _].
  intros (-> & Hg). cbn [Z.ltb Z.compare]. pose proof (becomes_got _ _ _ _ _ _ _ Hg) as Hb1.
  pose proof Hg as (HI1 & Hf1 & Hc1 & Hv). destruct (parent_of_same _ _ _ _ _ _ to HP Hb1) as [Ep Es].
  eapply in_parent_wp; [exact HI1|eapply paths_ok_same; [exact HP|exact Hb1|set_solver]|done| |]; rewrite Ep.
  { intros err s2 -> Herr Hl. simpl. destruct (Z.ltb_spec (- err) 0); [|lia]. rewrite Es in Hl.
    by eapply leaves_put. }
  intros kd size l d s2 Hpt Had Hr Hs1. rewrite Hpt. cbn [dn_ret dn_vnode dn_namelen dn_name]. cbn [Z.ltb Z.compare].
  pose proof Had as [_ _ HLd Hcd]. rewrite Hc1 in Hcd.
  eapply put_lookup_wp; [exact HI1|exact Had|eapply loaded_kept; [exact HI|done..|by apply Hld]|done..| |];
    rewrite (found_same (content s)) by done.
  - intros k v2 s3 Hf Hb2 Hv2. rewrite Hf. unfold out. cbn [Z.eqb].
    destruct (found_linked _ _ _ _ _ _ _ Hs HLd Hcd Hr Hf) as [HLk [n Hn]]. rewrite Hn. by eapply link_taken_wp.
  - intros s3 Hf Hb2 Hin Hd. rewrite Hf. destruct (found_None _ _ _ _ _ Hcd Hr Hf) as (_ & _ & Hfe).
    pose proof Hb2 as (HI3 & _ & Hc3). assert (Hc3' : content s3 kd = Some (NDir size l)) by (by rewrite Hc3, Hc1).
    unfold out. change (- ENOENT =? 0) with false. cbv iota. apply wp_bind. eapply wp_run; [by eapply isdir_run|].
    change (- ENOENT =? - ENOENT) with true. cbn [negb]. apply wp_bind. eapply wp_run; [by eapply get_ops_run|].
    by eapply link_enter_wp.
Qed.
End Link.
