(* ===== verification/FileInv.v ===== *)
(** Open files: the functions of kernel/fs/file.c and the system calls on file
    descriptors keep the file table, and what they return. *)

From stdpp Require Import base functions numbers list gmap strings.
From S2P Require Import Prelude Sched Mutex PageAlloc Slab KMem Vfs VnodeInv Ramfs RamfsInv Namev VfsSyscall.

Open Scope Z_scope.

Section Files.
Context {M : Type} `{KMemLaws M}.
Implicit Types (s : vfs M) (x : file) (L : Z → Z) (R F : list Z) (P : list piece).

(** * The file table *)

(** The vnodes the open files hold, and the memory of the files. *)
Definition vnode_of_file (e : Z * file) : list Z := if decide (f_vnode e.2 = NULL) then [] else [f_vnode e.2].
Definition file_vnodes (files : gmap Z file) : list Z := map_to_list files ≫= vnode_of_file.
Definition file_pieces (fa : Z) (files : gmap Z file) : list piece := (λ e, PObj fa e.1) <$> map_to_list files.

Record file_ok (refs : list Z) (f : Z) x : Prop := {
  fk_pos : 0 < f;
  fk_refs : f_refcount x = cnt f refs;
  fk_held : 0 < f_refcount x;
  fk_mode : 0 ≤ f_mode x < 8;
  fk_at : 0 ≤ f_pos x < 2 ^ 31;
  fk_vnode : f_vnode x = NULL → f_refcount x = 1
}.

(** [F] are the references held on files besides the descriptors, [R] those on
    vnodes besides the files. *)
Record finv L R F P s : Prop := {
  fi_vn : vninv L (file_vnodes (v_files s) ++ R) (file_pieces (v_file_allocator s) (v_files s) ++ P) s;
  fi_len : length (v_p_files s) = Z.to_nat NFILES;
  fi_file f x : v_files s !! f = Some x → file_ok (v_p_files s ++ F) f x;
  fi_refs f : f ∈ v_p_files s ++ F → f ≠ NULL → is_Some (v_files s !! f);
  fi_desc f x : f ∈ v_p_files s → v_files s !! f = Some x → f_vnode x ≠ NULL
}.

Lemma file_vnodes_insert files f x : files !! f = None →
  file_vnodes (<[f := x]> files) ≡ₚ vnode_of_file (f, x) ++ file_vnodes files.
Proof. intros Hf. unfold file_vnodes. by rewrite map_to_list_insert. Qed.

Lemma file_pieces_insert fa files f x : files !! f = None →
  file_pieces fa (<[f := x]> files) ≡ₚ PObj fa f :: file_pieces fa files.
Proof. intros Hf. unfold file_pieces. by rewrite map_to_list_insert. Qed.

Lemma file_vnodes_delete files f x : files !! f = Some x →
  file_vnodes files ≡ₚ vnode_of_file (f, x) ++ file_vnodes (delete f files).
Proof.
  intros Hf. rewrite <- (insert_delete_id files f x Hf) at 1. rewrite file_vnodes_insert; [done|]. apply lookup_delete_eq.
Qed.

Lemma file_pieces_delete fa files f x : files !! f = Some x →
  file_pieces fa files ≡ₚ PObj fa f :: file_pieces fa (delete f files).
Proof.
  intros Hf. rewrite <- (insert_delete_id files f x Hf) at 1. rewrite file_pieces_insert; [done|]. apply lookup_delete_eq.
Qed.

(** A file is changed, but not its vnode. *)
Lemma file_vnodes_same files f x x' : files !! f = Some x → f_vnode x' = f_vnode x →
  file_vnodes (<[f := x']> files) ≡ₚ file_vnodes files.
Proof.
  intros Hf Hv. rewrite <- insert_delete_eq, file_vnodes_insert by apply lookup_delete_eq.
  rewrite (file_vnodes_delete files f x Hf). unfold vnode_of_file. simpl. by rewrite Hv.
Qed.

Lemma file_pieces_same fa files f x x' : files !! f = Some x → file_pieces fa (<[f := x']> files) ≡ₚ file_pieces fa files.
Proof.
  intros Hf. rewrite <- insert_delete_eq, file_pieces_insert by apply lookup_delete_eq.
  by rewrite (file_pieces_delete fa files f x Hf).
Qed.

Definition with_file s f x : vfs M := upd_files <[f := x]> s.

Lemma finv_file L R F F' P s f x x' :
  finv L R F P s → v_files s !! f = Some x → f_vnode x' = f_vnode x → file_ok (v_p_files s ++ F') f x' →
  (∀ g, g ≠ f → cnt g (v_p_files s ++ F') = cnt g (v_p_files s ++ F)) →
  finv L R F' P (with_file s f x').
Proof.
  intros [V1 V2 V3 V4 V5] Hf Hv Hok Hother. split; simpl.
  - apply (vninv_other L _ _ s). eapply vninv_perm; [..|exact V1];
      [by rewrite file_vnodes_same|by rewrite file_pieces_same].
  - done.
  - intros g y [[<- <-]|[Hne Hy]]%lookup_insert_Some; [done|]. destruct (V3 g y Hy). split; try done. by rewrite Hother.
  - intros g Hg Hn. destruct (decide (f = g)) as [<-|Hne]; [rewrite lookup_insert_eq; by eexists|].
    rewrite lookup_insert_ne by done. apply V4; [|done]. apply cnt_pos. rewrite <- Hother by done. by apply cnt_pos.
  - intros g y Hg [[<- <-]|[Hne Hy]]%lookup_insert_Some; [rewrite Hv|]; by eapply V5.
Qed.

(** ** fref, fget and fput *)

Lemma file_facts x refs f : file_ok refs f x → (f =? NULL) = false ∧ (0 <=? f_mode x) && (f_mode x <? 8) = true ∧
  (-1 <=? f_pos x) = true ∧ (0 <=? f_refcount x) = true ∧ (0 <? f_refcount x) = true.
Proof. intros [K1 K2 K3 K4 K5 K6]. unfold NULL. split_and!; lia. Qed.

Lemma finv_ref L R F P s f x :
  finv L R F P s → v_files s !! f = Some x → f_vnode x ≠ NULL →
  finv L R (f :: F) P (with_file s f (set_frefcount (f_refcount x + 1) x)).
Proof.
  intros HI Hf Hv. destruct (fi_file _ _ _ _ _ HI f x Hf) as [K1 K2 K3 K4 K5 K6].
  eapply finv_file; [done..| |].
  - split; simpl; try done; [|lia]. rewrite K2, !cnt_app, cnt_cons, decide_True by done. lia.
  - intros g Hg. rewrite !cnt_app, cnt_cons, decide_False by done. lia.
Qed.

Lemma fref_run L R F P s f x :
  finv L R F P s → v_files s !! f = Some x → f_vnode x ≠ NULL → f_refcount x < INT_MAX →
  fref f s = RRet tt (with_file s f (set_frefcount (f_refcount x + 1) x)).
Proof.
  intros HI Hf Hv Hmax. destruct (file_facts _ _ _ (fi_file _ _ _ _ _ HI f x Hf)) as (_ & Hb1 & Hb2 & Hb3 & _).
  assert (Hb4 : (f_refcount x =? 0) || negb (f_vnode x =? NULL) = true) by lia.
  apply Z.ltb_lt in Hmax. unfold fref, int_inc. vrun. done.
Qed.

(** A descriptor is NULL or an open file with a vnode. *)
Lemma fd_file L R F P s (fd : nat) f :
  finv L R F P s → v_p_files s !! fd = Some f → f ≠ NULL → ∃ x, v_files s !! f = Some x ∧ f_vnode x ≠ NULL.
Proof.
  intros HI Hfd%list_elem_of_lookup_2 Hn. destruct (fi_refs _ _ _ _ _ HI f) as [x Hx]; [set_solver|done|].
  exists x. split; [done|]. by eapply (fi_desc _ _ _ _ _ HI).
Qed.

Lemma fget_run L R F P s fd f x :
  finv L R F P s → 0 ≤ fd < NFILES → v_p_files s !! Z.to_nat fd = Some f → v_files s !! f = Some x → f_vnode x ≠ NULL → f_refcount x < INT_MAX →
  fget fd s = RRet f (with_file s f (set_frefcount (f_refcount x + 1) x)).
Proof.
  intros HI Hr Hfd Hf Hv Hmax. destruct (file_facts _ _ _ (fi_file _ _ _ _ _ HI f x Hf)) as (Hb0 & _).
  unfold fget. erewrite kbind_of_ret by reflexivity. destruct (Z.eqb_spec fd (-1)); [lia|].
  destruct (Z.ltb_spec fd 0); [lia|]. destruct (Z.leb_spec NFILES fd); [lia|]. simpl.
  rewrite Hfd. erewrite kbind_of_ret by reflexivity. rewrite Hb0. by erewrite kbind_of_ret by (by eapply fref_run).
Qed.

(** Descriptors with no file. *)
Lemma fget_none s fd :
  fd ≠ -1 → fd < 0 ∨ NFILES ≤ fd ∨ v_p_files s !! Z.to_nat fd = Some NULL → fget fd s = RRet NULL s.
Proof.
  intros Hm Hfd. unfold fget. erewrite kbind_of_ret by reflexivity. destruct (Z.eqb_spec fd (-1)); [lia|].
  destruct (Z.ltb_spec fd 0); [done|]. destruct (Z.leb_spec NFILES fd); [done|]. simpl.
  destruct Hfd as [?|[?| ->]]; [lia..|]. done.
Qed.

Lemma fput_keep L R F P s f x :
  finv L R (f :: F) P s → v_files s !! f = Some x → 1 < f_refcount x →
  fput f s = RRet tt (with_file s f (set_frefcount (f_refcount x - 1) x)) ∧
  finv L R F P (with_file s f (set_frefcount (f_refcount x - 1) x)).
Proof.
  intros HI Hf Hrc. pose proof (fi_file _ _ _ _ _ HI f x Hf) as Hok.
  destruct (file_facts _ _ _ Hok) as (Hb0 & Hb1 & Hb2 & _ & Hb3). destruct Hok as [K1 K2 K3 K4 K5 K6].
  assert (Hb4 : (f_refcount x =? 1) || negb (f_vnode x =? NULL) = true).
  { destruct (Z.eqb_spec (f_vnode x) NULL); [|by rewrite orb_true_r]. rewrite K6 in Hrc by done. lia. }
  assert (Hb5 : (f_refcount x - 1 =? 0) = false) by lia. split.
  - unfold fput. by vrun.
  - rewrite cnt_app, cnt_cons, decide_True in K2 by done. eapply finv_file; [done..| |].
    + split; simpl; try done; [rewrite cnt_app; lia|lia|]. intros E. rewrite K6 in Hrc by done. lia.
    + intros g Hg. rewrite !cnt_app, cnt_cons, decide_False by done. lia.
Qed.

(** The last reference to a file: its vnode is put and the file freed.  The
    inode of the vnode may go away. *)
Definition fclosed L R F P s f x s' : Prop :=
  finv L R F P s' ∧ v_files s' = delete f (v_files s) ∧ v_p_files s' = v_p_files s ∧ v_p_cwd s' = v_p_cwd s ∧
  v_root s' = v_root s ∧ (∀ w, w ∈ R → vno_at s' w = vno_at s w) ∧
  (f_vnode x = NULL → ∀ k, content s' k = content s k) ∧
  ∀ k, vno_at s (f_vnode x) = Some k → ∀ a, a ≠ k ∨ stays L (file_vnodes (delete f (v_files s)) ++ R) s k →
    content s' a = content s a.

Lemma finv_delete L R F P s f x m s2 :
  finv L R (f :: F) P s → v_files s !! f = Some x → f_refcount x = 1 →
  v_p_files s2 = v_p_files s → v_file_allocator s2 = v_file_allocator s → delete f (v_files s2) = delete f (v_files s) →
  vninv L (file_vnodes (delete f (v_files s)) ++ R) (file_pieces (v_file_allocator s) (delete f (v_files s)) ++ P) (with_mem m s2) →
  finv L R F P (upd_files (delete f) (with_mem m s2)).
Proof.
  intros HI Hf Hrc Ep Ea Ef HV. destruct (fi_file _ _ _ _ _ HI f x Hf) as [K1 K2 K3 K4 K5 K6].
  rewrite cnt_app, cnt_cons, decide_True in K2 by done. pose proof (cnt_nonneg f (v_p_files s)). pose proof (cnt_nonneg f F).
  assert (Hno : f ∉ v_p_files s ++ F). { rewrite <- cnt_pos, cnt_app. lia. }
  destruct HI as [V1 V2 V3 V4 V5]. split; simpl.
  - rewrite Ef, Ea. by apply (vninv_other L _ _ (with_mem m s2)).
  - by rewrite Ep.
  - rewrite Ef, Ep. intros g y [Hne Hy]%lookup_delete_Some. destruct (V3 g y Hy) as [G1 G2 G3 G4 G5 G6].
    split; try done. rewrite G2, !cnt_app, cnt_cons, decide_False by done. lia.
  - rewrite Ef, Ep. intros g Hg Hn. rewrite lookup_delete_ne by (by intros ->). apply V4; [set_solver|done].
  - rewrite Ef, Ep. intros g y Hg [_ Hy]%lookup_delete_Some. by eapply V5.
Qed.

Lemma vput_file_run L R F P s f x :
  finv L R (f :: F) P s → v_files s !! f = Some x → f_refcount x = 1 →
  let s1 := with_file s f (set_frefcount 0 x) in
  let Rf := file_vnodes (delete f (v_files s)) ++ R in
  ∃ s2, (if f_vnode x =? NULL then kret tt else vput (f_vnode x)) s1 = RRet tt s2 ∧
    vninv L Rf (file_pieces (v_file_allocator s) (v_files s) ++ P) s2 ∧ vframe Rf s1 s2 ∧
    (f_vnode x = NULL → ∀ k, content s2 k = content s k) ∧
    ∀ k, vno_at s (f_vnode x) = Some k → ∀ a, a ≠ k ∨ stays L Rf s k → content s2 a = content s a.
Proof.
  intros HI Hf Hrc s1 Rf.
  assert (HV : vninv L (vnode_of_file (f, x) ++ Rf) (file_pieces (v_file_allocator s) (v_files s) ++ P) s1).
  { apply (vninv_other L _ _ s). eapply vninv_perm; [|done|apply (fi_vn _ _ _ _ _ HI)].
    rewrite (file_vnodes_delete _ _ _ Hf). unfold Rf. solve_Permutation. }
  unfold vnode_of_file in HV. simpl in HV. destruct (Z.eqb_spec (f_vnode x) NULL) as [E|E].
  - rewrite decide_True in HV by done. exists s1. split_and!; done.
  - rewrite decide_False in HV by done. simpl in HV.
    destruct (vi_refs _ _ _ _ HV (f_vnode x)) as [y Hy]; [set_solver|].
    assert (Hk : vno_at s1 (f_vnode x) = Some (vn_vno y)). { apply vno_at_Some. eauto. }
    destruct (vput_run _ _ _ _ _ _ HV Hk) as (s2 & Hr & HV2 & Hf2 & Hc2). exists s2. split_and!; try done.
    intros k Hk' a Ha. change (vno_at s (f_vnode x)) with (vno_at s1 (f_vnode x)) in Hk'.
    rewrite Hk in Hk'. injection Hk' as <-. by rewrite Hc2.
Qed.

Lemma fput_last_run L R F P s f x :
  finv L R (f :: F) P s → v_files s !! f = Some x → f_refcount x = 1 →
  ∃ s', fput f s = RRet tt s' ∧ fclosed L R F P s f x s'.
Proof.
  intros HI Hf Hrc. pose proof (fi_file _ _ _ _ _ HI f x Hf) as Hok.
  destruct (file_facts _ _ _ Hok) as (Hb0 & Hb1 & Hb2 & _ & Hb3).
  destruct (vput_file_run _ _ _ _ _ _ _ HI Hf Hrc) as (s2 & Hr2 & HV2 & [Hs2 Hf2] & Hn2 & Hc2).
  assert (Hfiles : v_files s2 = <[f := set_frefcount 0 x]> (v_files s)) by apply Hs2.
  destruct (km_obj_free_ok [v_vnode_allocator s2; v_file_allocator s2] (v_mem s2)
    ((PObj (v_vnode_allocator s2) <$> v_inuse s2) ++ (v_rfs_inodes s2 ≫= inode_pieces s2) ++
     file_pieces (v_file_allocator s) (delete f (v_files s)) ++ P) (v_file_allocator s2) f) as (m & Hrm & Hm).
  { eapply km_inv_perm; [|exact (vi_mem _ _ _ _ HV2)]. rewrite (file_pieces_delete _ _ _ _ Hf), (sm_fa _ _ Hs2). simpl.
    solve_Permutation. }
  exists (upd_files (delete f) (with_mem m s2)).
  assert (Hb4 : (f_refcount x =? 1) || negb (f_vnode x =? NULL) = true) by (by rewrite Hrc).
  assert (Hb5 : (f_refcount x - 1 =? 0) = true) by (by rewrite Hrc).
  split; [|split_and!].
  - unfold fput. do 6 (erewrite kbind_of_ret; [|cbv [KASSERT get_file kbind kget kderef]; simpl;
      rewrite ?Hb0, ?Hf, ?Hb1, ?Hb2, ?Hb3, ?Hb4; reflexivity]; cbn beta).
    erewrite kbind_of_ret by reflexivity. rewrite Hb5, Hrc. erewrite kbind_of_ret by exact Hr2.
    erewrite kbind_of_ret by reflexivity. by erewrite kbind_of_ret by (by apply mem_call_run).
  - eapply finv_delete; try done; [apply Hs2..| |].
    + rewrite Hfiles. apply delete_insert_eq.
    + eapply vninv_mem; [exact HV2|]. exact Hm.
  - simpl. rewrite Hfiles. apply delete_insert_eq.
  - apply Hs2.
  - apply Hs2.
  - apply Hs2.
  - intros w Hw. apply Hf2. set_solver.
  - done.
  - done.
Qed.

(** * Descriptors *)

(** A descriptor gets another file; the references are the same in all. *)
Lemma finv_desc L R F F' P s fd g f :
  finv L R F P s → v_p_files s !! fd = Some g → f = NULL ∨ (∃ x, v_files s !! f = Some x ∧ f_vnode x ≠ NULL) →
  (∀ h, h ≠ NULL → cnt h (<[fd := f]> (v_p_files s) ++ F') = cnt h (v_p_files s ++ F)) →
  finv L R F' P (upd_p_files <[fd := f]> s).
Proof.
  intros [V1 V2 V3 V4 V5] Hg Hf Hcnt. split; simpl.
  - by apply (vninv_other L _ _ s).
  - by rewrite length_insert.
  - intros h y Hy. destruct (V3 h y Hy) as [G1 G2 G3 G4 G5 G6]. split; try done. rewrite Hcnt; [done|unfold NULL; lia].
  - intros h Hh Hn. apply V4; [|done]. apply cnt_pos. rewrite <- Hcnt by done. by apply cnt_pos.
  - intros h y [j Hj]%list_elem_of_lookup Hy. destruct (decide (fd = j)) as [<-|Hne].
    + rewrite list_lookup_insert_eq in Hj by (by eapply lookup_lt_Some). injection Hj as <-.
      destruct Hf as [->|(x & ? & ?)]; [|by simplify_eq]. pose proof (fk_pos _ _ _ (V3 _ _ Hy)). unfold NULL in *. lia.
    + rewrite list_lookup_insert_ne in Hj by done. eapply V5; [|done]. by eapply list_elem_of_lookup_2.
Qed.

Lemma get_fd_run s fd f : 0 ≤ fd → v_p_files s !! Z.to_nat fd = Some f → get_fd fd s = RRet f s.
Proof. intros Hr Hfd. unfold get_fd. erewrite kbind_of_ret by reflexivity. by rewrite decide_True, Hfd. Qed.

(** What closing a descriptor does. *)
Definition closed_fd L R F P s fd f x s' : Prop :=
  finv L R F P s' ∧ v_p_files s' = <[Z.to_nat fd := NULL]> (v_p_files s) ∧ v_p_cwd s' = v_p_cwd s ∧ v_root s' = v_root s ∧
  (∀ w, w ∈ R → vno_at s' w = vno_at s w) ∧
  if f_refcount x =? 1 then v_files s' = delete f (v_files s) ∧
    ∀ k, vno_at s (f_vnode x) = Some k → ∀ a, a ≠ k ∨ stays L (file_vnodes (delete f (v_files s)) ++ R) s k →
      content s' a = content s a
  else v_files s' = <[f := set_frefcount (f_refcount x - 1) x]> (v_files s) ∧ ∀ a, content s' a = content s a.

Lemma do_close_run L R F P s fd f x :
  finv L R F P s → 0 ≤ fd < NFILES → v_p_files s !! Z.to_nat fd = Some f → v_files s !! f = Some x → f_refcount x < INT_MAX →
  ∃ s', do_close fd s = RRet 0 s' ∧ closed_fd L R F P s fd f x s'.
Proof.
  intros HI Hr Hfd Hf Hmax. pose proof (fi_file _ _ _ _ _ HI f x Hf) as Hok.
  destruct (file_facts _ _ _ Hok) as (Hb0 & _). pose proof (fk_held _ _ _ Hok) as Hrc.
  assert (Hv : f_vnode x ≠ NULL). { eapply (fi_desc _ _ _ _ _ HI); [|done]. by eapply list_elem_of_lookup_2. }
  set (s1 := with_file s f (set_frefcount (f_refcount x + 1) x)).
  pose proof (finv_ref _ _ _ _ _ _ _ HI Hf Hv) as HI1. fold s1 in HI1.
  set (s2 := upd_p_files <[Z.to_nat fd := NULL]> s1).
  assert (HI2 : finv L R (f :: f :: F) P s2).
  { eapply finv_desc; [exact HI1|done|by left|]. intros h Hh. rewrite !cnt_app, !cnt_cons. simpl.
    rewrite (cnt_insert _ _ _ f) by done. rewrite (decide_False (P := h = NULL)) by done. lia. }
  assert (Hf2 : v_files s2 !! f = Some (set_frefcount (f_refcount x + 1) x)) by apply lookup_insert_eq.
  destruct (fput_keep _ _ _ _ _ _ _ HI2 Hf2) as [Hr3 HI3]; [simpl; lia|].
  set (s3 := with_file s2 f _) in *.
  assert (Hf3 : v_files s3 !! f = Some (set_frefcount (f_refcount x) x)).
  { simpl. rewrite lookup_insert_eq. unfold set_frefcount. simpl. do 2 f_equal. lia. }
  assert (Hrun : ∀ s4, fput f s3 = RRet tt s4 → do_close fd s = RRet 0 s4).
  { intros s4 Hr4. unfold do_close. destruct (Z.ltb_spec fd 0); [lia|].
    erewrite kbind_of_ret by (by eapply fget_run). rewrite Hb0.
    erewrite kbind_of_ret by (apply get_fd_run; [lia|exact Hfd]). rewrite Hb0. erewrite kbind_of_ret by reflexivity.
    erewrite kbind_of_ret by exact Hr3. by erewrite kbind_of_ret by exact Hr4. }
  assert (Hx3 : ∀ n, <[f := set_frefcount n (set_frefcount (f_refcount x) x)]> (v_files s3) = <[f := set_frefcount n x]> (v_files s)).
  { intros n. simpl. by rewrite !insert_insert_eq. }
  assert (Hd3 : delete f (v_files s3) = delete f (v_files s)) by (simpl; by rewrite !delete_insert_eq).
  unfold closed_fd. destruct (Z.eqb_spec (f_refcount x) 1) as [E|E].
  - destruct (fput_last_run _ _ _ _ _ _ _ HI3 Hf3 E) as (s4 & Hr4 & C1 & C2 & C3 & C4 & C5 & C6 & _ & C8).
    exists s4. split; [by apply Hrun|]. rewrite Hd3 in *. split_and!; try done.
  - destruct (fput_keep _ _ _ _ _ _ _ HI3 Hf3) as [Hr4 HI4]; [simpl; lia|].
    eexists. split; [by apply Hrun|]. split_and!; try done. simpl. apply Hx3.
Qed.

(** ** The vnode of a file *)

Lemma file_node L R F P s f x :
  finv L R F P s → v_files s !! f = Some x → f_vnode x ≠ NULL →
  ∃ k n, vno_at s (f_vnode x) = Some k ∧ content s k = Some n.
Proof.
  intros HI Hf Hv. destruct (vi_refs _ _ _ _ (fi_vn _ _ _ _ _ HI) (f_vnode x)) as [y Hy].
  - rewrite (file_vnodes_delete _ _ _ Hf). unfold vnode_of_file. simpl. rewrite decide_False by done. set_solver.
  - destruct (vnode_view _ _ _ _ _ _ (fi_vn _ _ _ _ _ HI) Hy) as (i & n & _ & Hn & _). exists (vn_vno y), n.
    split; [|done]. apply vno_at_Some. eauto.
Qed.

Definition is_dir (n : node) : bool := if n is NDir _ _ then true else false.

Lemma fisdir_run L R P s f x k n :
  vninv L R P s → v_files s !! f = Some x → f_vnode x ≠ NULL → vno_at s (f_vnode x) = Some k → content s k = Some n →
  fisdir f s = RRet (is_dir n) s.
Proof.
  intros HI Hf Hv Hk Hn. apply vno_at_Some in Hk as (y & Hy & Ey).
  destruct (vnode_view _ _ _ _ _ _ HI Hy) as (i & n' & _ & Hn' & Hni & Hm & _). rewrite Ey, Hn in Hn'. injection Hn' as <-.
  assert (Hb : (f_vnode x =? NULL) = false) by (by apply Z.eqb_neq).
  assert (Hd : S_ISDIR (vn_mode y) = is_dir n). { rewrite Hm. destruct n; [done..|]. by destruct Hni as [[-> | ->] _]. }
  unfold fisdir, isdir. vrun. by rewrite Hd.
Qed.

(** ** dup *)

Lemma get_empty_fd_run s : get_empty_fd s = RRet (match list_find (λ f, f = NULL) (v_p_files s) with
  | Some (fd, _) => Z.of_nat fd | None => - EMFILE end) s.
Proof. unfold get_empty_fd. erewrite kbind_of_ret by reflexivity. by destruct (list_find _ _) as [[]|]. Qed.

(** The result of dup on an open file: the first free descriptor gets the file.
    On an error the reference that fget took is left behind. *)
Definition dup_result L R F P s f x (n : node) (ret : Z) s' : Prop :=
  let s1 := with_file s f (set_frefcount (f_refcount x + 1) x) in
  if is_dir n then ret = - EISDIR ∧ s' = s1 ∧ finv L R (f :: F) P s'
  else match list_find (λ f, f = NULL) (v_p_files s) with
  | None => ret = - EMFILE ∧ s' = s1 ∧ finv L R (f :: F) P s'
  | Some (fd, _) => ret = Z.of_nat fd ∧ s' = upd_p_files <[fd := f]> s1 ∧ finv L R F P s'
  end.

Lemma finv_given L R F P s f x fd :
  finv L R F P s → v_files s !! f = Some x → f_vnode x ≠ NULL → v_p_files s !! fd = Some NULL →
  finv L R F P (upd_p_files <[fd := f]> (with_file s f (set_frefcount (f_refcount x + 1) x))).
Proof.
  intros HI Hf Hv Hfd. eapply finv_desc; [by apply finv_ref|exact Hfd| |].
  - right. eexists. simpl. by rewrite lookup_insert_eq.
  - intros h Hh. simpl. rewrite !cnt_app, cnt_cons, (cnt_insert _ _ _ NULL) by done.
    rewrite (decide_False (P := h = NULL)) by done. lia.
Qed.

Lemma do_dup_run L R F P s fd f x k n :
  finv L R F P s → 0 ≤ fd < NFILES → v_p_files s !! Z.to_nat fd = Some f → v_files s !! f = Some x →
  vno_at s (f_vnode x) = Some k → content s k = Some n → f_refcount x < INT_MAX →
  ∃ ret s', do_dup fd s = RRet ret s' ∧ dup_result L R F P s f x n ret s'.
Proof.
  intros HI Hr Hfd Hf Hk Hn Hmax. destruct (file_facts _ _ _ (fi_file _ _ _ _ _ HI f x Hf)) as (Hb0 & _).
  assert (Hv : f_vnode x ≠ NULL). { eapply (fi_desc _ _ _ _ _ HI); [|done]. by eapply list_elem_of_lookup_2. }
  pose proof (finv_ref _ _ _ _ _ _ _ HI Hf Hv) as HI1. set (s1 := with_file s f _) in *.
  assert (Hd : fisdir f s1 = RRet (is_dir n) s1).
  { eapply fisdir_run; [apply (fi_vn _ _ _ _ _ HI1)|apply lookup_insert_eq|done..]. }
  unfold do_dup, dup_result. fold s1. destruct (Z.ltb_spec fd 0); [lia|].
  erewrite kbind_of_ret by (by eapply fget_run). fold s1. rewrite Hb0. erewrite kbind_of_ret by exact Hd.
  destruct (is_dir n); [eexists _, s1; split; [done|]; done|].
  erewrite kbind_of_ret by apply get_empty_fd_run. change (v_p_files s1) with (v_p_files s).
  destruct (list_find _ _) as [[m ?]|] eqn:Hl; [|eexists _, s1; split; [done|]; done].
  apply list_find_Some in Hl as (Hm & -> & _). destruct (Z.eqb_spec (- EMFILE) (Z.of_nat m)); [unfold EMFILE in *; lia|].
  erewrite kbind_of_ret by (apply get_fd_run; [lia|exact Hfd]). erewrite kbind_of_ret by reflexivity.
  eexists _, _. split; [done|]. split_and!; [done|by rewrite Nat2Z.id|]. rewrite Nat2Z.id. by apply finv_given.
Qed.

(** ** dup2 *)

(** The result of dup2 on open files: what was open at [nfd] is closed first. *)
Definition dup2_result L R F P s ofd nfd f x (n : node) g (ret : Z) s' : Prop :=
  let s1 := with_file s f (set_frefcount (f_refcount x + 1) x) in
  if nfd =? ofd then ret = nfd ∧ s' = s
  else if is_dir n then ret = - EISDIR ∧ s' = s1 ∧ finv L R (f :: F) P s'
  else ret = nfd ∧ finv L R F P s' ∧
    if g =? NULL then s' = upd_p_files <[Z.to_nat nfd := f]> s1
    else ∃ y s2, v_files s1 !! g = Some y ∧ closed_fd L R (f :: F) P s1 nfd g y s2 ∧ s' = upd_p_files <[Z.to_nat nfd := f]> s2.

Lemma finv_put_back L R F P s fd f x :
  finv L R (f :: F) P s → v_files s !! f = Some x → f_vnode x ≠ NULL → v_p_files s !! fd = Some NULL →
  finv L R F P (upd_p_files <[fd := f]> s).
Proof.
  intros HI Hf Hv Hfd. eapply finv_desc; [exact HI|exact Hfd|right; eauto|]. intros h Hh.
  rewrite !cnt_app, cnt_cons, (cnt_insert _ _ _ NULL) by done. rewrite (decide_False (P := h = NULL)) by done. lia.
Qed.

Lemma do_dup2_run L R F P s ofd nfd f x k n g :
  finv L R F P s → 0 ≤ ofd < NFILES → 0 ≤ nfd < NFILES → v_p_files s !! Z.to_nat ofd = Some f → v_files s !! f = Some x →
  vno_at s (f_vnode x) = Some k → content s k = Some n → v_p_files s !! Z.to_nat nfd = Some g →
  f_refcount x + 1 < INT_MAX → (∀ y, v_files s !! g = Some y → f_refcount y < INT_MAX) →
  ∃ ret s', do_dup2 ofd nfd s = RRet ret s' ∧ dup2_result L R F P s ofd nfd f x n g ret s'.
Proof.
  intros HI Hr Hr' Hfd Hf Hk Hn Hg Hmax Hmaxg. pose proof (fi_file _ _ _ _ _ HI f x Hf) as Hok.
  destruct (file_facts _ _ _ Hok) as (Hb0 & _). pose proof (fk_held _ _ _ Hok) as Hrc.
  assert (Hv : f_vnode x ≠ NULL). { eapply (fi_desc _ _ _ _ _ HI); [|done]. by eapply list_elem_of_lookup_2. }
  pose proof (finv_ref _ _ _ _ _ _ _ HI Hf Hv) as HI1. set (s1 := with_file s f _) in *.
  assert (Hf1 : v_files s1 !! f = Some (set_frefcount (f_refcount x + 1) x)) by apply lookup_insert_eq.
  assert (Hd : fisdir f s1 = RRet (is_dir n) s1).
  { eapply fisdir_run; [apply (fi_vn _ _ _ _ _ HI1)|exact Hf1|done..]. }
  unfold do_dup2, dup2_result. fold s1.
  assert ((ofd <? 0) || (nfd <? 0) || (NFILES <=? ofd) || (NFILES <=? nfd) = false) as -> by lia.
  erewrite kbind_of_ret by (eapply fget_run; (done || lia)). fold s1. rewrite Hb0. destruct (Z.eqb_spec nfd ofd) as [->|Hne].
  { destruct (fput_keep _ _ _ _ _ _ _ HI1 Hf1) as [Hp _]; [simpl; lia|]. eexists _, _.
    erewrite kbind_of_ret by exact Hp. split; [done|]. split; [done|]. unfold with_file, s1, with_file, upd_files. simpl.
    rewrite insert_insert_eq, insert_id; [by destruct s|]. rewrite Hf. f_equal. unfold set_frefcount. simpl. destruct x. simpl. f_equal. lia. }
  erewrite kbind_of_ret by exact Hd. destruct (is_dir n); [eexists _, s1; split; [done|]; done|].
  erewrite kbind_of_ret by (apply get_fd_run; [lia|exact Hg]).
  destruct (Z.eqb_spec (- EMFILE) nfd); [unfold EMFILE in *; lia|].
  destruct (Z.eqb_spec g NULL) as [->|Hgn].
  - erewrite kbind_of_ret by reflexivity. simpl.
    erewrite kbind_of_ret by (apply get_fd_run; [lia|exact Hfd]). erewrite kbind_of_ret by reflexivity.
    eexists _, _. split; [done|]. split_and!; [done| |done]. by apply finv_given.
  - destruct (fd_file _ _ _ _ _ _ _ HI1 Hg Hgn) as (y & Hy & Hyv).
    assert (Hmy : f_refcount y < INT_MAX).
    { simpl in Hy. apply lookup_insert_Some in Hy as [[_ <-]|[_ Hy]]; [simpl; lia|by apply Hmaxg]. }
    destruct (do_close_run _ _ _ _ _ nfd g y HI1 Hr' Hg Hy Hmy) as (s2 & Hc & Hcl). pose proof Hcl as (HI2 & Hp2 & _).
    erewrite kbind_of_ret by exact Hc. simpl.
    assert (Hfd2 : v_p_files s2 !! Z.to_nat ofd = Some f) by (rewrite Hp2, list_lookup_insert_ne by lia; done).
    erewrite kbind_of_ret by (apply get_fd_run; [lia|exact Hfd2]). erewrite kbind_of_ret by reflexivity.
    destruct (fd_file _ _ _ _ _ _ _ HI2 Hfd2) as (x2 & Hx2 & Hv2); [by apply Z.eqb_neq|].
    eexists _, _. split; [done|]. split_and!; [done| |by exists y, s2].
    eapply finv_put_back; [done..|]. rewrite Hp2, list_lookup_insert_eq; [done|]. by eapply lookup_lt_Some.
Qed.

(** * The position *)

(** The file as it is between fget and fput. *)
Definition ref_file x : file := set_frefcount (f_refcount x + 1) x.

Lemma finv_pos L R F P s f x p :
  finv L R F P s → v_files s !! f = Some x → 0 ≤ p < 2 ^ 31 → finv L R F P (with_file s f (set_pos p x)).
Proof.
  intros HI Hf Hp. destruct (fi_file _ _ _ _ _ HI f x Hf) as [K1 K2 K3 K4 K5 K6]. eapply finv_file; [done..| |done].
  split; try done.
Qed.

Lemma with_file_twice s f x y : with_file (with_file s f x) f y = with_file s f y.
Proof. unfold with_file, upd_files. simpl. by rewrite insert_insert_eq. Qed.

Lemma fput_pos_run L R F P s f x p :
  finv L R F P s → v_files s !! f = Some x → f_vnode x ≠ NULL → 0 ≤ p < 2 ^ 31 →
  fput f (with_file s f (set_pos p (ref_file x))) = RRet tt (with_file s f (set_pos p x)).
Proof.
  intros HI Hf Hv Hp. pose proof (fk_held _ _ _ (fi_file _ _ _ _ _ HI f x Hf)).
  pose proof (finv_pos _ _ _ _ _ _ _ p HI Hf Hp) as HI0.
  pose proof (finv_ref _ _ _ _ _ f (set_pos p x) HI0 ltac:(apply lookup_insert_eq) Hv) as HI1.
  rewrite with_file_twice in HI1. change (set_frefcount _ _) with (set_pos p (ref_file x)) in HI1.
  destruct (fput_keep _ _ _ _ _ _ _ HI1 ltac:(apply lookup_insert_eq)) as [Hr _]; [simpl; lia|].
  rewrite Hr, with_file_twice. unfold ref_file, set_frefcount, set_pos. simpl. do 3 f_equal. lia.
Qed.

Lemma set_pos_id x : set_pos (f_pos x) x = x.
Proof. by destruct x. Qed.
Lemma with_file_id s f x : v_files s !! f = Some x → with_file s f x = s.
Proof. intros Hf. unfold with_file, upd_files. rewrite insert_id by done. by destruct s. Qed.

Lemma fput_ref_run L R F P s f x :
  finv L R F P s → v_files s !! f = Some x → f_vnode x ≠ NULL → fput f (with_file s f (ref_file x)) = RRet tt s.
Proof.
  intros HI Hf Hv. pose proof (fk_at _ _ _ (fi_file _ _ _ _ _ HI f x Hf)) as Hp.
  pose proof (fput_pos_run _ _ _ _ _ _ _ (f_pos x) HI Hf Hv Hp) as Hr. rewrite (set_pos_id x), (with_file_id s f x) in Hr by done.
  change (set_pos (f_pos x) (ref_file x)) with (set_pos (f_pos (ref_file x)) (ref_file x)) in Hr. by rewrite set_pos_id in Hr.
Qed.

Lemma get_file_run s f x : v_files s !! f = Some x → get_file f s = RRet x s.
Proof. intros Hf. by vrun. Qed.

Lemma get_with_file s f x : get_file f (with_file s f x) = RRet x (with_file s f x).
Proof. apply get_file_run, lookup_insert_eq. Qed.

Lemma put_with_file s f x y : put_file f y (with_file s f x) = RRet tt (with_file s f y).
Proof. rewrite <- (with_file_twice s f x y). done. Qed.

(** ** lseek *)

Section Fd.
Context L R F P s (fd f : Z) x (HI : finv L R F P s) (Hr : 0 ≤ fd < NFILES).
Context (Hfd : v_p_files s !! Z.to_nat fd = Some f) (Hf : v_files s !! f = Some x) (Hmax : f_refcount x < INT_MAX).

Lemma fd_vnode : f_vnode x ≠ NULL ∧ (f =? NULL) = false.
Proof using HI Hfd Hf.
  split; [|by apply (file_facts _ _ _ (fi_file _ _ _ _ _ HI f x Hf))].
  eapply (fi_desc _ _ _ _ _ HI); [|done]. by eapply list_elem_of_lookup_2.
Qed.

Lemma fget_fd_run : fget fd s = RRet f (with_file s f (ref_file x)).
Proof using All. destruct fd_vnode. by eapply fget_run. Qed.

(** Where lseek goes. *)
Definition seek_pos (len offset whence : Z) : Z :=
  if whence =? SEEK_SET then offset else if whence =? SEEK_END then i32 (len + offset) else i32 (f_pos x + offset).

Lemma do_lseek_run y offset whence :
  v_vnodes s !! f_vnode x = Some y → - 2 ^ 31 ≤ offset < 2 ^ 31 → whence = SEEK_SET ∨ whence = SEEK_CUR ∨ whence = SEEK_END →
  let p := seek_pos (vn_len y) offset whence in
  do_lseek fd offset whence s = RRet (if p <? 0 then - EINVAL else p) (with_file s f (set_pos (Z.max 0 p) x)).
Proof using All.
  intros Hy Ho Hw p. destruct fd_vnode as [Hv Hb0].
  assert (Hp : - 2 ^ 31 ≤ p < 2 ^ 31).
  { unfold p, seek_pos. repeat case_match; [done|apply i32_range..]. }
  unfold do_lseek. destruct (Z.ltb_spec fd 0); [lia|]. erewrite kbind_of_ret by apply fget_fd_run. rewrite Hb0.
  assert (negb (whence =? SEEK_SET) && negb (whence =? SEEK_CUR) && negb (whence =? SEEK_END) = false) as ->
    by (by destruct Hw as [-> |[-> | ->]]).
  erewrite kbind_of_ret by apply get_with_file.
  erewrite (kbind_of_ret (if whence =? SEEK_SET then _ else _) _ _ tt (with_file s f (set_pos p (ref_file x)))).
  2: { unfold p, seek_pos. destruct Hw as [-> |[-> | ->]]; simpl.
       - apply put_with_file.
       - apply put_with_file.
       - erewrite kbind_of_ret by (apply get_vnode_run; exact Hy). apply put_with_file. }
  erewrite kbind_of_ret by apply get_with_file. cbn [f_pos set_pos ref_file].
  destruct (Z.ltb_spec p 0).
  - erewrite kbind_of_ret by apply put_with_file.
    change (set_pos 0 (set_pos p (ref_file x))) with (set_pos 0 (ref_file x)). erewrite kbind_of_ret by (eapply fput_pos_run; [done..|lia]). by rewrite Z.max_l by lia.
  - erewrite kbind_of_ret by (eapply fput_pos_run; [done..|lia]). rewrite Z.max_r by lia.
    by erewrite kbind_of_ret by apply get_with_file.
Qed.

(** ** read *)

Lemma file_bytes_length (size : Z) page : 0 ≤ size ≤ PAGE_SIZE → length page = Z.to_nat PAGE_SIZE →
  length (file_bytes size page) = Z.to_nat size.
Proof using. intros Hs Hp. unfold file_bytes. rewrite length_take. unfold PAGE_SIZE in *. lia. Qed.

(** A read returns the bytes from the position on and moves past them; at the end
    it returns 0 and leaves the reference that fget took. *)
Lemma do_read_run k size page n :
  vno_at s (f_vnode x) = Some k → content s k = Some (NFile size page) → Z.land (f_mode x) 1 = FMODE_READ → 0 ≤ n < 2 ^ 31 →
  let data := take (Z.to_nat n) (drop (Z.to_nat (f_pos x)) (file_bytes size page)) in
  let ret := Z.of_nat (length data) in
  do_read fd n s = RRet (ret, data) (if ret =? 0 then with_file s f (ref_file x) else with_file s f (set_pos (f_pos x + ret) x)).
Proof using All.
  intros Hk Hc Hm Hn data ret. destruct fd_vnode as [Hv Hb0].
  pose proof (fk_at _ _ _ (fi_file _ _ _ _ _ HI f x Hf)) as Hp.
  pose proof (finv_ref _ _ _ _ _ _ _ HI Hf Hv) as HI1. change (set_frefcount _ _) with (ref_file x) in HI1.
  pose proof (fi_vn _ _ _ _ _ HI1) as HV1. set (s1 := with_file s f (ref_file x)) in *.
  destruct (file_view _ _ _ s1 (f_vnode x) k size page HV1 Hk Hc) as (y & i & Hy & Ey & Hi & Ht & (Hmode & Hsz & Hpg & Hpl & Hs & _) & Hvm & Ho & Hlen).
  assert (Eret : ret = Z.max 0 (Z.min n (size - f_pos x))).
  { unfold ret, data. rewrite length_take, length_drop, file_bytes_length by done. unfold PAGE_SIZE in *. lia. }
  unfold do_read. erewrite kbind_of_ret by apply fget_fd_run. rewrite Hb0.
  erewrite kbind_of_ret by apply get_with_file. cbn [f_mode ref_file set_frefcount f_vnode f_pos]. rewrite Hm, Z.eqb_refl. cbn [negb].
  erewrite kbind_of_ret by (eapply fisdir_run; [exact HV1|apply lookup_insert_eq|done..]). cbn [is_dir].
  erewrite (kbind_of_ret (vop_read _ _ _) _ s1 (ret, data) s1).
  2: { unfold vop_read, get_ops. erewrite kbind_of_ret.
       2: { erewrite kbind_of_ret by (apply get_vnode_run; exact Hy). by rewrite Ho. }
       rewrite Eret. by eapply read_run. }
  cbn beta iota. destruct (Z.eqb_spec ret 0) as [E|E]; [done|].
  assert (Hpos : i32 (f_pos x + ret) = f_pos x + ret). { apply i32_small. unfold PAGE_SIZE in *. lia. }
  unfold upd_file. erewrite (kbind_of_ret (let* x0 := get_file f in _) _ s1 tt (with_file s f (set_pos (f_pos x + ret) (ref_file x)))).
  2: { erewrite kbind_of_ret by apply get_with_file. cbn [f_pos ref_file set_frefcount]. rewrite Hpos. apply put_with_file. }
  erewrite kbind_of_ret; [done|]. eapply fput_pos_run; [done..|]. unfold PAGE_SIZE in *. lia.
Qed.

End Fd.

(** ** write *)

Lemma finv_becomes L L' R R' R1 R2 F P s c s' :
  finv L R F P s → becomes L' R2 (file_pieces (v_file_allocator s) (v_files s) ++ P) R1 s c s' →
  R2 ≡ₚ file_vnodes (v_files s) ++ R' → finv L' R' F P s'.
Proof.
  intros [V1 V2 V3 V4 V5] (HV & [Hs _] & _) HR.
  split; rewrite ?(sm_files _ _ Hs), ?(sm_fa _ _ Hs), ?(sm_p_files _ _ Hs); try done. by eapply vninv_perm.
Qed.

(** The position is inside the file after a write. *)
Lemma written_inside L1 R1 P1 s1 v k size page offset data ret s2 :
  vno_at s1 v = Some k → v ∈ R1 → written L1 R1 P1 s1 k size page offset data ret s2 →
  ∃ y, v_vnodes s2 !! v = Some y ∧ vn_mode y = S_IFREG ∧ vn_len y = Z.max size (offset + ret).
Proof.
  intros Hv HvR (-> & HV2 & Hf2 & Hc2).
  destruct (file_view L1 R1 P1 s2 v k _ _ HV2 ltac:(by rewrite (fr_vnode _ _ _ Hf2)) ltac:(rewrite Hc2; apply fn_lookup_insert))
    as (y & i & Hy & _ & _ & _ & _ & Hm & _ & Hlen). eauto.
Qed.

Lemma vnode_in_files s f x : v_files s !! f = Some x → f_vnode x ≠ NULL → f_vnode x ∈ file_vnodes (v_files s).
Proof.
  intros Hf Hv. rewrite (file_vnodes_delete _ _ _ Hf). unfold vnode_of_file. simpl. rewrite decide_False by done. set_solver.
Qed.

(** The part of a write after the position is known. *)
Definition write_tail (f : Z) (buf : list Z) : vM M Z :=
  let* x := get_file f in
  let* bytes_wrote := vop_write (f_vnode x) (f_pos x) buf in
  (if 0 <? bytes_wrote then upd_file f (λ x, set_pos (i32 (f_pos x + bytes_wrote)) x) else kret tt) ;;;
  let* x := get_file f in
  let* v := get_vnode (f_vnode x) in
  KASSERT (S_ISCHR (vn_mode v) || S_ISBLK (vn_mode v) ||
           (S_ISREG (vn_mode v) && (f_pos x <=? vn_len v))) "position is inside the file" ;;;
  fput f ;;;
  kret bytes_wrote.

Lemma write_tail_run L R F P s f x k size page buf :
  finv L R (f :: F) P s → v_files s !! f = Some x → 1 < f_refcount x → f_vnode x ≠ NULL → f_pos x ≤ PAGE_SIZE →
  vno_at s (f_vnode x) = Some k → content s k = Some (NFile size page) → Z.of_nat (length buf) < 2 ^ 31 →
  ∃ ret s2, let x' := set_pos (f_pos x + ret) (set_frefcount (f_refcount x - 1) x) in
    write_tail f buf s = RRet ret (with_file s2 f x') ∧ finv L R F P (with_file s2 f x') ∧
    written L (file_vnodes (v_files s) ++ R) (file_pieces (v_file_allocator s) (v_files s) ++ P) s k size page (f_pos x) buf ret s2.
Proof.
  intros HI Hf Hrc Hv Hpos Hk Hc Hbuf. pose proof (fk_at _ _ _ (fi_file _ _ _ _ _ HI f x Hf)) as Hp.
  pose proof (fi_vn _ _ _ _ _ HI) as HV. assert (Hin : f_vnode x ∈ file_vnodes (v_files s) ++ R).
  { apply elem_of_app. left. by eapply vnode_in_files. }
  destruct (file_view _ _ _ _ _ _ _ _ HV Hk Hc) as (y & i & Hy & _ & _ & _ & (_ & _ & _ & _ & Hsz & _) & _ & Ho & _).
  destruct (write_run _ _ _ _ _ _ _ _ HV Hk Hc (f_pos x) buf ltac:(lia) Hbuf) as (ret & s2 & Hw & Hwr).
  destruct (written_inside _ _ _ _ _ _ _ _ _ _ _ _ Hk Hin Hwr) as (y2 & Hy2 & Hm2 & Hlen2).
  pose proof Hwr as (Eret & HV2 & [Hs2 _] & _).
  assert (Hret : 0 ≤ ret ∧ f_pos x + ret ≤ 4096). { unfold PAGE_SIZE in *. lia. }
  assert (HI2 : finv L R (f :: F) P s2) by (by eapply finv_becomes; [|apply Hwr|]).
  assert (Hf2 : v_files s2 !! f = Some x) by (by rewrite (sm_files _ _ Hs2)).
  pose proof (finv_pos _ _ _ _ _ _ _ (f_pos x + ret) HI2 Hf2 ltac:(lia)) as HI3.
  destruct (fput_keep _ _ _ _ _ _ _ HI3 ltac:(apply lookup_insert_eq) Hrc) as [Hput HI4].
  rewrite with_file_twice in Hput, HI4. exists ret, s2. cbv zeta. split_and!; [|done..].
  unfold write_tail. erewrite kbind_of_ret by (by apply get_file_run).
  erewrite (kbind_of_ret (vop_write _ _ _) _ s ret s2).
  2: { unfold vop_write, get_ops. erewrite kbind_of_ret.
       2: { erewrite kbind_of_ret by (apply get_vnode_run; exact Hy). by rewrite Ho. }
       done. }
  erewrite (kbind_of_ret (if 0 <? ret then _ else _) _ s2 tt (with_file s2 f (set_pos (f_pos x + ret) x))).
  2: { destruct (Z.ltb_spec 0 ret).
       - unfold upd_file. erewrite kbind_of_ret by (by apply get_file_run). rewrite i32_small by lia. done.
       - assert (ret = 0) as -> by lia. rewrite Z.add_0_r, set_pos_id, with_file_id by done. done. }
  erewrite kbind_of_ret by apply get_with_file. erewrite kbind_of_ret by (apply get_vnode_run; exact Hy2).
  erewrite (kbind_of_ret (KASSERT _ _)); [erewrite kbind_of_ret by exact Hput; done|].
  rewrite Hm2, Hlen2. cbn [f_pos set_pos]. unfold KASSERT. destruct (Z.leb_spec (f_pos x + ret) (Z.max size (f_pos x + ret))); [done|lia].
Qed.

Section Write.
Context L R F P s (fd f : Z) x (HI : finv L R F P s) (Hr : 0 ≤ fd < NFILES).
Context (Hfd : v_p_files s !! Z.to_nat fd = Some f) (Hf : v_files s !! f = Some x) (Hmax : f_refcount x + 1 < INT_MAX).

(** Where a write starts. *)
Definition write_pos (size : Z) : Z := if Z.land (f_mode x) FMODE_APPEND =? FMODE_APPEND then size else f_pos x.

(** What a write did: the file got the bytes that fit, and the position is after them. *)
Definition wrote k size page buf (ret : Z) s' : Prop :=
  let pos := write_pos size in
  ret = Z.min (Z.of_nat (length buf)) (PAGE_SIZE - pos) ∧ finv L R F P s' ∧
  v_files s' = <[f := set_pos (pos + ret) x]> (v_files s) ∧ v_p_files s' = v_p_files s ∧ v_p_cwd s' = v_p_cwd s ∧
  v_root s' = v_root s ∧ (∀ w, w ∈ file_vnodes (v_files s) ++ R → vno_at s' w = vno_at s w) ∧
  ∀ a, content s' a = <[k := Some (NFile (Z.max size (pos + ret)) (page_write page pos (take (Z.to_nat ret) buf)))]> (content s) a.

Lemma append_run k size page :
  vno_at s (f_vnode x) = Some k → content s k = Some (NFile size page) →
  (if Z.land (f_mode x) FMODE_APPEND =? FMODE_APPEND then let* pos := do_lseek fd 0 SEEK_END in upd_file f (set_pos pos)
   else kret tt) (with_file s f (ref_file x)) = RRet tt (with_file s f (set_pos (write_pos size) (ref_file x))).
Proof using All.
  intros Hk Hc. destruct (fd_vnode _ _ _ _ _ _ _ _ HI Hfd Hf) as [Hv Hb0]. unfold write_pos.
  destruct (Z.land (f_mode x) FMODE_APPEND =? FMODE_APPEND).
  2: { change (set_pos (f_pos x) (ref_file x)) with (set_pos (f_pos (ref_file x)) (ref_file x)). by rewrite set_pos_id. }
  pose proof (finv_ref _ _ _ _ _ _ _ HI Hf Hv) as HI1. change (set_frefcount _ _) with (ref_file x) in HI1.
  destruct (file_view _ _ _ _ (f_vnode x) k size page (fi_vn _ _ _ _ _ HI) Hk Hc) as (y & i & Hy & _ & _ & _ & Hni & _ & _ & Hlen).
  assert (Hs : 0 ≤ size < 2 ^ 31). { destruct Hni as (_ & _ & _ & _ & ? & _). unfold PAGE_SIZE in *. lia. }
  pose proof (do_lseek_run _ _ _ _ _ fd f (ref_file x) HI1 Hr Hfd ltac:(apply lookup_insert_eq) ltac:(simpl; lia) y 0 SEEK_END Hy ltac:(lia) ltac:(auto)) as Hl.
  assert (Hsp : seek_pos (ref_file x) (vn_len y) 0 SEEK_END = size).
  { unfold seek_pos. simpl. rewrite Z.add_0_r, Hlen. apply i32_small. lia. }
  cbv zeta in Hl. rewrite Hsp, Z.max_r in Hl by lia. destruct (Z.ltb_spec size 0); [lia|].
  erewrite kbind_of_ret by exact Hl. unfold upd_file. rewrite with_file_twice.
  erewrite kbind_of_ret by apply get_with_file. apply put_with_file.
Qed.

Lemma do_write_run k size page buf :
  vno_at s (f_vnode x) = Some k → content s k = Some (NFile size page) → Z.land (f_mode x) 2 = FMODE_WRITE →
  write_pos size ≤ PAGE_SIZE → Z.of_nat (length buf) < 2 ^ 31 →
  ∃ ret s', do_write fd buf s = RRet ret s' ∧ wrote k size page buf ret s'.
Proof using All.
  intros Hk Hc Hm Hwp Hbuf. destruct (fd_vnode _ _ _ _ _ _ _ _ HI Hfd Hf) as [Hv Hb0].
  pose proof (fk_at _ _ _ (fi_file _ _ _ _ _ HI f x Hf)) as Hp.
  destruct (file_view _ _ _ _ (f_vnode x) k size page (fi_vn _ _ _ _ _ HI) Hk Hc) as (_ & i & _ & _ & _ & _ & (_ & _ & _ & _ & Hsz & _) & _).
  pose proof (fk_held _ _ _ (fi_file _ _ _ _ _ HI f x Hf)) as Hrc.
  pose proof (append_run _ _ _ Hk Hc) as Happ. set (pos := write_pos size) in *.
  assert (Hpos : 0 ≤ pos < 2 ^ 31). { unfold pos, write_pos in *. unfold PAGE_SIZE in *. case_match; lia. }
  pose proof (finv_pos _ _ _ _ _ _ _ pos HI Hf Hpos) as HI0.
  pose proof (finv_ref _ _ _ _ _ f (set_pos pos x) HI0 ltac:(apply lookup_insert_eq) Hv) as HI1. rewrite with_file_twice in HI1.
  change (set_frefcount _ _) with (set_pos pos (ref_file x)) in HI1. set (s1 := with_file s f (set_pos pos (ref_file x))) in *.
  destruct (write_tail_run _ _ _ _ s1 f _ k size page buf HI1 ltac:(apply lookup_insert_eq)) as (ret & s2 & Hrun & HI2 & Hwr);
    [simpl; lia|done..|]. pose proof Hwr as (Eret & HV2 & [Hs2 Hv2] & Hc2).
  eexists ret, _. split; [|split_and!; [exact Eret|exact HI2|..]].
  - unfold do_write. erewrite kbind_of_ret by (eapply fget_fd_run; (done || lia)). rewrite Hb0.
    erewrite kbind_of_ret by apply get_with_file. cbn [f_mode ref_file set_frefcount]. rewrite Hm, Z.eqb_refl. cbn [negb].
    erewrite (kbind_of_ret (fisdir f) _ _ false (with_file s f (ref_file x))).
    2: { pose proof (finv_ref _ _ _ _ _ _ _ HI Hf Hv) as HI'.
         eapply fisdir_run with (n := NFile size page); [apply (fi_vn _ _ _ _ _ HI')|apply lookup_insert_eq|done..]. }
    erewrite kbind_of_ret by exact Happ. fold s1. erewrite kbind_of_ret by apply get_with_file.
    cbn [f_mode set_pos ref_file set_frefcount]. change (Z.land (f_mode x) FMODE_WRITE) with (Z.land (f_mode x) 2).
    rewrite Hm, Z.eqb_refl. unfold write_tail in Hrun. by erewrite kbind_of_ret in Hrun by apply get_with_file.
  - simpl. rewrite (sm_files _ _ Hs2). simpl. rewrite insert_insert_eq. f_equal. unfold set_pos, set_frefcount. simpl. f_equal. lia.
  - apply Hs2.
  - apply Hs2.
  - apply Hs2.
  - intros w Hw. apply Hv2. simpl. by rewrite (file_vnodes_same _ _ _ _ Hf).
  - exact Hc2.
Qed.
End Write.

(** * A new file *)

Lemma finv_mem L R F P s m :
  finv L R F P s → vninv L (file_vnodes (v_files s) ++ R) (file_pieces (v_file_allocator s) (v_files s) ++ P) (with_mem m s) →
  finv L R F P (with_mem m s).
Proof. intros [V1 V2 V3 V4 V5] HV. by split. Qed.

Lemma finv_new L R F P s f m :
  finv L R F P s → 0 < f → v_files s !! f = None →
  vninv L (file_vnodes (v_files s) ++ R) (PObj (v_file_allocator s) f :: file_pieces (v_file_allocator s) (v_files s) ++ P) (with_mem m s) →
  finv L R (f :: F) P (with_file (with_mem m s) f (File 0 0 1 NULL)).
Proof.
  intros [V1 V2 V3 V4 V5] Hf Hn HV.
  assert (Hno : f ∉ v_p_files s ++ F). { intros Hin. destruct (V4 f Hin) as [x Hx]; [unfold NULL; lia|]. congruence. }
  assert (Hc : cnt f (v_p_files s ++ F) = 0).
  { pose proof (cnt_nonneg f (v_p_files s ++ F)). pose proof (cnt_pos f (v_p_files s ++ F)). destruct (decide (0 < cnt f (v_p_files s ++ F))); [tauto|lia]. }
  split; simpl.
  - apply (vninv_other L _ _ (with_mem m s)). eapply vninv_perm; [..|exact HV].
    + rewrite file_vnodes_insert by done. done.
    + rewrite file_pieces_insert by done. done.
  - done.
  - intros g y [[<- <-]|[Hne Hy]]%lookup_insert_Some.
    + rewrite cnt_app in Hc. split; simpl; try done. rewrite cnt_app, cnt_cons, decide_True by done. lia.
    + destruct (V3 g y Hy) as [G1 G2 G3 G4 G5 G6]. split; try done. rewrite G2, !cnt_app, cnt_cons, decide_False by done. lia.
  - intros g Hg Hgn. destruct (decide (f = g)) as [<-|Hne]; [rewrite lookup_insert_eq; by eexists|].
    rewrite lookup_insert_ne by done. apply V4; [|done]. rewrite elem_of_app, elem_of_cons in Hg. set_solver.
  - intros g y Hg [[<- <-]|[Hne Hy]]%lookup_insert_Some; [set_solver|]. by eapply V5.
Qed.

Lemma fget_new_run L R F P s : finv L R F P s →
  (∃ f m, fget (-1) s = RRet f (with_file (with_mem m s) f (File 0 0 1 NULL)) ∧ 0 < f ∧ v_files s !! f = None ∧
     finv L R (f :: F) P (with_file (with_mem m s) f (File 0 0 1 NULL))) ∨
  (∃ m, fget (-1) s = RRet NULL (with_mem m s) ∧ finv L R F P (with_mem m s)).
Proof.
  intros HI. unfold fget. pose proof (vi_mem _ _ _ _ (fi_vn _ _ _ _ _ HI)) as Hm0.
  destruct (km_obj_alloc_ok _ _ _ (v_file_allocator s) Hm0 ltac:(set_solver)) as [(f & m & Hr & Hf & Hnew & Hm)|(m & Hr & Hm)];
    [left; exists f, m|right; exists m]; (erewrite kbind_of_ret by reflexivity); simpl.
  - assert (Hn : v_files s !! f = None).
    { apply eq_None_not_Some. intros [x Hx]. apply Hnew. rewrite !elem_of_app. do 2 right. left. unfold file_pieces.
      apply list_elem_of_fmap. exists (f, x). split; [done|]. by apply elem_of_map_to_list. }
    split_and!; [|done|done|].
    + erewrite kbind_of_ret by (by apply mem_call_run). destruct (Z.eqb_spec f NULL); [unfold NULL in *; lia|].
      erewrite kbind_of_ret by reflexivity. change (upd_files _ (with_mem m s)) with (with_file (with_mem m s) f (File 0 0 0 NULL)).
      erewrite (kbind_of_ret (fref f)); [done|]. unfold fref. erewrite kbind_of_ret by apply get_with_file.
      do 4 (erewrite (kbind_of_ret (KASSERT _ _)) by reflexivity). erewrite kbind_of_ret by reflexivity. apply put_with_file.
    + apply finv_new; [done..|]. eapply vninv_mem; [apply (fi_vn _ _ _ _ _ HI)|]. eapply km_inv_perm; [|exact Hm]. solve_Permutation.
  - split; [by erewrite kbind_of_ret by (by apply mem_call_run)|]. apply finv_mem; [done|].
    eapply vninv_mem; [apply (fi_vn _ _ _ _ _ HI)|]. exact Hm.
Qed.

(** The file gets its vnode. *)
Lemma finv_set_vnode L R F P s f x v :
  finv L (v :: R) F P s → v_files s !! f = Some x → f_vnode x = NULL → v ≠ NULL →
  finv L R F P (with_file s f (set_fvnode v x)).
Proof.
  intros [V1 V2 V3 V4 V5] Hf Hx Hv. split; simpl.
  - apply (vninv_other L _ _ s). eapply vninv_perm; [..|exact V1]; [|by rewrite file_pieces_same].
    rewrite <- insert_delete_eq, file_vnodes_insert by apply lookup_delete_eq.
    rewrite (file_vnodes_delete _ _ _ Hf). unfold vnode_of_file. simpl.
    rewrite (decide_False (P := v = NULL)) by done. rewrite (decide_True (P := f_vnode x = NULL)) by done. simpl. solve_Permutation.
  - done.
  - intros g y [[<- <-]|[Hne Hy]]%lookup_insert_Some; [|by apply V3]. destruct (V3 f x Hf) as [G1 G2 G3 G4 G5 G6].
    split; try done.
  - intros g Hg Hgn. destruct (decide (f = g)) as [<-|Hne]; [rewrite lookup_insert_eq; by eexists|].
    rewrite lookup_insert_ne by done. by apply V4.
  - intros g y Hg [[<- <-]|[Hne Hy]]%lookup_insert_Some; [done|]. by eapply V5.
Qed.
End Files.
