(* ===== verification/OpenInv.v ===== *)
(** Opening a file: do_open of kernel/fs/open.c, from the path to the descriptor. *)

From Stdlib Require Import Ascii.
From stdpp Require Import base functions numbers list gmap strings.
From S2P Require Import Prelude Sched Mutex PageAlloc Slab KMem Vfs VnodeInv Ramfs RamfsInv FsTree Namev NamevInv VfsSyscall PathInv FileInv.

Open Scope Z_scope.

(** The mode a file gets. *)
Definition open_mode (oflags : Z) : Z :=
  let append := if Z.land oflags 0x700 =? O_APPEND then FMODE_APPEND else 0 in
  if Z.land oflags 3 =? O_RDONLY then Z.lor append FMODE_READ else Z.lor (Z.lor append FMODE_WRITE) FMODE_READ.

(** The flag open_namev gets: one of O_CREAT, O_TRUNC and O_APPEND, or none. *)
Definition open_flag (oflags : Z) : Z :=
  let status := Z.land oflags 0x700 in
  if (status =? O_CREAT) || (status =? O_TRUNC) || (status =? O_APPEND) then status else 0.

Section Open.
Context {M : Type} `{KMemLaws M}.
Implicit Types (s : vfs M) (L : Z → Z) (R F : list Z) (P : list piece) (c : Z → option node).

(** The descriptor [fd] got a new file on the inode [k]. *)
Definition opened_fd L' R F P s fd oflags (k : Z) c s' : Prop := ∃ f v,
  v_files s !! f = None ∧ finv L' R F P s' ∧ v_p_files s' = <[Z.to_nat fd := f]> (v_p_files s) ∧
  v_files s' = <[f := File 0 (open_mode oflags) 1 v]> (v_files s) ∧ vno_at s' v = Some k ∧
  v_p_cwd s' = v_p_cwd s ∧ v_root s' = v_root s ∧ (∀ w, w ∈ file_vnodes (v_files s) ++ R → vno_at s' w = vno_at s w) ∧
  ∀ a, content s' a = c a.

(** The file structures a call that fails leaves behind: none, or a new one. *)
Definition file_left (lost : bool) s (F' : list Z) s' : Prop :=
  if lost then ∃ f, F' = [f] ∧ v_files s !! f = None ∧ v_files s' = <[f := File 0 0 1 NULL]> (v_files s)
  else F' = [] ∧ v_files s' = v_files s.

(** The call failed: the file it allocated stays, and one reference to the vnode of
    each of the inodes [ks]. *)
Definition open_failed ks lost L R F P s (ret err : Z) s' : Prop :=
  ret = - err ∧ ∃ vs F', Forall2 (λ v k, vno_at s' v = Some k) vs ks ∧ file_left lost s F' s' ∧ finv L (vs ++ R) (F' ++ F) P s' ∧ v_p_files s' = v_p_files s ∧ v_p_cwd s' = v_p_cwd s ∧
  v_root s' = v_root s ∧ (∀ w, w ∈ file_vnodes (v_files s) ++ R → vno_at s' w = vno_at s w) ∧ ∀ a, content s' a = content s a.

(** The path names a directory and the file is to be written: the file structure
    that stays has the vnode, but not a reference to it. *)
Definition open_refused L R F P s (ret k : Z) s' : Prop :=
  ret = - EISDIR ∧ ∃ f v, v_files s !! f = None ∧ v_files s' = <[f := File 0 0 1 v]> (v_files s) ∧
  vninv L (file_vnodes (v_files s) ++ R) (PObj (v_file_allocator s) f :: file_pieces (v_file_allocator s) (v_files s) ++ P) s' ∧
  v_p_files s' = v_p_files s ∧ v_p_cwd s' = v_p_cwd s ∧ v_root s' = v_root s ∧
  (∀ w, w ∈ file_vnodes (v_files s) ++ R → vno_at s' w = vno_at s w) ∧ ∀ a, content s' a = content s a.

Definition open_post L R F P s path oflags (fd : nat) (ret : Z) s' : Prop :=
  open_failed [] false L R F P s ret EBADF s' ∨
  match parent_of s path with
  | inl err => open_failed (stuck s path) true L R F P s ret err s'
  | inr kd =>
      let r := (parsed path).2 in
      match found (content s) kd r with
      | Some k =>
          if (if content s k is Some n then is_dir n else false) && (Z.land oflags 3 =? O_RDWR) then open_refused L R F P s ret k s'
          else ret = Z.of_nat fd ∧ opened_fd L R F P s ret oflags k (content s) s'
      | None =>
          if Z.land (open_flag oflags) O_CREAT =? 0 then open_failed [] true L R F P s ret ENOENT s'
          else open_failed [] true L R F P s ret ENOSPC s' ∨
            ∃ ino c', ret = Z.of_nat fd ∧ adds (content s) kd (copy_name r.1 r.2) (NFile 0 zero_bytes) ino c' ∧
              opened_fd (<[ino := 1]> L) R F P s ret oflags ino c' s'
      end
  end.

(** The last part of do_open. *)
Definition install_fd (fd f acc status : Z) : vM M Z :=
  put_fd fd f ;;;
  (if status =? O_APPEND then upd_file f (set_fmode FMODE_APPEND)
   else upd_file f (λ x, set_pos 0 (set_fmode 0 x))) ;;;
  (if acc =? O_RDONLY then upd_file f (λ x, set_fmode (Z.lor (f_mode x) FMODE_READ) x)
   else if acc =? O_WRONLY then upd_file f (λ x, set_fmode (Z.lor (f_mode x) FMODE_WRITE) x)
   else upd_file f (λ x, set_fmode (Z.lor (Z.lor (f_mode x) FMODE_WRITE) FMODE_READ) x)) ;;;
  kret fd.

Lemma install_fd_run s (fd : nat) f v oflags :
  v_files s !! f = Some (File 0 0 1 v) → Z.land oflags 3 = O_RDONLY ∨ Z.land oflags 3 = O_RDWR →
  install_fd (Z.of_nat fd) f (Z.land oflags 3) (Z.land oflags 0x700) s =
    RRet (Z.of_nat fd) (with_file (upd_p_files <[fd := f]> s) f (File 0 (open_mode oflags) 1 v)).
Proof.
  intros Hf Hacc. unfold install_fd, put_fd, upd_file, open_mode. rewrite Nat2Z.id.
  erewrite kbind_of_ret by reflexivity. set (s1 := upd_p_files <[fd := f]> s).
  assert (Hf1 : get_file f s1 = RRet (File 0 0 1 v) s1) by (by apply get_file_run).
  destruct (Z.land oflags 0x700 =? O_APPEND);
    (erewrite kbind_of_ret; [|erewrite kbind_of_ret by exact Hf1; reflexivity]);
    destruct Hacc as [-> | ->]; simpl;
    (erewrite kbind_of_ret; [|erewrite kbind_of_ret by apply get_with_file; apply put_with_file]); done.
Qed.

Lemma open_mode_range oflags : 0 ≤ open_mode oflags < 8.
Proof. unfold open_mode. by repeat case_match. Qed.

Lemma finv_installed L R F P s (fd : nat) f v oflags :
  finv L R (f :: F) P s → v_files s !! f = Some (File 0 0 1 v) → v ≠ NULL → v_p_files s !! fd = Some NULL →
  finv L R F P (with_file (upd_p_files <[fd := f]> s) f (File 0 (open_mode oflags) 1 v)).
Proof.
  intros HI Hf Hv Hfd. pose proof (finv_put_back _ _ _ _ _ _ _ _ HI Hf Hv Hfd) as HI1.
  destruct (fi_file _ _ _ _ _ HI1 f _ Hf) as [K1 K2 K3 K4 K5 K6].
  eapply finv_file; [exact HI1|exact Hf|done| |done]. split; try done. apply open_mode_range.
Qed.

(** From the vnode to the descriptor. *)
Lemma open_finish_wp L' R F P s s1 s2 m (fd : nat) f v k c oflags (n : node) (tail : vM M Z) (Q : Z → vfs M → Prop) :
  Z.land oflags 3 = O_RDONLY ∨ Z.land oflags 3 = O_RDWR →
  v_p_files s !! fd = Some NULL → v_files s !! f = None →
  s1 = with_file (with_mem m s) f (File 0 0 1 NULL) →
  finv L' (v :: R) (f :: F) P s2 → vframe (file_vnodes (v_files s1) ++ R) s1 s2 → (∀ a, content s2 a = c a) →
  vno_at s2 v = Some k → c k = Some n → is_dir n && negb (Z.land oflags 3 =? O_RDONLY) = false →
  (∀ s, tail s = install_fd (Z.of_nat fd) f (Z.land oflags 3) (Z.land oflags 0x700) s) →
  (∀ s', opened_fd L' R F P s (Z.of_nat fd) oflags k c s' → Q (Z.of_nat fd) s') →
  wp may_overflow (upd_file f (set_fvnode v) ;;;
    let* dir := isdir v in
    if dir && ((Z.land oflags 3 =? O_WRONLY) || (Z.land oflags 3 =? O_RDWR)) then vput v ;;; kret (- EISDIR)
    else tail) Q s2.
Proof.
  intros Hacc Hfd Hnew -> HI2 [Hs2 Hv2] Hc2 Hv Hn Hdir Htail HQ.
  assert (Hf2 : v_files s2 !! f = Some (File 0 0 1 NULL)). { rewrite (sm_files _ _ Hs2). apply lookup_insert_eq. }
  pose proof (fi_vn _ _ _ _ _ HI2) as HV2.
  assert (Hvn : v ≠ NULL).
  { apply vno_at_Some in Hv as (y & Hy & _). pose proof (vk_pos _ _ _ _ (vi_vnode _ _ _ _ HV2 v y Hy)). unfold NULL. lia. }
  apply wp_bind. eapply wp_run; [unfold upd_file; erewrite kbind_of_ret by (by apply get_file_run); done|].
  change (upd_files _ s2) with (with_file s2 f (File 0 0 1 v)).
  pose proof (finv_set_vnode _ _ _ _ _ _ _ _ HI2 Hf2 eq_refl Hvn) as HI3.
  change (set_fvnode v _) with (File 0 0 1 v) in HI3. set (s3 := with_file s2 f (File 0 0 1 v)) in *.
  apply wp_bind. eapply wp_run; [eapply (isdir_run _ _ _ s3); [apply (fi_vn _ _ _ _ _ HI3)|exact Hv|]|].
  { change (content s3 k) with (content s2 k). rewrite Hc2. exact Hn. }
  fold (is_dir n). assert (is_dir n && ((Z.land oflags 3 =? O_WRONLY) || (Z.land oflags 3 =? O_RDWR)) = false) as ->.
  { destruct Hacc as [E|E]; rewrite E in *; simpl in *; [by rewrite andb_false_r|done]. }
  assert (Hp3 : v_p_files s3 = v_p_files s) by apply Hs2.
  eapply wp_run; [rewrite Htail; apply (install_fd_run s3 fd f v); [apply lookup_insert_eq|done]|]. apply HQ.
  exists f, v. split_and!; try done.
  - eapply finv_installed; [done|apply lookup_insert_eq|done|by rewrite Hp3].
  - simpl. rewrite Nat2Z.id. f_equal. exact Hp3.
  - simpl. rewrite (sm_files _ _ Hs2). simpl. by rewrite !insert_insert_eq.
  - apply Hs2.
  - apply Hs2.
  - intros w Hw. apply Hv2. simpl. rewrite file_vnodes_insert by done. exact Hw.
Qed.

(** The vnode is put again, but the file keeps it. *)
Lemma open_isdir_wp L R F P s s1 s2 m f v k oflags (n : node) (tail : vM M Z) (Q : Z → vfs M → Prop) :
  v_files s !! f = None → s1 = with_file (with_mem m s) f (File 0 0 1 NULL) → finv L R (f :: F) P s1 →
  got L (file_vnodes (v_files s1) ++ R) (file_pieces (v_file_allocator s1) (v_files s1) ++ P) s1 k v s2 →
  0 < L k → content s k = Some n → is_dir n && (Z.land oflags 3 =? O_RDWR) = true →
  (∀ s', open_refused L R F P s (- EISDIR) k s' → Q (- EISDIR) s') →
  wp may_overflow (upd_file f (set_fvnode v) ;;;
    let* dir := isdir v in
    if dir && ((Z.land oflags 3 =? O_WRONLY) || (Z.land oflags 3 =? O_RDWR)) then vput v ;;; kret (- EISDIR)
    else tail) Q s2.
Proof.
  intros Hnew -> HI1 (HI2 & [Hs2 Hw2] & Hc2 & Hv) HL Hn Hdir HQ.
  assert (Hf2 : v_files s2 !! f = Some (File 0 0 1 NULL)). { rewrite (sm_files _ _ Hs2). apply lookup_insert_eq. }
  apply wp_bind. eapply wp_run; [unfold upd_file; erewrite kbind_of_ret by (by apply get_file_run); done|].
  change (upd_files _ s2) with (with_file s2 f (File 0 0 1 v)). set (s3 := with_file s2 f (File 0 0 1 v)).
  apply (vninv_other _ _ _ s2 (v_files s3) (v_root s3) (v_p_files s3) (v_p_cwd s3)) in HI2. fold s3 in HI2.
  change (vninv L (v :: file_vnodes (<[f := File 0 0 1 NULL]> (v_files s)) ++ R)
    (file_pieces (v_file_allocator s) (<[f := File 0 0 1 NULL]> (v_files s)) ++ P) s3) in HI2.
  apply wp_bind. eapply wp_run; [eapply (isdir_run _ _ _ s3); [exact HI2|exact Hv|]|].
  { change (content s3 k) with (content s2 k). rewrite Hc2. exact Hn. }
  fold (is_dir n). apply andb_true_iff in Hdir as [-> ->]. rewrite orb_true_r. cbn [andb].
  destruct (vput_run _ _ _ _ _ k HI2 Hv) as (s4 & Hr & HI4 & [Hs4 Hw4] & Hc4).
  apply wp_bind. eapply wp_run; [exact Hr|]. apply wp_ret. apply HQ. split; [done|]. exists f, v.
  assert (Hin : ∀ w, w ∈ file_vnodes (v_files s) ++ R → w ∈ file_vnodes (<[f := File 0 0 1 NULL]> (v_files s)) ++ R).
  { intros w. by rewrite file_vnodes_insert. }
  split_and!; [done|..].
  - rewrite (sm_files _ _ Hs4). simpl. rewrite (sm_files _ _ Hs2). simpl. apply insert_insert_eq.
  - eapply vninv_perm; [..|exact HI4]; simpl; [by rewrite file_vnodes_insert|by rewrite file_pieces_insert].
  - rewrite (sm_p_files _ _ Hs4). apply Hs2.
  - rewrite (sm_p_cwd _ _ Hs4). apply Hs2.
  - rewrite (sm_root _ _ Hs4). apply Hs2.
  - intros w Hw%Hin. rewrite Hw4 by done. by apply Hw2.
  - intros a. rewrite Hc4 by (right; by left). apply Hc2.
Qed.

Lemma paths_ok_more L R R' s : paths_ok L R s → R ⊆ R' → paths_ok L R' s.
Proof. intros [[? ?] [? ?] ?] Hsub. split; [split; [set_solver|done]|split; [set_solver|done]|done]. Qed.

Lemma failed_leaves ks L R F P s s1 m f s2 err :
  s1 = with_file (with_mem m s) f (File 0 0 1 NULL) → v_files s !! f = None → finv L R (f :: F) P s1 →
  leaves ks L (file_vnodes (v_files s1) ++ R) (file_pieces (v_file_allocator s1) (v_files s1) ++ P) s1 s2 →
  open_failed ks true L R F P s (- err) err s2.
Proof.
  intros E Hnew HI1 (vs & Hvs & Hb). pose proof Hb as (_ & [Hs Hv] & Hc). split; [done|]. exists vs, [f].
  split_and!; [done| |eapply finv_becomes; [exact HI1|exact Hb|solve_Permutation]| | | | |].
  - exists f. split_and!; [done..|]. rewrite (sm_files _ _ Hs). by rewrite E.
  - rewrite (sm_p_files _ _ Hs). by rewrite E.
  - rewrite (sm_p_cwd _ _ Hs). by rewrite E.
  - rewrite (sm_root _ _ Hs). by rewrite E.
  - intros w Hw. rewrite Hv; [by rewrite E|]. rewrite E. simpl. by rewrite file_vnodes_insert.
  - intros a. rewrite Hc. by rewrite E.
Qed.

Lemma do_open_wp L R F P s path oflags (fd : nat) :
  finv L R F P s → paths_ok L R s → starts_slash (path_rest path) = false → strlen path ≤ MAXPATHLEN →
  Z.land oflags 3 = O_RDONLY ∨ Z.land oflags 3 = O_RDWR → list_find (λ f, f = NULL) (v_p_files s) = Some (fd, NULL) →
  wp may_overflow (do_open path oflags) (open_post L R F P s path oflags fd) s.
Proof.
  intros HI HP Hst Hlen Hacc Hfd.
  unfold do_open. fold (open_flag oflags).
  assert ((Z.land oflags 3 =? O_RDONLY) || (Z.land oflags 3 =? O_WRONLY) || (Z.land oflags 3 =? O_RDWR) = true) as ->
    by (by destruct Hacc as [-> | ->]). cbn [negb].
  destruct (Z.ltb_spec MAXPATHLEN (strlen path)); [lia|].
  apply wp_bind. eapply wp_run; [apply get_empty_fd_run|]. rewrite Hfd.
  destruct (Z.eqb_spec (- EMFILE) (Z.of_nat fd)); [unfold EMFILE in *; lia|].
  apply list_find_Some in Hfd as (Hfd & _ & _). apply wp_bind.
  destruct (fget_new_run _ _ _ _ _ HI) as [(f & m & Hg & Hf0 & Hnew & HI1)|(m & Hg & HI1)]; (eapply wp_run; [exact Hg|]).
  2: { rewrite Z.eqb_refl. apply wp_ret. left. split; [done|]. exists [], []. by split_and!. }
  destruct (Z.eqb_spec f NULL); [unfold NULL in *; lia|].
  set (s1 := with_file (with_mem m s) f (File 0 0 1 NULL)) in *.
  assert (HP1 : paths_ok L (file_vnodes (v_files s1) ++ R) s1).
  { apply (paths_ok_more _ R); [|set_solver]. destruct HP as [A B C]. split; [exact A|exact B|exact C]. }
  apply wp_bind. eapply wp_mono; [apply (open_namev_wp _ _ _ _ _ _ (fi_vn _ _ _ _ _ HI1) HP1 Hst)|].
  intros [ret v] s2. unfold opened. change (parent_of s1 path) with (parent_of s path).
  change (content s1) with (content s). unfold open_post.
  destruct (parent_of s path) as [err|kd] eqn:Hpar.
  { change (stuck s1 path) with (stuck s path). intros (-> & Herr & Hl). destruct (Z.ltb_spec (- err) 0); [|lia].
    apply wp_ret. right. by eapply failed_leaves. }
  destruct (parent_linked _ _ _ _ _ HP Hst Hpar) as (HLd & size & l & Hc).
  assert (Hwr : (Z.land oflags 3 =? O_WRONLY) = false) by (by destruct Hacc as [-> | ->]).
  destruct (found (content s) kd (parsed path).2) as [k|] eqn:Hf.
  - intros (-> & Hgot). pose proof Hgot as (HI2 & Hf2 & Hc2 & Hv). simpl.
    destruct (found_linked _ _ _ _ _ _ _ (tree_sound _ _ (po_tree _ _ _ HP)) HLd Hc (proj2 (parsed_ok path Hst)) Hf) as [HLk [nd Hn]].
    rewrite Hn. destruct (is_dir nd && (Z.land oflags 3 =? O_RDWR)) eqn:Hd.
    { eapply (open_isdir_wp L R F P s s1 s2 m f v k oflags nd); try done. intros s' Hre. by right. }
    eapply (open_finish_wp L R F P s s1 s2 m fd f v k (content s) oflags nd); try done.
    + eapply finv_becomes; [exact HI1|by split_and!|solve_Permutation].
    + destruct Hacc as [E|E]; rewrite E in *; [by rewrite andb_false_r|done].
    + intros s0. unfold install_fd. rewrite Hwr, !andb_false_r. done.
    + intros s' Ho. right. done.
  - destruct (Z.land (open_flag oflags) O_CREAT =? 0).
    { intros [-> Hb]. apply wp_ret. right. by eapply failed_leaves, leaves_nil. }
    intros [(ino & c' & -> & Ha & Hb & Hv)|[-> Hb]].
    2: { apply wp_ret. right. left. by eapply failed_leaves, leaves_nil. }
    simpl. pose proof Hb as (HI2 & Hf2 & Hc2).
    assert (Hino : c' ino = Some (NFile 0 zero_bytes)).
    { destruct Ha as (? & ? & ? & ? & ? & _ & _ & ? & ->). assert (kd ≠ ino) by congruence.
      by rewrite fn_lookup_insert_ne, fn_lookup_insert. }
    eapply (open_finish_wp (<[ino := 1]> L) R F P s s1 s2 m fd f v ino c' oflags (NFile 0 zero_bytes)); try done.
    + eapply finv_becomes; [exact HI1|exact Hb|solve_Permutation].
    + intros s0. unfold install_fd. rewrite Hwr, !andb_false_r. done.
    + intros s' Ho. right. right. by exists ino, c'.
Qed.
End Open.
