(* ===== verification/BootInv.v ===== *)
(** Mounting establishes the invariants, and shutting down gives the memory back. *)

From stdpp Require Import base functions numbers list gmap strings.
From S2P Require Import Prelude Sched Mutex PageAlloc Slab KMem Vfs VnodeInv Ramfs RamfsInv FsTree Namev.
From S2P Require Import NamevInv VfsSyscall VfsBoot PathInv FileInv.

Open Scope Z_scope.

Section Mount.
Context {M : Type} `{KMemLaws M}.
Implicit Types (s : vfs M) (P : list piece).

(** Nothing is in memory yet. *)
Record unmounted P s : Prop := {
  um_ks : ks_ok (v_ks s) ∧ devs_ok (v_bytedevs s);
  um_mem : km_inv [v_vnode_allocator s; v_file_allocator s] (v_mem s) P;
  um_inuse : v_inuse s = [];
  um_vnodes : v_vnodes s = ∅
}.

Definition no_links : Z → Z := λ _, 0.

Lemma blank_bind n (f : Z → list piece) : f NULL = [] → replicate n NULL ≫= f = [].
Proof. intros Hf. induction n as [|n IH]; [done|]. simpl. by rewrite Hf. Qed.

Lemma unmounted_blank P s p m :
  unmounted P s → km_inv [v_vnode_allocator s; v_file_allocator s] m (PMalloc p :: P) →
  vninv no_links [] (PMalloc p :: P) (upd_rfs_inodes (λ _, replicate (Z.to_nat RAMFS_MAX_FILES) NULL) (with_mem m s)).
Proof.
  intros [U1 U2 U3 U4] Hm. generalize (Z.to_nat RAMFS_MAX_FILES). intros n. split; simpl.
  - done.
  - rewrite U3. by rewrite blank_bind.
  - intros v. rewrite U3, U4, lookup_empty. split; [by intros ?%elem_of_nil|by intros []].
  - rewrite U3. constructor.
  - intros v x. rewrite U4, lookup_empty. done.
  - intros v x. rewrite U4, lookup_empty. done.
  - intros v ?%elem_of_nil. done.
  - intros k q Hk Hq. apply lookup_replicate in Hk as [-> _]. done.
Qed.

Lemma blank_content s k : v_rfs_inodes s = replicate (Z.to_nat RAMFS_MAX_FILES) NULL → content s k = None.
Proof.
  intros E. unfold content. rewrite E. case_decide; [|done].
  destruct (replicate (Z.to_nat RAMFS_MAX_FILES) NULL !! Z.to_nat k) as [q|] eqn:Hq; [|done].
  apply lookup_replicate in Hq as [-> _]. done.
Qed.

(** The tree with nothing but the root. *)
Definition root_links : Z → Z := <[0 := 1]> no_links.

Lemma root_tree c : c 0 = Some (new_dir 0 0) → tree root_links c.
Proof.
  intros Hc. assert (HL : ∀ k, 0 < root_links k → k = 0).
  { intros k. unfold root_links, no_links. destruct (decide (0 = k)) as [<-|?]; [done|]. rewrite fn_lookup_insert_ne by done. lia. }
  assert (Hne : ∀ d j k, ¬ entry root_links c d j k).
  { intros d j k (sz & l & e & ->%HL & Hd & Hj & He & Hn & _). rewrite Hc in Hd. injection Hd as <- <-. apply Hn.
    exact (new_dir_entry 0 0 j e He Hj). }
  split.
  - split; [done|]. by eexists _, _.
  - intros k ->%HL. by eexists.
  - intros k size l ->%HL Hk. rewrite Hc in Hk. injection Hk as <- <-. split; [done|done| |].
    + exists 0. done.
    + apply new_dir_distinct.
  - exists []. split_and!; [constructor| |].
    + intros d j k. split; [by intros ?%elem_of_nil|by intros ?%Hne].
    + intros k. unfold count. simpl. unfold root_links, no_links. case_decide as E; [by subst|].
      rewrite fn_lookup_insert_ne by done. lia.
Qed.

(** What a successful mount leaves. *)
Definition mounted P s s' : Prop := ∃ rfs,
  vninv root_links [v_root s'] (PMalloc rfs :: P) s' ∧ vno_at s' (v_root s') = Some 0 ∧
  (∀ k, content s' k = <[0 := Some (new_dir 0 0)]> (λ _, None) k) ∧
  v_files s' = v_files s ∧ v_p_files s' = v_p_files s ∧ v_p_cwd s' = v_p_cwd s.

Lemma mount_wp P s : unmounted P s →
  wp may_starve ramfs_mount (λ ret s', (ret = 0 ∧ mounted P s s') ∨ ret = - ENOMEM ∨ ret = - ENOSPC) s.
Proof.
  intros HU. unfold ramfs_mount. apply wp_bind.
  destruct (km_kmalloc_ok _ _ _ 256 (um_mem _ _ HU)) as [(p & m & Hr & Hp & _ & Hm)|(m & Hr & Hm)]; [lia|..];
    (eapply wp_run; [by apply mem_call_run|]).
  2: { rewrite Z.eqb_refl. apply wp_ret. auto. }
  destruct (Z.eqb_spec p NULL); [unfold NULL in *; lia|]. apply wp_bind. eapply wp_run; [done|].
  pose proof (unmounted_blank _ _ _ _ HU Hm) as HI1. set (s1 := upd_rfs_inodes _ _) in *.
  assert (Hbl : ∀ k, content s1 k = None) by (intros; by apply blank_content).
  destruct (alloc_inode_run _ _ _ _ RAMFS_TYPE_DIR 0 HI1 eq_refl) as (ret & s2 & Hr2 & Ha & Hfind).
  apply wp_bind. eapply wp_run; [exact Hr2|].
  destruct Ha as [(Hret & _ & HI2 & Hs2 & Hv2 & Hc2)|(-> & _)]; [|apply wp_ret; auto].
  assert (ret = 0) as ->. { destruct (Hfind Hret) as [q Hq]. simpl in Hq. injection Hq as Hq _. lia. }
  simpl. apply wp_bind, wp_assert; [done|].
  assert (Hci : content s2 0 = Some (NDir 0 zero_dirents)) by (by rewrite Hc2, fn_lookup_insert).
  destruct (inode_node _ _ _ _ _ _ HI2 Hci) as (_ & q & i & Ht & Hq & Hi & (Hmode & Hsz & Hl & Hll) & _).
  set (l' := <[1%nat := Dirent 0 ".."]> (<[0%nat := Dirent 0 "."]> zero_dirents)).
  destruct (dir_edit _ _ _ _ _ _ _ l' (2 * sizeof_dirent) _ _ HI2 Hci Ht Hi eq_refl) as (HI3 & Hs3 & Hv3 & Hc3).
  set (s3 := edited s2 (v_vnodes s2) q (set_size (2 * sizeof_dirent) i) (<[rf_mem i := PDirents l']> (v_pages s2))) in *.
  assert (Hid : upd_rfs_inodes <[0%nat := q]> s3 = s3).
  { unfold upd_rfs_inodes. simpl. rewrite list_insert_id by exact Ht. done. }
  do 6 (apply wp_bind; eapply wp_run;
    [first [reflexivity | unfold get_rfs_inode, get_dirents; vrun; rewrite ?Ht, ?Hi, ?Hl; reflexivity]|]).
  change (upd_rfs_inodes <[0%nat := q]> (upd_inodes _ (upd_pages _ s2))) with (upd_rfs_inodes <[0%nat := q]> s3). rewrite Hid.
  apply wp_bind. eapply wp_mono; [eapply (vget_strict _ [] _ s3); [intros v; reflexivity|exact HI3|]|].
  { unfold inode_at. rewrite Hc3, fn_lookup_insert. by eexists. }
  intros v s4 (HI4 & [Hs4 _] & Hc4 & Hv). apply wp_bind. eapply wp_run; [done|]. apply wp_ret. left. split; [done|].
  pose proof (vsame_trans _ _ _ Hs2 (vsame_trans _ _ _ Hs3 Hs4)) as Hs. exists p. split_and!.
  - by apply (vninv_other _ _ _ s4).
  - exact Hv.
  - intros k. change (content (with_root v s4) k) with (content s4 k). rewrite Hc4, Hc3. unfold insert, fn_insert.
    case_decide; [done|]. rewrite Hc2. unfold insert, fn_insert. rewrite decide_False by done. apply Hbl.
  - apply Hs.
  - apply Hs.
  - apply Hs.
Qed.
End Mount.

(** * Shutting down *)

Section Shutdown.
Context {M : Type} `{KMemLaws M}.
Implicit Types (s : vfs M) (P : list piece).

(** Without references no vnode is in memory. *)
Lemma no_refs_empty L P s : vninv L [] P s → v_inuse s = [] ∧ v_vnodes s = ∅.
Proof.
  intros HI. assert (Hn : ∀ v, v_vnodes s !! v = None).
  { intros v. destruct (v_vnodes s !! v) as [x|] eqn:Hx; [|done].
    destruct (vi_vnode _ _ _ _ HI v x Hx) as [_ J2 J3 _ _ _ _ _ _ _]. unfold cnt in J2. simpl in J2. lia. }
  split; [|by apply map_empty].
  destruct (v_inuse s) as [|v l] eqn:E; [done|]. exfalso.
  assert (Hv : v ∈ v_inuse s) by (rewrite E; set_solver). apply (vi_inuse _ _ _ _ HI) in Hv as [x Hx]. by rewrite Hn in Hx.
Qed.

(** The inodes of a list are there, each with its own memory. *)
Definition to_free A P s (l : list Z) : Prop :=
  km_inv A (v_mem s) ((l ≫= inode_pieces s) ++ P) ∧ ∀ p, p ∈ l → p ≠ NULL → is_Some (v_inodes s !! p).

(** The inode and its page are given back. *)
Definition freed_inode s p i (m : M) : vfs M :=
  Vfs (v_ks s) m (v_vnode_allocator s) (v_file_allocator s) (v_vnodes s) (v_inuse s) (v_files s) (v_rfs_inodes s)
    (delete p (v_inodes s)) (if has_page i then delete (rf_mem i) (v_pages s) else v_pages s)
    (v_bytedevs s) (v_root s) (v_p_files s) (v_p_cwd s).

Lemma free_inode_run A P s p i l :
  to_free A P s (p :: l) → p ≠ NULL → v_inodes s !! p = Some i →
  ∃ m, (let* inode := get_inode p in
     (if negb (rf_mem inode =? NULL) && ((rf_mode inode =? RAMFS_TYPE_DATA) || (rf_mode inode =? RAMFS_TYPE_DIR))
      then mem_call (km_page_free (rf_mem inode)) ;;; kmodify (upd_pages (delete (rf_mem inode)))
      else kret tt) ;;;
     mem_call (km_kfree p) ;;; kmodify (upd_inodes (delete p))) s = RRet tt (freed_inode s p i m) ∧
    to_free A P (freed_inode s p i m) l.
Proof.
  intros [Hm Hl] Hp Hi. rewrite bind_cons in Hm. unfold inode_pieces at 1 in Hm. rewrite decide_False, Hi in Hm by done.
  rewrite <- app_assoc in Hm.
  assert (Hnot : p ∉ l).
  { intros Hin. apply km_inv_nodup in Hm. apply NoDup_app in Hm as (_ & Hd & _).
    apply (Hd (PMalloc p)); [set_solver|]. apply elem_of_app. left. apply list_elem_of_bind. exists p. split; [|done].
    unfold inode_pieces. rewrite decide_False by done. set_solver. }
  assert (Hrest : ∀ m, km_inv A m ((l ≫= inode_pieces s) ++ P) → to_free A P (freed_inode s p i m) l).
  { intros m Hm'. split.
    - simpl. rewrite (Forall_bind_ext (inode_pieces (freed_inode _ _ _ _)) (inode_pieces s)); [done|].
      apply Forall_forall. intros q Hq. unfold inode_pieces. simpl. by rewrite lookup_delete_ne by (by intros ->).
    - intros q Hq Hqn. simpl. rewrite lookup_delete_ne by (by intros ->). apply Hl; [set_solver|done]. }
  revert Hm Hrest. generalize ((l ≫= inode_pieces s) ++ P). intros Q Hm Hrest. clear Hl.
  unfold has_page in *. destruct s as [ks mem va fa vn iu fi rfs ino pg bd rt pf cwd]. simpl in *.
  destruct (_ || _) eqn:E; simpl in Hm.
  - destruct (km_page_free_ok A mem (PMalloc p :: Q) (rf_mem i)) as (m1 & Hr1 & Hm1).
    { eapply km_inv_perm; [|exact Hm]. solve_Permutation. }
    destruct (km_kfree_ok A m1 _ p Hm1) as (m2 & Hr2 & Hm2). exists m2. split; [|by apply Hrest].
    assert (Hz : (rf_mem i =? NULL) = false).
    { assert (0 < rf_mem i); [|unfold NULL; lia]. eapply (km_page_pos A mem (PMalloc p :: Q)), km_inv_perm; [|exact Hm]. solve_Permutation. }
    vnext (by vrun). rewrite Hz, E. simpl. vreduce. unfold mem_call, klabel, klift. simpl. rewrite Hr1. vstate. rewrite Hr2.
    unfold freed_inode, has_page. simpl. by rewrite E.
  - destruct (km_kfree_ok A mem _ p Hm) as (m2 & Hr2 & Hm2). exists m2. split; [|by apply Hrest].
    vnext (by vrun). rewrite E, andb_false_r. vreduce. unfold mem_call, klabel, klift. simpl. rewrite Hr2. vstate.
    unfold freed_inode, has_page. simpl. by rewrite E.
Qed.

(** Everything but the memory of inodes is left alone. *)
Definition same_but_inodes s s' : Prop :=
  v_ks s' = v_ks s ∧ v_vnodes s' = v_vnodes s ∧ v_inuse s' = v_inuse s ∧ v_files s' = v_files s ∧
  v_vnode_allocator s' = v_vnode_allocator s ∧ v_file_allocator s' = v_file_allocator s.

Lemma free_inodes_run A P s l :
  to_free A P s l → ∃ s', free_inodes l s = RRet tt s' ∧ km_inv A (v_mem s') P ∧ same_but_inodes s s'.
Proof.
  revert s. induction l as [|p l IH]; intros s Hs.
  - exists s. by destruct Hs.
  - simpl. destruct (Z.eqb_spec p NULL) as [->|Hp].
    + destruct (IH s) as (s' & Hr & Hrest); [|by exists s'].
      destruct Hs as [Hm Hl]. split; [exact Hm|]. intros q Hq. apply Hl. set_solver.
    + destruct (proj2 Hs p ltac:(set_solver) Hp) as [i Hi].
      destruct (free_inode_run _ _ _ _ _ _ Hs Hp Hi) as (m & Hr & Hs').
      destruct (IH _ Hs') as (s' & Hr' & Hm & Hsame). exists s'. split_and!; [|done|exact Hsame].
      by erewrite kbind_of_ret by exact Hr.
Qed.

(** [vfs_is_in_use] finds whether there is a reference besides the one of the
    file system. *)
Definition other_refs s R (v : Z) : bool := negb (cnt v R =? (if v_root s =? v then 1 else 0)).

Lemma is_in_use_list L R P s l ret :
  vninv L R P s → v_root s ∈ R → (∀ v, v ∈ l → v ∈ v_inuse s) →
  is_in_use ret l s = RRet (if existsb (other_refs s R) l then - EBUSY else ret) s.
Proof.
  intros HI Hroot. revert ret. induction l as [|v l IH]; intros ret Hl; [done|].
  destruct (proj1 (vi_inuse _ _ _ _ HI v) (Hl v ltac:(set_solver))) as [x Hx].
  destruct (vi_vnode _ _ _ _ HI v x Hx) as [_ J2 J3 J4 _ _ _ _ _ _]. cbn [is_in_use existsb].
  erewrite kbind_of_ret by (by vrun). cbn beta. erewrite (kbind_of_ret kget) by done. cbn beta. rewrite J4, Z.sub_0_r.
  do 4 (rewrite kassert_next by (destruct (v_root s =? v); lia)).
  rewrite IH by set_solver.
  replace (_ && _ || _) with (other_refs s R v) by (unfold other_refs; rewrite <- J2; destruct (v_root s =? v); lia).
  by destruct (other_refs s R v), (existsb _ l).
Qed.

Lemma vfs_is_in_use_run L R P s :
  vninv L (v_root s :: R) P s → vfs_is_in_use s = RRet (if decide (R = []) then 0 else - EBUSY) s.
Proof.
  intros HI. unfold vfs_is_in_use. erewrite kbind_of_ret by done. cbn beta.
  rewrite (is_in_use_list _ _ _ _ _ _ HI ltac:(set_solver) ltac:(done)). do 2 f_equal.
  destruct (existsb _ _) eqn:E; case_decide as ER; try done; exfalso.
  - apply existsb_exists in E as (v & Hv & Ho). apply list_elem_of_In, (vi_inuse _ _ _ _ HI) in Hv as [x Hx].
    destruct (vi_vnode _ _ _ _ HI v x Hx) as [_ J2 J3 _ _ _ _ _ _ _]. subst R. unfold other_refs in Ho. rewrite cnt_cons in *.
    change (cnt v []) with 0 in *. case_decide; destruct (Z.eqb_spec (v_root s) v); lia.
  - destruct R as [|v R]; [done|]. rewrite <- not_true_iff_false in E. apply E, existsb_exists. exists v. split.
    + apply list_elem_of_In, (vi_inuse _ _ _ _ HI), (vi_refs _ _ _ _ HI). set_solver.
    + unfold other_refs. rewrite !cnt_cons, (decide_True (P := v = v)) by done. pose proof (cnt_nonneg v R).
      destruct (Z.eqb_spec (v_root s) v); case_decide; lia.
Qed.

(** What is left: no vnode, and the memory of others. *)
Definition shut_down P s s' : Prop :=
  v_root s' = NULL ∧ v_vnodes s' = ∅ ∧ v_inuse s' = [] ∧ v_files s' = v_files s ∧
  km_inv [v_vnode_allocator s; v_file_allocator s] (v_mem s') P.

Lemma vfs_shutdown_run L P s fs :
  vninv L [v_root s] (PMalloc fs :: P) s → ∃ s', vfs_shutdown fs s = RRet 0 s' ∧ shut_down P s s'.
Proof.
  intros HI. destruct (vi_refs _ _ _ _ HI (v_root s) ltac:(set_solver)) as [x Hx].
  pose proof (vk_pos _ _ _ _ (vi_vnode _ _ _ _ HI _ _ Hx)) as Hpos.
  destruct (vput_run L [] (PMalloc fs :: P) s (v_root s) (vn_vno x) HI) as (s1 & Hr1 & HI1 & [Hs1 _] & _).
  { unfold vno_at. by rewrite Hx. }
  destruct (no_refs_empty _ _ _ HI1) as [Hiu Hvn].
  destruct (free_inodes_run [v_vnode_allocator s; v_file_allocator s] (PMalloc fs :: P) s1 (v_rfs_inodes s1))
    as (s2 & Hr2 & Hm2 & Hsame).
  { split.
    - pose proof (vi_mem _ _ _ _ HI1) as Hm. rewrite Hiu in Hm.
      by rewrite (sm_va _ _ Hs1), (sm_fa _ _ Hs1) in Hm.
    - intros p Hp Hn. apply list_elem_of_lookup in Hp as [k Hk].
      destruct (vi_inode _ _ _ _ HI1 k p Hk Hn) as (i & Hi & _). by exists i. }
  destruct (km_kfree_ok _ _ _ _ Hm2) as (m & Hr3 & Hm3). destruct Hsame as (_ & Ev & Ei & Ef & _).
  exists (with_mem m (with_root NULL s2)). split.
  - unfold vfs_shutdown. erewrite (kbind_of_ret kget) by done. cbn beta. rewrite kassert_next by (unfold NULL; lia).
    erewrite kbind_of_ret by (by apply (vfs_is_in_use_run L [] (PMalloc fs :: P))). cbn beta.
    rewrite decide_True by done. change (0 <? 0) with false. cbn iota.
    erewrite (kbind_of_ret ramfs_umount).
    2: { unfold ramfs_umount. erewrite (kbind_of_ret kget) by done. cbn beta. erewrite kbind_of_ret by exact Hr1. cbn beta.
         erewrite (kbind_of_ret kget) by done. cbn beta. by erewrite kbind_of_ret by exact Hr2. }
    cbn beta. erewrite (kbind_of_ret vnode_inuse) by done. cbn beta. rewrite Ei, Hiu, kassert_next by done.
    erewrite kbind_of_ret by done. cbn beta. by erewrite kbind_of_ret by (by apply mem_call_run).
  - split_and!; simpl; try done; try congruence. by rewrite Ef, (sm_files _ _ Hs1).
Qed.
Lemma vfs_shutdown_busy L R P s fs :
  vninv L (v_root s :: R) P s → R ≠ [] →
  vfs_shutdown fs s = RPanic "vfs_shutdown: found active vnodes in root filesystem".
Proof.
  intros HI HR. destruct (vi_refs _ _ _ _ HI (v_root s) ltac:(set_solver)) as [x Hx].
  pose proof (vk_pos _ _ _ _ (vi_vnode _ _ _ _ HI _ _ Hx)) as Hpos.
  unfold vfs_shutdown. erewrite (kbind_of_ret kget) by done. cbn beta. rewrite kassert_next by (unfold NULL; lia).
  erewrite kbind_of_ret by (by eapply vfs_is_in_use_run). cbn beta. by rewrite decide_False.
Qed.
End Shutdown.

(** * The boot sequence *)

Section Boot.
Context {M : Type} `{KMemLaws M}.
Implicit Types (s : vfs M) (P : list piece).

Lemma boot_cwd_run L R P s :
  vninv L R P s → v_root s ∈ R → cnt (v_root s) R < INT_MAX →
  ∃ s', boot_cwd s = RRet tt s' ∧ vninv L (v_root s :: R) P s' ∧ v_p_cwd s' = v_root s ∧ v_root s' = v_root s ∧
    (∀ k, content s' k = content s k) ∧ vno_at s' (v_root s) = vno_at s (v_root s) ∧
    v_files s' = v_files s ∧ v_p_files s' = v_p_files s.
Proof.
  intros HI Hr Hmax. destruct (vi_refs _ _ _ _ HI _ Hr) as [x Hx].
  pose proof (vninv_other _ _ _ _ (v_files s) (v_root s) (v_p_files s) (v_root s) HI) as HI1.
  destruct (vref_run _ _ _ _ _ _ HI1 Hx) as [Hv HI2].
  rewrite <- (vk_refs _ _ _ _ (vi_vnode _ _ _ _ HI _ x Hx)) in Hmax. rewrite (proj2 (Z.ltb_lt _ _) Hmax) in Hv. eexists. split_and!.
  - unfold boot_cwd. erewrite (kbind_of_ret kget) by done. cbn beta. erewrite kbind_of_ret by done. exact Hv.
  - exact HI2.
  - done.
  - done.
  - done.
  - unfold vno_at. simpl. rewrite lookup_alter_eq. by destruct (v_vnodes s !! v_root s).
  - done.
  - done.
Qed.

(** The invariants of the system calls hold, with nothing but the root in the
    tree, and the references of the file system and of the process. *)
Definition booted P s' : Prop := ∃ rfs,
  finv root_links [v_root s'; v_root s'] [] (PMalloc rfs :: P) s' ∧
  paths_ok root_links [v_root s'; v_root s'] s' ∧ v_p_cwd s' = v_root s' ∧
  ∀ k, content s' k = <[0 := Some (new_dir 0 0)]> (λ _, None) k.

Lemma vfs_init_run P s : unmounted P s →
  match vfs_init s with
  | RRet fs s' => mounted (PMalloc fs :: P) s s'
  | RPanic why => why = "fs" ∨ why = "Failed to mount root fs"
  | RSwitch s' _ => starved s'
  | _ => False
  end%string.
Proof.
  intros HU. unfold vfs_init.
  destruct (km_kmalloc_ok _ _ _ sizeof_fs (um_mem _ _ HU)) as [(fs & m & Hr & Hp & _ & Hm)|(m & Hr & Hm)];
    [unfold sizeof_fs; lia|..]; (erewrite kbind_of_ret by (by apply mem_call_run)); cbn beta.
  2: { unfold KASSERT, kbind. simpl. auto. }
  rewrite kassert_next by (unfold NULL; lia). change (mountfunc VFS_ROOTFS_TYPE) with (ramfs_mount (M := M)).
  assert (HU' : unmounted (PMalloc fs :: P) (with_mem m s)) by (by destruct HU; split).
  pose proof (mount_wp _ _ HU') as Hw. unfold wp in Hw. unfold kbind.
  destruct (ramfs_mount (with_mem m s)) as [ret s'| | | |]; simpl; try done.
  destruct Hw as [[-> Hm']|[->| ->]]; [exact Hm'|simpl; auto..].
Qed.

Lemma mounted_booted P s s1 : mounted P s s1 → v_files s = ∅ → v_p_files s = replicate (Z.to_nat NFILES) NULL →
  ∃ s', boot_cwd s1 = RRet tt s' ∧ booted P s'.
Proof.
  intros (rfs & HI & Hv & Hc & Hf & Hpf & _) Ef Epf. destruct (boot_cwd_run _ _ _ _ HI ltac:(set_solver) ltac:(by rewrite cnt_cons, decide_True))
    as (s' & Hr & HI' & Hcwd & Hroot & Hc' & Hv' & Hf' & Hpf').
  exists s'. split; [done|]. exists rfs. rewrite Hroot. split_and!.
  - assert (Hn : v_files s' = ∅) by congruence. split.
    + by rewrite Hn.
    + rewrite Hpf', Hpf, Epf. apply length_replicate.
    + intros f x. by rewrite Hn, lookup_empty.
    + intros f. rewrite app_nil_r, Hpf', Hpf, Epf. intros [-> _]%elem_of_replicate. done.
    + intros f x _. by rewrite Hn, lookup_empty.
  - rewrite <- Hroot. split.
    + split; [set_solver|]. rewrite Hroot. congruence.
    + rewrite Hcwd, Hroot. split; [set_solver|]. exists 0, (2 * sizeof_dirent). eexists. split_and!; [congruence|done|].
      by rewrite Hc', Hc.
    + apply root_tree. by rewrite Hc', Hc.
  - congruence.
  - intros k. by rewrite Hc', Hc.
Qed.
End Boot.

(** * The allocators *)

Section Allocators.
Implicit Types (s : vfs (pstate * sstate)).

(** A new allocator joins those that serve the file system. *)
Lemma smem_create A m H saa L K i m' :
  smem_inv A m H saa [] L K → H = [] → i ∉ ss_list m.2 → kinv saa m' [] ((saa, i - 4) :: L) K →
  ss_list m'.2 = i :: ss_list m.2 → ss_kmalloc m'.2 = ss_kmalloc m.2 →
  smem_inv (i :: A) m' [] saa [] ((saa, i - 4) :: L) K.
Proof.
  intros [I1 I2 I3 I4 I5 I6 I7] -> Hi HK El Ek. split; try done.
  - by rewrite Ek.
  - intros a [->|Ha]%elem_of_cons; rewrite El, Ek.
    + split_and!; [set_solver| |].
      * intros ->. by apply Hi, (ki_saa _ _ _ _ _ I1).
      * intros [k Hk]%list_elem_of_lookup. destruct (ki_kmalloc _ _ _ _ _ I1 k i Hk) as (_ & a & Ha & _).
        apply Hi. by apply (si_alloc _ _ _ (ki_sinv _ _ _ _ _ I1)) in Ha as [? _].
    + destruct (I3 a Ha) as (? & ? & ?). split_and!; [set_solver|done..].
  - by intros a p ?%elem_of_nil.
Qed.

(** The allocators serve [A] and nothing is held. *)
Definition slab_mem_at saa A m : Prop := ∃ L K, smem_inv A m [] saa [] L K.

Lemma create_mem_run A saa m name size :
  slab_mem_at saa A m → 0 ≤ size ≤ max_size →
  ∃ i m', slab_allocator_create name size saa m = RRet i m' ∧ slab_mem_at saa (if decide (i = NULL) then A else i :: A) m'.
Proof.
  intros (L & K & HI) Hs. pose proof (sm_kinv _ _ _ _ _ _ _ HI) as HK.
  destruct (create_run saa m [] L K name size HK Hs)
    as [(i & m' & a & Hr & Hn & Hi & HK' & El & Ek & _)|(m' & n & Hr & _ & Hrc & HK')].
  - exists i, m'. split; [done|]. rewrite decide_False by done. exists ((saa, i - 4) :: L), K. by eapply smem_create.
  - exists NULL, m'. split; [done|]. rewrite decide_True by done. exists L, K.
    eapply smem_same; [done|by eapply reclaimed_keeps|apply HK'].
Qed.

(** After the initialisations the file system has the memory it relies on, unless
    there was no memory for one of its allocators. *)
Definition initialised s s' : Prop :=
  (v_vnode_allocator s' ≠ NULL → v_file_allocator s' ≠ NULL → unmounted [] s') ∧
  v_files s' = v_files s ∧ v_p_files s' = v_p_files s.

Lemma caches_run saa s :
  slab_mem_at saa [] (v_mem s) → ks_ok (v_ks s) → devs_ok (v_bytedevs s) → v_vnodes s = ∅ →
  ∃ s', (vnode_init saa ;;; file_init saa) s = RRet tt s' ∧ initialised s s'.
Proof.
  intros HA Hks Hdev Hvn.
  destruct (create_mem_run [] saa (v_mem s) (Some "vnode"%string) sizeof_vnode HA) as (va & m1 & Hr1 & HA1); [done|].
  destruct (create_mem_run _ saa m1 (Some "file"%string) sizeof_file HA1) as (fa & m2 & Hr2 & HA2); [done|].
  eexists. split; [|split; [|split]].
  - unfold vnode_init, file_init. erewrite kbind_of_ret.
    2: { erewrite kbind_of_ret by reflexivity. erewrite kbind_of_ret by (apply mem_call_run; exact Hr1). reflexivity. }
    erewrite kbind_of_ret by (apply mem_call_run; exact Hr2). reflexivity.
  - clear Hr1 Hr2. simpl. intros Hva Hfa. rewrite !decide_False in HA2 by done. split; simpl; [done| |done|done].
    destruct HA2 as (L' & K' & [I1 I2 I3 I4 I5 I6 I7]). exists saa, [], L', K'. split; try done.
    + intros a Ha. apply I3. set_solver.
    + by intros a q ?%elem_of_nil.
  - done.
  - done.
Qed.

Lemma slab_mem_start saa m L : kinv saa m [] L [] → length (ss_kmalloc m.2) = 13%nat → slab_mem_at saa [] m.
Proof.
  intros HK Hlen. exists L, []. split; [exact HK|exact Hlen| |constructor|..]; [by intros a ?%elem_of_nil|by intros a q ?%elem_of_nil| |by exists []].
  by intros q ?%elem_of_nil.
Qed.
End Allocators.
