(* ===== verification/RefBound.v ===== *)
(** How many references a file system call takes.

    The counts of vnodes and files are of type int.  A call adds at most a number to
    any count that depends on the length of its paths, so that no count overflows as
    long as there is room for it. *)

From Stdlib Require Import Ascii.
From stdpp Require Import base numbers list gmap strings.
From S2P Require Import Prelude Sched Mutex PageAlloc Slab KMem Vfs Ramfs Namev VfsSyscall.

Open Scope Z_scope.

Section Bound.
Context {M : Type} `{KMem M}.
Implicit Types (s : vfs M) (n k : Z).

(** No count is above [n]. *)
Definition below n s : Prop :=
  map_Forall (λ _ x, vn_refcount x ≤ n ∧ 0 ≤ vn_nrespages x) (v_vnodes s) ∧ map_Forall (λ _ x, f_refcount x ≤ n) (v_files s).

(** From a state with no count above [n], [c] adds at most [k] to a count, and none
    overflows. *)
Definition costs {A} n k (c : vM M A) (Q : A → Prop) : Prop := ∀ s, below n s →
  match c s with RRet a s' => below (n + k) s' ∧ Q a | RFault why => why ≠ OVERFLOW | _ => True end.
Abbreviation cost n k c := (costs n k c (λ _, True)).

Lemma below_more n n' s : n ≤ n' → below n s → below n' s.
Proof. intros Hn [H1 H2]. split; (eapply map_Forall_impl; [done|]); simpl; lia. Qed.

Lemma below_same n s s' : v_vnodes s' = v_vnodes s → v_files s' = v_files s → below n s → below n s'.
Proof. unfold below. by intros -> ->. Qed.

Lemma costs_weaken {A} n k k' (c : vM M A) (Q Q' : A → Prop) : costs n k c Q → k ≤ k' → (∀ a, Q a → Q' a) → costs n k' c Q'.
Proof.
  intros Hc Hk HQ s Hs. specialize (Hc s Hs). destruct (c s); try done. destruct Hc as [Hb Ha]. split; [|auto].
  eapply below_more; [|done]. lia.
Qed.

Lemma costs_bind {A B} n k k1 (c : vM M A) (f : A → vM M B) (Q1 : A → Prop) (Q : B → Prop) :
  costs n k1 c Q1 → (∀ a, Q1 a → costs (n + k1) (k - k1) (f a) Q) → costs n k (kbind c f) Q.
Proof.
  intros Hc Hf s Hs. specialize (Hc s Hs). unfold kbind. destruct (c s) as [a s'| | | |]; try done. destruct Hc as [Hb Ha].
  specialize (Hf a Ha s' Hb). simpl. by replace (n + k1 + (k - k1)) with (n + k) in Hf by lia.
Qed.

Lemma costs_free {A B} n k (c : vM M A) (f : A → vM M B) (Q1 : A → Prop) (Q : B → Prop) :
  costs n 0 c Q1 → (∀ a, Q1 a → costs n k (f a) Q) → costs n k (kbind c f) Q.
Proof. intros Hc Hf. eapply costs_bind; [exact Hc|]. intros a Ha. rewrite Z.add_0_r, Z.sub_0_r. auto. Qed.

Lemma costs_assoc {A B C} n k (c : vM M A) (f : A → vM M B) (g : B → vM M C) (Q : C → Prop) :
  costs n k (kbind c (λ a, kbind (f a) g)) Q → costs n k (kbind (kbind c f) g) Q.
Proof.
  intros Hc s Hs. specialize (Hc s Hs). revert Hc. unfold kbind. destruct (c s); done.
Qed.

Lemma costs_ret {A} n k (a : A) (Q : A → Prop) : 0 ≤ k → Q a → costs n k (kret a) Q.
Proof. intros Hk Ha s Hs. split; [|done]. eapply below_more; [|done]. lia. Qed.
Lemma costs_panic {A} n k why (Q : A → Prop) : costs n k (kpanic why) Q.
Proof. by intros s. Qed.
Lemma costs_fault {A} n k why (Q : A → Prop) : why ≠ OVERFLOW → costs n k (kfault why) Q.
Proof. by intros Hw s. Qed.
Lemma costs_assert n b why : cost n 0 (KASSERT b why).
Proof. intros s Hs. unfold KASSERT. destruct b; [|done]. rewrite Z.add_0_r. done. Qed.
Lemma costs_get n : costs n 0 kget (below n).
Proof. intros s Hs. simpl. by rewrite Z.add_0_r. Qed.
Lemma costs_deref {A} n (o : option A) why : why ≠ OVERFLOW → costs n 0 (kderef o why) (λ a, o = Some a).
Proof. intros Hw s Hs. unfold kderef. destruct o; [|done]. by rewrite Z.add_0_r. Qed.
Lemma costs_modify n (f : vfs M → vfs M) : (∀ s, below n s → below n (f s)) → cost n 0 (kmodify f).
Proof. intros Hf s Hs. simpl. rewrite Z.add_0_r. auto. Qed.

Lemma costs_label {A} n name (c : vM M A) :
  (∀ w, (name +:+ w)%string ≠ OVERFLOW) → (∀ s a s', c s = RRet a s' → v_vnodes s' = v_vnodes s ∧ v_files s' = v_files s) →
  cost n 0 (klabel name c).
Proof.
  intros Hn Hc s Hs. unfold klabel. destruct (c s) as [a s'| | | |] eqn:E; simpl; try done.
  destruct (Hc _ _ _ E) as [E1 E2]. rewrite Z.add_0_r. split; [|done]. by eapply below_same.
Qed.

Lemma mem_cost {A} n (c : kM M A) : cost n 0 (mem_call c).
Proof.
  apply costs_label; [done|]. intros s a s'. unfold klift. destruct (c (v_mem s)); simpl; try done. by intros [= <- <-].
Qed.
Lemma ks_cost {A} n (c : kM kstate A) : cost n 0 (ks_call c).
Proof.
  apply costs_label; [done|]. intros s a s'. unfold klift. destruct (c (v_ks s)); simpl; try done. by intros [= <- <-].
Qed.

(** ** Counts *)

Lemma get_vnode_cost n v : costs n 0 (get_vnode v) (λ x, vn_refcount x ≤ n ∧ 0 ≤ vn_nrespages x).
Proof.
  intros s Hs. unfold get_vnode, kbind, kget, kderef. simpl. destruct (v_vnodes s !! v) as [x|] eqn:Hx; [|done].
  rewrite Z.add_0_r. split; [done|]. by apply (proj1 Hs v).
Qed.
Lemma get_file_cost n f : costs n 0 (get_file f) (λ x, f_refcount x ≤ n).
Proof.
  intros s Hs. unfold get_file, kbind, kget, kderef. simpl. destruct (v_files s !! f) as [x|] eqn:Hx; [|done].
  rewrite Z.add_0_r. split; [done|]. by apply (proj2 Hs f).
Qed.
Lemma put_vnode_cost n v x : vn_refcount x ≤ n ∧ 0 ≤ vn_nrespages x → cost n 0 (put_vnode v x).
Proof. intros Hx. apply costs_modify. intros s [H1 H2]. split; [|done]. by apply map_Forall_insert_2. Qed.
Lemma put_file_cost n f x : f_refcount x ≤ n → cost n 0 (put_file f x).
Proof. intros Hx. apply costs_modify. intros s [H1 H2]. split; [done|]. by apply map_Forall_insert_2. Qed.
Lemma int_inc_cost n x : x ≤ n → n + 1 ≤ INT_MAX → costs n 1 (int_inc x) (λ y, y ≤ n + 1).
Proof.
  intros Hx Hn s Hs. rewrite int_inc_run by lia. split; [|lia]. eapply below_more; [|done]. lia.
Qed.
Lemma upd_vnode_cost n v f : (∀ x, vn_refcount x ≤ n → 0 ≤ vn_nrespages x → vn_refcount (f x) ≤ n ∧ 0 ≤ vn_nrespages (f x)) → cost n 0 (upd_vnode v f).
Proof.
  intros Hf. eapply costs_bind; [apply get_vnode_cost|]. intros x [Hx Hp]. simpl. rewrite Z.add_0_r. apply put_vnode_cost. auto.
Qed.
Lemma upd_file_cost n f g : (∀ x, f_refcount x ≤ n → f_refcount (g x) ≤ n) → cost n 0 (upd_file f g).
Proof.
  intros Hf. eapply costs_bind; [apply get_file_cost|]. intros x Hx. simpl. rewrite Z.add_0_r. apply put_file_cost. auto.
Qed.
Lemma del_vnode_cost n v : cost n 0 (kmodify (upd_vnodes (delete v))).
Proof. apply costs_modify. intros s [H1 H2]. split; [|done]. by apply map_Forall_delete. Qed.
Lemma del_file_cost n f : cost n 0 (kmodify (upd_files (delete f))).
Proof. apply costs_modify. intros s [H1 H2]. split; [done|]. by apply map_Forall_delete. Qed.
End Bound.

(** ** Automation *)

Create HintDb costs discriminated.
#[export] Hint Resolve mem_cost ks_cost get_vnode_cost get_file_cost del_vnode_cost del_file_cost costs_assert costs_get : costs.
#[export] Hint Extern 1 (costs _ _ (kderef _ _) _) => apply costs_deref; discriminate : costs.
#[export] Hint Extern 1 (costs _ _ (int_inc _) _) => apply int_inc_cost; lia : costs.
#[export] Hint Extern 1 (costs _ _ (put_vnode _ _) _) => apply put_vnode_cost; simpl; lia : costs.
#[export] Hint Extern 1 (costs _ _ (put_file _ _) _) => apply put_file_cost; simpl; lia : costs.
#[export] Hint Extern 1 (costs _ _ (upd_vnode _ _) _) => apply upd_vnode_cost; intros ? ? ?; simpl; lia : costs.
#[export] Hint Extern 1 (costs _ _ (upd_file _ _) _) => apply upd_file_cost; intros ? ?; simpl; lia : costs.
#[export] Hint Extern 2 (costs _ _ (kmodify _) _) => apply costs_modify; intros ? ?; eapply below_same; [reflexivity..|done] : costs.
#[export] Hint Extern 1 (_ ≤ _) => lia : costs.

Ltac cost_step := lazymatch goal with
  | |- costs _ _ (kret _) _ => apply costs_ret; [lia|done]
  | |- costs _ _ (kpanic _) _ => apply costs_panic
  | |- costs _ _ (kfault _) _ => apply costs_fault; discriminate
  | |- costs _ _ (λ _, RFuel) _ => done
  | |- costs _ _ (kbind (kret _) _) _ => apply costs_free with (Q1 := λ _, True); [apply costs_ret; [lia|exact I]|intros ? _]
  | |- costs _ _ (kbind (kpanic _) _) _ => intros ? _; exact I
  | |- costs _ _ (kbind (kbind _ _) _) _ => apply costs_assoc
  | |- costs _ _ (kbind (match ?x with _ => _ end) _) _ => destruct x
  | |- costs _ _ (kbind _ _) _ => first [eapply costs_free; [solve [eauto with costs]|] | eapply costs_bind; [solve [eauto with costs]|]]; cbn beta; intros ? ?
  | |- costs _ _ (match ?x with _ => _ end) _ => destruct x
  | |- costs _ _ _ _ => eapply costs_weaken; [solve [eauto with costs]|lia|done]
  end.
Ltac cost_solve := repeat (cbn beta zeta; cost_step).

Section Ops.
Context {M : Type} `{KMem M}.
Implicit Types (s : vfs M) (n k : Z).
Abbreviation cost n k c := (costs (M := M) n k c (λ _, True)).

(** * vnode.c and file.c *)

Lemma vref_cost n v : n + 1 ≤ INT_MAX → cost n 1 (vref v).
Proof. intros. unfold vref. cost_solve. Qed.

Lemma read_vnode_cost n v : cost n 0 (ramfs_read_vnode v).
Proof. unfold ramfs_read_vnode, get_inode, put_inode. cost_solve. Qed.

Lemma bytedev_cost n id devs : cost n 0 (bytedev_lookup id devs).
Proof. induction devs; simpl; cost_solve. Qed.
#[local] Hint Resolve vref_cost read_vnode_cost bytedev_cost : costs.

Lemma special_cost n v : cost n 0 (init_special_vnode v).
Proof. unfold init_special_vnode. cost_solve. Qed.

Lemma find_vnode_cost n vno l : cost n 0 (find_vnode vno l).
Proof. induction l; simpl; cost_solve. Qed.
#[local] Hint Resolve special_cost find_vnode_cost : costs.

Lemma bring_in_cost n v vno : 1 ≤ n → cost n 0 (bring_in v vno).
Proof. intros. unfold bring_in. cost_solve. Qed.
#[local] Hint Resolve bring_in_cost : costs.

Lemma vget_cost n vno : 1 ≤ n → n + 1 ≤ INT_MAX → cost n 1 (vget vno).
Proof. intros. unfold vget. generalize 16%nat. intros rounds. induction rounds; simpl; cost_solve. Qed.

Lemma delete_vnode_cost n v : cost n 0 (ramfs_delete_vnode v).
Proof. unfold ramfs_delete_vnode, get_inode, put_inode. cost_solve. Qed.

Lemma query_cost n v : cost n 0 (ramfs_query_vnode v).
Proof. unfold ramfs_query_vnode, VNODE_TO_RAMFSINODE, get_inode. cost_solve. Qed.
#[local] Hint Resolve vget_cost delete_vnode_cost query_cost : costs.

Lemma vput_cost n v : cost n 0 (vput v).
Proof. unfold vput, free_respages. cost_solve. Qed.

Lemma fref_cost n f : n + 1 ≤ INT_MAX → cost n 1 (fref f).
Proof. intros. unfold fref. cost_solve. Qed.
#[local] Hint Resolve vput_cost fref_cost : costs.

Lemma fget_cost n fd : 0 ≤ n → n + 1 ≤ INT_MAX → cost n 1 (fget fd).
Proof. intros. unfold fget. cost_solve. Qed.

Lemma fput_cost n f : cost n 0 (fput f).
Proof. unfold fput. cost_solve. Qed.
#[local] Hint Resolve fget_cost fput_cost : costs.

(** * ramfs.c *)

Lemma dirent_cost n v : cost n 0 (VNODE_TO_DIRENT v).
Proof. unfold VNODE_TO_DIRENT, VNODE_TO_RAMFSINODE, get_inode. cost_solve. Qed.
Lemma get_dirents_cost n p : cost n 0 (get_dirents p).
Proof. unfold get_dirents. cost_solve. Qed.
Lemma get_bytes_cost n p : cost n 0 (get_bytes p).
Proof. unfold get_bytes. cost_solve. Qed.
Lemma get_inode_cost n i : cost n 0 (get_inode i).
Proof. unfold get_inode. cost_solve. Qed.
Lemma get_rfs_inode_cost n i : cost n 0 (get_rfs_inode i).
Proof. unfold get_rfs_inode. cost_solve. Qed.
Lemma get_ops_cost n v : cost n 0 (get_ops v).
Proof. unfold get_ops. cost_solve. Qed.
#[local] Hint Resolve dirent_cost get_dirents_cost get_bytes_cost get_inode_cost get_rfs_inode_cost get_ops_cost : costs.

Lemma alloc_inode_cost n type devid : cost n 0 (ramfs_alloc_inode type devid).
Proof. unfold ramfs_alloc_inode, put_inode. cost_solve. Qed.

Lemma ramfs_lookup_cost n d name len : 1 ≤ n → n + 1 ≤ INT_MAX → cost n 1 (ramfs_lookup d name len).
Proof. intros. unfold ramfs_lookup. cost_solve. Qed.
#[local] Hint Resolve alloc_inode_cost ramfs_lookup_cost : costs.

Lemma absent_cost n d name len : 1 ≤ n → n + 1 ≤ INT_MAX → cost n 1 (assert_absent d name len).
Proof. intros. unfold assert_absent. cost_solve. Qed.

Lemma set_entry_cost n d i e dsize : cost n 0 (set_entry d i e dsize).
Proof. unfold set_entry, put_dirents, VNODE_TO_RAMFSINODE, upd_inode, put_inode. cost_solve. Qed.

Lemma remove_entry_cost n d name len : cost n 0 (remove_entry d name len).
Proof. unfold remove_entry, put_dirents, VNODE_TO_RAMFSINODE, upd_inode, put_inode. cost_solve. Qed.
#[local] Hint Resolve absent_cost set_entry_cost remove_entry_cost : costs.

Lemma create_cost n d name len : 1 ≤ n → n + 2 ≤ INT_MAX → cost n 2 (ramfs_create d name len).
Proof. intros. unfold ramfs_create. cost_solve. Qed.
Lemma mknod_cost n d name len mode devid : 1 ≤ n → n + 1 ≤ INT_MAX → cost n 1 (ramfs_mknod d name len mode devid).
Proof. intros. unfold ramfs_mknod. cost_solve. Qed.
Lemma mkdir_cost n d name len : 1 ≤ n → n + 1 ≤ INT_MAX → cost n 1 (ramfs_mkdir d name len).
Proof. intros. unfold ramfs_mkdir, put_dirents, put_inode. cost_solve. Qed.
Lemma link_cost n v d name len : 1 ≤ n → n + 1 ≤ INT_MAX → cost n 1 (ramfs_link v d name len).
Proof. intros. unfold ramfs_link, upd_inode, put_inode. cost_solve. Qed.
Lemma unlink_cost n d name len : 1 ≤ n → n + 1 ≤ INT_MAX → cost n 1 (ramfs_unlink d name len).
Proof. intros. unfold ramfs_unlink, upd_inode, put_inode. cost_solve. Qed.
Lemma rmdir_cost n d name len : 1 ≤ n → n + 1 ≤ INT_MAX → cost n 1 (ramfs_rmdir d name len).
Proof. intros. unfold ramfs_rmdir, upd_inode, put_inode. cost_solve. Qed.
#[local] Hint Resolve create_cost mknod_cost mkdir_cost link_cost unlink_cost rmdir_cost : costs.

Lemma vop_read_cost n v offset count : cost n 0 (vop_read v offset count).
Proof. unfold vop_read, ramfs_read, special_file_read. cost_solve. Qed.
Lemma vop_write_cost n v offset data : cost n 0 (vop_write v offset data).
Proof. unfold vop_write, ramfs_write, special_file_write, put_bytes, put_inode. cost_solve. Qed.
Lemma vop_stat_cost n v : cost n 0 (vop_stat v).
Proof. unfold vop_stat, special_file_stat, ramfs_stat. cost_solve. Qed.
Lemma readdir_cost n v offset : cost n 0 (ramfs_readdir v offset).
Proof. unfold ramfs_readdir. cost_solve. Qed.
#[local] Hint Resolve vop_read_cost vop_write_cost vop_stat_cost readdir_cost : costs.

(** * namev.c *)

Abbreviation len path := (Z.of_nat (String.length path)).

Lemma lookup_cost n d name l : 1 ≤ n → n + 1 ≤ INT_MAX → cost n 1 (lookup d name l).
Proof. intros. unfold lookup. cost_solve. Qed.
#[local] Hint Resolve lookup_cost : costs.

Lemma walk_cost fuel : ∀ n d start brk, 1 ≤ n → n + Z.of_nat fuel ≤ INT_MAX → cost n (Z.of_nat fuel) (walk fuel d start brk).
Proof.
  induction fuel as [|fuel IH]; intros n d start brk H1 Hn; cbn [walk]; [cost_solve|].
  assert (IH' : ∀ d start brk, cost (n + 1) (Z.of_nat fuel) (walk fuel d start brk)) by (intros; apply IH; lia). cost_solve.
Qed.

Lemma dir_namev_cost n path base : 1 ≤ n → n + 1 + len path ≤ INT_MAX → cost n (1 + len path) (dir_namev path base).
Proof.
  intros H1 Hn. assert (Hw : ∀ n0 d start brk, n ≤ n0 ≤ n + 1 → cost n0 (len path) (walk (String.length path) d start brk)).
  { intros. apply walk_cost; lia. }
  unfold dir_namev. eapply costs_free; [eauto with costs|]. intros s _. cbn beta.
  destruct (match path with EmptyString => _ | String _ _ => _ end) as [d start]. cost_solve.
Qed.
#[local] Hint Extern 1 (costs _ _ (dir_namev _ _) _) => apply dir_namev_cost; lia : costs.

Lemma open_namev_cost n path flag base : 1 ≤ n → n + 4 + len path ≤ INT_MAX → cost n (4 + len path) (open_namev path flag base).
Proof. intros. unfold open_namev. cost_solve. Qed.
#[local] Hint Extern 1 (costs _ _ (open_namev _ _ _) _) => apply open_namev_cost; lia : costs.

(** * System calls *)

Lemma isdir_cost n v : cost n 0 (isdir v).
Proof. unfold isdir. cost_solve. Qed.
Lemma fisdir_cost n f : cost n 0 (fisdir f).
Proof. unfold fisdir, isdir. cost_solve. Qed.
Lemma get_fd_cost n fd : cost n 0 (get_fd fd).
Proof. unfold get_fd. cost_solve. Qed.
Lemma put_fd_cost n fd f : cost n 0 (put_fd fd f).
Proof. unfold put_fd. cost_solve. Qed.
Lemma empty_fd_cost n : cost n 0 get_empty_fd.
Proof. unfold get_empty_fd. cost_solve. Qed.
#[local] Hint Resolve isdir_cost fisdir_cost get_fd_cost put_fd_cost empty_fd_cost : costs.

Lemma do_read_cost n fd nbytes : 1 ≤ n → n + 1 ≤ INT_MAX → cost n 1 (do_read fd nbytes).
Proof. intros. unfold do_read. cost_solve. Qed.
Lemma do_lseek_cost n fd offset whence : 1 ≤ n → n + 1 ≤ INT_MAX → cost n 1 (do_lseek fd offset whence).
Proof. intros. unfold do_lseek. cost_solve. Qed.
#[local] Hint Resolve do_lseek_cost : costs.
Lemma do_write_cost n fd buf : 1 ≤ n → n + 2 ≤ INT_MAX → cost n 2 (do_write fd buf).
Proof. intros. unfold do_write. cost_solve. Qed.
Lemma do_close_cost n fd : 1 ≤ n → n + 1 ≤ INT_MAX → cost n 1 (do_close fd).
Proof. intros. unfold do_close. cost_solve. Qed.
#[local] Hint Resolve do_close_cost : costs.
Lemma do_dup_cost n fd : 1 ≤ n → n + 1 ≤ INT_MAX → cost n 1 (do_dup fd).
Proof. intros. unfold do_dup. cost_solve. Qed.
Lemma do_dup2_cost n ofd nfd : 1 ≤ n → n + 2 ≤ INT_MAX → cost n 2 (do_dup2 ofd nfd).
Proof. intros. unfold do_dup2. cost_solve. Qed.
Lemma do_mknod_cost n path mode devid : 1 ≤ n → n + 3 + len path ≤ INT_MAX → cost n (3 + len path) (do_mknod path mode devid).
Proof. intros. unfold do_mknod. cost_solve. Qed.
Lemma do_mkdir_cost n path : 1 ≤ n → n + 3 + len path ≤ INT_MAX → cost n (3 + len path) (do_mkdir path).
Proof. intros. unfold do_mkdir. cost_solve. Qed.
Lemma do_rmdir_cost n path : 1 ≤ n → n + 3 + len path ≤ INT_MAX → cost n (3 + len path) (do_rmdir path).
Proof. intros. unfold do_rmdir. cost_solve. Qed.
Lemma do_unlink_cost n path : 1 ≤ n → n + 3 + len path ≤ INT_MAX → cost n (3 + len path) (do_unlink path).
Proof. intros. unfold do_unlink. cost_solve. Qed.
#[local] Hint Extern 1 (costs _ _ (do_unlink _) _) => apply do_unlink_cost; lia : costs.
Lemma do_link_cost n from to : 1 ≤ n → n + 7 + len from + len to ≤ INT_MAX → cost n (7 + len from + len to) (do_link from to).
Proof. intros. unfold do_link. cost_solve. Qed.
#[local] Hint Extern 1 (costs _ _ (do_link _ _) _) => apply do_link_cost; lia : costs.
Lemma do_rename_cost n old new : 1 ≤ n → n + 10 + 2 * len old + len new ≤ INT_MAX →
  cost n (10 + 2 * len old + len new) (do_rename old new).
Proof. intros. unfold do_rename. cost_solve. Qed.
Lemma do_chdir_cost n path : 1 ≤ n → n + 4 + len path ≤ INT_MAX → cost n (4 + len path) (do_chdir path).
Proof. intros. unfold do_chdir. cost_solve. Qed.
Lemma do_getdent_cost n fd : 1 ≤ n → n + 1 ≤ INT_MAX → cost n 1 (do_getdent fd).
Proof. intros. unfold do_getdent. cost_solve. Qed.
Lemma do_stat_cost n path : 1 ≤ n → n + 2 + len path ≤ INT_MAX → cost n (2 + len path) (do_stat path).
Proof. intros. unfold do_stat. cost_solve. Qed.
Lemma do_open_cost n path oflags : 1 ≤ n → n + 12 + 3 * len path ≤ INT_MAX → cost n (12 + 3 * len path) (do_open path oflags).
Proof. intros. unfold do_open. cost_solve. Qed.
End Ops.
