(* ===== verification/VfsSafe.v ===== *)
(** The file system calls as the steps of a machine: from the state after boot,
    no sequence of calls panics, uses freed memory or loops, as long as each call
    keeps clear of the cases in [admissible] and the reference counts have room for
    what the calls can add to them ([call_cost], [room]).  [admissible] leaves out
    - paths that start with two slashes, are empty or longer than MAXPATHLEN, and new
      names of more than 27 characters;
    - unlink and rename where the directory of the name is not there;
    - rmdir of the root, of the working directory, and of "." or ".." with a slash
      behind;
    - links to directories, and link and stat where nobody holds the directory;
    - open with O_WRONLY, and of a directory for writing;
    - writes that start behind the page, getdent at a position between two entries,
      and transfers with device files, whose operations are parameters. *)

From Stdlib Require Import Ascii.
From stdpp Require Import base functions numbers list gmap strings.
From S2P Require Import Prelude Sched Mutex PageAlloc Slab KMem Vfs VnodeInv Ramfs RamfsInv FsTree Namev.
From S2P Require Import NamevInv VfsSyscall VfsBoot PathInv LinkInv FileInv OpenInv BootInv RefBound.

Open Scope Z_scope.

Inductive call :=
  | CMkdir (path : string) | CMknod (path : string) (devid : Z) | CUnlink (path : string) | CRmdir (path : string)
  | CLink (from to : string) | CRename (oldname newname : string) | CStat (path : string)
  | CChdir (path : string) | COpen (path : string) (oflags : Z) | CClose (fd : Z) | CDup (fd : Z) | CDup2 (ofd nfd : Z)
  | CLseek (fd offset whence : Z) | CRead (fd n : Z) | CWrite (fd : Z) (buf : list Z) | CGetdent (fd : Z).

Section Machine.
Context {M : Type} `{KMemLaws M}.
Implicit Types (s : vfs M) (L : Z → Z) (R F : list Z) (P : list piece) (c : Z → option node).

Definition exec (k : call) : vM M Z :=
  match k with
  | CMkdir path => do_mkdir path
  | CMknod path devid => do_mknod path S_IFCHR devid
  | CUnlink path => do_unlink path
  | CRmdir path => do_rmdir path
  | CLink from to => do_link from to
  | CRename oldname newname => do_rename oldname newname
  | CStat path => let* (ret, _) := do_stat path in kret ret
  | CChdir path => do_chdir path
  | COpen path oflags => do_open path oflags
  | CClose fd => do_close fd
  | CDup fd => do_dup fd
  | CDup2 ofd nfd => do_dup2 ofd nfd
  | CLseek fd offset whence => do_lseek fd offset whence
  | CRead fd n => let* (ret, _) := do_read fd n in kret ret
  | CWrite fd buf => do_write fd buf
  | CGetdent fd => let* (ret, _) := do_getdent fd in kret ret
  end.

(** The invariant of the machine: the references on vnodes are those of the open
    files, of the file system, of the process, and those that were left behind. *)
Definition holders s R : list Z := v_root s :: v_p_cwd s :: R.
Definition vfs_inv L R F P s : Prop := finv L (holders s R) F P s ∧ paths_ok L (holders s R) s.
Definition vfs_ok s : Prop := ∃ L R F P, vfs_inv L R F P s.

(** All the references, and the memory besides vnodes and inodes. *)
Definition all_refs s R : list Z := file_vnodes (v_files s) ++ holders s R.
Definition all_mem s P : list piece := file_pieces (v_file_allocator s) (v_files s) ++ P.

Lemma inv_vn L R F P s : vfs_inv L R F P s → vninv L (all_refs s R) (all_mem s P) s.
Proof. intros [HI _]. apply HI. Qed.

Lemma inv_paths L R F P s : vfs_inv L R F P s → paths_ok L (all_refs s R) s.
Proof. intros [_ HP]. eapply paths_ok_more; [done|]. unfold all_refs. set_solver. Qed.

Lemma paths_ok_held L R R' s : paths_ok L R s → paths_ok L (holders s R') s.
Proof. intros [[? ?] [? ?] ?]. split; [|split|done]; [|by unfold holders; set_solver|done]. split; [unfold holders; set_solver|done]. Qed.

(** A call that goes from [s] to [s'] and may leave references behind. *)
Lemma ok_becomes L L' R R' F P s c s' :
  vfs_inv L R F P s → becomes L' (R' ++ all_refs s R) (all_mem s P) (all_refs s R) s c s' →
  paths_ok L' (R' ++ all_refs s R) s' → vfs_ok s'.
Proof.
  intros [HI _] Hb HP. exists L', (R' ++ R), F, P. pose proof Hb as (_ & [Hs _] & _). split.
  - eapply finv_becomes; [exact HI|exact Hb|]. unfold all_refs, holders.
    rewrite (sm_root _ _ Hs), (sm_p_cwd _ _ Hs). solve_Permutation.
  - by eapply paths_ok_held.
Qed.

Lemma ok_same ks L R F P s ret ret' s' :
  vfs_inv L R F P s → same_tree ks L (all_refs s R) (all_mem s P) s ret ret' s' → vfs_ok s'.
Proof.
  intros HV [_ (vs & _ & Hb)]. eapply ok_becomes; [done..|]. eapply paths_ok_same; [by eapply inv_paths|done|set_solver].
Qed.

(** ** Calls with a path *)

(** A path that does not start with two slashes, of a length the calls accept. *)
Definition good_path (path : string) : Prop := starts_slash (path_rest path) = false ∧ 1 ≤ strlen path ≤ MAXPATHLEN.

(** The last name fits a directory entry. *)
Definition short_name (path : string) : Prop := (parsed path).2.2 ≤ NAME_LEN - 1.

(** The names "." and "..", and none. *)
Definition plain_name (path : string) : Prop :=
  piece_ok (parsed path).2 ∧ piece_of (parsed path).2 ≠ "."%string ∧ piece_of (parsed path).2 ≠ ".."%string.

Lemma new_name L R s path kd :
  paths_ok L R s → good_path path → short_name path → parent_of s path = inr kd →
  found (content s) kd (parsed path).2 = None →
  0 < L kd ∧ copy_name (parsed path).2.1 (parsed path).2.2 = piece_of (parsed path).2 ∧
  piece_of (parsed path).2 ≠ EmptyString ∧ unused (content s) kd (piece_of (parsed path).2).
Proof.
  intros HP [Hst _] Hsh Hpar Hf. destruct (parent_linked _ _ _ _ _ HP Hst Hpar) as (HL & size & l & Hc).
  destruct (found_None _ _ _ _ _ Hc (proj2 (parsed_ok path Hst)) Hf) as (Hok & Hg & _).
  split_and!; [done|by apply copy_name_piece|by apply piece_nonempty|]. intros size' l' Hc'. by simplify_eq.
Qed.

Lemma entered_ok L R F P s path kd (n : Z → node) ret s' :
  vfs_inv L R F P s → good_path path → short_name path → parent_of s path = inr kd →
  found (content s) kd (parsed path).2 = None → (∀ ino, (∀ size l, n ino ≠ NDir size l) ∨ n ino = new_dir kd ino) →
  entered_new L (all_refs s R) (all_mem s P) s kd (parsed path).2 n ret s' → vfs_ok s'.
Proof.
  intros HV Hg Hsh Hpar Hf Hn [(ino & c' & _ & Ha & Hb)|Hsame]; [|by eapply ok_same].
  pose proof (inv_paths _ _ _ _ _ HV) as HP. destruct (new_name _ _ _ _ _ HP Hg Hsh Hpar Hf) as (HL & E & Hne & Hun).
  eapply (ok_becomes _ _ _ []); [done..|]. rewrite E in Ha. by eapply paths_ok_adds.
Qed.

Lemma mkdir_ok s path : vfs_ok s → good_path path → short_name path → wp may_overflow (do_mkdir path) (λ _, vfs_ok) s.
Proof.
  intros (L & R & F & P & HV) Hg Hsh. eapply wp_mono.
  { eapply (do_mkdir_wp L (all_refs s R) (all_mem s P)); [by eapply inv_vn|by eapply inv_paths|apply Hg..]. }
  intros ret s'. unfold mkdir_post. destruct (parent_of s path) as [err|kd] eqn:Hpar; [by eapply ok_same|].
  cbv zeta. destruct (NAME_LEN <? _); [by eapply ok_same|].
  destruct (found _ _ _) eqn:Hf; [by eapply ok_same|]. eapply entered_ok; try done. auto.
Qed.

Lemma mknod_ok s path devid : vfs_ok s → good_path path → short_name path →
  wp may_overflow (do_mknod path S_IFCHR devid) (λ _, vfs_ok) s.
Proof.
  intros (L & R & F & P & HV) Hg Hsh. eapply wp_mono.
  { eapply (do_mknod_wp L (all_refs s R) (all_mem s P)); [by eapply inv_vn|by eapply inv_paths|apply Hg..]. }
  intros ret s'. unfold mknod_post. destruct (parent_of s path) as [err|kd] eqn:Hpar; [by eapply ok_same|].
  cbv zeta. destruct (found _ _ _) eqn:Hf; [by eapply ok_same|]. eapply entered_ok; try done. auto.
Qed.

(** A name was removed, and the working directory is another inode. *)
Lemma drops_ok L R R' F P s path kd k' n s' :
  vfs_inv L R F P s → good_path path → parent_of s path = inr kd → plain_name path → content s k' = Some n →
  (∀ size l, n = NDir size l → dir_empty l = true) → vno_at s (v_p_cwd s) ≠ Some k' →
  drops L (R' ++ all_refs s R) (all_mem s P) (all_refs s R) s kd (parsed path).2 k' s' → vfs_ok s'.
Proof.
  intros HV [Hst _] Hpar (Hok & H1 & H2) Hn Hem Hcwd Hd. pose proof (inv_paths _ _ _ _ _ HV) as HP.
  destruct (parent_linked _ _ _ _ _ HP Hst Hpar) as (HL & _).
  eapply (ok_becomes L (<[k' := L k' - 1]> L) R R' F P s (content s')); [done| |].
  - destruct Hd as (? & ? & ? & ? & _ & _ & _ & HI & Hf & _). by split_and!.
  - eapply paths_ok_drops; try done. set_solver.
Qed.

(** A name that is not a directory is neither "." nor "..". *)
Lemma found_plain L R s path kd k' n : paths_ok L R s → good_path path → parent_of s path = inr kd →
  found (content s) kd (parsed path).2 = Some k' → content s k' = Some n → (∀ size l, n ≠ NDir size l) → plain_name path.
Proof.
  intros HP [Hst _] Hpar Hf Hn Hnd. destruct (parent_linked _ _ _ _ _ HP Hst Hpar) as (HL & size & l & Hc).
  assert (Hr0 : (parsed path).2.2 ≠ 0).
  { intros E. unfold found in Hf. rewrite E in Hf. injection Hf as <-. rewrite Hc in Hn. injection Hn as <-. by eapply Hnd. }
  destruct (found_entry _ _ _ _ _ _ Hc (proj2 (parsed_ok path Hst)) Hf Hr0) as (Hok & j & e & Hg & _ & Ee).
  apply dir_get_Some in Hg as [Hj En]. destruct (tr_dir _ _ (po_tree _ _ _ HP) _ _ _ HL Hc) as [_ D1 (p & D2 & Hp & Hpd) Dd].
  split_and!; [done|..]; intros E; rewrite E in En.
  - assert (j = 0%nat) as -> by (by eapply (Dd j 0%nat); [done..|rewrite En|rewrite En]).
    rewrite D1 in Hj. injection Hj as <-. simpl in Ee. subst. rewrite Hc in Hn. injection Hn as <-. by eapply Hnd.
  - assert (j = 1%nat) as -> by (by eapply (Dd j 1%nat); [done..|rewrite En|rewrite En]).
    rewrite D2 in Hj. injection Hj as <-. simpl in Ee. subst. case_decide as Ek.
    + destruct (tr_root _ _ (po_tree _ _ _ HP)) as (_ & size' & l' & Hroot). subst. rewrite Hroot in Hn.
      injection Hn as <-. by eapply Hnd.
    + destruct Hpd as (j' & size' & l' & e & _ & Hcp & _). rewrite Hcp in Hn. injection Hn as <-. by eapply Hnd.
Qed.

Lemma unlink_ok s path kd : vfs_ok s → good_path path → parent_of s path = inr kd →
  wp may_overflow (do_unlink path) (λ _, vfs_ok) s.
Proof.
  intros (L & R & F & P & HV) Hg Hpar. pose proof (inv_paths _ _ _ _ _ HV) as HP. eapply wp_mono.
  { eapply (do_unlink_wp L (all_refs s R) (all_mem s P)); [by eapply inv_vn|done|apply Hg..|done]. }
  intros ret s'. unfold unlink_post. rewrite Hpar. cbv zeta.
  destruct (found _ _ _) as [k'|] eqn:Hf; [|by eapply ok_same].
  destruct (parent_linked _ _ _ _ _ HP (proj1 Hg) Hpar) as (HL & size & l & Hc).
  destruct (found_linked _ _ _ _ _ _ _ (tree_sound _ _ (po_tree _ _ _ HP)) HL Hc (proj2 (parsed_ok path (proj1 Hg))) Hf) as [_ [n Hn]].
  rewrite Hn. assert ((∃ size l, n = NDir size l) ∨ ∀ size l, n ≠ NDir size l) as [(? & ? & ->)|Hnd]
    by (destruct n; eauto); [by eapply ok_same|].
  intros Hd. assert (Hd' : drops L (all_refs s R) (all_mem s P) (all_refs s R) s kd (parsed path).2 k' s') by (destruct n; [tauto|by edestruct Hnd|tauto]).
  eapply (drops_ok L R []); try done.
  - by eapply found_plain.
  - intros ? ? ->. by edestruct Hnd.
  - intros E. destruct (po_cwd _ _ _ HP) as (_ & k & ? & ? & Hk & _ & Hck). simplify_eq. by edestruct Hnd.
Qed.

Lemma rmdir_ok s path : vfs_ok s → good_path path → rmdir_name path →
  (∀ kd k, parent_of s path = inr kd → found (content s) kd (parsed path).2 = Some k → vno_at s (v_p_cwd s) ≠ Some k) →
  wp may_overflow (do_rmdir path) (λ _, vfs_ok) s.
Proof.
  intros (L & R & F & P & HV) Hg Hpl Hcwd. pose proof (inv_paths _ _ _ _ _ HV) as HP. eapply wp_mono.
  { eapply (do_rmdir_wp L (all_refs s R) (all_mem s P)); [by eapply inv_vn|done|apply Hg|done]. }
  intros ret s'. unfold rmdir_call_post. destruct (parent_of s path) as [err|kd] eqn:Hpar; [by eapply ok_same|].
  cbv zeta. case_decide; [by eapply ok_same|]. case_decide; [by eapply ok_same|]. destruct (NAME_LEN <? _); [by eapply ok_same|].
  destruct (found _ _ _) as [k'|] eqn:Hf; [|by eapply ok_same].
  destruct (content s k') as [[|size l|]|] eqn:Hn; try by eapply ok_same.
  destruct (dir_empty l) eqn:Hem; [|by eapply ok_same]. intros [_ (v & _ & Hd)].
  eapply (drops_ok L R [v]); try done; [by destruct Hpl as [?|[?|?]]| |by eapply Hcwd]. intros ? ? [= <- <-]. done.
Qed.

Lemma chdir_ok s path : vfs_ok s → good_path path → wp may_overflow (do_chdir path) (λ _, vfs_ok) s.
Proof.
  intros (L & R & F & P & HV) Hg. pose proof (inv_paths _ _ _ _ _ HV) as HP.
  set (R1 := file_vnodes (v_files s) ++ v_root s :: R).
  assert (HR : all_refs s R ≡ₚ v_p_cwd s :: R1) by (unfold all_refs, holders, R1; solve_Permutation).
  eapply wp_mono.
  { eapply (do_chdir_wp L R1 (all_mem s P)); [|eapply paths_ok_more; [exact HP|by rewrite HR]|apply Hg..].
    eapply vninv_perm; [exact HR|done|by eapply inv_vn]. }
  intros ret s'. unfold chdir_post. cbv zeta.
  assert (Hsame : ∀ ks ret', same_tree ks L (v_p_cwd s :: R1) (all_mem s P) s ret ret' s' → vfs_ok s').
  { intros ks ret' [E (vs & Hvs & HI & Hf & Hc)]. eapply (ok_same ks L R F P s ret ret'); [done|]. split; [done|].
    exists vs. split; [done|]. split_and!.
    - eapply vninv_perm; [|done|exact HI]. by rewrite HR.
    - eapply vframe_weaken; [|exact Hf]. by rewrite HR.
    - done. }
  destruct (parent_of s path) as [err|kd] eqn:Hpar; [by eapply Hsame|].
  destruct (found _ _ _) as [k'|] eqn:Hf; [|by eapply Hsame].
  destruct (content s k') as [[|size l|]|] eqn:Hn; try by eapply Hsame.
  intros (_ & Hv & Er & Efi & Epf & Efa & HI & Hw & Hc).
  destruct (parent_linked _ _ _ _ _ HP (proj1 Hg) Hpar) as (HL & sz & ld & Hcd).
  destruct (found_linked _ _ _ _ _ _ _ (tree_sound _ _ (po_tree _ _ _ HP)) HL Hcd (proj2 (parsed_ok path (proj1 Hg))) Hf) as [HLk _].
  exists L, R, F, P. split.
  - destruct HV as [[I1 I2 I3 I4 I5] _]. split; rewrite ?Efi, ?Epf, ?Efa; try done.
    eapply vninv_perm; [|done|exact HI]. unfold R1, holders. rewrite Er. solve_Permutation.
  - split.
    + split; [unfold holders; set_solver|]. rewrite Er, Hw by (unfold R1; set_solver). apply HP.
    + split; [unfold holders; set_solver|]. exists k', size, l. by rewrite Hc.
    + eapply tree_ext; [exact Hc|apply HP].
Qed.

(** ** stat, link, rename *)

Lemma stat_ok s path : vfs_ok s → good_path path → dir_loaded s path → wp may_overflow (do_stat path) (λ _, vfs_ok) s.
Proof.
  intros (L & R & F & P & HV) Hg Hld. eapply wp_mono.
  { eapply (do_stat_wp L (all_refs s R) (all_mem s P)); [by eapply inv_vn|by eapply inv_paths|apply Hg..|done]. }
  intros res s'. unfold stat_post. destruct (parent_of s path) as [err|kd]; [intros [? _]; by eapply ok_same|].
  destruct (found _ _ _); intros [? _]; by eapply ok_same.
Qed.

Lemma dir_get_enter_ne l j e e' name : l !! j = Some e → rd_name e ≠ name → rd_name e' ≠ name →
  dir_get (<[j := e']> l) name = dir_get l name.
Proof.
  unfold dir_get. revert j. induction l as [|x l IH]; intros [|j] Hj Hne Hne'; simpl in *; try done.
  - injection Hj as ->. by rewrite !decide_False.
  - case_decide; [done|]. by rewrite (IH j).
Qed.

(** Directories are found where they were when an unused name is entered. *)
Lemma resolve_links c kd nm ko c' names k kd' : links c kd nm ko c' → unused c kd nm → Forall (λ n, n ≠ EmptyString) names →
  resolve c k names = inr kd' → resolve c' k names = inr kd'.
Proof.
  intros (size & l & j & e & Hc & Hsp & Hc') Hun Hne. specialize (Hun _ _ Hc).
  apply list_find_Some in Hsp as (Hj & He & _).
  assert (Hdir : ∀ a sz l0, c a = Some (NDir sz l0) → ∃ sz1 l1, c' a = Some (NDir sz1 l1) ∧
    ∀ name i x, dir_get l0 name = Some (i, x) → name ≠ EmptyString → dir_get l1 name = Some (i, x)).
  { intros a sz l0 Ha. rewrite Hc'. destruct (decide (kd = a)) as [<-|Hka].
    - rewrite fn_lookup_insert. rewrite Hc in Ha. injection Ha as <- <-. eexists _, _. split; [done|].
      intros name i x Hx Hn. rewrite (dir_get_enter_ne _ _ e); [done..|congruence|]. simpl. intros ->. congruence.
    - rewrite fn_lookup_insert_ne by done. eauto. }
  revert k. induction Hne as [|name names Hn _ IH]; intros k; [done|]. simpl.
  destruct (c k) as [[|sz l0|]|] eqn:Hk; try done. destruct (Hdir _ _ _ Hk) as (sz1 & l1 & -> & Hg).
  destruct (dir_get l0 name) as [[i x]|] eqn:Hx; [|done]. rewrite (Hg _ _ _ Hx Hn).
  destruct (c (rd_ino x)) as [[|sz2 l2|]|] eqn:Hx'; try done. destruct (Hdir _ _ _ Hx') as (? & ? & -> & _). apply IH.
Qed.

Definition keeps_dirs s s' : Prop := ∀ path kd, good_path path → parent_of s path = inr kd → parent_of s' path = inr kd.

Lemma same_keeps ks L R P s ret ret' s' : paths_ok L R s → same_tree ks L R P s ret ret' s' → keeps_dirs s s'.
Proof. intros HP [_ (vs & _ & Hb)] path kd _ Hpar. by rewrite (proj1 (parent_of_same _ _ _ _ _ _ path HP Hb)). Qed.

Lemma links_keeps L L' R P s kd nm ko c' s' :
  paths_ok L R s → links (content s) kd nm ko c' → unused (content s) kd nm → becomes L' R P R s c' s' → keeps_dirs s s'.
Proof.
  intros HP Hl Hun (_ & [Hs Hv] & Hc) path kd' [Hst _]. destruct (path_start _ _ _ path HP) as (Hin & k & _ & _ & Hk & _).
  assert (E : path_dir s' path = path_dir s path) by (unfold path_dir; by rewrite (sm_root _ _ Hs), (sm_p_cwd _ _ Hs)).
  unfold parent_of. rewrite E, Hv, Hk by done. rewrite (resolve_ext c' (content s')) by done. eapply resolve_links; [done..|].
  rewrite Forall_fmap. eapply Forall_impl; [by apply parsed_ok|]. intros p Hp. by apply piece_nonempty.
Qed.

(** What is linked is not a directory. *)
Definition may_link s (from : string) : Prop := ∀ kf ko size l, parent_of s from = inr kf →
  found (content s) kf (parsed from).2 = Some ko → content s ko ≠ Some (NDir size l).

Lemma links_ok L R F P s from to kf ko kd c' s' :
  vfs_inv L R F P s → good_path from → good_path to → short_name to → may_link s from → parent_of s from = inr kf →
  found (content s) kf (parsed from).2 = Some ko → parent_of s to = inr kd → found (content s) kd (parsed to).2 = None →
  links (content s) kd (copy_name (parsed to).2.1 (parsed to).2.2) ko c' →
  becomes (<[ko := L ko + 1]> L) (all_refs s R) (all_mem s P) (all_refs s R) s c' s' → vfs_ok s' ∧ keeps_dirs s s'.
Proof.
  intros HV Hgf Hgt Hsh Hml Hpf Hff Hpt Hft Hl Hb. pose proof (inv_paths _ _ _ _ _ HV) as HP.
  destruct (new_name _ _ _ _ _ HP Hgt Hsh Hpt Hft) as (HLd & E & Hne & Hun). rewrite E in Hl.
  destruct (parent_linked _ _ _ _ _ HP (proj1 Hgf) Hpf) as (HLf & szf & lf & Hcf).
  destruct (found_linked _ _ _ _ _ _ _ (tree_sound _ _ (po_tree _ _ _ HP)) HLf Hcf (proj2 (parsed_ok from (proj1 Hgf))) Hff) as [HLo [n Hn]].
  assert (Hnd : ∀ size l, n ≠ NDir size l) by (intros ? ? ->; by eapply Hml).
  split; [|by eapply links_keeps]. eapply (ok_becomes _ _ _ []); [done..|]. destruct Hb as (_ & Hf & Hc).
  eapply paths_ok_frame; [done..| |].
  - eapply tree_ext; [exact Hc|]. eapply tree_links; try done. apply HP.
  - intros k size l _ HLk Hk. assert (ko ≠ k) by (intros ->; rewrite Hn in Hk; injection Hk as ->; by eapply Hnd).
    rewrite fn_lookup_insert_ne, Hc by done. split; [done|]. destruct Hl as (? & ? & ? & ? & _ & _ & Hc').
    rewrite Hc'. destruct (decide (kd = k)) as [<-|]; [rewrite fn_lookup_insert; eauto|]. rewrite fn_lookup_insert_ne by done. eauto.
Qed.

Lemma link_ok s from to : vfs_ok s → good_path from → good_path to → short_name to → may_link s from → dir_loaded s to →
  wp may_overflow (do_link from to) (λ _ s', vfs_ok s' ∧ keeps_dirs s s') s.
Proof.
  intros (L & R & F & P & HV) Hgf Hgt Hsh Hml Hld. pose proof (inv_paths _ _ _ _ _ HV) as HP. eapply wp_mono.
  { eapply (do_link_wp L (all_refs s R) (all_mem s P)); [by eapply inv_vn|done|apply Hgf|apply Hgt|apply Hgf|apply Hgt|done]. }
  intros ret s'. assert (Hsame : ∀ ks ret', same_tree ks L (all_refs s R) (all_mem s P) s ret ret' s' → vfs_ok s' ∧ keeps_dirs s s').
  { intros ks ret' Hs. split; [by eapply ok_same|by eapply same_keeps]. }
  unfold link_post. destruct (parent_of s from) as [err|kf] eqn:Hpf; [apply Hsame|].
  destruct (found (content s) kf _) as [ko|] eqn:Hff; [|apply Hsame].
  destruct (parent_of s to) as [err|kd] eqn:Hpt; [apply Hsame|]. cbv zeta.
  destruct (found (content s) kd _) as [k|] eqn:Hft; [destruct (content s k) as [[]|]; apply Hsame|].
  intros [(_ & c' & Hl & Hb)|Hs]; [|by eapply Hsame]. by apply (links_ok L R F P s from to kf ko kd c' s').
Qed.

Lemma rename_ok s oldname newname kd : vfs_ok s → good_path oldname → good_path newname → short_name newname →
  may_link s oldname → dir_loaded s newname → parent_of s oldname = inr kd →
  wp may_overflow (do_rename oldname newname) (λ _, vfs_ok) s.
Proof.
  intros HO Hgo Hgn Hsh Hml Hld Hpar. unfold do_rename. destruct (_ || _); [|by apply wp_ret]. apply wp_bind.
  eapply wp_mono; [by apply link_ok|]. intros ret s' [HO' Hk]. eapply unlink_ok; [done..|]. by apply Hk.
Qed.

(** ** open *)

Lemma ok_failed ks lost L R F P s ret err s' :
  vfs_inv L R F P s → open_failed ks lost L (holders s R) F P s ret err s' → vfs_ok s'.
Proof.
  intros [HI HP] (_ & R' & F' & _ & _ & HI' & _ & Ec & Er & Hw & Hc). exists L, (R' ++ R), (F' ++ F), P. split.
  - destruct HI' as [I1 I2 I3 I4 I5]. split; try done. eapply vninv_perm; [|done|exact I1].
    unfold holders. rewrite Ec, Er. solve_Permutation.
  - destruct HP as [[R1 R2] (C1 & k & size & l & C2 & C3 & C4) T]. unfold holders in *. split; rewrite ?Ec, ?Er.
    + split; [set_solver|]. rewrite Hw; [done|set_solver].
    + split; [set_solver|]. exists k, size, l. rewrite Hc, Hw; [done|set_solver].
    + by eapply tree_ext.
Qed.

Lemma ok_opened L L' R F P s fd oflags k c s' :
  vfs_inv L R F P s → opened_fd L' (holders s R) F P s fd oflags k c s' → tree L' c →
  (∀ k size l, 0 < L k → content s k = Some (NDir size l) → 0 < L' k ∧ ∃ size l, c k = Some (NDir size l)) → vfs_ok s'.
Proof.
  intros [HI HP] (f & v & _ & HI' & _ & _ & _ & Ec & Er & Hw & Hc) HT Hdir. exists L', R, F, P.
  assert (holders s' R = holders s R) as E by (unfold holders; by rewrite Ec, Er).
  split; rewrite E; [done|]. destruct HP as [[R1 R2] (C1 & j & size & l & C2 & C3 & C4) T].
  split; rewrite ?Ec, ?Er; [| |by eapply tree_ext].
  - split; [done|]. rewrite Hw; [done|set_solver].
  - split; [done|]. destruct (Hdir _ _ _ C3 C4) as (? & size' & l' & ?). exists j, size', l'. rewrite Hc, Hw; [done|set_solver].
Qed.

(** Opening for writing does not open a directory: the file that is left behind
    would keep a vnode it has no reference to. *)
Definition may_open s path oflags : Prop := Z.land oflags 3 = O_RDONLY ∨
  (Z.land oflags 3 = O_RDWR ∧ ∀ kd k size l, parent_of s path = inr kd → found (content s) kd (parsed path).2 = Some k →
     content s k ≠ Some (NDir size l)).

Lemma may_open_access s path oflags : may_open s path oflags → Z.land oflags 3 = O_RDONLY ∨ Z.land oflags 3 = O_RDWR.
Proof. intros [?|[? _]]; auto. Qed.

Lemma open_full s path oflags :
  list_find (λ f, f = NULL) (v_p_files s) = None → strlen path ≤ MAXPATHLEN → Z.land oflags 3 = O_RDONLY ∨ Z.land oflags 3 = O_RDWR →
  do_open path oflags s = RRet (- EMFILE) s.
Proof.
  intros Hfd Hlen Hmay. unfold do_open.
  assert ((Z.land oflags 3 =? O_RDONLY) || (Z.land oflags 3 =? O_WRONLY) || (Z.land oflags 3 =? O_RDWR) = true) as ->
    by (by destruct Hmay as [-> | ->]). cbn [negb].
  destruct (Z.ltb_spec MAXPATHLEN (strlen path)); [lia|].
  erewrite kbind_of_ret by apply get_empty_fd_run. by rewrite Hfd.
Qed.

(** The path names a directory that is to be written. *)
Definition refuses s path oflags : bool :=
  if parent_of s path is inr kd then
    if found (content s) kd (parsed path).2 is Some k then
      (if content s k is Some n then is_dir n else false) && (Z.land oflags 3 =? O_RDWR)
    else false
  else false.

Lemma open_post_ok L R F P s path oflags fd ret s' :
  vfs_inv L R F P s → good_path path → short_name path → open_post L (holders s R) F P s path oflags fd ret s' →
  vfs_ok s' ∨ (ret = - EISDIR ∧ refuses s path oflags = true).
Proof.
  intros HV Hg Hsh [Hfail|Hpost]; [left; by eapply ok_failed|]. pose proof HV as [HI HP]. revert Hpost. unfold refuses.
  destruct (parent_of s path) as [err|kd] eqn:Hpar; [left; by eapply ok_failed|]. cbv zeta.
  destruct (found _ _ _) as [k|] eqn:Hf.
  { destruct (_ && _); [intros [-> _]; by right|]. intros [_ Ho]. left. eapply ok_opened; [done..|apply HP|]. eauto. }
  left. destruct (Z.land _ _ =? 0); [by eapply ok_failed|].
  destruct Hpost as [Hfail|(ino & c' & _ & Ha & Ho)]; [by eapply ok_failed|].
  destruct (new_name _ _ _ _ _ HP Hg Hsh Hpar Hf) as (HL & E & Hne & Hun). rewrite E in Ha. eapply ok_opened; [done..| |].
  - eapply tree_adds; try done; [apply HP|by left].
  - intros j size l HLj Hj. by eapply adds_dirs.
Qed.

Lemma open_ok s path oflags : vfs_ok s → good_path path → short_name path → may_open s path oflags →
  wp may_overflow (do_open path oflags) (λ _, vfs_ok) s.
Proof.
  intros (L & R & F & P & HV) Hg Hsh Hmay. pose proof HV as [HI HP].
  destruct (list_find (λ f, f = NULL) (v_p_files s)) as [[fd f]|] eqn:Hfd.
  2: { eapply wp_run; [apply open_full; [done|apply Hg|by eapply may_open_access]|]. by exists L, R, F, P. }
  assert (f = NULL) as -> by (by apply list_find_Some in Hfd as (_ & -> & _)).
  eapply wp_mono; [eapply (do_open_wp L (holders s R) F P s path oflags fd); [done..|apply Hg|apply Hg|by eapply may_open_access|done]|].
  intros ret s' Hpost. destruct (open_post_ok _ _ _ _ _ _ _ _ _ _ HV Hg Hsh Hpost) as [?|[_ Hre]]; [done|exfalso].
  revert Hre. unfold refuses. destruct (parent_of s path) as [|kd] eqn:Hpar; [done|].
  destruct (found _ _ _) as [k|] eqn:Hf; [|done]. destruct Hmay as [->|[_ Hmay]]; [by rewrite andb_false_r|].
  specialize (Hmay kd k). destruct (content s k) as [[]|]; try done. by edestruct Hmay.
Qed.

(** ** Calls with a descriptor *)

(** The file of a descriptor; -1 and the numbers out of range have none. *)
Definition fd_at s (fd : Z) : option Z :=
  if decide (0 ≤ fd < NFILES) then if v_p_files s !! Z.to_nat fd is Some f then if decide (f = NULL) then None else Some f else None
  else None.

Lemma fd_at_Some L R F P s fd f : finv L R F P s → fd_at s fd = Some f →
  0 ≤ fd < NFILES ∧ v_p_files s !! Z.to_nat fd = Some f ∧
  ∃ x k n, v_files s !! f = Some x ∧ f_vnode x ≠ NULL ∧ vno_at s (f_vnode x) = Some k ∧ content s k = Some n.
Proof.
  intros HI. unfold fd_at. case_decide; [|done]. destruct (v_p_files s !! Z.to_nat fd) as [g|] eqn:Hfd; [|done].
  case_decide as Hg; [done|]. intros [= ->]. split_and!; [lia..|done|].
  destruct (fd_file _ _ _ _ _ _ _ HI Hfd Hg) as (x & Hx & Hv).
  destruct (file_node _ _ _ _ _ _ _ HI Hx Hv) as (k & n & ? & ?). by exists x, k, n.
Qed.

Lemma fd_at_None L R F P s fd : finv L R F P s → fd ≠ -1 → fd_at s fd = None → fget fd s = RRet NULL s.
Proof.
  intros HI Hfd Hn. apply fget_none; [done|]. unfold fd_at in Hn. case_decide as Hr; [|lia]. right. right.
  destruct (v_p_files s !! Z.to_nat fd) as [f|] eqn:Hf; [case_decide; by simplify_eq|].
  apply lookup_ge_None in Hf. rewrite (fi_len _ _ _ _ _ HI) in Hf. lia.
Qed.

(** The invariant where only files changed. *)
Lemma ok_files L R F F' P s s' :
  vfs_inv L R F P s → finv L (holders s R) F' P s' → v_root s' = v_root s → v_p_cwd s' = v_p_cwd s →
  (∀ w, w ∈ holders s R → vno_at s' w = vno_at s w) →
  (∀ a size l, 0 < L a → content s a = Some (NDir size l) → content s' a = Some (NDir size l)) →
  tree L (content s') → vfs_ok s'.
Proof.
  intros [HI [[R1 R2] (C1 & k & size & l & C2 & C3 & C4) T]] HI' Er Ec Hw Hc HT. exists L, R, F', P.
  assert (holders s' R = holders s R) as E by (unfold holders; by rewrite Ec, Er).
  split; rewrite E; [done|]. split; rewrite ?Ec, ?Er; [| |done].
  - split; [done|]. by rewrite Hw.
  - split; [done|]. exists k, size, l. rewrite Hw by done. split_and!; try done. by apply Hc.
Qed.

Lemma ok_table L R F F' P s s' :
  vfs_inv L R F P s → finv L (holders s R) F' P s' → v_root s' = v_root s → v_p_cwd s' = v_p_cwd s →
  (∀ w, w ∈ holders s R → vno_at s' w = vno_at s w) → (∀ a, 0 < L a → content s' a = content s a) → vfs_ok s'.
Proof.
  intros HV HI' Er Ec Hw Hc. eapply ok_files; try done.
  - intros a size l HL. by rewrite Hc.
  - eapply tree_dirs; [..|apply HV]; intros; by rewrite Hc.
Qed.

(** Closing leaves the contents of linked inodes alone. *)
Lemma closed_content L R F P s fd f x s' k a :
  closed_fd L R F P s fd f x s' → vno_at s (f_vnode x) = Some k → 0 < L a → content s' a = content s a.
Proof.
  intros (_ & _ & _ & _ & _ & Hrest) Hk HL. destruct (f_refcount x =? 1); [|by apply Hrest].
  apply (proj2 Hrest k Hk). destruct (decide (a = k)) as [->|]; [right|by left]. by left.
Qed.

(** The counts of the files have room for [n] more references. *)
Definition file_room (n : Z) s : Prop := ∀ f x, v_files s !! f = Some x → f_refcount x + n ≤ INT_MAX.

Lemma room_lt s f x : file_room 1 s → v_files s !! f = Some x → f_refcount x < INT_MAX.
Proof. intros Hr Hf. specialize (Hr f x Hf). lia. Qed.
Lemma room_lt2 s f x : file_room 2 s → v_files s !! f = Some x → f_refcount x + 1 < INT_MAX.
Proof. intros Hr Hf. specialize (Hr f x Hf). lia. Qed.
Lemma below_less s : file_room 2 s → file_room 1 s.
Proof. intros Hr f x Hf. specialize (Hr f x Hf). lia. Qed.
#[local] Hint Resolve room_lt room_lt2 below_less : core.

Lemma close_ok s fd : vfs_ok s → file_room 1 s → wp may_overflow (do_close fd) (λ _, vfs_ok) s.
Proof.
  intros HO Hmax. pose proof HO as (L & R & F & P & HV). pose proof HV as [HI _]. destruct (fd_at s fd) as [f|] eqn:Hfd.
  - destruct (fd_at_Some _ _ _ _ _ _ _ HI Hfd) as (Hr & Hp & x & k & n & Hf & Hv & Hk & _).
    destruct (do_close_run _ _ _ _ _ _ _ _ HI Hr Hp Hf ltac:(eauto)) as (s' & Hrun & Hc). eapply wp_run; [exact Hrun|].
    pose proof Hc as (HI' & _ & Ec & Er & Hw & _). eapply ok_table; try done. intros a. by eapply closed_content.
  - unfold do_close. destruct (Z.ltb_spec fd 0); [by apply wp_ret|]. apply wp_bind.
    eapply wp_run; [eapply fd_at_None; [done|lia|done]|]. by apply wp_ret.
Qed.

Lemma dup_ok s fd : vfs_ok s → file_room 1 s → wp may_overflow (do_dup fd) (λ _, vfs_ok) s.
Proof.
  intros HO Hmax. pose proof HO as (L & R & F & P & HV). pose proof HV as [HI _]. destruct (fd_at s fd) as [f|] eqn:Hfd.
  - destruct (fd_at_Some _ _ _ _ _ _ _ HI Hfd) as (Hr & Hp & x & k & n & Hf & Hv & Hk & Hn).
    destruct (do_dup_run _ _ _ _ _ _ _ _ _ _ HI Hr Hp Hf Hk Hn ltac:(eauto)) as (ret & s' & Hrun & Hc). eapply wp_run; [exact Hrun|].
    revert Hc. unfold dup_result. cbv zeta. destruct (is_dir n); [|destruct (list_find _ _) as [[fd' ?]|]];
      intros (_ & -> & HI'); by eapply ok_table.
  - unfold do_dup. destruct (Z.ltb_spec fd 0); [by apply wp_ret|]. apply wp_bind.
    eapply wp_run; [eapply fd_at_None; [done|lia|done]|]. by apply wp_ret.
Qed.

Lemma dup2_ok s ofd nfd : vfs_ok s → file_room 2 s → wp may_overflow (do_dup2 ofd nfd) (λ _, vfs_ok) s.
Proof.
  intros HO Hmax. pose proof HO as (L & R & F & P & HV). pose proof HV as [HI _]. destruct (fd_at s ofd) as [f|] eqn:Hfd.
  - destruct (fd_at_Some _ _ _ _ _ _ _ HI Hfd) as (Hr & Hp & x & k & n & Hf & Hv & Hk & Hn).
    destruct (decide (0 ≤ nfd < NFILES)) as [Hnr|Hnr].
    2: { unfold do_dup2. assert ((ofd <? 0) || (nfd <? 0) || (NFILES <=? ofd) || (NFILES <=? nfd) = true) as -> by lia. by apply wp_ret. }
    destruct (lookup_lt_is_Some_2 (v_p_files s) (Z.to_nat nfd)) as [g Hg]; [rewrite (fi_len _ _ _ _ _ HI); lia|].
    destruct (do_dup2_run _ _ _ _ _ _ _ _ _ _ _ _ HI Hr Hnr Hp Hf Hk Hn Hg ltac:(eauto) ltac:(eauto)) as (ret & s' & Hrun & Hc).
    eapply wp_run; [exact Hrun|]. revert Hc. unfold dup2_result. cbv zeta.
    destruct (nfd =? ofd); [by intros [_ ->]|]. destruct (is_dir n); [intros (_ & -> & HI'); by eapply ok_table|].
    intros (_ & HI' & Hrest). destruct (Z.eqb_spec g NULL) as [_|Hgn]; [subst; by eapply ok_table|].
    destruct Hrest as (y & s2 & Hy & Hcl & ->).
    assert (∃ j, vno_at s (f_vnode y) = Some j) as [j Hj].
    { simpl in Hy. apply lookup_insert_Some in Hy as [[<- <-]|[_ Hy]]; [by exists k|].
      destruct (fd_file _ _ _ _ _ _ _ HI Hg Hgn) as (y' & Hy' & Hyv). rewrite Hy in Hy'. injection Hy' as <-.
      destruct (file_node _ _ _ _ _ _ _ HI Hy Hyv) as (j & ? & Hj & _). by exists j. }
    pose proof Hcl as (_ & _ & Ec & Er & Hw & _). eapply (ok_table L R F F); try done. intros a Ha.
    exact (closed_content _ _ _ _ _ _ _ _ _ _ _ Hcl Hj Ha).
  - unfold do_dup2. destruct (_ || _) eqn:Hb; [by apply wp_ret|]. apply wp_bind.
    eapply wp_run; [eapply fd_at_None; [done|lia|done]|]. by apply wp_ret.
Qed.

Lemma ok_file L R F F' P s f x : vfs_inv L R F P s → finv L (holders s R) F' P (with_file s f x) → vfs_ok (with_file s f x).
Proof. intros HV HI. by eapply ok_table. Qed.

Lemma lseek_ok s fd offset whence : vfs_ok s → file_room 1 s → - 2 ^ 31 ≤ offset < 2 ^ 31 →
  wp may_overflow (do_lseek fd offset whence) (λ _, vfs_ok) s.
Proof.
  intros HO Hmax Hoff. pose proof HO as (L & R & F & P & HV). pose proof HV as [HI _]. destruct (fd_at s fd) as [f|] eqn:Hfd.
  - destruct (fd_at_Some _ _ _ _ _ _ _ HI Hfd) as (Hr & Hp & x & k & n & Hf & Hv & (y & Hy & _)%vno_at_Some & _).
    destruct (decide (whence = SEEK_SET ∨ whence = SEEK_CUR ∨ whence = SEEK_END)) as [Hw|Hw].
    + eapply wp_run; [by eapply (do_lseek_run L (holders s R) F P); eauto|]. eapply ok_file; [done|]. eapply finv_pos; [done..|].
      unfold seek_pos. pose proof (i32_range (vn_len y + offset)). pose proof (i32_range (f_pos x + offset)).
      destruct (whence =? SEEK_SET), (whence =? SEEK_END); lia.
    + eapply wp_run.
      * unfold do_lseek. destruct (Z.ltb_spec fd 0); [lia|]. erewrite kbind_of_ret by (by eapply fget_run; eauto).
        destruct (Z.eqb_spec f NULL); [|].
        { pose proof (fk_pos _ _ _ (fi_file _ _ _ _ _ HI f x Hf)). unfold NULL in *. lia. }
        destruct (Z.eqb_spec whence SEEK_SET), (Z.eqb_spec whence SEEK_CUR), (Z.eqb_spec whence SEEK_END); [tauto..|]. done.
      * eapply ok_file; [done|]. by apply finv_ref.
  - unfold do_lseek. destruct (Z.ltb_spec fd 0); [by apply wp_ret|]. apply wp_bind.
    eapply wp_run; [eapply fd_at_None; [done|lia|done]|]. by apply wp_ret.
Qed.

(** A read or write of the descriptor -1: fget makes a new file, which has no
    mode and is freed again. *)
Lemma fget_new_ok {A} s (k : Z → vM M A) (e : A) : vfs_ok s →
  (∀ s', k NULL s' = kret e s') →
  (∀ f s', f ≠ NULL → v_files s' !! f = Some (File 0 0 1 NULL) → k f s' = (fput f ;;; kret e) s') →
  wp may_overflow (let* f := fget (-1) in k f) (λ _, vfs_ok) s.
Proof.
  intros (L & R & F & P & HV) Hnull Hk. pose proof HV as [HI _]. apply wp_bind.
  destruct (fget_new_run _ _ _ _ _ HI) as [(f & m & Hg & Hf0 & Hnew & HI1)|(m & Hg & HI1)]; (eapply wp_run; [exact Hg|]).
  - set (s1 := with_file (with_mem m s) f (File 0 0 1 NULL)) in *.
    assert (Hf1 : v_files s1 !! f = Some (File 0 0 1 NULL)) by apply lookup_insert_eq.
    eapply wp_eq; [apply Hk; [unfold NULL; lia|done]|].
    destruct (fput_last_run _ _ _ _ _ _ _ HI1 Hf1 eq_refl) as (s' & Hr & HI' & _ & _ & Ec & Er & Hw & Hc & _).
    apply wp_bind. eapply wp_run; [exact Hr|]. apply wp_ret. eapply ok_table; try done. intros a _. by rewrite Hc.
  - eapply wp_eq; [apply Hnull|]. apply wp_ret. eapply ok_table; [done|exact HI1|done..].
Qed.

(** The file of a descriptor and what it is open on. *)
Definition fd_node s (fd : Z) : option (file * node) :=
  f ← fd_at s fd; x ← v_files s !! f; k ← vno_at s (f_vnode x); n ← content s k; Some (x, n).

Lemma fd_node_Some s fd f x k n : fd_at s fd = Some f → v_files s !! f = Some x → vno_at s (f_vnode x) = Some k →
  content s k = Some n → fd_node s fd = Some (x, n).
Proof. intros E1 E2 E3 E4. unfold fd_node. rewrite E1. simpl. rewrite E2. simpl. rewrite E3. simpl. by rewrite E4. Qed.

(** The calls on a descriptor that has a file: the file is referenced, and its
    reference given up again. *)
Lemma with_fd {A} L R F P s fd f x (k : Z → vM M A) Q :
  vfs_inv L R F P s → 0 ≤ fd < NFILES → v_p_files s !! Z.to_nat fd = Some f → v_files s !! f = Some x → f_vnode x ≠ NULL → f_refcount x < INT_MAX →
  (f ≠ NULL → wp may_overflow (k f) Q (with_file s f (ref_file x))) → wp may_overflow (let* f := fget fd in k f) Q s.
Proof.
  intros [HI _] Hr Hp Hf Hv Hmax Hk. apply wp_bind. eapply wp_run; [by eapply fget_run|]. apply Hk.
  pose proof (fk_pos _ _ _ (fi_file _ _ _ _ _ HI f x Hf)). unfold NULL. lia.
Qed.

Lemma fput_back_wp {A} L R F P s f x (e : A) :
  vfs_inv L R F P s → v_files s !! f = Some x → f_vnode x ≠ NULL →
  wp may_overflow (fput f ;;; kret e) (λ _, vfs_ok) (with_file s f (ref_file x)).
Proof.
  intros HV Hf Hv. apply wp_bind. eapply wp_run; [eapply fput_ref_run; [apply HV|done..]|]. apply wp_ret. by exists L, R, F, P.
Qed.

Lemma ref_ok L R F P s f x : vfs_inv L R F P s → v_files s !! f = Some x → f_vnode x ≠ NULL → vfs_ok (with_file s f (ref_file x)).
Proof. intros HV Hf Hv. eapply ok_file; [done|]. by eapply finv_ref; [apply HV|..]. Qed.

Lemma read_ok s fd n : vfs_ok s → file_room 1 s → 0 ≤ n < 2 ^ 31 → (∀ x type devid, fd_node s fd ≠ Some (x, NDev type devid)) →
  wp may_overflow (do_read fd n) (λ _, vfs_ok) s.
Proof.
  intros HO Hmax Hn Hdev. pose proof HO as (L & R & F & P & HV). pose proof HV as [HI _].
  destruct (decide (fd = -1)) as [->|Hm1].
  { apply (fget_new_ok s _ (- EBADF, [])); [done|done|]. intros f s' Hf0 Hf. destruct (Z.eqb_spec f NULL); [done|].
    by erewrite kbind_of_ret by (by apply get_file_run). }
  destruct (fd_at s fd) as [f|] eqn:Hfd.
  2: { apply wp_bind. eapply wp_run; [by eapply fd_at_None|]. by apply wp_ret. }
  destruct (fd_at_Some _ _ _ _ _ _ _ HI Hfd) as (Hr & Hp & x & k & nd & Hf & Hv & Hk & Hnd).
  destruct (Z.eqb_spec (Z.land (f_mode x) 1) FMODE_READ) as [Hmode|Hmode].
  - assert (Hnode := fd_node_Some _ _ _ _ _ _ Hfd Hf Hk Hnd). destruct nd as [size page|size l|type devid].
    + eapply wp_run; [by eapply (do_read_run L (holders s R) F P); eauto|]. cbv zeta.
      destruct (_ =? 0); [by eapply ref_ok|]. eapply ok_file; [done|]. eapply finv_pos; [done..|].
      pose proof (fk_at _ _ _ (fi_file _ _ _ _ _ HI f x Hf)).
      destruct (file_view _ _ _ s (f_vnode x) k size page (fi_vn _ _ _ _ _ HI) Hk Hnd)
        as (_ & _ & _ & _ & _ & _ & (_ & _ & _ & Hpl & Hsz & _) & _).
      rewrite length_take, length_drop, file_bytes_length by done. unfold PAGE_SIZE in *. lia.
    + eapply with_fd; [done..|by eauto|]. intros Hf0. destruct (Z.eqb_spec f NULL); [done|].
      apply wp_bind. eapply wp_run; [apply get_with_file|]. cbn [f_mode ref_file set_frefcount]. rewrite Hmode. cbn [negb Z.eqb].
      apply wp_bind. eapply wp_run; [eapply (fisdir_run _ _ _ _ _ _ k (NDir size l)); [|apply lookup_insert_eq|done..]|].
      { eapply fi_vn. by eapply finv_ref. }
      by eapply fput_back_wp.
    + by edestruct Hdev.
  - eapply with_fd; [done..|by eauto|]. intros Hf0. destruct (Z.eqb_spec f NULL); [done|].
    apply wp_bind. eapply wp_run; [apply get_with_file|]. cbn [f_mode ref_file set_frefcount].
    destruct (Z.eqb_spec (Z.land (f_mode x) 1) FMODE_READ); [done|]. by eapply fput_back_wp.
Qed.

Lemma write_ok s fd buf : vfs_ok s → file_room 2 s → Z.of_nat (length buf) < 2 ^ 31 →
  (∀ x n, fd_node s fd = Some (x, n) →
     match n with NFile size _ => write_pos x size ≤ PAGE_SIZE | NDir _ _ => True | NDev _ _ => False end) →
  wp may_overflow (do_write fd buf) (λ _, vfs_ok) s.
Proof.
  intros HO Hmax Hn Hdev. pose proof HO as (L & R & F & P & HV). pose proof HV as [HI _].
  destruct (decide (fd = -1)) as [->|Hm1].
  { apply (fget_new_ok s _ (- EBADF)); [done|done|]. intros f s' Hf0 Hf. destruct (Z.eqb_spec f NULL); [done|].
    by erewrite kbind_of_ret by (by apply get_file_run). }
  destruct (fd_at s fd) as [f|] eqn:Hfd.
  2: { apply wp_bind. eapply wp_run; [by eapply fd_at_None|]. by apply wp_ret. }
  destruct (fd_at_Some _ _ _ _ _ _ _ HI Hfd) as (Hr & Hp & x & k & nd & Hf & Hv & Hk & Hnd).
  destruct (Z.eqb_spec (Z.land (f_mode x) 2) FMODE_WRITE) as [Hmode|Hmode].
  - specialize (Hdev _ _ (fd_node_Some _ _ _ _ _ _ Hfd Hf Hk Hnd)). destruct nd as [size page|size l|type devid]; [| |done].
    + destruct (do_write_run _ _ _ _ _ _ _ _ HI Hr Hp Hf ltac:(eauto) _ _ _ buf Hk Hnd Hmode Hdev Hn) as (ret & s' & Hrun & Hw).
      eapply wp_run; [exact Hrun|]. destruct Hw as (_ & HI' & _ & _ & Ec & Er & Hw & Hc). eapply ok_files; try done.
      * intros w Hin. apply Hw. set_solver.
      * intros a size' l _ Ha. rewrite Hc, fn_lookup_insert_ne by congruence. done.
      * eapply tree_file; [apply HV|exact Hnd|exact Hc].
    + eapply with_fd; [done..|by eauto|]. intros Hf0. destruct (Z.eqb_spec f NULL); [done|].
      apply wp_bind. eapply wp_run; [apply get_with_file|]. cbn [f_mode ref_file set_frefcount]. rewrite Hmode. cbn [negb Z.eqb].
      apply wp_bind. eapply wp_run; [eapply (fisdir_run _ _ _ _ _ _ k (NDir size l)); [|apply lookup_insert_eq|done..]|].
      { eapply fi_vn. by eapply finv_ref. }
      apply wp_ret. by eapply ref_ok.
  - eapply with_fd; [done..|by eauto|]. intros Hf0. destruct (Z.eqb_spec f NULL); [done|].
    apply wp_bind. eapply wp_run; [apply get_with_file|]. cbn [f_mode ref_file set_frefcount].
    destruct (Z.eqb_spec (Z.land (f_mode x) 2) FMODE_WRITE); [done|]. by eapply fput_back_wp.
Qed.

(** ** getdent *)

Lemma readdir_run L R P s v k size l offset :
  vninv L R P s → vno_at s v = Some k → content s k = Some (NDir size l) → 0 ≤ offset → offset mod sizeof_dirent = 0 →
  ∃ num d, ramfs_readdir v offset s = RRet (num, d) s ∧ 0 ≤ num ∧ (num ≠ 0 → offset + num ≤ PAGE_SIZE).
Proof.
  intros HI Hv Hc Ho Hm. destruct (dir_view _ _ _ _ _ _ _ _ HI Hv Hc) as (x & i & Hx & _ & Hi & _ & _ & _ & Hp & Hl & Hd & _).
  assert (Hdir : S_ISDIR (vn_mode x) = true) by (by rewrite Hd).
  assert (Hrun : ramfs_readdir v offset s =
    match list_find (λ e, rd_name e ≠ EmptyString) (drop (Z.to_nat (offset / sizeof_dirent)) l) with
    | None => RRet (0, None) s
    | Some (k, e) => RRet (sizeof_dirent + Z.of_nat k * sizeof_dirent,
        Some (mkdirent (rd_ino e) 0 (prefix_of (rd_name e) (NAME_LEN - 1)))) s
    end).
  { unfold ramfs_readdir, VNODE_TO_DIRENT, VNODE_TO_RAMFSINODE, get_dirents. apply Z.eqb_eq in Hm.
    assert (Hlt : (offset <? 0) = false) by lia. vrun. by destruct (list_find _ _) as [[]|]. }
  destruct (list_find _ _) as [[j e]|] eqn:Hf; [|by exists 0, None].
  eexists _, _. split; [exact Hrun|]. apply list_find_Some in Hf as (Hj%lookup_lt_Some & _).
  rewrite length_drop, Hl in Hj. change RAMFS_MAX_DIRENT with 128 in Hj. unfold sizeof_dirent, PAGE_SIZE in *.
  pose proof (Z.div_mod offset 32 ltac:(lia)). pose proof (Z.div_pos offset 32). lia.
Qed.

Lemma getdent_ok s fd : vfs_ok s → file_room 1 s →
  (∀ x size l, fd_node s fd = Some (x, NDir size l) → f_pos x mod sizeof_dirent = 0) →
  wp may_overflow (do_getdent fd) (λ _, vfs_ok) s.
Proof.
  intros HO Hmax Hal. pose proof HO as (L & R & F & P & HV). pose proof HV as [HI _].
  unfold do_getdent. destruct (_ || _) eqn:Hb; [by apply wp_ret|]. destruct (fd_at s fd) as [f|] eqn:Hfd.
  2: { apply wp_bind. eapply wp_run; [eapply fd_at_None; [done|lia|done]|]. by apply wp_ret. }
  destruct (fd_at_Some _ _ _ _ _ _ _ HI Hfd) as (Hr & Hp & x & k & nd & Hf & Hv & Hk & Hnd).
  pose proof (fd_node_Some _ _ _ _ _ _ Hfd Hf Hk Hnd) as Hnode.
  eapply with_fd; [done..|by eauto|]. intros Hf0. destruct (Z.eqb_spec f NULL); [done|].
  pose proof (finv_ref _ _ _ _ _ _ _ HI Hf Hv) as HI1. fold (ref_file x) in HI1. set (s1 := with_file s f (ref_file x)) in *.
  assert (Hf1 : v_files s1 !! f = Some (ref_file x)) by apply lookup_insert_eq.
  apply wp_bind. eapply wp_run; [apply get_with_file|]. cbn [f_vnode f_pos ref_file set_frefcount].
  apply wp_bind. eapply wp_run; [by eapply (isdir_run _ _ _ s1); [apply (fi_vn _ _ _ _ _ HI1)|..]|].
  destruct nd as [size page|size l|type devid]; cbn [negb]; [by eapply fput_back_wp| |by eapply fput_back_wp].
  apply wp_bind. eapply wp_run; [by eapply (get_ops_run _ _ _ s1); [apply (fi_vn _ _ _ _ _ HI1)|..]|]. cbn [negb is_dir_vops].
  pose proof (fk_at _ _ _ (fi_file _ _ _ _ _ HI f x Hf)) as Hat.
  destruct (readdir_run _ _ _ s1 (f_vnode x) k size l (f_pos x) (fi_vn _ _ _ _ _ HI1)) as (num & d & Hrun & Hnum & Hle);
    [done..|lia|by eapply Hal|].
  apply wp_bind. eapply wp_run; [exact Hrun|]. cbn beta iota. destruct (Z.eqb_spec num 0); [apply wp_ret; by eapply (ref_ok L R F P)|].
  specialize (Hle ltac:(done)). unfold PAGE_SIZE in *. apply wp_bind.
  eapply wp_run; [unfold upd_file; erewrite kbind_of_ret by apply get_with_file; apply put_with_file|].
  assert (E : set_pos (i32 (f_pos (ref_file x) + num)) (ref_file x) = ref_file (set_pos (f_pos x + num) x)).
  { unfold set_pos, ref_file, set_frefcount. simpl. by rewrite i32_small by lia. }
  rewrite E. assert (HI2 : finv L (holders s R) F P (with_file s f (set_pos (f_pos x + num) x))) by (apply finv_pos; [done..|lia]).
  assert (HV2 : vfs_inv L R F P (with_file s f (set_pos (f_pos x + num) x))) by (destruct (proj2 HV) as [A B C]; split; [exact HI2|split; [exact A|exact B|exact C]]).
  pose proof (fput_back_wp L R F P _ f (set_pos (f_pos x + num) x) (sizeof_struct_dirent, d) HV2) as Hw.
  unfold with_file, upd_files in Hw. simpl in Hw. rewrite insert_insert_eq in Hw. apply Hw; [apply lookup_insert_eq|done].
Qed.

(** * The machine *)

(** What a call must keep clear of in the state it is made in. *)
Definition admissible s (k : call) : Prop :=
  match k with
  | CMkdir path | CMknod path _ => good_path path ∧ short_name path
  | CUnlink path => good_path path ∧ ∃ kd, parent_of s path = inr kd
  | CRmdir path => good_path path ∧ rmdir_name path ∧
      ∀ kd k, parent_of s path = inr kd → found (content s) kd (parsed path).2 = Some k → vno_at s (v_p_cwd s) ≠ Some k
  | CLink from to => good_path from ∧ good_path to ∧ short_name to ∧ may_link s from ∧ dir_loaded s to
  | CRename old new => good_path old ∧ good_path new ∧ short_name new ∧ may_link s old ∧ dir_loaded s new ∧
      ∃ kd, parent_of s old = inr kd
  | CStat path => good_path path ∧ dir_loaded s path
  | CChdir path => good_path path
  | COpen path oflags => good_path path ∧ short_name path ∧ may_open s path oflags
  | CClose _ | CDup _ | CDup2 _ _ => True
  | CLseek _ offset _ => - 2 ^ 31 ≤ offset < 2 ^ 31
  | CRead fd n => 0 ≤ n < 2 ^ 31 ∧ ∀ x type devid, fd_node s fd ≠ Some (x, NDev type devid)
  | CWrite fd buf => Z.of_nat (length buf) < 2 ^ 31 ∧ ∀ x n, fd_node s fd = Some (x, n) →
      match n with NFile size _ => write_pos x size ≤ PAGE_SIZE | NDir _ _ => True | NDev _ _ => False end
  | CGetdent fd => ∀ x size l, fd_node s fd = Some (x, NDir size l) → f_pos x mod sizeof_dirent = 0
  end.

(** By how much a call can raise a count. *)
Definition call_cost (k : call) : Z :=
  let len path := Z.of_nat (String.length path) in
  match k with
  | CMkdir path | CMknod path _ | CUnlink path | CRmdir path => 3 + len path
  | CLink from to => 7 + len from + len to
  | CRename old new => 10 + 2 * len old + len new
  | CStat path => 2 + len path
  | CChdir path => 4 + len path
  | COpen path _ => 12 + 3 * len path
  | CClose _ | CDup _ | CLseek _ _ _ | CRead _ _ | CGetdent _ => 1
  | CDup2 _ _ | CWrite _ _ => 2
  end.

Lemma exec_cost n k : 1 ≤ n → n + call_cost k ≤ INT_MAX → costs n (call_cost k) (exec k) (λ _, True).
Proof.
  intros H1 Hn.
  assert (Hret : ∀ A k' (c : vM M (Z * A)), costs n k' c (λ _, True) → 0 ≤ k' →
    costs n k' (let* (ret, _) := c in kret ret) (λ _, True)).
  { intros A k' c Hc Hk'. eapply costs_bind; [exact Hc|]. intros [ret a] _. apply costs_ret; [lia|done]. }
  destruct k; simpl in *; [apply do_mkdir_cost|apply do_mknod_cost|apply do_unlink_cost|apply do_rmdir_cost|
    apply do_link_cost|apply do_rename_cost|apply Hret; [apply do_stat_cost|]|apply do_chdir_cost|apply do_open_cost|
    apply do_close_cost|apply do_dup_cost|apply do_dup2_cost|apply do_lseek_cost|apply Hret; [apply do_read_cost|]|
    apply do_write_cost|apply Hret; [apply do_getdent_cost|]]; lia.
Qed.

Lemma fs_call_ok s k : vfs_ok s → admissible s k → file_room (Z.min 2 (call_cost k)) s → wp may_overflow (exec k) (λ _, vfs_ok) s.
Proof.
  intros HO. destruct k; simpl.
  - intros [? ?] _. by apply mkdir_ok.
  - intros [? ?] _. by apply mknod_ok.
  - intros [? [kd ?]] _. by eapply unlink_ok.
  - intros (? & ? & ?) _. by apply rmdir_ok.
  - intros (? & ? & ? & ? & ?) _. eapply wp_mono; [by apply link_ok|]. by intros ? ? [? _].
  - intros (? & ? & ? & ? & ? & kd & ?) _. by eapply rename_ok.
  - intros [? ?] _. apply wp_bind. eapply wp_mono; [by apply stat_ok|]. intros [ret st] s' Hs'. by apply wp_ret.
  - intros ? _. by apply chdir_ok.
  - intros (? & ? & ?) _. by apply open_ok.
  - intros _. by apply close_ok.
  - intros _. by apply dup_ok.
  - intros _. by apply dup2_ok.
  - intros ? ?. by apply lseek_ok.
  - intros [? ?] ?. apply wp_bind. eapply wp_mono; [by apply read_ok|]. intros [ret data] s' Hs'. by apply wp_ret.
  - intros [? ?] ?. by apply write_ok.
  - intros ? ?. apply wp_bind. eapply wp_mono; [by apply getdent_ok|]. intros [ret d] s' Hs'. by apply wp_ret.
Qed.

Lemma below_room n k s : below n s → n + k ≤ INT_MAX → file_room k s.
Proof. intros [_ Hb] Hn f x Hf. specialize (Hb f x Hf). simpl in Hb. lia. Qed.

(** Where the counts have room for the call, none overflows. *)
Lemma wp_room {A} n k (c : vM M A) Q s :
  costs n k c (λ _, True) → below n s → wp may_overflow c Q s → wp may_starve c (λ a s', Q a s' ∧ below (n + k) s') s.
Proof. intros Hc Hb. specialize (Hc s Hb). unfold wp. destruct (c s); try done. by destruct Hc. Qed.

Lemma exec_ok n s k : vfs_ok s → admissible s k → below n s → 1 ≤ n → n + call_cost k ≤ INT_MAX →
  wp may_starve (exec k) (λ _ s', vfs_ok s' ∧ below (n + call_cost k) s') s.
Proof.
  intros HO Ha Hb H1 Hn. apply wp_room; [by apply exec_cost|done|]. apply fs_call_ok; [done..|].
  eapply below_room; [done|]. lia.
Qed.

(** The counts have room for [k] more references. *)
Definition room (k : Z) s : Prop := below (INT_MAX - k) s.

Lemma wp_in_room {A} L R P k (c : vM M A) Q s :
  vninv L R P s → paths_ok L R s → room k s → 0 ≤ k → (∀ n, 1 ≤ n → n + k ≤ INT_MAX → costs n k c (λ _, True)) →
  wp may_overflow c Q s → wp may_starve c Q s.
Proof.
  intros HI HP Hr Hk Hc Hw. assert (Hn : 1 ≤ INT_MAX - k).
  { destruct (po_root _ _ _ HP) as [_ (x & Hx & _)%vno_at_Some]. destruct Hr as [Hr _]. specialize (Hr _ _ Hx).
    pose proof (vk_held _ _ _ _ (vi_vnode _ _ _ _ HI _ _ Hx)). simpl in Hr. lia. }
  eapply wp_mono; [eapply wp_room; [apply Hc; [exact Hn|lia]|exact Hr|exact Hw]|]. by intros a s' [? _].
Qed.

(** Calls are made one after the other and return. *)
Inductive steps : vfs M → list call → vfs M → Prop :=
  | steps_nil s : steps s [] s
  | steps_cons s k ret s1 ks s' : admissible s k → exec k s = RRet ret s1 → steps s1 ks s' → steps s (k :: ks) s'.

Definition total_cost (ks : list call) : Z := foldr (λ k n, call_cost k + n) 0 ks.

Lemma call_cost_pos k : 1 ≤ call_cost k.
Proof. destruct k; simpl; lia. Qed.
Lemma total_cost_nonneg ks : 0 ≤ total_cost ks.
Proof. induction ks as [|k ks IH]; simpl; [done|]. pose proof (call_cost_pos k). lia. Qed.

Lemma steps_ok n s ks s' : steps s ks s' → vfs_ok s → below n s → 1 ≤ n → n + total_cost ks ≤ INT_MAX →
  vfs_ok s' ∧ below (n + total_cost ks) s'.
Proof.
  intros Hst. revert n. induction Hst as [s|s k ret s1 ks s' Ha Hr _ IH]; intros n HO Hb H1 Hn; simpl in *.
  - by rewrite Z.add_0_r.
  - pose proof (total_cost_nonneg ks). pose proof (call_cost_pos k).
    pose proof (exec_ok n s k HO Ha Hb H1 ltac:(lia)) as Hw. unfold wp in Hw. rewrite Hr in Hw. destruct Hw as [HO1 Hb1].
    rewrite Z.add_assoc. apply IH; [done..|lia|lia].
Qed.
End Machine.
