(* ===== verification/VfsProps.v ===== *)
(** What the file system promises: the properties of the vnode cache, of path
    names, of the file system calls and of the boot sequence, each with an
    instance. *)

From Stdlib Require Import Ascii.
From stdpp Require Import base functions numbers list gmap strings.
From S2P Require Import Prelude Sched Mutex PageAlloc Slab KMem Vfs VnodeInv Ramfs RamfsInv FsTree Namev.
From S2P Require Import NamevInv VfsSyscall VfsBoot PathInv LinkInv FileInv OpenInv BootInv RefBound VfsSafe.

Open Scope Z_scope.

(** * Names in directories *)

Lemma dir_get_enter l j e ino name : l !! j = Some e → dir_get l name = None →
  dir_get (<[j := Dirent ino name]> l) name = Some (j, Dirent ino name).
Proof.
  intros Hj Hn. apply list_find_Some. pose proof (lookup_lt_Some _ _ _ Hj). split_and!; [by apply list_lookup_insert_eq|done|].
  intros i x Hi Hlt. rewrite list_lookup_insert_ne in Hi by lia. by eapply dir_get_None.
Qed.


Lemma removelast_snoc {A} (l : list A) (x : A) : removelast (l ++ [x]) = l.
Proof. induction l as [|y l IH]; [done|]. simpl. rewrite IH. by destruct (l ++ [x]) eqn:E; [apply app_nil in E as [_ ?]|]. Qed.

(** There is a last name when there is anything. *)
Lemma parse_named fuel start : (String.length start ≤ fuel)%nat → starts_slash start = false → start ≠ EmptyString →
  (parse fuel start).2.2 ≠ 0.
Proof.
  revert start. induction fuel as [|fuel IH]; intros start Hlen Hst Hne.
  { destruct start; simpl in *; [done|lia]. }
  simpl. destruct (seek_slash start) as [b|] eqn:Hsk; [|simpl; by intros ?%strlen_zero].
  apply seek_slash_Some in Hsk as (a & b' & -> & Ha & ->). apply no_start in Hst as Han.
  destruct (negb _ && negb _) eqn:Hc.
  - apply andb_true_iff in Hc as [_ Hc%negb_true_iff%bool_decide_eq_false]. specialize (IH (skip_slashes (String slash b'))).
    destruct (parse fuel _) as [ds r]. simpl. apply IH; [|apply skip_slashes_start|done].
    pose proof (skip_slashes_le (String slash b')). pose proof (strlen_app a (String slash b')).
    unfold strlen in *. destruct a; [done|]. simpl in *. lia.
  - simpl. rewrite strlen_app. intros E. apply Han, strlen_zero. lia.
Qed.

(** The directories and the last name of a path are its components. *)
Lemma parsed_comps path : starts_slash (path_rest path) = false →
  (piece_of <$> (parsed path).1) = removelast (comps EmptyString path) ∧
  piece_of (parsed path).2 = default EmptyString (last (comps EmptyString path)) ∧
  strlen (piece_of (parsed path).2) = (parsed path).2.2.
Proof.
  intros Hst. pose proof (parse_spec (String.length path) (path_rest path) (path_rest_length path) Hst) as Hp.
  pose proof (parse_named (String.length path) (path_rest path) (path_rest_length path) Hst) as Hname.
  unfold parsed. destruct (parse _ _) as [ds r]. destruct Hp as (Hc & _ & Hr). simpl in *.
  assert (Ec : comps EmptyString path = comps EmptyString (path_rest path)).
  { unfold path_rest. destruct path as [|c path]; [done|]. case_bool_decide; [|done]. simpl. by case_bool_decide. }
  rewrite Ec, Hc. unfold last_comp. destruct Hr as [Hr| ->]; simpl.
  - destruct (Z.eqb_spec r.2 0) as [E|_]; [destruct Hr as (_ & ? & _); lia|]. rewrite removelast_snoc, last_snoc. split_and!; [done..|apply (proj1 Hr)].
  - destruct (decide (path_rest path = EmptyString)) as [E|E]; [|by apply Hname in E].
    rewrite E in Hc. simpl in Hc. rewrite app_nil_r in *. by rewrite <- Hc.
Qed.

(** * The vnode cache *)

Section Claims.
Context {M : Type} `{KMemLaws M}.
Implicit Types (s : vfs M) (L : Z → Z) (R F : list Z) (P : list piece).

(** An inode without links and without a vnode is not there. *)
Lemma no_stay_gone L R P s k : vninv L R P s → ¬ stays L R s k → content s k = None.
Proof.
  intros HI Hst. destruct (content s k) as [n|] eqn:Hn; [|done]. exfalso. apply Hst.
  destruct (inode_at_inv s k) as (Hk & p & ? & Hp & Hpn & _); [by exists n|].
  destruct (vi_inode _ _ _ _ HI _ _ Hp Hpn) as (i & Hi & [_ J2 J3 J4 _]). rewrite Z2Nat.id in * by done.
  destruct (loaded s k) eqn:Hl; [|left; lia]. right.
  apply bool_decide_eq_true, Exists_exists in Hl as (w & _ & Hw). exists w. split; [|exact Hw].
  destruct (v_vnodes s !! w) as [y|] eqn:Hy; [|done].
  destruct (vi_vnode _ _ _ _ HI w y Hy) as [_ V2 V3 _ _ _ _ _ _ _]. apply cnt_pos. lia.
Qed.

(** C37. Giving up a reference to a vnode returns; the counts are right afterwards, the
    other vnodes stay the vnodes of their inodes, and an inode keeps its content
    exactly as long as it has a link or a vnode someone holds. *)
Theorem vput_correct L R P s v k :
  vninv L (v :: R) P s → vno_at s v = Some k →
  ∃ s', vput v s = RRet tt s' ∧ vninv L R P s' ∧ vframe R s s' ∧ (∀ j, j ≠ k → content s' j = content s j) ∧
    (stays L R s k → content s' k = content s k) ∧ (¬ stays L R s k → content s' k = None).
Proof.
  intros HI Hv. destruct (vput_run _ _ _ _ _ _ HI Hv) as (s' & Hr & HI' & Hf & Hc). exists s'.
  split_and!; [done..| | |]; [auto| |].
  - intros Hst. apply Hc. by right.
  - intros Hst. eapply no_stay_gone; [done|]. rewrite (stays_ext _ _ s); [done|apply Hf].
Qed.

(** * Path names *)

(** C30. The names of a path that does not start with two slashes are resolved one
    after the other, where the reference counts have room for one more each:
    dir_namev returns the vnode of the directory the components but the last lead
    to from the root or the working directory, with a reference, and the last
    component; or it returns the error of the first component that is not there or
    not a directory, and in the second case keeps a reference to its vnode.  The
    loop ends; no memory for a vnode makes the thread wait. *)
Theorem dir_namev_correct L R P s path k :
  vninv L R P s → paths_ok L R s → vno_at s (path_dir s path) = Some k → starts_slash (path_rest path) = false →
  room (1 + strlen path) s →
  wp may_starve (dir_namev path NULL) (λ res s',
    let names := comps EmptyString path in
    match resolve (content s) k (removelast names) with
    | inr kd =>
        dn_ret res = 0 ∧ vno_at s' (dn_vnode res) = Some kd ∧
        prefix_of (dn_name res) (dn_namelen res) = default EmptyString (last names) ∧
        dn_namelen res = strlen (default EmptyString (last names)) ∧
        becomes L (dn_vnode res :: R) P R s (content s) s'
    | inl err => dn_ret res = - err ∧ 0 < err ∧ leaves (stopped_at (content s) k (removelast names)) L R P s s'
    end) s.
Proof.
  intros HI HP Hk Hst Hroom. destruct (parsed_comps path Hst) as (E1 & E2 & E3).
  eapply wp_in_room; [done..|unfold strlen; lia|intros n H1 Hn; apply dir_namev_cost; unfold strlen in *; lia|].
  eapply wp_mono; [by eapply dir_namev_wp|]. intros res s'. unfold walked. cbv zeta. rewrite <- E1.
  destruct (resolve _ _ _) as [err|kd].
  - intros (-> & ? & ?). done.
  - intros (-> & -> & -> & Hg). split_and!; [done|apply Hg|exact E2|by rewrite <- E2, E3|by eapply becomes_got].
Qed.

(** * Calls on paths *)

(** The tree with a new node under the name: it is found there, the rest is as it was. *)
Definition added s kd name ino (n : node) s' : Prop :=
  content s ino = None ∧ content s' ino = Some n ∧
  (∃ size l, content s' kd = Some (NDir size l) ∧ rd_ino ∘ snd <$> dir_get l name = Some ino) ∧
  ∀ a, a ≠ ino → a ≠ kd → content s' a = content s a.

Lemma adds_added s kd name n ino c' s' :
  adds (content s) kd name n ino c' → unused (content s) kd name → (∀ a, content s' a = c' a) → added s kd name ino n s'.
Proof.
  intros (size & l & j & e & Hc & Hsp & Hi & Hino & Hc') Hun Hs'. assert (ino ≠ kd) by congruence. split_and!.
  - done.
  - rewrite Hs', Hc', fn_lookup_insert_ne, fn_lookup_insert by done. done.
  - eexists _, _. rewrite Hs', Hc', fn_lookup_insert. split; [done|].
    apply list_find_Some in Hsp as (Hj & _ & _). by rewrite (dir_get_enter _ _ e) by (done || by eapply Hun).
  - intros a Ha1 Ha2. by rewrite Hs', Hc', !fn_lookup_insert_ne by done.
Qed.

(** C32. mkdir, for a last name of at most 27 characters and where the reference counts
    have room: when the directory of the path is not there the call returns the
    error, and what stood in the place of a directory stays referenced; when the
    name is taken or there is no room for it, the tree and all references are as
    they were; otherwise a new empty directory is under the name.  The invariant
    holds in each case. *)
Theorem do_mkdir_correct L R F P s path :
  vfs_inv L R F P s → good_path path → short_name path → room (call_cost (CMkdir path)) s →
  wp may_starve (do_mkdir path) (λ ret s', vfs_ok s' ∧
    let same ks err := ret = - err ∧ leaves ks L (all_refs s R) (all_mem s P) s s' in
    match parent_of s path with
    | inl err => same (stuck s path) err
    | inr kd =>
        if found (content s) kd (parsed path).2 is Some _ then same [] EEXIST
        else same [] ENOSPC ∨ (ret = 0 ∧ ∃ ino, added s kd (piece_of (parsed path).2) ino (new_dir kd ino) s')
    end) s.
Proof.
  intros HV Hg Hsh Hroom. pose proof (inv_paths _ _ _ _ _ HV) as HP.
  eapply wp_in_room; [by eapply inv_vn|done..|simpl; lia|intros n H1 Hn; by apply (exec_cost n (CMkdir path))|].
  apply wp_and; [apply mkdir_ok; [by exists L, R, F, P|done..]|]. eapply wp_mono.
  { eapply (do_mkdir_wp L (all_refs s R) (all_mem s P)); [by eapply inv_vn|done|apply Hg..]. }
  intros ret s'. unfold mkdir_post. destruct (parent_of s path) as [err|kd] eqn:Hpar; [done|]. cbv zeta.
  unfold short_name in Hsh. destruct (Z.ltb_spec NAME_LEN (parsed path).2.2); [unfold NAME_LEN in *; lia|].
  destruct (found _ _ _) eqn:Hf; [done|]. destruct (new_name _ _ _ _ _ HP Hg Hsh Hpar Hf) as (HL & E & Hne & Hun).
  intros [(ino & c' & -> & Ha & Hb)|Hs]; [right|by left]. split; [done|]. exists ino. rewrite E in Ha.
  eapply adds_added; [done..|apply Hb].
Qed.





Lemma open_creates oflags : (Z.land (open_flag oflags) O_CREAT =? 0) = negb (Z.land oflags 0x700 =? O_CREAT).
Proof.
  unfold open_flag. destruct (Z.eqb_spec (Z.land oflags 0x700) O_CREAT) as [->|]; [done|].
  destruct (Z.eqb_spec (Z.land oflags 0x700) O_TRUNC) as [->|]; [done|].
  by destruct (Z.eqb_spec (Z.land oflags 0x700) O_APPEND) as [->|].
Qed.

(** C31. open for reading, or for reading and writing, of a path whose last name has at
    most 27 characters, where the reference counts have room.  Without a free
    descriptor nothing changes.  Otherwise the first free descriptor gets a new
    file at position 0 on the inode the path names; O_CREAT as the only status flag
    makes a file that is not there.  A directory is not opened for writing.  Each
    failure leaves the tree and the descriptors alone; except when there was no
    memory for it, the file structure stays allocated.  The invariant holds but for
    a refused directory, whose vnode that structure keeps without a reference. *)
Theorem do_open_correct L R F P s path oflags :
  vfs_inv L R F P s → good_path path → short_name path → Z.land oflags 3 = O_RDONLY ∨ Z.land oflags 3 = O_RDWR →
  room (call_cost (COpen path oflags)) s →
  wp may_starve (do_open path oflags) (λ ret s', (ret ≠ - EISDIR → vfs_ok s') ∧
    let keeps := v_p_files s' = v_p_files s ∧ ∀ a, content s' a = content s a in
    let loses v := ∃ f, v_files s !! f = None ∧ v_files s' = <[f := File 0 0 1 v]> (v_files s) in
    let fails err := ret = - err ∧ keeps ∧ loses NULL in
    match list_find (λ f, f = NULL) (v_p_files s) with
    | None => ret = - EMFILE ∧ s' = s
    | Some (fd, _) =>
        let opens k := ret = Z.of_nat fd ∧ ∃ f v, v_files s !! f = None ∧ v_p_files s' = <[fd := f]> (v_p_files s) ∧
          v_files s' = <[f := File 0 (open_mode oflags) 1 v]> (v_files s) ∧ vno_at s' v = Some k in
        (ret = - EBADF ∧ keeps ∧ v_files s' = v_files s) ∨
        match parent_of s path with
        | inl err => fails err
        | inr kd =>
            match found (content s) kd (parsed path).2 with
            | Some k =>
                if (if content s k is Some n then is_dir n else false) && (Z.land oflags 3 =? O_RDWR)
                then ret = - EISDIR ∧ keeps ∧ ∃ v, loses v
                else opens k ∧ ∀ a, content s' a = content s a
            | None =>
                if Z.land oflags 0x700 =? O_CREAT
                then fails ENOSPC ∨ ∃ ino, opens ino ∧ added s kd (piece_of (parsed path).2) ino (NFile 0 zero_bytes) s'
                else fails ENOENT
            end
        end
    end) s.
Proof.
  intros HV Hg Hsh Hacc Hroom. eapply wp_in_room;
    [by eapply inv_vn|by eapply inv_paths|done|simpl; lia|intros n H1 Hn; by apply (exec_cost n (COpen path oflags))|].
  pose proof HV as [HI HP]. destruct (list_find (λ f, f = NULL) (v_p_files s)) as [[fd f]|] eqn:Hfd.
  2: { eapply wp_run; [apply open_full; [done|apply Hg|done]|]. split; [|done]. intros _. by exists L, R, F, P. }
  assert (f = NULL) as -> by (by apply list_find_Some in Hfd as (_ & -> & _)).
  eapply wp_mono; [eapply (do_open_wp L (holders s R) F P s path oflags fd); [done..|apply Hg|apply Hg|done|done]|].
  intros ret s' Hpost. split.
  { intros Hne. by destruct (open_post_ok _ _ _ _ _ _ _ _ _ _ HV Hg Hsh Hpost) as [?|[? _]]. }
  cbv zeta. revert Hpost. unfold open_post. rewrite open_creates.
  assert (Hfail : ∀ ks err, open_failed ks true L (holders s R) F P s ret err s' →
    ret = - err ∧ (v_p_files s' = v_p_files s ∧ ∀ a, content s' a = content s a) ∧
    ∃ f, v_files s !! f = None ∧ v_files s' = <[f := File 0 0 1 NULL]> (v_files s)).
  { intros ks err (-> & vs & F' & _ & (f & _ & ? & ?) & _ & ? & _ & _ & _ & ?). split_and!; [done..|]. by exists f. }
  intros [(-> & vs & F' & _ & [_ ?] & _ & ? & _ & _ & _ & ?)|Hpost]; [by left|right]. revert Hpost.
  destruct (parent_of s path) as [err|kd] eqn:Hpar; [by apply Hfail|]. destruct (found _ _ _) as [k|] eqn:Hf.
  { destruct (_ && _).
    - intros (-> & f & v & ? & ? & _ & ? & _ & _ & _ & ?). split_and!; [done..|]. by exists v, f.
    - intros (-> & f & v & ? & _ & ? & ? & ? & _ & _ & _ & ?). rewrite Nat2Z.id in *. split; [|done]. split; [done|]. by exists f, v. }
  destruct (_ =? _); simpl; [|by apply Hfail].
  intros [Hn|(ino & c' & -> & Ha & f & v & ? & _ & ? & ? & ? & _ & _ & _ & Hc)]; [left; by eapply Hfail|right].
  exists ino. rewrite Nat2Z.id in *. split; [split; [done|]; by exists f, v|].
  destruct (new_name _ _ _ _ _ HP Hg Hsh Hpar Hf) as (HL & E & Hne & Hun). rewrite E in Ha. by eapply adds_added.
Qed.

(** * Reading and writing *)

(** C36. A write of a regular file at an offset in its page: as many bytes are taken as
    fit, nothing outside the page is touched, the bytes in front of and behind
    them stay, and the file ends at the later of its old end and the last byte. *)
Theorem ramfs_write_bounds L R P s v k size page offset data :
  vninv L R P s → vno_at s v = Some k → content s k = Some (NFile size page) →
  0 ≤ offset ≤ PAGE_SIZE → Z.of_nat (length data) < 2 ^ 31 →
  ∃ ret s' size' page', ramfs_write v offset data s = RRet ret s' ∧ vninv L R P s' ∧
    ret = Z.min (Z.of_nat (length data)) (PAGE_SIZE - offset) ∧
    content s' k = Some (NFile size' page') ∧ size' = Z.max size (offset + ret) ∧ size ≤ size' ≤ PAGE_SIZE ∧
    length page' = length page ∧
    (∀ n : nat, page' !! n = if decide (offset ≤ Z.of_nat n < offset + ret) then data !! (n - Z.to_nat offset)%nat else page !! n) ∧
    ∀ a, a ≠ k → content s' a = content s a.
Proof.
  intros HI Hv Hc Ho Hn.
  destruct (file_view _ _ _ _ _ _ _ _ HI Hv Hc) as (_ & _ & _ & _ & _ & _ & (_ & _ & _ & Hpl & Hsz & _) & _).
  destruct (write_run _ _ _ _ _ _ _ _ HI Hv Hc offset data Ho Hn) as (ret & s' & Hr & Eret & HI' & _ & Hc').
  assert (Hdl : length (take (Z.to_nat ret) data) = Z.to_nat ret) by (rewrite length_take; lia).
  unfold PAGE_SIZE in *. exists ret, s', (Z.max size (offset + ret)), (page_write page offset (take (Z.to_nat ret) data)).
  split_and!; try done; try lia.
  - by rewrite Hc', fn_lookup_insert.
  - apply page_write_length; lia.
  - intros n. rewrite page_write_lookup by lia. rewrite Hdl, Z2Nat.id by lia.
    case_decide as Hd; [|done]. rewrite lookup_take_lt by lia. f_equal. lia.
  - intros a Ha. by rewrite Hc', fn_lookup_insert_ne.
Qed.

Lemma read_back page (offset size : Z) data : 0 ≤ offset → offset ≤ Z.of_nat (length page) →
  offset + Z.of_nat (length data) ≤ size →
  take (length data) (drop (Z.to_nat offset) (file_bytes size (page_write page offset data))) = data.
Proof.
  intros Ho Hl Hs. unfold file_bytes, page_write. rewrite skipn_firstn_comm, take_take.
  rewrite drop_app_length' by (rewrite length_take; lia). by rewrite take_app_le, take_ge by lia.
Qed.

(** C35. What was written to a file that is open for reading and writing is read back
    after seeking to where the write began, to the end of the page; the count of
    the file has room for two more references. *)
Theorem write_read_roundtrip L R F P s fd f x k size page buf :
  finv L R F P s → 0 ≤ fd < NFILES → v_p_files s !! Z.to_nat fd = Some f → v_files s !! f = Some x →
  vno_at s (f_vnode x) = Some k → content s k = Some (NFile size page) → f_mode x = Z.lor FMODE_WRITE FMODE_READ →
  f_pos x ≤ PAGE_SIZE → Z.of_nat (length buf) < 2 ^ 31 → f_refcount x + 1 < INT_MAX →
  ∃ ret s', (let* ret := do_write fd buf in do_lseek fd (- ret) SEEK_CUR ;;; do_read fd ret) s =
      RRet (ret, take (Z.to_nat ret) buf) s' ∧
    ret = Z.min (Z.of_nat (length buf)) (PAGE_SIZE - f_pos x).
Proof.
  intros HI Hr Hp Hf Hk Hc Hm Hpos Hlen Hmax. pose proof (fk_at _ _ _ (fi_file _ _ _ _ _ HI f x Hf)) as Hat.
  assert (Hw0 : write_pos x size = f_pos x) by (unfold write_pos; by rewrite Hm).
  destruct (do_write_run _ _ _ _ _ _ _ _ HI Hr Hp Hf Hmax k size page buf) as (ret & s1 & Hrun & Hw);
    [done|done|by rewrite Hm|by rewrite Hw0|done|].
  destruct Hw as (Eret & HI1 & Ef & Epf & _ & _ & Hv1 & Hc1). rewrite Hw0 in *.
  destruct (fd_vnode _ _ _ _ _ _ _ _ HI Hp Hf) as [Hvn _]. rewrite <- Epf in Hp.
  assert (Hk1 : vno_at s1 (f_vnode x) = Some k).
  { rewrite Hv1; [done|]. apply elem_of_app. left. by eapply vnode_in_files. }
  set (x1 := set_pos (f_pos x + ret) x) in *.
  assert (Hf1 : v_files s1 !! f = Some x1) by (rewrite Ef; apply lookup_insert_eq).
  assert (Hc1k := Hc1 k). rewrite fn_lookup_insert in Hc1k.
  destruct (file_view _ _ _ _ _ _ _ _ (fi_vn _ _ _ _ _ HI) Hk Hc) as (_ & _ & _ & _ & _ & _ & (_ & _ & _ & Hpl & Hsz & _) & _).
  unfold PAGE_SIZE in *. pose proof Hk1 as (y & Hy & _)%vno_at_Some.
  assert (Hseek : seek_pos x1 (vn_len y) (- ret) SEEK_CUR = f_pos x).
  { unfold seek_pos. simpl. rewrite i32_small; lia. }
  assert (Hl : do_lseek fd (- ret) SEEK_CUR s1 = RRet (f_pos x) (with_file s1 f x)).
  { pose proof (do_lseek_run _ _ _ _ _ _ _ _ HI1 Hr Hp Hf1 ltac:(simpl; lia) y (- ret) SEEK_CUR Hy ltac:(lia) ltac:(auto)) as Hl.
    cbv zeta in Hl. rewrite Hseek in Hl. rewrite Hl, (proj2 (Z.ltb_ge _ _)), Z.max_r by lia. by destruct x. }
  assert (HI2 : finv L R F P (with_file s1 f x)).
  { pose proof (finv_pos _ _ _ _ _ _ _ (f_pos x) HI1 Hf1 Hat) as HI2. by destruct x. }
  exists ret. eexists. split; [|done]. erewrite kbind_of_ret by exact Hrun. erewrite kbind_of_ret by exact Hl.
  assert (Hdl : length (take (Z.to_nat ret) buf) = Z.to_nat ret) by (rewrite length_take; lia).
  pose proof (do_read_run _ _ _ _ _ _ _ _ HI2 Hr Hp (lookup_insert_eq _ _ _) ltac:(lia) k _ _ ret Hk1 Hc1k) as Hrd.
  cbv zeta in Hrd. rewrite Hrd; [|by rewrite Hm|lia]. clear Hrd.
  assert (Hback : take (Z.to_nat ret) (drop (Z.to_nat (f_pos x)) (file_bytes (size `max` (f_pos x + ret))
    (page_write page (f_pos x) (take (Z.to_nat ret) buf)))) = take (Z.to_nat ret) buf).
  { rewrite <- Hdl at 1. apply read_back; lia. }
  rewrite Hback, Hdl, Z2Nat.id by lia. done.
Qed.

(** * The life of the file system *)

(** C40. The end of the idle process, when no reference is held but its own and the one
    of the file system, returns and gives back every vnode, inode and page and the
    structure of the file system; with any other reference it panics. *)
Theorem vfs_shutdown_correct L R P s fs :
  vninv L (v_p_cwd s :: v_root s :: R) (PMalloc fs :: P) s →
  if decide (R = []) then ∃ s', idle_shutdown fs s = RRet tt s' ∧ shut_down P s s'
  else idle_shutdown fs s = RPanic "vfs_shutdown: found active vnodes in root filesystem".
Proof.
  intros HI. destruct (vi_refs _ _ _ _ HI (v_p_cwd s) ltac:(set_solver)) as [x Hx].
  destruct (vput_run _ _ _ _ _ (vn_vno x) HI) as (s1 & Hr & HI1 & [Hs _] & _); [unfold vno_at; by rewrite Hx|].
  rewrite <- (sm_root _ _ Hs) in HI1. unfold idle_shutdown. erewrite (kbind_of_ret kget) by done. cbn beta.
  erewrite kbind_of_ret by exact Hr. cbn beta. case_decide as HR; [subst|].
  - destruct (vfs_shutdown_run _ _ _ _ HI1) as (s2 & Hr2 & H1 & H2 & H3 & H4 & H5). exists s2. split.
    + by erewrite kbind_of_ret by exact Hr2.
    + rewrite (sm_files _ _ Hs) in H4. rewrite (sm_va _ _ Hs), (sm_fa _ _ Hs) in H5. by split_and!.
  - unfold kbind. by erewrite vfs_shutdown_busy by done.
Qed.

(** C38. Booting on a memory with nothing in it ends with the root directory mounted as
    root and working directory and the invariant of the file system, or panics
    because an allocation of the mount failed. *)
Theorem mount_ready P s :
  unmounted P s → v_files s = ∅ → v_p_files s = replicate (Z.to_nat NFILES) NULL →
  match (let* fs := vfs_init in boot_cwd ;;; kret fs) s with
  | RRet fs s' => (∃ rfs, vfs_inv root_links [] [] (PMalloc rfs :: PMalloc fs :: P) s') ∧
      v_p_cwd s' = v_root s' ∧ ∀ k, content s' k = <[0 := Some (new_dir 0 0)]> (λ _, None) k
  | RPanic why => why = "fs" ∨ why = "Failed to mount root fs"
  | RSwitch s' _ => starved s'
  | _ => False
  end%string.
Proof.
  intros HU Hf Hpf. pose proof (vfs_init_run _ _ HU) as Hi. unfold kbind at 1.
  destruct (vfs_init s) as [fs s1| | | |]; simpl; try done.
  destruct (mounted_booted _ _ _ Hi Hf Hpf) as (s2 & Hr & Hb). erewrite kbind_of_ret by exact Hr. simpl.
  destruct Hb as (rfs & HI & HP & Ecwd & Hc). split_and!; [|done..]. exists rfs.
  unfold vfs_inv, holders. by rewrite Ecwd.
Qed.

(** C29. From a state with the invariant, no sequence of file system calls that each
    keep clear of the cases in [admissible] leads to a panic, to the use of freed
    memory or to an endless loop: every call returns in a state with the invariant,
    or gives up the processor as there is no memory for a vnode.  Each call adds at
    most its cost to a reference count, and the theorem holds as long as the costs
    fit an int on top of the counts at the start. *)
Theorem system_calls_safe n s ks s' k :
  vfs_ok s → below n s → 1 ≤ n → steps s ks s' → admissible s' k → n + total_cost ks + call_cost k ≤ INT_MAX →
  wp may_starve (exec k) (λ _ s'', vfs_ok s'' ∧ below (n + total_cost ks + call_cost k) s'') s'.
Proof.
  intros HO Hb H1 Hst Ha Hn. pose proof (call_cost_pos k). pose proof (total_cost_nonneg ks).
  destruct (steps_ok n s ks s' Hst HO Hb H1) as [HO' Hb']; [lia|]. apply exec_ok; [done..|lia|lia].
Qed.
End Claims.

(** * The memory *)

(** C39. The kernel's own allocators are such a memory: from the pages that
    page_add_range has handed over, slab_init, vnode_init and file_init lead to a
    state in which the allocators of vnodes and files, kmalloc and page_alloc keep
    the promises the file system relies on, unless one of the two allocators could
    not be made. *)
Theorem allocators_ready saa p (s : vfs (pstate * sstate)) :
  pinv p [] → (∀ r, r ∈ ranges p → ¬ r.1 ≤ saa < r.2) →
  (∀ order nobjs, _calc_slab_size (sizeof_allocator + 8) = Some (order, nobjs) → ¬ no_block p order) →
  ks_ok (v_ks s) → devs_ok (v_bytedevs s) → v_mem s = (p, empty_sstate) → v_vnodes s = ∅ →
  ∃ s', (mem_call (slab_init saa) ;;; vnode_init saa ;;; file_init saa) s = RRet tt s' ∧
    (v_vnode_allocator s' ≠ NULL → v_file_allocator s' ≠ NULL → unmounted [] s') ∧
    v_files s' = v_files s ∧ v_p_files s' = v_p_files s.
Proof.
  intros Hp Hst Hfree Hks Hdev Hm Hvn. destruct (slab_init_run saa p [] Hp Hst Hfree) as (m0 & L & Hr0 & HK & Hlen & _).
  rewrite <- Hm in Hr0. erewrite kbind_of_ret by (apply mem_call_run; exact Hr0).
  exact (caches_run saa (with_mem m0 s) (slab_mem_start _ _ _ HK Hlen) Hks Hdev Hvn).
Qed.

(** * Instances *)

Module VfsExample.

(** A memory that hands out one address after the other and takes everything back. *)
Record bump := Bump { bump_next : Z }.

Definition bump_alloc : kM bump Z := λ m, RRet (bump_next m) (Bump (bump_next m + 16)).
Definition bump_free : kM bump unit := λ m, RRet tt m.

#[export] Instance bump_kmem : KMem bump := {
  km_obj_alloc _ := bump_alloc;
  km_obj_free _ _ := bump_free;
  km_kmalloc _ := bump_alloc;
  km_kfree _ := bump_free;
  km_page_alloc := bump_alloc;
  km_page_free _ := bump_free
}.

Definition addr_of (x : piece) : Z := match x with PObj _ p | PMalloc p | PPage p => p end.

Record bump_inv (A : list Z) (m : bump) (H : list piece) : Prop := {
  bi_pos : 0 < bump_next m;
  bi_nodup : NoDup H;
  bi_addr x : x ∈ H → 0 < addr_of x < bump_next m
}.

Lemma bump_alloc_ok A m H (mk : Z → piece) : (∀ p, addr_of (mk p) = p) → bump_inv A m H →
  allocates (bump_inv A) bump_alloc mk m H.
Proof.
  intros Hmk [I1 I2 I3]. left. eexists _, _. assert (Hn : mk (bump_next m) ∉ H).
  { intros Hx%I3. rewrite Hmk in Hx. lia. }
  split_and!; [done|done|done|]. split; simpl; [lia|by constructor|].
  intros x [->|Hx%I3]%elem_of_cons; [rewrite Hmk|]; lia.
Qed.

Lemma bump_free_ok A m H x : bump_inv A m (x :: H) → ∃ m', bump_free m = RRet tt m' ∧ bump_inv A m' H.
Proof.
  intros [I1 I2 I3]. exists m. split; [done|]. split; [done|by apply NoDup_cons in I2 as [_ ?]|]. intros y Hy. apply I3. set_solver.
Qed.

#[export] Program Instance bump_kmem_laws : KMemLaws bump := { km_inv := bump_inv }.
Next Obligation. intros A m H H' HP [I1 I2 I3]. split; [done|by rewrite <- HP|]. intros x. rewrite <- HP. auto. Qed.
Next Obligation. by intros A m H []. Qed.
Next Obligation. intros. by apply bump_alloc_ok. Qed.
Next Obligation. intros A m H a p. apply bump_free_ok. Qed.
Next Obligation. intros. by apply bump_alloc_ok. Qed.
Next Obligation. intros A m H p. apply bump_free_ok. Qed.
Next Obligation. intros A m H p [_ _ I3]. apply (I3 (PPage p)). set_solver. Qed.
Next Obligation. intros. by apply bump_alloc_ok. Qed.
Next Obligation. intros A m H p. apply bump_free_ok. Qed.

(** A machine with one thread and no files. *)
Definition one_thread : kstate :=
  KState {[ 1%positive := KThread 0 1 false None KT_RUN None ]} {[ RunQ := KTQueue [] 0 ]} ∅ IPL_LOW
    (Some 1%positive) (Some 1%positive).
Definition start_on {M} (m : M) (va fa : Z) : vfs M :=
  Vfs one_thread m va fa ∅ [] ∅ [] ∅ ∅ [] NULL (replicate (Z.to_nat NFILES) NULL) NULL.
Definition start : vfs bump := start_on (Bump 16) 1 2.

Lemma one_thread_ok : ks_ok one_thread.
Proof. eexists 1%positive, _, _. split_and!; done. Qed.

Lemma start_unmounted : unmounted [] start.
Proof. split; [split; [exact one_thread_ok|constructor]|split; [done|constructor|by intros x ?%elem_of_nil]|done|done]. Qed.

(** The state after a call that returns. *)
Definition returns {S A} (r : kres S A) : bool := if r is RRet _ _ then true else false.
Definition after {A} (c : vM bump A) (s : vfs bump) : vfs bump := if c s is RRet _ s' then s' else s.

Lemma wp_after {A} E (c : vM bump A) Q s : wp E c Q s → returns (c s) = true → ∃ a, c s = RRet a (after c s) ∧ Q a (after c s).
Proof. unfold wp, after. destruct (c s); try done. eauto. Qed.

Lemma ok_after {A} (c : vM bump A) s : wp may_overflow c (λ _, vfs_ok) s → returns (c s) = true → vfs_ok (after c s).
Proof. intros Hw Hr. by destruct (wp_after _ _ _ _ Hw Hr) as (a & _ & ?). Qed.

(** The root mounted; booted; a directory /d; a file /f that is open. *)
Definition mounted_at : vfs bump := after vfs_init start.
Definition booted_at : vfs bump := after boot_cwd mounted_at.
Definition dir_at : vfs bump := after (do_mkdir "/d") booted_at.
Definition file_at : vfs bump := after (do_open "/f" (Z.lor O_RDWR O_CREAT)) dir_at.

Lemma mounted_fs : ∃ fs, vfs_init start = RRet fs mounted_at ∧ mounted [PMalloc fs] start mounted_at.
Proof.
  pose proof (vfs_init_run _ _ start_unmounted) as Hi. assert (Hr : returns (vfs_init start) = true) by (vm_compute; reflexivity).
  unfold mounted_at, after. destruct (vfs_init start) as [fs s'| | | |]; try done. by exists fs.
Qed.

Lemma booted_inv : ∃ fs rfs, vfs_inv root_links [] [] [PMalloc rfs; PMalloc fs] booted_at.
Proof.
  destruct mounted_fs as (fs & _ & Hm). destruct (mounted_booted _ _ _ Hm eq_refl eq_refl) as (s' & Hr & rfs & HI & HP & Ec & _).
  exists fs, rfs. unfold booted_at, after. rewrite Hr. unfold vfs_inv, holders. by rewrite Ec.
Qed.

Lemma good (path : string) : bool_decide (starts_slash (path_rest path) = false ∧ 1 ≤ strlen path ≤ MAXPATHLEN) = true → good_path path.
Proof. apply bool_decide_eq_true. Qed.
Lemma short (path : string) : bool_decide ((parsed path).2.2 ≤ NAME_LEN - 1) = true → short_name path.
Proof. apply bool_decide_eq_true. Qed.

(** The counts are small in these states. *)
Definition below_check (n : Z) (s : vfs bump) : bool :=
  bool_decide (map_Forall (λ _ x, vn_refcount x ≤ n ∧ 0 ≤ vn_nrespages x) (v_vnodes s)) &&
  bool_decide (map_Forall (λ _ x, f_refcount x ≤ n) (v_files s)).
Lemma check_below n (s : vfs bump) : below_check n s = true → below n s.
Proof. unfold below_check. intros [H1 H2]%andb_true_iff. split; by eapply bool_decide_eq_true. Qed.
Lemma check_room (s : vfs bump) k : below_check 100 s = true → (k <=? INT_MAX - 100) = true → room k s.
Proof. intros Hb Hk. eapply below_more; [|by apply check_below]. lia. Qed.
Lemma small_counts : below_check 100 booted_at = true ∧ below_check 100 dir_at = true ∧ below_check 100 file_at = true.
Proof. split_and!; vm_compute; reflexivity. Qed.

Lemma dir_ok_at : vfs_ok dir_at.
Proof.
  destruct booted_inv as (fs & rfs & HV). apply ok_after; [|vm_compute; reflexivity].
  apply mkdir_ok; [by eexists root_links, [], [], _|apply good|apply short]; vm_compute; reflexivity.
Qed.

Lemma file_ok_at : vfs_ok file_at.
Proof.
  apply ok_after; [|vm_compute; reflexivity].
  apply open_ok; [exact dir_ok_at|apply good|apply short|]; [vm_compute; reflexivity..|]. right. split; [done|].
  intros kd k size l Hp Hf. assert (E : parent_of dir_at "/f" = inr 0) by (vm_compute; reflexivity).
  rewrite E in Hp. injection Hp as <-.
  assert (En : found (content dir_at) 0 (parsed "/f").2 = None) by (vm_compute; reflexivity). congruence.
Qed.

(** What happens in cases [admissible] leaves out: unlink below a directory that
    is not there, stat of a name in a directory no one uses, a path with two
    slashes in front when an entry is free, rmdir of "." with a slash behind it, a
    write behind the page of a file, a write to a file opened with O_WRONLY, and
    rmdir of the root, which takes a link from it. *)
Lemma crashing_calls :
  do_unlink "/x/f" dir_at = RPanic "vn" ∧
  do_stat "/d/f" dir_at = RFault "vnode" ∧
  (do_close 0 ;;; do_unlink "/f" ;;; do_open "//a" O_RDONLY) file_at = RPanic "inode" ∧
  do_rmdir "/d/./" dir_at = RPanic "name_match" ∧
  (do_lseek 0 5000 SEEK_SET ;;; do_write 0 [1]) file_at = RFault "memcpy outside the page" ∧
  (do_close 0 ;;; let* fd := do_open "/f" O_WRONLY in do_write fd [1]) file_at = RFault "vnode" ∧
  (do_rmdir "/" ;;; do_stat "/") booted_at = (kret (0, Some (Stat S_IFDIR 0 0 0 32 PAGE_SIZE 1))) (after (do_rmdir "/" ;;; do_stat "/") booted_at).
Proof. split_and!; vm_compute; reflexivity. Qed.

(** The file of descriptor 0 in [file_at]. *)
Definition fd0 : Z := default NULL (v_p_files file_at !! 0%nat).
Definition file0 : file := default (File 0 0 0 NULL) (v_files file_at !! fd0).

Lemma fd0_is : v_p_files file_at !! Z.to_nat 0 = Some fd0.
Proof. vm_compute. reflexivity. Qed.
Lemma file0_is : v_files file_at !! fd0 = Some file0.
Proof. vm_compute. reflexivity. Qed.
Lemma file0_node : vno_at file_at (f_vnode file0) = Some 2 ∧ content file_at 2 = Some (NFile 0 zero_bytes).
Proof. split; vm_compute; reflexivity. Qed.

Lemma vput_correct_witness : ∃ s', vput (v_root booted_at) booted_at = RRet tt s' ∧ content s' 0 = content booted_at 0.
Proof.
  destruct booted_inv as (fs & rfs & HV). pose proof (inv_vn _ _ _ _ _ HV) as HI.
  destruct (vput_correct root_links (v_p_cwd booted_at :: file_vnodes (v_files booted_at)) (all_mem booted_at [PMalloc rfs; PMalloc fs]) booted_at
    (v_root booted_at) 0) as (s' & Hr & _ & _ & _ & Hst & _).
  - eapply vninv_perm; [|done|exact HI]. unfold all_refs, holders. solve_Permutation.
  - apply (inv_paths _ _ _ _ _ HV).
  - exists s'. split; [exact Hr|]. apply Hst. left. vm_compute. reflexivity.
Defined.

Lemma dir_namev_correct_witness : ∃ res s', dir_namev "/d/x" NULL dir_at = RRet res s' ∧
  dn_ret res = 0 ∧ vno_at s' (dn_vnode res) = Some 1 ∧ prefix_of (dn_name res) (dn_namelen res) = "x"%string.
Proof.
  destruct dir_ok_at as (L & R & F & P & HV).
  destruct (wp_after _ _ _ _ (dir_namev_correct L _ _ dir_at "/d/x" 0 (inv_vn _ _ _ _ _ HV) (inv_paths _ _ _ _ _ HV)
    (proj2 (po_root _ _ _ (inv_paths _ _ _ _ _ HV))) eq_refl
    ltac:(apply check_room; [exact (proj1 (proj2 small_counts))|reflexivity]))) as (res & Hr & Hres); [vm_compute; reflexivity|].
  assert (E : resolve (content dir_at) 0 ["d"%string] = inr 1) by (vm_compute; reflexivity).
  change (removelast _) with ["d"%string] in Hres. cbv zeta in Hres. rewrite E in Hres.
  destruct Hres as (H1 & H2 & H3 & _). eexists res, _. split; [exact Hr|]. split_and!; [exact H1|exact H2|exact H3].
Defined.

Lemma do_mkdir_correct_witness : ∃ ret s', do_mkdir "/d" booted_at = RRet ret s' ∧ vfs_ok s'.
Proof.
  destruct booted_inv as (fs & rfs & HV).
  destruct (wp_after _ _ _ _ (do_mkdir_correct root_links [] [] _ booted_at "/d" HV (good "/d" eq_refl) (short "/d" eq_refl)
    ltac:(apply check_room; [exact (proj1 small_counts)|reflexivity])))
    as (ret & Hr & Hok & _); [vm_compute; reflexivity|].
  eexists ret, _. split; [exact Hr|exact Hok].
Defined.



Lemma do_open_correct_witness : ∃ ret s', do_open "/d" O_RDONLY dir_at = RRet ret s' ∧ (ret ≠ - EISDIR → vfs_ok s').
Proof.
  destruct dir_ok_at as (L & R & F & P & HV).
  destruct (wp_after _ _ _ _ (do_open_correct L R F P dir_at "/d" O_RDONLY HV (good "/d" eq_refl) (short "/d" eq_refl)
    (or_introl eq_refl) ltac:(apply check_room; [exact (proj1 (proj2 small_counts))|reflexivity]))) as (ret & Hr & Hok & _); [vm_compute; reflexivity|].
  eexists ret, _. split; [exact Hr|exact Hok].
Defined.

Lemma ramfs_write_bounds_witness : ∃ s' page, ramfs_write (f_vnode file0) 4090 [1; 2; 3; 4; 5; 6; 7; 8] file_at = RRet 6 s' ∧
  content s' 2 = Some (NFile 4096 page).
Proof.
  destruct file_ok_at as (L & R & F & P & HV). destruct file0_node as [Hv Hc].
  assert (Ho : 0 ≤ 4090 ≤ PAGE_SIZE) by (vm_compute; split; discriminate).
  assert (Hn : Z.of_nat (length [1; 2; 3; 4; 5; 6; 7; 8]) < 2 ^ 31) by (vm_compute; reflexivity).
  destruct (ramfs_write_bounds L (all_refs file_at R) (all_mem file_at P) file_at (f_vnode file0) 2 0 zero_bytes 4090
    [1; 2; 3; 4; 5; 6; 7; 8] (inv_vn _ _ _ _ _ HV) Hv Hc Ho Hn) as (ret & s' & size & page & Hr & _ & Eret & Hc' & Es & _).
  exists s', page. subst ret size. split; [exact Hr|exact Hc'].
Defined.

Lemma write_read_roundtrip_witness : ∃ s',
  (let* ret := do_write 0 [10; 20; 30] in do_lseek 0 (- ret) SEEK_CUR ;;; do_read 0 ret) file_at = RRet (3, [10; 20; 30]) s'.
Proof.
  assert (Hfd : 0 ≤ 0 < NFILES) by (split; [discriminate|reflexivity]).
  assert (Hlen : Z.of_nat (length [10; 20; 30]) < 2 ^ 31) by (vm_compute; reflexivity).
  assert (Hpos : f_pos file0 = 0) by (vm_compute; reflexivity).
  assert (Hm : f_mode file0 = Z.lor FMODE_WRITE FMODE_READ) by (vm_compute; reflexivity).
  assert (Hin : f_pos file0 ≤ PAGE_SIZE) by (rewrite Hpos; discriminate).
  assert (Hrc : f_refcount file0 + 1 < INT_MAX) by (vm_compute; reflexivity).
  destruct file_ok_at as (L & R & F & P & [HI _]). destruct file0_node as [Hv Hc].
  destruct (write_read_roundtrip L (holders file_at R) F P file_at 0 fd0 file0 2 0 zero_bytes [10; 20; 30] HI Hfd fd0_is file0_is
    Hv Hc Hm Hin Hlen Hrc) as (ret & s' & Hr & Eret).
  rewrite Hpos in Eret. exists s'. rewrite Eret in Hr. exact Hr.
Defined.

Lemma vfs_shutdown_correct_witness : ∃ fs s', idle_shutdown fs booted_at = RRet tt s' ∧ v_vnodes s' = ∅.
Proof.
  destruct booted_inv as (fs & rfs & HV). exists fs. pose proof (inv_vn _ _ _ _ _ HV) as HI.
  assert (Ef : v_files booted_at = ∅) by (vm_compute; reflexivity). unfold all_refs, all_mem, holders in HI. rewrite Ef in HI.
  pose proof (vfs_shutdown_correct root_links [] [PMalloc rfs] booted_at fs) as Hsd. rewrite decide_True in Hsd by reflexivity.
  destruct Hsd as (s' & Hr & _ & Hv & _); [eapply vninv_perm; [| |exact HI]; simpl; solve_Permutation|].
  exists s'. split; [exact Hr|exact Hv].
Defined.

Lemma mount_ready_witness : ∃ fs s', (let* fs := vfs_init in boot_cwd ;;; kret fs) start = RRet fs s' ∧ v_p_cwd s' = v_root s'.
Proof.
  pose proof (mount_ready [] start start_unmounted eq_refl eq_refl) as Hb.
  assert (Hr : returns ((let* fs := vfs_init in boot_cwd ;;; kret fs) start) = true) by (vm_compute; reflexivity).
  destruct ((let* fs := vfs_init in boot_cwd ;;; kret fs) start) as [fs s'| | | |]; try discriminate.
  exists fs, s'. split; [reflexivity|]. apply Hb.
Defined.

Lemma system_calls_safe_witness : ∃ ret s', exec (CChdir "/d") dir_at = RRet ret s' ∧ vfs_ok s'.
Proof.
  destruct booted_inv as (fs & rfs & HV).
  assert (Hst : steps booted_at [CMkdir "/d"] dir_at).
  { apply (steps_cons booted_at (CMkdir "/d") (if do_mkdir "/d" booted_at is RRet r _ then r else 0) dir_at); [| |constructor].
    - split; [exact (good "/d" eq_refl)|exact (short "/d" eq_refl)].
    - assert (Hr : returns (do_mkdir "/d" booted_at) = true) by (vm_compute; reflexivity).
      change (exec (CMkdir "/d") booted_at) with (do_mkdir "/d" booted_at). unfold dir_at, after. destruct (do_mkdir "/d" booted_at); try discriminate. reflexivity. }
  destruct (wp_after _ _ _ _ (system_calls_safe 100 booted_at [CMkdir "/d"] dir_at (CChdir "/d")
    ltac:(by eexists root_links, [], [], _) (check_below _ _ (proj1 small_counts)) ltac:(discriminate) Hst (good "/d" eq_refl)
    ltac:(discriminate))) as (ret & Hr & Hok & _); [vm_compute; reflexivity|].
  eexists ret, _. split; [exact Hr|exact Hok].
Defined.

Lemma allocators_ready_witness : ∃ p s',
  (mem_call (slab_init Slab.Example.saa) ;;; vnode_init Slab.Example.saa ;;; file_init Slab.Example.saa)
    (start_on (p, empty_sstate) NULL NULL) = RRet tt s' ∧
  (v_vnode_allocator s' ≠ NULL → v_file_allocator s' ≠ NULL → unmounted [] s').
Proof.
  destruct Slab.Example.boot_pages as (p & _ & Hp & Hr & Hno).
  destruct (allocators_ready Slab.Example.saa p (start_on (p, empty_sstate) NULL NULL) Hp Hr
    (λ order nobjs Hc, Hno order (Slab.Example.calc_order order nobjs Hc)) one_thread_ok (Forall_nil_2 _) eq_refl eq_refl) as (s' & Hs & Hu & _).
  exists p, s'. split; [exact Hs|exact Hu].
Defined.
End VfsExample.
