(* ===== verification/Proc.v ===== *)
(** Processes and threads: kernel/proc/proc.c and kernel/proc/kthread.c, with the
    set-up of contexts in kernel/proc/context.c.

    The process structs are kept by their addresses, [_proc_list], [p_children] and
    [p_threads] as sequences (KList shows that the list macros implement them); a
    link that is inserted while it is on a list, and one that is removed while it is
    on none, are faults.  Threads and the scheduler's queues are those of Sched, the
    open files and vnodes those of Vfs.  Memory, page directories and the slab
    allocators come from [ProcMem]. *)

From stdpp Require Import base numbers list gmap strings.
From S2P Require Import Prelude Sched Mutex PageAlloc Slab KMem PageTable Vfs.

Open Scope Z_scope.

(** * What processes are made of *)

Class ProcMem (R : Type) := {
  rm_obj_alloc : Z → kM R Z;
  rm_obj_free : Z → Z → kM R unit;
  rm_allocator_create : string → Z → kM R Z;
  rm_page_alloc_n : Z → kM R Z;
  rm_page_free_n : Z → Z → kM R unit;
  rm_create_pagedir : kM R Z;
  rm_destroy_pagedir : Z → kM R unit;
  rm_pt_set : Z → kM R unit
}.

(** The allocators and page tables of the kernel; [saa] is the address of the
    allocator of allocators. *)
Definition kernel_procmem (saa : Z) : ProcMem (ptstate (pstate * sstate)) := {|
  rm_obj_alloc a := pm_call (slab_obj_alloc a);
  rm_obj_free a p := pm_call (slab_obj_free a p);
  rm_allocator_create name size := pm_call (slab_allocator_create (Some name) size saa);
  rm_page_alloc_n n := pm_call (pm_page_alloc_n n);
  rm_page_free_n p n := pm_call (pm_page_free_n p n);
  rm_create_pagedir := pt_create_pagedir;
  rm_destroy_pagedir := pt_destroy_pagedir;
  rm_pt_set := pt_set
|}.

Definition PROC_MAX_COUNT : Z := 65536.
Definition PROC_NAME_LEN : Z := 256.
Definition PID_IDLE : Z := 0.
Definition PID_INIT : Z := 1.
Definition DEFAULT_STACK_SIZE : Z := 56 * 1024.
Definition STACK_PAGES : Z := 1 + Z.shiftr DEFAULT_STACK_SIZE PAGE_SHIFT.
(** On a 32-bit machine. *)
Definition sizeof_kthread : Z := 68.
Definition sizeof_proc : Z := 464.
Definition sizeof_vmmap : Z := 12.
Definition sizeof_vmarea : Z := 44.

Inductive procstate := PROC_RUNNING | PROC_DEAD.
#[export] Instance procstate_eq_dec : EqDecision procstate.
Proof. solve_decision. Defined.

(** struct proc, without the links and the break *)
Record proc := Proc {
  p_pid : Z;
  p_comm : string;
  p_threads : list positive;
  p_children : list positive;
  p_pproc : option positive;
  p_status : Z;
  p_state : procstate;
  p_pagedir : Z;
  p_files : list Z;
  p_cwd : Z;
  p_vmmap : Z
}.

(** struct context, and the stack of a thread *)
Record context := Context { c_kstack : Z; c_pdptr : Z }.

Record psys (R : Type) := Psys {
  py_vfs : vfs R;                       (* with the scheduler and memory *)
  py_procs : gmap positive proc;
  py_list : list positive;              (* _proc_list *)
  py_initproc : option positive;        (* proc_initproc *)
  py_next_pid : Z;
  py_proc_allocator : Z;
  py_kthread_allocator : Z;
  py_vmmap_allocator : Z;
  py_ctx : gmap positive context
}.
Arguments Psys {R}.
Arguments py_vfs {R}.
Arguments py_procs {R}.
Arguments py_list {R}.
Arguments py_initproc {R}.
Arguments py_next_pid {R}.
Arguments py_proc_allocator {R}.
Arguments py_kthread_allocator {R}.
Arguments py_vmmap_allocator {R}.
Arguments py_ctx {R}.

Definition set_children (l : list positive) (x : proc) : proc :=
  Proc (p_pid x) (p_comm x) (p_threads x) l (p_pproc x) (p_status x) (p_state x) (p_pagedir x) (p_files x) (p_cwd x) (p_vmmap x).
Definition set_pthreads (l : list positive) (x : proc) : proc :=
  Proc (p_pid x) (p_comm x) l (p_children x) (p_pproc x) (p_status x) (p_state x) (p_pagedir x) (p_files x) (p_cwd x) (p_vmmap x).
Definition set_pproc (q : option positive) (x : proc) : proc :=
  Proc (p_pid x) (p_comm x) (p_threads x) (p_children x) q (p_status x) (p_state x) (p_pagedir x) (p_files x) (p_cwd x) (p_vmmap x).
Definition set_pstate (status : Z) (st : procstate) (x : proc) : proc :=
  Proc (p_pid x) (p_comm x) (p_threads x) (p_children x) (p_pproc x) status st (p_pagedir x) (p_files x) (p_cwd x) (p_vmmap x).
Definition set_fs (files : list Z) (cwd : Z) (x : proc) : proc :=
  Proc (p_pid x) (p_comm x) (p_threads x) (p_children x) (p_pproc x) (p_status x) (p_state x) (p_pagedir x) files cwd (p_vmmap x).
Definition set_vmmap (m : Z) (x : proc) : proc :=
  Proc (p_pid x) (p_comm x) (p_threads x) (p_children x) (p_pproc x) (p_status x) (p_state x) (p_pagedir x) (p_files x) (p_cwd x) m.

Section Proc.
Context {R : Type} `{ProcMem R} `{KMem R}.
Abbreviation pyM := (kM (psys R)).

Definition with_vfs (v : vfs R) (s : psys R) : psys R := Psys v (py_procs s) (py_list s) (py_initproc s) (py_next_pid s)
  (py_proc_allocator s) (py_kthread_allocator s) (py_vmmap_allocator s) (py_ctx s).
Definition upd_procs f (s : psys R) : psys R := Psys (py_vfs s) (f (py_procs s)) (py_list s) (py_initproc s) (py_next_pid s)
  (py_proc_allocator s) (py_kthread_allocator s) (py_vmmap_allocator s) (py_ctx s).
Definition upd_list f (s : psys R) : psys R := Psys (py_vfs s) (py_procs s) (f (py_list s)) (py_initproc s) (py_next_pid s)
  (py_proc_allocator s) (py_kthread_allocator s) (py_vmmap_allocator s) (py_ctx s).
Definition with_initproc p (s : psys R) : psys R := Psys (py_vfs s) (py_procs s) (py_list s) p (py_next_pid s)
  (py_proc_allocator s) (py_kthread_allocator s) (py_vmmap_allocator s) (py_ctx s).
Definition with_next_pid n (s : psys R) : psys R := Psys (py_vfs s) (py_procs s) (py_list s) (py_initproc s) n
  (py_proc_allocator s) (py_kthread_allocator s) (py_vmmap_allocator s) (py_ctx s).
Definition with_proc_allocator a (s : psys R) : psys R := Psys (py_vfs s) (py_procs s) (py_list s) (py_initproc s) (py_next_pid s)
  a (py_kthread_allocator s) (py_vmmap_allocator s) (py_ctx s).
Definition with_kthread_allocator a (s : psys R) : psys R := Psys (py_vfs s) (py_procs s) (py_list s) (py_initproc s) (py_next_pid s)
  (py_proc_allocator s) a (py_vmmap_allocator s) (py_ctx s).
Definition with_vmmap_allocator a (s : psys R) : psys R := Psys (py_vfs s) (py_procs s) (py_list s) (py_initproc s) (py_next_pid s)
  (py_proc_allocator s) (py_kthread_allocator s) a (py_ctx s).
Definition upd_ctx f (s : psys R) : psys R := Psys (py_vfs s) (py_procs s) (py_list s) (py_initproc s) (py_next_pid s)
  (py_proc_allocator s) (py_kthread_allocator s) (py_vmmap_allocator s) (f (py_ctx s)).

(** Calls of the other components.  The file system sees the files and the working
    directory of the current process. *)
Definition py_ks (s : psys R) : kstate := v_ks (py_vfs s).
Definition set_ks (k : kstate) (s : psys R) : psys R := with_vfs (with_ks k (py_vfs s)) s.
Definition sched_call {A} (c : kM kstate A) : pyM A := klift py_ks set_ks c.

Definition py_mem (s : psys R) : R := v_mem (py_vfs s).
Definition set_mem (r : R) (s : psys R) : psys R := with_vfs (with_mem r (py_vfs s)) s.
Definition res_call {A} (c : kM R A) : pyM A := klift py_mem set_mem c.

Definition cur_proc (s : psys R) : option proc := p ← ks_curproc (py_ks s); py_procs s !! p.
Definition fs_view (s : psys R) : vfs R :=
  match cur_proc s with
  | Some x => upd_p_files (λ _, p_files x) (with_p_cwd (p_cwd x) (py_vfs s))
  | None => py_vfs s
  end.
Definition fs_put (v : vfs R) (s : psys R) : psys R :=
  match ks_curproc (py_ks s) with
  | Some p => upd_procs (alter (set_fs (v_p_files v) (v_p_cwd v)) p) (with_vfs v s)
  | None => with_vfs v s
  end.
Definition fs_call {A} (c : kM (vfs R) A) : pyM A := klift fs_view fs_put c.

Definition get_proc (p : positive) : pyM proc := let* s := kget in kderef (py_procs s !! p) "proc".
Definition put_proc (p : positive) (x : proc) : pyM unit := kmodify (upd_procs <[p := x]>).
Definition upd_proc (p : positive) (f : proc → proc) : pyM unit := let* x := get_proc p in put_proc p (f x).
Definition get_curproc : pyM positive := let* s := kget in kderef (ks_curproc (py_ks s)) "curproc".
Definition get_curthr : pyM positive := let* s := kget in kderef (ks_curthr (py_ks s)) "curthr".

(** * proc.c *)

Definition proc_init : pyM unit :=
  kmodify (upd_list (λ _, [])) ;;;
  let* a := res_call (rm_allocator_create "proc" sizeof_proc) in
  kmodify (with_proc_allocator a) ;;;
  KASSERT (negb (a =? NULL)) "proc_allocator != NULL".

(** The list_iterate of _proc_getid: is there a process with this pid? *)
Fixpoint pid_taken (l : list positive) (pid : Z) : pyM bool :=
  match l with
  | [] => kret false
  | p :: l => let* x := get_proc p in if p_pid x =? pid then kret true else pid_taken l pid
  end.

Fixpoint getid_loop (fuel : nat) (pid : Z) : pyM Z :=
  match fuel with
  | O => λ _, RFuel
  | S fuel =>
      let* s := kget in
      let* taken := pid_taken (py_list s) pid in
      if taken then
        let pid := (pid + 1) `mod` PROC_MAX_COUNT in
        if pid =? py_next_pid s then kret (-1) else getid_loop fuel pid
      else
        kmodify (with_next_pid ((pid + 1) `mod` PROC_MAX_COUNT)) ;;;
        kret pid
  end.

(** Each time around the loop has passed one more process. *)
Definition _proc_getid : pyM Z :=
  let* s := kget in getid_loop (S (length (py_list s))) (py_next_pid s).

(** vmmap.c *)
Definition vmmap_create : pyM Z :=
  let* s := kget in res_call (rm_obj_alloc (py_vmmap_allocator s)).

Definition proc_create (name : string) : pyM positive :=
  let* pid := _proc_getid in
  let* s := kget in
  let* a := res_call (rm_obj_alloc (py_proc_allocator s)) in
  if a =? NULL then kfault "memset of NULL"
  else
    let p := Z.to_pos a in
    let* pagedir := res_call rm_create_pagedir in
    if PROC_NAME_LEN <=? Z.of_nat (String.length name) then kfault "p_comm"
    else
      let curproc := ks_curproc (py_ks s) in
      put_proc p (Proc pid name [] [] curproc 0 PROC_RUNNING pagedir (replicate (Z.to_nat NFILES) NULL) NULL NULL) ;;;
      KASSERT (negb (pid =? PID_IDLE) || bool_decide (py_list s = [])) "PID_IDLE != pid || list_empty(&_proc_list)" ;;;
      (if pid =? PID_INIT then
         let* cur := get_curproc in
         let* x := get_proc cur in
         KASSERT (p_pid x =? PID_IDLE) "PID_INIT != pid || PID_IDLE == curproc->p_pid"
       else kret tt) ;;;
      kmodify (upd_list (λ l, l ++ [p])) ;;;
      (if curproc is Some cur then upd_proc cur (λ x, set_children (p_children x ++ [p]) x) else kret tt) ;;;
      (if pid =? PID_INIT then kmodify (with_initproc (Some p)) else kret tt) ;;;
      let* map := vmmap_create in
      upd_proc p (set_vmmap map) ;;;
      sched_call (sched_queue_init (ProcQ p)) ;;;
      kret p.

(** The loop of proc_cleanup that moves the children to init: each child is the head
    of the list when its turn comes. *)
Fixpoint reparent (l : list positive) (p initproc : positive) : pyM unit :=
  match l with
  | [] => kret tt
  | child :: l =>
      let* x := get_proc p in
      let* h := kderef (head (p_children x)) "list_remove_head" in
      put_proc p (set_children (tail (p_children x)) x) ;;;
      (if bool_decide (h = child) then kret tt else kfault "link already on a list") ;;;
      upd_proc initproc (λ x, set_children (p_children x ++ [child]) x) ;;;
      upd_proc child (set_pproc (Some initproc)) ;;;
      reparent l p initproc
  end.

(** [fref] for every open file. *)
Fixpoint fref_all (files : list Z) : pyM unit :=
  match files with
  | [] => kret tt
  | f :: files => (if f =? NULL then kret tt else fs_call (fref f)) ;;; fref_all files
  end.

(** The loop over the vnodes behind the working directory of the init process:
    [while (vn_refcount > 0) vput(vnode)], and after the last vnode the head of
    the list of vnodes, which is none. *)
Fixpoint vput_down (fuel : nat) (v : Z) : pyM unit :=
  let* x := fs_call (get_vnode v) in
  if vn_refcount x <=? 0 then kret tt
  else match fuel with O => λ _, RFuel | S fuel => fs_call (vput v) ;;; vput_down fuel v end.
Fixpoint vput_all (vs : list Z) : pyM unit :=
  match vs with
  | [] => kfault "the head of the list is no vnode"
  | v :: vs => let* x := fs_call (get_vnode v) in vput_down (Z.to_nat (vn_refcount x)) v ;;; vput_all vs
  end.
Definition vput_behind (cwd : Z) : pyM unit :=
  let* s := kget in
  match list_find (λ v, v = cwd) (v_inuse (py_vfs s)) with
  | Some (i, _) => vput_all (drop (S i) (v_inuse (py_vfs s)))
  | None => kfault "working directory"
  end.

Definition proc_cleanup (status : Z) : pyM unit :=
  let* s := kget in
  KASSERT (if py_initproc s is Some _ then true else false) "NULL != proc_initproc" ;;;
  let* p := get_curproc in
  let* x := get_proc p in
  KASSERT (1 <=? p_pid x) "1 <= curproc->p_pid" ;;;
  KASSERT (if p_pproc x is Some _ then true else false) "NULL != curproc->p_pproc" ;;;
  let* initproc := kderef (py_initproc s) "proc_initproc" in
  (if bool_decide (p ≠ initproc) then reparent (p_children x) p initproc else kret tt) ;;;
  upd_proc p (set_pstate 0 PROC_DEAD) ;;;
  fref_all (p_files x) ;;;
  (if (p_pid x =? PID_INIT) || (p_pid x =? PID_IDLE) then vput_behind (p_cwd x) else kret tt) ;;;
  let* x := get_proc p in
  let* q := kderef (p_pproc x) "p_pproc" in
  sched_call (sched_wakeup_on (ProcQ q)) ;;;
  sched_call sched_switch ;;;
  let* x := get_proc p in
  KASSERT (if p_pproc x is Some _ then true else false) "NULL != curproc->p_pproc".

Definition proc_thread_exited (retval : Z) : pyM unit := proc_cleanup retval.

(** * kthread.c *)

Definition kthread_init : pyM unit :=
  let* a := res_call (rm_allocator_create "kthread" sizeof_kthread) in
  kmodify (with_kthread_allocator a) ;;;
  KASSERT (negb (a =? NULL)) "NULL != kthread_allocator".

Definition alloc_stack : pyM Z := res_call (rm_page_alloc_n STACK_PAGES).
Definition free_stack (stack : Z) : pyM unit := res_call (rm_page_free_n stack STACK_PAGES).

(** context.c: the arguments of the thread are put on its stack, which is at the
    address 0 of user memory when there was no memory for it. *)
Definition context_setup (kstack pdptr : Z) : pyM context :=
  KASSERT (negb (pdptr =? NULL)) "NULL != pdptr" ;;;
  KASSERT (PAGE_ALIGNED kstack) "PAGE_ALIGNED(kstack)" ;;;
  if kstack =? NULL then kfault "stack"
  else kret (Context kstack pdptr).

(** The page directory of a switch; the registers are what the machine keeps of a
    stopped call. *)
Definition context_switch (newc : context) : pyM unit := res_call (rm_pt_set (c_pdptr newc)).
Definition context_make_active (c : context) : pyM unit := res_call (rm_pt_set (c_pdptr c)).

Definition kthread_create (p : positive) : pyM positive :=
  kthread_init ;;;
  let* s := kget in
  let* a := res_call (rm_obj_alloc (py_kthread_allocator s)) in
  if a =? NULL then kfault "memset of NULL"
  else
    let t := Z.to_pos a in
    let* kstack := alloc_stack in
    sched_call (kmodify (set_threads <[t := KThread 0 p false None KT_RUN None]>)) ;;;
    let* x := get_proc p in
    let* c := context_setup kstack (p_pagedir x) in
    kmodify (upd_ctx <[t := c]>) ;;;
    upd_proc p (λ x, set_pthreads (p_threads x ++ [t]) x) ;;;
    kret t.

(** The link [kt_plink] is on the list of the process if the thread is in it. *)
Definition kthread_destroy (t : positive) : pyM unit :=
  let* s := kget in
  let* c := kderef (py_ctx s !! t) "kt_kstack" in
  KASSERT (negb (c_kstack c =? NULL)) "t && t->kt_kstack" ;;;
  free_stack (c_kstack c) ;;;
  let* k := sched_call (get_thread t) in
  let* x := get_proc (kt_proc k) in
  (if bool_decide (t ∈ p_threads x) then upd_proc (kt_proc k) (set_pthreads (filter (.≠ t) (p_threads x))) else kret tt) ;;;
  res_call (rm_obj_free (py_kthread_allocator s) (Zpos t)) ;;;
  kmodify (upd_ctx (delete t)) ;;;
  sched_call (kmodify (set_threads (delete t))).

Definition kthread_exit (retval : Z) : pyM unit :=
  let* curthr := get_curthr in
  sched_call (upd_thread curthr (with_state KT_EXITED)) ;;;
  sched_call (upd_thread curthr (λ k, KThread retval (kt_proc k) (kt_cancelled k) (kt_wchan k) (kt_state k) (kt_qlink k))) ;;;
  let* k := sched_call (get_thread curthr) in
  KASSERT (if kt_wchan k is None then true else false) "!curthr->kt_wchan" ;;;
  KASSERT (if kt_qlink k is None then true else false) "!curthr->kt_qlink.l_next && !curthr->kt_qlink.l_prev" ;;;
  let* s := kget in
  KASSERT (bool_decide (ks_curproc (py_ks s) = Some (kt_proc k))) "curthr->kt_proc == curproc" ;;;
  proc_thread_exited retval.

Definition kthread_cancel (kthr : positive) (retval : Z) : pyM unit :=
  let* s := kget in
  if bool_decide (ks_curthr (py_ks s) = Some kthr) then
    sched_call (upd_thread kthr (λ k, KThread 0 (kt_proc k) (kt_cancelled k) (kt_wchan k) (kt_state k) (kt_qlink k))) ;;;
    kthread_exit 0 ;;;
    sched_call (upd_thread kthr (with_state KT_EXITED))
  else
    let* k := sched_call (get_thread kthr) in
    if bool_decide (kt_state k = KT_SLEEP_CANCELLABLE) then sched_call (upd_thread kthr (with_cancelled true))
    else kret tt.

(** * proc.c: exit, kill and wait *)

Definition do_exit (status : Z) : pyM unit :=
  let* curthr := get_curthr in kthread_cancel curthr 0.

(** The threads are those of the current process, not of [p]. *)
Fixpoint cancel_all (ts : list positive) : pyM unit :=
  match ts with
  | [] => kret tt
  | t :: ts =>
      let* k := sched_call (get_thread t) in
      kthread_cancel t (kt_retval k) ;;;
      sched_call (sched_make_runnable t) ;;;
      cancel_all ts
  end.
Definition proc_kill (p : positive) (status : Z) : pyM unit :=
  let* cur := get_curproc in
  if bool_decide (p = cur) then do_exit status
  else let* x := get_proc cur in cancel_all (p_threads x).

(** The iteration takes the next process before the body runs. *)
Fixpoint kill_all (ps : list positive) : pyM unit :=
  match ps with
  | [] => kret tt
  | p :: ps =>
      let* s := kget in
      let* x := get_proc p in
      (if bool_decide (py_initproc s ≠ Some p) && negb (p_pid x =? PID_IDLE) then proc_kill p (p_status x) else kret tt) ;;;
      kill_all ps
  end.
Definition proc_kill_all : pyM unit := let* s := kget in kill_all (py_list s).

Fixpoint lookup_pid (l : list positive) (pid : Z) : pyM (option positive) :=
  match l with
  | [] => kret None
  | p :: l => let* x := get_proc p in if p_pid x =? pid then kret (Some p) else lookup_pid l pid
  end.
Definition proc_lookup (pid : Z) : pyM (option positive) := let* s := kget in lookup_pid (py_list s) pid.

Fixpoint destroy_threads (ts : list positive) : pyM unit :=
  match ts with
  | [] => kret tt
  | t :: ts =>
      let* k := sched_call (get_thread t) in
      KASSERT (bool_decide (kt_state k = KT_EXITED)) "KT_EXITED == cur_thread->kt_state" ;;;
      kthread_destroy t ;;;
      destroy_threads ts
  end.

(** What do_waitpid does with the child it has found: the pid and the status.  The
    pid is read after the struct is freed, which leaves its bytes. *)
Definition dispose (cur child : positive) : pyM (Z * option Z) :=
  let* x := get_proc child in
  destroy_threads (p_threads x) ;;;
  let* x := get_proc child in
  let* y := get_proc cur in
  (if bool_decide (child ∈ p_children y) then put_proc cur (set_children (filter (.≠ child) (p_children y)) y)
   else kfault "link not on a list") ;;;
  let* s := kget in
  (if bool_decide (child ∈ py_list s) then kmodify (upd_list (filter (.≠ child))) else kfault "link not on a list") ;;;
  KASSERT (negb (p_pagedir x =? NULL)) "NULL != cur_child->p_pagedir" ;;;
  res_call (rm_destroy_pagedir (p_pagedir x)) ;;;
  let* s := kget in
  res_call (rm_obj_free (py_proc_allocator s) (Zpos child)) ;;;
  kmodify (upd_procs (delete child)) ;;;
  kret (p_pid x, Some (p_status x)).

(** The first child that is dead. *)
Fixpoint dead_child (l : list positive) : pyM (option positive) :=
  match l with
  | [] => kret None
  | c :: l => let* x := get_proc c in if bool_decide (p_state x = PROC_DEAD) then kret (Some c) else dead_child l
  end.

(** The loop of do_waitpid(-1): it goes to sleep until there is a dead child. *)
Fixpoint wait_any (rounds : nat) (cur : positive) : pyM (Z * option Z) :=
  match rounds with
  | O => λ _, RFuel
  | S rounds =>
      let* x := get_proc cur in
      let* c := dead_child (p_children x) in
      match c with
      | Some child => dispose cur child
      | None => sched_call (sched_sleep_on (ProcQ cur)) ;;; wait_any rounds cur
      end
  end.

Fixpoint child_with (l : list positive) (pid : Z) : pyM (option positive) :=
  match l with
  | [] => kret None
  | c :: l => let* x := get_proc c in if p_pid x =? pid then kret (Some c) else child_with l pid
  end.

(** The result and what is stored through [status], if anything. *)
Definition do_waitpid (rounds : nat) (pid : Z) : pyM (Z * option Z) :=
  let* cur := get_curproc in
  let* x := get_proc cur in
  if bool_decide (p_children x = []) then kret (- ECHILD, None)
  else if pid =? -1 then wait_any rounds cur
  else
    let* c := child_with (p_children x) pid in
    match c with
    | None => kret (- ECHILD, None)
    | Some child =>
        if 0 <? pid then
          sched_call (sched_sleep_on (ProcQ cur)) ;;;
          dispose cur child
        else kret (- ECHILD, None)
    end.

(** * kmain.c: the first two processes *)

(** [bootstrap] after pt_template_init, up to the start of the idle process. *)
Definition bootstrap : pyM positive :=
  let* p := proc_create "IDLE" in
  sched_call (let* k := kget in kmodify (set_cur (ks_curthr k) (Some p))) ;;;
  let* x := get_proc p in
  KASSERT (p_pid x =? PID_IDLE) "PID_IDLE == curproc->p_pid" ;;;
  let* t := kthread_create p in
  sched_call (kmodify (set_cur (Some t) (Some p))) ;;;
  let* s := kget in
  let* c := kderef (py_ctx s !! t) "kt_ctx" in
  context_make_active c ;;;
  kret t.

Definition initproc_create : pyM positive :=
  let* p := proc_create "INIT" in
  let* x := get_proc p in
  KASSERT (p_pid x =? PID_INIT) "PID_INIT == init_proc->p_pid" ;;;
  kthread_create p.

(** sched.c; one of the calls of init_call_all. *)
Definition sched_init : pyM unit := sched_call (sched_queue_init RunQ).

(** What [bootstrap] and [idleproc_run] do to have the idle process running and init
    runnable. *)
Definition start_processes : pyM positive :=
  bootstrap ;;;
  let* initthr := initproc_create in
  sched_init ;;;
  sched_call (sched_make_runnable initthr) ;;;
  kret initthr.

(** vmmap.c: the allocator of the areas is returned, for this state has no areas. *)
Definition vmmap_init : pyM Z :=
  (let* a := res_call (rm_allocator_create "vmmap" sizeof_vmmap) in
   kmodify (with_vmmap_allocator a) ;;;
   KASSERT (negb (a =? NULL)) "NULL != vmmap_allocator") ;;;
  let* b := res_call (rm_allocator_create "vmarea" sizeof_vmarea) in
  KASSERT (negb (b =? NULL)) "NULL != vmarea_allocator" ;;;
  kret b.
End Proc.
