(* ===== verification/ProcInv.v ===== *)
(** Processes: what they rely on, the invariant of the process tree, and what the
    operations of Proc do to it. *)

From stdpp Require Import base numbers list gmap strings.
From S2P Require Import Prelude Sched Mutex PageAlloc Slab KMem PageTable Vfs Proc.

Open Scope Z_scope.

(** * What memory promises *)

(** What a process holds: an object of a size, pages, or a page directory. *)
Inductive res := RObj (size p : Z) | RPages (n p : Z) | RDir (d : Z).

(** [c] returns NULL or something new. *)
Definition gives {R} (inv : R → list res → Prop) (c : kM R Z) (mk : Z → res) (r : R) (H : list res) : Prop :=
  (∃ p r', c r = RRet p r' ∧ 0 < p ∧ inv r' (mk p :: H)) ∨ (∃ r', c r = RRet NULL r' ∧ inv r' H).

(** [rs_inv A c r H]: the allocators [A] exist, each with the size of its objects, the
    page directory [c] is the current one, and the clients hold [H]. *)
Class ProcMemLaws (R : Type) `{ProcMem R} := {
  rs_inv : list (Z * Z) → Z → R → list res → Prop;
  rs_perm A c r H H' : H ≡ₚ H' → rs_inv A c r H → rs_inv A c r H';
  rs_nodup A c r H : rs_inv A c r H → NoDup H;
  rs_obj_alloc A c r H a size : rs_inv A c r H → (a, size) ∈ A → gives (rs_inv A c) (rm_obj_alloc a) (RObj size) r H;
  rs_obj_free A c r H a size p : rs_inv A c r (RObj size p :: H) → (a, size) ∈ A →
    ∃ r', rm_obj_free a p r = RRet tt r' ∧ rs_inv A c r' H;
  rs_allocator_create A c r H name size : rs_inv A c r H → 0 < size ≤ 2048 →
    (∃ a r', rm_allocator_create name size r = RRet a r' ∧ a ≠ NULL ∧ rs_inv ((a, size) :: A) c r' H) ∨
    (∃ r', rm_allocator_create name size r = RRet NULL r' ∧ rs_inv A c r' H);
  rs_page_alloc_n A c r H n : rs_inv A c r H → 1 ≤ n ≤ 128 →
    gives (rs_inv A c) (rm_page_alloc_n n) (RPages n) r H;
  rs_page_aligned A c r H n p : rs_inv A c r (RPages n p :: H) → 1 ≤ n ≤ 128 → PAGE_ALIGNED p = true;
  rs_page_free_n A c r H n p : rs_inv A c r (RPages n p :: H) → 1 ≤ n ≤ 128 →
    ∃ r', rm_page_free_n p n r = RRet tt r' ∧ rs_inv A c r' H;
  rs_create_pagedir A c r H : rs_inv A c r H → gives (rs_inv A c) rm_create_pagedir RDir r H;
  rs_destroy_pagedir A c r H d : rs_inv A c r (RDir d :: H) → d ≠ c →
    ∃ r', rm_destroy_pagedir d r = RRet tt r' ∧ rs_inv A c r' H;
  rs_pt_set A c r H d : rs_inv A c r H → RDir d ∈ H → ∃ r', rm_pt_set d r = RRet tt r' ∧ rs_inv A d r' H
}.

#[global] Instance rs_inv_proper `{ProcMemLaws R} A c r : Proper ((≡ₚ) ==> iff) (rs_inv A c r).
Proof. intros B B' HB. split; by apply rs_perm. Qed.

(** * The invariant *)

Section Inv.
Context {R : Type} `{ProcMem R} `{!ProcMemLaws R} `{KMem R}.

(** What the process at [p] holds: its struct, its page directory, its address-space
    map, if there was memory for one, and the struct and the stack of each thread. *)
Definition map_res (m : Z) : list res := if m =? NULL then [] else [RObj sizeof_vmmap m].
Definition thread_res (ctx : gmap positive context) (t : positive) : list res :=
  RObj sizeof_kthread (Zpos t) :: match ctx !! t with Some c => [RPages STACK_PAGES (c_kstack c)] | None => [] end.
Definition proc_res (ctx : gmap positive context) (p : positive) (x : proc) : list res :=
  RObj sizeof_proc (Zpos p) :: RDir (p_pagedir x) :: map_res (p_vmmap x) ++ (p_threads x ≫= thread_res ctx).
Definition held (s : psys R) : list res :=
  py_list s ≫= λ p, match py_procs s !! p with Some x => proc_res (py_ctx s) p x | None => [] end.

(** The process tree: pids are distinct, the idle process is the root and has pid
    0, init is a child of it and has pid 1; a process is on the children list of its parent and on no
    other; a dead process has no children, and the parent of a process is alive. *)
Record tree (procs : gmap positive proc) (initproc : option positive) : Prop := {
  tr_pid p x : procs !! p = Some x → 0 ≤ p_pid x < PROC_MAX_COUNT;
  tr_pids p q x y : procs !! p = Some x → procs !! q = Some y → p_pid x = p_pid y → p = q;
  tr_init : ∃ i x z y, initproc = Some i ∧ procs !! i = Some x ∧ p_pid x = PID_INIT ∧ p_state x = PROC_RUNNING ∧
    p_pproc x = Some z ∧ procs !! z = Some y ∧ p_pid y = PID_IDLE ∧ p_state y = PROC_RUNNING;
  tr_parent p x : procs !! p = Some x → p_pid x ≠ PID_IDLE →
    ∃ q y, p_pproc x = Some q ∧ procs !! q = Some y ∧ p ∈ p_children y ∧ p_state y = PROC_RUNNING;
  tr_children q y c : procs !! q = Some y → c ∈ p_children y →
    ∃ x, procs !! c = Some x ∧ p_pproc x = Some q ∧ p_pid x ≠ PID_IDLE ∧ c ≠ q;
  tr_nodup q y : procs !! q = Some y → NoDup (p_children y);
  tr_dead p x : procs !! p = Some x → p_state x = PROC_DEAD → p_children x = [] ∧ p_status x = 0
}.

(** Every process has one thread, which has exited when the process is dead. *)
Record one_thread (ks : kstate) (ctx : gmap positive context) (p : positive) (x : proc) (t : positive) (k : kthread) : Prop := {
  ot_list : p_threads x = [t];
  ot_thread : ks_threads ks !! t = Some k;
  ot_proc : kt_proc k = p;
  ot_ctx : ∃ c, ctx !! t = Some c ∧ c_pdptr c = p_pagedir x ∧ c_kstack c ≠ NULL;
  ot_dir : p_pagedir x ≠ NULL;
  ot_dead : p_state x = PROC_DEAD ↔ kt_state k = KT_EXITED;
  ot_exited : kt_state k = KT_EXITED → kt_wchan k = None
}.

Record threads (ks : kstate) (ctx : gmap positive context) (procs : gmap positive proc) : Prop := {
  th_proc p x : procs !! p = Some x → ∃ t k, one_thread ks ctx p x t k;
  th_thread t k : ks_threads ks !! t = Some k → ∃ x, procs !! kt_proc k = Some x ∧ p_threads x = [t];
  th_queue p x : procs !! p = Some x → is_Some (ks_queues ks !! ProcQ p);
  th_wait t k p : ks_threads ks !! t = Some k → kt_wchan k = Some (ProcQ p) → kt_proc k = p
}.

(** The allocators exist, and what is in use is [H] and the address-space maps [lost],
    which no process holds any more. *)
Definition mem_ok (lost : list Z) (s : psys R) (c : Z) (H : list res) : Prop :=
  ∃ A, rs_inv A c (py_mem s) (H ++ (lost ≫= map_res)) ∧
    (py_proc_allocator s, sizeof_proc) ∈ A ∧ (py_kthread_allocator s, sizeof_kthread) ∈ A ∧
    (py_vmmap_allocator s, sizeof_vmmap) ∈ A.

(** The whole, but for what stopped threads wait for; [c] is the current page
    directory.  None of the processes here has opened a file. *)
Record psinv (lost : list Z) (s : psys R) (c : Z) : Prop := {
  pv_wf : wf (py_ks s);
  pv_nodup : NoDup (py_list s);
  pv_list p : p ∈ py_list s ↔ is_Some (py_procs s !! p);
  pv_next : 0 ≤ py_next_pid s < PROC_MAX_COUNT;
  pv_tree : tree (py_procs s) (py_initproc s);
  pv_threads : threads (py_ks s) (py_ctx s) (py_procs s);
  pv_files p x f : py_procs s !! p = Some x → f ∈ p_files x → f = NULL;
  pv_mem : mem_ok lost s c (held s)
}.

Arguments pv_wf {_ _ _} _.
Arguments pv_nodup {_ _ _} _.
Arguments pv_list {_ _ _} _ _.
Arguments pv_next {_ _ _} _.
Arguments pv_tree {_ _ _} _.
Arguments pv_threads {_ _ _} _.
Arguments pv_files {_ _ _} _ _ _ _ _ _.
Arguments pv_mem {_ _ _} _.

Context {lost : list Z}.

(** * Pids *)

Definition pids (s : psys R) : list Z := omap (λ p, p_pid <$> py_procs s !! p) (py_list s).

Lemma pid_taken_run (s : psys R) l pid :
  (∀ p, p ∈ l → is_Some (py_procs s !! p)) →
  pid_taken l pid s = RRet (bool_decide (pid ∈ omap (λ p, p_pid <$> py_procs s !! p) l)) s.
Proof.
  induction l as [|p l IH]; intros Hl; [done|]. destruct (Hl p ltac:(left)) as [x Hx]. cbn [pid_taken omap list_omap].
  rewrite Hx. simpl. unfold get_proc at 1, kget, kbind at 1 2, kderef. simpl. rewrite Hx. simpl.
  destruct (Z.eqb_spec (p_pid x) pid) as [<-|Hne].
  - unfold kret. rewrite bool_decide_eq_true_2; [done|left].
  - rewrite IH by (intros q Hq; apply Hl; by right). f_equal. apply bool_decide_ext. rewrite elem_of_cons. naive_solver.
Qed.

Lemma pids_length (s : psys R) : (length (pids s) ≤ length (py_list s))%nat.
Proof. unfold pids. induction (py_list s) as [|p l IH]; [done|]. cbn [omap list_omap]. destruct (py_procs s !! p); simpl in *; lia. Qed.

(** The pid that is tried in the [i]th round. *)
Definition nth_pid (s : psys R) (i : Z) : Z := (py_next_pid s + i) `mod` PROC_MAX_COUNT.

Lemma nth_pid_inj (s : psys R) i j : 0 ≤ i < PROC_MAX_COUNT → 0 ≤ j < PROC_MAX_COUNT → nth_pid s i = nth_pid s j → i = j.
Proof.
  intros Hi Hj E. unfold nth_pid, PROC_MAX_COUNT in *.
  pose proof (Z.div_mod (py_next_pid s + i) 65536 ltac:(lia)). pose proof (Z.div_mod (py_next_pid s + j) 65536 ltac:(lia)). lia.
Qed.

Lemma tried_bound (s : psys R) (i : nat) :
  (Z.of_nat i ≤ PROC_MAX_COUNT) → (∀ j, 0 ≤ j < Z.of_nat i → nth_pid s j ∈ pids s) → (i ≤ length (py_list s))%nat.
Proof.
  intros Hi Ht. etrans; [|apply pids_length]. replace i with (length (nth_pid s <$> seqZ 0 (Z.of_nat i))) by
    (rewrite length_fmap, length_seqZ; lia).
  apply submseteq_length, NoDup_submseteq.
  - apply NoDup_fmap_2_strong; [|apply NoDup_seqZ]. intros a b Ha%elem_of_seqZ Hb%elem_of_seqZ. apply nth_pid_inj; lia.
  - intros x (j & -> & Hj%elem_of_seqZ)%list_elem_of_fmap. apply Ht. lia.
Qed.

Lemma getid_loop_step fuel pid (s : psys R) :
  (∀ p, p ∈ py_list s → is_Some (py_procs s !! p)) →
  getid_loop (S fuel) pid s =
  if bool_decide (pid ∈ pids s) then
    if (pid + 1) `mod` PROC_MAX_COUNT =? py_next_pid s then RRet (-1) s else getid_loop fuel ((pid + 1) `mod` PROC_MAX_COUNT) s
  else RRet pid (with_next_pid ((pid + 1) `mod` PROC_MAX_COUNT) s).
Proof.
  intros Hdom. cbn [getid_loop]. unfold kget at 1, kbind at 1. cbn [rbind].
  rewrite (kbind_of_ret _ _ _ _ _ (pid_taken_run s _ _ Hdom)). fold (pids s). case_bool_decide; [|done]. by destruct (_ =? _).
Qed.

Lemma getid_loop_run fuel (s : psys R) (i : nat) :
  (∀ p, p ∈ py_list s → is_Some (py_procs s !! p)) → 0 ≤ py_next_pid s < PROC_MAX_COUNT → Z.of_nat i < PROC_MAX_COUNT →
  (length (py_list s) < fuel + i)%nat → (∀ j, 0 ≤ j < Z.of_nat i → nth_pid s j ∈ pids s) →
  (∃ pid n, getid_loop fuel (nth_pid s (Z.of_nat i)) s = RRet pid (with_next_pid n s) ∧ 0 ≤ pid < PROC_MAX_COUNT ∧ pid ∉ pids s ∧
     n = (pid + 1) `mod` PROC_MAX_COUNT) ∨
  (getid_loop fuel (nth_pid s (Z.of_nat i)) s = RRet (-1) s ∧ ∀ j, 0 ≤ j < PROC_MAX_COUNT → nth_pid s j ∈ pids s).
Proof.
  intros Hdom Hnext. revert i. induction fuel as [|fuel IH]; intros i Hi Hf Ht.
  { pose proof (tried_bound s i ltac:(lia) Ht). lia. }
  rewrite !getid_loop_step by done.
  assert (Hr : 0 ≤ nth_pid s (Z.of_nat i) < PROC_MAX_COUNT) by (apply Z.mod_pos_bound; done).
  case_bool_decide as Hin; [|left; eexists _, _; split_and!; [reflexivity|lia|lia|done|done]].
  assert (En : (nth_pid s (Z.of_nat i) + 1) `mod` PROC_MAX_COUNT = nth_pid s (Z.of_nat (S i))).
  { unfold nth_pid. rewrite Zplus_mod_idemp_l. f_equal. lia. }
  assert (Ht' : ∀ j, 0 ≤ j < Z.of_nat (S i) → nth_pid s j ∈ pids s).
  { intros j Hj. destruct (decide (j = Z.of_nat i)) as [->|]; [done|]. apply Ht. lia. }
  cbv zeta. rewrite En. destruct (Z.eqb_spec (nth_pid s (Z.of_nat (S i))) (py_next_pid s)) as [E|E].
  - right. split; [done|]. intros j Hj. apply Ht'. split; [lia|].
    assert (E0 : nth_pid s 0 = py_next_pid s) by (unfold nth_pid; rewrite Z.add_0_r; by apply Z.mod_small).
    destruct (decide (Z.of_nat (S i) < PROC_MAX_COUNT)); [|lia].
    assert (Z.of_nat (S i) = 0) by (apply (nth_pid_inj s); [lia|done|congruence]). lia.
  - destruct (decide (Z.of_nat (S i) < PROC_MAX_COUNT)); [apply IH; [lia|lia|done]|]. exfalso. apply E.
    replace (Z.of_nat (S i)) with PROC_MAX_COUNT by lia. unfold nth_pid.
    rewrite <- (Z.mul_1_l PROC_MAX_COUNT) at 1. rewrite Z.mod_add by done. by apply Z.mod_small.
Qed.

Lemma proc_getid_run (s : psys R) :
  (∀ p, p ∈ py_list s → is_Some (py_procs s !! p)) → 0 ≤ py_next_pid s < PROC_MAX_COUNT →
  (∃ pid n, _proc_getid s = RRet pid (with_next_pid n s) ∧ 0 ≤ pid < PROC_MAX_COUNT ∧ pid ∉ pids s ∧ n = (pid + 1) `mod` PROC_MAX_COUNT) ∨
  (_proc_getid s = RRet (-1) s ∧ ∀ pid, 0 ≤ pid < PROC_MAX_COUNT → pid ∈ pids s).
Proof.
  intros Hdom Hnext. unfold _proc_getid, kget, kbind. cbn [rbind].
  destruct (getid_loop_run (S (length (py_list s))) s 0) as [(pid & n & E & Hr)|[E Hall]]; [done|done|done|lia|lia| |];
    unfold nth_pid in E; rewrite Z.add_0_r, Z.mod_small in E by done; [left; eauto|right]. split; [done|].
  intros pid Hp. destruct (decide (py_next_pid s ≤ pid)).
  - replace pid with (nth_pid s (pid - py_next_pid s)); [apply Hall; unfold PROC_MAX_COUNT in *; lia|].
    unfold nth_pid. replace (_ + _) with pid by lia. by apply Z.mod_small.
  - replace pid with (nth_pid s (pid - py_next_pid s + PROC_MAX_COUNT)); [apply Hall; unfold PROC_MAX_COUNT in *; lia|].
    unfold nth_pid. replace (_ + _) with (pid + 1 * PROC_MAX_COUNT) by lia. rewrite Z.mod_add by done. by apply Z.mod_small.
Qed.

(** * Running the calls *)

Lemma get_proc_next {A} p x (k : proc → kM (psys R) A) s : py_procs s !! p = Some x → (let* x := get_proc p in k x) s = k x s.
Proof. intros Hx. unfold get_proc, kbind, kget, kderef. simpl. by rewrite Hx. Qed.

Lemma put_proc_next {A} p x (k : kM (psys R) A) s : (put_proc p x ;;; k) s = k (upd_procs <[p := x]> s).
Proof. done. Qed.

Lemma upd_proc_next {A} p f x (k : kM (psys R) A) s :
  py_procs s !! p = Some x → (upd_proc p f ;;; k) s = k (upd_procs <[p := f x]> s).
Proof. intros Hx. unfold upd_proc, get_proc, kbind, kget, kderef. simpl. by rewrite Hx. Qed.

Lemma curproc_next {A} p (k : positive → kM (psys R) A) s :
  ks_curproc (py_ks s) = Some p → (let* p := get_curproc in k p) s = k p s.
Proof. intros Hx. unfold get_curproc, kbind, kget, kderef. simpl. by rewrite Hx. Qed.

Lemma curthr_next {A} t (k : positive → kM (psys R) A) s :
  ks_curthr (py_ks s) = Some t → (let* p := get_curthr in k p) s = k t s.
Proof. intros Hx. unfold get_curthr, kbind, kget, kderef. simpl. by rewrite Hx. Qed.

Lemma sched_next {A B} (c : kM kstate A) a ks (k : A → kM (psys R) B) s :
  c (py_ks s) = RRet a ks → (let* x := sched_call c in k x) s = k a (set_ks ks s).
Proof. intros E. unfold sched_call, klift, kbind. by rewrite E. Qed.

Lemma res_next {A B} (c : kM R A) a r (k : A → kM (psys R) B) s :
  c (py_mem s) = RRet a r → (let* x := res_call c in k x) s = k a (set_mem r s).
Proof. intros E. unfold res_call, klift, kbind. by rewrite E. Qed.

(** * Memory *)

Definition allocator_of (s : psys R) (a size : Z) : Prop :=
  (a, size) ∈ [(py_proc_allocator s, sizeof_proc); (py_kthread_allocator s, sizeof_kthread); (py_vmmap_allocator s, sizeof_vmmap)].

Lemma allocator_proc s : allocator_of s (py_proc_allocator s) sizeof_proc.
Proof. left. Qed.
Lemma allocator_kthread s : allocator_of s (py_kthread_allocator s) sizeof_kthread.
Proof. right. left. Qed.
Lemma allocator_vmmap s : allocator_of s (py_vmmap_allocator s) sizeof_vmmap.
Proof. right. right. left. Qed.

Lemma mem_perm s c B B' : B ≡ₚ B' → mem_ok lost s c B → mem_ok lost s c B'.
Proof. intros E (A & Hr & ?). exists A. split; [by rewrite <- E|done]. Qed.

Lemma mem_nodup s c B : mem_ok lost s c B → NoDup B.
Proof. intros (A & Hr%rs_nodup & _). by apply NoDup_app in Hr as [? _]. Qed.

Lemma mem_alloc s c B a size :
  mem_ok lost s c B → allocator_of s a size →
  (∃ p r, rm_obj_alloc a (py_mem s) = RRet p r ∧ 0 < p ∧ mem_ok lost (set_mem r s) c (RObj size p :: B)) ∨
  (∃ r, rm_obj_alloc a (py_mem s) = RRet NULL r ∧ mem_ok lost (set_mem r s) c B).
Proof.
  intros (A & Hr & H1 & H2 & H3) Ha. destruct (rs_obj_alloc A c _ _ a size Hr) as [(p & r & E & Hp & Hr')|(r & E & Hr')].
  - unfold allocator_of in Ha. rewrite !elem_of_cons in Ha. destruct Ha as [[=]|[[=]|[[=]|Ha]]]; [by subst..|by apply elem_of_nil in Ha].
  - left. exists p, r. split_and!; [done|done|]. by exists A.
  - right. exists r. split; [done|]. by exists A.
Qed.

Lemma mem_free s c B a size p :
  mem_ok lost s c (RObj size p :: B) → allocator_of s a size → ∃ r, rm_obj_free a p (py_mem s) = RRet tt r ∧ mem_ok lost (set_mem r s) c B.
Proof.
  intros (A & Hr & H1 & H2 & H3) Ha. destruct (rs_obj_free A c _ _ a size p Hr) as (r & E & Hr').
  - unfold allocator_of in Ha. rewrite !elem_of_cons in Ha. destruct Ha as [[=]|[[=]|[[=]|Ha]]]; [by subst..|by apply elem_of_nil in Ha].
  - exists r. split; [done|]. by exists A.
Qed.

Lemma vmmap_create_run s c B :
  mem_ok lost s c B → ∃ m r, vmmap_create s = RRet m (set_mem r s) ∧ mem_ok lost (set_mem r s) c (map_res m ++ B).
Proof.
  intros Hm. unfold vmmap_create. rewrite kget_next. unfold res_call, klift.
  destruct (mem_alloc s c B (py_vmmap_allocator s) sizeof_vmmap Hm) as [(p & r & E & Hp & Hm')|(r & E & Hm')];
    [apply allocator_vmmap| |]; rewrite E; eexists _, r; (split; [reflexivity|]); [|done].
  unfold map_res. by destruct (Z.eqb_spec p NULL) as [->|].
Qed.

Lemma mem_create_dir s c B :
  mem_ok lost s c B →
  (∃ d r, rm_create_pagedir (py_mem s) = RRet d r ∧ 0 < d ∧ mem_ok lost (set_mem r s) c (RDir d :: B)) ∨
  (∃ r, rm_create_pagedir (py_mem s) = RRet NULL r ∧ mem_ok lost (set_mem r s) c B).
Proof.
  intros (A & Hr & H1). destruct (rs_create_pagedir A c _ _ Hr) as [(p & r & E & Hp & Hr')|(r & E & Hr')];
    [left; exists p, r; split_and!; [done|done|]|right; exists r; split; [done|]]; by exists A.
Qed.

Lemma mem_destroy_dir s c B d :
  mem_ok lost s c (RDir d :: B) → d ≠ c → ∃ r, rm_destroy_pagedir d (py_mem s) = RRet tt r ∧ mem_ok lost (set_mem r s) c B.
Proof.
  intros (A & Hr & Ha) Hd. destruct (rs_destroy_pagedir A c _ _ d Hr Hd) as (r & E & Hr'). exists r. split; [done|]. by exists A.
Qed.

Lemma mem_pt_set s c B d : mem_ok lost s c B → RDir d ∈ B → ∃ r, rm_pt_set d (py_mem s) = RRet tt r ∧ mem_ok lost (set_mem r s) d B.
Proof.
  intros (A & Hr & Ha) Hd. destruct (rs_pt_set A c _ _ d Hr) as (r & E & Hr'); [apply elem_of_app; by left|].
  exists r. split; [done|]. by exists A.
Qed.

Lemma free_stack_run s c B stack :
  mem_ok lost s c (RPages STACK_PAGES stack :: B) → ∃ r, free_stack stack s = RRet tt (set_mem r s) ∧ mem_ok lost (set_mem r s) c B.
Proof.
  intros (A & Hr & Ha). destruct (rs_page_free_n A c _ _ STACK_PAGES stack Hr ltac:(done)) as (r & E & Hr').
  exists r. unfold free_stack, res_call, klift. rewrite E. split; [done|]. by exists A.
Qed.

(** * Creating a process *)

Lemma held_sub s c p x : psinv lost s c → py_procs s !! p = Some x → proc_res (py_ctx s) p x ⊆ held s.
Proof.
  intros Hs Hx e He. apply list_elem_of_bind. exists p. split; [by rewrite Hx|]. apply (pv_list Hs). eauto.
Qed.

Lemma fresh_proc s s' c p B :
  psinv lost s c → mem_ok lost s' c (RObj sizeof_proc (Zpos p) :: held s ++ B) → py_procs s !! p = None.
Proof.
  intros Hs Hm%mem_nodup%NoDup_cons. destruct Hm as [Hn _]. destruct (py_procs s !! p) as [x|] eqn:E; [|done].
  destruct Hn. apply elem_of_app. left. apply (held_sub s c p x Hs E). left.
Qed.

Definition new_proc (pid : Z) (name : string) (parent : option positive) (dir map : Z) : proc :=
  Proc pid name [] [] parent 0 PROC_RUNNING dir (replicate (Z.to_nat NFILES) NULL) NULL map.

Definition created (s : psys R) (cur : positive) (x : proc) (p : positive) (y : proc) (n : Z) (r : R) : psys R :=
  Psys (with_ks (set_queues <[ProcQ p := KTQueue [] 0]> (py_ks s)) (with_mem r (py_vfs s)))
    (<[p := y]> (<[cur := set_children (p_children x ++ [p]) x]> (py_procs s))) (py_list s ++ [p]) (py_initproc s) n
    (py_proc_allocator s) (py_kthread_allocator s) (py_vmmap_allocator s) (py_ctx s).

Definition dir_res (d : Z) : list res := if d =? NULL then [] else [RDir d].

Lemma elem_of_pids s p x : p ∈ py_list s → py_procs s !! p = Some x → p_pid x ∈ pids s.
Proof. intros Hp Hx. apply list_elem_of_omap. exists p. by rewrite Hx. Qed.

Lemma pids_reserved s c : psinv lost s c → PID_IDLE ∈ pids s ∧ PID_INIT ∈ pids s.
Proof.
  intros Hs. split.
  - destruct (tr_init _ _ (pv_tree Hs)) as (_ & _ & z & x & _ & _ & _ & _ & _ & Hx & <- & _).
    apply (elem_of_pids s z x); [|done]. apply (pv_list Hs). eauto.
  - destruct (tr_init _ _ (pv_tree Hs)) as (z & x & _ & _ & _ & Hx & <- & _).
    apply (elem_of_pids s z x); [|done]. apply (pv_list Hs). eauto.
Qed.

(** There is a free pid when there are fewer processes than pids. *)
Lemma pid_free s : (Z.of_nat (length (py_list s)) < PROC_MAX_COUNT) → ¬ ∀ pid, 0 ≤ pid < PROC_MAX_COUNT → pid ∈ pids s.
Proof.
  intros Hl Hall. assert (Hle : (length (seqZ 0 PROC_MAX_COUNT) ≤ length (pids s))%nat).
  { apply submseteq_length, NoDup_submseteq; [apply NoDup_seqZ|]. intros i Hi%elem_of_seqZ. apply Hall. lia. }
  rewrite length_seqZ in Hle. pose proof (pids_length s). lia.
Qed.

(** proc_create in general: [parent] is the current process, if there is one. *)
Definition with_child (parent : option positive) (p : positive) (procs : gmap positive proc) : gmap positive proc :=
  match parent with Some cur => alter (λ x, set_children (p_children x ++ [p]) x) cur procs | None => procs end.

Definition born (s : psys R) (parent : option positive) (p : positive) (y : proc) (n : Z) (r : R) : psys R :=
  Psys (with_ks (set_queues <[ProcQ p := KTQueue [] 0]> (py_ks s)) (with_mem r (py_vfs s)))
    (<[p := y]> (with_child parent p (py_procs s))) (py_list s ++ [p]) (if p_pid y =? PID_INIT then Some p else py_initproc s) n
    (py_proc_allocator s) (py_kthread_allocator s) (py_vmmap_allocator s) (py_ctx s).

(** The struct and the directory of a process. *)
Lemma alloc_proc_run s c B :
  mem_ok lost s c B →
  (∃ r, rm_obj_alloc (py_proc_allocator s) (py_mem s) = RRet NULL r) ∨
  ∃ p r dir r', rm_obj_alloc (py_proc_allocator s) (py_mem s) = RRet (Zpos p) r ∧ rm_create_pagedir r = RRet dir r' ∧
    mem_ok lost (set_mem r' s) c (RObj sizeof_proc (Zpos p) :: dir_res dir ++ B).
Proof.
  intros Hm. destruct (mem_alloc s c B _ _ Hm (allocator_proc _)) as [([|p|p] & r & E & Ha & Hm1)|(r & E & _)]; [done| |done|left; eauto].
  right. exists p, r. unfold dir_res. destruct (mem_create_dir _ _ _ Hm1) as [(dir & r2 & E2 & Hp & Hm2)|(r2 & E2 & Hm2)];
    eexists _, r2; (split_and!; [done|exact E2|]); [|done].
  destruct (Z.eqb_spec dir NULL) as [->|]; [done|]. eapply mem_perm; [|exact Hm2]. apply Permutation_swap.
Qed.

Lemma init_check_run (s : psys R) pid :
  (pid = PID_INIT → ∃ cur x, ks_curproc (py_ks s) = Some cur ∧ py_procs s !! cur = Some x ∧ p_pid x = PID_IDLE) →
  (if pid =? PID_INIT then let* cur := get_curproc in let* x := get_proc cur in
     KASSERT (p_pid x =? PID_IDLE) "PID_INIT != pid || PID_IDLE == curproc->p_pid" else kret tt) s = RRet tt s.
Proof.
  intros Hi. destruct (Z.eqb_spec pid PID_INIT) as [E|]; [|done]. destruct (Hi E) as (cur & x & Hc & Hx & Hp).
  rewrite (curproc_next cur), (get_proc_next _ x) by done. unfold KASSERT. by rewrite Hp.
Qed.

Lemma add_child_run (s : psys R) parent p :
  (∀ cur, parent = Some cur → is_Some (py_procs s !! cur)) →
  (if parent is Some cur then upd_proc cur (λ x, set_children (p_children x ++ [p]) x) else kret tt) s =
  RRet tt (upd_procs (with_child parent p) s).
Proof.
  intros Hcur. destruct parent as [cur|]; [|by destruct s]. destruct (Hcur cur eq_refl) as [x Hx].
  unfold upd_proc. rewrite (get_proc_next _ x) by done. unfold put_proc, kmodify, upd_procs. simpl. by rewrite (alter_insert_lookup _ _ cur x).
Qed.

Lemma proc_create_born s c B parent name pid n :
  mem_ok lost s c B → ks_curproc (py_ks s) = parent → _proc_getid s = RRet pid (with_next_pid n s) →
  Z.of_nat (String.length name) < PROC_NAME_LEN → (∀ p x, py_procs s !! p = Some x → RObj sizeof_proc (Zpos p) ∈ B) →
  (∀ cur, parent = Some cur → is_Some (py_procs s !! cur)) → (pid = PID_IDLE → py_list s = []) →
  (pid = PID_INIT → ∃ cur x, parent = Some cur ∧ py_procs s !! cur = Some x ∧ p_pid x = PID_IDLE) →
  proc_create name s = RFault "memset of NULL" ∨
  ∃ p dir map r, let s' := born s parent p (new_proc pid name parent dir map) n r in
    proc_create name s = RRet p s' ∧ py_procs s !! p = None ∧ mem_ok lost s' c (map_res map ++ RObj sizeof_proc (Zpos p) :: dir_res dir ++ B).
Proof.
  intros Hm Hc E Hn Hold Hcur Hidle Hinit. unfold proc_create. rewrite (kbind_of_ret _ _ _ _ _ E), kget_next.
  destruct (alloc_proc_run (with_next_pid n s) c B Hm) as [(r1 & E1)|(p & r1 & dir & r2 & E1 & E2 & Hm2)].
  { left. by rewrite (res_next _ _ _ _ _ E1). }
  right. rewrite (res_next _ _ _ _ _ E1). cbn [Z.eqb NULL Z.to_pos]. cbv zeta. rewrite (res_next _ _ _ _ (set_mem r1 _) E2).
  destruct (Z.leb_spec PROC_NAME_LEN (Z.of_nat (String.length name))); [lia|].
  assert (Hf : py_procs s !! p = None).
  { destruct (py_procs s !! p) eqn:Ep; [|done]. pose proof (mem_nodup _ _ _ Hm2) as [Hnd _]%NoDup_cons. destruct Hnd.
    apply elem_of_app. right. by eapply Hold. }
  change (ks_curproc (py_ks (with_next_pid n s))) with (ks_curproc (py_ks s)). rewrite Hc, put_proc_next.
  rewrite kassert_next by (destruct (Z.eqb_spec pid PID_IDLE); [apply orb_true_intro; right; apply bool_decide_eq_true_2; simpl; auto|done]).
  set (y0 := Proc pid name [] [] parent 0 PROC_RUNNING dir _ _ _). set (s1 := upd_procs <[p := y0]> _).
  rewrite (kbind_of_ret _ _ _ _ _ (init_check_run s1 pid ltac:(intros Hi; destruct (Hinit Hi) as (cur & x & -> & Hx & Hp0); exists cur, x;
    split_and!; [done|simpl; rewrite lookup_insert_ne by congruence; done|done]))), kmodify_next. set (s2 := upd_list _ s1).
  rewrite (kbind_of_ret _ _ _ _ _ (add_child_run s2 parent p ltac:(intros cur Hp; simpl; apply lookup_insert_is_Some'; right; by apply Hcur))). set (s3 := upd_procs _ s2).
  assert (Hin : (if pid =? PID_INIT then kmodify (with_initproc (Some p)) else kret tt) s3 =
    RRet tt (with_initproc (if pid =? PID_INIT then Some p else py_initproc s) s3)) by (by destruct (pid =? PID_INIT)).
  rewrite (kbind_of_ret _ _ _ _ _ Hin). set (s4 := with_initproc _ s3). destruct (vmmap_create_run s4 c _ Hm2) as (map & r3 & E3 & Hm3).
  assert (Hp : py_procs s4 !! p = Some y0 ∧ <[p := set_vmmap map y0]> (py_procs s4) = <[p := set_vmmap map y0]> (with_child parent p (py_procs s))).
  { simpl. destruct parent as [cur|]; simpl; [|split; [apply lookup_insert_eq|apply insert_insert_eq]].
    assert (cur ≠ p) by (destruct (Hcur cur eq_refl); congruence). rewrite lookup_alter_ne, lookup_insert_eq by done. split; [done|].
    rewrite alter_insert_ne by done. apply insert_insert_eq. }
  rewrite (kbind_of_ret _ _ _ _ _ E3). rewrite (upd_proc_next _ _ y0) by apply Hp. erewrite sched_next by reflexivity.
  exists p, dir, map, r3. split_and!; [|done|exact Hm3].
  unfold kret, born, upd_procs, set_ks, with_vfs, set_mem. simpl. f_equal. f_equal. apply Hp.
Qed.

Lemma proc_create_run s c cur x name :
  psinv lost s c → ks_curproc (py_ks s) = Some cur → py_procs s !! cur = Some x →
  Z.of_nat (length (py_list s)) < PROC_MAX_COUNT → Z.of_nat (String.length name) < PROC_NAME_LEN →
  proc_create name s = RFault "memset of NULL" ∨
  ∃ p pid n dir map r, let s' := created s cur x p (new_proc pid name (Some cur) dir map) n r in
    proc_create name s = RRet p s' ∧ py_procs s !! p = None ∧ 0 ≤ pid < PROC_MAX_COUNT ∧ pid ∉ pids s ∧
    0 ≤ n < PROC_MAX_COUNT ∧ mem_ok lost s' c (map_res map ++ RObj sizeof_proc (Zpos p) :: dir_res dir ++ held s).
Proof.
  intros Hs Hc Hx Hl Hn. destruct (proc_getid_run s) as [(pid & n & E & Hr & Hpid & En)|[_ Hall]];
    [intros q Hq; by apply (pv_list Hs)|apply Hs| |by destruct (pid_free s Hl)].
  destruct (pids_reserved s c Hs) as [Hi0 Hi1]. assert (Hne : pid ≠ PID_INIT) by congruence.
  destruct (proc_create_born s c (held s) (Some cur) name pid n) as [?|(p & dir & map & r & E' & Hf & Hm)]; try done; [apply Hs| | |congruence|by left|].
  - intros q w Hq. apply (held_sub s c q w Hs Hq). left.
  - intros ? [= <-]. eauto.
  - right. exists p, pid, n, dir, map, r.
    assert (EB : born s (Some cur) p (new_proc pid name (Some cur) dir map) n r = created s cur x p (new_proc pid name (Some cur) dir map) n r).
    { unfold born, created. simpl. by rewrite (alter_insert_lookup _ _ cur x), (proj2 (Z.eqb_neq _ _) Hne). }
    rewrite EB in E', Hm. split_and!; [done|done|lia|lia|done|subst n; by apply Z.mod_pos_bound..|done].
Qed.

(** ** Its thread *)

(** What creating a process or a thread makes of a lack of memory that it does not
    check for. *)
Definition out_of_memory {A} (r : kres (psys R) A) : Prop :=
  r = RFault "memset of NULL" ∨ r = RPanic "NULL != kthread_allocator" ∨ r = RPanic "NULL != pdptr" ∨ r = RFault "stack".

Lemma oom_bind {A B} (m : kM (psys R) A) (k : A → kM (psys R) B) s : out_of_memory (m s) → out_of_memory (kbind m k s).
Proof.
  intros [E|[E|[E|E]]]; [left; by apply kbind_of_fault|right; left; by apply kbind_of_panic|do 2 right; left; by apply kbind_of_panic|
    do 3 right; by apply kbind_of_fault].
Qed.

Definition new_thread (p : positive) : kthread := KThread 0 p false None KT_RUN None.

Definition threaded (s : psys R) (p : positive) (y : proc) (t : positive) (stack a : Z) (r : R) : psys R :=
  Psys (with_ks (set_threads <[t := new_thread p]> (py_ks s)) (with_mem r (py_vfs s)))
    (<[p := set_pthreads (p_threads y ++ [t]) y]> (py_procs s)) (py_list s) (py_initproc s) (py_next_pid s)
    (py_proc_allocator s) a (py_vmmap_allocator s) (<[t := Context stack (p_pagedir y)]> (py_ctx s)).

Lemma kthread_init_run s c B :
  mem_ok lost s c B →
  kthread_init s = RPanic "NULL != kthread_allocator" ∨
  ∃ a r, kthread_init s = RRet tt (with_kthread_allocator a (set_mem r s)) ∧ mem_ok lost (with_kthread_allocator a (set_mem r s)) c B.
Proof.
  intros (A & Hr & H1 & H2 & H3). unfold kthread_init.
  destruct (rs_allocator_create A c _ _ "kthread" sizeof_kthread Hr) as [(a & r & E & Ha & Hr')|(r & E & Hr')];
    [unfold sizeof_kthread; lia| |]; rewrite (res_next _ _ _ _ _ E), kmodify_next; [right|by left].
  destruct (Z.eqb_spec a NULL); [done|]. exists a, r. split; [done|]. exists ((a, sizeof_kthread) :: A).
  split_and!; [done|by right|by left|by right].
Qed.

Lemma alloc_stack_run s c B :
  mem_ok lost s c B →
  ∃ stack r, alloc_stack s = RRet stack (set_mem r s) ∧ PAGE_ALIGNED stack = true ∧
    mem_ok lost (set_mem r s) c (if stack =? NULL then B else RPages STACK_PAGES stack :: B).
Proof.
  intros (A & Hr & H1). unfold alloc_stack, res_call, klift.
  destruct (rs_page_alloc_n A c _ _ STACK_PAGES Hr) as [(p & r & E & Hp & Hr')|(r & E & Hr')]; [done| |]; rewrite E; eexists _, r.
  - split_and!; [done|by eapply rs_page_aligned|]. destruct (Z.eqb_spec p NULL) as [->|]; [done|]. by exists A.
  - split_and!; [done|done|]. by exists A.
Qed.

Lemma context_setup_run (s : psys R) stack dir :
  dir ≠ NULL → PAGE_ALIGNED stack = true →
  context_setup stack dir s = if stack =? NULL then RFault "stack" else RRet (Context stack dir) s.
Proof.
  intros Hd Ha. unfold context_setup. rewrite kassert_next by (by rewrite (proj2 (Z.eqb_neq _ _) Hd)). rewrite kassert_next by done.
  by destruct (stack =? NULL).
Qed.

Lemma kthread_create_run s c B p y :
  mem_ok lost s c B → py_procs s !! p = Some y →
  out_of_memory (kthread_create p s) ∨
  ∃ t stack a r, let s' := threaded s p y t stack a r in
    kthread_create p s = RRet t s' ∧ p_pagedir y ≠ NULL ∧ stack ≠ NULL ∧
    mem_ok lost s' c (RObj sizeof_kthread (Zpos t) :: RPages STACK_PAGES stack :: B).
Proof.
  intros Hm Hy. unfold kthread_create.
  destruct (kthread_init_run s c B Hm) as [E|(a & r & E & Hm1)].
  { left. right. left. by apply kbind_of_panic. }
  rewrite (kbind_of_ret _ _ _ _ _ E), kget_next.
  destruct (mem_alloc _ c B _ _ Hm1 (allocator_kthread _)) as [(o & r1 & E1 & Ha & Hm2)|(r1 & E1 & _)].
  2:{ left. left. by rewrite (res_next _ _ _ _ _ E1). }
  rewrite (res_next _ _ _ _ _ E1). destruct (Z.eqb_spec o NULL) as [->|Hnn]; [done|].
  destruct (alloc_stack_run _ _ _ Hm2) as (stack & r2 & E2 & Hal & Hm3). cbv zeta. rewrite (kbind_of_ret _ _ _ _ _ E2).
  erewrite sched_next by reflexivity. rewrite (get_proc_next _ y) by done.
  match goal with |- context [kbind (context_setup _ _) _ ?S0] => set (s0 := S0) end.
  destruct (Z.eqb_spec (p_pagedir y) NULL) as [Hd|Hd].
  { left. right. right. left. apply kbind_of_panic. by rewrite Hd. }
  destruct (Z.eqb_spec stack NULL) as [Hk|Hk].
  { left. do 3 right. apply kbind_of_fault. rewrite (context_setup_run s0) by done. by rewrite Hk. }
  right. exists (Z.to_pos o), stack, a, r2.
  rewrite (kbind_of_ret _ _ _ _ _ (eq_trans (context_setup_run s0 stack _ Hd Hal) ltac:(by rewrite (proj2 (Z.eqb_neq _ _) Hk)))), kmodify_next.
  erewrite upd_proc_next by done. split_and!; [done|done|done|]. rewrite Z2Pos.id by done.
  eapply mem_perm; [|exact Hm3]. apply Permutation_swap.
Qed.

(** ** The process and its thread *)

(** The calls with which a new process is started, as in kmain.c and the tests. *)
Definition spawn (name : string) : kM (psys R) (positive * positive) :=
  let* p := proc_create name in
  let* t := kthread_create p in
  sched_call (sched_make_runnable t) ;;;
  kret (p, t).

Definition forked (s : psys R) (cur : positive) (x : proc) (p : positive) (y : proc) (t : positive) (stack n a : Z) (r : R) : psys R :=
  Psys (with_ks (q_push RunQ t (new_thread p) (set_queues <[ProcQ p := KTQueue [] 0]> (py_ks s))) (with_mem r (py_vfs s)))
    (<[p := y]> (<[cur := set_children (p_children x ++ [p]) x]> (py_procs s))) (py_list s ++ [p]) (py_initproc s) n
    (py_proc_allocator s) a (py_vmmap_allocator s) (<[t := Context stack (p_pagedir y)]> (py_ctx s)).

Lemma tree_fork procs i cur x p y :
  tree procs i → procs !! cur = Some x → p_state x = PROC_RUNNING → procs !! p = None →
  0 ≤ p_pid y < PROC_MAX_COUNT → p_pid y ≠ PID_IDLE → (∀ q z, procs !! q = Some z → p_pid z ≠ p_pid y) →
  p_pproc y = Some cur → p_children y = [] → p_state y = PROC_RUNNING →
  tree (<[p := y]> (<[cur := set_children (p_children x ++ [p]) x]> procs)) i.
Proof.
  intros [T1 T2 (j & xi & z & xz & -> & Hj & Hji & Hjs & Hjz & Hz & Hzi & Hzs) T5 T6 T7 T8] Hc Hst Hp Hr Hni Hf Hpp Hch Hys.
  assert (Hne : cur ≠ p) by congruence.
  (* a process of the new table is the new one or has the fields of an old one *)
  assert (L : ∀ q w, <[p := y]> (<[cur := set_children (p_children x ++ [p]) x]> procs) !! q = Some w →
    (q = p ∧ w = y) ∨ (q = cur ∧ w = set_children (p_children x ++ [p]) x) ∨ (q ≠ p ∧ q ≠ cur ∧ procs !! q = Some w)).
  { intros q w. rewrite !lookup_insert. repeat case_decide; subst; intros [=]; subst; auto. }
  assert (K : ∀ q w, procs !! q = Some w → ∃ w', <[p := y]> (<[cur := set_children (p_children x ++ [p]) x]> procs) !! q = Some w' ∧
    p_pid w' = p_pid w ∧ p_state w' = p_state w ∧ p_pproc w' = p_pproc w ∧ p_children w ⊆ p_children w').
  { intros q w Hq. assert (q ≠ p) by congruence. destruct (decide (q = cur)) as [->|].
    - simplify_eq. exists (set_children (p_children x ++ [p]) x). rewrite lookup_insert_ne, lookup_insert_eq by done.
      split_and!; [done..|]. simpl. set_solver.
    - exists w. by rewrite !lookup_insert_ne by done. }
  split.
  - intros q w [[-> ->]|[[-> ->]|(_ & _ & Hq)]]%L; [done|exact (T1 _ _ Hc)|by eapply T1].
  - intros q1 q2 w1 w2 H1%L H2%L E.
    assert (Hold : ∀ q w, (q = cur ∧ w = set_children (p_children x ++ [p]) x) ∨ (q ≠ p ∧ q ≠ cur ∧ procs !! q = Some w) →
      ∃ w', procs !! q = Some w' ∧ p_pid w' = p_pid w).
    { intros q w [[-> ->]|(_ & _ & ?)]; eauto. }
    destruct H1 as [[-> ->]|H1], H2 as [[-> ->]|H2]; [done|..].
    + destruct (Hold _ _ H2) as (w' & Hw & E'). destruct (Hf _ _ Hw). congruence.
    + destruct (Hold _ _ H1) as (w' & Hw & E'). destruct (Hf _ _ Hw). congruence.
    + destruct (Hold _ _ H1) as (w1' & Hw1 & E1), (Hold _ _ H2) as (w2' & Hw2 & E2). eapply T2; [exact Hw1|exact Hw2|congruence].
  - destruct (K _ _ Hj) as (w & ? & ? & ? & ? & _), (K _ _ Hz) as (v & ? & ? & ? & _). exists j, w, z, v. split_and!; congruence.
  - intros q w [[-> ->]|H1]%L Hq0.
    + exists cur, (set_children (p_children x ++ [p]) x). rewrite lookup_insert_ne, lookup_insert_eq by done.
      split_and!; [done|done| |done]. simpl. set_solver.
    + assert (Hw : ∃ w', procs !! q = Some w' ∧ p_pid w' = p_pid w ∧ p_pproc w' = p_pproc w)
        by (destruct H1 as [[-> ->]|(_ & _ & ?)]; eauto).
      destruct Hw as (w' & Hw & E1 & E2). destruct (T5 q w' Hw ltac:(congruence)) as (q' & v & Hv1 & Hv2 & Hv3 & Hv4).
      destruct (K _ _ Hv2) as (v' & ? & _ & ? & _ & Hsub). exists q', v'. split_and!; [congruence|done|by apply Hsub|congruence].
  - intros q w d [[-> ->]|[[-> ->]|(? & ? & Hq)]]%L Hd.
    + rewrite Hch in Hd. by apply elem_of_nil in Hd.
    + simpl in Hd. apply elem_of_app in Hd as [Hd|Hd%list_elem_of_singleton]; [|subst d].
      * destruct (T6 _ _ _ Hc Hd) as (v & Hv & ? & ? & ?). destruct (K _ _ Hv) as (v' & ? & ? & ? & ? & _). exists v'. split_and!; congruence.
      * exists y. by rewrite lookup_insert_eq.
    + destruct (T6 _ _ _ Hq Hd) as (v & Hv & ? & ? & ?). destruct (K _ _ Hv) as (v' & ? & ? & ? & ? & _). exists v'. split_and!; congruence.
  - intros q w [[-> ->]|[[-> ->]|(? & ? & Hq)]]%L; [rewrite Hch; constructor| |by eapply T7]. simpl.
    apply NoDup_app. split_and!; [by eapply T7| |apply NoDup_singleton]. intros d Hd Ed%list_elem_of_singleton.
    subst d. destruct (T6 _ _ _ Hc Hd) as (v & Hv & _). congruence.
  - intros q w [[-> ->]|[[-> ->]|(? & ? & Hq)]]%L; [congruence|simpl; congruence|by eapply T8].
Qed.

Lemma one_thread_frame ks ks' ctx ctx' p x x' t k :
  one_thread ks ctx p x t k → ks_threads ks' !! t = Some k → ctx' !! t = ctx !! t →
  p_threads x' = p_threads x → p_pagedir x' = p_pagedir x → p_state x' = p_state x → one_thread ks' ctx' p x' t k.
Proof. intros [O1 O2 O3 O4 O5 O6 O7] Hk Hc E1 E2 E3. split; rewrite ?E1, ?E2, ?E3, ?Hc; done. Qed.

Lemma threads_fork ks ctx procs cur x p y t stack :
  threads ks ctx procs → is_Some (ks_queues ks !! RunQ) → procs !! cur = Some x → procs !! p = None → ks_threads ks !! t = None →
  p_threads y = [t] → p_state y = PROC_RUNNING → p_pagedir y ≠ NULL → stack ≠ NULL →
  threads (q_push RunQ t (new_thread p) (set_queues <[ProcQ p := KTQueue [] 0]> ks)) (<[t := Context stack (p_pagedir y)]> ctx)
    (<[p := y]> (<[cur := set_children (p_children x ++ [p]) x]> procs)).
Proof.
  intros [T1 T2 T3 T4] HR Hc Hp Ht Hy Hst Hd Hs. assert (Hne : cur ≠ p) by congruence.
  assert (Hold : ∀ q w, q ≠ p → <[p := y]> (<[cur := set_children (p_children x ++ [p]) x]> procs) !! q = Some w →
    ∃ w', procs !! q = Some w' ∧ p_threads w = p_threads w' ∧ p_pagedir w = p_pagedir w' ∧ p_state w = p_state w').
  { intros q w Hq. rewrite lookup_insert_ne, lookup_insert by done. case_decide; [intros [= <-]; subst; eauto|eauto]. }
  split.
  - intros q w Hw. destruct (decide (q = p)) as [->|Hq].
    + rewrite lookup_insert_eq in Hw. injection Hw as <-. exists t, (with_qlink (Some RunQ) (with_wchan (Some RunQ) (new_thread p))).
      split; [done|apply lookup_insert_eq|done| |done|simpl; by rewrite Hst|done]. exists (Context stack (p_pagedir y)). by rewrite lookup_insert_eq.
    + destruct (Hold q w Hq Hw) as (w' & Hw' & E1 & E2 & E3). destruct (T1 _ _ Hw') as (u & k & HO). exists u, k.
      assert (u ≠ t) by (intros ->; pose proof (ot_thread _ _ _ _ _ _ HO); congruence).
      eapply one_thread_frame; [exact HO|simpl; rewrite lookup_insert_ne by done; apply HO|by rewrite lookup_insert_ne|done..].
  - intros u k. simpl. rewrite lookup_insert. case_decide as Hu.
    + intros [= <-]. subst u. exists y. simpl. by rewrite lookup_insert_eq.
    + intros Hk. destruct (T2 _ _ Hk) as (w & Hw & Ew). assert (kt_proc k ≠ p) by congruence. rewrite lookup_insert_ne, lookup_insert by done.
      case_decide as Hq; [|eauto]. rewrite <- Hq, Hc in Hw. simplify_eq. eauto.
  - intros q w Hw. simpl. rewrite lookup_alter_ne, lookup_insert by done. case_decide; [done|].
    destruct (Hold q w ltac:(congruence) Hw) as (w' & Hw' & _). eauto.
  - intros u k q. simpl. rewrite lookup_insert. case_decide; [by intros [= <-]|eauto].
Qed.

Lemma bind_ext_in {A B} (f g : A → list B) l : (∀ a, a ∈ l → f a = g a) → l ≫= f = l ≫= g.
Proof.
  induction l as [|a l IH]; intros Hf; [done|]. rewrite !bind_cons, IH by (intros b Hb; apply Hf; by right). f_equal. apply Hf. left.
Qed.

Lemma bind_snoc {A B} (f : A → list B) l a : (l ++ [a]) ≫= f = (l ≫= f) ++ f a.
Proof. rewrite bind_app. f_equal. rewrite bind_cons. apply app_nil_r. Qed.

(** A process keeps what it holds when its threads, their stacks and its page
    directory stay. *)
Definition res_of (procs : gmap positive proc) (ctx : gmap positive context) (p : positive) : list res :=
  match procs !! p with Some x => proc_res ctx p x | None => [] end.

Lemma held_res_of s : held s = py_list s ≫= res_of (py_procs s) (py_ctx s).
Proof. done. Qed.

Lemma res_of_same procs ctx procs' ctx' p x x' :
  procs !! p = Some x → procs' !! p = Some x' → p_threads x' = p_threads x → p_pagedir x' = p_pagedir x → p_vmmap x' = p_vmmap x →
  (∀ t, t ∈ p_threads x → ctx' !! t = ctx !! t) → res_of procs' ctx' p = res_of procs ctx p.
Proof.
  intros E E' Et Ed Em Hc. unfold res_of, proc_res. rewrite E, E', Et, Ed, Em. do 3 f_equal.
  apply bind_ext_in. intros t Ht. unfold thread_res. by rewrite Hc.
Qed.

Lemma fresh_thread s s' c t B :
  psinv lost s c → mem_ok lost s' c (RObj sizeof_kthread (Zpos t) :: B) → held s ⊆ B → ks_threads (py_ks s) !! t = None.
Proof.
  intros Hs Hm%mem_nodup%NoDup_cons HB. destruct Hm as [Hn _]. destruct (ks_threads (py_ks s) !! t) as [k|] eqn:E; [|done].
  destruct Hn. apply HB. destruct (th_thread _ _ _ (pv_threads Hs) _ _ E) as (x & Hx & Et).
  apply (held_sub s c _ x Hs Hx). unfold proc_res. rewrite Et, bind_cons. do 2 right. apply elem_of_app. right. left.
Qed.

(** Nobody waits on the queue of a process that is not there. *)
Lemma no_waiters s c p Q : psinv lost s c → py_procs s !! p = None → ks_queues (py_ks s) !! ProcQ p = Some Q → tq_list Q = [].
Proof.
  intros Hs Hp HQ. destruct (tq_list Q) as [|t l] eqn:EQ; [done|].
  destruct (wf_on _ (pv_wf Hs) _ _ t HQ) as (k & Hk & Hw & _); [rewrite EQ; left|].
  pose proof (th_wait _ _ _ (pv_threads Hs) _ _ _ Hk Hw) as <-.
  destruct (th_thread _ _ _ (pv_threads Hs) _ _ Hk) as (x & Hx & _). congruence.
Qed.

Lemma wf_init_queue ks q :
  wf ks → (∀ Q, ks_queues ks !! q = Some Q → tq_list Q = []) → wf (set_queues <[q := KTQueue [] 0]> ks).
Proof.
  intros [H1 H2 H3 H4 H5] He. split; simpl.
  - intros q' Q. rewrite lookup_insert. case_decide; [intros [= <-]; split; [done|constructor]|eauto].
  - intros q' Q t. rewrite lookup_insert. case_decide; [intros [= <-] []%elem_of_nil|eauto].
  - done.
  - intros t k q' Ht Hw. destruct (H4 _ _ _ Ht Hw) as (Q & HQ & Hin). destruct (decide (q' = q)) as [->|].
    + rewrite (He _ HQ) in Hin. by apply elem_of_nil in Hin.
    + exists Q. by rewrite lookup_insert_ne.
  - apply lookup_insert_is_Some'. by right.
Qed.

Lemma held_forked s c cur x p y t stack n a r :
  psinv lost s c → py_procs s !! cur = Some x → py_procs s !! p = None → ks_threads (py_ks s) !! t = None → p_threads y = [t] →
  held (forked s cur x p y t stack n a r) =
  held s ++ RObj sizeof_proc (Zpos p) :: RDir (p_pagedir y) :: map_res (p_vmmap y) ++ [RObj sizeof_kthread (Zpos t); RPages STACK_PAGES stack].
Proof.
  intros Hs Hx Hp Ht Hy. rewrite !held_res_of. simpl. rewrite bind_snoc. f_equal.
  - apply bind_ext_in. intros q Hq. apply (pv_list Hs) in Hq as [w Hw]. assert (q ≠ p) by congruence.
    assert (Hc : ∀ u, u ∈ p_threads w → <[t := Context stack (p_pagedir y)]> (py_ctx s) !! u = py_ctx s !! u).
    { intros u Hu. destruct (th_proc _ _ _ (pv_threads Hs) _ _ Hw) as (u' & k & [O1 O2 _ _ _ _ _]).
      rewrite O1 in Hu. apply list_elem_of_singleton in Hu as ->. apply lookup_insert_ne. congruence. }
    destruct (decide (q = cur)) as [->|].
    + simplify_eq. eapply res_of_same; [exact Hx|by rewrite lookup_insert_ne, lookup_insert_eq|done..].
    + eapply res_of_same; [exact Hw|by rewrite !lookup_insert_ne|done..].
  - unfold res_of, proc_res, thread_res. rewrite lookup_insert_eq, Hy, bind_cons, lookup_insert_eq. done.
Qed.

Lemma psinv_forked s c cur x p y t stack n a r :
  psinv lost s c → py_procs s !! cur = Some x → p_state x = PROC_RUNNING → py_procs s !! p = None → ks_threads (py_ks s) !! t = None →
  p_pid y ∉ pids s → 0 ≤ p_pid y < PROC_MAX_COUNT → 0 ≤ n < PROC_MAX_COUNT →
  p_threads y = [t] → p_children y = [] → p_pproc y = Some cur → p_state y = PROC_RUNNING → p_pagedir y ≠ NULL → stack ≠ NULL →
  p_files y = replicate (Z.to_nat NFILES) NULL →
  mem_ok lost (forked s cur x p y t stack n a r) c
    (RObj sizeof_kthread (Zpos t) :: RPages STACK_PAGES stack :: map_res (p_vmmap y) ++ RObj sizeof_proc (Zpos p) :: RDir (p_pagedir y) :: held s) →
  psinv lost (forked s cur x p y t stack n a r) c.
Proof.
  intros Hs Hx Hst Hp Ht Hpid Hr Hn Hy Hch Hpp Hys Hd Hk Hfl Hm. pose proof (pids_reserved s c Hs) as [Hi0 _].
  assert (Hq : is_Some (ks_queues (py_ks s) !! RunQ)) by apply Hs. split.
  - apply wf_push; [|by simpl; rewrite Ht|by simpl; rewrite lookup_insert_ne|done].
    apply wf_init_queue; [apply Hs|]. intros Q. by apply (no_waiters s c).
  - simpl. apply NoDup_app. split_and!; [apply Hs| |apply NoDup_singleton]. intros q Hq' E%list_elem_of_singleton. subst q.
    apply (pv_list Hs) in Hq' as [??]. congruence.
  - intros q. simpl. rewrite elem_of_app, list_elem_of_singleton, (pv_list Hs), !lookup_insert_is_Some'.
    split; [intros [?| ->]; auto|intros [->|[<-|?]]; eauto].
  - done.
  - simpl. apply tree_fork; try done; [apply Hs|congruence|]. intros q z Hz E. apply Hpid. rewrite <- E.
    apply (elem_of_pids s q); [apply (pv_list Hs); eauto|done].
  - simpl. apply threads_fork; try done. apply Hs.
  - intros q w f. simpl. rewrite !lookup_insert. repeat case_decide; intros Hw Hf; simplify_eq.
    + rewrite Hfl in Hf. by apply elem_of_replicate in Hf as [-> _].
    + by eapply (pv_files Hs).
    + by eapply (pv_files Hs).
  - rewrite (held_forked s c) by done. eapply mem_perm; [|exact Hm]. solve_Permutation.
Qed.

Lemma spawn_run s c cur x name :
  psinv lost s c → ks_curproc (py_ks s) = Some cur → py_procs s !! cur = Some x → p_state x = PROC_RUNNING →
  Z.of_nat (length (py_list s)) < PROC_MAX_COUNT → Z.of_nat (String.length name) < PROC_NAME_LEN →
  out_of_memory (spawn name s) ∨
  ∃ p pid dir map t stack n a r, let s' := forked s cur x p (set_pthreads [t] (new_proc pid name (Some cur) dir map)) t stack n a r in
    spawn name s = RRet (p, t) s' ∧ psinv lost s' c ∧ py_procs s !! p = None ∧ ks_threads (py_ks s) !! t = None ∧ pid ∉ pids s.
Proof.
  intros Hs Hc Hx Hst Hl Hn. unfold spawn.
  destruct (proc_create_run s c cur x name Hs Hc Hx Hl Hn) as [E|(p & pid & n & dir & map & r1 & E & Hp & Hr & Hpid & Hnn & Hm)].
  { left. left. by apply kbind_of_fault. }
  rewrite (kbind_of_ret _ _ _ _ _ E). set (s1 := created _ _ _ _ _ _ _) in *.
  destruct (kthread_create_run s1 c _ p (new_proc pid name (Some cur) dir map) Hm) as [E2|(t & stack & a & r & E2 & Hd & Hk & Hm2)];
    [apply lookup_insert_eq| |].
  { left. by apply oom_bind. }
  simpl in Hd. right. rewrite (kbind_of_ret _ _ _ _ _ E2). unfold dir_res in Hm2. rewrite (proj2 (Z.eqb_neq _ _) Hd) in Hm2.
  assert (Ht : ks_threads (py_ks s) !! t = None) by (eapply fresh_thread; [exact Hs|exact Hm2|intros e He; right; apply elem_of_app; right; do 2 right; done]).
  exists p, pid, dir, map, t, stack, n, a, r.
  assert (EF : set_ks (q_push RunQ t (with_state KT_RUN (new_thread p)) (py_ks (threaded s1 p (new_proc pid name (Some cur) dir map) t stack a r)))
    (threaded s1 p (new_proc pid name (Some cur) dir map) t stack a r) =
    forked s cur x p (set_pthreads [t] (new_proc pid name (Some cur) dir map)) t stack n a r).
  { unfold set_ks, threaded, forked, s1, created, q_push. simpl. rewrite insert_insert_eq. unfold set_queues, set_threads. simpl. by rewrite insert_insert_eq. }
  split_and!; [|by eapply psinv_forked|done|done|done].
  erewrite sched_next; [by rewrite EF|]. apply sched_make_runnable_run; [apply lookup_insert_eq| |done|done].
  simpl. rewrite lookup_insert_ne by done. apply Hs.
Qed.
End Inv.

Arguments pv_wf {_ _ _ _ _ _} _.
Arguments pv_nodup {_ _ _ _ _ _} _.
Arguments pv_list {_ _ _ _ _ _} _ _.
Arguments pv_next {_ _ _ _ _ _} _.
Arguments pv_tree {_ _ _ _ _ _} _.
Arguments pv_threads {_ _ _ _ _ _} _.
Arguments pv_files {_ _ _ _ _ _} _ _ _ _ _ _.
Arguments pv_mem {_ _ _ _ _ _} _.
