(* ===== verification/ProcExit.v ===== *)
(** Processes: what exiting and waiting do to the process tree. *)

From stdpp Require Import base numbers list gmap strings.
From S2P Require Import Prelude Sched Mutex PageAlloc Slab KMem PageTable Vfs Proc ProcInv.

Open Scope Z_scope.

Section Exit.
Context {R : Type} `{ProcMem R} `{!ProcMemLaws R} `{KMem R} {lost : list Z}.

(** * The children of a process that exits *)

(** The process table when the children [cs] of [p] have moved to [i]. *)
Definition adopted (p i : positive) (cs : list positive) (procs : gmap positive proc) : gmap positive proc :=
  map_imap (λ q w, Some
    (if decide (q = p) then set_children [] w
     else if decide (q = i) then set_children (p_children w ++ cs) w
     else if decide (q ∈ cs) then set_pproc (Some i) w else w)) procs.

Lemma lookup_adopted p i cs procs q :
  adopted p i cs procs !! q =
  (λ w, if decide (q = p) then set_children [] w
     else if decide (q = i) then set_children (p_children w ++ cs) w
     else if decide (q ∈ cs) then set_pproc (Some i) w else w) <$> procs !! q.
Proof. unfold adopted. rewrite map_lookup_imap. by destruct (procs !! q). Qed.

Lemma adopted_nil p i procs x : procs !! p = Some x → p_children x = [] → adopted p i [] procs = procs.
Proof.
  intros Hp Hc. apply fin_maps.map_eq. intros q. rewrite lookup_adopted. destruct (procs !! q) as [w|] eqn:E; [|done]. simpl. f_equal.
  destruct (decide (q = p)) as [->|]; [|destruct (decide (q = i)); [|by destruct (decide (q ∈ []))]].
  - rewrite Hp in E. injection E as <-. destruct x; simpl in *; by subst.
  - rewrite app_nil_r. by destruct w.
Qed.

Lemma reparent_run cs p i x (s : psys R) :
  py_procs s !! p = Some x → p_children x = cs → p ≠ i → NoDup cs → p ∉ cs → i ∉ cs → is_Some (py_procs s !! i) →
  (∀ q, q ∈ cs → is_Some (py_procs s !! q)) →
  reparent cs p i s = RRet tt (upd_procs (adopted p i cs) s).
Proof.
  revert x s. induction cs as [|q cs IH]; intros x s Hx Hc Hpi Hnd Hp Hi Hini Hcs; cbn [reparent].
  { unfold kret, upd_procs. rewrite (adopted_nil _ _ _ x) by done. by destruct s. }
  apply NoDup_cons in Hnd as [Hq Hnd]. apply not_elem_of_cons in Hp as [Hpq Hp], Hi as [Hiq Hi]. destruct Hini as [xi Hxi].
  destruct (Hcs q ltac:(left)) as [xq Hxq]. rewrite (get_proc_next _ x) by done. rewrite Hc. rewrite (kderef_next _ q) by done.
  rewrite put_proc_next. rewrite bool_decide_eq_true_2 by done. rewrite kbind_ret_l.
  rewrite (upd_proc_next _ _ xi) by (simpl; by rewrite lookup_insert_ne).
  rewrite (upd_proc_next _ _ xq) by (simpl; by rewrite !lookup_insert_ne).
  rewrite (IH (set_children cs x)); [|simpl; by rewrite 2!lookup_insert_ne, lookup_insert_eq|done|done|done|done|done| |].
  - unfold upd_procs. simpl. f_equal. f_equal. apply fin_maps.map_eq. intros r. rewrite !lookup_adopted.
    destruct (decide (r = q)) as [->|Hrq]; [|destruct (decide (r = i)) as [->|Hri]; [|destruct (decide (r = p)) as [->|Hrp]]].
    + rewrite lookup_insert_eq, Hxq. cbn [fmap option_fmap option_map]. repeat case_decide; set_solver.
    + rewrite lookup_insert_ne, lookup_insert_eq, Hxi by done. cbn [fmap option_fmap option_map]. repeat case_decide; try done.
      simpl. by rewrite <- app_assoc.
    + rewrite 2!lookup_insert_ne, lookup_insert_eq, Hx by done. cbn [fmap option_fmap option_map]. by repeat case_decide.
    + rewrite !lookup_insert_ne by done. destruct (py_procs s !! r); [|done]. cbn [fmap option_fmap option_map].
      repeat case_decide; set_solver.
  - simpl. rewrite lookup_insert_ne, lookup_insert_eq by done. eauto.
  - intros r Hr. simpl. rewrite !lookup_insert_is_Some'. right. right. right. apply Hcs. by right.
Qed.

(** * The files of a process that exits *)

Lemma fref_all_none fs (s : psys R) : (∀ f, f ∈ fs → f = NULL) → fref_all fs s = RRet tt s.
Proof.
  induction fs as [|f fs IH]; intros Hf; cbn [fref_all]; [done|]. rewrite (Hf f) by left. simpl. rewrite kbind_ret_l.
  apply IH. intros g Hg. apply Hf. by right.
Qed.

(** * Threads that move between queues *)

Lemma threads_move ks ks' ctx procs u k k' :
  threads ks ctx procs → ks_threads ks !! u = Some k → ks_threads ks' = <[u := k']> (ks_threads ks) →
  kt_proc k' = kt_proc k → kt_state k ≠ KT_EXITED → kt_state k' ≠ KT_EXITED → (∀ p, kt_wchan k' = Some (ProcQ p) → kt_proc k = p) →
  (∀ q, is_Some (ks_queues ks !! q) → is_Some (ks_queues ks' !! q)) → threads ks' ctx procs.
Proof.
  intros [T1 T2 T3 T4] Hu E Ep Hk Hk' Hw Hq. split.
  - intros p x Hx. destruct (T1 p x Hx) as (t & kt & HO). destruct (decide (t = u)) as [->|Htu].
    + assert (kt = k) as -> by (pose proof (ot_thread _ _ _ _ _ _ HO); congruence). exists u, k'.
      destruct HO as [O1 O2 O3 O4 O5 O6 O7]. split; rewrite ?E, ?lookup_insert_eq; try done; [congruence|naive_solver].
    + exists t, kt. eapply one_thread_frame; [exact HO|rewrite E, lookup_insert_ne by done; apply HO|done..].
  - intros t kt. rewrite E, lookup_insert. case_decide; [intros [= <-]; subst; rewrite Ep|]; eauto.
  - eauto.
  - intros t kt p. rewrite E, lookup_insert. case_decide; [intros [= <-] Hw'; rewrite Ep; eauto|eauto].
Qed.

Lemma psinv_move s c ks' u k k' :
  psinv lost s c → wf ks' → ks_threads (py_ks s) !! u = Some k → ks_threads ks' = <[u := k']> (ks_threads (py_ks s)) →
  kt_proc k' = kt_proc k → kt_state k ≠ KT_EXITED → kt_state k' ≠ KT_EXITED → (∀ p, kt_wchan k' = Some (ProcQ p) → kt_proc k = p) →
  (∀ q, is_Some (ks_queues (py_ks s) !! q) → is_Some (ks_queues ks' !! q)) → psinv lost (set_ks ks' s) c.
Proof. intros [P1 P2 P3 P4 P5 P6 P7 P8] Hwf Hu E Ep Hk Hk' Hw Hq. split; try done. simpl. by eapply threads_move. Qed.

Lemma push_queues ks q t k q' : is_Some (ks_queues ks !! q') → is_Some (ks_queues (q_push q t k ks) !! q').
Proof. intros HQ. simpl. rewrite lookup_alter. case_decide; [subst; by apply fmap_is_Some|done]. Qed.

Lemma drop_queues ks q t k q' : is_Some (ks_queues ks !! q') → is_Some (ks_queues (q_drop q t k ks) !! q').
Proof. intros HQ. simpl. rewrite lookup_alter. case_decide; [subst; by apply fmap_is_Some|done]. Qed.

(** The wake-up of the process [q], whose only thread is [u]. *)
Lemma wake_proc_run ks q Q u :
  wf ks → ks_queues ks !! ProcQ q = Some Q → (∀ t k, ks_threads ks !! t = Some k → kt_wchan k = Some (ProcQ q) → t = u) →
  (sched_wakeup_on (ProcQ q) ks = RRet None ks ∧ ∀ k, ks_threads ks !! u = Some k → kt_wchan k ≠ Some (ProcQ q)) ∨
  (∃ k, ks_threads ks !! u = Some k ∧ kt_wchan k = Some (ProcQ q) ∧ kt_state k ≠ KT_EXITED ∧
     sched_wakeup_on (ProcQ q) ks = RRet (Some u) (wake (ProcQ q) u k ks) ∧ wf (wake (ProcQ q) u k ks)).
Proof.
  intros Hwf HQ Hu. destruct (decide (tq_list Q = [])) as [E|Hne].
  - left. split; [by eapply sched_wakeup_on_empty|]. intros k Hk Hw. destruct (wf_where _ Hwf _ _ _ Hk Hw) as (Q' & HQ' & Hin).
    simplify_eq. rewrite E in Hin. by apply elem_of_nil in Hin.
  - right. destruct (exists_last Hne) as (l & t & E). destruct (sched_wakeup_on_run ks (ProcQ q) Q l t) as (k & Hk & Hw & Hrun & Hwf'); [done..|].
    assert (t = u) as -> by eauto. exists k. split_and!; try done.
    destruct (wf_on _ Hwf _ _ u HQ) as (k' & Hk' & _ & Hst); [rewrite E; set_solver|]. simplify_eq. simpl in Hst. intros E'. rewrite E' in Hst. naive_solver.
Qed.

(** * The process table after an exit *)

(** What becomes of the process at [q] when [p] exits and init, at [i], takes its
    children [cs]. *)
Definition bury (p i : positive) (cs : list positive) (q : positive) (w : proc) : proc :=
  if decide (q = p) then set_pstate 0 PROC_DEAD (set_children [] w)
  else if decide (q = i) then set_children (p_children w ++ cs) w
  else if decide (q ∈ cs) then set_pproc (Some i) w else w.
Definition buried (p i : positive) (cs : list positive) (procs : gmap positive proc) : gmap positive proc :=
  map_imap (λ q w, Some (bury p i cs q w)) procs.

Lemma lookup_buried p i cs procs q : buried p i cs procs !! q = bury p i cs q <$> procs !! q.
Proof. unfold buried. rewrite map_lookup_imap. by destruct (procs !! q). Qed.

Lemma buried_adopted p i cs procs x :
  procs !! p = Some x → <[p := set_pstate 0 PROC_DEAD (set_children [] x)]> (adopted p i cs procs) = buried p i cs procs.
Proof.
  intros Hx. apply fin_maps.map_eq. intros q. rewrite lookup_buried, lookup_insert, lookup_adopted. unfold bury.
  case_decide; [subst; rewrite Hx; simpl; by case_decide|]. destruct (procs !! q); [|done]. cbn [fmap option_fmap option_map].
  f_equal. by repeat case_decide.
Qed.

Lemma bury_fields p i cs q w :
  p_pid (bury p i cs q w) = p_pid w ∧ p_threads (bury p i cs q w) = p_threads w ∧ p_pagedir (bury p i cs q w) = p_pagedir w ∧
  p_files (bury p i cs q w) = p_files w ∧ p_vmmap (bury p i cs q w) = p_vmmap w.
Proof. unfold bury. by repeat case_decide. Qed.

(** A process other than [p] keeps its state and its children. *)
Lemma bury_other p i cs q w : q ≠ p → p_state (bury p i cs q w) = p_state w ∧ p_children w ⊆ p_children (bury p i cs q w).
Proof. intros Hq. unfold bury. repeat case_decide; simpl; set_solver. Qed.

Section Tree.
Context (procs : gmap positive proc) (i p : positive) (x : proc).
Hypothesis Htree : tree procs (Some i).
Hypothesis Hx : procs !! p = Some x.
Hypothesis Hidle : p_pid x ≠ PID_IDLE.
Hypothesis Hinit : p_pid x ≠ PID_INIT.

Lemma init_facts : ∃ xi z y, procs !! i = Some xi ∧ p_pid xi = PID_INIT ∧ p_state xi = PROC_RUNNING ∧ p_pproc xi = Some z ∧
  procs !! z = Some y ∧ p_pid y = PID_IDLE ∧ p_state y = PROC_RUNNING ∧ i ≠ p ∧ z ≠ p ∧ z ≠ i ∧ i ∉ p_children x ∧ z ∉ p_children x.
Proof.
  destruct (tr_init _ _ Htree) as (i' & xi & z & y & [= <-] & Hi & Hip & His & Hiz & Hz & Hzp & Hzs).
  exists xi, z, y. split_and!; try done; [congruence|congruence| | |].
  - intros ->. simplify_eq. unfold PID_INIT, PID_IDLE in *. congruence.
  - intros Hc. destruct (tr_children _ _ Htree _ _ _ Hx Hc) as (w & ? & ? & _). simplify_eq.
  - intros Hc. destruct (tr_children _ _ Htree _ _ _ Hx Hc) as (w & ? & ? & ? & _). simplify_eq.
Qed.

Lemma self_child : p ∉ p_children x.
Proof. intros Hc. by destruct (tr_children _ _ Htree _ _ _ Hx Hc) as (w & _ & _ & _ & []). Qed.

Abbreviation T' := (buried p i (p_children x) procs).

Lemma buried_inv q w' : T' !! q = Some w' → ∃ w, procs !! q = Some w ∧ w' = bury p i (p_children x) q w.
Proof. rewrite lookup_buried. destruct (procs !! q); [|done]. intros [= <-]. eauto. Qed.

Lemma buried_of q w : procs !! q = Some w → T' !! q = Some (bury p i (p_children x) q w).
Proof. intros Hq. by rewrite lookup_buried, Hq. Qed.

Lemma exit_parent q w : procs !! q = Some w → p_pid w ≠ PID_IDLE →
  ∃ r v, p_pproc (bury p i (p_children x) q w) = Some r ∧ T' !! r = Some v ∧ q ∈ p_children v ∧ p_state v = PROC_RUNNING.
Proof.
  intros Hq Hne. destruct init_facts as (xi & z & y & Hi & _ & His & _ & _ & _ & _ & Hip & _ & _ & Hic & _).
  destruct (tr_parent _ _ Htree _ _ Hq Hne) as (r & v & Hr & Hv & Hin & Hst). destruct (decide (q ∈ p_children x)) as [Hc|Hc].
  - exists i. eexists. assert (q ≠ i) by congruence. assert (q ≠ p) by (intros ->; by apply self_child).
    split_and!; [|by apply buried_of| |].
    + unfold bury. by repeat case_decide.
    + unfold bury. repeat case_decide; try done. simpl. set_solver.
    + by rewrite (proj1 (bury_other p i (p_children x) i xi Hip)).
  - exists r. eexists. assert (Hrp : r ≠ p) by (intros ->; by simplify_eq).
    split_and!; [|by apply buried_of|by apply bury_other|by rewrite (proj1 (bury_other p i (p_children x) r v Hrp))].
    unfold bury. by repeat case_decide.
Qed.

Lemma exit_children q w c : procs !! q = Some w → c ∈ p_children (bury p i (p_children x) q w) →
  ∃ v, T' !! c = Some v ∧ p_pproc v = Some q ∧ p_pid v ≠ PID_IDLE ∧ c ≠ q.
Proof.
  intros Hq Hc. destruct init_facts as (xi & z & y & Hi & _ & _ & _ & _ & _ & _ & Hip & _ & _ & Hic & _).
  assert (Hold : q ≠ p → c ∈ p_children w → ∃ v, T' !! c = Some v ∧ p_pproc v = Some q ∧ p_pid v ≠ PID_IDLE ∧ c ≠ q).
  { intros Hqp Hcw. destruct (tr_children _ _ Htree _ _ _ Hq Hcw) as (v & Hv & Hpv & Hnv & Hcq).
    eexists. split_and!; [by apply buried_of| |by rewrite (proj1 (bury_fields _ _ _ _ _))|done].
    assert (c ∉ p_children x). { intros Hcx. destruct (tr_children _ _ Htree _ _ _ Hx Hcx) as (v' & ? & ? & _). by simplify_eq. }
    unfold bury. by repeat case_decide. }
  unfold bury in Hc. destruct (decide (q = p)) as [->|Hqp]; [by apply elem_of_nil in Hc|]. destruct (decide (q = i)) as [->|Hqi].
  - simpl in Hc. apply elem_of_app in Hc as [Hc|Hc]; [by apply Hold|].
    destruct (tr_children _ _ Htree _ _ _ Hx Hc) as (v & Hv & _ & Hnv & Hcp). assert (c ≠ i) by congruence.
    eexists. split_and!; [by apply buried_of| |by rewrite (proj1 (bury_fields _ _ _ _ _))|done]. unfold bury. by repeat case_decide.
  - apply Hold; [done|]. by destruct (decide (q ∈ p_children x)).
Qed.

Lemma exit_nodup q w : procs !! q = Some w → NoDup (p_children (bury p i (p_children x) q w)).
Proof.
  intros Hq. destruct init_facts as (xi & z & y & Hi & _ & _ & _ & _ & _ & _ & Hip & _).
  pose proof (tr_nodup _ _ Htree _ _ Hq) as Hn. unfold bury. repeat case_decide; simpl; [constructor| |done|done]. subst q.
  apply NoDup_app. split_and!; [done| |by eapply tr_nodup]. intros c Hc1 Hc2.
  destruct (tr_children _ _ Htree _ _ _ Hq Hc1) as (v & ? & ? & _), (tr_children _ _ Htree _ _ _ Hx Hc2) as (v' & ? & ? & _). by simplify_eq.
Qed.

Lemma tree_exit : tree T' (Some i).
Proof.
  split.
  - intros q w' (w & Hw & ->)%buried_inv. rewrite (proj1 (bury_fields _ _ _ _ _)). by eapply tr_pid.
  - intros q1 q2 w1 w2 (v1 & Hv1 & ->)%buried_inv (v2 & Hv2 & ->)%buried_inv. rewrite !(proj1 (bury_fields _ _ _ _ _)). by eapply tr_pids.
  - destruct init_facts as (xi & z & y & Hi & Hii & His & Hiz & Hz & Hzi & Hzs & Hip & Hzp & Hzni & _ & Hzc).
    eexists i, _, z, _. split_and!; [done|by apply buried_of|by rewrite (proj1 (bury_fields _ _ _ _ _))| | |by apply buried_of
      |by rewrite (proj1 (bury_fields _ _ _ _ _))|]; unfold bury; by repeat case_decide.
  - intros q w' (w & Hw & ->)%buried_inv. rewrite (proj1 (bury_fields _ _ _ _ _)). by apply exit_parent.
  - intros q w' c (w & Hw & ->)%buried_inv. by apply exit_children.
  - intros q w' (w & Hw & ->)%buried_inv. by apply exit_nodup.
  - intros q w' (w & Hw & ->)%buried_inv. destruct init_facts as (xi & z & y & Hi & _ & His & _).
    destruct (decide (q = p)) as [->|Hqp]; [unfold bury; by rewrite decide_True|]. rewrite (proj1 (bury_other p i (p_children x) q w Hqp)). intros Hd.
    destruct (tr_dead _ _ Htree _ _ Hw Hd). assert (q ≠ i) by congruence. unfold bury. by repeat case_decide.
Qed.
End Tree.

(** * Exit *)

(** The thread [t] of the process [p] runs. *)
Record on_cpu (s : psys R) (p : positive) (x : proc) (t : positive) (k : kthread) : Prop := {
  oc_curproc : ks_curproc (py_ks s) = Some p;
  oc_curthr : ks_curthr (py_ks s) = Some t;
  oc_proc : py_procs s !! p = Some x;
  oc_state : p_state x = PROC_RUNNING;
  oc_thread : ks_threads (py_ks s) !! t = Some k;
  oc_owner : kt_proc k = p;
  oc_wchan : kt_wchan k = None
}.

Lemma on_cpu_alive s c p x t k : psinv lost s c → on_cpu s p x t k → kt_state k ≠ KT_EXITED ∧ p_threads x = [t].
Proof.
  intros Hs [Hc Ht Hx Hst Hk Hkp Hw]. destruct (th_proc _ _ _ (pv_threads Hs) _ _ Hx) as (u & ku & [O1 O2 _ _ _ O6 _]).
  destruct (th_thread _ _ _ (pv_threads Hs) _ _ Hk) as (x' & Hx' & Et). rewrite Hkp, Hx in Hx'. injection Hx' as <-. split; [|done].
  assert (u = t) as -> by congruence. assert (ku = k) as -> by congruence. intros He%O6. congruence.
Qed.

Definition exited_thread (retval : Z) (k : kthread) : kthread :=
  KThread retval (kt_proc k) (kt_cancelled k) (kt_wchan k) KT_EXITED (kt_qlink k).

(** What a wake-up of the process [q] does. *)
Definition woken (ks : kstate) (q : positive) (ks' : kstate) : Prop :=
  (ks' = ks ∧ ∀ u k, ks_threads ks !! u = Some k → kt_wchan k ≠ Some (ProcQ q)) ∨
  (∃ u k, ks_threads ks !! u = Some k ∧ kt_wchan k = Some (ProcQ q) ∧ ks' = wake (ProcQ q) u k ks).

Definition after_exit (s : psys R) (p i : positive) (x : proc) (ks : kstate) : psys R :=
  Psys (with_ks ks (py_vfs s)) (buried p i (p_children x) (py_procs s)) (py_list s) (py_initproc s) (py_next_pid s)
    (py_proc_allocator s) (py_kthread_allocator s) (py_vmmap_allocator s) (py_ctx s).

Lemma threads_exit ks ctx procs p x i t k r :
  threads ks ctx procs → procs !! p = Some x → ks_threads ks !! t = Some k → kt_proc k = p → kt_wchan k = None →
  threads (set_threads <[t := exited_thread r k]> ks) ctx (buried p i (p_children x) procs).
Proof.
  intros [T1 T2 T3 T4] Hx Hk Hkp Hw. destruct (T2 _ _ Hk) as (x' & Hx' & Et). rewrite Hkp in Hx'. simplify_eq. split.
  - intros q w'. rewrite lookup_buried. destruct (procs !! q) as [w|] eqn:Hq; [|done]. intros [= <-].
    destruct (T1 q w Hq) as (u & ku & HO). destruct (decide (q = kt_proc k)) as [->|Hqp].
    + simplify_eq. destruct HO as [O1 O2 O3 O4 O5 O6 O7]. assert (u = t) as -> by congruence. assert (ku = k) as -> by congruence.
      exists t, (exited_thread r k).
      unfold bury. rewrite decide_True by done. split; try done. apply lookup_insert_eq.
    + exists u, ku. assert (u ≠ t) by (intros ->; destruct HO; congruence).
      destruct (bury_fields (kt_proc k) i (p_children x) q w) as (_ & Eth & Edir & _).
      eapply one_thread_frame; [exact HO|simpl; rewrite lookup_insert_ne by done; apply HO|done|done|done|].
      unfold bury. by repeat case_decide.
  - intros u ku. simpl. rewrite lookup_insert. assert (Hgen : ∀ q w, procs !! q = Some w → p_threads w = [u] →
      ∃ w', buried (kt_proc k) i (p_children x) procs !! q = Some w' ∧ p_threads w' = [u]).
    { intros q w Hq Hu. rewrite lookup_buried, Hq. eexists. split; [done|]. by rewrite (proj1 (proj2 (bury_fields _ _ _ _ _))). }
    case_decide; [intros [= <-]; subst; by eapply Hgen|]. intros Hu. destruct (T2 _ _ Hu) as (w & Hw' & Ew). by eapply Hgen.
  - intros q w'. rewrite lookup_buried. destruct (procs !! q) as [w|] eqn:Hq; [|done]. intros _. simpl. eauto.
  - intros u ku q. simpl. rewrite lookup_insert. case_decide; [intros [= <-]; simpl; congruence|eauto].
Qed.

Lemma held_exit s p i x ks : held (after_exit s p i x ks) = held s.
Proof.
  rewrite !held_res_of. simpl. apply bind_ext_in. intros q _. unfold res_of. rewrite lookup_buried. destruct (py_procs s !! q) as [w|]; [|done].
  simpl. unfold proc_res. by destruct (bury_fields p i (p_children x) q w) as (_ & -> & -> & _ & ->).
Qed.

Lemma psinv_exit s c p x t k i ks r :
  psinv lost s c → on_cpu s p x t k → p_pid x ≠ PID_IDLE → p_pid x ≠ PID_INIT → py_initproc s = Some i →
  ks = set_threads <[t := exited_thread r k]> (py_ks s) → psinv lost (after_exit s p i x ks) c.
Proof.
  intros Hs [_ _ Hx Hst Hk Hkp Hw] Hni Hnn Hi ->. split.
  - apply wf_set_thread; [apply Hs|by intros; simplify_eq|done|]. simpl. by rewrite (wf_qlink _ (pv_wf Hs) _ _ Hk).
  - apply Hs.
  - intros q. simpl. rewrite (pv_list Hs), lookup_buried. symmetry. apply fmap_is_Some.
  - apply Hs.
  - simpl. rewrite Hi. apply tree_exit; try done. rewrite <- Hi. apply Hs.
  - by apply threads_exit; [apply Hs|..].
  - intros q w f. simpl. rewrite lookup_buried. destruct (py_procs s !! q) as [y|] eqn:Hq; [|done]. intros [= <-].
    rewrite (proj1 (proj2 (proj2 (proj2 (bury_fields _ _ _ _ _))))). by eapply (pv_files Hs).
  - rewrite held_exit. apply (pv_mem Hs).
Qed.

Lemma set_ks_id (s : psys R) : set_ks (py_ks s) s = s.
Proof. destruct s as [v]. unfold set_ks, py_ks. simpl. by destruct v. Qed.

Lemma switch_next {A} (k : kM (psys R) A) s : ∃ k', (sched_call sched_switch ;;; k) s = RSwitch s k' ∧ ∀ s', k' s' = k s'.
Proof.
  eexists. unfold sched_call, klift, sched_switch, kswitch, kbind. simpl. rewrite set_ks_id. split; [done|]. intros s'. simpl. by rewrite set_ks_id.
Qed.

Lemma set_ks_after_exit s p i x ks ks' : set_ks ks' (after_exit s p i x ks) = after_exit s p i x ks'.
Proof. done. Qed.

Lemma wake_parent_run s c p x t k i q r :
  psinv lost s c → on_cpu s p x t k → p_pid x ≠ PID_IDLE → p_pid x ≠ PID_INIT → py_initproc s = Some i → p_pproc x = Some q → let ks := set_threads <[t := exited_thread r k]> (py_ks s) in
  ∃ w ks', sched_wakeup_on (ProcQ q) ks = RRet w ks' ∧ woken ks q ks' ∧ psinv lost (after_exit s p i x ks') c.
Proof.
  intros Hs Hcpu Hni Hnn Hi Hq ks. pose proof (psinv_exit s c p x t k i ks r Hs Hcpu Hni Hnn Hi eq_refl) as Hs'.
  assert (HP : ∃ y, py_procs (after_exit s p i x ks) !! q = Some y).
  { destruct (tr_parent _ _ (pv_tree Hs) _ _ (oc_proc _ _ _ _ _ Hcpu) Hni) as (q' & y & Hq' & Hy & _). simplify_eq.
    eexists. simpl. by rewrite lookup_buried, Hy. }
  destruct HP as (y & Hy). destruct (th_queue _ _ _ (pv_threads Hs') _ _ Hy) as (Q & HQ).
  destruct (th_proc _ _ _ (pv_threads Hs') _ _ Hy) as (u & ku & HO).
  assert (Hu : ∀ t' k', ks_threads ks !! t' = Some k' → kt_wchan k' = Some (ProcQ q) → t' = u).
  { intros t' k' Hk' Hw'. pose proof (th_wait _ _ _ (pv_threads Hs') _ _ _ Hk' Hw') as E.
    destruct (th_thread _ _ _ (pv_threads Hs') _ _ Hk') as (y' & Hy' & Et). rewrite E, Hy in Hy'. injection Hy' as <-.
    pose proof (ot_list _ _ _ _ _ _ HO). congruence. }
  destruct (wake_proc_run ks q Q u (pv_wf Hs') HQ Hu) as [[E Hno]|(k' & Hk' & Hw' & Hne & E & Hwf)].
  - exists None, ks. split_and!; [done| |done]. left. split; [done|]. intros u' k' Hk' Hw'. assert (u' = u) as -> by eauto. by eapply Hno.
  - exists (Some u), (wake (ProcQ q) u k' ks). split_and!; [done|right; eauto|]. rewrite <- (set_ks_after_exit _ _ _ _ ks).
    eapply (psinv_move _ _ _ u k'); [exact Hs'|exact Hwf|exact Hk'|simpl; by rewrite insert_insert_eq|done|done|done|done|].
    intros q' Hq'. by apply push_queues, drop_queues.
Qed.

(** proc_cleanup in a process whose thread has been marked, up to the switch. *)
Lemma proc_cleanup_run s c p x t k r status :
  psinv lost s c → on_cpu s p x t k → p_pid x ≠ PID_IDLE → p_pid x ≠ PID_INIT →
  let ks := set_threads <[t := exited_thread r k]> (py_ks s) in
  ∃ i q ks' kont, py_initproc s = Some i ∧ p_pproc x = Some q ∧ woken ks q ks' ∧
    proc_cleanup status (set_ks ks s) = RSwitch (after_exit s p i x ks') kont ∧ psinv lost (after_exit s p i x ks') c.
Proof.
  intros Hs Hcpu Hni Hnn ks. pose proof Hcpu as [Hc Ht Hx Hst Hk Hkp Hw].
  destruct (tr_init _ _ (pv_tree Hs)) as (i & _ & _ & _ & Hi & _). destruct (tr_parent _ _ (pv_tree Hs) _ _ Hx Hni) as (q & _ & Hq & _).
  pose proof (pv_tree Hs) as HT. rewrite Hi in HT. pose proof (tr_pid _ _ HT _ _ Hx).
  destruct (init_facts _ _ _ _ HT Hx Hni Hnn) as (xi & z & y & Hxi & _ & _ & _ & _ & _ & _ & Hip & _ & _ & Hic & _).
  pose proof (fref_all_none (p_files x) (upd_procs (buried p i (p_children x)) (set_ks ks s)) (λ f, pv_files Hs p x f Hx)) as Ef.
  destruct (wake_parent_run s c p x t k i q r Hs Hcpu Hni Hnn Hi Hq) as (w & ks' & Ew & Hwk & Hs').
  unfold proc_cleanup. rewrite kget_next, kassert_next by (simpl; by rewrite Hi). rewrite (curproc_next p) by done.
  rewrite (get_proc_next _ x) by done. rewrite kassert_next by (unfold PID_IDLE in *; lia). rewrite kassert_next by (by rewrite Hq).
  rewrite (kderef_next _ i) by done. rewrite bool_decide_eq_true_2 by done.
  rewrite (kbind_of_ret _ _ _ _ _ (reparent_run (p_children x) p i x (set_ks ks s) Hx eq_refl (not_eq_sym Hip) (tr_nodup _ _ HT _ _ Hx)
    (self_child _ _ _ _ HT Hx) Hic (mk_is_Some _ _ Hxi) ltac:(intros d Hd; destruct (tr_children _ _ HT _ _ _ Hx Hd) as (? & ? & _); eauto))).
  rewrite (upd_proc_next _ _ (set_children [] x)) by (simpl; rewrite lookup_adopted, Hx; simpl; by rewrite decide_True).
  match goal with |- context [kbind _ _ ?S0] => replace S0 with (upd_procs (buried p i (p_children x)) (set_ks ks s)) by
    (unfold upd_procs; simpl; by rewrite (buried_adopted _ _ _ _ x)) end.
  rewrite (kbind_of_ret _ _ _ _ _ Ef), (proj2 (Z.eqb_neq _ _) Hni), (proj2 (Z.eqb_neq _ _) Hnn). cbn [orb]. rewrite kbind_ret_l.
  rewrite (get_proc_next _ (bury p i (p_children x) p x)) by (simpl; by rewrite lookup_buried, Hx).
  rewrite (kderef_next _ q) by (unfold bury; by rewrite decide_True). erewrite sched_next by exact Ew.
  match goal with |- context [kbind _ ?K ?S0] => destruct (switch_next (K tt) S0) as (kont & Ek & _) end.
  exists i, q, ks', kont. split_and!; [done|done|done|exact Ek|exact Hs'].
Qed.

Lemma upd_thread_run ks t k f : ks_threads ks !! t = Some k → upd_thread t f ks = RRet tt (set_threads <[t := f k]> ks).
Proof. intros Hk. unfold upd_thread, get_thread, kbind, kget, kderef, kmodify. simpl. by rewrite Hk. Qed.

Lemma get_thread_run ks t k : ks_threads ks !! t = Some k → get_thread t ks = RRet k ks.
Proof. intros Hk. unfold get_thread, kbind, kget, kderef. simpl. by rewrite Hk. Qed.

Lemma set_threads_twice t k1 k2 ks : set_threads <[t := k2]> (set_threads <[t := k1]> ks) = set_threads <[t := k2]> ks.
Proof. unfold set_threads. simpl. by rewrite insert_insert_eq. Qed.

(** [c] makes the current process a zombie and gives up the processor. *)
Definition exits {A} (m : kM (psys R) A) (s : psys R) (c : Z) (p : positive) (x : proc) (t : positive) (k : kthread) (r : Z) : Prop :=
  ∃ i q ks kont, py_initproc s = Some i ∧ p_pproc x = Some q ∧
    woken (set_threads <[t := exited_thread r k]> (py_ks s)) q ks ∧
    m s = RSwitch (after_exit s p i x ks) kont ∧ psinv lost (after_exit s p i x ks) c.

Lemma kthread_exit_run s c p x t k r :
  psinv lost s c → on_cpu s p x t k → p_pid x ≠ PID_IDLE → p_pid x ≠ PID_INIT → exits (kthread_exit r) s c p x t k r.
Proof.
  intros Hs Hcpu Hni Hnn. pose proof Hcpu as [Hc Ht Hx Hst Hk Hkp Hw]. unfold exits, kthread_exit.
  destruct (proc_cleanup_run s c p x t k r r Hs Hcpu Hni Hnn) as (i & q & ks & kont & Hi & Hq & Hwk & E & Hs').
  exists i, q, ks, kont. split_and!; try done. rewrite (curthr_next t) by done.
  erewrite sched_next by (apply upd_thread_run; exact Hk). erewrite sched_next by (apply upd_thread_run; apply lookup_insert_eq).
  erewrite sched_next by (apply get_thread_run; apply lookup_insert_eq).
  rewrite kassert_next by (simpl; by rewrite Hw). rewrite kassert_next by (simpl; by rewrite (wf_qlink _ (pv_wf Hs) _ _ Hk), Hw).
  rewrite kget_next, kassert_next by (apply bool_decide_eq_true_2; simpl; by rewrite Hkp).
  unfold proc_thread_exited. rewrite <- E. f_equal. unfold set_ks, set_threads. simpl. by rewrite !insert_insert_eq.
Qed.

Lemma do_exit_run s c p x t k status :
  psinv lost s c → on_cpu s p x t k → p_pid x ≠ PID_IDLE → p_pid x ≠ PID_INIT → exits (do_exit status) s c p x t k 0.
Proof.
  intros Hs Hcpu Hni Hnn. pose proof Hcpu as [Hc Ht Hx Hst Hk Hkp Hw].
  set (k0 := KThread 0 (kt_proc k) (kt_cancelled k) (kt_wchan k) (kt_state k) (kt_qlink k)).
  set (ks0 := set_threads <[t := k0]> (py_ks s)).
  destruct (on_cpu_alive _ _ _ _ _ _ Hs Hcpu) as [Hne _].
  assert (Hs0 : psinv lost (set_ks ks0 s) c).
  { eapply (psinv_move s c ks0 t k k0); try done; [|by simpl; rewrite Hw]. by eapply wf_same_place; [apply Hs|..]. }
  destruct (kthread_exit_run (set_ks ks0 s) c p x t k0 0 Hs0) as (i & q & ks & kont & Hi & Hq & Hwk & E & Hs');
    [split; try done; apply lookup_insert_eq|done|done|].
  unfold exits, do_exit. exists i, q, ks. eexists. split_and!; [done|done| | |exact Hs'].
  - change (py_ks (set_ks ks0 s)) with ks0 in Hwk. unfold ks0 in Hwk. by rewrite set_threads_twice in Hwk.
  - rewrite (curthr_next t) by done. unfold kthread_cancel. rewrite kget_next, bool_decide_eq_true_2 by done.
    erewrite sched_next by (apply upd_thread_run; exact Hk). unfold kbind. fold k0. fold ks0. rewrite E. reflexivity.
Qed.

(** * Disposing of a dead child *)

Definition disposed (s : psys R) (cur : positive) (y : proc) (child u : positive) (r : R) : psys R :=
  Psys (with_ks (set_threads (delete u) (py_ks s)) (with_mem r (py_vfs s)))
    (delete child (<[cur := set_children (filter (.≠ child) (p_children y)) y]> (py_procs s))) (filter (.≠ child) (py_list s))
    (py_initproc s) (py_next_pid s) (py_proc_allocator s) (py_kthread_allocator s) (py_vmmap_allocator s) (delete u (py_ctx s)).

Lemma tree_dispose procs i cur y child x :
  tree procs i → procs !! cur = Some y → p_state y = PROC_RUNNING → procs !! child = Some x → p_state x = PROC_DEAD →
  child ∈ p_children y → tree (delete child (<[cur := set_children (filter (.≠ child) (p_children y)) y]> procs)) i.
Proof.
  intros [T1 T2 (j & xi & z & xz & -> & Hj & Hji & Hjs & Hjz & Hz & Hzi & Hzs) T5 T6 T7 T8] Hc Hst Hx Hd Hin.
  assert (Hne : child ≠ cur) by congruence.
  set (P := delete child _). assert (L : ∀ q w, P !! q = Some w → q ≠ child ∧ ∃ v, procs !! q = Some v ∧ w = if decide (q = cur) then
    set_children (filter (.≠ child) (p_children y)) y else v).
  { intros q w. unfold P. rewrite lookup_delete_Some, lookup_insert. intros [? Hw]. split; [done|].
    case_decide; subst; [injection Hw as <-; exists y; by rewrite decide_True|exists w; by rewrite decide_False]. }
  assert (K : ∀ q w, procs !! q = Some w → q ≠ child → ∃ w', P !! q = Some w' ∧ p_pid w' = p_pid w ∧ p_state w' = p_state w ∧
    p_pproc w' = p_pproc w ∧ ∀ d, d ∈ p_children w → d ≠ child → d ∈ p_children w').
  { intros q w Hw Hq. unfold P. rewrite lookup_delete_ne, lookup_insert by done. case_decide; [subst; simplify_eq|eauto 10].
    eexists. split_and!; [done..|]. intros d Hd1 Hd2. simpl. by apply list_elem_of_filter. }
  assert (F : ∀ q w, P !! q = Some w → q ≠ child ∧ ∃ v, procs !! q = Some v ∧ p_pid w = p_pid v ∧ p_state w = p_state v ∧
    p_pproc w = p_pproc v ∧ p_status w = p_status v).
  { intros q w (Hq & v & Hv & ->)%L. split; [done|]. exists v. case_decide; [subst; by simplify_eq|done]. }
  split.
  - intros q w (_ & v & Hv & -> & _)%F. eauto.
  - intros q1 q2 w1 w2 (_ & v1 & Hv1 & -> & _)%F (_ & v2 & Hv2 & -> & _)%F. eauto.
  - destruct (K _ _ Hj) as (w & ? & ? & ? & ? & _); [congruence|]. destruct (K _ _ Hz) as (w' & ? & ? & ? & _); [congruence|].
    exists j, w, z, w'. split_and!; congruence.
  - intros q w (Hq & v & Hv & Ep & _ & Epp & _)%F Hni. rewrite Ep in Hni. destruct (T5 _ _ Hv Hni) as (r & vr & Hr & Hvr & Hqr & Hrs).
    destruct (K _ _ Hvr) as (w' & ? & _ & ? & _ & Hch); [congruence|]. exists r, w'. split_and!; [congruence|done|by apply Hch|congruence].
  - intros q w d (Hq & v & Hv & ->)%L Hdw.
    assert (d ∈ p_children v ∧ d ≠ child) as [Hdv Hdc].
    { case_decide; [subst; simplify_eq; simpl in Hdw; by apply list_elem_of_filter in Hdw as [??]|]. split; [done|]. intros ->.
      destruct (T6 _ _ _ Hv Hdw) as (? & ? & ? & _), (T6 _ _ _ Hc Hin) as (? & ? & ? & _). simplify_eq. }
    destruct (T6 _ _ _ Hv Hdv) as (vd & Hvd & ? & ? & ?). destruct (K _ _ Hvd Hdc) as (w' & ? & ? & ? & ? & _). exists w'. split_and!; congruence.
  - intros q w (Hq & v & Hv & ->)%L. case_decide; [simpl; apply NoDup_filter|]; eauto.
  - intros q w (Hq & v & Hv & ->)%L. case_decide; [simpl; congruence|]. eauto.
Qed.

Lemma threads_dispose ks ctx procs cur y child x u k :
  threads ks ctx procs → procs !! cur = Some y → procs !! child = Some x → child ≠ cur → p_threads x = [u] → ks_threads ks !! u = Some k →
  threads (set_threads (delete u) ks) (delete u ctx) (delete child (<[cur := set_children (filter (.≠ child) (p_children y)) y]> procs)).
Proof.
  intros [T1 T2 T3 T4] Hc Hx Hne Hu Hk. assert (Hku : kt_proc k = child).
  { destruct (T1 _ _ Hx) as (u' & k' & [O1 O2 O3 _ _ _ _]). congruence. }
  split.
  - intros q w. rewrite lookup_delete_Some, lookup_insert. intros [Hq Hw].
    assert (Hv : ∃ v, procs !! q = Some v ∧ p_threads w = p_threads v ∧ p_pagedir w = p_pagedir v ∧ p_state w = p_state v).
    { case_decide; [subst; injection Hw as <-|]; eauto. }
    destruct Hv as (v & Hv & E1 & E2 & E3). destruct (T1 _ _ Hv) as (t & kt & HO). exists t, kt.
    assert (t ≠ u) by (intros ->; pose proof (ot_thread _ _ _ _ _ _ HO); pose proof (ot_proc _ _ _ _ _ _ HO); congruence).
    eapply one_thread_frame; [exact HO|simpl; rewrite lookup_delete_ne by done; apply HO|by rewrite lookup_delete_ne|done..].
  - intros t kt. simpl. rewrite lookup_delete_Some. intros [Htu Ht]. destruct (T2 _ _ Ht) as (w & Hw & Et).
    assert (kt_proc kt ≠ child) by (intros E; rewrite E in Hw; congruence). rewrite lookup_delete_ne, lookup_insert by done.
    case_decide as E; [|eauto]. rewrite <- E, Hc in Hw. injection Hw as <-. eauto.
  - intros q w. rewrite lookup_delete_Some, lookup_insert. simpl. intros [_ Hw]. case_decide; [subst; by eapply T3|eauto].
  - intros t kt q. simpl. rewrite lookup_delete_Some. intros [_ Ht]. eauto.
Qed.

Lemma wf_delete ks u k : wf ks → ks_threads ks !! u = Some k → kt_wchan k = None → wf (set_threads (delete u) ks).
Proof.
  intros [W1 W2 W3 W4 W5] Hu Hw. split; simpl; [done| | | |done].
  - intros q Q t HQ Ht. destruct (W2 _ _ _ HQ Ht) as (kt & Hkt & Hwt & ?). exists kt. rewrite lookup_delete_ne by (intros ->; congruence). done.
  - intros t kt. rewrite lookup_delete_Some. intros [_ ?]. eauto.
  - intros t kt q. rewrite lookup_delete_Some. intros [_ ?]. eauto.
Qed.

(** What the dead child [child] with the thread [u] held. *)
Lemma held_dispose s c cur y child x u k cx r :
  psinv lost s c → py_procs s !! cur = Some y → py_procs s !! child = Some x → child ≠ cur → p_threads x = [u] →
  ks_threads (py_ks s) !! u = Some k → py_ctx s !! u = Some cx →
  held s ≡ₚ RPages STACK_PAGES (c_kstack cx) :: RObj sizeof_kthread (Zpos u) :: RDir (p_pagedir x) :: RObj sizeof_proc (Zpos child) ::
    held (disposed s cur y child u r) ++ map_res (p_vmmap x).
Proof.
  intros Hs Hc Hx Hne Hu Hk Hcx. rewrite !held_res_of. simpl.
  assert (Hin : child ∈ py_list s) by (apply (pv_list Hs); eauto). pose proof (pv_nodup Hs) as Hnd.
  apply list_elem_of_split in Hin as (l1 & l2 & El). rewrite El in Hnd |- *. rewrite <- Permutation_middle in Hnd. apply NoDup_cons in Hnd as [Hn _].
  rewrite filter_ne_split by set_solver. rewrite !bind_app, bind_cons.
  assert (Hsame : ∀ l, l ⊆ l1 ++ l2 → l ≫= res_of (delete child (<[cur := set_children (filter (.≠ child) (p_children y)) y]> (py_procs s))) (delete u (py_ctx s))
    = l ≫= res_of (py_procs s) (py_ctx s)).
  { intros l Hl. apply bind_ext_in. intros q Hq. assert (Hqc : q ≠ child) by (intros ->; by apply Hn, Hl).
    assert (is_Some (py_procs s !! q)) as [w Hw] by (apply (pv_list Hs); rewrite El; specialize (Hl q Hq); set_solver).
    assert (Hctx : ∀ t, t ∈ p_threads w → delete u (py_ctx s) !! t = py_ctx s !! t).
    { intros t Ht. destruct (th_proc _ _ _ (pv_threads Hs) _ _ Hw) as (t' & kt & [O1 O2 O3 _ _ _ _]). rewrite O1 in Ht.
      apply list_elem_of_singleton in Ht as ->. destruct (th_proc _ _ _ (pv_threads Hs) _ _ Hx) as (u' & ku & [U1 U2 U3 _ _ _ _]).
      apply lookup_delete_ne. intros ->. congruence. }
    destruct (decide (q = cur)) as [->|].
    - rewrite Hc in Hw. injection Hw as <-. eapply res_of_same; [exact Hc|by rewrite lookup_delete_ne, lookup_insert_eq|done..].
    - eapply res_of_same; [exact Hw|by rewrite lookup_delete_ne, lookup_insert_ne|done..]. }
  rewrite !Hsame by set_solver. unfold res_of at 2, proc_res, thread_res. rewrite Hx, Hu, bind_cons, Hcx. simpl. solve_Permutation.
Qed.

Lemma psinv_disposed s c cur y t kt child x u k cx r :
  psinv lost s c → on_cpu s cur y t kt → child ∈ p_children y → py_procs s !! child = Some x → p_state x = PROC_DEAD → p_threads x = [u] →
  ks_threads (py_ks s) !! u = Some k → kt_wchan k = None → py_ctx s !! u = Some cx →
  mem_ok (p_vmmap x :: lost) (disposed s cur y child u r) c (held (disposed s cur y child u r)) →
  psinv (p_vmmap x :: lost) (disposed s cur y child u r) c.
Proof.
  intros Hs [_ _ Hy Hst _ _ _] Hin Hx Hd Hu Hk Hw Hcx Hm. assert (Hne : child ≠ cur) by congruence. split.
  - by eapply wf_delete; [apply Hs|..].
  - apply NoDup_filter, Hs.
  - intros q. simpl. rewrite list_elem_of_filter, (pv_list Hs), lookup_delete_is_Some, lookup_insert_is_Some'. naive_solver.
  - apply Hs.
  - simpl. by eapply tree_dispose; [apply Hs|..].
  - simpl. by eapply threads_dispose; [apply Hs|..].
  - intros q w f. simpl. rewrite lookup_delete_Some, lookup_insert. intros [_ Hw']. case_decide; [injection Hw' as <-; exact (pv_files Hs cur y f Hy)|by eapply (pv_files Hs)].
  - exact Hm.
Qed.

(** A map that is no longer held is lost. *)
Lemma mem_lose s c B m : mem_ok lost s c (B ++ map_res m) → mem_ok (m :: lost) s c B.
Proof. intros (A & Hr & ?). exists A. split; [|done]. by rewrite bind_cons, app_assoc. Qed.

(** ** The run *)

Lemma kthread_destroy_run s c B t k cx x :
  mem_ok lost s c (RPages STACK_PAGES (c_kstack cx) :: RObj sizeof_kthread (Zpos t) :: B) → py_ctx s !! t = Some cx → c_kstack cx ≠ NULL →
  ks_threads (py_ks s) !! t = Some k → py_procs s !! kt_proc k = Some x → t ∈ p_threads x →
  ∃ r, let s' := set_ks (set_threads (delete t) (py_ks s)) (upd_ctx (delete t)
      (upd_procs <[kt_proc k := set_pthreads (filter (.≠ t) (p_threads x)) x]> (set_mem r s))) in
    kthread_destroy t s = RRet tt s' ∧ mem_ok lost s' c B.
Proof.
  intros Hm Hcx Hnn Hk Hx Hin. unfold kthread_destroy. rewrite kget_next, (kderef_next _ cx) by done.
  rewrite kassert_next by (by rewrite (proj2 (Z.eqb_neq _ _) Hnn)). destruct (free_stack_run _ _ _ _ Hm) as (r1 & E1 & Hm1).
  rewrite (kbind_of_ret _ _ _ _ _ E1). erewrite sched_next by (apply get_thread_run; exact Hk). rewrite (get_proc_next _ x) by done.
  rewrite bool_decide_eq_true_2 by done. rewrite (upd_proc_next _ _ x) by done.
  destruct (mem_free (set_mem r1 s) c B (py_kthread_allocator s) _ _ Hm1 (allocator_kthread _)) as (r2 & E2 & Hm2).
  erewrite res_next by exact E2. rewrite kmodify_next. exists r2. split; [|exact Hm2]. done.
Qed.

Lemma held_disposed_dir s c cur y child u r :
  psinv lost s c → py_procs s !! cur = Some y → child ≠ cur → RDir (p_pagedir y) ∈ held (disposed s cur y child u r).
Proof.
  intros Hs Hy Hne. rewrite held_res_of. apply list_elem_of_bind. exists cur. split.
  - unfold res_of. simpl. rewrite lookup_delete_ne, lookup_insert_eq by done. right. left.
  - simpl. apply list_elem_of_filter. split; [done|]. apply (pv_list Hs). eauto.
Qed.

Lemma dispose_run s c cur y t kt child x :
  psinv lost s c → on_cpu s cur y t kt → c = p_pagedir y → child ∈ p_children y → py_procs s !! child = Some x → p_state x = PROC_DEAD →
  ∃ u r, let s' := disposed s cur y child u r in
    dispose cur child s = RRet (p_pid x, Some 0) s' ∧ psinv (p_vmmap x :: lost) s' c ∧ p_threads x = [u] ∧ held s ≡ₚ proc_res (py_ctx s) child x ++ held s'.
Proof.
  intros Hs Hcpu Hcd Hin Hx Hd. pose proof Hcpu as [_ _ Hy Hst _ _ _]. assert (Hne : child ≠ cur) by congruence.
  destruct (th_proc _ _ _ (pv_threads Hs) _ _ Hx) as (u & k & [O1 O2 O3 (cx & Hcx & Hpd & Hstk) O5 O6 O7]). exists u.
  assert (Hex : kt_state k = KT_EXITED) by (by apply O6). assert (Hw : kt_wchan k = None) by auto.
  pose proof (held_dispose s c cur y child x u k cx (py_mem s) Hs Hy Hx Hne O1 O2 Hcx) as Hh.
  pose proof (mem_perm _ _ _ _ Hh (pv_mem Hs)) as Hm. destruct (tr_dead _ _ (pv_tree Hs) _ _ Hx Hd) as [_ Hst0].
  unfold dispose. rewrite (get_proc_next _ x) by done. rewrite O1. cbn [destroy_threads].
  destruct (kthread_destroy_run s c _ u k cx x Hm Hcx Hstk O2 ltac:(by rewrite O3) ltac:(rewrite O1; left)) as (r1 & E1 & Hm1).
  rewrite (kbind_of_ret _ _ _ tt (set_ks (set_threads (delete u) (py_ks s)) (upd_ctx (delete u)
      (upd_procs <[kt_proc k := set_pthreads (filter (.≠ u) (p_threads x)) x]> (set_mem r1 s))))).
  2:{ erewrite sched_next by (apply get_thread_run; exact O2). rewrite set_ks_id. rewrite kassert_next by (by apply bool_decide_eq_true_2).
      rewrite (kbind_of_ret _ _ _ _ _ E1). done. }
  rewrite O3 in *. rewrite (get_proc_next _ (set_pthreads (filter (.≠ u) (p_threads x)) x)) by (simpl; apply lookup_insert_eq).
  rewrite (get_proc_next _ y) by (simpl; by rewrite lookup_insert_ne). rewrite bool_decide_eq_true_2 by done. rewrite put_proc_next, kget_next.
  rewrite bool_decide_eq_true_2 by (simpl; apply (pv_list Hs); eauto). rewrite kmodify_next.
  rewrite kassert_next by (simpl; by rewrite (proj2 (Z.eqb_neq _ _) O5)).
  assert (Hdc : p_pagedir x ≠ c).
  { subst c. intros E. pose proof (mem_nodup _ _ _ Hm1) as Hn. apply NoDup_cons in Hn as [Hn _]. apply Hn. right. rewrite E.
    apply elem_of_app. left. by eapply held_disposed_dir. }
  destruct (mem_destroy_dir _ _ _ _ Hm1 Hdc) as (r2 & E2 & Hm2). erewrite res_next by exact E2. rewrite kget_next.
  destruct (mem_free _ _ _ (py_proc_allocator s) _ _ Hm2 (allocator_proc _)) as (r3 & E3 & Hm3). erewrite res_next by exact E3. rewrite kmodify_next.
  exists r3. assert (EF : ∀ S', S' = disposed s cur y child u r3 → kret (p_pid x, Some (p_status x)) S' = RRet (p_pid x, Some 0) (disposed s cur y child u r3))
    by (intros ? ->; by rewrite Hst0).
  split_and!; [apply EF| |done|].
  - unfold disposed, upd_procs. simpl. f_equal. rewrite insert_insert_ne, delete_insert_eq by done. done.
  - eapply psinv_disposed; try done. by apply mem_lose.
  - etrans; [exact Hh|]. unfold proc_res. rewrite O1, bind_cons. unfold thread_res. rewrite Hcx. simpl.
    change (held (disposed s cur y child u r3)) with (held (disposed s cur y child u (py_mem s))). solve_Permutation.
Qed.

(** * Waiting *)

Definition has_dead (procs : gmap positive proc) (p : positive) : Prop :=
  ∃ y d x, procs !! p = Some y ∧ d ∈ p_children y ∧ procs !! d = Some x ∧ p_state x = PROC_DEAD.

Lemma dead_child_run (s : psys R) l :
  (∀ d, d ∈ l → is_Some (py_procs s !! d)) →
  (∃ d x, dead_child l s = RRet (Some d) s ∧ d ∈ l ∧ py_procs s !! d = Some x ∧ p_state x = PROC_DEAD) ∨
  (dead_child l s = RRet None s ∧ ∀ d x, d ∈ l → py_procs s !! d = Some x → p_state x ≠ PROC_DEAD).
Proof.
  induction l as [|d l IH]; intros Hl; cbn [dead_child].
  { right. split; [done|]. intros d x []%elem_of_nil. }
  destruct (Hl d ltac:(left)) as [x Hx]. destruct (decide (p_state x = PROC_DEAD)) as [Hd|Hd].
  - left. exists d, x. split_and!; [|left|done|done]. rewrite (get_proc_next _ x) by done. by rewrite bool_decide_eq_true_2.
  - rewrite (get_proc_next _ x) by done. rewrite bool_decide_eq_false_2 by done.
    destruct IH as [(d' & x' & E & Hin & ?)|[E Hno]]; [intros; apply Hl; by right|left|right].
    + exists d', x'. split_and!; [done|by right|naive_solver..].
    + split; [done|]. intros d' x' [->|Hin]%elem_of_cons Hx'; [congruence|by eapply Hno].
Qed.

(** One round finds a dead child, or goes to sleep when there is none. *)
Lemma wait_any_step s c n cur y t k :
  psinv lost s c → on_cpu s cur y t k → c = p_pagedir y →
  (∃ d x u r, let s' := disposed s cur y d u r in
     wait_any (S n) cur s = RRet (p_pid x, Some 0) s' ∧ psinv (p_vmmap x :: lost) s' c ∧ d ∈ p_children y ∧ py_procs s !! d = Some x ∧ p_state x = PROC_DEAD ∧
     p_threads x = [u] ∧ held s ≡ₚ proc_res (py_ctx s) d x ++ held s') ∨
  (∃ kont, let s' := set_ks (q_push (ProcQ cur) t (with_state KT_SLEEP k) (py_ks s)) s in
     wait_any (S n) cur s = RSwitch s' kont ∧ (∀ s', kont s' = wait_any n cur s') ∧ psinv lost s' c ∧ ¬ has_dead (py_procs s) cur).
Proof.
  intros Hs Hcpu Hcd. pose proof Hcpu as [Hc Ht Hy Hst Hk Hkp Hw]. cbn [wait_any]. rewrite (get_proc_next _ y) by done.
  assert (Hin : ∀ d, d ∈ p_children y → is_Some (py_procs s !! d)).
  { intros d Hd. destruct (tr_children _ _ (pv_tree Hs) _ _ _ Hy Hd) as (? & ? & _). eauto. }
  destruct (dead_child_run s (p_children y) Hin) as [(d & x & E & Hd & Hx & Hdead)|[E Hno]].
  - left. rewrite (kbind_of_ret _ _ _ _ _ E).
    destruct (dispose_run s c cur y t k d x Hs Hcpu Hcd Hd Hx Hdead) as (u & r & E' & Hs' & Hu & Hh). exists d, x, u, r. split_and!; done.
  - right. rewrite (kbind_of_ret _ _ _ _ _ E). destruct (on_cpu_alive _ _ _ _ _ _ Hs Hcpu) as [Hne _].
    pose proof (th_queue _ _ _ (pv_threads Hs) _ _ Hy) as HQ.
    pose proof (wf_qlink _ (pv_wf Hs) _ _ Hk) as Hl. rewrite Hw in Hl. eexists. split_and!.
    + unfold sched_call, klift, kbind. rewrite (sched_sleep_on_run _ _ t k) by done. simpl. reflexivity.
    + intros s'. simpl. by rewrite set_ks_id.
    + eapply (psinv_move s c _ t k); [done| |done|reflexivity|done|done|done| |].
      * apply wf_push; [apply Hs|by intros; simplify_eq|done|simpl; by left].
      * intros q. simpl. congruence.
      * intros q. apply push_queues.
    + intros (y' & d & x & Hy' & Hd & Hx & Hdead). simplify_eq. by eapply Hno.
Qed.
End Exit.
