(* ===== verification/ProcMachine.v ===== *)
(** Processes as a machine: threads that start processes, exit, wait and yield, in any
    order the scheduler allows. *)

From stdpp Require Import base numbers list gmap strings.
From S2P Require Import Prelude Sched Mutex PageAlloc Slab KMem PageTable Vfs Proc ProcInv ProcExit.

Open Scope Z_scope.

Section Machine.
Context {R : Type} `{ProcMem R} `{KMem R}.

(** What a thread can do: start a process, exit, return from its function, wait for
    any child, and yield. *)
Inductive pop :=
| OpSpawn (name : string)
| OpExit (status : Z)
| OpReturn (retval : Z)
| OpWait
| OpYield.

Definition run_pop (op : pop) : kM (psys R) (Z * option Z) :=
  match op with
  | OpSpawn name => let* pt := spawn name in kret (Zpos pt.1, None)
  | OpExit status => do_exit status ;;; kret (0, None)
  | OpReturn retval => kthread_exit retval ;;; kret (0, None)
  | OpWait => do_waitpid 2 (-1)
  | OpYield => let* t := get_curthr in sched_call (sched_make_runnable t) ;;; sched_call sched_switch ;;; kret (0, None)
  end.

(** The rest of sched_switch once a thread is runnable. *)
Definition switch_to (ipl : Z) : kM (psys R) (option positive) :=
  let* thr := sched_call switch_pick in
  match thr with
  | None => kret None
  | Some t =>
      sched_call (switch_commit ipl t) ;;;
      let* s := kget in
      let* newc := kderef (py_ctx s !! t) "kt_ctx" in
      context_switch newc ;;;
      kret (Some t)
  end.

Abbreviation stopped := (gmap positive (pop * kM (psys R) (Z * option Z))).

Record pmachine := PMachine {
  pm_sys : psys R;
  pm_mode : mode;
  pm_pend : stopped;    (* the calls of the threads that are stopped *)
  pm_lost : list Z      (* the address-space maps of the processes that are gone *)
}.

(** The stack of a thread goes with it. *)
Definition keep_live (s : psys R) (pend : stopped) : stopped := filter (λ x, is_Some (ks_threads (py_ks s) !! x.1)) pend.

(** The maps of the processes that are there in [s] and not in [s'].  Nothing frees
    them. *)
Definition newly_lost (s s' : psys R) : list Z :=
  omap (λ p, p_vmmap <$> py_procs s !! p) (filter (λ p, p ∉ py_list s') (py_list s)).

(** A thread may start a process while there are pids left, and a process other than
    idle and init may exit. *)
Definition allowed (s : psys R) (op : pop) : Prop :=
  match op with
  | OpSpawn name => Z.of_nat (length (py_list s)) < PROC_MAX_COUNT ∧ Z.of_nat (String.length name) < PROC_NAME_LEN
  | OpExit _ | OpReturn _ => ∀ p x, ks_curproc (py_ks s) = Some p → py_procs s !! p = Some x → p_pid x ≠ PID_IDLE ∧ p_pid x ≠ PID_INIT
  | OpWait | OpYield => True
  end.

Inductive pstep : pmachine → pmachine → Prop :=
| pstep_call s pend lost t op r s' :
    ks_curthr (py_ks s) = Some t → pend !! t = None → allowed s op → run_pop op s = RRet r s' →
    pstep (PMachine s MRun pend lost) (PMachine s' MRun (keep_live s' pend) (newly_lost s s' ++ lost))
| pstep_stop s pend lost t op s' k ipl s'' :
    ks_curthr (py_ks s) = Some t → pend !! t = None → allowed s op → run_pop op s = RSwitch s' k →
    sched_call switch_enter s' = RRet ipl s'' →
    pstep (PMachine s MRun pend lost) (PMachine s'' (MSwitch ipl) (keep_live s'' (<[t := (op, k)]> pend)) (newly_lost s s'' ++ lost))
| pstep_resume s pend lost t op k r s' :
    ks_curthr (py_ks s) = Some t → pend !! t = Some (op, k) → k s = RRet r s' →
    pstep (PMachine s MRun pend lost) (PMachine s' MRun (keep_live s' (delete t pend)) (newly_lost s s' ++ lost))
| pstep_stop_again s pend lost t op k s' k' ipl s'' :
    ks_curthr (py_ks s) = Some t → pend !! t = Some (op, k) → k s = RSwitch s' k' → sched_call switch_enter s' = RRet ipl s'' →
    pstep (PMachine s MRun pend lost) (PMachine s'' (MSwitch ipl) (keep_live s'' (<[t := (op, k')]> pend)) (newly_lost s s'' ++ lost))
| pstep_dispatch s ipl pend lost t s' :
    switch_to ipl s = RRet (Some t) s' → pstep (PMachine s (MSwitch ipl) pend lost) (PMachine s' MRun pend lost).
End Machine.

Arguments pmachine R : clear implicits.

Section Inv.
Context {R : Type} `{ProcMem R} `{!ProcMemLaws R} `{KMem R} {lost : list Z}.
Abbreviation stopped := (gmap positive (pop * kM (psys R) (Z * option Z))).

(** What a stopped call still has to do, and when: a process that waits and is still
    on its queue has no dead child, unless it is init, whose children may come to it
    dead; one that has been woken has a dead child. *)
Definition pend_ok (s : psys R) (op : pop) (k : kM (psys R) (Z * option Z)) (kt : kthread) : Prop :=
  match op with
  | OpSpawn _ => False
  | OpExit _ | OpReturn _ => kt_state kt = KT_EXITED
  | OpYield => kt_state kt ≠ KT_EXITED ∧ (∀ s', k s' = RRet (0, None) s') ∧ kt_wchan kt ≠ Some (ProcQ (kt_proc kt))
  | OpWait => kt_state kt ≠ KT_EXITED ∧ (∀ s', k s' = wait_any 1 (kt_proc kt) s') ∧
      if decide (kt_wchan kt = Some (ProcQ (kt_proc kt)))
      then py_initproc s = Some (kt_proc kt) ∨ ¬ has_dead (py_procs s) (kt_proc kt)
      else has_dead (py_procs s) (kt_proc kt)
  end.

Record pends_ok (s : psys R) (pend : stopped) : Prop := {
  po_pend t op k : pend !! t = Some (op, k) → ∃ kt, ks_threads (py_ks s) !! t = Some kt ∧ pend_ok s op k kt;
  po_wait t kt : ks_threads (py_ks s) !! t = Some kt → kt_wchan kt = Some (ProcQ (kt_proc kt)) → ∃ k, pend !! t = Some (OpWait, k)
}.

Definition minv (M : pmachine R) : Prop :=
  ∃ p x, ks_curproc (py_ks (pm_sys M)) = Some p ∧ py_procs (pm_sys M) !! p = Some x ∧ psinv (pm_lost M) (pm_sys M) (p_pagedir x) ∧
    pends_ok (pm_sys M) (pm_pend M) ∧
    match pm_mode M with MRun => ∃ t k, on_cpu (pm_sys M) p x t k | MSwitch _ => True end.

(** ** Steps of one thread and the stopped calls of the others *)

(** As far as a thread like [kt] is concerned, there are dead children as before. *)
Definition dead_same (s s' : psys R) (kt : kthread) : Prop :=
  (has_dead (py_procs s) (kt_proc kt) → has_dead (py_procs s') (kt_proc kt)) ∧
  (kt_wchan kt = Some (ProcQ (kt_proc kt)) →
   py_initproc s = Some (kt_proc kt) ∨ (has_dead (py_procs s') (kt_proc kt) → has_dead (py_procs s) (kt_proc kt))).

(** The stopped call of [u] is none the worse for a step. *)
Definition calm (s s' : psys R) (u : positive) : Prop := ∀ kt', ks_threads (py_ks s') !! u = Some kt' →
  ∃ kt, ks_threads (py_ks s) !! u = Some kt ∧ (∀ op k, pend_ok s op k kt → pend_ok s' op k kt') ∧
    (kt_wchan kt' = Some (ProcQ (kt_proc kt')) → kt_wchan kt = Some (ProcQ (kt_proc kt))).

Lemma calm_same s s' u :
  ks_threads (py_ks s') !! u = ks_threads (py_ks s) !! u → py_initproc s' = py_initproc s →
  (∀ kt, ks_threads (py_ks s) !! u = Some kt → dead_same s s' kt) → calm s s' u.
Proof.
  intros Et Ei Hd kt' Hkt. rewrite Et in Hkt. exists kt'. split_and!; [done| |done]. intros op k. destruct op; try done.
  simpl. intros (Hst & Hk & Hw). split_and!; [done|done|]. destruct (Hd _ Hkt) as [Hd1 Hd2]. rewrite Ei. case_decide as Hq; [|auto].
  destruct Hw; [by left|]. destruct (Hd2 Hq); [by left|right]. auto.
Qed.

Lemma dead_same_procs s s' kt : py_procs s' = py_procs s → dead_same s s' kt.
Proof. intros E. unfold dead_same. rewrite E. auto. Qed.

Lemma pends_step s s' pend pend' t :
  pends_ok s pend → (∀ u, u ≠ t → calm s s' u) → (∀ u, u ≠ t → pend' !! u = pend !! u) →
  (∀ kt, ks_threads (py_ks s') !! t = Some kt → (∀ op k, pend' !! t = Some (op, k) → pend_ok s' op k kt) ∧
     (kt_wchan kt = Some (ProcQ (kt_proc kt)) → ∃ k, pend' !! t = Some (OpWait, k))) →
  pends_ok s' (keep_live s' pend').
Proof.
  intros [P1 P2] Hcalm Hsame Ht. unfold keep_live. split.
  - intros u op k [Hu [kt Hkt]]%map_lookup_filter_Some. simpl in Hkt. exists kt. split; [done|].
    destruct (decide (u = t)) as [->|Hut]; [by apply (Ht kt)|]. rewrite Hsame in Hu by done.
    destruct (P1 _ _ _ Hu) as (kt0 & Hkt0 & Hok). destruct (Hcalm u Hut kt Hkt) as (kt1 & Hkt1 & Hc & _). simplify_eq. auto.
  - intros u kt Hkt Hw. assert (∃ k, pend' !! u = Some (OpWait, k)) as [k Hk].
    { destruct (decide (u = t)) as [->|Hut]; [by apply (Ht kt)|]. rewrite Hsame by done.
      destruct (Hcalm u Hut kt Hkt) as (kt1 & Hkt1 & _ & Hw1). by eapply P2, Hw1. }
    exists k. apply map_lookup_filter_Some. split; [done|]. simpl. eauto.
Qed.

(** *** A thread that moves to another queue *)
Lemma pends_move s ks' pend pend' t k' :
  pends_ok s pend → ks_threads ks' = <[t := k']> (ks_threads (py_ks s)) → (∀ u, u ≠ t → pend' !! u = pend !! u) →
  (∀ op k, pend' !! t = Some (op, k) → pend_ok s op k k') →
  (kt_wchan k' = Some (ProcQ (kt_proc k')) → ∃ k, pend' !! t = Some (OpWait, k)) →
  pends_ok (set_ks ks' s) (keep_live (set_ks ks' s) pend').
Proof.
  intros HP E Hsame Hok Hw. eapply (pends_step s _ pend _ t); [done| |done|].
  - intros u Hu. apply calm_same; [change (py_ks (set_ks ks' s)) with ks'; rewrite E; by rewrite lookup_insert_ne|done|]. intros kt _. by apply dead_same_procs.
  - intros kt. change (py_ks (set_ks ks' s)) with ks'. rewrite E, lookup_insert_eq. intros [= <-]. split; [|done]. intros op k Hk. by apply Hok in Hk.
Qed.

(** *** A new process *)
Lemma has_dead_forked procs p y cur x q :
  procs !! p = None → procs !! cur = Some x → p_state y = PROC_RUNNING → q ≠ p → (∀ q' w d, procs !! q' = Some w → d ∈ p_children w → d ≠ p) →
  has_dead (<[p := y]> (<[cur := set_children (p_children x ++ [p]) x]> procs)) q ↔ has_dead procs q.
Proof.
  intros Hp Hc Hy Hq Hch. assert (Hne : cur ≠ p) by congruence. set (P := <[p := y]> _).
  assert (L : ∀ r, r ≠ p → (P !! r = procs !! r ∧ r ≠ cur) ∨ (r = cur ∧ P !! r = Some (set_children (p_children x ++ [p]) x))).
  { intros r Hr. unfold P. rewrite lookup_insert_ne, lookup_insert by done. case_decide; subst; auto. }
  split; intros (w & d & v & Hw & Hd & Hv & Hdead).
  - assert (Hdp : d ≠ p). { intros ->. unfold P in Hv. rewrite lookup_insert_eq in Hv. congruence. }
    assert (Hv' : ∃ v', procs !! d = Some v' ∧ p_state v' = PROC_DEAD).
    { destruct (L d Hdp) as [[E _]|[-> E]]; rewrite E in Hv; [eauto|injection Hv as <-; eauto]. }
    destruct Hv' as (v' & Hv' & Hd'). destruct (L q Hq) as [[E _]|[-> E]]; rewrite E in Hw; [by exists w, d, v'|]. injection Hw as <-.
    simpl in Hd. apply elem_of_app in Hd as [Hd|Hd%list_elem_of_singleton]; [|done]. by exists x, d, v'.
  - pose proof (Hch _ _ _ Hw Hd) as Hdp.
    assert (Hv' : ∃ v', P !! d = Some v' ∧ p_state v' = PROC_DEAD).
    { destruct (L d Hdp) as [[E _]|[-> E]]; rewrite E; [eauto|]. simplify_eq. eauto. }
    destruct Hv' as (v' & Hv' & Hd'). destruct (L q Hq) as [[E _]|[-> E]]; [exists w, d, v'; by rewrite E|].
    simplify_eq. eexists _, d, v'. rewrite E. split_and!; [done| |done|done]. simpl. set_solver.
Qed.

Lemma pends_forked s c pend cur x p y t stack n a r :
  psinv lost s c → pends_ok s pend → py_procs s !! cur = Some x → py_procs s !! p = None → ks_threads (py_ks s) !! t = None →
  p_state y = PROC_RUNNING → let s' := forked s cur x p y t stack n a r in pends_ok s' (keep_live s' pend).
Proof.
  intros Hs HP Hx Hp Ht Hy s'. eapply (pends_step s s' pend pend t); [done| |done|].
  - intros u Hu. apply calm_same; [|done|].
    + change (ks_threads (py_ks s')) with (<[t := with_qlink (Some RunQ) (with_wchan (Some RunQ) (new_thread p))]> (ks_threads (py_ks s))).
      by apply lookup_insert_ne.
    + intros kt Hkt. destruct (th_thread _ _ _ (pv_threads Hs) _ _ Hkt) as (w & Hw & _). unfold dead_same. simpl.
      rewrite has_dead_forked; [auto|done|done|done|congruence|]. intros q' w' d Hq' Hd.
      destruct (tr_children _ _ (pv_tree Hs) _ _ _ Hq' Hd) as (? & ? & _). congruence.
  - intros kt. change (ks_threads (py_ks s')) with (<[t := with_qlink (Some RunQ) (with_wchan (Some RunQ) (new_thread p))]> (ks_threads (py_ks s))).
    rewrite lookup_insert_eq. intros [= <-]. split; [|done]. intros op k Hk. destruct (po_pend _ _ HP _ _ _ Hk) as (kt & Hkt & _). congruence.
Qed.

(** *** A process that exits *)
Section Exiting.
Context (procs : gmap positive proc) (i p : positive) (x : proc).
Hypothesis Htree : tree procs (Some i).
Hypothesis Hx : procs !! p = Some x.
Hypothesis Hidle : p_pid x ≠ PID_IDLE.
Hypothesis Hinit : p_pid x ≠ PID_INIT.

Lemma has_dead_kept q : q ≠ p → has_dead procs q → has_dead (buried p i (p_children x) procs) q.
Proof.
  intros Hq (w & d & v & Hw & Hd & Hv & Hdead). eexists _, d, _. split_and!; [by apply buried_of|by apply (proj2 (bury_other p i (p_children x) q w Hq))|by apply buried_of|].
  unfold bury. by repeat case_decide.
Qed.

Lemma has_dead_parent q : p_pproc x = Some q → has_dead (buried p i (p_children x) procs) q.
Proof.
  intros Hq. destruct (tr_parent _ _ Htree _ _ Hx Hidle) as (q' & y & Hq' & Hy & Hin & _). simplify_eq.
  assert (Hqp : q ≠ p). { intros ->. simplify_eq. by eapply (self_child procs i p x). }
  eexists _, p, _. split_and!; [by apply buried_of|by apply (proj2 (bury_other p i (p_children x) q y Hqp))|by apply buried_of|]. unfold bury. by rewrite decide_True.
Qed.

Lemma has_dead_new q : q ≠ p → q ≠ i → p_pproc x ≠ Some q → has_dead (buried p i (p_children x) procs) q → has_dead procs q.
Proof.
  intros Hq Hqi Hpar (w' & d & v' & (w & Hw & ->)%buried_inv & Hd & (v & Hv & ->)%buried_inv & Hdead).
  assert (Hd' : d ∈ p_children w) by (unfold bury in Hd; repeat case_decide; done).
  assert (d ≠ p). { intros ->. destruct (tr_children _ _ Htree _ _ _ Hw Hd') as (? & ? & ? & _). by simplify_eq. }
  exists w, d, v. split_and!; [done|done|done|]. unfold bury in Hdead. by repeat case_decide.
Qed.
End Exiting.

Lemma set_ipl_pends s ks ipl pend : pends_ok (set_ks ks s) pend → pends_ok (set_ks (set_ipl ipl ks) s) pend.
Proof. intros [P1 P2]. by split. Qed.

Lemma woken_lookup ks q ks' u :
  woken ks q ks' → (ks_threads ks' !! u = ks_threads ks !! u ∧ ∀ kt, ks_threads ks !! u = Some kt → kt_wchan kt ≠ Some (ProcQ q)) ∨
  (∃ kt, ks_threads ks !! u = Some kt ∧ kt_wchan kt = Some (ProcQ q) ∧
     ks_threads ks' !! u = Some (with_qlink (Some RunQ) (with_wchan (Some RunQ) (with_state KT_RUN kt)))) ∨
  (ks_threads ks' !! u = ks_threads ks !! u ∧ ∃ v kv, v ≠ u ∧ ks_threads ks !! v = Some kv ∧ kt_wchan kv = Some (ProcQ q)).
Proof.
  intros [[-> Hno]|(v & kv & Hv & Hw & ->)]; [left; eauto|right]. simpl. rewrite insert_insert_eq. destruct (decide (v = u)) as [->|Hvu].
  - left. exists kv. by rewrite lookup_insert_eq.
  - right. rewrite lookup_insert_ne by done. split; [done|]. exists v, kv. done.
Qed.

Lemma waiter_alive s c u kt q :
  psinv lost s c → ks_threads (py_ks s) !! u = Some kt → kt_wchan kt = Some (ProcQ q) →
  kt_state kt ≠ KT_EXITED ∧ ∃ w, py_procs s !! q = Some w ∧ p_threads w = [u].
Proof.
  intros Hs Hkt Hw. pose proof (th_wait _ _ _ (pv_threads Hs) _ _ _ Hkt Hw) as Hkq.
  destruct (th_thread _ _ _ (pv_threads Hs) _ _ Hkt) as (w & Hw' & E). rewrite Hkq in Hw'. split; [|eauto]. intros Hex.
  destruct (th_proc _ _ _ (pv_threads Hs) _ _ Hw') as (u' & k' & [O1 O2 _ _ _ _ O7]). assert (u' = u) as -> by congruence.
  assert (k' = kt) as -> by congruence. specialize (O7 Hex). congruence.
Qed.

Lemma pends_exit s c pend p x t k r i q ks op kont :
  psinv lost s c → pends_ok s pend → on_cpu s p x t k → p_pid x ≠ PID_IDLE → p_pid x ≠ PID_INIT → py_initproc s = Some i → p_pproc x = Some q →
  woken (set_threads <[t := exited_thread r k]> (py_ks s)) q ks → psinv lost (after_exit s p i x ks) c →
  match op with OpExit _ | OpReturn _ => True | _ => False end →
  let s' := after_exit s p i x ks in pends_ok s' (keep_live s' (<[t := (op, kont)]> pend)).
Proof.
  intros Hs HP Hcpu Hni Hnn Hi Hq Hwk Hs' Hop s'. pose proof Hcpu as [_ _ Hx _ Hk Hkp Hw].
  pose proof (pv_tree Hs) as HT. rewrite Hi in HT. eapply (pends_step s s' pend _ t); [done| |by intros u Hu; apply lookup_insert_ne|].
  - intros u Hu. set (ks1 := set_threads <[t := exited_thread r k]> (py_ks s)) in *.
    assert (Eu : ks_threads ks1 !! u = ks_threads (py_ks s) !! u) by (by apply lookup_insert_ne).
    assert (Hup : ∀ kt, ks_threads (py_ks s) !! u = Some kt → kt_proc kt ≠ p).
    { intros kt Hkt E. destruct (th_thread _ _ _ (pv_threads Hs) _ _ Hkt) as (w & Hw' & Et). rewrite E, Hx in Hw'. injection Hw' as <-.
      destruct (on_cpu_alive _ _ _ _ _ _ Hs Hcpu) as [_ Et']. congruence. }
    assert (Hds : ∀ kt, ks_threads (py_ks s) !! u = Some kt → kt_wchan kt ≠ Some (ProcQ q) → dead_same s s' kt).
    { intros kt Hkt Hwq. split; simpl; [apply has_dead_kept; auto|]. intros Hwk'. rewrite Hi. destruct (decide (kt_proc kt = i)) as [<-|]; [by left|right].
      eapply has_dead_new; eauto. congruence. }
    destruct (woken_lookup _ _ _ u Hwk) as [[E Hno]|[(kt & Hkt & Hwq & E)|[E (u' & ku' & Hne & Hu' & Hwu')]]]; rewrite ?Eu in *.
    + apply calm_same; [exact E|done|]. eauto.
    + intros kt' Hkt'. change (ks_threads (py_ks s')) with (ks_threads ks) in Hkt'. rewrite E in Hkt'. injection Hkt' as <-. exists kt. split_and!; [done| |done].
      pose proof (th_wait _ _ _ (pv_threads Hs) _ _ _ Hkt Hwq) as Hkq. destruct (waiter_alive s c u kt q Hs Hkt Hwq) as [Hne _].
      intros op' k'. destruct op'; simpl; rewrite ?Hkq; [done|done|done| |naive_solver]. intros (_ & Hk' & _). split_and!; [done|done|].
      by eapply has_dead_parent.
    + apply calm_same; [exact E|done|]. intros kt Hkt. apply Hds; [done|]. intros Hwq. apply Hne.
      assert (u' ≠ t) by (intros ->; unfold ks1 in Hu'; simpl in Hu'; rewrite lookup_insert_eq in Hu'; injection Hu' as <-; simpl in Hwu'; congruence).
      unfold ks1 in Hu'. simpl in Hu'. rewrite lookup_insert_ne in Hu' by done.
      destruct (waiter_alive s c u kt q Hs Hkt Hwq) as [_ (w & Hw1 & E1)], (waiter_alive s c u' ku' q Hs Hu' Hwu') as [_ (w' & Hw2 & E2)]. congruence.
  - intros kt Hkt. assert (kt = exited_thread r k) as ->.
    { change (ks_threads (py_ks s')) with (ks_threads ks) in Hkt. destruct (woken_lookup _ _ _ t Hwk) as [[E _]|[(kt' & Hkt' & Hwq & _)|[E _]]].
      - rewrite E in Hkt. simpl in Hkt. rewrite lookup_insert_eq in Hkt. by injection Hkt.
      - simpl in Hkt'. rewrite lookup_insert_eq in Hkt'. injection Hkt' as <-. simpl in Hwq. congruence.
      - rewrite E in Hkt. simpl in Hkt. rewrite lookup_insert_eq in Hkt. by injection Hkt. }
    split; [|simpl; congruence]. intros op' k'. rewrite lookup_insert_eq. intros [= <- <-]. by destruct op.
Qed.

(** *** A child that is disposed of *)
Lemma has_dead_disposed procs i cur y child x q :
  tree procs i → procs !! cur = Some y → p_state y = PROC_RUNNING → procs !! child = Some x → child ∈ p_children y → q ≠ cur → q ≠ child →
  has_dead (delete child (<[cur := set_children (filter (.≠ child) (p_children y)) y]> procs)) q ↔ has_dead procs q.
Proof.
  intros HT Hc Hst Hx Hin Hqc Hqd.
  assert (Hdc : ∀ w d, procs !! q = Some w → d ∈ p_children w → d ≠ child).
  { intros w d Hw Hd ->. destruct (tr_children _ _ HT _ _ _ Hw Hd) as (? & ? & ? & _), (tr_children _ _ HT _ _ _ Hc Hin) as (? & ? & ? & _). by simplify_eq. }
  assert (E : ∀ r, r ≠ child → r ≠ cur → delete child (<[cur := set_children (filter (.≠ child) (p_children y)) y]> procs) !! r = procs !! r).
  { intros r H1 H2. by rewrite lookup_delete_ne, lookup_insert_ne by done. }
  split; intros (w & d & v & Hw & Hd & Hv & Hdead).
  - rewrite E in Hw by done. exists w, d, v. split_and!; try done. rewrite E in Hv; [done|by eapply Hdc|]. intros ->.
    rewrite lookup_delete_ne, lookup_insert_eq in Hv by (intros ->; by eapply Hdc). injection Hv as <-. simpl in Hdead. congruence.
  - exists w, d, v. rewrite E by done. split_and!; try done. rewrite E; [done|by eapply Hdc|congruence].
Qed.

Lemma pends_disposed s c pend pend' cur y t kt child x u r :
  psinv lost s c → pends_ok s pend → on_cpu s cur y t kt → child ∈ p_children y → py_procs s !! child = Some x → p_state x = PROC_DEAD →
  p_threads x = [u] → pend' !! t = None → (∀ t', t' ≠ t → pend' !! t' = pend !! t') →
  let s' := disposed s cur y child u r in pends_ok s' (keep_live s' pend').
Proof.
  intros Hs HP Hcpu Hin Hx Hd Hu Ht Hsame s'. pose proof Hcpu as [_ _ Hy Hst Hk Hkp Hw]. eapply (pends_step s s' pend pend' t); [done| |done|].
  - intros v Hv. destruct (decide (v = u)) as [->|Hvu].
    { intros kt'. change (ks_threads (py_ks s')) with (delete u (ks_threads (py_ks s))). by rewrite lookup_delete_eq. }
    apply calm_same; [by apply lookup_delete_ne|done|]. intros kv Hkv.
    destruct (th_thread _ _ _ (pv_threads Hs) _ _ Hkv) as (w & Hw' & Ew). destruct (on_cpu_alive _ _ _ _ _ _ Hs Hcpu) as [_ Et].
    assert (kt_proc kv ≠ cur) by (intros E; rewrite E in Hw'; congruence). assert (kt_proc kv ≠ child) by (intros E; rewrite E in Hw'; congruence).
    unfold dead_same. simpl. rewrite has_dead_disposed; [auto|apply Hs|done..].
  - intros kt'. change (ks_threads (py_ks s')) with (delete u (ks_threads (py_ks s))). rewrite lookup_delete_Some. intros [_ Hkt'].
    simplify_eq. split; [by rewrite Ht|congruence].
Qed.

(** * The calls *)

Lemma psinv_same_threads s c ks :
  psinv lost s c → ks_threads ks = ks_threads (py_ks s) → ks_queues ks = ks_queues (py_ks s) → psinv lost (set_ks ks s) c.
Proof.
  intros [P1 P2 P3 P4 P5 [T1 T2 T3 T4] P7 P8] Et Eq. split; try done; [by eapply wf_ext|]. change (py_ks (set_ks ks s)) with ks.
  split; rewrite ?Et, ?Eq; try done. intros p x Hx. destruct (T1 p x Hx) as (t & k & [O1 O2 O3 O4 O5 O6 O7]). exists t, k. split; rewrite ?Et; done.
Qed.

(** A call that began in [s0] has given up the processor in [s]. *)
Definition after (s0 s : psys R) (pend : stopped) : Prop :=
  py_list s = py_list s0 ∧ ∃ p x, ks_curproc (py_ks s) = Some p ∧ py_procs s !! p = Some x ∧ psinv lost s (p_pagedir x) ∧ pends_ok s (keep_live s pend).

Lemma no_loss (s s' : psys R) : py_list s ⊆ py_list s' → newly_lost s s' = [].
Proof.
  intros Hsub. unfold newly_lost. assert (filter (λ p, p ∉ py_list s') (py_list s) = []) as ->; [|done].
  apply elem_of_nil_inv. intros p [Hp Hin]%list_elem_of_filter. by apply Hp, Hsub.
Qed.

Lemma after_enter s0 s pend ipl s' :
  after s0 s pend → sched_call switch_enter s = RRet ipl s' → minv (PMachine s' (MSwitch ipl) (keep_live s' pend) (newly_lost s0 s' ++ lost)).
Proof.
  intros (El & p & x & Hc & Hx & Hs & HP) E. unfold sched_call, klift, switch_enter in E. simpl in E. injection E as <- <-.
  rewrite no_loss by (by simpl; rewrite El). exists p, x. split_and!; [done|done|by apply psinv_same_threads| |done]. destruct HP as [P1 P2]. by split.
Qed.

Lemma spawn_after s pend p x t k name :
  psinv lost s (p_pagedir x) → pends_ok s pend → on_cpu s p x t k → allowed s (OpSpawn name) →
  out_of_memory (run_pop (OpSpawn name) s) ∨ ∃ r s', run_pop (OpSpawn name) s = RRet r s' ∧ minv (PMachine s' MRun (keep_live s' pend) (newly_lost s s' ++ lost)).
Proof.
  intros Hs HP [Hc Ht Hx Hst Hk Hkp Hw] [Hl Hn]. simpl.
  destruct (spawn_run s _ p x name Hs Hc Hx Hst Hl Hn) as [E|(q & pid & dir & map & u & stack & n & a & r & E & Hs' & Hq & Hu & _)].
  - left. by apply oom_bind.
  - right. rewrite (kbind_of_ret _ _ _ _ _ E). eexists _, _. split; [reflexivity|]. rewrite no_loss by (simpl; set_solver). assert (p ≠ q) by congruence. assert (u ≠ t) by congruence.
    assert (Hx' : py_procs (forked s p x q (set_pthreads [u] (new_proc pid name (Some p) dir map)) u stack n a r) !! p = Some (set_children (p_children x ++ [q]) x))
      by (simpl; by rewrite lookup_insert_ne, lookup_insert_eq).
    exists p, (set_children (p_children x ++ [q]) x). split_and!; [done|exact Hx'|exact Hs'|by eapply pends_forked|].
    exists t, k. split; try done. simpl. by rewrite lookup_insert_ne.
Qed.

Lemma exit_after s pend p x t k op :
  psinv lost s (p_pagedir x) → pends_ok s pend → on_cpu s p x t k → allowed s op →
  match op with OpExit _ | OpReturn _ => True | _ => False end →
  ∃ s' kont, run_pop op s = RSwitch s' kont ∧ after s s' (<[t := (op, kont)]> pend).
Proof.
  intros Hs HP Hcpu Ha Hop. assert (Hni : p_pid x ≠ PID_IDLE ∧ p_pid x ≠ PID_INIT) by (destruct op; try done; apply (Ha p x); apply Hcpu).
  destruct Hni as [Hni Hnn].
  assert (Hex : ∃ r, exits (lost := lost) (run_pop op) s (p_pagedir x) p x t k r).
  { destruct op as [|status|retval| |]; try done; simpl; [exists 0; pose proof (do_exit_run s _ p x t k status Hs Hcpu Hni Hnn) as Hr|
      exists retval; pose proof (kthread_exit_run s _ p x t k retval Hs Hcpu Hni Hnn) as Hr];
    destruct Hr as (i & q & ks & kont & ? & ? & ? & E & ?); eexists i, q, ks, _; split_and!; try done; unfold kbind; rewrite E; reflexivity. }
  destruct Hex as (r & i & q & ks & kont & Hi & Hq & Hwk & E & Hs'). eexists _, kont. split; [exact E|]. split; [done|].
  exists p, (bury p i (p_children x) p x). split_and!.
  - destruct Hwk as [[-> _]|(u & ku & _ & _ & ->)]; apply Hcpu.
  - simpl. by rewrite lookup_buried, (oc_proc _ _ _ _ _ Hcpu).
  - by rewrite (proj1 (proj2 (proj2 (bury_fields p i (p_children x) p x)))).
  - by eapply pends_exit.
Qed.

Lemma disposed_loss s c p y d x u r :
  psinv lost s c → py_procs s !! d = Some x → newly_lost s (disposed s p y d u r) = [p_vmmap x].
Proof.
  intros Hs Hx. assert (Hin : d ∈ py_list s) by (apply (pv_list Hs); eauto).
  pose proof (pv_nodup Hs) as Hnd. unfold newly_lost. simpl.
  assert (filter (λ q, q ∉ filter (.≠ d) (py_list s)) (py_list s) = [d]) as ->; [|simpl; by rewrite Hx].
  apply Permutation_singleton_r, NoDup_Permutation; [by apply NoDup_filter|apply NoDup_singleton|].
  intros q. rewrite list_elem_of_filter, list_elem_of_filter, list_elem_of_singleton. destruct (decide (q = d)); naive_solver.
Qed.

(** The state after a child has been disposed of. *)
Lemma minv_disposed s pend pend' p y t k d x u r :
  psinv lost s (p_pagedir y) → pends_ok s pend → on_cpu s p y t k → d ∈ p_children y → py_procs s !! d = Some x → p_state x = PROC_DEAD →
  p_threads x = [u] → psinv (p_vmmap x :: lost) (disposed s p y d u r) (p_pagedir y) → pend' !! t = None → (∀ t', t' ≠ t → pend' !! t' = pend !! t') →
  minv (PMachine (disposed s p y d u r) MRun (keep_live (disposed s p y d u r) pend') (newly_lost s (disposed s p y d u r) ++ lost)).
Proof.
  intros Hs HP Hcpu Hd Hx Hdead Hu Hs' Hn Hsame. assert (d ≠ p) by (pose proof (oc_proc _ _ _ _ _ Hcpu); pose proof (oc_state _ _ _ _ _ Hcpu); congruence).
  rewrite (disposed_loss s _ p y d x u r Hs Hx).
  assert (Hp : py_procs (disposed s p y d u r) !! p = Some (set_children (filter (.≠ d) (p_children y)) y))
    by (simpl; by rewrite lookup_delete_ne, lookup_insert_eq).
  exists p, (set_children (filter (.≠ d) (p_children y)) y). split_and!; [apply Hcpu|exact Hp|exact Hs'|by eapply pends_disposed|].
  exists t, k. destruct Hcpu as [Hc Ht Hy Hst Hk Hkp Hw]. split; try done.
  change (delete u (ks_threads (py_ks s)) !! t = Some k). rewrite lookup_delete_ne; [done|].
  intros ->. destruct (th_thread _ _ _ (pv_threads Hs) _ _ Hk) as (w & Hw' & _). destruct (th_proc _ _ _ (pv_threads Hs) _ _ Hx) as (u & ku & [O1 O2 O3 _ _ _ _]).
  congruence.
Qed.

Lemma sleeping_after s p y t k pend kont :
  psinv lost s (p_pagedir y) → pends_ok s pend → on_cpu s p y t k → ¬ has_dead (py_procs s) p → (∀ s', kont s' = wait_any 1 p s') →
  let s' := set_ks (q_push (ProcQ p) t (with_state KT_SLEEP k) (py_ks s)) s in
  psinv lost s' (p_pagedir y) → after s s' (<[t := (OpWait, kont)]> pend).
Proof.
  intros Hs HP [Hc Ht Hy Hst Hk Hkp Hw] Hno Hkont s' Hs'. split; [done|]. exists p, y. split_and!; [done|done|done|].
  eapply pends_move; [exact HP|reflexivity|by intros; apply lookup_insert_ne| |].
  - intros op k'. rewrite lookup_insert_eq. intros [= <- <-]. simpl. rewrite Hkp. split_and!; [done|done|]. rewrite decide_True by done. by right.
  - intros _. rewrite lookup_insert_eq. eauto.
Qed.

Lemma wait_after s pend p y t k :
  psinv lost s (p_pagedir y) → pends_ok s pend → on_cpu s p y t k → pend !! t = None →
  (∃ r s', run_pop OpWait s = RRet r s' ∧ minv (PMachine s' MRun (keep_live s' pend) (newly_lost s s' ++ lost))) ∨
  (∃ s' kont, run_pop OpWait s = RSwitch s' kont ∧ after s s' (<[t := (OpWait, kont)]> pend)).
Proof.
  intros Hs HP Hcpu Hpt. pose proof Hcpu as [Hc Ht Hy Hst Hk Hkp Hw]. simpl. unfold do_waitpid.
  rewrite (curproc_next p), (get_proc_next _ y) by done. case_bool_decide as Hch.
  - left. exists (- ECHILD, None), s. split; [done|]. rewrite no_loss by done. exists p, y. split_and!; [done|done|done| |by exists t, k].
    eapply (pends_step s s pend pend t); [done| |done|].
    + intros u _. apply calm_same; [done|done|]. intros. by apply dead_same_procs.
    + intros kt Hkt. simpl in Hkt. simplify_eq. split; [by rewrite Hpt|congruence].
  - destruct (wait_any_step s _ 1 p y t k Hs Hcpu eq_refl) as [(d & x & u & r & E & Hs' & Hd & Hx & Hdead & Hu & _)|(kont & E & Hk' & Hs' & Hno)].
    + left. eexists _, _. split; [exact E|]. by eapply minv_disposed.
    + right. eexists _, kont. split; [exact E|]. by eapply sleeping_after.
Qed.

Lemma yield_after s pend p y t k :
  psinv lost s (p_pagedir y) → pends_ok s pend → on_cpu s p y t k →
  ∃ s' kont, run_pop OpYield s = RSwitch s' kont ∧ after s s' (<[t := (OpYield, kont)]> pend).
Proof.
  intros Hs HP Hcpu. pose proof Hcpu as [Hc Ht Hy Hst Hk Hkp Hw]. destruct (on_cpu_alive _ _ _ _ _ _ Hs Hcpu) as [Hne _].
  pose proof (wf_qlink _ (pv_wf Hs) _ _ Hk) as Hl. rewrite Hw in Hl. simpl. rewrite (curthr_next t) by done.
  erewrite sched_next by (by apply (sched_make_runnable_run _ t k); [|apply Hs|..]).
  match goal with |- context [kbind _ ?K ?S0] => destruct (switch_next (K tt) S0) as (kont & Ek & Hkont) end.
  eexists _, kont. split; [exact Ek|]. split; [done|]. exists p, y. split_and!; [done|done| |].
  - eapply (psinv_move s _ _ t k); [done| |done|reflexivity|done|done|done|done|intros q; apply push_queues].
    apply wf_push; [apply Hs|by intros; simplify_eq|apply Hs|done].
  - eapply pends_move; [exact HP|reflexivity|by intros; apply lookup_insert_ne| |done].
    intros op k'. rewrite lookup_insert_eq. intros [= <- <-]. split_and!; [done|done|done].
Qed.

(** * Resumed calls *)

(** What the return of a waiting process is: the pid and the status of a dead child.
    The child is gone, and what it held is given back except its map. *)
Definition reaped (s : psys R) (p : positive) (r : Z * option Z) (s' : psys R) : Prop :=
  ∃ y d x, py_procs s !! p = Some y ∧ d ∈ p_children y ∧ py_procs s !! d = Some x ∧ p_state x = PROC_DEAD ∧
    r = (p_pid x, Some 0) ∧ d ∉ py_list s' ∧ py_procs s' !! d = None ∧ held s ≡ₚ proc_res (py_ctx s) d x ++ held s' ∧ newly_lost s s' = [p_vmmap x].

Lemma resume_run s pend p y t kt op k :
  psinv lost s (p_pagedir y) → pends_ok s pend → on_cpu s p y t kt → pend !! t = Some (op, k) →
  ∃ r s', k s = RRet r s' ∧ minv (PMachine s' MRun (keep_live s' (delete t pend)) (newly_lost s s' ++ lost)) ∧ (op = OpWait → reaped s p r s').
Proof.
  intros Hs HP Hcpu Hpt. pose proof Hcpu as [Hc Ht Hy Hst Hk Hkp Hw]. destruct (on_cpu_alive _ _ _ _ _ _ Hs Hcpu) as [Hne _].
  destruct (po_pend _ _ HP _ _ _ Hpt) as (kt' & Hkt' & Hok). simplify_eq. destruct op; simpl in Hok; try done.
  - destruct Hok as (_ & Hkont & Hd). rewrite Hw in Hd. simpl in Hd.
    destruct (wait_any_step s _ 0 _ y t kt Hs Hcpu eq_refl) as [(d & x & u & r & E & Hs' & Hin & Hx & Hdead & Hu & Hh)|(kont & _ & _ & _ & Hno)]; [|done].
    eexists _, _. split_and!; [by rewrite Hkont|eapply minv_disposed; try done; [apply lookup_delete_eq|intros; by apply lookup_delete_ne]|].
    intros _. exists y, d, x. split_and!; try done; [|apply lookup_delete_eq|by eapply disposed_loss]. simpl. intros [??]%list_elem_of_filter. done.
  - destruct Hok as (_ & Hkont & _). eexists _, _. split_and!; [by rewrite Hkont| |done]. rewrite no_loss by done. exists (kt_proc kt), y. split_and!; [done|done|done| |by exists t, kt].
    eapply (pends_step s s pend _ t); [done| |intros; by apply lookup_delete_ne|].
    + intros u _. apply calm_same; [done|done|]. intros. by apply dead_same_procs.
    + intros kt' Hkt2. simpl in Hkt2. simplify_eq. split; [by rewrite lookup_delete_eq|congruence].
Qed.

(** * The switch *)

Lemma keep_live_id s pend : pends_ok s pend → keep_live s pend = pend.
Proof.
  intros [P1 _]. apply map_filter_id. intros t [op k] Hp. destruct (P1 _ _ _ Hp) as (kt & Hkt & _). simpl. eauto.
Qed.

Lemma psinv_mem s c r d : psinv lost s c → mem_ok lost (set_mem r s) d (held s) → psinv lost (set_mem r s) d.
Proof. intros [P1 P2 P3 P4 P5 P6 P7 P8] Hm. by split. Qed.

(** A thread leaves the run queue. *)
Lemma pends_picked s c pend t k ks :
  psinv lost s c → pends_ok s pend → ks_threads (py_ks s) !! t = Some k → kt_wchan k = Some RunQ →
  ks_threads ks = <[t := with_qlink None (with_wchan None k)]> (ks_threads (py_ks s)) → pends_ok (set_ks ks s) pend.
Proof.
  intros Hs HP Hk Hw E. assert (Hlive : keep_live (set_ks ks s) pend = pend).
  { apply map_filter_id. intros u [op k'] Hp. destruct (po_pend _ _ HP _ _ _ Hp) as (kt & Hkt & _). simpl.
    change (py_ks (set_ks ks s)) with ks. rewrite E, lookup_insert_is_Some'. eauto. }
  rewrite <- Hlive. eapply pends_move; [exact HP|exact E|done| |done]. intros op k' Hp. destruct (po_pend _ _ HP _ _ _ Hp) as (kt & Hkt & Hok).
  rewrite Hk in Hkt. injection Hkt as <-. destruct op; simpl in *; try done; rewrite Hw in Hok; simpl in Hok; naive_solver.
Qed.

Lemma switch_to_run s pend c ipl :
  psinv lost s c → pends_ok s pend →
  (switch_to ipl s = RRet None s) ∨ (∃ t s', switch_to ipl s = RRet (Some t) s' ∧ minv (PMachine s' MRun pend lost) ∧ ks_curthr (py_ks s') = Some t).
Proof.
  intros Hs HP. pose proof (pv_wf Hs) as Hwf. destruct (wf_runq _ Hwf) as [Q HQ]. unfold switch_to, switch_pick.
  destruct (decide (tq_list Q = [])) as [E|Hne].
  { left. erewrite sched_next by (by eapply ktqueue_dequeue_empty). by rewrite set_ks_id. }
  right. destruct (exists_last Hne) as (l & t & E). destruct (wf_on _ Hwf _ _ t HQ) as (k & Hk & Hw & Hst); [rewrite E; set_solver|].
  erewrite sched_next by (by eapply ktqueue_dequeue_run; [..|rewrite (wf_qlink _ Hwf _ _ Hk)]). simpl in Hst.
  set (k1 := with_qlink None (with_wchan None k)). set (ks1 := q_drop RunQ t k (py_ks s)). assert (Hk1 : ks_threads ks1 !! t = Some k1) by apply lookup_insert_eq.
  assert (Hs1 : psinv lost (set_ks ks1 s) c).
  { eapply (psinv_move s c _ t k k1); try done; [by eapply wf_drop|by rewrite Hst|by simpl; rewrite Hst|intros q; apply drop_queues]. }
  set (ks2 := set_cur (Some t) (Some (kt_proc k)) (set_ipl ipl ks1)). assert (Hs2 : psinv lost (set_ks ks2 s) c) by (by apply (psinv_same_threads _ _ ks2) in Hs1).
  cbv beta iota. erewrite sched_next; [|unfold switch_commit, intr_setipl; rewrite kmodify_next; rewrite (kbind_of_ret _ _ _ k1 (set_ipl ipl ks1)) by (by apply get_thread_run); reflexivity].
  rewrite kget_next. destruct (th_thread _ _ _ (pv_threads Hs) _ _ Hk) as (x & Hx & Et).
  destruct (th_proc _ _ _ (pv_threads Hs) _ _ Hx) as (t' & k' & [O1 O2 _ (cx & Hcx & Hpd & _) _ O6 _]).
  assert (t' = t) as -> by congruence. assert (k' = k) as -> by congruence. rewrite (kderef_next _ cx) by done.
  destruct (mem_pt_set (set_ks ks2 s) c (held s) (p_pagedir x) (pv_mem Hs2)) as (r & Er & Hm).
  { apply (held_sub s c _ _ Hs Hx). right. left. }
  unfold context_switch. rewrite Hpd. erewrite res_next by exact Er. eexists t, _. split_and!; [done| |done].
  exists (kt_proc k), x. split_and!; [done|done|by apply (psinv_mem (set_ks ks2 s) c)| |].
  - destruct (pends_picked s c pend t k ks2 Hs HP Hk Hw eq_refl) as [P1 P2]. by split.
  - exists t, k1. split; try done. destruct (p_state x) eqn:Ex; [done|]. destruct O6 as [O6 _]. rewrite O6 in Hst; done.
Qed.

(** * Steps *)

Lemma oom_stops {A} (r : kres (psys R) A) : out_of_memory r → match r with RPanic _ | RFault _ => True | _ => False end.
Proof. by intros [->|[->|[->| ->]]]. Qed.

End Inv.

Lemma minv_step {R : Type} `{ProcMem R} `{!ProcMemLaws R} `{KMem R} (M M' : @pmachine R) : minv M → pstep M M' → minv M'.
Proof.
  intros (p & x & Hc & Hx & Hs & HP & Hmode) Hstep. destruct Hstep as
    [s pend lost0 t op r s' Ht Hpt Ha E|s pend lost0 t op s' k ipl s'' Ht Hpt Ha E E'|s pend lost0 t op k r s' Ht Hpt E|s pend lost0 t op k s' k' ipl s'' Ht Hpt E E'|s ipl pend lost0 t s' E];
    cbn [pm_sys pm_mode pm_pend pm_lost] in *; try (destruct Hmode as (t' & kt & Hcpu); assert (t' = t) as -> by (pose proof (oc_curthr _ _ _ _ _ Hcpu); congruence)).
  - destruct op.
    + destruct (spawn_after s pend p x t kt name Hs HP Hcpu Ha) as [Hr|(r' & s1 & Hr & HM)]; [|congruence]. apply oom_stops in Hr. by rewrite E in Hr.
    + destruct (exit_after s pend p x t kt (OpExit status) Hs HP Hcpu Ha I) as (s1 & k1 & Hr & _). congruence.
    + destruct (exit_after s pend p x t kt (OpReturn retval) Hs HP Hcpu Ha I) as (s1 & k1 & Hr & _). congruence.
    + destruct (wait_after s pend p x t kt Hs HP Hcpu Hpt) as [(r' & s1 & Hr & HM)|(s1 & k1 & Hr & _)]; congruence.
    + destruct (yield_after s pend p x t kt Hs HP Hcpu) as (s1 & k1 & Hr & _). congruence.
  - destruct op.
    + destruct (spawn_after s pend p x t kt name Hs HP Hcpu Ha) as [Hr|(r' & s1 & Hr & HM)]; [|congruence]. apply oom_stops in Hr. by rewrite E in Hr.
    + destruct (exit_after s pend p x t kt (OpExit status) Hs HP Hcpu Ha I) as (s1 & k1 & Hr & HA). rewrite E in Hr. injection Hr as <- <-. by eapply after_enter.
    + destruct (exit_after s pend p x t kt (OpReturn retval) Hs HP Hcpu Ha I) as (s1 & k1 & Hr & HA). rewrite E in Hr. injection Hr as <- <-. by eapply after_enter.
    + destruct (wait_after s pend p x t kt Hs HP Hcpu Hpt) as [(r' & s1 & Hr & HM)|(s1 & k1 & Hr & HA)]; [congruence|]. rewrite E in Hr. injection Hr as <- <-. by eapply after_enter.
    + destruct (yield_after s pend p x t kt Hs HP Hcpu) as (s1 & k1 & Hr & HA). rewrite E in Hr. injection Hr as <- <-. by eapply after_enter.
  - destruct (resume_run s pend p x t kt op k Hs HP Hcpu Hpt) as (r' & s1 & Hr & HM & _). congruence.
  - destruct (resume_run s pend p x t kt op k Hs HP Hcpu Hpt) as (r' & s1 & Hr & HM & _). congruence.
  - destruct (switch_to_run s pend _ ipl Hs HP) as [Hr|(t' & s1 & Hr & HM & _)]; [congruence|]. rewrite E in Hr. by injection Hr as <- <-.
Qed.
