(* ===== verification/ProcProps.v ===== *)
(** Processes: the start of the first two, and the theorems about the process machine. *)

From stdpp Require Import base numbers list gmap strings relations.
From S2P Require Import Prelude Sched Mutex PageAlloc Slab KMem PageTable Vfs Proc ProcInv ProcExit ProcMachine.

Open Scope Z_scope.

Section Start.
Context {R : Type} `{ProcMem R} `{!ProcMemLaws R} `{KMem R}.

(** * The first two processes *)

(** No process has been created; [c] is the page directory of the boot. *)
Record fresh_system (s : psys R) (c : Z) : Prop := {
  fs_wf : wf (py_ks s);
  fs_threads : ks_threads (py_ks s) = ∅;
  fs_curproc : ks_curproc (py_ks s) = None;
  fs_procs : py_procs s = ∅;
  fs_list : py_list s = [];
  fs_next : py_next_pid s = 0;
  fs_mem : mem_ok [] s c []
}.

Lemma proc_getid_next (s : psys R) :
  (∀ p, p ∈ py_list s → is_Some (py_procs s !! p)) → py_next_pid s ∉ pids s →
  _proc_getid s = RRet (py_next_pid s) (with_next_pid ((py_next_pid s + 1) `mod` PROC_MAX_COUNT) s).
Proof. intros Hdom Hn. unfold _proc_getid. rewrite kget_next, getid_loop_step by done. by rewrite bool_decide_eq_false_2. Qed.

Record idle_only (s : psys R) (p t : positive) (dir map stack : Z) : Prop := {
  io_wf : wf (py_ks s);
  io_threads : ks_threads (py_ks s) = {[t := new_thread p]};
  io_curthr : ks_curthr (py_ks s) = Some t;
  io_curproc : ks_curproc (py_ks s) = Some p;
  io_queue : is_Some (ks_queues (py_ks s) !! ProcQ p);
  io_procs : py_procs s = {[p := set_pthreads [t] (new_proc PID_IDLE "IDLE" None dir map)]};
  io_list : py_list s = [p];
  io_next : py_next_pid s = 1;
  io_ctx : py_ctx s !! t = Some (Context stack dir);
  io_dir : dir ≠ NULL;
  io_stack : stack ≠ NULL;
  io_mem : mem_ok [] s dir (map_res map ++ [RObj sizeof_proc (Zpos p); RDir dir; RObj sizeof_kthread (Zpos t); RPages STACK_PAGES stack])
}.

Lemma no_threads_queue ks q Q : wf ks → ks_threads ks = ∅ → ks_queues ks !! q = Some Q → tq_list Q = [].
Proof.
  intros Hwf He HQ. destruct (tq_list Q) as [|t l] eqn:E; [done|]. destruct (wf_on _ Hwf _ _ t HQ) as (k & Hk & _); [rewrite E; left|].
  by rewrite He in Hk.
Qed.

Lemma lone_thread_queue ks t p q Q : wf ks → ks_threads ks = {[t := new_thread p]} → ks_queues ks !! q = Some Q → tq_list Q = [].
Proof.
  intros Hwf He HQ. destruct (tq_list Q) as [|u l] eqn:E; [done|]. destruct (wf_on _ Hwf _ _ u HQ) as (k & Hk & Hw & _); [rewrite E; left|].
  rewrite He, lookup_singleton_Some in Hk. by destruct Hk as [_ <-].
Qed.

Lemma bootstrap_run s c :
  fresh_system s c → out_of_memory (bootstrap s) ∨ ∃ t s' p dir map stack, bootstrap s = RRet t s' ∧ idle_only s' p t dir map stack.
Proof.
  intros [Hwf Ht Hc Hp Hl Hn Hm]. unfold bootstrap.
  assert (Hid : _proc_getid s = RRet PID_IDLE (with_next_pid 1 s)).
  { rewrite proc_getid_next, Hn; [done|rewrite Hl; by intros ? ?%elem_of_nil|]. unfold pids. rewrite Hl. apply not_elem_of_nil. }
  destruct (proc_create_born (lost := []) s c [] None "IDLE" PID_IDLE 1) as [E|(p & dir & map & r & E & Hf & Hm1)]; try done.
  { intros q x. by rewrite Hp. }
  { left. left. by apply kbind_of_fault. }
  rewrite (kbind_of_ret _ _ _ _ _ E). erewrite sched_next by reflexivity. set (y := new_proc _ _ _ _ _) in *.
  rewrite (get_proc_next _ y) by (simpl; apply lookup_insert_eq). rewrite kassert_next by done.
  match goal with |- context [kbind (kthread_create p) _ ?S0] => set (s1 := S0) end.
  destruct (kthread_create_run s1 c _ p y Hm1) as [Eo|(t & stack & a & r2 & E2 & Hd & Hk & Hm2)]; [apply lookup_insert_eq| |].
  { left. by apply oom_bind. }
  simpl in Hd. right. rewrite (kbind_of_ret _ _ _ _ _ E2). erewrite sched_next by reflexivity. rewrite kget_next.
  rewrite (kderef_next _ (Context stack dir)) by (simpl; apply lookup_insert_eq). unfold context_make_active, dir_res in *.
  rewrite (proj2 (Z.eqb_neq _ _) Hd) in Hm2. match goal with |- context [kbind (res_call _) _ ?S0] => set (s2 := S0) end.
  destruct (mem_pt_set s2 c _ dir Hm2) as (r3 & E3 & Hm3); [set_solver|]. erewrite res_next by exact E3.
  eexists t, _, p, dir, map, stack. split; [reflexivity|].
  assert (Hp' : <[p := y]> (py_procs s) = {[p := y]}) by (by rewrite Hp).
  split; try done.
  - eapply (wf_ext (set_threads <[t := new_thread p]> (set_queues <[ProcQ p := KTQueue [] 0]> (py_ks s)))); [done|done|].
    apply wf_set_thread; [|by simpl; rewrite Ht|done|done]. apply wf_init_queue; [done|]. intros Q. by apply no_threads_queue.
  - change (<[t := new_thread p]> (ks_threads (py_ks s)) = {[t := new_thread p]}). by rewrite Ht.
  - change (is_Some (<[ProcQ p := KTQueue [] 0]> (ks_queues (py_ks s)) !! ProcQ p)). by rewrite lookup_insert_eq.
  - simpl. rewrite Hp, !insert_empty, insert_singleton_eq. done.
  - simpl. by rewrite Hl.
  - simpl. apply lookup_insert_eq.
  - eapply mem_perm; [|exact Hm3]. simpl. solve_Permutation.
Qed.

(** The two processes. *)
Section Two.
Context (p0 p1 : positive) (z0 z1 : proc).
Abbreviation two := (<[p1 := z1]> {[p0 := z0]} : gmap positive proc).

Lemma two_1 : two !! p1 = Some z1.
Proof. apply lookup_insert_eq. Qed.
Lemma two_inv q w : two !! q = Some w → (q = p1 ∧ w = z1) ∨ (q = p0 ∧ w = z0).
Proof. rewrite lookup_insert_Some, lookup_singleton_Some. naive_solver. Qed.


Hypothesis Hp : p0 ≠ p1.
Lemma two_0 : two !! p0 = Some z0.
Proof. rewrite lookup_insert_ne by done. apply lookup_singleton_eq. Qed.

Context (t0 t1 : positive).
Hypothesis Hz0 : p_pid z0 = PID_IDLE ∧ p_threads z0 = [t0] ∧ p_children z0 = [p1] ∧ p_state z0 = PROC_RUNNING ∧ p_pagedir z0 ≠ NULL.
Hypothesis Hz1 : p_pid z1 = PID_INIT ∧ p_threads z1 = [t1] ∧ p_children z1 = [] ∧ p_state z1 = PROC_RUNNING ∧ p_pagedir z1 ≠ NULL ∧ p_pproc z1 = Some p0.
Lemma tree_two : tree two (Some p1).
Proof.
  destruct Hz0 as (A1 & A2 & A3 & A4 & A5), Hz1 as (B1 & B2 & B3 & B4 & B5 & B6). pose proof two_0. pose proof two_1. split.
  - intros q w [[-> ->]|[-> ->]]%two_inv; rewrite ?A1, ?B1; done.
  - intros q1 q2 w1 w2 [[-> ->]|[-> ->]]%two_inv [[-> ->]|[-> ->]]%two_inv; rewrite ?A1, ?B1; done.
  - by exists p1, z1, p0, z0.
  - intros q w [[-> ->]|[-> ->]]%two_inv Hni; [|done]. exists p0, z0. rewrite A3. split_and!; [done|done|left|done].
  - intros q w d [[-> ->]|[-> ->]]%two_inv; rewrite ?A3, ?B3; [by intros ?%elem_of_nil|]. intros ->%list_elem_of_singleton. exists z1. split_and!; [done|done|by rewrite B1|done].
  - intros q w [[-> ->]|[-> ->]]%two_inv; rewrite ?A3, ?B3; [constructor|apply NoDup_singleton].
  - intros q w [[-> ->]|[-> ->]]%two_inv; rewrite ?A4, ?B4; done.
Qed.

Lemma threads_two ks ctx st0 st1 k0 k1 :
  t0 ≠ t1 → ks_threads ks = <[t1 := k1]> {[t0 := k0]} → kt_proc k0 = p0 → kt_proc k1 = p1 → kt_state k0 = KT_RUN → kt_state k1 = KT_RUN →
  kt_wchan k0 = None → kt_wchan k1 = Some RunQ → ctx !! t0 = Some (Context st0 (p_pagedir z0)) → ctx !! t1 = Some (Context st1 (p_pagedir z1)) →
  st0 ≠ NULL → st1 ≠ NULL → is_Some (ks_queues ks !! ProcQ p0) → is_Some (ks_queues ks !! ProcQ p1) → threads ks ctx two.
Proof.
  intros Ht Eks K0 K1 S0 S1 W0 W1 C0 C1 N0 N1 Q0 Q1. destruct Hz0 as (A1 & A2 & A3 & A4 & A5), Hz1 as (B1 & B2 & B3 & B4 & B5 & B6).
  pose proof two_0. pose proof two_1. assert (L0 : ks_threads ks !! t0 = Some k0) by (rewrite Eks, lookup_insert_ne by done; apply lookup_singleton_eq).
  assert (L1 : ks_threads ks !! t1 = Some k1) by (rewrite Eks; apply lookup_insert_eq).
  assert (L : ∀ t k, ks_threads ks !! t = Some k → (t = t1 ∧ k = k1) ∨ (t = t0 ∧ k = k0)).
  { intros t k. rewrite Eks, lookup_insert_Some, lookup_singleton_Some. naive_solver. }
  split.
  - intros q w [[-> ->]|[-> ->]]%two_inv; [exists t1, k1|exists t0, k0]; split; try done; first [by eauto|by rewrite ?A4, ?B4, ?S0, ?S1].
  - intros t k [[-> ->]|[-> ->]]%L; rewrite ?K0, ?K1; eauto.
  - intros q w [[-> ->]|[-> ->]]%two_inv; done.
  - intros t k q [[-> ->]|[-> ->]]%L; congruence.
Qed.
End Two.

Lemma initproc_run s p0 t0 dir0 map0 st0 :
  idle_only s p0 t0 dir0 map0 st0 →
  out_of_memory (initproc_create s) ∨
  ∃ p1 dir1 map1 t1 st1 a r, let y1 := new_proc PID_INIT "INIT" (Some p0) dir1 map1 in
    let s' := threaded (born s (Some p0) p1 y1 2 r) p1 y1 t1 st1 a r in
    initproc_create s = RRet t1 s' ∧ p0 ≠ p1 ∧ t0 ≠ t1 ∧ dir1 ≠ NULL ∧ st1 ≠ NULL ∧
    mem_ok [] s' dir0 (map_res map0 ++ map_res map1 ++ [RObj sizeof_kthread (Zpos t1); RPages STACK_PAGES st1; RObj sizeof_proc (Zpos p1); RDir dir1;
      RObj sizeof_proc (Zpos p0); RDir dir0; RObj sizeof_kthread (Zpos t0); RPages STACK_PAGES st0]).
Proof.
  intros [Hwf Ht Hct Hcp HQ Hp Hl Hn Hcx Hd Hst Hm]. unfold initproc_create.
  assert (Hid : _proc_getid s = RRet PID_INIT (with_next_pid 2 s)).
  { rewrite proc_getid_next, Hn; [done| |]; unfold pids; rewrite Hl, Hp.
    - intros q ->%list_elem_of_singleton. by rewrite lookup_singleton_eq.
    - cbn [omap list_omap]. rewrite lookup_singleton_eq. simpl. intros E%list_elem_of_singleton. unfold PID_IDLE in E. lia. }
  destruct (proc_create_born s dir0 _ (Some p0) "INIT" PID_INIT 2 Hm) as [E|(p1 & dir1 & map1 & r & E & Hf & Hm1)]; try done.
  { intros q x. rewrite Hp, lookup_singleton_Some. intros [<- _]. set_solver. }
  { intros ? [= <-]. rewrite Hp, lookup_singleton_eq. eauto. }
  { intros _. exists p0. eexists. rewrite Hp, lookup_singleton_eq. done. }
  { left. left. by apply kbind_of_fault. }
  rewrite (kbind_of_ret _ _ _ _ _ E). set (y1 := new_proc PID_INIT _ _ _ _) in *. assert (p0 ≠ p1) by (intros ->; by rewrite Hp, lookup_singleton_eq in Hf).
  rewrite (get_proc_next _ y1) by (simpl; apply lookup_insert_eq). rewrite kassert_next by done.
  destruct (kthread_create_run _ _ _ p1 y1 Hm1) as [Eo|(t1 & st1 & a & r2 & E2 & Hd1 & Hk1 & Hm2)]; [apply lookup_insert_eq|by left|].
  right. simpl in Hd1. unfold dir_res in Hm2. rewrite (proj2 (Z.eqb_neq _ _) Hd1) in Hm2. exists p1, dir1, map1, t1, st1, a, r2. split_and!; try done.
  2:{ eapply mem_perm; [|exact Hm2]. simpl. solve_Permutation. }
  intros <-. pose proof (mem_nodup _ _ _ Hm2) as [Hn1 _]%NoDup_cons. apply Hn1. set_solver.
Qed.

Lemma psinv_two (s : psys R) p0 t0 p1 t1 z0 z1 k0 k1 st0 st1 :
  p0 ≠ p1 → t0 ≠ t1 → py_procs s = <[p1 := z1]> {[p0 := z0]} → ks_threads (py_ks s) = <[t1 := k1]> {[t0 := k0]} →
  p_pid z0 = PID_IDLE ∧ p_threads z0 = [t0] ∧ p_children z0 = [p1] ∧ p_state z0 = PROC_RUNNING ∧ p_pagedir z0 ≠ NULL →
  p_pid z1 = PID_INIT ∧ p_threads z1 = [t1] ∧ p_children z1 = [] ∧ p_state z1 = PROC_RUNNING ∧ p_pagedir z1 ≠ NULL ∧ p_pproc z1 = Some p0 →
  kt_proc k0 = p0 → kt_proc k1 = p1 → kt_state k0 = KT_RUN → kt_state k1 = KT_RUN → kt_wchan k0 = None → kt_wchan k1 = Some RunQ →
  p_files z0 = replicate (Z.to_nat NFILES) NULL → p_files z1 = replicate (Z.to_nat NFILES) NULL →
  wf (py_ks s) → py_list s = [p0; p1] → py_next_pid s = 2 → py_initproc s = Some p1 →
  py_ctx s !! t0 = Some (Context st0 (p_pagedir z0)) → py_ctx s !! t1 = Some (Context st1 (p_pagedir z1)) → st0 ≠ NULL → st1 ≠ NULL →
  is_Some (ks_queues (py_ks s) !! ProcQ p0) → is_Some (ks_queues (py_ks s) !! ProcQ p1) →
  mem_ok [] s (p_pagedir z0) (map_res (p_vmmap z0) ++ map_res (p_vmmap z1) ++ [RObj sizeof_kthread (Zpos t1); RPages STACK_PAGES st1; RObj sizeof_proc (Zpos p1); RDir (p_pagedir z1);
      RObj sizeof_proc (Zpos p0); RDir (p_pagedir z0); RObj sizeof_kthread (Zpos t0); RPages STACK_PAGES st0]) →
  psinv [] s (p_pagedir z0).
Proof.
  intros Hp Ht Ep Et Hz0 Hz1 K0 K1 S0 S1 W0 W1 F0 F1 Hwf Hl Hn Hi C0 C1 N0 N1 Q0 Q1 Hm.
  pose proof (two_0 p0 p1 z0 z1 Hp) as L0. pose proof (two_1 p0 p1 z0 z1) as L1. split.
  - done.
  - rewrite Hl. repeat constructor; set_solver.
  - intros q. rewrite Hl, Ep, lookup_insert_is_Some', lookup_singleton_is_Some, elem_of_cons, list_elem_of_singleton. naive_solver.
  - by rewrite Hn.
  - rewrite Ep, Hi. by eapply tree_two.
  - rewrite Ep. by eapply threads_two.
  - intros q w f. rewrite Ep. intros [[-> ->]|[-> ->]]%two_inv; rewrite ?F0, ?F1; by intros [-> _]%elem_of_replicate.
  - eapply mem_perm; [|exact Hm]. rewrite held_res_of, Hl, Ep, !bind_cons. unfold res_of, proc_res, thread_res. rewrite L0, L1.
    destruct Hz0 as (_ & -> & _), Hz1 as (_ & -> & _). rewrite !bind_cons, C0, C1. simpl. solve_Permutation.
Qed.

Lemma start_run s c : fresh_system s c →
  out_of_memory (start_processes s) ∨ ∃ t s', start_processes s = RRet t s' ∧ minv (PMachine s' MRun ∅ []).
Proof.
  intros Hs. unfold start_processes. destruct (bootstrap_run s c Hs) as [Eo|(t0 & sA & p0 & dir0 & map0 & st0 & EA & HA)].
  { left. by apply oom_bind. }
  rewrite (kbind_of_ret _ _ _ _ _ EA). destruct (initproc_run sA p0 t0 dir0 map0 st0 HA) as [Eo|(p1 & dir1 & map1 & t1 & st1 & a & r & E & Hp & Ht & Hd1 & Hk1 & Hm)].
  { left. by apply oom_bind. }
  right. rewrite (kbind_of_ret _ _ _ _ _ E). set (y1 := new_proc PID_INIT _ _ _ _) in *. set (sB := threaded _ _ _ _ _ _ _) in *.
  destruct HA as [Hwf Hth Hct Hcp HQ Hps Hl Hn Hcx Hd Hst _].
  set (z0 := set_children [p1] (set_pthreads [t0] (new_proc PID_IDLE "IDLE" None dir0 map0))). set (z1 := set_pthreads [t1] y1).
  assert (Hrun : is_Some (ks_queues (py_ks sA) !! RunQ)) by apply Hwf.
  unfold sched_init. erewrite sched_next by reflexivity.
  erewrite sched_next; [|apply (sched_make_runnable_run _ t1 (new_thread p1)); [apply lookup_insert_eq| |done|done]].
  2:{ change (is_Some (<[RunQ := KTQueue [] 0]> (ks_queues (py_ks sB)) !! RunQ)). by rewrite lookup_insert_eq. }
  eexists t1, _. split; [reflexivity|]. match goal with |- minv (PMachine ?S _ _ _) => set (sC := S) end.
  assert (Hprocs : py_procs sC = <[p1 := z1]> {[p0 := z0]}).
  { unfold sC, sB. simpl. rewrite Hps, insert_insert_eq, alter_singleton_eq. done. }
  assert (Hthr : ks_threads (py_ks sC) = <[t1 := with_qlink (Some RunQ) (with_wchan (Some RunQ) (new_thread p1))]> {[t0 := new_thread p0]}).
  { change (ks_threads (py_ks sC)) with (<[t1 := with_qlink (Some RunQ) (with_wchan (Some RunQ) (new_thread p1))]> (<[t1 := new_thread p1]> (ks_threads (py_ks sA)))).
    by rewrite insert_insert_eq, Hth. }
  set (ksC := q_push RunQ t1 (with_state KT_RUN (new_thread p1)) (set_queues <[RunQ := KTQueue [] 0]> (set_threads <[t1 := new_thread p1]>
    (set_queues <[ProcQ p1 := KTQueue [] 0]> (py_ks sA))))).
  assert (Hpsinv : psinv [] sC dir0).
  { eapply (psinv_two sC p0 t0 p1 t1 z0 z1 (new_thread p0) _ st0 st1); try done.
    - change (py_ks sC) with ksC. apply wf_push; [|simpl; intros k; rewrite lookup_insert_eq; by intros [= <-]|simpl; by rewrite lookup_insert_eq|done].
      apply wf_init_queue; [|simpl; intros Q; rewrite lookup_insert_ne by done; by apply (lone_thread_queue _ t0 p0)]. apply wf_set_thread; [|simpl; rewrite Hth, lookup_singleton_ne by done; done|done|done].
      apply wf_init_queue; [done|]. intros Q. by apply (lone_thread_queue _ t0 p0).
    - by unfold sC; simpl; rewrite Hl.
    - unfold sC. simpl. by rewrite lookup_insert_ne.
    - unfold sC. simpl. apply lookup_insert_eq.
    - change (py_ks sC) with ksC. apply push_queues. simpl. by rewrite !lookup_insert_ne by congruence.
    - change (py_ks sC) with ksC. apply push_queues. simpl. by rewrite lookup_insert_ne, lookup_insert_eq by done. }
  exists p0, z0. cbn [pm_sys pm_mode pm_pend pm_lost]. split_and!; [done|rewrite Hprocs; by apply two_0|done| |].
  - split; [done|]. intros t k. rewrite Hthr, lookup_insert_Some, lookup_singleton_Some. naive_solver.
  - exists t0, (new_thread p0). split; try done; [rewrite Hprocs; by apply two_0|]. rewrite Hthr, lookup_insert_ne by done. apply lookup_singleton_eq.
Qed.
End Start.

(** * Running the machine *)

Section Exec.
Context {R : Type} `{ProcMem R} `{KMem R}.

Definition allowed_b (s : psys R) (op : pop) : bool :=
  match op with
  | OpSpawn name => (Z.of_nat (length (py_list s)) <? PROC_MAX_COUNT) && (Z.of_nat (String.length name) <? PROC_NAME_LEN)
  | OpExit _ | OpReturn _ => if cur_proc s is Some x then negb (p_pid x =? PID_IDLE) && negb (p_pid x =? PID_INIT) else false
  | OpWait | OpYield => true
  end.

Lemma allowed_b_ok s op : allowed_b s op = true → allowed s op.
Proof.
  assert (Hex : (if cur_proc s is Some x then negb (p_pid x =? PID_IDLE) && negb (p_pid x =? PID_INIT) else false) = true →
    ∀ p x, ks_curproc (py_ks s) = Some p → py_procs s !! p = Some x → p_pid x ≠ PID_IDLE ∧ p_pid x ≠ PID_INIT).
  { intros E p x Hp Hx. unfold cur_proc in E. rewrite Hp in E. simpl in E. rewrite Hx in E.
    apply andb_prop in E as [?%negb_true_iff%Z.eqb_neq ?%negb_true_iff%Z.eqb_neq]. done. }
  destruct op; simpl; [|exact Hex|exact Hex|done|done]. intros [?%Z.ltb_lt ?%Z.ltb_lt]%andb_prop. done.
Qed.

Definition enter (s0 s : psys R) (t : positive) (op : pop) (k : kM (psys R) (Z * option Z)) pend lost : option (pmachine R) :=
  match sched_call switch_enter s with
  | RRet ipl s' => Some (PMachine s' (MSwitch ipl) (keep_live s' (<[t := (op, k)]> pend)) (newly_lost s0 s' ++ lost))
  | _ => None
  end.

(** One step: [op] is what the thread does if it is not in a call. *)
Definition advance (op : pop) (M : pmachine R) : option (pmachine R) :=
  let (s, mode, pend, lost) := M in
  match mode with
  | MSwitch ipl => if switch_to ipl s is RRet (Some _) s' then Some (PMachine s' MRun pend lost) else None
  | MRun =>
      t ← ks_curthr (py_ks s);
      match pend !! t with
      | None =>
          if allowed_b s op then
            match run_pop op s with
            | RRet _ s' => Some (PMachine s' MRun (keep_live s' pend) (newly_lost s s' ++ lost))
            | RSwitch s' k => enter s s' t op k pend lost
            | _ => None
            end
          else None
      | Some (op, k) =>
          match k s with
          | RRet _ s' => Some (PMachine s' MRun (keep_live s' (delete t pend)) (newly_lost s s' ++ lost))
          | RSwitch s' k' => enter s s' t op k' pend lost
          | _ => None
          end
      end
  end.

Lemma advance_step op M M' : advance op M = Some M' → pstep M M'.
Proof.
  destruct M as [s [|ipl] pend lost]; simpl.
  - destruct (ks_curthr (py_ks s)) as [t|] eqn:Ht; [simpl|done]. destruct (pend !! t) as [[op' k]|] eqn:Hp.
    + destruct (k s) as [r s'| | |s' k'|] eqn:E; try done; [intros [= <-]; by eapply pstep_resume|].
      unfold enter. destruct (sched_call switch_enter s') eqn:E'; try done. intros [= <-]. by eapply pstep_stop_again.
    + destruct (allowed_b s op) eqn:Ha; [apply allowed_b_ok in Ha|done].
      destruct (run_pop op s) as [r s'| | |s' k'|] eqn:E; try done; [intros [= <-]; by eapply pstep_call|].
      unfold enter. destruct (sched_call switch_enter s') eqn:E'; try done. intros [= <-]. by eapply pstep_stop.
  - destruct (switch_to ipl s) as [[t|] s'| | | |] eqn:E; try done. intros [= <-]. by eapply pstep_dispatch.
Qed.

Fixpoint exec (ops : list pop) (M : pmachine R) : option (pmachine R) :=
  match ops with [] => Some M | op :: ops => advance op M ≫= exec ops end.

Lemma exec_steps ops M M' : exec ops M = Some M' → rtc pstep M M'.
Proof.
  revert M. induction ops as [|op ops IH]; intros M; simpl; [intros [= ->]; apply rtc_refl|].
  destruct (advance op M) as [M1|] eqn:E; [simpl|done]. intros HM. eapply rtc_l; [by eapply advance_step|by apply IH].
Qed.
End Exec.

Section Props.
Context {R : Type} `{ProcMem R} `{!ProcMemLaws R} `{KMem R}.

(** * Pids *)

(** C6. _proc_getid ends after at most one round more than there are processes.  It
    returns a pid that no process has and starts the next search behind it, or -1
    when every pid is taken, and changes nothing then. *)
Theorem proc_getid_correct (s : psys R) :
  (∀ p, p ∈ py_list s → is_Some (py_procs s !! p)) → 0 ≤ py_next_pid s < PROC_MAX_COUNT →
  ∃ pid s', _proc_getid s = RRet pid s' ∧
    ((0 ≤ pid < PROC_MAX_COUNT ∧ pid ∉ pids s ∧ s' = with_next_pid ((pid + 1) `mod` PROC_MAX_COUNT) s) ∨
     (pid = -1 ∧ s' = s ∧ ∀ q, 0 ≤ q < PROC_MAX_COUNT → q ∈ pids s)).
Proof.
  intros Hdom Hn. destruct (proc_getid_run s Hdom Hn) as [(pid & n & E & Hr & Hp & ->)|[E Hall]]; eexists _, _; (split; [exact E|]); [left|right]; done.
Qed.

(** * The process machine *)

(** A state of the machine after the start and any steps. *)
Definition reachable (M : pmachine R) : Prop :=
  ∃ s c t s', fresh_system s c ∧ start_processes s = RRet t s' ∧ rtc pstep (PMachine s' MRun ∅ []) M.

Lemma reachable_minv M : reachable M → minv M.
Proof.
  intros (s & c & t & s' & Hs & E & Hr). assert (HM : minv (PMachine s' MRun ∅ [])).
  { destruct (start_run s c Hs) as [Eo|(t' & s2 & E' & HM)]; [apply oom_stops in Eo; by rewrite E in Eo|]. rewrite E in E'. by injection E' as <- <-. }
  induction Hr as [|M1 M2 M3 Hstep _ IH]; [done|]. by eapply IH, minv_step.
Qed.

Definition stops {A} (r : kres (psys R) A) : Prop := match r with RRet _ _ | RSwitch _ _ => True | _ => False end.

(** C3. Nothing goes wrong in a process machine whose threads start processes with a
    name shorter than PROC_NAME_LEN while there are fewer than PROC_MAX_COUNT of
    them, exit or return from processes other than idle and init, wait for any child,
    or yield: such a call returns or gives up the processor, no assertion fails and
    no bad address is used, unless starting a process runs out of memory; a call that
    has been stopped returns when its thread runs again; and the switch picks a
    thread or finds none.  The exits of idle and init, for which proc_cleanup walks a
    list of vnodes, are left out, and no call of the machine opens a file. *)
Theorem process_calls_safe (M : pmachine R) :
  reachable M →
  match pm_mode M with
  | MRun => ∃ t, ks_curthr (py_ks (pm_sys M)) = Some t ∧
      match pm_pend M !! t with
      | None => ∀ op, allowed (pm_sys M) op →
          stops (run_pop op (pm_sys M)) ∨ ((∃ name, op = OpSpawn name) ∧ out_of_memory (run_pop op (pm_sys M)))
      | Some (op, k) => ∃ r s', k (pm_sys M) = RRet r s'
      end
  | MSwitch ipl => ∃ t s', switch_to ipl (pm_sys M) = RRet t s'
  end.
Proof.
  intros HM%reachable_minv. destruct M as [s mode pend lost], HM as (p & x & Hc & Hx & Hs & HP & Hmode). cbn [pm_sys pm_mode pm_pend pm_lost] in *. destruct mode as [|ipl].
  - destruct Hmode as (t & k & Hcpu). exists t. split; [apply Hcpu|]. destruct (pend !! t) as [[op k']|] eqn:Ht.
    + destruct (resume_run s pend p x t k op k' Hs HP Hcpu Ht) as (r & s' & E & _). eauto.
    + intros op Ha. unfold stops. destruct op.
      * destruct (spawn_after s pend p x t k name Hs HP Hcpu Ha) as [E|(r & s' & E & _)]; [right; eauto|left; by rewrite E].
      * destruct (exit_after s pend p x t k (OpExit status) Hs HP Hcpu Ha I) as (s' & k' & E & _). left. by rewrite E.
      * destruct (exit_after s pend p x t k (OpReturn retval) Hs HP Hcpu Ha I) as (s' & k' & E & _). left. by rewrite E.
      * left. destruct (wait_after s pend p x t k Hs HP Hcpu Ht) as [(r & s' & E & _)|(s' & k' & E & _)]; by rewrite E.
      * destruct (yield_after s pend p x t k Hs HP Hcpu) as (s' & k' & E & _). left. by rewrite E.
  - destruct (switch_to_run s pend _ ipl Hs HP) as [E|(t & s' & E & _)]; eauto.
Qed.

(** C5. In every state of a process machine, in which init and the idle process
    neither exit nor return and no process opens a file, the processes are a tree:
    pids are distinct, each process but idle is on the list of children of exactly
    its parent, which is alive, and a dead process has no children; each process has
    one thread, which has exited just when the process is dead.  The slab objects,
    page directories and blocks of pages that are handed out are exactly the struct,
    the page directory and the address-space map of each of these processes, the
    struct and the stack of each thread, and the maps of the processes that are gone
    ([pm_lost]).  The slab allocators themselves, of which kthread_create makes one at
    each call, and their slabs are not part of this account. *)
Theorem process_tree_kept (M : pmachine R) :
  reachable M →
  let s := pm_sys M in
  tree (py_procs s) (py_initproc s) ∧ threads (py_ks s) (py_ctx s) (py_procs s) ∧ NoDup (py_list s) ∧
  (∀ p, p ∈ py_list s ↔ is_Some (py_procs s !! p)) ∧ ∃ c, mem_ok (pm_lost M) s c (held s).
Proof.
  intros HM%reachable_minv. destruct HM as (p & x & _ & _ & [P1 P2 P3 P4 P5 P6 P7 P8] & _). split_and!; eauto.
Qed.

(** C4. No exit is lost on a parent, other than init, that waits: a process that is
    not init and sleeps in do_waitpid(-1) has no dead child.  Once a process, init
    included, has been woken and runs, the call returns without sleeping again, with
    the pid of a dead child and the status 0, and the child is gone.  The child's
    struct, its page directory, the struct of its thread and the stack are given
    back; its address-space map is not, it stays allocated and nothing refers to
    it. *)
Theorem waitpid_reaps (M : pmachine R) t k kt :
  reachable M → pm_pend M !! t = Some (OpWait, k) → ks_threads (py_ks (pm_sys M)) !! t = Some kt →
  (kt_wchan kt = Some (ProcQ (kt_proc kt)) → py_initproc (pm_sys M) = Some (kt_proc kt) ∨ ¬ has_dead (py_procs (pm_sys M)) (kt_proc kt)) ∧
  (pm_mode M = MRun → ks_curthr (py_ks (pm_sys M)) = Some t → ∃ r s', k (pm_sys M) = RRet r s' ∧
     reaped (pm_sys M) (kt_proc kt) r s' ∧ ∃ c, mem_ok (newly_lost (pm_sys M) s' ++ pm_lost M) s' c (held s')).
Proof.
  intros HM%reachable_minv Ht Hkt. destruct M as [s mode pend lost], HM as (p & x & Hc & Hx & Hs & HP & Hmode). cbn [pm_sys pm_mode pm_pend pm_lost] in *. split.
  - intros Hw. destruct (po_pend _ _ HP _ _ _ Ht) as (kt' & Hkt' & _ & _ & Hd). simplify_eq. by rewrite decide_True in Hd.
  - intros -> Hcur. destruct Hmode as (t' & kt' & Hcpu). pose proof Hcpu as [_ Hct _ _ Hk Hkp _]. simplify_eq.
    destruct (resume_run s pend _ x t kt OpWait k Hs HP Hcpu Ht) as (r & s' & E & (q & y & _ & _ & Hs' & _) & Hr).
    exists r, s'. split_and!; [done|by apply Hr|]. exists (p_pagedir y). exact (pv_mem Hs').
Qed.
End Props.

Module Example.

(** Two processes, and the search starts at the pid of the first. *)
Definition two_procs : gmap positive proc :=
  <[1%positive := Proc 65535 "a" [] [] None 0 PROC_RUNNING 0 [] 0 0]> {[2%positive := Proc 0 "b" [] [] None 0 PROC_RUNNING 0 [] 0 0]}.
Definition two_pids : psys unit :=
  Psys (Vfs (KState ∅ ∅ ∅ 0 None None) tt 0 0 ∅ [] ∅ [] ∅ ∅ [] 0 [] 0) two_procs [1%positive; 2%positive] None 65535 0 0 0 ∅.

Lemma proc_getid_correct_witness : ∃ pid s', _proc_getid two_pids = RRet pid s' ∧ pid = 1.
Proof.
  destruct (proc_getid_correct two_pids) as (pid & s' & E & [Hp|Hp]).
  - intros p [->|[->|[]%elem_of_nil]%elem_of_cons]%elem_of_cons; by eexists.
  - done.
  - exists pid, s'. split; [exact E|]. vm_compute in E. by injection E as <- _.
  - vm_compute in E. injection E as <- _. by destruct Hp.
Defined.
End Example.
