(* ===== verification/ProcKMem.v ===== *)
(** Processes: the slab, page and page-table code keeps what processes rely on. *)

From stdpp Require Import base numbers list gmap strings.
From S2P Require Import Prelude Sched Mutex PageAlloc Slab KMem PageTable PageTableInv PageTableProps Vfs Proc ProcInv.

Open Scope Z_scope.

Section Kernel.
Context (rs : list (Z * Z)) (saa : Z) (ly : layout).

(** * Pages under the slab allocators *)

(** The allocators [A], each with the size of its objects. *)
Definition allocs_ok (A : list (Z * Z)) (m : pstate * sstate) : Prop := ∀ a size, (a, size) ∈ A →
  a ∈ ss_list m.2 ∧ a ≠ saa ∧ a ∉ ss_kmalloc m.2 ∧ ∃ x, ss_allocators m.2 !! a = Some x ∧ sa_objsize x = size + 8.

Definition pages_inv (A L : list (Z * Z)) (K : list Z) (m : pstate * sstate) (B : list block) : Prop :=
  ranges m.1 = rs ∧ allocs_ok A m ∧ ∃ B', kinv saa m (B ++ B') L K.

Lemma allocs_keeps A m m' : keeps m m' → allocs_ok A m → allocs_ok A m'.
Proof.
  intros [_ _ Ek El Ea] HA a size Hin. destruct (HA a size Hin) as (H1 & H2 & H3 & x & Hx & Hs). rewrite El, Ek. split_and!; [done..|].
  destruct (Ea _ _ Hx) as [l Hl]. by exists (with_slabs l x).
Qed.

Lemma keeps_pages (m : pstate * sstate) p : ranges p = ranges m.1 → keeps m (p, m.2).
Proof. intros E. split; [done..|]. intros j b Hb. exists (sa_slabs b). by rewrite with_slabs_id. Qed.

Section Fixed.
Context (A L : list (Z * Z)) (K : list Z).

Lemma pages_perm m B B' : B ≡ₚ B' → pages_inv A L K m B → pages_inv A L K m B'.
Proof.
  intros HB (Hr & HA & B0 & HK). split_and!; [done|done|]. exists B0. eapply kinv_more; [exact HK| | |done].
  - destruct m. by apply keeps_pages.
  - assert (HS := ki_sinv _ _ _ _ _ HK). eapply sinv_pages with (p := m.1) in HS; [by destruct m|].
    eapply pinv_Permutation; [|apply (si_pages _ _ _ HS)]. by rewrite HB.
Qed.

Lemma pages_alloc_order m B o :
  (o < PAGE_NSIZES)%nat → pages_inv A L K m B →
  (∃ a m', _page_alloc_order slab_allocators_reclaim o m = RRet (Some a) m' ∧ 0 < a ∧ pages_inv A L K m' ((o, a) :: B)) ∨
  (∃ m', _page_alloc_order slab_allocators_reclaim o m = RRet None m' ∧ pages_inv A L K m' B).
Proof.
  intros Ho (Hrs & HA & B' & HK). pose proof (ki_sinv _ _ _ _ _ HK) as HS.
  destruct (page_alloc_order_run slab_allocators_reclaim m _ o (si_pages _ _ _ HS)) as [(a & [p ss] & Hrun & Ess & _ & Hrg & Hp)|[_ Hrec]]; [done|left|right].
  - simpl in Ess. subst ss. exists a, (p, m.2). simpl in Hrg. pose proof (keeps_pages m p Hrg) as Hk.
    split_and!; [done|apply (pinv_pos _ _ (o, a) Hp); left|]. split_and!; [simpl; congruence|by eapply allocs_keeps|]. exists B'.
    eapply kinv_more; [exact HK|exact Hk| |done]. eapply sinv_pages; [exact HS|]. eapply pinv_Permutation; [|exact Hp]. solve_Permutation.
  - destruct (reclaim_run m _ L 0 HS) as (n & m' & Hrun & HS' & Hrc & _). pose proof (reclaimed_keeps _ _ _ Hrc) as Hk.
    exists m'. split; [by eapply Hrec|]. split_and!; [rewrite (kp_ranges _ _ Hk); done|by eapply allocs_keeps|]. exists B'. by eapply kinv_more.
Qed.

Lemma pages_free_order m B o a :
  pages_inv A L K m ((o, a) :: B) → ∃ m', _page_free_order a o m = RRet tt m' ∧ pages_inv A L K m' B.
Proof.
  intros (Hrs & HA & B' & HK). pose proof (ki_sinv _ _ _ _ _ HK) as HS.
  destruct (page_free_order_run m ((block_of m.2 <$> entries m.2) ++ (B ++ B')) o a) as ([p ss] & Hrun & Ess & _ & Hrg & Hp).
  { eapply pinv_Permutation; [|apply (si_pages _ _ _ HS)]. solve_Permutation. }
  simpl in Ess, Hrg. subst ss. pose proof (keeps_pages m p Hrg) as Hk. exists (p, m.2). split; [done|].
  split_and!; [simpl; congruence|by eapply allocs_keeps|]. exists B'. eapply kinv_more; [exact HK|exact Hk|by eapply sinv_pages|done].
Qed.

Lemma pages_alloc_n m B n o :
  order_for n = Some o → pages_inv A L K m B →
  (∃ a m', pm_page_alloc_n n m = RRet a m' ∧ 0 < a ∧ pages_inv A L K m' ((o, a) :: B)) ∨
  (∃ m', pm_page_alloc_n n m = RRet NULL m' ∧ pages_inv A L K m' B).
Proof.
  intros Eo HI. assert (Ho : (o < PAGE_NSIZES)%nat).
  { unfold order_for in Eo. destruct (list_find _ _) as [[i x]|] eqn:E; [|done]. injection Eo as <-.
    apply list_find_Some in E as (E & _). apply list_elem_of_lookup_2, elem_of_seq in E. simpl. lia. }
  simpl. unfold page_alloc_n. rewrite Eo.
  destruct (pages_alloc_order m B o Ho HI) as [(a & m' & E & ? & ?)|(m' & E & ?)]; [left; exists a, m'|right; exists m'];
    by rewrite (kbind_of_ret _ _ _ _ _ E).
Qed.

Definition pages_laws : PageMemLaws (pstate * sstate) (managed rs).
Proof.
  refine {| pm_inv := pages_inv A L K |}.
  - intros m B B'. apply pages_perm.
  - intros m B (<- & _ & B' & HK). apply (pinv_pages _ _ B ((block_of m.2 <$> entries m.2) ++ B') (si_pages _ _ _ (ki_sinv _ _ _ _ _ HK))). solve_Permutation.
  - intros m B HI. destruct (pages_alloc_order m B 0 ltac:(unfold PAGE_NSIZES; lia) HI) as [(a & m' & E & ? & ?)|(m' & E & ?)];
      [left; exists a, m'|right; exists m']; simpl; unfold page_alloc; rewrite (kbind_of_ret _ _ _ _ _ E); [|done]. split_and!; [done|unfold NULL; lia|done].
  - intros m B HI. destruct (pages_alloc_n m B 2 1 eq_refl HI) as [(a & m' & E & ? & ?)|(m' & E & ?)];
      [left; exists a, m'|right; exists m']; [|done]. split_and!; [done|unfold NULL; lia|done].
  - intros m B a HI. simpl. by apply pages_free_order.
  - intros m B a HI. simpl. unfold page_free_n. change (order_for 2) with (Some 1%nat). by apply pages_free_order.
Defined.
End Fixed.

(** * What processes hold *)

Definition pti (A L : list (Z * Z)) (K : list Z) : ptstate (pstate * sstate) → list dir → list block → Prop :=
  @ptinv (managed rs) ly (pstate * sstate) slab_pagemem (pages_laws A L K).

Definition dir_of (x : res) : option Z := match x with RDir d => Some d | _ => None end.
Definition blk_of (x : res) : option block := match x with RPages n p => (λ o, (o, p)) <$> order_for n | _ => None end.

(** The directories [D] are those that are held, the template and others; so are the
    blocks; an object comes from an allocator for its size. *)
Record res_inv (A : list (Z * Z)) (c : Z) (s : ptstate (pstate * sstate)) (H : list res)
    (D : list dir) (B : list block) (L : list (Z * Z)) (K : list Z) : Prop := {
  ri_pt : pti A L K s D B;
  ri_cur : current_pagedir s = c;
  ri_template : ∃ dt, dt ∈ D ∧ d_va dt = template_pagedir s ∧ d_tabs dt = ∅;
  ri_dirs : ∃ D0, d_va <$> D ≡ₚ template_pagedir s :: omap dir_of H ++ D0;
  ri_pages : ∃ B0, B ≡ₚ omap blk_of H ++ B0;
  ri_obj size p : RObj size p ∈ H → ∃ a, (a, size) ∈ A ∧ (a, p - 4) ∈ L;
  ri_nodup : NoDup H
}.

Lemma pti_change A L K A' L' s D B m' B' :
  pti A L K s D B → pages_inv A' L' K m' ((D ≫= dir_blocks) ++ B') → pti A' L' K (with_pt_mem m' s) D B'.
Proof. intros [] ?. by split. Qed.

Lemma pti_mem A L K s D B : pti A L K s D B → pages_inv A L K (pt_mem s) ((D ≫= dir_blocks) ++ B).
Proof. intros HI. apply HI. Qed.

Lemma omap_perm {X Y} (f : X → option Y) (l l' : list X) : l ≡ₚ l' → omap f l ≡ₚ omap f l'.
Proof. by intros ->. Qed.

(** Objects, pages and directories that are handed out are not held already. *)
Lemma dirs_nodup A L K s D B : pti A L K s D B → NoDup (d_va <$> D).
Proof.
  intros HI. destruct (ptinv_pages (managed rs) ly s D B HI) as [Hn _]. apply NoDup_app in Hn as (Hn & _ & _). revert Hn. clear.
  induction D as [|d D IH]; intros Hn; [constructor|]. rewrite bind_cons in Hn. apply NoDup_app in Hn as (_ & Hd & Hn). rewrite fmap_cons.
  constructor; [|by apply IH]. intros (d' & E & Hd')%list_elem_of_fmap. apply (Hd (d_va d)); [left|]. apply list_elem_of_bind.
  exists d'. split; [rewrite E; left|done].
Qed.

Lemma blocks_nodup A L K s D B : pti A L K s D B → NoDup B.
Proof.
  intros HI. destruct (ptinv_pages (managed rs) ly s D B HI) as [Hn _]. apply NoDup_app in Hn as (_ & _ & Hn). revert Hn. clear.
  induction B as [|b B IH]; intros Hn; [constructor|]. rewrite bind_cons in Hn. apply NoDup_app in Hn as (_ & Hd & Hn).
  assert (Hb : b.2 ∈ block_pages b).
  { apply elem_of_block_pages. exists 0. split; [|lia]. pose proof (bytes_of_pos b.1). rewrite bytes_pages in *. lia. }
  constructor; [|by apply IH]. intros Hin. apply (Hd b.2 Hb). apply list_elem_of_bind. eauto.
Qed.

Lemma object_new A L K m B a size p (H : list res) :
  allocs_ok A m → kinv saa m B ((a, p - 4) :: L) K → (a, size) ∈ A → (∀ size' p', RObj size' p' ∈ H → ∃ a', (a', size') ∈ A ∧ (a', p' - 4) ∈ L) →
  RObj size p ∉ H.
Proof.
  intros HA HK Ha Hobj Hin. destruct (Hobj _ _ Hin) as (a' & Ha' & HL). pose proof (ki_sinv _ _ _ _ _ HK) as HS.
  destruct (decide (a = a')) as [<-|Hne].
  - pose proof (si_live_nodup _ _ _ HS) as Hn. apply NoDup_cons in Hn as [Hn _]. done.
  - destruct (HA _ _ Ha) as (_ & _ & _ & x & Hx & _), (HA _ _ Ha') as (_ & _ & _ & x' & Hx' & _).
    destruct (live_apart m B _ a (p - 4) x a' (p - 4) x' HS) as [E|E]; [left|by right|congruence|done|done| |].
    + destruct (si_alloc _ _ _ HS _ _ Hx) as [_ Hf]. pose proof (stride_pos _ Hf). lia.
    + destruct (si_alloc _ _ _ HS _ _ Hx') as [_ Hf]. pose proof (stride_pos _ Hf). lia.
Qed.

(** * The laws *)

Definition kernel_inv (A : list (Z * Z)) (c : Z) (s : ptstate (pstate * sstate)) (H : list res) : Prop := ∃ D B L K, res_inv A c s H D B L K.

Lemma obj_alloc_law A c s H a size :
  kernel_inv A c s H → (a, size) ∈ A → gives (kernel_inv A c) (pm_call (slab_obj_alloc a)) (RObj size) s H.
Proof.
  intros (D & B & L & K & [Hpt Hcur Ht Hd Hp Ho Hn]) Ha. destruct (pti_mem _ _ _ _ _ _ Hpt) as (Hrs & HA & B' & HK).
  destruct (HA _ _ Ha) as (Hl & _). destruct (obj_alloc_run (pt_mem s) _ L a (ki_sinv _ _ _ _ _ HK) Hl)
    as [(o & m' & Hr & Hpos & Hk & Hno & HS)|(m' & n & Hr & _ & Hrc & HS & _)].
  - left. exists (o + 4), (with_pt_mem m' s). unfold sizeof_redzone in Hr. split_and!; [by apply pm_call_run|lia|].
    assert (HK' : kinv saa m' (((D ≫= dir_blocks) ++ B) ++ B') ((a, o) :: L) K) by (eapply kinv_more; [done..|intros e; by right]).
    assert (HA' : allocs_ok A m') by (by eapply allocs_keeps).
    exists D, B, ((a, o) :: L), K. split; try done.
    + eapply pti_change; [exact Hpt|]. split_and!; [by rewrite (kp_ranges _ _ Hk)|done|eauto].
    + intros size' p' [[= -> ->]|Hin]%elem_of_cons; [exists a; replace (o + 4 - 4) with o by lia; split; [done|left]|].
      destruct (Ho _ _ Hin) as (a' & ? & ?). exists a'. split; [done|by right].
    + constructor; [|done]. eapply object_new; [exact HA'|replace (o + 4 - 4) with o by lia; exact HK'|done|done].
  - right. exists (with_pt_mem m' s). split; [by apply pm_call_run|]. pose proof (reclaimed_keeps _ _ _ Hrc) as Hk. exists D, B, L, K. split; try done.
    eapply pti_change; [exact Hpt|]. split_and!; [by rewrite (kp_ranges _ _ Hk)|by eapply allocs_keeps|]. exists B'. by eapply kinv_more.
Qed.

(** Giving an object back needs only the size of the objects of the allocator. *)
Lemma obj_free_size i j x y p m :
  ss_allocators m.2 !! i = Some x → ss_allocators m.2 !! j = Some y → sa_objsize x = sa_objsize y → slab_obj_free i p m = slab_obj_free j p m.
Proof.
  intros Hx Hy E. unfold slab_obj_free, get_allocator, kbind, kget, kderef. simpl. rewrite Hx, Hy. simpl.
  unfold VERIFY_REDZONES, rear_rz, obj_bufctl. by rewrite E.
Qed.

Lemma obj_free_law A c s H a size p :
  kernel_inv A c s (RObj size p :: H) → (a, size) ∈ A → ∃ s', pm_call (slab_obj_free a p) s = RRet tt s' ∧ kernel_inv A c s' H.
Proof.
  intros (D & B & L & K & [Hpt Hcur Ht Hd Hp Ho Hn]) Ha. destruct (pti_mem _ _ _ _ _ _ Hpt) as (Hrs & HA & B' & HK).
  destruct (Ho size p ltac:(left)) as (a' & Ha' & HL). apply elem_of_Permutation in HL as [L' HL]. apply NoDup_cons in Hn as [Hni Hn].
  destruct (HA _ _ Ha) as (_ & _ & _ & x & Hx & Ex), (HA _ _ Ha') as (_ & Hsaa & Hkm & x' & Hx' & Ex').
  destruct (obj_free_run (pt_mem s) (((D ≫= dir_blocks) ++ B) ++ B') L' a' (p - 4)) as (m' & Hr & Hk & HS'); [eapply sinv_perm; [exact HL|apply HK]|].
  replace (p - 4 + sizeof_redzone) with p in Hr by (unfold sizeof_redzone; lia).
  rewrite (obj_free_size a' a x' x p _ Hx' Hx) in Hr by congruence.
  exists (with_pt_mem m' s). split; [by apply pm_call_run|]. exists D, B, L', K.
  assert (Hsub : ∀ e, e ∈ L → e ≠ (a', p - 4) → e ∈ L') by (intros e; rewrite HL, elem_of_cons; naive_solver).
  split; try done.
  - eapply pti_change; [exact Hpt|]. split_and!; [by rewrite (kp_ranges _ _ Hk)|by eapply allocs_keeps|]. exists B'.
    eapply kinv_keeps; [exact HK|exact Hk|exact HS'|done|apply HK| |].
    + intros j Hj. apply Hsub; [done|congruence].
    + intros q cs _ Hcs _ Hin. apply Hsub; [done|congruence].
  - intros size' p' Hin. destruct (Ho size' p' ltac:(by right)) as (a2 & Ha2 & HL2). exists a2. split; [done|]. apply Hsub; [done|].
    intros [= -> E]. replace p' with p in Hin by lia. destruct (HA _ _ Ha2) as (_ & _ & _ & x2 & Hx2 & Ex2). assert (size' = size) as -> by (simplify_eq; lia).
    done.
Qed.

Lemma create_pages A L K m B name size :
  pages_inv A L K m B → 0 < size ≤ 2048 →
  (∃ a m', slab_allocator_create (Some name) size saa m = RRet a m' ∧ a ≠ NULL ∧ pages_inv ((a, size) :: A) ((saa, a - 4) :: L) K m' B) ∨
  (∃ m', slab_allocator_create (Some name) size saa m = RRet NULL m' ∧ pages_inv A L K m' B).
Proof.
  intros (Hrs & HA & B' & HK) Hsz.
  destruct (create_run saa m _ L K (Some name) size HK) as [(i & m' & x & Hr & Hi & Hni & HK' & El & Ek & Erg & Hx & Ex & Hkeep)|(m' & n & Hr & _ & Hrc & HK')].
  { unfold max_size, max_objsize, sizeof_slab, sizeof_bufctl. lia. }
  - left. exists i, m'. split_and!; [done|done|]. split_and!; [by rewrite Erg| |eauto]. intros a sz [[= -> ->]|Hin]%elem_of_cons.
    + rewrite El, Ek. split_and!; [left|intros ->; apply Hni, HK| |eauto]. intros (k & Hcs)%list_elem_of_lookup.
      destruct (ki_kmalloc _ _ _ _ _ HK _ _ Hcs) as (_ & y & Hy & _). by apply (si_alloc _ _ _ (ki_sinv _ _ _ _ _ HK)) in Hy as [? _].
    + destruct (HA _ _ Hin) as (H1 & H2 & H3 & y & Hy & Ey). rewrite El, Ek. split_and!; [by right|done|done|].
      destruct (Hkeep _ _ Hy) as [l Hl]. by exists (with_slabs l y).
  - right. exists m'. split; [done|]. pose proof (reclaimed_keeps _ _ _ Hrc) as Hk.
    split_and!; [by rewrite (kp_ranges _ _ Hk)|by eapply allocs_keeps|eauto].
Qed.

Lemma allocator_create_law A c s H name size :
  kernel_inv A c s H → 0 < size ≤ 2048 → let m := pm_call (slab_allocator_create (Some name) size saa) s in
  (∃ a s', m = RRet a s' ∧ a ≠ NULL ∧ kernel_inv ((a, size) :: A) c s' H) ∨ (∃ s', m = RRet NULL s' ∧ kernel_inv A c s' H).
Proof.
  intros (D & B & L & K & [Hpt Hcur Ht Hd Hp Ho Hn]) Hsz.
  destruct (create_pages A L K _ _ name size (pti_mem _ _ _ _ _ _ Hpt) Hsz) as [(a & m' & E & Ha & Hm)|(m' & E & Hm)].
  - left. exists a, (with_pt_mem m' s). split_and!; [by apply pm_call_run|done|]. exists D, B, ((saa, a - 4) :: L), K. split; try done.
    + by eapply pti_change.
    + intros sz p Hin. destruct (Ho _ _ Hin) as (b & ? & ?). exists b. split; by right.
  - right. exists (with_pt_mem m' s). split; [by apply pm_call_run|]. exists D, B, L, K. split; try done. by eapply pti_change.
Qed.

Lemma order_for_some n : 1 ≤ n ≤ 128 → ∃ o, order_for n = Some o.
Proof.
  intros Hn. unfold order_for. destruct (list_find _ _) as [[i o]|] eqn:E; [by exists o|]. rewrite list_find_None, Forall_forall in E.
  exfalso. apply (E 7%nat); [by apply elem_of_seq; unfold PAGE_NSIZES; lia|]. rewrite i32_small by lia. change (pages_of 7) with 128. lia.
Qed.

Lemma page_alloc_law A c s H n :
  kernel_inv A c s H → 1 ≤ n ≤ 128 → gives (kernel_inv A c) (pm_call (pm_page_alloc_n n)) (RPages n) s H.
Proof.
  intros (D & B & L & K & [Hpt Hcur Ht Hd [B0 Hp] Ho Hn]) Hr. destruct (order_for_some n Hr) as [o Eo].
  destruct (pages_alloc_n A L K (pt_mem s) _ n o Eo (pti_mem _ _ _ _ _ _ Hpt)) as [(a & m' & E & Ha & Hm)|(m' & E & Hm)].
  - left. exists a, (with_pt_mem m' s). split_and!; [by apply pm_call_run|done|]. exists D, ((o, a) :: B), L, K.
    assert (Hpt' : pti A L K (with_pt_mem m' s) D ((o, a) :: B)).
    { eapply pti_change; [exact Hpt|]. eapply pages_perm; [|exact Hm]. solve_Permutation. }
    split; try done.
    + exists B0. cbn [omap list_omap blk_of]. rewrite Eo. simpl. by rewrite Hp.
    + intros size p [?|Hin]%elem_of_cons; [done|by apply Ho].
    + constructor; [|done]. intros Hin. pose proof (blocks_nodup _ _ _ _ _ _ Hpt') as [Hni _]%NoDup_cons. apply Hni. rewrite Hp.
      apply elem_of_app. left. apply list_elem_of_omap. exists (RPages n a). split; [done|]. simpl. by rewrite Eo.
  - right. exists (with_pt_mem m' s). split; [by apply pm_call_run|]. exists D, B, L, K. split; try done; [by eapply pti_change|eauto].
Qed.

Lemma held_page A c s H n p : kernel_inv A c s (RPages n p :: H) → 1 ≤ n ≤ 128 → ∃ D B L K o, order_for n = Some o ∧ res_inv A c s (RPages n p :: H) D ((o, p) :: B) L K.
Proof.
  intros (D & B & L & K & HI) Hr. destruct (order_for_some n Hr) as [o Eo]. destruct (ri_pages _ _ _ _ _ _ _ _ HI) as [B0 HB].
  cbn [omap list_omap blk_of] in HB. rewrite Eo in HB. simpl in HB. exists D, (omap blk_of H ++ B0), L, K, o. split; [done|].
  destruct HI as [Hpt Hcur Ht Hd Hp Ho Hn]. split; try done.
  - unfold pti in *. by eapply ptinv_perm; [reflexivity|exact HB|].
  - exists B0. cbn [omap list_omap blk_of]. by rewrite Eo.
Qed.

Lemma page_aligned_law A c s H n p : kernel_inv A c s (RPages n p :: H) → 1 ≤ n ≤ 128 → PAGE_ALIGNED p = true.
Proof.
  intros HI Hr. destruct (held_page _ _ _ _ _ _ HI Hr) as (D & B & L & K & o & _ & HR). destruct HR as [Hpt _ _ _ _ _ _].
  destruct (ptinv_pages (managed rs) ly s D _ Hpt) as [_ HP]. rewrite Forall_forall in HP. apply page_aligned. apply HP. apply elem_of_app. right.
  rewrite bind_cons. apply elem_of_app. left. apply elem_of_block_pages. exists 0. split; [|simpl; lia].
  pose proof (bytes_of_pos o). rewrite bytes_pages in *. simpl. lia.
Qed.

Lemma page_free_law A c s H n p :
  kernel_inv A c s (RPages n p :: H) → 1 ≤ n ≤ 128 → ∃ s', pm_call (pm_page_free_n p n) s = RRet tt s' ∧ kernel_inv A c s' H.
Proof.
  intros HI Hr. destruct (held_page _ _ _ _ _ _ HI Hr) as (D & B & L & K & o & Eo & [Hpt Hcur Ht Hd [B0 Hp] Ho Hn]).
  destruct (pages_free_order A L K (pt_mem s) ((D ≫= dir_blocks) ++ B) o p) as (m' & E & Hm).
  { eapply pages_perm; [|apply (pti_mem _ _ _ _ _ _ Hpt)]. solve_Permutation. }
  exists (with_pt_mem m' s). split; [apply pm_call_run; simpl; unfold page_free_n; by rewrite Eo|]. exists D, B, L, K.
  cbn [omap list_omap blk_of] in Hp. rewrite Eo in Hp. simpl in Hp. apply (inj (cons _)) in Hp. apply NoDup_cons in Hn as [_ Hn]. split; try done.
  - by eapply pti_change.
  - eauto.
  - intros size q Hin. apply Ho. by right.
Qed.

(** ** Directories *)

Context (Hly : layout_ok (managed rs) ly).

Lemma create_dir_law A c s H : kernel_inv A c s H → gives (kernel_inv A c) pt_create_pagedir RDir s H.
Proof.
  intros (D & B & L & K & [Hpt Hcur (dt & Hdt & Et & Ee) [D0 Hd] Hp Ho Hn]).
  destruct (pt_create_run (managed rs) ly Hly s D B dt Hpt Hdt Et Ee) as [(a & s' & E & Hnn & HI & Ets & Ecs)|(s' & E & HI & Ets & Ecs)].
  - left. exists a, s'. destruct (dir_page_ok (managed rs) ly Hly s' _ B (Dir a ∅) a HI) as [_ ((_ & Ha) & _)]; [left|left|].
    split_and!; [done|unfold NULL in *; lia|]. exists (Dir a ∅ :: D), B, L, K. split; try done.
    + congruence.
    + exists dt. rewrite Ets. split_and!; [by right|done|done].
    + exists D0. rewrite fmap_cons, Ets, Hd. cbn [omap list_omap dir_of d_va]. apply Permutation_swap.
    + intros size p [?|Hin]%elem_of_cons; [done|by apply Ho].
    + constructor; [|done]. intros Hin. pose proof (dirs_nodup _ _ _ _ _ _ HI) as Hnd. rewrite fmap_cons in Hnd. apply NoDup_cons in Hnd as [Hni _].
      apply Hni. simpl. rewrite Hd. right. apply elem_of_app. left. apply list_elem_of_omap. by exists (RDir a).
  - right. exists s'. split; [done|]. exists D, B, L, K. split; try done; [congruence|rewrite Ets; eauto|rewrite Ets; eauto].
Qed.

Lemma held_dir A c s H d D B L K : res_inv A c s H D B L K → RDir d ∈ H → ∃ dd, dd ∈ D ∧ d_va dd = d.
Proof.
  intros HI Hin. destruct (ri_dirs _ _ _ _ _ _ _ _ HI) as [D0 Hd]. assert (Hd' : d ∈ d_va <$> D).
  { rewrite Hd. right. apply elem_of_app. left. apply list_elem_of_omap. by exists (RDir d). }
  apply list_elem_of_fmap in Hd' as (dd & -> & ?). eauto.
Qed.

Lemma destroy_dir_law A c s H d :
  kernel_inv A c s (RDir d :: H) → d ≠ c → ∃ s', pt_destroy_pagedir d s = RRet tt s' ∧ kernel_inv A c s' H.
Proof.
  intros (D & B & L & K & HR) Hdc. destruct (held_dir _ _ _ _ d _ _ _ _ HR ltac:(left)) as (dd & Hdd & Ed).
  destruct HR as [Hpt Hcur (dt & Hdt & Et & Ee) [D0 Hd] Hp Ho Hn]. pose proof (dirs_nodup _ _ _ _ _ _ Hpt) as Hnd.
  assert (Hne : dd ≠ dt).
  { intros ->. rewrite Hd in Hnd. apply NoDup_cons in Hnd as [Hni _]. apply Hni. rewrite <- Et, Ed. left. }
  apply elem_of_Permutation in Hdd as [D' HD]. rewrite HD, fmap_cons in Hd. cbn [omap list_omap dir_of] in Hd.
  assert (Hpt' : @ptinv (managed rs) ly _ slab_pagemem (pages_laws A L K) s (dd :: D') B) by (unfold pti in Hpt; by eapply ptinv_perm; [exact HD|reflexivity|]).
  destruct (pt_destroy_run (managed rs) ly Hly s dd D' B Hpt') as (s' & E & HI & Ets & Ecs); [congruence|].
  rewrite Ed in E. exists s'. split; [done|]. exists D', B, L, K. apply NoDup_cons in Hn as [_ Hn]. split; try done.
  - congruence.
  - exists dt. rewrite Ets. split_and!; [|done|done]. rewrite HD in Hdt. apply elem_of_cons in Hdt as [?|?]; [congruence|done].
  - exists D0. rewrite Ets. rewrite Ed in Hd. apply (inj (cons d)). rewrite Hd. apply Permutation_swap.
  - intros size p Hin. apply Ho. by right.
Qed.

Lemma pt_set_law A c s H d : kernel_inv A c s H → RDir d ∈ H → ∃ s', pt_set d s = RRet tt s' ∧ kernel_inv A d s' H.
Proof.
  intros (D & B & L & K & HR) Hin. destruct (held_dir _ _ _ _ d _ _ _ _ HR Hin) as (dd & Hdd & <-). destruct HR as [Hpt Hcur Ht Hd Hp Ho Hn].
  destruct (pt_set_run (managed rs) ly Hly s D B dd Hpt Hdd) as (s' & E & HI & Ecs & _ & Ets). exists s'. split; [done|].
  exists D, B, L, K. split; try done; by rewrite Ets.
Qed.

Lemma kernel_perm A c s H H' : H ≡ₚ H' → kernel_inv A c s H → kernel_inv A c s H'.
Proof.
  intros E (D & B & L & K & [Hpt Hcur Ht [D0 Hd] [B0 Hp] Ho Hn]). exists D, B, L, K. split; try done.
  - exists D0. by rewrite <- (omap_perm dir_of _ _ E).
  - exists B0. by rewrite <- (omap_perm blk_of _ _ E).
  - intros size p. rewrite <- E. apply Ho.
  - by rewrite <- E.
Qed.

Definition kernel_procmem_laws : @ProcMemLaws (ptstate (pstate * sstate)) (kernel_procmem saa).
Proof.
  refine {| rs_inv := kernel_inv |}.
  - apply kernel_perm.
  - by intros A c r H (D & B & L & K & [_ _ _ _ _ _ Hn]).
  - apply obj_alloc_law.
  - intros A c r H a size p. apply obj_free_law.
  - intros A c r H name size. apply allocator_create_law.
  - apply page_alloc_law.
  - apply page_aligned_law.
  - apply page_free_law.
  - apply create_dir_law.
  - apply destroy_dir_law.
  - apply pt_set_law.
Defined.
End Kernel.
