(* ===== verification/ProcBoot.v ===== *)
(** Processes: from the boot loader's memory to the first two processes, with the page
    allocator, the page tables and the slab allocators of the kernel underneath. *)

From stdpp Require Import base numbers list gmap strings.
From S2P Require Import Prelude Sched Mutex PageAlloc Slab KMem PageTable PageTableInv PageTableProps PageTableBoot Vfs Proc ProcInv ProcExit ProcMachine ProcProps ProcKMem.

Open Scope Z_scope.

Abbreviation kmemory := (ptstate (pstate * sstate)).

(** What the file system gets from the same memory. *)
#[export] Instance kernel_kmem : KMem kmemory := {
  km_obj_alloc a := pm_call (km_obj_alloc a);
  km_obj_free a p := pm_call (km_obj_free a p);
  km_kmalloc size := pm_call (km_kmalloc size);
  km_kfree p := pm_call (km_kfree p);
  km_page_alloc := pm_call km_page_alloc;
  km_page_free p := pm_call (km_page_free p)
}.

(** * kmain.c *)

(** On a 32-bit machine. *)
Definition sizeof_pframe : Z := 56.
Definition sizeof_mmobj : Z := 32.

(** The allocators of page frames and memory objects, of which this state has none;
    the lists and the hash table of pframe_init are theirs too. *)
Section Allocators.
Context {R : Type} `{ProcMem R}.

Definition pframe_init : kM (psys R) Z :=
  let* a := res_call (rm_allocator_create "pframe" sizeof_pframe) in
  KASSERT (negb (a =? NULL)) "NULL != pframe_allocator" ;;;
  kret a.
Definition anon_init : kM (psys R) Z :=
  let* a := res_call (rm_allocator_create "anonobj" sizeof_mmobj) in
  KASSERT (negb (a =? NULL)) "NULL != anon_allocator" ;;;
  kret a.
Definition shadow_init : kM (psys R) Z :=
  let* a := res_call (rm_allocator_create "mmobj" sizeof_mmobj) in
  KASSERT (negb (a =? NULL)) "shadow_allocator" ;;;
  kret a.
End Allocators.

(** The calls of [kmain] that set up memory and processes, and the first of
    [bootstrap], in their order; [K] is the end of the kernel and [saa] the address of the allocator of
    allocators.  The calls for the interrupt hardware, the segments and the devices
    are left out. *)
Definition kmain_setup (K saa : Z) : kM (psys kmemory) unit :=
  let _ := kernel_procmem saa in
  res_call (pm_call page_init) ;;;
  res_call (pt_init K) ;;;
  res_call (pm_call (slab_init saa)) ;;;
  pframe_init ;;;
  anon_init ;;;
  shadow_init ;;;
  vmmap_init ;;;
  proc_init ;;;
  kthread_init ;;;
  let* bstack := res_call (pm_call pm_page_alloc) in
  let* bpdir := res_call pt_get in
  KASSERT (negb (bstack =? NULL)) "NULL != bstack" ;;;
  let* c := context_setup bstack bpdir in
  context_make_active c ;;;
  res_call pt_template_init.

(** The switch to the context of [bootstrap], and what it does next. *)
Definition kmain (K saa : Z) : kM (psys kmemory) positive :=
  let _ := kernel_procmem saa in
  kmain_setup K saa ;;;
  start_processes.

(** What the checks of a boot without enough memory say. *)
Definition boot_panics : list string :=
  ["NULL != vmmap_allocator"; "NULL != vmarea_allocator"; "proc_allocator != NULL"; "NULL != kthread_allocator"; "NULL != bstack";
   "NULL != template_pagedir"; "NULL != pframe_allocator"; "NULL != anon_allocator"; "shadow_allocator"].

Section Boot.
Context (rs : list (Z * Z)) (saa : Z) (ly : layout) (Hly : layout_ok (managed rs) ly) (low : Z).
Local Existing Instance kernel_procmem.
Abbreviation PM := (kernel_procmem saa).

(** Nothing but memory has been set up; [A] are the allocators. *)
Record booting (s : psys kmemory) (A : list (Z * Z)) (c : Z) : Prop := {
  bo_wf : wf (py_ks s);
  bo_threads : ks_threads (py_ks s) = ∅;
  bo_curproc : ks_curproc (py_ks s) = None;
  bo_procs : py_procs s = ∅;
  bo_next : py_next_pid s = 0;
  bo_mem : ∃ L B, pti rs saa ly A L [] (py_mem s) [] B;
  bo_current : current_pagedir (py_mem s) = c;
  bo_boot : boot_state (managed rs) ly (py_mem s) low
}.

Lemma booting_mem s A A' c m' L L' B B' :
  booting s A c → pti rs saa ly A L [] (py_mem s) [] B → pages_inv rs saa A' L' [] m' B' → booting (set_mem (with_pt_mem m' (py_mem s)) s) A' c.
Proof. intros [] HI Hm. split; try done; [exists L', B'; exact (pti_change rs saa ly A L [] A' L' _ [] B m' B' HI Hm)|]. destruct bo_boot0. by split. Qed.

Lemma booting_create s A c name size :
  booting s A c → 0 < size ≤ 2048 →
  (∃ a r, rm_allocator_create (ProcMem := PM) name size (py_mem s) = RRet a r ∧ a ≠ NULL ∧ booting (set_mem r s) ((a, size) :: A) c) ∨
  (∃ r, rm_allocator_create (ProcMem := PM) name size (py_mem s) = RRet NULL r).
Proof.
  intros Hs Hsz. destruct (bo_mem _ _ _ Hs) as (L & B & HI).
  destruct (create_pages rs saa A L [] _ _ name size (pti_mem _ _ _ _ _ _ _ _ _ HI) Hsz) as [(a & m' & E & Ha & Hm)|(m' & E & Hm)].
  - left. exists a, (with_pt_mem m' (py_mem s)). split_and!; [by apply pm_call_run|done|]. by eapply booting_mem.
  - right. exists (with_pt_mem m' (py_mem s)). by apply pm_call_run.
Qed.

(** An allocator that is created, stored and checked. *)
Lemma create_checked s A c name size (store : Z → psys kmemory → psys kmemory) why :
  booting s A c → 0 < size ≤ 2048 → (∀ a s A, booting s A c → booting (store a s) A c) →
  let m := (let* a := res_call (rm_allocator_create (ProcMem := PM) name size) in kmodify (store a) ;;; KASSERT (negb (a =? NULL)) why) s in
  (∃ a r, m = RRet tt (store a (set_mem r s)) ∧ booting (store a (set_mem r s)) ((a, size) :: A) c) ∨ m = RPanic why.
Proof.
  intros Hs Hsz Hst. destruct (booting_create s A c name size Hs Hsz) as [(a & r & E & Ha & Hs')|(r & E)]; [left|right];
    rewrite (res_next _ _ _ _ _ E), kmodify_next; [|done]. exists a, r. unfold KASSERT. rewrite (proj2 (Z.eqb_neq _ _) Ha). split; [done|by apply Hst].
Qed.

Definition boot_fails {X} (r : kres (psys kmemory) X) : Prop := ∃ w, w ∈ boot_panics ∧ r = RPanic w.

Lemma boot_fails_bind {X Y} (m : kM (psys kmemory) X) (k : X → kM (psys kmemory) Y) s : boot_fails (m s) → boot_fails (kbind m k s).
Proof. intros (w & Hw & E). exists w. split; [done|]. by apply kbind_of_panic. Qed.

Lemma boot_panic {X} (r : kres (psys kmemory) X) n w : r = RPanic w → boot_panics !! n = Some w → boot_fails r.
Proof. intros E Hn. exists w. split; [by eapply list_elem_of_lookup_2|done]. Qed.

(** An allocator that is created and checked. *)
Lemma other_create s A c name size why :
  booting s A c → 0 < size ≤ 2048 → why ∈ boot_panics →
  let m := (let* a := res_call (rm_allocator_create (ProcMem := PM) name size) in KASSERT (negb (a =? NULL)) why ;;; kret a) s in
  boot_fails m ∨ ∃ a s', m = RRet a s' ∧ booting s' ((a, size) :: A) c.
Proof.
  intros Hs Hsz Hw. cbv zeta. destruct (booting_create s A c name size Hs Hsz) as [(a & r & E & Ha & Hs')|(r & E)]; rewrite (res_next _ _ _ _ _ E).
  - right. rewrite kassert_next by (by rewrite (proj2 (Z.eqb_neq _ _) Ha)). by eexists _, _.
  - left. by exists why.
Qed.

Lemma vmmap_init_run s A c :
  booting s A c → boot_fails (vmmap_init (H := PM) s) ∨
  ∃ b s' A', vmmap_init (H := PM) s = RRet b s' ∧ booting s' A' c ∧ (py_vmmap_allocator s', sizeof_vmmap) ∈ A'.
Proof.
  intros Hs. unfold vmmap_init. destruct (create_checked s A c "vmmap" sizeof_vmmap with_vmmap_allocator "NULL != vmmap_allocator" Hs)
    as [(a & r & E & Hs1)|E]; [done|by intros a s0 A0 []| |left; apply boot_fails_bind; by eapply (boot_panic _ 0)].
  rewrite (kbind_of_ret _ _ _ _ _ E). set (s1 := with_vmmap_allocator _ _) in *.
  destruct (booting_create s1 _ c "vmarea" sizeof_vmarea Hs1 ltac:(done)) as [(b & r2 & E2 & Hb & Hs2)|(r2 & E2)]; rewrite (res_next _ _ _ _ _ E2).
  - right. rewrite kassert_next by (by rewrite (proj2 (Z.eqb_neq _ _) Hb)). eexists b, _, _. split_and!; [reflexivity|exact Hs2|]. right. left.
  - left. by eapply (boot_panic _ 1).
Qed.

Lemma proc_init_run s A c :
  booting s A c → boot_fails (proc_init (H := PM) s) ∨
  ∃ a r, let s' := with_proc_allocator a (set_mem r (upd_list (λ _, []) s)) in proc_init (H := PM) s = RRet tt s' ∧ booting s' ((a, sizeof_proc) :: A) c.
Proof.
  intros Hs. unfold proc_init. rewrite kmodify_next. assert (Hs0 : booting (upd_list (λ _, []) s) A c) by (by destruct Hs).
  destruct (create_checked _ A c "proc" sizeof_proc with_proc_allocator "proc_allocator != NULL" Hs0)
    as [(a & r & E & Hs1)|E]; [done|by intros a s0 A0 []|right; eauto|left; by eapply (boot_panic _ 2)].
Qed.

Lemma kthread_allocator_run s A c :
  booting s A c → boot_fails (kthread_init (H := PM) s) ∨
  ∃ a r, let s' := with_kthread_allocator a (set_mem r s) in kthread_init (H := PM) s = RRet tt s' ∧ booting s' ((a, sizeof_kthread) :: A) c.
Proof.
  intros Hs. destruct (create_checked s A c "kthread" sizeof_kthread with_kthread_allocator "NULL != kthread_allocator" Hs)
    as [(a & r & E & Hs1)|E]; [done|by intros a s0 A0 []|right; exists a, r; split; [exact E|exact Hs1]|left; by eapply (boot_panic _ 3)].
Qed.

Lemma bstack_run s A c :
  booting s A c → ∃ a r, pm_call pm_page_alloc (py_mem s) = RRet a r ∧ (a = NULL ∨ booting (set_mem r s) A c ∧ PAGE_ALIGNED a = true).
Proof.
  intros Hs. destruct (bo_mem _ _ _ Hs) as (L & B & HI). simpl. unfold page_alloc.
  destruct (pages_alloc_order rs saa A L [] _ _ 0 ltac:(unfold PAGE_NSIZES; lia) (pti_mem _ _ _ _ _ _ _ _ _ HI)) as [(a & m' & E & Ha & Hm)|(m' & E & Hm)];
    eexists _, (with_pt_mem m' (py_mem s)); (split; [apply pm_call_run; by rewrite (kbind_of_ret _ _ _ _ _ E)|]); [right|by left].
  split; [by eapply booting_mem|]. pose proof (pti_change rs saa ly A L [] A L _ [] B m' _ HI Hm) as HI'.
  destruct (ptinv_pages (managed rs) ly _ [] _ HI') as [_ HP]. rewrite Forall_forall in HP. eapply page_aligned, HP.
  apply elem_of_app. right. rewrite bind_cons. apply elem_of_app. left. rewrite block_pages_0. left.
Qed.

(** The directory of the boot is set once more. *)
Lemma booting_pt_set s A c : booting s A c → ∃ r, pt_set c (py_mem s) = RRet tt r ∧ booting (set_mem r s) A c.
Proof.
  intros [W1 W2 W3 W4 W5 (L & B & HI) <- W8]. destruct (pt_set_boot (managed rs) ly Hly _ B low HI W8) as (r & E & HI' & Hb & Hc & _).
  exists r. split; [exact E|]. split; [exact W1|exact W2|exact W3|exact W4|exact W5| |exact Hc|exact Hb]. exists L, B. exact HI'.
Qed.

(** With the template, processes can be made. *)
Lemma template_run s A c :
  booting s A c → py_list s = [] →
  (py_proc_allocator s, sizeof_proc) ∈ A → (py_kthread_allocator s, sizeof_kthread) ∈ A → (py_vmmap_allocator s, sizeof_vmmap) ∈ A →
  pt_template_init (py_mem s) = RPanic "NULL != template_pagedir" ∨
  ∃ r, pt_template_init (py_mem s) = RRet tt r ∧
    fresh_system (H := PM) (ProcMemLaws0 := kernel_procmem_laws rs saa ly Hly) (set_mem r s) c.
Proof.
  intros Hs Hl H1 H2 H3. destruct (bo_mem _ _ _ Hs) as (L & B & HI).
  destruct (pt_template_init_run (managed rs) ly Hly (py_mem s) B low HI (bo_boot _ _ _ Hs)) as [(t & r & E & HI' & Ht & Hc)|[_ E]]; [right|by left].
  exists r. split; [done|]. destruct Hs as [W1 W2 W3 W4 W5 W6 W7 W8]. split; try done. exists A. split_and!; try done.
  exists [Dir t ∅], B, L, []. split; try done.
  - change (current_pagedir r = c). by rewrite Hc.
  - exists (Dir t ∅). split_and!; [left|done|done].
  - exists []. change ([t] ≡ₚ template_pagedir r :: []). by rewrite Ht.
  - by exists B.
  - by intros ? ? ?%elem_of_nil.
  - constructor.
Qed.

(** From the first allocators on. *)
Lemma setup_rest s A c :
  booting s A c → c ≠ NULL →
  let m := (pframe_init (H := PM) ;;; anon_init (H := PM) ;;; shadow_init (H := PM) ;;; vmmap_init (H := PM) ;;; proc_init (H := PM) ;;; kthread_init (H := PM) ;;; let* bstack := res_call (pm_call pm_page_alloc) in
    let* bpdir := res_call pt_get in KASSERT (negb (bstack =? NULL)) "NULL != bstack" ;;;
    let* c := context_setup bstack bpdir in context_make_active (H := PM) c ;;; res_call pt_template_init) s in
  boot_fails m ∨ ∃ s', m = RRet tt s' ∧ fresh_system (H := PM) (ProcMemLaws0 := kernel_procmem_laws rs saa ly Hly) s' c.
Proof.
  intros Hs Hc. cbv zeta.
  destruct (other_create s A c "pframe" sizeof_pframe "NULL != pframe_allocator" Hs) as [E|(a1 & sa & E & Ha)];
    [done|by eapply (list_elem_of_lookup_2 _ 6)|left; by apply boot_fails_bind|rewrite (kbind_of_ret _ _ _ _ _ E); clear E].
  destruct (other_create sa _ c "anonobj" sizeof_mmobj "NULL != anon_allocator" Ha) as [E|(a2 & sb & E & Hb)];
    [done|by eapply (list_elem_of_lookup_2 _ 7)|left; by apply boot_fails_bind|rewrite (kbind_of_ret _ _ _ _ _ E); clear E].
  destruct (other_create sb _ c "mmobj" sizeof_mmobj "shadow_allocator" Hb) as [E|(a3 & sc & E & Hsc)];
    [done|by eapply (list_elem_of_lookup_2 _ 8)|left; by apply boot_fails_bind|rewrite (kbind_of_ret _ _ _ _ _ E); clear E].
  destruct (vmmap_init_run sc _ c Hsc) as [E|(b & s1 & A1 & E & Hs1 & Hv)]; [left; by apply boot_fails_bind|]. rewrite (kbind_of_ret _ _ _ _ _ E).
  destruct (proc_init_run s1 A1 c Hs1) as [E1|(a & r1 & E1 & Hs2)]; [left; by apply boot_fails_bind|]. rewrite (kbind_of_ret _ _ _ _ _ E1).
  destruct (kthread_allocator_run _ _ c Hs2) as [E2|(a' & r2 & E2 & Hs3)]; [left; by apply boot_fails_bind|]. rewrite (kbind_of_ret _ _ _ _ _ E2).
  destruct (bstack_run _ _ _ Hs3) as (p & r3 & E3 & Hp). rewrite (res_next _ _ _ _ _ E3). erewrite (res_next pt_get) by reflexivity.
  destruct (Z.eqb_spec p NULL) as [->|Hn]; [left; by eapply (boot_panic _ 4)|]. destruct Hp as [?|[Hs4 Hal]]; [done|]. rewrite kassert_next by done.
  pose proof (bo_current _ _ _ Hs4) as Hcur. simpl in Hcur. rewrite Hcur.
  rewrite (kbind_of_ret _ _ _ _ _ (eq_trans (context_setup_run _ p c Hc Hal) ltac:(by rewrite (proj2 (Z.eqb_neq _ _) Hn)))).
  destruct (booting_pt_set _ _ _ Hs4) as (r5 & E5 & Hs5). unfold context_make_active. rewrite (res_next _ _ _ _ _ E5).
  destruct (template_run _ _ _ Hs5) as [E4|(r4 & E4 & Hf)]; [done|right; left|left|do 2 right; exact Hv| |]; unfold res_call, klift; rewrite E4.
  - left. by eapply (boot_panic _ 5).
  - right. by eexists.
Qed.
End Boot.

(** What the boot loader leaves, and nothing set up.  The memory behind the page
    tables of the kernel is one range, of which the part in front of the group's own
    data is a multiple of 128 pages ([ub_whole]): _pagegroup_create leaves the pair
    bits of other ranges in a state that does not fit their free lists. *)
Record unbooted (K X : Z) (N : nat) (s : psys kmemory) : Prop := {
  ub_sizes : sizes K X N;
  ub_loaded : loaded X (py_mem s);
  ub_memory : pt_mem (py_mem s) = (PState [] 0, empty_sstate);
  ub_page : (4096 | X);
  ub_range : ktable K N < group_end (ktable K N) (X + delta) ≤ X + delta;
  ub_whole : (bytes_of top | group_end (ktable K N) (X + delta) - ktable K N);
  ub_wf : wf (py_ks s);
  ub_threads : ks_threads (py_ks s) = ∅;
  ub_curproc : ks_curproc (py_ks s) = None;
  ub_procs : py_procs s = ∅;
  ub_next : py_next_pid s = 0
}.

Lemma setup_run K X N saa (s : psys kmemory) :
  unbooted K X N s → saa < K → let rs := [(ktable K N, group_end (ktable K N) (X + delta))] in
  boot_fails (kmain_setup K saa s) ∨
  ∃ ly (Hly : layout_ok (managed rs) ly) s', kmain_setup K saa s = RRet tt s' ∧
    fresh_system (H := kernel_procmem saa) (ProcMemLaws0 := kernel_procmem_laws rs saa ly Hly) s' K.
Proof.
  intros [HS HL Hm HX Hr Hd W1 W2 W3 W4 W5] Hsaa. cbv zeta. set (start := ktable K N) in *. set (stop := group_end start (X + delta)) in *.
  destruct (pt_boot_run K X N (py_mem s) HS HL Hm HX Hr Hd) as (r1 & E1 & Hcur & Hrg & Hss & Hp & Hroom & Hly & HI & Hbs & _).
  fold start stop in Hrg, Hly, HI, Hbs. unfold kmain_setup.
  assert (Ei : pm_call page_init (py_mem s) = RRet tt (with_pt_mem (PState [] 0, empty_sstate) (py_mem s))) by (unfold pm_call, klift; by rewrite Hm).
  assert (Es : with_pt_mem (PState [] 0, empty_sstate) (py_mem s) = py_mem s) by (rewrite <- Hm; by destruct (py_mem s)).
  assert (E0 : set_mem (py_mem s) s = s) by (by destruct s as [[]]).
  rewrite Es in Ei. rewrite (res_next _ _ _ _ _ Ei), E0, (res_next _ _ _ _ _ E1).
  destruct (slab_init_run saa (pt_mem r1).1 [] Hp) as (m2 & L & E2 & HK & Hlen & Hrg2).
  { intros r. rewrite Hrg. intros ->%list_elem_of_singleton. simpl. unfold start, ktable. lia. }
  { intros order nobjs Hc Hno. pose proof (Slab.Example.calc_order order nobjs Hc). apply (Hroom (Z.to_nat order)); [unfold PAGE_NSIZES; lia|].
    intros g o Hg. rewrite Nat2Z.id. by apply Hno. }
  rewrite <- Hss, <- surjective_pairing in E2. rewrite (res_next _ _ _ _ (set_mem r1 s) (pm_call_run _ r1 _ _ E2)).
  destruct (setup_rest [(start, stop)] saa _ Hly (low_table K) (set_mem (with_pt_mem m2 r1) (set_mem r1 s)) [] K) as [Hf|(s' & E & HM)]; [|pose proof (sz_kernel _ _ _ HS) as [_ ?]; unfold NULL, kernel_start in *; lia|..].
  { split; [exact W1|exact W2|exact W3|exact W4|exact W5| |exact Hcur|destruct Hbs as [S1 S2 S3 S4 S5 S6]; split; [exact S1|exact S2|exact S3|exact S4|exact S5|exact S6]].
    exists L, []. destruct HI as [_ I2 I3 I4 I5 I6 I7]. split; [|exact I2|exact I3|exact I4|exact I5|exact I6|exact I7].
    change (pages_inv [(start, stop)] saa [] L [] m2 []). split; [by rewrite Hrg2|]. split; [by intros ? ? ?%elem_of_nil|]. exists []. exact HK. }
  - left. exact Hf.
  - right. exists _, Hly, s'. split; [exact E|exact HM].
Qed.

(** C2. The boot, from the memory that the boot loader leaves, of which the pages
    handed to the allocator are a multiple of 128, to the first two processes:
    pt_init, slab_init, the allocators of processes, threads and address-space maps,
    the stack of the boot, the template of page directories, the idle process and
    init.  Either the idle process runs with init on the run
    queue, in a state with the invariant of the process machine on the kernel's own
    page, slab and page-table code, or there was not enough memory, and one of the
    checks for that fails or the lack is met where it is not checked for. *)
Theorem kmain_correct K X N saa (s : psys kmemory) :
  unbooted K X N s → saa < K → let rs := [(ktable K N, group_end (ktable K N) (X + delta))] in
  boot_fails (kmain K saa s) ∨ out_of_memory (kmain K saa s) ∨
  ∃ ly (Hly : layout_ok (managed rs) ly) t s', kmain K saa s = RRet t s' ∧
    minv (H := kernel_procmem saa) (ProcMemLaws0 := kernel_procmem_laws rs saa ly Hly) (PMachine s' MRun ∅ []).
Proof.
  intros Hu Hs rs. unfold kmain. destruct (setup_run K X N saa s Hu Hs) as [Hf|(ly & Hly & s1 & E & Hf)]; [left; by apply boot_fails_bind|].
  rewrite (kbind_of_ret _ _ _ _ _ E). right.
  destruct (start_run (H := kernel_procmem saa) (ProcMemLaws0 := kernel_procmem_laws rs saa ly Hly) s1 K Hf) as [Ho|(t & s' & E' & HM)]; [by left|right].
  exists ly, Hly, t, s'. split; [exact E'|exact HM].
Qed.

(** The machine after the boot and some steps. *)
Definition exec_after {A} (saa : Z) (r : kres (psys kmemory) A) (ops : list pop) : option (pmachine kmemory) :=
  match r with
  | RRet _ s => @exec kmemory (kernel_procmem saa) kernel_kmem ops (PMachine s MRun ∅ [])
  | _ => None
  end.

Lemma exec_after_returns {A} saa (r : kres (psys kmemory) A) ops M : exec_after saa r ops = Some M → ¬ boot_fails r ∧ ¬ out_of_memory r.
Proof. destruct r; try done. intros _. split; [by intros (w & _ & ?)|]. by intros ?%oom_stops. Qed.

Lemma kmain_reached K X N saa (s : psys kmemory) ops M :
  unbooted K X N s → saa < K → exec_after saa (kmain K saa s) ops = Some M →
  let rs := [(ktable K N, group_end (ktable K N) (X + delta))] in
  ∃ ly (Hly : layout_ok (managed rs) ly), @reachable kmemory (kernel_procmem saa) (kernel_procmem_laws rs saa ly Hly) kernel_kmem M.
Proof.
  intros Hu Hs HM rs. unfold kmain in HM. destruct (setup_run K X N saa s Hu Hs) as [(w & _ & E)|(ly & Hly & s1 & E & Hf)].
  - by rewrite (kbind_of_panic _ _ _ _ E) in HM.
  - rewrite (kbind_of_ret _ _ _ _ _ E) in HM. destruct (start_processes s1) as [t s'| | | |] eqn:E'; try done.
    apply exec_steps in HM. exists ly, Hly, s1, K, t, s'. done.
Qed.

(** * A machine *)

Module Example.
Import Machine.

Definition allocators_at : Z := 0xc0010000.
Definition boot_ks : kstate := KState ∅ {[RunQ := KTQueue [] 0]} ∅ IPL_HIGH None None.
Definition at_boot : psys kmemory :=
  Psys (Vfs boot_ks machine 0 0 ∅ [] ∅ [] ∅ ∅ [] 0 [] 0) ∅ [] None 0 0 0 0 ∅.

Abbreviation PM := (kernel_procmem allocators_at).
Abbreviation range := [(ktable kernel_end 2, group_end (ktable kernel_end 2) (physmax + delta))].

Lemma at_boot_unbooted : unbooted kernel_end physmax 2 at_boot.
Proof.
  destruct machine_range as [Hr Hd]. split; [exact machine_sizes|exact machine_loaded|reflexivity|by exists 2048|exact Hr|exact Hd| |reflexivity..].
  split.
  - intros q Q. change (ks_queues (py_ks at_boot)) with ({[RunQ := KTQueue [] 0]} : gmap qid ktqueue). intros [_ <-]%lookup_singleton_Some. split; [done|constructor].
  - intros q Q t. change (ks_queues (py_ks at_boot)) with ({[RunQ := KTQueue [] 0]} : gmap qid ktqueue). intros [_ <-]%lookup_singleton_Some. by intros ?%elem_of_nil.
  - intros t k. change (ks_threads (py_ks at_boot)) with (∅ : gmap positive kthread). by rewrite lookup_empty.
  - intros t k q. change (ks_threads (py_ks at_boot)) with (∅ : gmap positive kthread). by rewrite lookup_empty.
  - by eexists.
Qed.

(** The machine after the boot and some steps: the idle process waits, init starts a
    process and waits, the process exits, and init runs again. *)
Abbreviation run ops := (exec_after allocators_at (kmain kernel_end allocators_at at_boot) ops).
Definition story : list pop := [OpWait; OpYield; OpSpawn "sh"; OpWait; OpYield; OpExit 3; OpYield].

(** The pid of the current process, and whether its thread is about to go on with a
    call of do_waitpid. *)
Definition view (M : pmachine kmemory) : option (Z * bool) :=
  p ← cur_proc (pm_sys M); t ← ks_curthr (py_ks (pm_sys M)); kt ← ks_threads (py_ks (pm_sys M)) !! t;
  x ← pm_pend M !! t;
  Some (p_pid p, if (x.1, pm_mode M) is (OpWait, MRun) then true else false).
Lemma story_view : run story ≫= view = Some (1, true).
Proof. vm_compute. reflexivity. Qed.

Lemma view_waiting M z :
  view M = Some (z, true) → pm_mode M = MRun ∧ ∃ t k kt, ks_curthr (py_ks (pm_sys M)) = Some t ∧
    pm_pend M !! t = Some (OpWait, k) ∧ ks_threads (py_ks (pm_sys M)) !! t = Some kt.
Proof.
  unfold view. intros (p & Hp & Ht)%bind_Some. apply bind_Some in Ht as (t & Ht & Hk). apply bind_Some in Hk as (kt & Hk & Hx).
  apply bind_Some in Hx as ([op k] & Hx & [= _ Ho]). simpl in Ho. destruct op; try done. destruct (pm_mode M); try done. eauto 10.
Qed.

Lemma story_reached : ∃ M z ly (Hly : layout_ok (managed range) ly),
  run story = Some M ∧ view M = Some (z, true) ∧ @reachable kmemory PM (kernel_procmem_laws range allocators_at ly Hly) kernel_kmem M.
Proof.
  pose proof story_view as E. apply bind_Some in E as (M & E & Hv).
  destruct (kmain_reached kernel_end physmax 2 allocators_at at_boot story M at_boot_unbooted eq_refl E) as (ly & Hly & HM).
  exists M, 1, ly, Hly. split; [exact E|]. split; [exact Hv|exact HM].
Qed.

Lemma kmain_correct_witness :
  ∃ ly (Hly : layout_ok (managed range) ly) t s', kmain kernel_end allocators_at at_boot = RRet t s' ∧
    @minv kmemory PM (kernel_procmem_laws range allocators_at ly Hly) (PMachine s' MRun ∅ []).
Proof.
  destruct story_reached as (M & _ & _ & _ & E & _). destruct (exec_after_returns _ _ _ _ E) as [Hf Ho].
  destruct (kmain_correct kernel_end physmax 2 allocators_at at_boot at_boot_unbooted eq_refl) as [Hb|[Hb|Hb]];
    [case (Hf Hb)|case (Ho Hb)|exact Hb].
Defined.

Lemma process_calls_safe_witness :
  ∃ M t k r s', run story = Some M ∧ ks_curthr (py_ks (pm_sys M)) = Some t ∧ pm_pend M !! t = Some (OpWait, k) ∧ k (pm_sys M) = RRet r s'.
Proof.
  destruct story_reached as (M & z & ly & Hly & E & Hv & HM). apply view_waiting in Hv as (Hmode & t & k & kt & Ht & Hk & _).
  pose proof (process_calls_safe M HM) as H. rewrite Hmode in H. destruct H as (t' & Ht' & H).
  assert (t' = t) as -> by congruence.
  match type of H with match ?o with _ => _ end => replace o with (Some (OpWait, k)) in H by (symmetry; exact Hk) end. destruct H as (r & s' & H).
  exists M, t, k, r, s'. split; [exact E|]. split; [exact Ht|]. split; [exact Hk|exact H].
Defined.

Lemma process_tree_kept_witness :
  ∃ M, run story = Some M ∧ tree (py_procs (pm_sys M)) (py_initproc (pm_sys M)) ∧
    threads (py_ks (pm_sys M)) (py_ctx (pm_sys M)) (py_procs (pm_sys M)).
Proof.
  destruct story_reached as (M & z & ly & Hly & E & _ & HM). destruct (process_tree_kept M HM) as (H1 & H2 & _).
  exists M. split; [exact E|]. split; [exact H1|exact H2].
Defined.

Lemma waitpid_reaps_witness :
  ∃ M p k r s', run story = Some M ∧ k (pm_sys M) = RRet r s' ∧ reaped (pm_sys M) p r s'.
Proof.
  destruct story_reached as (M & z & ly & Hly & E & Hv & HM). apply view_waiting in Hv as (Hmode & t & k & kt & Ht & Hk & Hkt).
  destruct (waitpid_reaps M t k kt HM Hk Hkt) as [_ H]. destruct (H Hmode Ht) as (r & s' & Hr & Hd & _).
  exists M, (kt_proc kt), k, r, s'. split; [exact E|]. split; [exact Hr|exact Hd].
Defined.
End Example.
