(* ===== verification/Term.v ===== *)
(** Virtual terminals: kernel/drivers/tty/virtterm.c, the screen in
    kernel/drivers/tty/screen.c and the keyboard in kernel/drivers/tty/keyboard.c.

    A terminal keeps its text in a circular buffer of rows; the screen is the video
    memory of the display, one page of 16-bit words.  The functions of the driver
    are atomic here: what comes in between, the interrupt of the keyboard, is
    another event. *)

From stdpp Require Import base numbers list strings.
From S2P Require Import Prelude.

Open Scope Z_scope.

(** * Buffers *)

(** [n] bytes from [off] on, if they are in the buffer. *)
Definition load (l : list Z) (off n : Z) : option (list Z) :=
  if (0 <=? off) && (0 <=? n) && (off + n <=? Z.of_nat (length l)) then Some (take (Z.to_nat n) (drop (Z.to_nat off) l)) else None.
Definition store (l : list Z) (off : Z) (vs : list Z) : option (list Z) :=
  if (0 <=? off) && (off + Z.of_nat (length vs) <=? Z.of_nat (length l))
  then Some (take (Z.to_nat off) l ++ vs ++ drop (Z.to_nat off + length vs) l) else None.
Definition clear (l : list Z) (off n : Z) : option (list Z) :=
  if 0 <=? n then store l off (replicate (Z.to_nat n) 0) else None.
(** memcpy(l + off, src + soff, n) *)
Definition copy (l : list Z) (off : Z) (src : list Z) (soff n : Z) : option (list Z) :=
  vs ← load src soff n; store l off vs.

(** The characters of a string literal. *)
Definition chars (s : string) : list Z := (λ c, Z.of_nat (Ascii.nat_of_ascii c)) <$> String.list_ascii_of_string s.

(** * Data *)

Definition DISPLAY_WIDTH : Z := 80.
Definition DISPLAY_HEIGHT : Z := 25.
Definition DISPLAY_SIZE : Z := DISPLAY_WIDTH * DISPLAY_HEIGHT.
Definition NTERMS : Z := 3.
Definition SCROLL_BUFSIZE : Z := 5 * DISPLAY_SIZE.

Definition circ_dist (to from : Z) : Z := Z.rem (to - from + SCROLL_BUFSIZE) SCROLL_BUFSIZE.
Definition next_row (i : Z) : Z := Z.rem ((Z.quot i DISPLAY_WIDTH + 1) * DISPLAY_WIDTH) SCROLL_BUFSIZE.
Definition buf_add (ptr amt : Z) : Z := Z.rem (ptr + amt + SCROLL_BUFSIZE) SCROLL_BUFSIZE.

(** A callback is the address of a function. *)
Record tty_driver := TtyDriver { ttd_callback : option Z; ttd_callback_arg : Z }.

Record virtterm := Virtterm {
  vt_head : Z;
  vt_tail : Z;
  vt_top : Z;
  vt_cursor : Z;
  vt_buf : list Z;
  vt_tempbuf : list Z;
  vt_driver : tty_driver
}.

Record terminals := Terminals {
  vt_terms : list virtterm;
  vt_curterm : option nat;
  videoram : list Z;
  crt_cursor : Z * Z;                 (* the registers CURSOR_HIGH and CURSOR_LOW *)
  ipl : Z;
  curmask : Z;
  keyboard_handler : bool;            (* registered: it is vt_keyboard_handler *)
  callbacks : list (Z * Z * Z)        (* the calls of callbacks: function, argument, character *)
}.

Definition set_cursor (c : Z) (vt : virtterm) : virtterm :=
  Virtterm (vt_head vt) (vt_tail vt) (vt_top vt) c (vt_buf vt) (vt_tempbuf vt) (vt_driver vt).
Definition set_top (t : Z) (vt : virtterm) : virtterm :=
  Virtterm (vt_head vt) (vt_tail vt) t (vt_cursor vt) (vt_buf vt) (vt_tempbuf vt) (vt_driver vt).
Definition set_buf (b : list Z) (vt : virtterm) : virtterm :=
  Virtterm (vt_head vt) (vt_tail vt) (vt_top vt) (vt_cursor vt) b (vt_tempbuf vt) (vt_driver vt).
Definition set_tempbuf (b : list Z) (vt : virtterm) : virtterm :=
  Virtterm (vt_head vt) (vt_tail vt) (vt_top vt) (vt_cursor vt) (vt_buf vt) b (vt_driver vt).
Definition set_driver (d : tty_driver) (vt : virtterm) : virtterm :=
  Virtterm (vt_head vt) (vt_tail vt) (vt_top vt) (vt_cursor vt) (vt_buf vt) (vt_tempbuf vt) d.

Definition upd_terms f (s : terminals) := Terminals (f (vt_terms s)) (vt_curterm s) (videoram s) (crt_cursor s) (ipl s) (curmask s) (keyboard_handler s) (callbacks s).
Definition with_curterm c (s : terminals) := Terminals (vt_terms s) c (videoram s) (crt_cursor s) (ipl s) (curmask s) (keyboard_handler s) (callbacks s).
Definition with_video v (s : terminals) := Terminals (vt_terms s) (vt_curterm s) v (crt_cursor s) (ipl s) (curmask s) (keyboard_handler s) (callbacks s).
Definition with_crt c (s : terminals) := Terminals (vt_terms s) (vt_curterm s) (videoram s) c (ipl s) (curmask s) (keyboard_handler s) (callbacks s).
Definition with_ipl i (s : terminals) := Terminals (vt_terms s) (vt_curterm s) (videoram s) (crt_cursor s) i (curmask s) (keyboard_handler s) (callbacks s).
Definition with_curmask m (s : terminals) := Terminals (vt_terms s) (vt_curterm s) (videoram s) (crt_cursor s) (ipl s) m (keyboard_handler s) (callbacks s).
Definition with_handler h (s : terminals) := Terminals (vt_terms s) (vt_curterm s) (videoram s) (crt_cursor s) (ipl s) (curmask s) h (callbacks s).
Definition add_callback c (s : terminals) := Terminals (vt_terms s) (vt_curterm s) (videoram s) (crt_cursor s) (ipl s) (curmask s) (keyboard_handler s) (callbacks s ++ [c]).

Abbreviation tM := (kM terminals).

Definition get_term (i : nat) : tM virtterm := let* s := kget in kderef (vt_terms s !! i) "virtterm".
Definition put_term (i : nat) (vt : virtterm) : tM unit := kmodify (upd_terms <[i := vt]>).
Definition get_curterm : tM nat := let* s := kget in kderef (vt_curterm s) "vt_curterm".

(** * screen.c *)

Definition DEFAULT_ATTRIB : Z := 0x0F.

(** The word for a character, which is signed. *)
Definition cell (attrib c : Z) : Z := Z.lor (Z.shiftl attrib 8) c `mod` 2 ^ 16.

Definition screen_move_cursor (x y : Z) : tM unit :=
  let pos := ((y `mod` 2 ^ 8) * DISPLAY_WIDTH + x `mod` 2 ^ 8) `mod` 2 ^ 16 in
  kmodify (λ s, with_crt (Z.shiftr pos 8, Z.land pos 0xff) s).

Definition screen_putchar_attrib (c x y attrib : Z) : tM unit :=
  let* s := kget in
  let* v := kderef (store (videoram s) ((y `mod` 2 ^ 8) * DISPLAY_WIDTH + x `mod` 2 ^ 8) [cell attrib c]) "videoram" in
  kmodify (with_video v).
Definition screen_putchar (c x y : Z) : tM unit := screen_putchar_attrib c x y DEFAULT_ATTRIB.

Definition screen_putbuf (buf : list Z) : tM unit :=
  let* s := kget in
  let* src := kderef (load buf 0 (DISPLAY_WIDTH * DISPLAY_HEIGHT)) "buf" in
  let* v := kderef (store (videoram s) 0 (cell DEFAULT_ATTRIB <$> src)) "videoram" in
  kmodify (with_video v).

(** The buffer has the words of the display. *)
Definition screen_putbuf_attrib (buf : list Z) : tM unit :=
  let* s := kget in
  let* v := kderef (copy (videoram s) 0 buf 0 (DISPLAY_WIDTH * DISPLAY_HEIGHT)) "videoram" in
  kmodify (with_video v).

Definition screen_clear : tM unit :=
  let* s := kget in
  let* v := kderef (store (videoram s) 0 (replicate (Z.to_nat (DISPLAY_WIDTH * DISPLAY_HEIGHT)) (cell DEFAULT_ATTRIB 0x20))) "videoram" in
  kmodify (with_video v).

(** * virtterm.c *)

(** The row that is put behind the text when the cursor has left it. *)
Definition handle_tail (vt : virtterm) (new_cursor : Z) : option virtterm :=
  if circ_dist (vt_tail vt) (vt_cursor vt) <=? circ_dist new_cursor (vt_cursor vt) then
    let new_tail := next_row new_cursor in
    let head := if circ_dist (vt_tail vt) new_tail <=? circ_dist (vt_tail vt) (vt_head vt) then next_row new_tail else vt_head vt in
    buf ← (if vt_tail vt <=? new_tail then clear (vt_buf vt) (vt_tail vt) (new_tail - vt_tail vt)
           else b ← clear (vt_buf vt) (vt_tail vt) (SCROLL_BUFSIZE - vt_tail vt); clear b 0 new_tail);
    Some (Virtterm head new_tail (vt_top vt) (vt_cursor vt) buf (vt_tempbuf vt) (vt_driver vt))
  else Some vt.

(** The result says whether a character was put into the buffer. *)
Definition vt_handle_char (vt : virtterm) (c : Z) : option (bool * virtterm) :=
  let cursor := vt_cursor vt in
  if c =? 8 (* '\b' *) then
    Some (false, set_cursor (if cursor =? vt_head vt then cursor else buf_add cursor (-1)) vt)
  else if c =? 13 (* '\r' *) then
    Some (false, set_cursor (Z.quot cursor DISPLAY_WIDTH * DISPLAY_WIDTH) vt)
  else if c =? 10 (* '\n' *) then
    let new_cursor := next_row cursor in
    vt ← handle_tail vt new_cursor;
    Some (false, set_cursor new_cursor vt)
  else
    b ← store (vt_buf vt) cursor [c];
    let new_cursor := buf_add cursor 1 in
    vt ← handle_tail (set_buf b vt) new_cursor;
    Some (true, set_cursor new_cursor vt).

Definition vt_cursor_redraw : tM unit :=
  let* i := get_curterm in
  let* vt := get_term i in
  let rel_cursor := circ_dist (vt_cursor vt) (vt_top vt) in
  screen_move_cursor (Z.rem rel_cursor DISPLAY_WIDTH) (Z.quot rel_cursor DISPLAY_WIDTH).

(** What vt_redraw puts into the temporary buffer. *)
Definition redraw_buf (vt : virtterm) : option (list Z) :=
  tmp ← clear (vt_tempbuf vt) 0 DISPLAY_SIZE;
  if vt_top vt <=? vt_tail vt then
    if vt_tail vt - vt_top vt <=? DISPLAY_SIZE then copy tmp 0 (vt_buf vt) (vt_top vt) (vt_tail vt - vt_top vt)
    else copy tmp 0 (vt_buf vt) (vt_top vt) DISPLAY_SIZE
  else
    let first_part_size := SCROLL_BUFSIZE - vt_top vt in
    if DISPLAY_SIZE <=? first_part_size then copy tmp 0 (vt_buf vt) (vt_top vt) DISPLAY_SIZE
    else
      tmp ← copy tmp 0 (vt_buf vt) (vt_top vt) first_part_size;
      if first_part_size + vt_tail vt <=? DISPLAY_SIZE then copy tmp first_part_size (vt_buf vt) 0 (vt_tail vt)
      else copy tmp first_part_size (vt_buf vt) 0 (DISPLAY_SIZE - first_part_size).

Definition vt_redraw : tM unit :=
  let* i := get_curterm in
  let* vt := get_term i in
  let* tmp := kderef (redraw_buf vt) "memcpy" in
  put_term i (set_tempbuf tmp vt) ;;;
  screen_putbuf tmp ;;;
  vt_cursor_redraw.

Definition vt_provide_char (i : nat) (c : Z) : tM unit :=
  let* vt := get_term i in
  let old_cursor := vt_cursor vt in
  let old_top := vt_top vt in
  let vt := if DISPLAY_SIZE <=? circ_dist (vt_cursor vt) (vt_top vt)
            then set_top (buf_add (next_row (vt_cursor vt)) (- DISPLAY_SIZE)) vt else vt in
  let* (can_write_char, vt) := kderef (vt_handle_char vt c) "vt_buf" in
  put_term i vt ;;;
  let* s := kget in
  if bool_decide (vt_curterm s = Some i) then
    if old_top =? vt_top vt then
      (if can_write_char : bool then
         let rel_cursor := circ_dist old_cursor (vt_top vt) in
         screen_putchar c (Z.rem rel_cursor DISPLAY_WIDTH) (Z.quot rel_cursor DISPLAY_WIDTH)
       else kret tt) ;;;
      vt_cursor_redraw
    else vt_redraw
  else kret tt.

Definition vt_scroll (lines : Z) (scroll_up : bool) : tM unit :=
  let* i := get_curterm in
  let* vt := get_term i in
  let top := vt_top vt in
  put_term i (set_top
    (if scroll_up then
       if circ_dist top (vt_head vt) <? lines * DISPLAY_WIDTH then vt_head vt
       else buf_add top (- lines * DISPLAY_WIDTH)
     else
       if circ_dist (vt_tail vt) top <? (lines + 1) * DISPLAY_WIDTH then buf_add (vt_tail vt) (- DISPLAY_WIDTH)
       else buf_add top (lines * DISPLAY_WIDTH)) vt) ;;;
  vt_redraw.

Definition vt_switch (term : Z) : tM Z :=
  if (term <? 0) || (NTERMS <=? term) then kret (-1)
  else
    kmodify (with_curterm (Some (Z.to_nat term))) ;;;
    vt_redraw ;;;
    kret 0.

Definition vt_num_terminals : Z := NTERMS.

(** The index of the terminal, for its driver.  A negative id is not checked for. *)
Definition vt_get_tty_driver (id : Z) : tM (option nat) :=
  if NTERMS <=? id then kret None
  else if id <? 0 then kfault "vt_terms" else kret (Some (Z.to_nat id)).

Fixpoint provide_all (i : nat) (cs : list Z) : tM unit :=
  match cs with [] => kret tt | c :: cs => vt_provide_char i c ;;; provide_all i cs end.

Definition SHUTDOWN_TEXT : list Z := replicate 19 32 ++ chars "It is now safe to turn off your computer".
Definition vt_print_shutdown : tM unit :=
  let* s := kget in
  match vt_curterm s with
  | None => kret tt
  | Some i =>
      provide_all i (replicate 20 10) ;;;
      provide_all i SHUTDOWN_TEXT ;;;
      provide_all i (replicate 14 10)
  end.

Definition vt_register_callback_handler (i : nat) (callback : option Z) (arg : Z) : tM (option Z) :=
  let* vt := get_term i in
  put_term i (set_driver (TtyDriver callback arg) vt) ;;;
  kret (ttd_callback (vt_driver vt)).
Definition vt_unregister_callback_handler (i : nat) : tM (option Z) :=
  let* vt := get_term i in
  put_term i (set_driver (TtyDriver None (ttd_callback_arg (vt_driver vt))) vt) ;;;
  kret (ttd_callback (vt_driver vt)).

Definition INTR_KEYBOARD : Z := 0xe0.
Definition vt_block_io (i : nat) : tM Z :=
  let* s := kget in
  kmodify (with_ipl INTR_KEYBOARD) ;;;
  kret (ipl s).
Definition vt_unblock_io (i : nat) (data : Z) : tM unit :=
  let* s := kget in
  KASSERT (ipl s =? INTR_KEYBOARD) "Virtual terminal I/O not blocked" ;;;
  kmodify (with_ipl (data `mod` 2 ^ 8)).

Definition vt_keyboard_handler (c : Z) : tM unit :=
  let* s := kget in
  match vt_curterm s with
  | None => kret tt
  | Some i =>
      let* vt := get_term i in
      match ttd_callback (vt_driver vt) with
      | Some f => kmodify (add_callback (f, ttd_callback_arg (vt_driver vt), c))
      | None => kret tt
      end
  end.

(** The handler the keyboard is given is vt_keyboard_handler. *)
Definition keyboard_register_handler : tM unit := kmodify (with_handler true).

Fixpoint init_terms (n : nat) (i : nat) : tM unit :=
  match n with
  | O => kret tt
  | S n =>
      let* vt := get_term i in
      let* b := kderef (clear (vt_buf vt) 0 SCROLL_BUFSIZE) "vt_buf" in
      put_term i (Virtterm 0 DISPLAY_WIDTH 0 0 b (vt_tempbuf vt) (TtyDriver None 0)) ;;;
      init_terms n (S i)
  end.
Definition vt_init : tM unit :=
  init_terms (Z.to_nat NTERMS) 0 ;;;
  kmodify (with_curterm (Some 0%nat)) ;;;
  vt_redraw ;;;
  keyboard_register_handler.

(** * keyboard.c *)

Definition SHIFT_MASK : Z := 0x1.
Definition CTRL_MASK : Z := 0x2.
Definition ESC_MASK : Z := 0x4.
Definition LSHIFT : Z := 0x2a.
Definition RSHIFT : Z := 0x36.
Definition CTRL : Z := 0x1d.
Definition ESC0 : Z := 0xe0.
Definition ESC1 : Z := 0xe1.
Definition SCROLL_UP : Z := 0x0e.
Definition SCROLL_DOWN : Z := 0x1c.
Definition VT_KEY_LOW : Z := 0x3b.
Definition VT_KEY_HIGH : Z := 0x44.
Definition BREAK_MASK : Z := 0x80.
Definition NORMAL_KEY_HIGH : Z := 0x39.
Definition NO_CHAR : Z := 0xff.

Definition normal_scancodes : list Z :=
  [0; 27] ++ chars "1234567890-=" ++ [8; 9] ++ chars "qwertyuiop[]" ++ [10; 0] ++ chars "asdfghjkl;'`" ++ [0] ++ chars "\zxcvbnm,./" ++ [0; 0; 0; 32].
Definition shift_scancodes : list Z :=
  [0; 27] ++ chars "!@#$%^&*()_+" ++ [8; 9] ++ chars "QWERTYUIOP{}" ++ [10; 0] ++ chars "ASDFGHJKL:" ++ [34; 126; 0] ++ chars "|ZXCVBNM<>?" ++ [0; 0; 0; 32].

Definition held (mask m : Z) : bool := negb (Z.land mask m =? 0).
(** [curmask |= m] and [curmask &= ~m] *)
Definition press (m : Z) : tM unit := kmodify (λ s, with_curmask (Z.lor (curmask s) m) s).
Definition release (m : Z) : tM unit := kmodify (λ s, with_curmask (Z.land (curmask s) (Z.lnot m)) s).
Definition scancode (table : list Z) (sc : Z) : tM Z := kderef (table !! Z.to_nat sc) "scancodes".

(** The interrupt handler, for the byte [data] that the keyboard sends. *)
Definition keyboard_intr_handler (data : Z) : tM unit :=
  let break_code := held data BREAK_MASK in
  let sc := Z.land data (Z.lnot BREAK_MASK) in
  let* s := kget in
  let mask := curmask s in
  let* c :=
    if break_code then
      (if (sc =? LSHIFT) || (sc =? RSHIFT) then release SHIFT_MASK
       else if sc =? CTRL then release CTRL_MASK else kret tt) ;;; kret NO_CHAR
    else if (sc =? LSHIFT) || (sc =? RSHIFT) then press SHIFT_MASK ;;; kret NO_CHAR
    else if sc =? CTRL then press CTRL_MASK ;;; kret NO_CHAR
    else if held mask ESC_MASK then release ESC_MASK ;;; kret NO_CHAR
    else if (sc =? ESC0) || (sc =? ESC1) then press ESC_MASK ;;; kret NO_CHAR
    else if (VT_KEY_LOW <=? sc) && (sc <=? VT_KEY_HIGH) then vt_switch (sc - VT_KEY_LOW) ;;; kret NO_CHAR
    else if held mask CTRL_MASK && (sc =? SCROLL_DOWN) then vt_scroll DISPLAY_HEIGHT false ;;; kret NO_CHAR
    else if held mask CTRL_MASK && (sc =? SCROLL_UP) then vt_scroll DISPLAY_HEIGHT true ;;; kret NO_CHAR
    else if NORMAL_KEY_HIGH <? sc then kret NO_CHAR
    else if held mask CTRL_MASK then
      let* c := scancode shift_scancodes sc in
      kret (if (0x40 <=? c) && (c <? 0x60) then c - 0x40 else NO_CHAR)
    else if held mask SHIFT_MASK then scancode shift_scancodes sc
    else scancode normal_scancodes sc in
  let* s := kget in
  if negb (c =? NO_CHAR) && keyboard_handler s then vt_keyboard_handler c else kret tt.
