(* ===== verification/TermProps.v ===== *)
(** Virtual terminals: the invariant, the text a terminal holds, what the screen
    shows, and the theorems. *)

From stdpp Require Import base numbers list strings.
From S2P Require Import Prelude Term.

Open Scope Z_scope.

(** * Buffers *)

Definition at_pos (l : list Z) (i : Z) : Z := default 0 (l !! Z.to_nat i).
Abbreviation size l := (Z.of_nat (length l)).

Lemma at_ext l l' : size l = size l' → (∀ i, 0 ≤ i < size l → at_pos l i = at_pos l' i) → l = l'.
Proof.
  intros Hl Hat. apply list_eq_same_length with (length l); [lia|done|]. intros i x y Hi Hx Hy.
  specialize (Hat (Z.of_nat i) ltac:(lia)). unfold at_pos in Hat. rewrite Nat2Z.id, Hx, Hy in Hat. done.
Qed.

Lemma at_seqZ (f : Z → Z) n i : 0 ≤ i < n → at_pos (f <$> seqZ 0 n) i = f i.
Proof. intros Hi. unfold at_pos. rewrite list_lookup_fmap, lookup_seqZ_lt by lia. simpl. f_equal. lia. Qed.
Lemma size_seqZ (f : Z → Z) n : 0 ≤ n → size (f <$> seqZ 0 n) = n.
Proof. intros Hn. rewrite length_fmap, length_seqZ. lia. Qed.

Lemma at_app l l' i : 0 ≤ i → at_pos (l ++ l') i = if i <? size l then at_pos l i else at_pos l' (i - size l).
Proof.
  intros Hi. unfold at_pos. case_match; [rewrite lookup_app_l by lia; done|]. rewrite lookup_app_r by lia. do 2 f_equal. lia.
Qed.
Lemma at_drop l n i : 0 ≤ n → 0 ≤ i → at_pos (drop (Z.to_nat n) l) i = at_pos l (n + i).
Proof. intros Hn Hi. unfold at_pos. rewrite lookup_drop. do 2 f_equal. lia. Qed.
Lemma at_take l n i : 0 ≤ i < n → at_pos (take (Z.to_nat n) l) i = at_pos l i.
Proof. intros Hi. unfold at_pos. by rewrite lookup_take_lt by lia. Qed.
Lemma at_replicate n i : at_pos (replicate n 0) i = 0.
Proof. unfold at_pos. destruct (replicate n 0 !! Z.to_nat i) eqn:E; [|done]. by apply lookup_replicate in E as [-> _]. Qed.
Lemma at_insert l i j x : 0 ≤ i < size l → 0 ≤ j → at_pos (<[Z.to_nat i := x]> l) j = if j =? i then x else at_pos l j.
Proof.
  intros Hi Hj. unfold at_pos. destruct (Z.eqb_spec j i) as [->|Hn]; [by rewrite list_lookup_insert_eq by lia|].
  by rewrite list_lookup_insert_ne by lia.
Qed.

Lemma load_ok l off n : 0 ≤ off → 0 ≤ n → off + n ≤ size l →
  ∃ r, load l off n = Some r ∧ size r = n ∧ ∀ i, 0 ≤ i < n → at_pos r i = at_pos l (off + i).
Proof.
  intros Ho Hn Hl. unfold load. rewrite (proj2 (Z.leb_le 0 off)), (proj2 (Z.leb_le 0 n)), (proj2 (Z.leb_le (off + n) _)) by done.
  eexists. split; [reflexivity|]. split; [rewrite length_take, length_drop; lia|]. intros i Hi. by rewrite at_take, at_drop by lia.
Qed.

Lemma store_ok l off vs : 0 ≤ off → off + size vs ≤ size l →
  ∃ r, store l off vs = Some r ∧ size r = size l ∧
    ∀ i, 0 ≤ i → at_pos r i = if (off <=? i) && (i <? off + size vs) then at_pos vs (i - off) else at_pos l i.
Proof.
  intros Ho Hl. unfold store. rewrite (proj2 (Z.leb_le 0 off)), (proj2 (Z.leb_le (off + _) _)) by done.
  eexists. split; [reflexivity|]. assert (Ht : size (take (Z.to_nat off) l) = off) by (rewrite length_take; lia).
  split; [rewrite !length_app, length_drop; lia|]. intros i Hi. rewrite at_app, Ht by done.
  destruct (Z.leb_spec off i); destruct (Z.ltb_spec i off); try lia; simpl; [|by rewrite at_take by lia].
  rewrite at_app by lia. destruct (Z.ltb_spec (i - off) (size vs)); destruct (Z.ltb_spec i (off + size vs)); try lia.
  replace (Z.to_nat off + length vs)%nat with (Z.to_nat (off + size vs)) by lia. rewrite at_drop by lia. f_equal. lia.
Qed.

Lemma clear_ok l off n : 0 ≤ off → 0 ≤ n → off + n ≤ size l →
  ∃ r, clear l off n = Some r ∧ size r = size l ∧ ∀ i, 0 ≤ i → at_pos r i = if (off <=? i) && (i <? off + n) then 0 else at_pos l i.
Proof.
  intros Ho Hn Hl. unfold clear. rewrite (proj2 (Z.leb_le 0 n)) by done.
  destruct (store_ok l off (replicate (Z.to_nat n) 0)) as (r & E & Hr & Hat); [done|rewrite length_replicate; lia|].
  exists r. split_and!; [done|done|]. intros i Hi. rewrite Hat by done. rewrite length_replicate, Z2Nat.id, at_replicate by done. done.
Qed.

Lemma copy_ok l off src soff n : 0 ≤ off → 0 ≤ soff → 0 ≤ n → off + n ≤ size l → soff + n ≤ size src →
  ∃ r, copy l off src soff n = Some r ∧ size r = size l ∧
    ∀ i, 0 ≤ i → at_pos r i = if (off <=? i) && (i <? off + n) then at_pos src (soff + (i - off)) else at_pos l i.
Proof.
  intros Ho Hs Hn Hl Hsrc. unfold copy. destruct (load_ok src soff n) as (vs & E & Hvs & Hat); [done..|].
  destruct (store_ok l off vs) as (r & E' & Hr & Hat'); [done|lia|]. exists r. rewrite E. simpl. split_and!; [done|done|].
  intros i Hi. rewrite Hat', Hvs by done. destruct (Z.leb_spec off i), (Z.ltb_spec i (off + n)); simpl; try done. by rewrite Hat by lia.
Qed.

(** * Positions in the ring *)

Definition in_ring (p : Z) : Prop := 0 ≤ p < SCROLL_BUFSIZE.
Definition row_start (p : Z) : Prop := in_ring p ∧ p `mod` DISPLAY_WIDTH = 0.
(** The place [i] behind [p]. *)
Definition ring (p i : Z) : Z := (p + i) `mod` SCROLL_BUFSIZE.

Ltac ring_unfold := unfold row_start, in_ring, SCROLL_BUFSIZE, DISPLAY_SIZE, DISPLAY_WIDTH, DISPLAY_HEIGHT in *.

Ltac decide_all :=
  repeat match goal with
  | |- context [?a <=? ?b] => destruct (Z.leb_spec a b)
  | |- context [?a <? ?b] => destruct (Z.ltb_spec a b)
  | |- context [?a =? ?b] => destruct (Z.eqb_spec a b)
  | H : context [?a <=? ?b] |- _ => destruct (Z.leb_spec a b)
  | H : context [?a <? ?b] |- _ => destruct (Z.ltb_spec a b)
  | H : context [?a =? ?b] |- _ => destruct (Z.eqb_spec a b)
  end.

Lemma row_start_mult p : p `mod` DISPLAY_WIDTH = 0 → ∃ k, p = k * 80.
Proof. intros [k Hk]%Z.mod_divide; [by exists k|done]. Qed.
Lemma column p : ∃ q r, p = q * 80 + r ∧ 0 ≤ r < 80.
Proof. exists (p / 80), (p `mod` 80). Z.div_mod_to_equations; lia. Qed.

Lemma circ_dist_val t f : in_ring t → in_ring f → circ_dist t f = if f <=? t then t - f else t - f + SCROLL_BUFSIZE.
Proof.
  unfold circ_dist. ring_unfold. intros Ht Hf. rewrite Z.rem_mod_nonneg by lia. destruct (Z.leb_spec f t); Z.div_mod_to_equations; lia.
Qed.
Lemma next_row_val i : in_ring i → next_row i = let r := (i / DISPLAY_WIDTH + 1) * DISPLAY_WIDTH in if r =? SCROLL_BUFSIZE then 0 else r.
Proof.
  unfold next_row. ring_unfold. intros Hi. rewrite Z.quot_div_nonneg by lia. cbv zeta. rewrite Z.rem_mod_nonneg by (Z.div_mod_to_equations; lia).
  destruct (Z.eqb_spec ((i / 80 + 1) * 80) (5 * (80 * 25))) as [E|E]; [by rewrite E|]. apply Z.mod_small. Z.div_mod_to_equations; lia.
Qed.
Lemma buf_add_val p a : in_ring p → - SCROLL_BUFSIZE ≤ a < SCROLL_BUFSIZE →
  buf_add p a = if p + a <? 0 then p + a + SCROLL_BUFSIZE else if p + a <? SCROLL_BUFSIZE then p + a else p + a - SCROLL_BUFSIZE.
Proof.
  unfold buf_add. ring_unfold. intros Hp Ha. rewrite Z.rem_mod_nonneg by lia. destruct (Z.ltb_spec (p + a) 0); [rewrite Z.mod_small; lia|].
  destruct (Z.ltb_spec (p + a) (5 * (80 * 25))); Z.div_mod_to_equations; lia.
Qed.
Lemma ring_val p i : in_ring p → 0 ≤ i ≤ SCROLL_BUFSIZE → ring p i = if p + i <? SCROLL_BUFSIZE then p + i else p + i - SCROLL_BUFSIZE.
Proof. unfold ring. ring_unfold. intros Hp Hi. destruct (Z.ltb_spec (p + i) (5 * (80 * 25))); Z.div_mod_to_equations; lia. Qed.

Lemma ring_in p i : in_ring (ring p i).
Proof. apply Z.mod_pos_bound. done. Qed.
Lemma ring_ring p i j : ring (ring p i) j = ring p (i + j).
Proof. unfold ring. rewrite Z.add_mod_idemp_l by done. f_equal. lia. Qed.
Lemma ring_0 p : in_ring p → ring p 0 = p.
Proof. intros Hp. unfold ring. rewrite Z.add_0_r. by apply Z.mod_small. Qed.
Lemma ring_full p i : ring p (i + SCROLL_BUFSIZE) = ring p i.
Proof. unfold ring. rewrite Z.add_assoc, <- (Z.mul_1_l SCROLL_BUFSIZE) at 1. by apply Z.mod_add. Qed.
Lemma ring_dist t f : in_ring t → in_ring f → ring f (circ_dist t f) = t.
Proof. intros Ht Hf. rewrite circ_dist_val by done. unfold ring. ring_unfold. decide_all; Z.div_mod_to_equations; lia. Qed.
Lemma dist_ring f i : in_ring f → 0 ≤ i < SCROLL_BUFSIZE → circ_dist (ring f i) f = i.
Proof.
  intros Hf Hi. rewrite circ_dist_val by (done || apply ring_in). rewrite ring_val by (done || lia). ring_unfold. decide_all; lia.
Qed.
Lemma circ_dist_range t f : in_ring t → in_ring f → 0 ≤ circ_dist t f < SCROLL_BUFSIZE.
Proof. intros Ht Hf. rewrite circ_dist_val by done. ring_unfold. decide_all; lia. Qed.

Lemma dist_add a b c : in_ring a → in_ring b → in_ring c → circ_dist b a + circ_dist c b < SCROLL_BUFSIZE →
  circ_dist c a = circ_dist b a + circ_dist c b.
Proof.
  intros Ha Hb Hc Hlt. pose proof (circ_dist_range b a Hb Ha). pose proof (circ_dist_range c b Hc Hb).
  rewrite <- (dist_ring a (circ_dist b a + circ_dist c b)) by (done || lia). by rewrite <- ring_ring, !ring_dist by (done || by rewrite ring_dist).
Qed.

(** [n] bytes of the ring from [p] on *)
Definition window (b : list Z) (p n : Z) : list Z := (λ i, at_pos b (ring p i)) <$> seqZ 0 n.

Lemma size_window b p n : 0 ≤ n → size (window b p n) = n.
Proof. apply size_seqZ. Qed.
Lemma at_window b p n i : 0 ≤ i < n → at_pos (window b p n) i = at_pos b (ring p i).
Proof. intros Hi. unfold window. by rewrite at_seqZ. Qed.
Lemma window_ext b b' p p' n : (∀ i, 0 ≤ i < n → at_pos b (ring p i) = at_pos b' (ring p' i)) → window b p n = window b' p' n.
Proof. intros H. apply list_fmap_ext. intros k i Hi. apply list_elem_of_lookup_2, elem_of_seqZ in Hi. apply H. lia. Qed.
Lemma window_app b p n m : 0 ≤ n → 0 ≤ m → window b p (n + m) = window b p n ++ window b (ring p n) m.
Proof.
  intros Hn Hm. apply at_ext; [rewrite length_app, Nat2Z.inj_add, !size_window by lia; done|]. rewrite size_window by lia.
  intros i Hi. rewrite at_app, size_window, at_window by lia. destruct (Z.ltb_spec i n); rewrite at_window by lia; [done|].
  rewrite ring_ring. do 2 f_equal. lia.
Qed.
Lemma window_zeros b p n : 0 ≤ n → (∀ i, 0 ≤ i < n → at_pos b (ring p i) = 0) → window b p n = replicate (Z.to_nat n) 0.
Proof.
  intros Hn H. apply at_ext; [rewrite size_window, length_replicate by done; lia|]. rewrite size_window by done.
  intros i Hi. by rewrite at_window, at_replicate, H.
Qed.

(** * One terminal *)

Record vt_ok (vt : virtterm) : Prop := {
  ok_buf : size (vt_buf vt) = SCROLL_BUFSIZE;
  ok_tmp : size (vt_tempbuf vt) = DISPLAY_SIZE;
  ok_head : row_start (vt_head vt);
  ok_tail : row_start (vt_tail vt);
  ok_top : row_start (vt_top vt);
  ok_cursor : in_ring (vt_cursor vt);
  ok_size : DISPLAY_WIDTH ≤ circ_dist (vt_tail vt) (vt_head vt) ≤ SCROLL_BUFSIZE - DISPLAY_WIDTH;
  ok_in : circ_dist (vt_cursor vt) (vt_head vt) < circ_dist (vt_tail vt) (vt_head vt)
}.

(** What the screen is to show: the rows from [vt_top] on, as far as there are any. *)
Definition shown (vt : virtterm) : list Z :=
  (λ i, if i <? circ_dist (vt_tail vt) (vt_top vt) then at_pos (vt_buf vt) (ring (vt_top vt) i) else 0) <$> seqZ 0 DISPLAY_SIZE.

#[local] Arguments shown : simpl never.
#[local] Arguments Z.to_nat : simpl never.

(** Replace the positions by their values and solve what is left. *)
Ltac ring_vals :=
  repeat match goal with
  | H : context [circ_dist ?t ?f] |- _ => rewrite (circ_dist_val t f) in H by assumption
  | |- context [circ_dist ?t ?f] => rewrite (circ_dist_val t f) by assumption
  end.

Lemma shown_same vt vt' : vt_tail vt = vt_tail vt' → vt_top vt = vt_top vt' → vt_buf vt = vt_buf vt' → shown vt = shown vt'.
Proof. unfold shown. by intros -> -> ->. Qed.
Lemma size_shown vt : size (shown vt) = DISPLAY_SIZE.
Proof. apply size_seqZ. done. Qed.
Lemma at_shown vt i : 0 ≤ i < DISPLAY_SIZE →
  at_pos (shown vt) i = if i <? circ_dist (vt_tail vt) (vt_top vt) then at_pos (vt_buf vt) (ring (vt_top vt) i) else 0.
Proof. intros Hi. unfold shown. by rewrite at_seqZ. Qed.

(** The parts that vt_redraw copies are what is to be shown. *)
Lemma redraw_buf_shown vt : vt_ok vt → redraw_buf vt = Some (shown vt).
Proof.
  intros [Hb Ht _ [Htl _] [Htp _] _ _ _]. unfold redraw_buf. destruct (clear_ok (vt_tempbuf vt) 0 DISPLAY_SIZE) as (tmp & E & Hs & Hat); [done|done|lia|].
  rewrite E. simpl. clear E.
  assert (Hend : ∀ r, size r = DISPLAY_SIZE → (∀ i, 0 ≤ i < DISPLAY_SIZE → at_pos r i = at_pos (shown vt) i) → Some r = Some (shown vt)).
  { intros r Hr Hi. f_equal. apply at_ext; [by rewrite size_shown|]. rewrite Hr. exact Hi. }
  assert (Hz : ∀ i, 0 ≤ i < DISPLAY_SIZE → at_pos tmp i = 0) by (intros i Hi; rewrite Hat by lia; ring_unfold; decide_all; simpl; lia || done).
  destruct (Z.leb_spec (vt_top vt) (vt_tail vt)) as [Hle|Hgt].
  - set (n := Z.min (vt_tail vt - vt_top vt) DISPLAY_SIZE).
    assert (Ecopy : (if vt_tail vt - vt_top vt <=? DISPLAY_SIZE then copy tmp 0 (vt_buf vt) (vt_top vt) (vt_tail vt - vt_top vt)
      else copy tmp 0 (vt_buf vt) (vt_top vt) DISPLAY_SIZE) = copy tmp 0 (vt_buf vt) (vt_top vt) n).
    { unfold n. destruct (Z.leb_spec (vt_tail vt - vt_top vt) DISPLAY_SIZE); f_equal; lia. }
    rewrite Ecopy. destruct (copy_ok tmp 0 (vt_buf vt) (vt_top vt) n) as (r & E & Hr & Hat'); [ring_unfold; lia..|]. rewrite E.
    apply Hend; [lia|]. intros i Hi. rewrite Hat', at_shown by lia. ring_vals. rewrite ring_val by (done || (ring_unfold; lia)).
    ring_unfold. decide_all; simpl; try lia; try (by rewrite Hz); f_equal; lia.
  - set (f := SCROLL_BUFSIZE - vt_top vt).
    destruct (Z.leb_spec DISPLAY_SIZE f) as [Hf|Hf].
    + destruct (copy_ok tmp 0 (vt_buf vt) (vt_top vt) DISPLAY_SIZE) as (r & E & Hr & Hat'); [unfold f in *; ring_unfold; lia..|]. rewrite E.
      apply Hend; [lia|]. intros i Hi. rewrite Hat', at_shown by lia. ring_vals. rewrite ring_val by (done || (ring_unfold; lia)).
      unfold f in *. ring_unfold. decide_all; simpl; try lia; f_equal; lia.
    + destruct (copy_ok tmp 0 (vt_buf vt) (vt_top vt) f) as (r & E & Hr & Hat'); [unfold f in *; ring_unfold; lia..|]. rewrite E. simpl.
      set (n := Z.min (vt_tail vt) (DISPLAY_SIZE - f)).
      assert (Ecopy : (if f + vt_tail vt <=? DISPLAY_SIZE then copy r f (vt_buf vt) 0 (vt_tail vt)
        else copy r f (vt_buf vt) 0 (DISPLAY_SIZE - f)) = copy r f (vt_buf vt) 0 n).
      { unfold n. destruct (Z.leb_spec (f + vt_tail vt) DISPLAY_SIZE); f_equal; lia. }
      rewrite Ecopy. destruct (copy_ok r f (vt_buf vt) 0 n) as (r2 & E2 & Hr2 & Hat2); [unfold f in *; ring_unfold; lia..|]. rewrite E2.
      apply Hend; [lia|]. intros i Hi. rewrite Hat2, Hat', at_shown by lia. ring_vals. rewrite ring_val by (done || (ring_unfold; lia)).
      unfold f in *. ring_unfold. decide_all; simpl; try lia; try (by rewrite Hz); f_equal; lia.
Qed.

(** ** The text *)

(** The text of a terminal, in rows from the oldest on, and the place of the cursor. *)
Definition text (vt : virtterm) : list Z := window (vt_buf vt) (vt_head vt) (circ_dist (vt_tail vt) (vt_head vt)).
Definition place (vt : virtterm) : Z := circ_dist (vt_cursor vt) (vt_head vt).

(** A row is put behind the text when the cursor gets there, and the oldest row goes
    when there are too many. *)
Definition MAX_TEXT : Z := SCROLL_BUFSIZE - DISPLAY_WIDTH.
Definition add_row (t : list Z) (p : Z) : list Z * Z :=
  if p <? size t then (t, p)
  else
    let t' := t ++ replicate (Z.to_nat DISPLAY_WIDTH) 0 in
    if MAX_TEXT <? size t' then (drop (Z.to_nat DISPLAY_WIDTH) t', p - DISPLAY_WIDTH) else (t', p).

Definition type_char (t : list Z) (p c : Z) : list Z * Z :=
  if c =? 8 then (t, Z.max 0 (p - 1))
  else if c =? 13 then (t, p / DISPLAY_WIDTH * DISPLAY_WIDTH)
  else if c =? 10 then add_row t ((p / DISPLAY_WIDTH + 1) * DISPLAY_WIDTH)
  else add_row (<[Z.to_nat p := c]> t) (p + 1).

Lemma size_text vt : vt_ok vt → size (text vt) = circ_dist (vt_tail vt) (vt_head vt).
Proof. intros [_ _ _ _ _ _ Hs _]. apply size_window. ring_unfold. lia. Qed.
(** The places a cursor can go to with a new row in mind: the next one and the next row. *)
Definition forward (cursor new : Z) : Prop := new = buf_add cursor 1 ∨ new = next_row cursor.

Lemma forward_tail vt new : vt_ok vt → forward (vt_cursor vt) new →
  in_ring new ∧ (circ_dist (vt_tail vt) (vt_cursor vt) <=? circ_dist new (vt_cursor vt)) = (new =? vt_tail vt) ∧
  place vt < circ_dist new (vt_head vt) ≤ circ_dist (vt_tail vt) (vt_head vt).
Proof.
  intros [_ _ [Hh [h Eh]%row_start_mult] [Ht [t Et]%row_start_mult] _ Hc Hs Hi] Hf.
  destruct (column (vt_cursor vt)) as (q & r & Ec & Hr).
  assert (Hn : in_ring new ∧ (new = vt_cursor vt + 1 ∨ new = 0 ∧ vt_cursor vt = SCROLL_BUFSIZE - 1 ∨ new = (q + 1) * 80 ∨ new = 0 ∧ q = 124)).
  { destruct Hf as [-> | ->].
    - rewrite buf_add_val by (done || (ring_unfold; lia)). ring_unfold. decide_all; lia.
    - rewrite next_row_val by done. ring_unfold. cbv zeta. rewrite Ec, Z.div_add_l, (Z.div_small r) by lia. decide_all; lia. }
  destruct Hn as [Hn Hcase]. unfold place. ring_vals. ring_unfold. split; [done|]. decide_all; lia.
Qed.

Lemma next_row_start p : row_start p → row_start (next_row p) ∧ (next_row p = p + 80 ∨ next_row p = 0 ∧ p = SCROLL_BUFSIZE - 80).
Proof.
  intros [Hp [k Ek]%row_start_mult]. unfold row_start. rewrite next_row_val by done. ring_unfold. cbv zeta. subst p.
  rewrite Z.div_mul by lia. decide_all; (split; [split; [lia|]|lia]); [done|]. by apply Z.mod_mul.
Qed.

(** The row behind the text is cleared. *)
Lemma clear_row vt : vt_ok vt → let nt := next_row (vt_tail vt) in
  ∃ b, (if vt_tail vt <=? nt then clear (vt_buf vt) (vt_tail vt) (nt - vt_tail vt)
        else b ← clear (vt_buf vt) (vt_tail vt) (SCROLL_BUFSIZE - vt_tail vt); clear b 0 nt) = Some b ∧
    size b = SCROLL_BUFSIZE ∧
    ∀ i, 0 ≤ i → at_pos b i = if (vt_tail vt <=? i) && (i <? vt_tail vt + DISPLAY_WIDTH) then 0 else at_pos (vt_buf vt) i.
Proof.
  intros [Hb _ _ Ht _ _ _ _]. cbv zeta. destruct (next_row_start _ Ht) as [[Hr _] Hn]. destruct Ht as [Ht _].
  destruct (clear_ok (vt_buf vt) (vt_tail vt) DISPLAY_WIDTH) as (b & E & Hs & Hat); [ring_unfold; lia..|]. exists b.
  split_and!; [|lia|exact Hat]. destruct (Z.leb_spec (vt_tail vt) (next_row (vt_tail vt))) as [Hle|Hgt].
  - rewrite <- E. f_equal. ring_unfold. lia.
  - replace (SCROLL_BUFSIZE - vt_tail vt) with DISPLAY_WIDTH by (ring_unfold; lia). rewrite E. simpl.
    replace (next_row (vt_tail vt)) with 0 by (ring_unfold; lia). destruct (clear_ok b 0 0) as (b' & E' & Hs' & Hat'); [lia..|]. rewrite E'. f_equal.
    apply at_ext; [done|]. intros i Hi. rewrite Hat' by lia. decide_all; simpl; lia || done.
Qed.

(** What handle_tail does when the cursor has reached the tail. *)
Definition grown (vt : virtterm) (b : list Z) : virtterm :=
  let nt := next_row (vt_tail vt) in
  Virtterm (if nt =? vt_head vt then next_row nt else vt_head vt) nt (vt_top vt) (vt_cursor vt) b (vt_tempbuf vt) (vt_driver vt).

Lemma handle_tail_run vt new : vt_ok vt → forward (vt_cursor vt) new →
  if new =? vt_tail vt then ∃ b, handle_tail vt new = Some (grown vt b) ∧ size b = SCROLL_BUFSIZE ∧
    ∀ i, 0 ≤ i → at_pos b i = if (vt_tail vt <=? i) && (i <? vt_tail vt + DISPLAY_WIDTH) then 0 else at_pos (vt_buf vt) i
  else handle_tail vt new = Some vt.
Proof.
  intros Hok Hf. destruct (forward_tail vt new Hok Hf) as (Hn & E & _). unfold handle_tail. rewrite E.
  destruct (Z.eqb_spec new (vt_tail vt)) as [->|]; [|done]. destruct (clear_row vt Hok) as (b & Eb & Hs & Hat). rewrite Eb. exists b.
  split_and!; [|done|done]. simpl. unfold grown. do 2 f_equal. destruct (next_row_start _ (ok_tail _ Hok)) as [[Hr _] Hc].
  destruct Hok as [_ _ [Hh [h Eh]%row_start_mult] [Ht [t Et]%row_start_mult] _ _ Hs' _]. ring_vals. ring_unfold. decide_all; lia || done.
Qed.

Lemma grown_ok vt b : vt_ok vt → size b = SCROLL_BUFSIZE → vt_ok (set_cursor (vt_tail vt) (grown vt b)).
Proof.
  intros Hok Hb. destruct (next_row_start _ (ok_tail _ Hok)) as [Hr Hc]. destruct (next_row_start _ Hr) as [Hr2 Hc2].
  destruct Hok as [_ Htmp Hh Ht Htop Hcur Hs Hi]. pose proof Hh as [Hh1 [h Eh]%row_start_mult]. pose proof Ht as [Ht1 [t Et]%row_start_mult].
  pose proof Hr as [Hr1 _]. pose proof Hr2 as [Hr21 _].
  split; simpl; [done|done|by destruct (next_row (vt_tail vt) =? vt_head vt)|done|done|by apply Ht| |];
    destruct (Z.eqb_spec (next_row (vt_tail vt)) (vt_head vt)); ring_vals; ring_unfold; decide_all; lia.
Qed.

Lemma next_row_ring p : row_start p → next_row p = ring p 80.
Proof.
  intros Hp. destruct (next_row_start p Hp) as [[Hr _] Hc]. destruct Hp as [Hp _]. rewrite ring_val by (done || (ring_unfold; lia)).
  ring_unfold. decide_all; lia.
Qed.
Lemma dist_rel h a b : circ_dist (ring h a) (ring h b) = (a - b) `mod` SCROLL_BUFSIZE.
Proof.
  pose proof (ring_in h a) as Ha. pose proof (ring_in h b) as Hb. rewrite circ_dist_val by done. unfold ring in *. ring_unfold.
  destruct (Z.leb_spec ((h + b) `mod` (5 * (80 * 25))) ((h + a) `mod` (5 * (80 * 25)))); Z.div_mod_to_equations; lia.
Qed.
Lemma dist_rows t f : row_start t → row_start f → ∃ k, circ_dist t f = k * 80.
Proof.
  intros [Ht [a ->]%row_start_mult] [Hf [b ->]%row_start_mult]. rewrite circ_dist_val by done. ring_unfold.
  destruct (Z.leb_spec (b * 80) (a * 80)); [exists (a - b)|exists (a - b + 125)]; lia.
Qed.

(** The cleared row, from the tail on. *)
Lemma at_cleared vt b j :
  vt_ok vt → (∀ i, 0 ≤ i → at_pos b i = if (vt_tail vt <=? i) && (i <? vt_tail vt + DISPLAY_WIDTH) then 0 else at_pos (vt_buf vt) i) →
  0 ≤ j < SCROLL_BUFSIZE → at_pos b (ring (vt_tail vt) j) = if j <? DISPLAY_WIDTH then 0 else at_pos (vt_buf vt) (ring (vt_tail vt) j).
Proof.
  intros Hok Hat Hj. destruct (next_row_start _ (ok_tail _ Hok)) as [[Hr _] Hc]. destruct Hok as [_ _ _ [Ht _] _ _ _ _].
  rewrite Hat by apply ring_in. rewrite ring_val by (done || lia). ring_unfold. decide_all; simpl; lia || done.
Qed.

Lemma grown_text vt b :
  vt_ok vt → size b = SCROLL_BUFSIZE →
  (∀ i, 0 ≤ i → at_pos b i = if (vt_tail vt <=? i) && (i <? vt_tail vt + DISPLAY_WIDTH) then 0 else at_pos (vt_buf vt) i) →
  let vt' := set_cursor (vt_tail vt) (grown vt b) in
  (text vt', place vt') = add_row (text vt) (circ_dist (vt_tail vt) (vt_head vt)).
Proof.
  intros Hok Hb Hat. cbv zeta. unfold add_row. rewrite (size_text vt Hok), Z.ltb_irrefl. rewrite length_app, length_replicate, Nat2Z.inj_add, (size_text vt Hok).
  change (Z.of_nat (Z.to_nat DISPLAY_WIDTH)) with DISPLAY_WIDTH. pose proof (ok_size _ Hok) as Hs.
  destruct (dist_rows _ _ (ok_tail _ Hok) (ok_head _ Hok)) as [k Ek].
  pose proof (at_cleared vt b) as Hcl. pose proof Hok as [_ _ [Hh _] [Ht _] _ _ _ _]. pose proof (ring_dist _ _ Ht Hh) as Et. symmetry in Et.
  set (n := circ_dist (vt_tail vt) (vt_head vt)) in *.
  assert (Hw : window b (vt_head vt) (n + DISPLAY_WIDTH) = text vt ++ replicate (Z.to_nat DISPLAY_WIDTH) 0).
  { rewrite window_app by (ring_unfold; lia). rewrite <- Et. f_equal.
    - apply window_ext. intros i Hi. replace (ring (vt_head vt) i) with (ring (vt_tail vt) (SCROLL_BUFSIZE - n + i)).
      + rewrite Hcl by (done || (ring_unfold; lia)). destruct (Z.ltb_spec (SCROLL_BUFSIZE - n + i) DISPLAY_WIDTH); [lia|done].
      + rewrite Et, ring_ring, <- (ring_full (vt_head vt) i). f_equal. lia.
    - apply window_zeros; [done|]. intros i Hi. rewrite Hcl by (done || (ring_unfold; lia)). by rewrite (proj2 (Z.ltb_lt _ _)) by lia. }
  rewrite <- Hw. unfold text, place. simpl. rewrite (next_row_ring _ (ok_tail _ Hok)), Et, ring_ring.
  destruct (Z.ltb_spec MAX_TEXT (n + DISPLAY_WIDTH)) as [Hlt|Hle].
  - assert (En : n + 80 = SCROLL_BUFSIZE) by (unfold MAX_TEXT in *; ring_unfold; lia).
    assert (E0 : ring (vt_head vt) (n + 80) = vt_head vt) by (rewrite En, <- (Z.add_0_l SCROLL_BUFSIZE), ring_full; by apply ring_0).
    rewrite E0, Z.eqb_refl, (next_row_ring _ (ok_head _ Hok)). rewrite <- E0 at 2. rewrite !dist_rel.
    replace (n + DISPLAY_WIDTH) with (DISPLAY_WIDTH + n) by lia. rewrite window_app by (ring_unfold; lia).
    rewrite drop_app_length' by (pose proof (size_window b (vt_head vt) 80 ltac:(lia)); ring_unfold; lia).
    f_equal; [f_equal|]; ring_unfold; rewrite Z.mod_small; lia.
  - destruct (Z.eqb_spec (ring (vt_head vt) (n + 80)) (vt_head vt)) as [E|E].
    { exfalso. apply (f_equal (λ x, circ_dist x (vt_head vt))) in E. rewrite dist_ring in E by (done || (unfold MAX_TEXT in *; ring_unfold; lia)).
      rewrite circ_dist_val in E by done. ring_unfold. decide_all; lia. }
    by rewrite !dist_ring by (done || (unfold MAX_TEXT in *; ring_unfold; lia)).
Qed.

Lemma forward_dist c new : in_ring c → forward c new → 0 < circ_dist new c ≤ DISPLAY_WIDTH.
Proof.
  intros Hc [-> | ->].
  - rewrite buf_add_val by (done || (ring_unfold; lia)). assert (in_ring (if c + 1 <? 0 then c + 1 + SCROLL_BUFSIZE else if c + 1 <? SCROLL_BUFSIZE then c + 1 else c + 1 - SCROLL_BUFSIZE)) by (ring_unfold; decide_all; lia).
    ring_vals. ring_unfold. decide_all; lia.
  - destruct (column c) as (q & r & Ec & Hr). rewrite next_row_val by done. cbv zeta. ring_unfold. rewrite Ec, Z.div_add_l, (Z.div_small r) by lia. rewrite circ_dist_val by (ring_unfold; decide_all; lia).
    ring_unfold. decide_all; lia.
Qed.

(** ** The screen *)

(** The row that is added changes nothing that is shown. *)
Lemma grown_shown vt b c :
  vt_ok vt → (∀ i, 0 ≤ i → at_pos b i = if (vt_tail vt <=? i) && (i <? vt_tail vt + DISPLAY_WIDTH) then 0 else at_pos (vt_buf vt) i) →
  circ_dist (vt_tail vt) (vt_top vt) < SCROLL_BUFSIZE - DISPLAY_WIDTH → shown (set_cursor c (grown vt b)) = shown vt.
Proof.
  intros Hok Hat Hd. pose proof (at_cleared vt b) as Hcl. pose proof (ok_tail _ Hok) as Htr. pose proof Hok as [_ _ _ [Ht _] [Htop _] _ _ _].
  pose proof (circ_dist_range _ _ Ht Htop) as Hdr. pose proof (ring_dist _ _ Ht Htop) as Et. symmetry in Et. set (d := circ_dist (vt_tail vt) (vt_top vt)) in *.
  apply at_ext; [by rewrite !size_shown|]. rewrite size_shown. intros i Hi. rewrite !at_shown by done. simpl.
  rewrite (next_row_ring _ Htr). rewrite Et at 1. rewrite ring_ring, dist_ring by (done || (ring_unfold; lia)). fold d.
  assert (Hi' : ring (vt_top vt) i = ring (vt_tail vt) (if i <? d then SCROLL_BUFSIZE - d + i else i - d)).
  { rewrite Et, ring_ring. destruct (i <? d); [rewrite <- (ring_full _ i)|]; f_equal; lia. }
  rewrite Hi'. destruct (Z.ltb_spec i d), (Z.ltb_spec i (d + 80)); rewrite ?Hcl by (done || (ring_unfold; lia)); ring_unfold; decide_all; lia || done.
Qed.

Lemma put_shown vt b c :
  vt_ok vt → (∀ i, 0 ≤ i → at_pos b i = if i =? vt_cursor vt then c else at_pos (vt_buf vt) i) →
  circ_dist (vt_cursor vt) (vt_top vt) < DISPLAY_SIZE → circ_dist (vt_cursor vt) (vt_top vt) < circ_dist (vt_tail vt) (vt_top vt) →
  shown (set_buf b vt) = <[Z.to_nat (circ_dist (vt_cursor vt) (vt_top vt)) := c]> (shown vt).
Proof.
  intros [_ _ _ _ [Ht _] Hc _ _] Hat Hp Hd. pose proof (circ_dist_range _ _ Hc Ht) as Hr. pose proof (ring_dist _ _ Hc Ht) as Ec. symmetry in Ec.
  apply at_ext; [by rewrite length_insert, !size_shown|]. rewrite size_shown. intros i Hi. rewrite at_insert by (rewrite ?size_shown; lia).
  rewrite !at_shown by done. simpl. rewrite Hat by apply ring_in. destruct (Z.eqb_spec i (circ_dist (vt_cursor vt) (vt_top vt))) as [->|Hn].
  - by rewrite (proj2 (Z.ltb_lt _ _)), <- Ec, Z.eqb_refl by done.
  - destruct (Z.eqb_spec (ring (vt_top vt) i) (vt_cursor vt)) as [E|]; [|done]. rewrite <- E, dist_ring in Hn by (done || (ring_unfold; lia)). done.
Qed.

Lemma text_put vt b c :
  vt_ok vt → (∀ i, 0 ≤ i → at_pos b i = if i =? vt_cursor vt then c else at_pos (vt_buf vt) i) →
  text (set_buf b vt) = <[Z.to_nat (place vt) := c]> (text vt).
Proof.
  intros Hok Hat. pose proof (size_text _ Hok) as Hst. destruct Hok as [_ _ [Hh _] _ _ Hc Hs Hi]. unfold place in *. pose proof (circ_dist_range _ _ Hc Hh) as Hr. pose proof (ring_dist _ _ Hc Hh) as Ec. symmetry in Ec.
  apply at_ext; [rewrite length_insert, Hst; apply size_window; ring_unfold; lia|].
  assert (Es : size (text (set_buf b vt)) = circ_dist (vt_tail vt) (vt_head vt)) by (apply size_window; ring_unfold; simpl; lia). rewrite Es.
  intros i Hi'. rewrite at_insert by lia. unfold text. simpl. rewrite !at_window by done. rewrite Hat by apply ring_in.
  destruct (Z.eqb_spec i (circ_dist (vt_cursor vt) (vt_head vt))) as [->|Hn]; [by rewrite <- Ec, Z.eqb_refl|].
  destruct (Z.eqb_spec (ring (vt_head vt) i) (vt_cursor vt)) as [E|]; [|done]. rewrite <- E, dist_ring in Hn by (done || (ring_unfold; lia)). done.
Qed.

(** ** Characters *)

(** What a character does to a terminal, apart from the text and the screen. *)
Record same_term (vt vt' : virtterm) : Prop := {
  sm_top : vt_top vt' = vt_top vt;
  sm_tmp : vt_tempbuf vt' = vt_tempbuf vt;
  sm_driver : vt_driver vt' = vt_driver vt
}.
Definition on_screen (vt : virtterm) : Prop := circ_dist (vt_cursor vt) (vt_top vt) < DISPLAY_SIZE.
(** The cursor is in the last hundred rows of the text. *)
Definition near_end (vt : virtterm) : Prop := circ_dist (vt_tail vt) (vt_cursor vt) ≤ SCROLL_BUFSIZE - DISPLAY_SIZE.

Lemma set_cursor_ok vt c : vt_ok vt → in_ring c → circ_dist c (vt_head vt) < circ_dist (vt_tail vt) (vt_head vt) → vt_ok (set_cursor c vt).
Proof. intros [] ? ?. by split. Qed.

Lemma forward_run vt new : vt_ok vt → forward (vt_cursor vt) new →
  ∃ vt', handle_tail vt new = Some vt' ∧ let v := set_cursor new vt' in
    vt_ok v ∧ same_term vt v ∧ (text v, place v) = add_row (text vt) (circ_dist new (vt_head vt)) ∧ (on_screen vt → shown v = shown vt).
Proof.
  intros Hok Hf. pose proof (handle_tail_run vt new Hok Hf) as Hrun. destruct (forward_tail vt new Hok Hf) as (Hn & _ & Hpl).
  pose proof (forward_dist _ _ (ok_cursor _ Hok) Hf) as Hj. destruct (Z.eqb_spec new (vt_tail vt)) as [->|Hne].
  - destruct Hrun as (b & E & Hb & Hat). exists (grown vt b). split; [done|]. cbv zeta. split; [by apply grown_ok|]. split; [done|].
    split; [by apply grown_text|]. intros Hon. apply grown_shown; [done|done|]. unfold on_screen in Hon.
    destruct Hok as [_ _ _ [Ht _] [Htop _] Hc _ _].
    rewrite (dist_add (vt_top vt) (vt_cursor vt)) by (done || (ring_unfold; lia)). ring_unfold. lia.
  - exists vt. split; [done|]. cbv zeta. assert (Hlt : circ_dist new (vt_head vt) < circ_dist (vt_tail vt) (vt_head vt)).
    { destruct Hok as [_ _ [Hh _] [Ht _] _ _ _ _]. enough (circ_dist new (vt_head vt) ≠ circ_dist (vt_tail vt) (vt_head vt)) by lia.
      intros E. apply Hne. rewrite <- (ring_dist new (vt_head vt)), E by done. by apply ring_dist. }
    split; [by apply set_cursor_ok|]. split; [done|]. split; [|done]. unfold add_row. rewrite (size_text _ Hok), (proj2 (Z.ltb_lt _ _)) by done. done.
Qed.

Lemma place_of vt i : vt_ok vt → 0 ≤ i < SCROLL_BUFSIZE → circ_dist (ring (vt_head vt) i) (vt_head vt) = i.
Proof. intros [_ _ [Hh _] _ _ _ _ _] Hi. by apply dist_ring. Qed.

Lemma cursor_place vt : vt_ok vt → vt_cursor vt = ring (vt_head vt) (place vt) ∧ 0 ≤ place vt < circ_dist (vt_tail vt) (vt_head vt).
Proof.
  intros [_ _ [Hh _] [Ht _] _ Hc _ Hi]. unfold place. pose proof (circ_dist_range _ _ Hc Hh). rewrite ring_dist by done. split; [done|lia].
Qed.

(** Rows of the ring and rows of the text. *)
Lemma row_rel h p : row_start h → 0 ≤ p < SCROLL_BUFSIZE → Z.quot (ring h p) DISPLAY_WIDTH * DISPLAY_WIDTH = ring h (p / 80 * 80).
Proof.
  intros [Hh [k Ek]%row_start_mult] Hp. destruct (column p) as (q & r & Ep & Hr). pose proof (ring_in h p) as Hi.
  assert (Eq : p / 80 = q) by (rewrite Ep, Z.div_add_l, (Z.div_small r); lia). rewrite Eq.
  rewrite (ring_val h p) in * by (done || lia). rewrite (ring_val h (q * 80)) by (done || (ring_unfold; lia)). ring_unfold.
  rewrite Z.quot_div_nonneg by (decide_all; lia). subst h p. decide_all; try lia.
  - replace (k * 80 + (q * 80 + r)) with ((k + q) * 80 + r) by lia. rewrite Z.div_add_l, (Z.div_small r) by lia. lia.
  - replace (k * 80 + (q * 80 + r) - 5 * (80 * 25)) with ((k + q - 125) * 80 + r) by lia. rewrite Z.div_add_l, (Z.div_small r) by lia. lia.
Qed.
Lemma next_row_rel h p : row_start h → 0 ≤ p < SCROLL_BUFSIZE → next_row (ring h p) = ring h ((p / 80 + 1) * 80).
Proof.
  intros Hh Hp. pose proof (row_rel h p Hh Hp) as E. unfold next_row. rewrite Z.mul_add_distr_r, E. rewrite Z.rem_mod_nonneg; [| |done].
  - unfold ring. rewrite Z.add_mod_idemp_l by done. f_equal. ring_unfold. lia.
  - pose proof (ring_in h (p / 80 * 80)). ring_unfold. lia.
Qed.

Definition printed (c : Z) : bool := negb ((c =? 8) || (c =? 13) || (c =? 10)).

(** vt_handle_char keeps the invariant, changes the text as [type_char] does, and what
    is to be shown by one character at most. *)
Lemma handle_char_run vt c : vt_ok vt →
  ∃ vt', vt_handle_char vt c = Some (printed c, vt') ∧ vt_ok vt' ∧ same_term vt vt' ∧
    (text vt', place vt') = type_char (text vt) (place vt) c ∧
    (on_screen vt → near_end vt →
     shown vt' = if printed c then <[Z.to_nat (circ_dist (vt_cursor vt) (vt_top vt)) := c]> (shown vt) else shown vt).
Proof.
  intros Hok. destruct (cursor_place vt Hok) as [Ec Hp]. pose proof (ok_size _ Hok) as Hs. pose proof (ok_head _ Hok) as Hh.
  unfold vt_handle_char, type_char, printed. destruct (Z.eqb_spec c 8) as [_|N8]; [|destruct (Z.eqb_spec c 13) as [_|N13]; [|destruct (Z.eqb_spec c 10) as [_|N10]]]; simpl.
  - eexists. split; [reflexivity|]. assert (Ei : (if vt_cursor vt =? vt_head vt then vt_cursor vt else buf_add (vt_cursor vt) (-1)) = ring (vt_head vt) (Z.max 0 (place vt - 1))).
    { destruct Hok as [_ _ [Hh1 _] _ _ Hc _ _]. unfold place in *. rewrite circ_dist_val in * by done. rewrite buf_add_val by (done || (ring_unfold; lia)). rewrite ring_val by (done || (ring_unfold; decide_all; lia)).
      ring_unfold. decide_all; lia. }
    rewrite Ei. split_and!; [apply set_cursor_ok; [done|apply ring_in|rewrite place_of by (done || (ring_unfold; lia)); lia]|done| |done].
    f_equal. unfold place at 1. simpl. apply place_of; [done|]. ring_unfold. lia.
  - eexists. split; [reflexivity|]. rewrite Ec, row_rel by (done || (ring_unfold; lia)). assert (Hq : 0 ≤ place vt / 80 * 80 ≤ place vt) by (Z.div_mod_to_equations; lia).
    split_and!; [apply set_cursor_ok; [done|apply ring_in|rewrite place_of by (done || (ring_unfold; lia)); lia]|done| |done].
    f_equal. unfold place at 1. simpl. apply place_of; [done|]. ring_unfold. lia.
  - destruct (forward_run vt (next_row (vt_cursor vt)) Hok) as (vt' & E & Hok' & Hsm & Ht & Hsh); [by right|]. rewrite E. simpl.
    eexists. split; [reflexivity|]. split_and!; [done|done| |auto]. rewrite Ht. f_equal. rewrite Ec, next_row_rel by (exact Hh || (ring_unfold; lia)).
    apply place_of; [done|]. ring_unfold. Z.div_mod_to_equations; lia.
  - destruct (store_ok (vt_buf vt) (vt_cursor vt) [c]) as (b & Eb & Hb & Hat); [apply Hok|rewrite (ok_buf _ Hok); pose proof (ok_cursor _ Hok); ring_unfold; simpl; lia|].
    assert (Hat' : ∀ i, 0 ≤ i → at_pos b i = if i =? vt_cursor vt then c else at_pos (vt_buf vt) i).
    { intros i Hi. rewrite Hat by done. simpl. destruct (Z.eqb_spec i (vt_cursor vt)) as [->|]; [by rewrite Z.leb_refl, (proj2 (Z.ltb_lt _ _)), Z.sub_diag by lia|].
      decide_all; simpl; lia || done. }
    rewrite Eb. simpl. assert (Hokb : vt_ok (set_buf b vt)) by (destruct Hok; split; simpl; try done; lia).
    destruct (forward_run (set_buf b vt) (buf_add (vt_cursor vt) 1) Hokb) as (vt' & E & Hok' & Hsm & Ht & Hsh); [by left|]. rewrite E. simpl.
    eexists. split; [reflexivity|]. split_and!; [done|by destruct Hsm; split| |].
    + rewrite Ht, (text_put vt b c Hok Hat'). f_equal. simpl. replace (buf_add (vt_cursor vt) 1) with (ring (vt_head vt) (place vt + 1)).
      * apply place_of; [done|]. ring_unfold. lia.
      * rewrite <- ring_ring, <- Ec. rewrite buf_add_val, ring_val by (apply Hok || (ring_unfold; lia)). pose proof (ok_cursor _ Hok). ring_unfold. decide_all; lia.
    + intros Hon Hnear. rewrite Hsh by done. apply put_shown; [done|done|done|]. unfold on_screen, near_end in *.
      destruct Hok as [_ _ [Hh1 _] [Ht1 _] [Htop _] Hc _ _]. assert (Hne : circ_dist (vt_tail vt) (vt_cursor vt) ≠ 0).
      { intros E0. apply (f_equal (ring (vt_cursor vt))) in E0. rewrite ring_dist, ring_0 in E0 by done. unfold place in Hp. rewrite E0 in Hp. lia. }
      pose proof (circ_dist_range _ _ Ht1 Hc). rewrite (dist_add (vt_top vt) (vt_cursor vt) (vt_tail vt)) by (assumption || (ring_unfold; lia)). lia.
Qed.

(** * All terminals and the screen *)

(** One page of video memory. *)
Definition VIDEO_WORDS : Z := 2048.

Record tinv (s : terminals) : Prop := {
  ti_terms : length (vt_terms s) = Z.to_nat NTERMS;
  ti_ok i vt : vt_terms s !! i = Some vt → vt_ok vt;
  ti_cur : ∃ i, vt_curterm s = Some i ∧ (i < Z.to_nat NTERMS)%nat;
  ti_video : size (videoram s) = VIDEO_WORDS
}.

(** The screen shows the current terminal, and the cursor of the display is where the
    cursor of the terminal is. *)
Definition up_to_date (s : terminals) (vt : virtterm) : Prop :=
  take (Z.to_nat DISPLAY_SIZE) (videoram s) = cell DEFAULT_ATTRIB <$> shown vt ∧
  crt_cursor s = (Z.shiftr (circ_dist (vt_cursor vt) (vt_top vt)) 8, Z.land (circ_dist (vt_cursor vt) (vt_top vt)) 0xff).
Definition screen_ok (s : terminals) : Prop :=
  ∃ i vt, vt_curterm s = Some i ∧ vt_terms s !! i = Some vt ∧ up_to_date s vt.

Lemma get_term_next {A} i vt (k : virtterm → kM terminals A) s : vt_terms s !! i = Some vt → kbind (get_term i) k s = k vt s.
Proof. intros E. unfold get_term, kbind, kget, kderef. simpl. by rewrite E. Qed.
Lemma get_curterm_next {A} i (k : nat → kM terminals A) s : vt_curterm s = Some i → kbind get_curterm k s = k i s.
Proof. intros E. unfold get_curterm, kbind, kget, kderef. simpl. by rewrite E. Qed.

Lemma move_cursor_run s rel : 0 ≤ rel < SCROLL_BUFSIZE →
  screen_move_cursor (Z.rem rel DISPLAY_WIDTH) (Z.quot rel DISPLAY_WIDTH) s = RRet tt (with_crt (Z.shiftr rel 8, Z.land rel 0xff) s).
Proof.
  intros Hr. unfold screen_move_cursor, kmodify. destruct (column rel) as (q & r & E & Hr'). ring_unfold.
  rewrite Z.rem_mod_nonneg, Z.quot_div_nonneg by lia. assert (Eq : rel / 80 = q) by (rewrite E, Z.div_add_l, (Z.div_small r); lia).
  assert (Em : rel `mod` 80 = r) by (Z.div_mod_to_equations; lia). rewrite Eq, Em. rewrite (Z.mod_small q), (Z.mod_small r) by lia.
  rewrite (Z.mod_small (q * 80 + r)) by lia. by rewrite <- E.
Qed.

Lemma cursor_redraw_run s i vt : vt_curterm s = Some i → vt_terms s !! i = Some vt → vt_ok vt →
  vt_cursor_redraw s = RRet tt (with_crt (Z.shiftr (circ_dist (vt_cursor vt) (vt_top vt)) 8, Z.land (circ_dist (vt_cursor vt) (vt_top vt)) 0xff) s).
Proof.
  intros Hi Hvt [_ _ _ _ [Ht _] Hc _ _]. unfold vt_cursor_redraw. rewrite (get_curterm_next _ _ _ Hi), (get_term_next _ _ _ _ Hvt).
  apply move_cursor_run. by apply circ_dist_range.
Qed.

Lemma load_all (l : list Z) n : size l = n → load l 0 n = Some l.
Proof.
  intros Hl. destruct (load_ok l 0 n) as (r & E & Hr & Hat); [lia..|]. rewrite E. f_equal. apply at_ext; [lia|]. intros i Hi. apply Hat. lia.
Qed.

Lemma store_front (l vs : list Z) : size vs ≤ size l → ∃ r, store l 0 vs = Some r ∧ size r = size l ∧ take (length vs) r = vs.
Proof.
  intros Hl. unfold store. rewrite (proj2 (Z.leb_le (0 + _) _)) by done. eexists. split; [reflexivity|]. simpl.
  rewrite length_app, length_drop, take_app_length. split; [lia|done].
Qed.

Lemma screen_putbuf_run s buf : size buf = DISPLAY_SIZE → size (videoram s) = VIDEO_WORDS →
  ∃ v, screen_putbuf buf s = RRet tt (with_video v s) ∧ size v = VIDEO_WORDS ∧ take (Z.to_nat DISPLAY_SIZE) v = cell DEFAULT_ATTRIB <$> buf.
Proof.
  intros Hb Hv. destruct (store_front (videoram s) (cell DEFAULT_ATTRIB <$> buf)) as (v & Ev & Hs & Htk); [rewrite length_fmap, Hb, Hv; done|].
  exists v. unfold screen_putbuf. rewrite kget_next, (kderef_next _ _ _ _ _ (load_all buf _ Hb)), (kderef_next _ _ _ _ _ Ev).
  split_and!; [done|lia|]. rewrite <- Htk. rewrite length_fmap. f_equal. lia.
Qed.

Lemma redraw_run s i vt : tinv s → vt_curterm s = Some i → vt_terms s !! i = Some vt →
  ∃ s', vt_redraw s = RRet tt s' ∧ tinv s' ∧ screen_ok s' ∧ vt_terms s' = <[i := set_tempbuf (shown vt) vt]> (vt_terms s) ∧
    vt_curterm s' = Some i ∧ ipl s' = ipl s ∧ curmask s' = curmask s ∧ keyboard_handler s' = keyboard_handler s ∧ callbacks s' = callbacks s.
Proof.
  intros [H1 H2 (j & Hj & Hlt) H4] Hi Hvt. assert (j = i) as -> by congruence. pose proof (H2 _ _ Hvt) as Hok.
  unfold vt_redraw. rewrite (get_curterm_next _ _ _ Hi), (get_term_next _ _ _ _ Hvt), (kderef_next _ _ _ _ _ (redraw_buf_shown _ Hok)).
  set (vt' := set_tempbuf (shown vt) vt). assert (Hok' : vt_ok vt') by (destruct Hok; split; try done; apply size_shown).
  unfold put_term. rewrite kmodify_next. set (s1 := upd_terms _ s).
  destruct (screen_putbuf_run s1 (shown vt) (size_shown vt) H4) as (v & Ev & Hv & Htk). rewrite (kbind_of_ret _ _ _ _ _ Ev).
  assert (Hl : vt_terms s1 !! i = Some vt') by (apply list_lookup_insert_eq; lia).
  rewrite (cursor_redraw_run (with_video v s1) i vt') by done. eexists. split; [reflexivity|]. split; [|split].
  - split; [by apply eq_trans with (2 := H1), length_insert| |by exists i|exact Hv]. intros k w. change (vt_terms _) with (<[i := vt']> (vt_terms s)).
    rewrite list_lookup_insert_Some. intros [(_ & <- & _)|[_ Hw]]; [done|by eapply H2].
  - exists i, vt'. split_and!; [done|done|]. split; [exact Htk|done].
  - done.
Qed.

(** ** Characters to a terminal *)

(** The terminal with its window on the cursor. *)
Definition follow (vt : virtterm) : virtterm :=
  if DISPLAY_SIZE <=? circ_dist (vt_cursor vt) (vt_top vt) then set_top (buf_add (next_row (vt_cursor vt)) (- DISPLAY_SIZE)) vt else vt.

Lemma follow_ok vt : vt_ok vt → vt_ok (follow vt) ∧ on_screen (follow vt) ∧ (near_end vt → near_end (follow vt)) ∧
  text (follow vt) = text vt ∧ place (follow vt) = place vt ∧ vt_cursor (follow vt) = vt_cursor vt ∧ vt_driver (follow vt) = vt_driver vt.
Proof.
  intros Hok. unfold follow, on_screen. destruct (Z.leb_spec DISPLAY_SIZE (circ_dist (vt_cursor vt) (vt_top vt))) as [Hle|]; [|done].
  pose proof (ok_cursor _ Hok) as Hc. destruct (column (vt_cursor vt)) as (q & r & Ec & Hr).
  assert (En : next_row (vt_cursor vt) = if q =? 124 then 0 else (q + 1) * 80).
  { rewrite next_row_val by done. cbv zeta. ring_unfold. rewrite Ec, Z.div_add_l, (Z.div_small r) by lia. decide_all; lia. }
  assert (Hin : in_ring (next_row (vt_cursor vt))) by (rewrite En; ring_unfold; decide_all; lia).
  assert (Et : buf_add (next_row (vt_cursor vt)) (- DISPLAY_SIZE) = (if q <? 24 then q + 101 else q - 24) * 80).
  { rewrite buf_add_val by (done || (ring_unfold; lia)). rewrite En. ring_unfold. decide_all; lia. }
  assert (Hrow : row_start ((if q <? 24 then q + 101 else q - 24) * 80)).
  { split; [ring_unfold; decide_all; lia|by apply Z.mod_mul]. }
  rewrite Et. split_and!; try done.
  - destruct Hok. by split.
  - simpl. rewrite circ_dist_val by (done || apply Hrow). ring_unfold. decide_all; lia.
Qed.

Lemma tinv_put s i vt : tinv s → vt_ok vt → tinv (upd_terms <[i := vt]> s).
Proof.
  intros [H1 H2 H3 H4] Hok. split; [by apply eq_trans with (2 := H1), length_insert| |done|done].
  intros k w. change (vt_terms _) with (<[i := vt]> (vt_terms s)). rewrite list_lookup_insert_Some. intros [(_ & <- & _)|[_ Hw]]; [done|by eapply H2].
Qed.

Lemma put_cell_run s vt c : on_screen vt → vt_ok vt → size (videoram s) = VIDEO_WORDS →
  let rel := circ_dist (vt_cursor vt) (vt_top vt) in
  ∃ v, screen_putchar c (Z.rem rel DISPLAY_WIDTH) (Z.quot rel DISPLAY_WIDTH) s = RRet tt (with_video v s) ∧ size v = VIDEO_WORDS ∧
    take (Z.to_nat DISPLAY_SIZE) v = <[Z.to_nat rel := cell DEFAULT_ATTRIB c]> (take (Z.to_nat DISPLAY_SIZE) (videoram s)).
Proof.
  intros Hon [_ _ _ _ [Ht _] Hc _ _] Hv. cbv zeta. pose proof (circ_dist_range _ _ Hc Ht) as Hr. unfold on_screen in Hon. set (rel := circ_dist _ _) in *.
  assert (Ei : (Z.quot rel DISPLAY_WIDTH `mod` 2 ^ 8) * DISPLAY_WIDTH + Z.rem rel DISPLAY_WIDTH `mod` 2 ^ 8 = rel).
  { ring_unfold. rewrite Z.rem_mod_nonneg, Z.quot_div_nonneg by lia. pose proof (Z.mod_pos_bound rel 80 ltac:(lia)). rewrite (Z.mod_small (rel / 80)), (Z.mod_small (rel `mod` 80)) by (Z.div_mod_to_equations; lia). Z.div_mod_to_equations; lia. }
  unfold screen_putchar, screen_putchar_attrib. rewrite kget_next, Ei.
  destruct (store_ok (videoram s) rel [cell DEFAULT_ATTRIB c]) as (v & Ev & Hs & Hat); [lia|rewrite Hv; unfold VIDEO_WORDS; ring_unfold; simpl; lia|].
  exists v. rewrite (kderef_next _ _ _ _ _ Ev). unfold VIDEO_WORDS in *. split_and!; [done|lia|]. apply at_ext; [rewrite length_insert, !length_take; lia|].
  rewrite length_take. intros i Hi. rewrite at_insert by (rewrite ?length_take; ring_unfold; lia). rewrite !at_take by (ring_unfold; lia). rewrite Hat by lia.
  destruct (Z.eqb_spec i rel) as [->|]; [by rewrite Z.leb_refl, (proj2 (Z.ltb_lt _ _)), Z.sub_diag by (simpl; lia)|]. simpl. decide_all; simpl; lia || done.
Qed.

(** What a character for terminal [i] does. *)
Record provided (i : nat) (c : Z) (s s' : terminals) : Prop := {
  pv_term : ∃ vt vt', vt_terms s !! i = Some vt ∧ vt_terms s' !! i = Some vt' ∧ (text vt', place vt') = type_char (text vt) (place vt) c ∧ vt_driver vt' = vt_driver vt;
  pv_others j : j ≠ i → vt_terms s' !! j = vt_terms s !! j;
  pv_cur : vt_curterm s' = vt_curterm s;
  pv_rest : ipl s' = ipl s ∧ curmask s' = curmask s ∧ keyboard_handler s' = keyboard_handler s ∧ callbacks s' = callbacks s
}.

Lemma provide_char_run s i c vt : tinv s → vt_terms s !! i = Some vt →
  ∃ s', vt_provide_char i c s = RRet tt s' ∧ tinv s' ∧ provided i c s s' ∧ (screen_ok s → near_end vt → screen_ok s').
Proof.
  intros HI Hvt. destruct (follow_ok vt (ti_ok _ HI _ _ Hvt)) as (Hok & Hon & Hnear & Htext & Hplace & Hcur & Hdr).
  destruct (handle_char_run (follow vt) c Hok) as (vt' & Eh & Hok' & [Etop _ Edr] & Ht & Hsh). rewrite Htext, Hplace in Ht.
  assert (Hlt : (i < length (vt_terms s))%nat) by (by eapply lookup_lt_Some). unfold vt_provide_char. rewrite (get_term_next _ _ _ _ Hvt). fold (follow vt).
  rewrite (kderef_next _ _ _ _ _ Eh). unfold put_term. rewrite kmodify_next, kget_next. set (s1 := upd_terms <[i := vt']> s).
  assert (HI1 : tinv s1) by (by apply tinv_put). assert (Hl1 : vt_terms s1 !! i = Some vt') by (by apply list_lookup_insert_eq).
  assert (Hpv : ∀ s2 vt2, vt_terms s2 = <[i := vt2]> (vt_terms s) → text vt2 = text vt' → place vt2 = place vt' → vt_driver vt2 = vt_driver vt' →
    vt_curterm s2 = vt_curterm s → ipl s2 = ipl s ∧ curmask s2 = curmask s ∧ keyboard_handler s2 = keyboard_handler s ∧ callbacks s2 = callbacks s → provided i c s s2).
  { intros s2 vt2 E2 E3 E4 E5 E6 E7. split; [|intros j Hj; rewrite E2; by apply list_lookup_insert_ne|done|done]. exists vt, vt2.
    split_and!; [done|rewrite E2; by apply list_lookup_insert_eq|by rewrite E3, E4|congruence]. }
  change (vt_curterm s1) with (vt_curterm s). destruct (decide (vt_curterm s = Some i)) as [Ecur|Ncur].
  2:{ rewrite bool_decide_eq_false_2 by done. exists s1. split_and!; [done|done|by apply (Hpv _ vt')|]. intros (j & w & Hj & Hw & Hup) _.
      exists j, w. split_and!; [done| |done]. simpl. rewrite list_lookup_insert_ne; [done|congruence]. }
  rewrite bool_decide_eq_true_2 by done. destruct (Z.eqb_spec (vt_top vt) (vt_top vt')) as [Et|Nt].
  2:{ destruct (redraw_run s1 i vt' HI1 Ecur Hl1) as (s2 & E & HI2 & Hs2 & Hterms & Hc2 & Hrest). exists s2. split_and!; [exact E|done| |done].
      apply (Hpv _ (set_tempbuf (shown vt') vt')); try done; [|congruence]. rewrite Hterms. apply list_insert_insert_eq. }
  assert (Ef : vt_top (follow vt) = vt_top vt) by congruence. assert (Hsame : shown (follow vt) = shown vt).
  { unfold follow in *. destruct (_ <=? _); [|done]. apply shown_same; done. }
  destruct (printed c) eqn:Ep.
  - rewrite <- Hcur, Etop. destruct (put_cell_run s1 (follow vt) c Hon Hok (ti_video _ HI1)) as (v & Ev & Hv & Htk). rewrite (kbind_of_ret _ _ _ _ _ Ev).
    rewrite (cursor_redraw_run (with_video v s1) i vt') by done. eexists. split; [reflexivity|]. split; [|split; [by apply (Hpv _ vt'); [reflexivity..|repeat split]|]].
    + destruct HI1. by split.
    + intros (j & w & Hj & Hw & Hup & _) Hne. assert (j = i) as -> by congruence. assert (w = vt) as -> by congruence. exists i, vt'. split_and!; [done|done|]. split; [|done].
      change (take (Z.to_nat DISPLAY_SIZE) v = cell DEFAULT_ATTRIB <$> shown vt'). rewrite Htk. change (videoram s1) with (videoram s). rewrite Hup, (Hsh Hon (Hnear Hne)), Hsame, list_fmap_insert. reflexivity.
  - rewrite kbind_ret_l, (cursor_redraw_run s1 i vt') by done. eexists. split; [reflexivity|]. split; [|split; [by apply (Hpv _ vt'); [reflexivity..|repeat split]|]].
    + destruct HI1. by split.
    + intros (j & w & Hj & Hw & Hup & _) Hne. assert (j = i) as -> by congruence. assert (w = vt) as -> by congruence. exists i, vt'. split_and!; [done|done|]. split; [|done].
      rewrite (Hsh Hon (Hnear Hne)), Hsame. exact Hup.
Qed.

(** ** Scrolling and switching *)

(** Nothing but the windows and the choice of the terminal has changed. *)
Record same_texts (s s' : terminals) : Prop := {
  st_terms i vt : vt_terms s !! i = Some vt → ∃ vt', vt_terms s' !! i = Some vt' ∧ text vt' = text vt ∧ place vt' = place vt ∧
    vt_tail vt' = vt_tail vt ∧ vt_cursor vt' = vt_cursor vt ∧ vt_driver vt' = vt_driver vt;
  st_rest : ipl s' = ipl s ∧ curmask s' = curmask s ∧ keyboard_handler s' = keyboard_handler s ∧ callbacks s' = callbacks s
}.

Lemma move_ok vt t : vt_ok vt → row_start t → vt_ok (set_top t vt).
Proof. intros [] ?. by split. Qed.

Lemma row_add p k : row_start p → - 125 ≤ k < 125 → row_start (buf_add p (k * 80)).
Proof.
  intros [Hp [a Ea]%row_start_mult] Hk. rewrite buf_add_val by (done || (ring_unfold; lia)). ring_unfold. subst p.
  assert (Hm : ∀ x, (x * 80) `mod` 80 = 0) by (intros x; by apply Z.mod_mul).
  decide_all; (split; [lia|]); [replace (a * 80 + k * 80 + 5 * (80 * 25)) with ((a + k + 125) * 80) by lia|replace (a * 80 + k * 80) with ((a + k) * 80) by lia|
    replace (a * 80 + k * 80 - 5 * (80 * 25)) with ((a + k - 125) * 80) by lia]; apply Hm.
Qed.

Lemma scroll_top vt lines (up : bool) : vt_ok vt → 0 ≤ lines →
  row_start (if up then if circ_dist (vt_top vt) (vt_head vt) <? lines * DISPLAY_WIDTH then vt_head vt else buf_add (vt_top vt) (- lines * DISPLAY_WIDTH)
    else if circ_dist (vt_tail vt) (vt_top vt) <? (lines + 1) * DISPLAY_WIDTH then buf_add (vt_tail vt) (- DISPLAY_WIDTH) else buf_add (vt_top vt) (lines * DISPLAY_WIDTH)).
Proof.
  intros [_ _ Hh Ht Hp _ _ _] Hl. pose proof (circ_dist_range _ _ (proj1 Hp) (proj1 Hh)). pose proof (circ_dist_range _ _ (proj1 Ht) (proj1 Hp)). destruct up.
  - destruct (Z.ltb_spec (circ_dist (vt_top vt) (vt_head vt)) (lines * DISPLAY_WIDTH)); [done|]. apply row_add; [done|]. ring_unfold. lia.
  - destruct (Z.ltb_spec (circ_dist (vt_tail vt) (vt_top vt)) ((lines + 1) * DISPLAY_WIDTH)); [apply (row_add _ (-1)); [done|lia]|].
    apply row_add; [done|]. ring_unfold. lia.
Qed.

Lemma redraw_after s s1 i vt vt1 : tinv s1 → vt_curterm s1 = Some i → vt_terms s !! i = Some vt → vt_terms s1 = <[i := vt1]> (vt_terms s) →
  text vt1 = text vt → place vt1 = place vt → vt_tail vt1 = vt_tail vt → vt_cursor vt1 = vt_cursor vt → vt_driver vt1 = vt_driver vt →
  ipl s1 = ipl s ∧ curmask s1 = curmask s ∧ keyboard_handler s1 = keyboard_handler s ∧ callbacks s1 = callbacks s →
  ∃ s', vt_redraw s1 = RRet tt s' ∧ tinv s' ∧ screen_ok s' ∧ same_texts s s' ∧ vt_curterm s' = Some i.
Proof.
  intros HI Hc Hvt Et E1 E2 E3 E4 E5 Hrest. assert (Hlt : (i < length (vt_terms s))%nat) by (by eapply lookup_lt_Some).
  destruct (redraw_run s1 i vt1 HI Hc) as (s' & E & HI' & Hs & Hterms & Hc' & R1 & R2 & R3 & R4); [rewrite Et; by apply list_lookup_insert_eq|].
  exists s'. split_and!; [done|done|done| |done]. destruct Hrest as (Q1 & Q2 & Q3 & Q4). split; [|split_and!; congruence].
  intros j w Hw. rewrite Hterms, Et, list_insert_insert_eq. destruct (decide (j = i)) as [->|Hne].
  - assert (w = vt) as -> by congruence. eexists. split; [by apply list_lookup_insert_eq|]. done.
  - exists w. split; [by rewrite list_lookup_insert_ne by done|]. done.
Qed.

Lemma scroll_run s lines up : tinv s → 0 ≤ lines → ∃ s', vt_scroll lines up s = RRet tt s' ∧ tinv s' ∧ screen_ok s' ∧ same_texts s s' ∧ vt_curterm s' = vt_curterm s.
Proof.
  intros HI Hl. destruct (ti_cur _ HI) as (i & Hi & Hlt). destruct (lookup_lt_is_Some_2 (vt_terms s) i) as [vt Hvt]; [rewrite (ti_terms _ HI); done|].
  unfold vt_scroll. rewrite (get_curterm_next _ _ _ Hi), (get_term_next _ _ _ _ Hvt). cbv zeta. unfold put_term. rewrite kmodify_next.
  pose proof (ti_ok _ HI _ _ Hvt) as Hok. pose proof (scroll_top vt lines up Hok Hl) as Ht. set (t := if up then _ else _) in *.
  rewrite Hi. eapply (redraw_after s (upd_terms _ s) i vt (set_top t vt)); try done. apply tinv_put; [done|]. by apply move_ok.
Qed.

Lemma switch_run s term : tinv s → ∃ r s', vt_switch term s = RRet r s' ∧ tinv s' ∧ same_texts s s' ∧
  if (term <? 0) || (NTERMS <=? term) then r = -1 ∧ s' = s else r = 0 ∧ screen_ok s' ∧ vt_curterm s' = Some (Z.to_nat term).
Proof.
  intros HI. unfold vt_switch. destruct ((term <? 0) || (NTERMS <=? term)) eqn:E.
  { exists (-1), s. split_and!; try done. split; [|done]. intros i vt Hvt. exists vt. done. }
  apply orb_false_iff in E as [E1%Z.ltb_ge E2%Z.leb_gt]. set (i := Z.to_nat term). set (s1 := with_curterm (Some i) s).
  destruct (lookup_lt_is_Some_2 (vt_terms s) i) as [vt Hvt]; [rewrite (ti_terms _ HI); unfold i; lia|].
  destruct (redraw_after s s1 i vt vt) as (s' & Er & HI' & Hs & Hst & Hc); try done.
  { destruct HI as [H1 H2 _ H4]. split; try done. exists i. split; [done|]. unfold i. lia. }
  { symmetry. by apply list_insert_id. }
  rewrite kmodify_next. fold s1. rewrite (kbind_of_ret _ _ _ _ _ Er). exists 0, s'. done.
Qed.

(** ** Keys *)

(** Which of the modifier keys are held, from the bytes the keyboard sends. *)
Definition next_mask (mask data : Z) : Z :=
  if (data =? 0x2a) || (data =? 0x36) then Z.lor mask SHIFT_MASK
  else if (data =? 0xaa) || (data =? 0xb6) then Z.land mask (Z.lnot SHIFT_MASK)
  else if data =? 0x1d then Z.lor mask CTRL_MASK
  else if data =? 0x9d then Z.land mask (Z.lnot CTRL_MASK)
  else mask.

(** The masks that occur: the bit for an escape code is never set. *)
Definition mask_ok (mask : Z) : Prop := 0 ≤ mask < 4.

Lemma byte_cases (P : Z → Prop) : Forall P (seqZ 0 256) → ∀ b, 0 ≤ b < 256 → P b.
Proof. rewrite Forall_forall. intros H b Hb. apply H, elem_of_seqZ. lia. Qed.
Lemma mask_cases (P : Z → Prop) : P 0 → P 1 → P 2 → P 3 → ∀ m, mask_ok m → P m.
Proof. intros H0 H1 H2 H3 m Hm. unfold mask_ok in Hm. assert (m = 0 ∨ m = 1 ∨ m = 2 ∨ m = 3) by lia. naive_solver. Qed.

(** The kinds of keys: a modifier, a terminal to switch to, a scroll, a character. *)
Inductive action := AMask | ASwitch (term : Z) | AScroll (up : bool) | AChar (c : Z) | ANone.
Definition action_of (mask data : Z) : action :=
  if (data =? 0x2a) || (data =? 0x36) || (data =? 0x1d) || (data =? 0xaa) || (data =? 0xb6) || (data =? 0x9d) then AMask
  else if 0x80 <=? data then ANone
  else if (VT_KEY_LOW <=? data) && (data <=? VT_KEY_HIGH) then ASwitch (data - VT_KEY_LOW)
  else if NORMAL_KEY_HIGH <? data then ANone
  else if held mask CTRL_MASK then
    if data =? SCROLL_DOWN then AScroll false
    else if data =? SCROLL_UP then AScroll true
    else let c := nth (Z.to_nat data) shift_scancodes 0 in if (0x40 <=? c) && (c <? 0x60) then AChar (c - 0x40) else ANone
  else AChar (nth (Z.to_nat data) (if held mask SHIFT_MASK then shift_scancodes else normal_scancodes) 0).

Definition act (a : action) : kM terminals unit :=
  match a with
  | ASwitch term => vt_switch term ;;; kret tt
  | AScroll up => vt_scroll DISPLAY_HEIGHT up ;;; kret tt
  | AChar c => let* s := kget in if keyboard_handler s then vt_keyboard_handler c else kret tt
  | AMask | ANone => kret tt
  end.

Lemma byte_parts b : 0 ≤ b < 256 → held b BREAK_MASK = (0x80 <=? b) ∧ Z.land b (Z.lnot BREAK_MASK) = if 0x80 <=? b then b - 0x80 else b.
Proof.
  apply (byte_cases (λ b, held b BREAK_MASK = (0x80 <=? b) ∧ Z.land b (Z.lnot BREAK_MASK) = if 0x80 <=? b then b - 0x80 else b)).
  apply (bool_decide_unpack _). vm_compute. exact I.
Qed.

Lemma table_char (table : list Z) sc : (length table = 58)%nat → 0 ≤ sc ≤ 0x39 → table !! Z.to_nat sc = Some (nth (Z.to_nat sc) table 0).
Proof. intros Hl Hs. destruct (lookup_lt_is_Some_2 table (Z.to_nat sc)) as [c Hc]; [lia|]. by rewrite Hc, (nth_lookup_Some _ _ _ _ Hc). Qed.

Lemma chars_small (table : list Z) sc : Forall (λ c, 0 ≤ c < 0xff) table → nth sc table 0 ≠ NO_CHAR ∧ 0 ≤ nth sc table 0 < 0xff.
Proof.
  intros HF. assert (0 ≤ nth sc table 0 < 0xff); [|unfold NO_CHAR; lia]. rewrite nth_lookup. destruct (table !! sc) eqn:E; simpl; [|lia].
  rewrite Forall_forall in HF. apply HF. by eapply list_elem_of_lookup_2.
Qed.

Lemma tables_small : Forall (λ c, 0 ≤ c < 0xff) normal_scancodes ∧ Forall (λ c, 0 ≤ c < 0xff) shift_scancodes.
Proof. split; apply (bool_decide_unpack _); vm_compute; exact I. Qed.

Definition pressed (s : terminals) (data : Z) : terminals := with_curmask (next_mask (curmask s) data) s.

Definition deliver (c : Z) : kM terminals unit :=
  let* s := kget in if negb (c =? NO_CHAR) && keyboard_handler s then vt_keyboard_handler c else kret tt.

Lemma act_next {A} (m : kM terminals A) s s' :
  (m ;;; kret tt) s = RRet tt s' → kbind (m ;;; kret NO_CHAR) deliver s = RRet tt s'.
Proof. unfold kbind. destruct (m s); try done. Qed.
Lemma act_char c s s' : c ≠ NO_CHAR → act (AChar c) s = RRet tt s' → deliver c s = RRet tt s'.
Proof. intros Hc H. unfold deliver. rewrite kget_next, (proj2 (Z.eqb_neq _ _) Hc). exact H. Qed.

(** The handler does what the table of actions says. *)
Lemma handler_action s data s' : mask_ok (curmask s) → 0 ≤ data < 256 →
  act (action_of (curmask s) data) (pressed s data) = RRet tt s' → keyboard_intr_handler data s = RRet tt s'.
Proof.
  intros Hm Hd Hact. destruct (byte_parts data Hd) as [E1 E2]. unfold keyboard_intr_handler. rewrite E1, E2, kget_next. cbv zeta.
  assert (He : held (curmask s) ESC_MASK = false) by (by apply (mask_cases (λ m, held m ESC_MASK = false))).
  unfold pressed, action_of, next_mask in Hact. unfold LSHIFT, RSHIFT, CTRL, ESC0, ESC1.
  assert (Heq : ∀ x y, x ≠ y → (x =? y) = false) by (intros x y; apply Z.eqb_neq).
  destruct (decide (data ∈ [0x2a; 0x36; 0x1d; 0xaa; 0xb6; 0x9d])) as [Hin|Hn].
  { repeat (apply elem_of_cons in Hin as [->|Hin]; [exact Hact|]). by apply elem_of_nil in Hin. }
  rewrite !not_elem_of_cons in Hn. destruct Hn as (N1 & N2 & N3 & N4 & N5 & N6 & _). rewrite (Heq data 0x2a), (Heq data 0x36), (Heq data 0x1d), (Heq data 0xaa), (Heq data 0xb6), (Heq data 0x9d) in Hact by done. cbn [orb] in Hact.
  replace (with_curmask (curmask s) s) with s in Hact by (by destruct s).
  destruct (Z.leb_spec 0x80 data) as [Hb|Hb].
  - rewrite !(Heq (data - 0x80)) by lia. exact Hact.
  - rewrite (Heq data 0x2a), (Heq data 0x36), (Heq data 0x1d), (Heq data 0xe0), (Heq data 0xe1) by lia. rewrite He. cbn [orb]. destruct tables_small as [Hn1 Hs1].
    destruct ((VT_KEY_LOW <=? data) && (data <=? VT_KEY_HIGH)); [by apply act_next|]. destruct (Z.ltb_spec NORMAL_KEY_HIGH data) as [Hh|Hh].
    { unfold SCROLL_DOWN, SCROLL_UP, NORMAL_KEY_HIGH in *. rewrite !(Heq data), !andb_false_r by lia. exact Hact. }
    destruct (held (curmask s) CTRL_MASK); cbn [andb].
    + destruct (data =? SCROLL_DOWN); [by apply act_next|]. destruct (data =? SCROLL_UP); [by apply act_next|]. unfold NORMAL_KEY_HIGH in Hh.
      unfold scancode. rewrite (table_char shift_scancodes) by (done || lia). destruct (chars_small shift_scancodes (Z.to_nat data) Hs1) as [_ Hr].
      cbv zeta in Hact. set (c := nth _ _ _) in *. change (deliver (if (0x40 <=? c) && (c <? 0x60) then c - 0x40 else NO_CHAR) s = RRet tt s').
      destruct ((0x40 <=? _) && (_ <? 0x60)) eqn:Ec; [|exact Hact]. apply andb_prop in Ec as [Ec1%Z.leb_le Ec2%Z.ltb_lt].
      apply act_char; [unfold NO_CHAR; lia|exact Hact].
    + unfold scancode, NORMAL_KEY_HIGH in *. destruct (held (curmask s) SHIFT_MASK); rewrite table_char by (done || lia);
        (match goal with |- context [kderef (Some ?c) _] => change (deliver c s = RRet tt s') end; apply act_char; [by apply chars_small|exact Hact]).
Qed.

Lemma next_mask_ok m data : mask_ok m → mask_ok (next_mask m data).
Proof.
  intros Hm. unfold next_mask. repeat case_match; try done; revert Hm; clear.
  - by apply (mask_cases (λ m, mask_ok (Z.lor m SHIFT_MASK))).
  - by apply (mask_cases (λ m, mask_ok (Z.land m (Z.lnot SHIFT_MASK)))).
  - by apply (mask_cases (λ m, mask_ok (Z.lor m CTRL_MASK))).
  - by apply (mask_cases (λ m, mask_ok (Z.land m (Z.lnot CTRL_MASK)))).
Qed.

Lemma tinv_masked s m : tinv s → tinv (with_curmask m s).
Proof. intros []. by split. Qed.
Lemma screen_masked s m : screen_ok s → screen_ok (with_curmask m s).
Proof. done. Qed.

(** The character of a key goes to the callback of the current terminal. *)
Definition received (s : terminals) (c : Z) : list (Z * Z * Z) :=
  match vt_curterm s ≫= (vt_terms s !!.) with
  | Some vt => match ttd_callback (vt_driver vt) with Some f => [(f, ttd_callback_arg (vt_driver vt), c)] | None => [] end
  | None => []
  end.
Definition add_callbacks (l : list (Z * Z * Z)) (s : terminals) : terminals :=
  Terminals (vt_terms s) (vt_curterm s) (videoram s) (crt_cursor s) (ipl s) (curmask s) (keyboard_handler s) (callbacks s ++ l).

Lemma char_run s c : tinv s → keyboard_handler s = true → act (AChar c) s = RRet tt (add_callbacks (received s c) s).
Proof.
  intros HI Hk. destruct (ti_cur _ HI) as (i & Hi & Hlt). destruct (lookup_lt_is_Some_2 (vt_terms s) i) as [vt Hvt]; [rewrite (ti_terms _ HI); done|].
  unfold act. rewrite kget_next, Hk. unfold vt_keyboard_handler. rewrite kget_next, Hi, (get_term_next _ _ _ _ Hvt).
  unfold received. rewrite Hi. cbn [mbind option_bind]. rewrite Hvt. destruct (ttd_callback (vt_driver vt)); [done|].
  unfold add_callbacks. rewrite app_nil_r. by destruct s.
Qed.

Lemma key_run s data : tinv s → keyboard_handler s = true → mask_ok (curmask s) → 0 ≤ data < 256 →
  ∃ s', keyboard_intr_handler data s = RRet tt s' ∧ tinv s' ∧ keyboard_handler s' = true ∧ curmask s' = next_mask (curmask s) data ∧ (screen_ok s → screen_ok s').
Proof.
  intros HI Hk Hm Hd. set (s1 := pressed s data). assert (HI1 : tinv s1) by (by apply tinv_masked).
  assert (Hact : ∃ s', act (action_of (curmask s) data) s1 = RRet tt s' ∧ tinv s' ∧ keyboard_handler s' = true ∧ curmask s' = curmask s1 ∧ (screen_ok s1 → screen_ok s')).
  { destruct (action_of (curmask s) data) as [|term|up|c|].
    - exists s1. done.
    - destruct (switch_run s1 term HI1) as (r & s' & E & HI' & [_ (_ & Em & Ek & _)] & Hs). exists s'. unfold act. rewrite (kbind_of_ret _ _ _ _ _ E).
      split_and!; [done|done|by rewrite Ek|done|]. intros Hok. destruct (_ || _); [by destruct Hs as [_ ->]|by apply Hs].
    - destruct (scroll_run s1 DISPLAY_HEIGHT up HI1 ltac:(done)) as (s' & E & HI' & Hs & [_ (_ & Em & Ek & _)] & _). exists s'. unfold act. rewrite (kbind_of_ret _ _ _ _ _ E).
      split_and!; [done|done|by rewrite Ek|done|done].
    - exists (add_callbacks (received s1 c) s1). split_and!; [by apply char_run|by destruct HI1|done|done|done].
    - exists s1. done. }
  destruct Hact as (s' & E & HI' & Hk' & Em & Hs). exists s'. split_and!; [by apply handler_action|done|done|done|]. intros Hok. by apply Hs.
Qed.

(** ** Events *)

(** What can happen: a byte from the keyboard, a character for a terminal from the
    kernel, a scroll, a switch, and callbacks coming and going. *)
Inductive tevent :=
| EvKey (data : Z)
| EvPut (i : nat) (c : Z)
| EvScroll (lines : Z) (up : bool)
| EvSwitch (term : Z)
| EvRegister (i : nat) (callback : option Z) (arg : Z)
| EvUnregister (i : nat).

Definition run_event (e : tevent) : kM terminals unit :=
  match e with
  | EvKey data => keyboard_intr_handler data
  | EvPut i c => vt_provide_char i c
  | EvScroll lines up => vt_scroll lines up
  | EvSwitch term => vt_switch term ;;; kret tt
  | EvRegister i callback arg => vt_register_callback_handler i callback arg ;;; kret tt
  | EvUnregister i => vt_unregister_callback_handler i ;;; kret tt
  end.
Fixpoint run_events (es : list tevent) : kM terminals unit :=
  match es with [] => kret tt | e :: es => run_event e ;;; run_events es end.

(** Terminals and bytes that exist, and a number of lines whose characters an int can
    count. *)
Definition valid (e : tevent) : Prop :=
  match e with
  | EvKey data => 0 ≤ data < 256
  | EvPut i _ | EvRegister i _ _ | EvUnregister i => (i < Z.to_nat NTERMS)%nat
  | EvScroll lines _ => 0 ≤ lines ∧ (lines + 1) * DISPLAY_WIDTH ≤ INT_MAX
  | EvSwitch _ => True
  end.

(** Characters come while the cursor is in the last hundred rows. *)
Fixpoint tail_writes (es : list tevent) (s : terminals) : Prop :=
  match es with
  | [] => True
  | e :: es =>
      (if e is EvPut i _ then ∀ vt, vt_terms s !! i = Some vt → near_end vt else True) ∧
      ∀ s', run_event e s = RRet tt s' → tail_writes es s'
  end.

Record sys_ok (s : terminals) : Prop := {
  so_inv : tinv s;
  so_handler : keyboard_handler s = true;
  so_mask : mask_ok (curmask s)
}.

Lemma driver_run s i vt d : sys_ok s → vt_terms s !! i = Some vt →
  sys_ok (upd_terms <[i := set_driver d vt]> s) ∧ (screen_ok s → screen_ok (upd_terms <[i := set_driver d vt]> s)).
Proof.
  intros [HI Hk Hm] Hvt. assert (Hlt : (i < length (vt_terms s))%nat) by (by eapply lookup_lt_Some). split.
  - split; [|done|done]. apply tinv_put; [done|]. destruct (ti_ok _ HI _ _ Hvt). by split.
  - intros (j & w & Hj & Hw & Hup). destruct (decide (j = i)) as [->|Hn].
    + assert (w = vt) as -> by congruence. exists i, (set_driver d vt). split_and!; [done|by apply list_lookup_insert_eq|exact Hup].
    + exists j, w. split_and!; [done| |exact Hup]. simpl. by rewrite list_lookup_insert_ne by done.
Qed.

Lemma event_run s e : sys_ok s → valid e →
  ∃ s', run_event e s = RRet tt s' ∧ sys_ok s' ∧
    (screen_ok s → (if e is EvPut i _ then ∀ vt, vt_terms s !! i = Some vt → near_end vt else True) → screen_ok s').
Proof.
  intros Hok Hv. pose proof Hok as [HI Hk Hm]. assert (Hterm : ∀ i, (i < Z.to_nat NTERMS)%nat → ∃ vt, vt_terms s !! i = Some vt).
  { intros i Hi. destruct (lookup_lt_is_Some_2 (vt_terms s) i) as [vt Hvt]; [by rewrite (ti_terms _ HI)|eauto]. }
  destruct e as [data|i c|lines up|term|i f arg|i]; simpl in *.
  - destruct (key_run s data HI Hk Hm Hv) as (s' & E & HI' & Hk' & Em & Hs). exists s'. split_and!; [done| |auto]. split; [done|done|]. rewrite Em. by apply next_mask_ok.
  - destruct (Hterm i Hv) as [vt Hvt]. destruct (provide_char_run s i c vt HI Hvt) as (s' & E & HI' & [_ _ _ (_ & Em & Ek & _)] & Hs).
    exists s'. split_and!; [done|split; [done|congruence|by rewrite Em]|]. intros Hsc Hne. auto.
  - destruct (scroll_run s lines up HI (proj1 Hv)) as (s' & E & HI' & Hs & [_ (_ & Em & Ek & _)] & _). exists s'. split_and!; [done|split; [done|congruence|by rewrite Em]|done].
  - destruct (switch_run s term HI) as (r & s' & E & HI' & [_ (_ & Em & Ek & _)] & Hs). exists s'. rewrite (kbind_of_ret _ _ _ _ _ E).
    split_and!; [done|split; [done|congruence|by rewrite Em]|]. intros Hsc _. destruct (_ || _); [by destruct Hs as [_ ->]|by apply Hs].
  - destruct (Hterm i Hv) as [vt Hvt]. unfold vt_register_callback_handler. unfold kbind at 1. rewrite (get_term_next _ _ _ _ Hvt).
    destruct (driver_run s i vt (TtyDriver f arg) Hok Hvt) as [H1 H2]. eexists. split; [reflexivity|]. split; [exact H1|]. intros Hsc _. exact (H2 Hsc).
  - destruct (Hterm i Hv) as [vt Hvt]. unfold vt_unregister_callback_handler. unfold kbind at 1. rewrite (get_term_next _ _ _ _ Hvt).
    destruct (driver_run s i vt (TtyDriver None (ttd_callback_arg (vt_driver vt))) Hok Hvt) as [H1 H2]. eexists. split; [reflexivity|]. split; [exact H1|]. intros Hsc _. exact (H2 Hsc).
Qed.

Lemma events_run es : ∀ s, sys_ok s → Forall valid es →
  ∃ s', run_events es s = RRet tt s' ∧ sys_ok s' ∧ (screen_ok s → tail_writes es s → screen_ok s').
Proof.
  induction es as [|e es IH]; intros s Hok Hv; [by exists s|]. apply Forall_cons in Hv as [He Hes].
  destruct (event_run s e Hok He) as (s1 & E & Hok1 & Hs1). destruct (IH s1 Hok1 Hes) as (s' & E' & Hok' & Hs'). exists s'.
  cbn [run_events]. rewrite (kbind_of_ret _ _ _ _ _ E). split_and!; [done|done|]. intros Hsc [Hn Ht]. apply Hs'; [by apply Hs1|by apply Ht].
Qed.

(** ** The start *)

(** The static data of the driver, and the page of video memory. *)
Record unstarted (s : terminals) : Prop := {
  us_terms : length (vt_terms s) = Z.to_nat NTERMS;
  us_bufs i vt : vt_terms s !! i = Some vt → size (vt_buf vt) = SCROLL_BUFSIZE ∧ size (vt_tempbuf vt) = DISPLAY_SIZE;
  us_video : size (videoram s) = VIDEO_WORDS;
  us_mask : curmask s = 0
}.

Lemma started_ok b t : size b = SCROLL_BUFSIZE → size t = DISPLAY_SIZE → vt_ok (Virtterm 0 DISPLAY_WIDTH 0 0 b t (TtyDriver None 0)).
Proof. intros Hb Ht. split; try done; ring_unfold; simpl; rewrite ?circ_dist_val by done; done. Qed.

Lemma init_terms_run n : ∀ i s, unstarted s → (i + n = Z.to_nat NTERMS)%nat → (∀ j vt, (j < i)%nat → vt_terms s !! j = Some vt → vt_ok vt) →
  ∃ s', init_terms n i s = RRet tt s' ∧ unstarted s' ∧ ∀ j vt, vt_terms s' !! j = Some vt → vt_ok vt.
Proof.
  induction n as [|n IH]; intros i s Hs Hi Hok.
  - exists s. split_and!; [done|done|]. intros j vt Hj. apply (Hok j); [|done]. apply lookup_lt_Some in Hj. rewrite (us_terms _ Hs) in Hj. lia.
  - destruct (lookup_lt_is_Some_2 (vt_terms s) i) as [vt Hvt]; [rewrite (us_terms _ Hs); lia|]. destruct (us_bufs _ Hs _ _ Hvt) as [Hb Ht].
    destruct (clear_ok (vt_buf vt) 0 SCROLL_BUFSIZE) as (b & Eb & Hsb & _); [done|done|lia|].
    cbn [init_terms]. rewrite (get_term_next _ _ _ _ Hvt), (kderef_next _ _ _ _ _ Eb). unfold put_term. rewrite kmodify_next.
    set (w := Virtterm 0 DISPLAY_WIDTH 0 0 b (vt_tempbuf vt) (TtyDriver None 0)). assert (Hw : vt_ok w) by (apply started_ok; lia).
    assert (Hup : ∀ j v, <[i := w]> (vt_terms s) !! j = Some v → (v = w ∧ j = i) ∨ (j ≠ i ∧ vt_terms s !! j = Some v)).
    { intros j v. rewrite list_lookup_insert_Some. intros [(-> & <- & _)|[Hn Hj]]; [by left|right; auto]. }
    apply IH; [|lia|].
    + destruct Hs as [H1 H2 H3 H4]. split; [by apply eq_trans with (2 := H1), length_insert| |done|done]. intros j v [[-> ->]|[_ Hj]]%Hup; [split; simpl; lia|by apply (H2 j)].
    + intros j v Hj [[-> ->]|[Hn Hv]]%Hup; [done|]. apply (Hok j); [lia|done].
Qed.

Lemma init_run s : unstarted s → ∃ s', vt_init s = RRet tt s' ∧ sys_ok s' ∧ screen_ok s'.
Proof.
  intros Hs. destruct (init_terms_run (Z.to_nat NTERMS) 0 s Hs eq_refl) as (s1 & E & [H1 H2 H3 H4] & Hok); [lia|].
  unfold vt_init. rewrite (kbind_of_ret _ _ _ _ _ E), kmodify_next. set (s2 := with_curterm (Some 0%nat) s1).
  assert (HI2 : tinv s2) by (split; [done|done|exists 0%nat; split; [done|unfold NTERMS; lia]|done]).
  destruct (lookup_lt_is_Some_2 (vt_terms s1) 0) as [vt Hvt]; [rewrite H1; unfold NTERMS; lia|].
  destruct (redraw_run s2 0 vt HI2 eq_refl Hvt) as (s3 & E3 & HI3 & Hsc & _ & _ & _ & Em & _). rewrite (kbind_of_ret _ _ _ _ _ E3).
  exists (with_handler true s3). split; [done|]. split; [split; [by destruct HI3|done|]|exact Hsc]. simpl. rewrite Em. simpl. rewrite H4. done.
Qed.

(** * Theorems *)

(** C7. The terminals, from vt_init on and through any keys, characters, scrolls by a
    number of lines that does not overflow an int, and switches: every access to a buffer and to the video memory is inside it, and the
    invariant of the circular buffers holds.  And the screen, which is drawn one
    character at a time where that seems enough, is what vt_redraw would draw, and
    the cursor of the display where it would put it, as long as characters come
    while the cursor is in the last hundred rows of a terminal. *)
Theorem screen_up_to_date s es :
  unstarted s → Forall valid es →
  ∃ s1 s2, vt_init s = RRet tt s1 ∧ run_events es s1 = RRet tt s2 ∧ sys_ok s2 ∧
    (tail_writes es s1 → ∃ s3, vt_redraw s2 = RRet tt s3 ∧ crt_cursor s3 = crt_cursor s2 ∧
      take (Z.to_nat DISPLAY_SIZE) (videoram s3) = take (Z.to_nat DISPLAY_SIZE) (videoram s2)).
Proof.
  intros Hs Hv. destruct (init_run s Hs) as (s1 & E1 & Hok1 & Hsc1). destruct (events_run es s1 Hok1 Hv) as (s2 & E2 & Hok2 & Hsc2).
  exists s1, s2. split_and!; [done|done|done|]. intros Ht. destruct (Hsc2 Hsc1 Ht) as (i & vt & Hi & Hvt & Hu1 & Hu2).
  destruct (redraw_run s2 i vt (so_inv _ Hok2) Hi Hvt) as (s3 & E3 & _ & (j & w & Hj & Hw & Hw1 & Hw2) & Hterms & Hc & _). exists s3.
  assert (j = i) as -> by congruence. rewrite Hterms, list_lookup_insert_eq in Hw by (by eapply lookup_lt_Some). injection Hw as <-.
  split_and!; [done|rewrite Hw2, Hu2; done|rewrite Hw1, Hu1; done].
Qed.

(** The text and the place after a string. *)
Definition type_string (t : list Z) (p : Z) (cs : list Z) : list Z * Z := foldl (λ tp c, type_char tp.1 tp.2 c) (t, p) cs.

Lemma provide_all_run i cs : ∀ s vt, sys_ok s → vt_terms s !! i = Some vt →
  ∃ s' vt', provide_all i cs s = RRet tt s' ∧ sys_ok s' ∧ vt_terms s' !! i = Some vt' ∧ (text vt', place vt') = type_string (text vt) (place vt) cs ∧
    ∀ j, j ≠ i → vt_terms s' !! j = vt_terms s !! j.
Proof.
  induction cs as [|c cs IH]; intros s vt Hok Hvt; [by exists s, vt|].
  destruct (provide_char_run s i c vt (so_inv _ Hok) Hvt) as (s1 & E & HI1 & [(v & vt1 & Hv & Hvt1 & Ht & _) Ho _ (_ & Em & Ek & _)] & _).
  assert (v = vt) as -> by congruence. destruct (IH s1 vt1) as (s' & vt' & E' & Hok' & Hvt' & Ht' & Ho'); [split; [done|rewrite Ek; apply Hok|rewrite Em; apply Hok]|done|].
  exists s', vt'. cbn [provide_all]. rewrite (kbind_of_ret _ _ _ _ _ E). split_and!; [done|done|done| |intros j Hj; rewrite Ho' by done; by apply Ho].
  rewrite Ht'. unfold type_string. cbn [foldl fst snd]. by rewrite <- Ht.
Qed.

(** C8. A string for a terminal does to its text what it would do to text on paper of
    the width of the display: characters are written at the cursor, backspace,
    return and newline move it, a row is added when the cursor gets behind the
    last one, and the oldest row goes when there are more than 124.  The other
    terminals keep theirs. *)
Theorem provide_all_text s i cs vt :
  sys_ok s → vt_terms s !! i = Some vt →
  ∃ s' vt', provide_all i cs s = RRet tt s' ∧ vt_terms s' !! i = Some vt' ∧ (text vt', place vt') = type_string (text vt) (place vt) cs ∧
    ∀ j, j ≠ i → vt_terms s' !! j = vt_terms s !! j.
Proof. intros Hok Hvt. destruct (provide_all_run i cs s vt Hok Hvt) as (s' & vt' & E & _ & H1 & H2 & H3). by exists s', vt'. Qed.

(** ** Typing *)

(** The bytes for a character: its key goes down and up, with the left shift key
    held if it needs it. *)
Definition key_in (table : list Z) (c : Z) : option Z := (λ x, Z.of_nat x.1) <$> list_find (λ d, d = c) table.
Definition keys_for (c : Z) : list Z :=
  match key_in normal_scancodes c with
  | Some sc => [sc; sc + 0x80]
  | None => match key_in shift_scancodes c with Some sc => [0x2a; sc; sc + 0x80; 0xaa] | None => [] end
  end.

(** The characters there is a key for: printable ASCII, backspace, tab, newline and escape. *)
Definition typeable (c : Z) : Prop := c ∈ [8; 9; 10; 27] ∨ 32 ≤ c < 127.
#[export] Instance typeable_dec c : Decision (typeable c) := ltac:(unfold typeable; apply _).

(** The state of the modifier keys and the characters, from one byte after the other. *)
Fixpoint typed (mask : Z) (keys : list Z) : option (list Z * Z) :=
  match keys with
  | [] => Some ([], mask)
  | k :: keys =>
      if (0 <=? k) && (k <? 256) then
        match action_of mask k with
        | AMask | ANone => typed (next_mask mask k) keys
        | AChar c => '(cs, m) ← typed (next_mask mask k) keys; Some (c :: cs, m)
        | _ => None
        end
      else None
  end.

Lemma keys_typed c : typeable c → typed 0 (keys_for c) = Some ([c], 0).
Proof.
  intros Hc. assert (Hin : c ∈ [8; 9; 10; 27] ++ seqZ 32 95).
  { rewrite elem_of_app, elem_of_seqZ. destruct Hc; [by left|right; lia]. }
  clear Hc. revert c Hin. apply Forall_forall. apply (bool_decide_unpack _). vm_compute. exact I.
Qed.

Lemma typed_run keys : ∀ s m cs, sys_ok s → typed (curmask s) keys = Some (cs, m) →
  run_events (EvKey <$> keys) s = RRet tt (add_callbacks (cs ≫= received s) (with_curmask m s)).
Proof.
  induction keys as [|k keys IH]; intros s m cs Hok Ht; cbn [typed] in Ht.
  - injection Ht as <- <-. simpl. unfold kret, add_callbacks. rewrite app_nil_r. by destruct s.
  - destruct ((0 <=? k) && (k <? 256)) eqn:Ek; [|done]. apply andb_prop in Ek as [Ek1%Z.leb_le Ek2%Z.ltb_lt].
    assert (Hokp : sys_ok (pressed s k)) by (destruct Hok; split; [by apply tinv_masked|done|by apply next_mask_ok]).
    assert (Hstep : ∀ s1, act (action_of (curmask s) k) (pressed s k) = RRet tt s1 → run_events (EvKey <$> (k :: keys)) s = run_events (EvKey <$> keys) s1).
    { intros s1 Hact. rewrite fmap_cons. cbn [run_events run_event].
      apply (kbind_of_ret (keyboard_intr_handler k) (λ _, run_events (EvKey <$> keys)) s tt s1), handler_action; [apply Hok|lia|done]. }
    destruct (action_of (curmask s) k) as [|t|up|c|] eqn:Ea; try done.
    + rewrite (Hstep (pressed s k)) by done. rewrite (IH _ m cs) by done. done.
    + apply bind_Some in Ht as ([cs' m'] & Ht & [= <- <-]). rewrite (Hstep (add_callbacks (received s c) (pressed s k))).
      * rewrite (IH _ m' cs') by (done || (destruct Hokp as [[] ? ?]; split; [by split|done|done])). rewrite bind_cons.
        unfold add_callbacks, with_curmask. simpl. by rewrite app_assoc.
      * change (received s c) with (received (pressed s k) c). apply char_run; apply Hokp.
    + rewrite (Hstep (pressed s k)) by done. rewrite (IH _ m cs) by done. done.
Qed.

Lemma typed_app keys keys' : ∀ m cs m1 cs' m2, typed m keys = Some (cs, m1) → typed m1 keys' = Some (cs', m2) → typed m (keys ++ keys') = Some (cs ++ cs', m2).
Proof.
  induction keys as [|k keys IH]; intros m cs m1 cs' m2; cbn [typed app]; [by intros [= <- <-]|]. destruct ((0 <=? k) && (k <? 256)); [|done].
  destruct (action_of m k) as [|t|up|c|]; try done; [by apply IH| |by apply IH]. intros ([ds d] & Hd & [= <- <-])%bind_Some H2.
  by rewrite (IH _ _ _ _ _ Hd H2).
Qed.

(** C9. A text that is typed while no modifier key is held arrives: for characters
    that have a key, the bytes of the keys going down and up, shift included, give
    the callback of the current terminal, if there is one, exactly these characters, in order, and change nothing else. *)
Theorem typing_arrives s cs :
  sys_ok s → curmask s = 0 → Forall typeable cs →
  run_events (EvKey <$> (cs ≫= keys_for)) s = RRet tt (add_callbacks (cs ≫= received s) s).
Proof.
  intros Hok Hm Hcs. assert (Ht : typed 0 (cs ≫= keys_for) = Some (cs, 0)).
  { induction Hcs as [|c cs Hc _ IH]; [done|]. rewrite bind_cons. by apply (typed_app _ _ 0 [c] 0 cs 0); [apply keys_typed|]. }
  rewrite (typed_run _ s 0 cs) by (done || by rewrite Hm). rewrite <- Hm. by destruct s.
Qed.

Module Example.

(** The data of the driver before vt_init. *)
Definition at_start : terminals :=
  Terminals (replicate 3 (Virtterm 0 0 0 0 (replicate (Z.to_nat SCROLL_BUFSIZE) 0) (replicate (Z.to_nat DISPLAY_SIZE) 0) (TtyDriver None 0)))
    None (replicate 2048 0) (0, 0) 0 0 false [].

Lemma at_start_unstarted : unstarted at_start.
Proof.
  split; [reflexivity| |vm_compute; reflexivity|reflexivity].
  intros i vt [-> _]%lookup_replicate. cbn [vt_buf vt_tempbuf]. split; vm_compute; reflexivity.
Qed.

(** 102 lines, back to the first character, the window to the end, and a character. *)
Definition far_back : list tevent :=
  replicate 102 (EvPut 0 10) ++ replicate 8160 (EvPut 0 8) ++ replicate 5 (EvScroll 25 false) ++ [EvPut 0 120].

Definition screen_b (s : terminals) : bool :=
  match vt_curterm s ≫= (vt_terms s !!.) with
  | Some vt => bool_decide (take (Z.to_nat DISPLAY_SIZE) (videoram s) = cell DEFAULT_ATTRIB <$> shown vt)
  | None => true
  end.
Lemma screen_b_ok s : screen_b s = false → ¬ screen_ok s.
Proof.
  intros E (i & vt & Hi & Hvt & Hu & _). unfold screen_b in E. rewrite Hi in E. cbn [mbind option_bind] in E. rewrite Hvt in E.
  by rewrite bool_decide_eq_true_2 in E.
Qed.

Definition after (P : terminals → bool) (c d : kM terminals unit) (s : terminals) : bool :=
  if (c ;;; d) s is RRet _ s' then P s' else true.
Lemma after_false P c d s : after P c d s = false → ∃ s1 s2, c s = RRet tt s1 ∧ d s1 = RRet tt s2 ∧ P s2 = false.
Proof.
  unfold after, kbind. destruct (c s) as [[] s1| | | |]; try done. cbn [rbind]. destruct (d s1) as [[] s2| | | |] eqn:E; try done.
  intros H. by exists s1, s2.
Qed.

Lemma far_back_runs : after screen_b vt_init (run_events far_back) at_start = false.
Proof. vm_compute. reflexivity. Qed.

(** Without the condition on the cursor the screen does get out of date: with the
    cursor moved back to the first row of 103 and the window scrolled to the last
    one, the cursor counts as being on the screen, for the distance wraps around, and
    the next character is drawn in a blank part of it. *)
Lemma far_cursor_breaks_screen : ∃ s1 s2, vt_init at_start = RRet tt s1 ∧ run_events far_back s1 = RRet tt s2 ∧ ¬ screen_ok s2.
Proof.
  destruct (after_false _ _ _ _ far_back_runs) as (s1 & s2 & E1 & E2 & H). exists s1, s2.
  split; [exact E1|split; [exact E2|exact (screen_b_ok _ H)]].
Qed.

Fixpoint tail_writes_b (es : list tevent) (s : terminals) : bool :=
  match es with
  | [] => true
  | e :: es =>
      (if e is EvPut i _ then (if vt_terms s !! i is Some vt then bool_decide (near_end vt) else true) else true) &&
      (if run_event e s is RRet _ s' then tail_writes_b es s' else true)
  end.
Lemma tail_writes_b_ok es : ∀ s, tail_writes_b es s = true → tail_writes es s.
Proof.
  induction es as [|e es IH]; intros s; cbn [tail_writes_b tail_writes]; [done|]. intros [H1 H2]%andb_prop. split.
  - destruct e; try done. intros vt Hvt. rewrite Hvt in H1. by apply bool_decide_eq_true_1 in H1.
  - intros s' E. rewrite E in H2. by apply IH.
Qed.

Ltac valid_events := repeat (apply Forall_cons; split); try apply Forall_nil; cbn [valid]; unfold NTERMS, DISPLAY_WIDTH, INT_MAX; lia.

(** Text for two terminals, a key, scrolling and switching. *)
Definition session : list tevent :=
  [EvRegister 0 (Some 7) 0; EvPut 0 72; EvPut 0 10; EvKey 0x1e; EvPut 1 105; EvScroll 3 true; EvSwitch 1; EvPut 1 33; EvKey 0x3c; EvSwitch 0].

Definition booted : terminals := if vt_init at_start is RRet _ s then s else at_start.
Lemma booted_run s : vt_init at_start = RRet tt s → s = booted.
Proof. unfold booted. by intros ->. Qed.
Lemma booted_ok : sys_ok booted.
Proof. destruct (init_run _ at_start_unstarted) as (s & E & Hok & _). unfold booted. by rewrite E. Qed.
Lemma session_tail : tail_writes_b session booted = true.
Proof. vm_compute. reflexivity. Qed.

Lemma screen_up_to_date_witness :
  unstarted at_start ∧ Forall valid session ∧ ∃ s2 s3, run_events session booted = RRet tt s2 ∧ vt_redraw s2 = RRet tt s3 ∧
    crt_cursor s3 = crt_cursor s2 ∧ take (Z.to_nat DISPLAY_SIZE) (videoram s3) = take (Z.to_nat DISPLAY_SIZE) (videoram s2).
Proof.
  assert (Hv : Forall valid session) by valid_events. split; [exact at_start_unstarted|split; [exact Hv|]].
  destruct (screen_up_to_date at_start session at_start_unstarted Hv) as (s1 & s2 & E1 & E2 & _ & H).
  rewrite (booted_run _ E1) in E2, H. destruct (H (tail_writes_b_ok _ _ session_tail)) as (s3 & E3 & Ha & Hb).
  exists s2, s3. split_and!; assumption.
Defined.

Definition second : virtterm := default (Virtterm 0 0 0 0 [] [] (TtyDriver None 0)) (vt_terms booted !! 1%nat).
Lemma second_in : vt_terms booted !! 1%nat = Some second.
Proof. vm_compute. reflexivity. Qed.
(** Hi, a newline, ok, and one character back. *)
Definition hi : list Z := [72; 105; 10; 111; 107; 8].
Lemma hi_typed : (let tp := type_string (text second) (place second) hi in (take 3 tp.1, take 3 (drop 80 tp.1), tp.2)) = ([72; 105; 0], [111; 107; 0], 81).
Proof. vm_compute. reflexivity. Qed.

Lemma provide_all_text_witness :
  sys_ok booted ∧ vt_terms booted !! 1%nat = Some second ∧ ∃ s' vt', provide_all 1 hi booted = RRet tt s' ∧ vt_terms s' !! 1%nat = Some vt' ∧
    (take 3 (text vt'), take 3 (drop 80 (text vt')), place vt') = ([72; 105; 0], [111; 107; 0], 81).
Proof.
  split; [exact booted_ok|split; [exact second_in|]]. destruct (provide_all_text booted 1 hi second booted_ok second_in) as (s' & vt' & E & Hvt & Ht & _).
  exists s', vt'. split; [exact E|split; [exact Hvt|]]. rewrite <- hi_typed, <- Ht. reflexivity.
Defined.

(** A callback for the first terminal, and the text Go! with a newline. *)
Definition listening : terminals := if run_events [EvRegister 0 (Some 7) 5] booted is RRet _ s then s else booted.
Lemma listening_ok : sys_ok listening.
Proof.
  destruct (events_run [EvRegister 0 (Some 7) 5] booted booted_ok) as (s & E & Hok & _); [valid_events|].
  unfold listening. by rewrite E.
Qed.
Lemma listening_hears : curmask listening = 0 ∧ ([71; 111; 33; 10] ≫= received listening) = [(7, 5, 71); (7, 5, 111); (7, 5, 33); (7, 5, 10)].
Proof. vm_compute. split; reflexivity. Qed.

Lemma typing_arrives_witness :
  run_events (EvKey <$> [0x2a; 0x22; 0xa2; 0xaa; 0x18; 0x98; 0x2a; 0x02; 0x82; 0xaa; 0x1c; 0x9c]) listening =
  RRet tt (add_callbacks [(7, 5, 71); (7, 5, 111); (7, 5, 33); (7, 5, 10)] listening).
Proof.
  rewrite <- (proj2 listening_hears). apply (typing_arrives listening [71; 111; 33; 10] listening_ok (proj1 listening_hears)).
  apply (bool_decide_unpack _). vm_compute. exact I.
Defined.

End Example.
